(* ===== verification/_CoqProject ===== *)
-Q . S2P
Prelude.v
Strings.v
Words.v
ListH.v
Spinlock.v
Kstate.v
ThreadCore.v
StrideHeap.v
Mlfq.v
Sched.v
SchedInv.v
CpuShare.v
Sample.v
SchedTheorems.v
Bio.v
Log.v
LogTheorems.v
Xem.v
XemStray.v
Rwlock.v
RwSpec.v
RwTheorems.v
Proc.v
Thread.v
BlockStore.v
Fs.v
FsAlloc.v
FsMap.v
FsFile.v
FsInode.v
FsDir.v
FsSample.v
FsTheorems.v
FsDirTheorems.v
Mkfs.v
MkfsImage.v
MkfsTheorems.v
MkfsPath.v
Ide.v
IdeTheorems.v
Pipe.v
Kalloc.v
Vm.v
VmMap.v
VmUser.v
VmAlloc.v
VmTheorems.v
VmFree.v
VmCopy.v
ProcTheorems.v
Syscall.v
Sysproc.v
SyscallTheorems.v
Digits.v
Console.v
ConsoleTheorems.v
Kbd.v
UserLib.v
Umalloc.v
UmallocTheorems.v
Grep.v
UserProgs.v
UserProgsTheorems.v
Sh.v
ShParse.v
ShTheorems.v
File.v
FileTheorems.v
Sysfile.v
SysfileTheorems.v
UThread.v
UThreadTheorems.v
Exec.v
ExecTheorems.v
Boot.v
BootTheorems.v
Mp.v
