(* ===== verification/Prelude.v ===== *)
(** * xv6 with MLFQ and stride scheduling, threads, semaphores and large files

    A model of the kernel under src/xv6-public and of a part of its user
    programs, with the theorems that make its parts correct.  Every routine
    is a function in a state and error monad ([M] below): the state is an
    explicit record, [panic], null dereferences, accesses outside an array
    and waiting for somebody else are the faults of [fault], and a C loop is
    [loop] with fuel.  Theorems about routines are weakest preconditions
    ([wp]), which include that the routine ends without a fault; so the fuel
    of every loop is proved to be enough for the states the theorem covers.

    ** Parts and files

    The process side.
    - [ListH]: list.h, intrusive rings on a memory of links, each routine
      refined to its operation on sequences.
    - [Spinlock]: spinlock.c and the per-CPU part of proc.c.
    - [Kstate]: proc.h, scheduler.h: the process table as one record.
    - [ThreadCore]: the walks over the threads of a process in thread.c.
    - [StrideHeap]: the heap of STRIDE threads in proc.c.
    - [Mlfq]: queues, pins, demotion, boost and selection of proc.c; a thread
      that another CPU runs stays queued, and selection deals with it.
    - [Sched]: set_cpu_share, stridelogic, scheduler, sched, yield, sleep,
      wakeup, kill and the context switch helpers of vm.c.  A routine that
      calls swtch is two definitions, before and after the switch.
    - [SchedInv], [CpuShare]: the run-state invariant and the ticket ledger.
    - [Proc], [Thread]: allocproc, fork, exit, wait, growproc, thread_create,
      thread_exit, thread_join, monopolize_proc and their helpers, split
      where they sleep.  Memory and files are the interfaces [KMem], [KFile].

    Synchronisation in user space.
    - [Xem]: xem.c, semaphores as threads that interleave at every shared
      access, over the effect of futex_wait and futex_wake (futex.c).
      [XemStray]: the same with the wakeups that come from elsewhere, since
      futex_wait sleeps on the thread's own proc, which exit and thread_exit
      of its children wake as well, and does not test again.
    - [Rwlock]: the readers-writer lock of xem.c as threads that run the four
      routines on three semaphores of [Xem], with every return of -1.
      [RwSpec]: the protocol it is meant to follow, on counted units;
      [RwTheorems]: the lock simulates it.
    - [UThread]: uthread.c, reads and writes of a file under such a lock,
      interleaved at the steps of the lock and at the transactions of [File],
      which is one instance of the class [SharedFile].

    Storage.
    - [Strings]: string.c on a byte memory.  [Words]: words of a block.
    - [Bio]: sleeplock.c, memide.c, bio.c.  [Log]: log.c.
    - [BlockStore]: the class [BlockOps] of what fs.c calls and [BlockLaws]
      of what it relies on, with the instance the log provides.
    - [Fs]: fs.c; [FsAlloc] the bitmap, [FsMap] the block map with its triple
      indirect blocks, [FsFile] contents, [FsInode] the on-disk inode,
      [FsDir] the entries of a directory and the inode cache.
    - [Ide]: ide.c, the request queue and the commands to the controller,
      whose ports are the class [IdePorts].  memide.c in [Bio] is the other
      driver the Makefile can link; [IdeTheorems] relates the two.
    - [Mkfs]: mkfs.c, which makes the image; [MkfsImage] what it builds.
    - [Boot]: bootmain.c, which loads the kernel from the disk of [Ide].
      [Mp]: mp.c, the tables of the BIOS that list the processors.
    - [Pipe]: pipe.c as rounds between sleeps.
    - [File]: file.c and pipealloc, over [Fs], [Pipe] and [Kalloc].

    Memory.
    - [Kalloc]: kalloc.c, the free list inside the free pages.
    - [Vm]: vm.c, two-level page tables in those pages; [VmMap] what a table
      maps, [VmUser], [VmAlloc] and [VmFree] the user part of an address
      space, [VmCopy] its bytes.

    The system-call layer.
    - [Syscall]: syscall.c, arguments on the user stack and the table of
      calls.  [Sysproc]: sysproc.c, futex.c and trap.c, split where a call
      sleeps and where a trap may switch.  [Sysfile]: sysfile.c over [File].
      User memory, the clock and the device handlers are the interfaces
      [UMem], [HasFiles], [Clock] and [Devices].  [Exec]: exec.c over the
      file system, the memory and the threads.

    Devices.
    - [Console]: console.c and uartputc; [Kbd]: kbd.c with the tables of
      kbd.h, and a keyboard as keys pressed and released.  [Digits]: the digit loop that both printint routines share.

    User programs.
    - [Sh]: sh.c, the parser on the line buffer and runcmd; [ShParse] that it
      ends.  [Grep]: grep.c, the matcher and the loop over the buffer.
    - [UserProgs]: cat.c, wc.c and echo.c over the class [FileCalls].
    - [UserLib]: printf.c and the routines of ulib.c.  [Umalloc]: umalloc.c.

    [Sample] and [FsSample] are the concrete states on which the theorems
    are instantiated.

    ** What the theorems show

    - [SchedTheorems]: selection returns the pinned thread of the highest
      level it does not pass over, and which levels it passes over: the empty
      ones, and some whose pinned thread runs on another CPU; queueing keeps the threads of a process together; demotion and boost; going to
      sleep and waking keep the run-state invariant and touch exactly the
      threads concerned; tickets always add up to 100, which bounds the
      heap; popping returns a least pass.
    - [LogTheorems]: a commit is atomic for a crash at every disk write; the
      cache is coherent; what a reservation of begin_op guarantees, and that
      with the log area mkfs makes three full operations overrun it.
    - [ProcTheorems]: booting establishes the invariants; allocproc manages the
      pool of free entries on every branch.
    - [XemStray]: under every interleaving of any number of threads at most
      1 + n of them hold a semaphore after n wakeups from outside it, and
      with fewer than 64 threads and no such wakeup no wait fails; two do
      hold it after one.  [Xem]: a schedule in which a wakeup is lost.
    - [RwTheorems]: a writer is alone and no routine fails, under every
      interleaving of fewer than 64 threads whose children do not exit in
      the meantime; without that condition a reader and a writer meet.
      Whether a waiting thread goes on is not claimed, for wakeups are lost.
    - [FsTheorems]: allocation, the block map, writing and reading back,
      inodes on disk, path elements; for every [BlockLaws], run on the log.
    - [FsDirTheorems]: what dirlink enters, dirlookup finds.
    - [MkfsTheorems]: on the image that mkfs makes, the kernel reads back the
      files it was made from and finds the layout it relies on; the root
      directory, and when its last block is missing.  [MkfsPath]: from the
      path name to the bytes of the file.
    - [IdeTheorems]: the driver serves requests in order, a read with the
      block unless the controller reported an error for that command, a write
      on the disk unless it failed, under the laws of the controller
      ([IdeLaws]); it agrees with the memory disk.
    - [BootTheorems]: the segments of the kernel are in place when bootmain
      jumps.  [Mp]: mpinit finds the processors of the table, and never
      returns from an entry of an unknown type.
    - [UThreadTheorems]: calls through a guard are atomic under every
      interleaving, for every [SharedLaws] and under the conditions of the
      lock; the guard's life on the heap.
    - [UserProgsTheorems]: cat copies and wc counts however the file arrives.
    - [Kalloc], [VmTheorems], [VmFree]: pages are conserved; mappages maps
      exactly its range; allocuvm is all or nothing; freevm gives back exactly
      the pages of the address space.
    - [ExecTheorems]: main finds its arguments on the new stack.
    - [SyscallTheorems]: which buffers and strings of the user the kernel
      accepts, and that the bound checks can wrap around.
    - [SysfileTheorems]: through every sequence of file calls the reference
      counts are the numbers of descriptors.
    - [ConsoleTheorems], [Kbd]: the input ring is a line editor on two lists,
      a typed line is what is read, a redraw of a full ring loses a byte; the
      bytes of the keyboard become the characters of the keys, with the
      shift, control and lock keys, and reach the console.
    - [ShTheorems], [ShParse]: commands survive printing and parsing, every
      line is parsed or refused, and runcmd wires the descriptors of every
      program.
    - [UserLib], [UmallocTheorems]: numbers survive printf and atoi; malloc
      and free keep the heap tiled by live and free blocks.
    - [Pipe], [FileTheorems]: pipes are bounded FIFOs although the counters
      wrap; reference counts are exact; positions of read and pread; the
      failure paths of pipealloc.
    - [Strings], [Grep]: copying, names, and patterns against their
      declarative meaning.

    ** Conventions

    Integers are [Z] with [u32], [s32] where the code can wrap; structures
    are records, tables are finite maps with the zeroes of the BSS outside.
    Sections under a spin lock are single steps.  A loop has the fuel of its
    bound in the code (table sizes, byte counts); [strlen], [grep], [malloc]
    and [free] take the fuel as an argument and their theorems say how much
    is enough.  Messages to the console are left out of the kernel routines.

    ** Not modelled

    Threads killed while they wait in futex_wait.  Assembly, main.c and the interrupt controllers (lapic.c, ioapic.c,
    picirq.c): registers and start-up order.
    procdump, getcallerpcs: debugging output.  seginit, kvmalloc, tvinit:
    processor registers.  Test programs, and the user programs that only
    make system calls (ls.c, rm.c, init.c and the like). *)

From stdpp Require Export strings base tactics numbers option fin_maps gmap list.
From stdpp Require Import pretty.

#[global] Set Default Goal Selector "!".
#[global] Set Warnings "-level-tolerance".

(** ** Faults

    What can stop a kernel or user routine.  [Panic] is the code's own
    [panic()]; [NullDeref] is a load or store through a null pointer;
    [WildPtr] is [container_of] applied to something that is not inside the
    expected structure; [OutOfBounds] is an array access outside the array;
    [DivByZero] an integer division by zero; [Spin] is a spin lock that is
    held by somebody else (the routine would loop until another CPU releases
    it); [OutOfFuel] is a loop bound of the model that was too small. *)
Inductive fault :=
| Panic (msg : string)
| NullDeref
| WildPtr
| OutOfBounds
| DivByZero
| Spin
| OutOfFuel.

Inductive res (A : Type) :=
| Ok (a : A)
| Err (f : fault).
Arguments Ok {A} a.
Arguments Err {A} f.

(** ** The state-and-fault monad *)

Definition M (S A : Type) : Type := S → res (A * S).

#[global] Instance M_ret S : MRet (M S) := λ A a s, Ok (a, s).
#[global] Instance M_bind S : MBind (M S) := λ A B f m s,
  match m s with
  | Ok (a, s') => f a s'
  | Err e => Err e
  end.

Definition fail {S A} (f : fault) : M S A := λ _, Err f.
Definition panic {S A} (msg : string) : M S A := fail (Panic msg).
Definition gets {S A} (f : S → A) : M S A := λ s, Ok (f s, s).
Definition modify {S} (f : S → S) : M S unit := λ s, Ok (tt, f s).

(** Following a pointer: [None] is the null pointer. *)
Definition deref {S A} (p : option A) : M S A :=
  match p with Some a => mret a | None => fail NullDeref end.

Definition when {S} (b : bool) (m : M S unit) : M S unit :=
  if b then m else mret tt.

(** Running a routine on a component of a larger state. *)
Definition zoom {S T A} (get : S → T) (set : T → S → S) (m : M T A) : M S A := λ s,
  match m (get s) with
  | Ok (a, t) => Ok (a, set t s)
  | Err e => Err e
  end.

(** A C loop: the body returns [inl] to go round again and [inr] to leave. *)
Fixpoint loop {S A B} (fuel : nat) (body : A → M S (A + B)) (a : A) : M S B :=
  match fuel with
  | O => fail OutOfFuel
  | S n => r ← body a; match r with inl a' => loop n body a' | inr b => mret b end
  end.

(** [for(x in l) body(x)] over a list known in advance (an index range). *)
Fixpoint for_each {S A} (l : list A) (body : A → M S unit) : M S unit :=
  match l with
  | [] => mret tt
  | x :: l' => body x;; for_each l' body
  end.

(** ** Total-correctness reasoning

    [wp m Q s]: from [s], [m] returns (no fault, enough fuel) in a state and
    with a value satisfying [Q]. *)
Definition wp {S A} (m : M S A) (Q : A → S → Prop) (s : S) : Prop :=
  match m s with Ok (a, s') => Q a s' | Err _ => False end.

Section wp_rules.
Context {S : Type}.
Implicit Types s : S.

Lemma wp_ok {A} (m : M S A) Q s :
  wp m Q s ↔ ∃ a s', m s = Ok (a, s') ∧ Q a s'.
Proof.
  unfold wp. destruct (m s) as [[a s']|e].
  - split; [by eauto|by intros (?&?&[= <- <-]&?)].
  - split; [done|by intros (?&?&?&?)].
Qed.

Lemma wp_eq {A} (m : M S A) Q s a s' : m s = Ok (a, s') → Q a s' → wp m Q s.
Proof. unfold wp. by intros ->. Qed.

Lemma wp_mono {A} (m : M S A) (Q Q' : A → S → Prop) s :
  wp m Q s → (∀ a s', Q a s' → Q' a s') → wp m Q' s.
Proof. unfold wp. destruct (m s) as [[??]|]; eauto. Qed.

Lemma wp_ret {A} (a : A) (Q : A → S → Prop) s : Q a s → wp (mret a) Q s.
Proof. done. Qed.

Lemma wp_bind {A B} (m : M S A) (f : A → M S B) Q s :
  wp m (λ a, wp (f a) Q) s → wp (m ≫= f) Q s.
Proof. unfold wp, mbind, M_bind. by destruct (m s) as [[??]|]. Qed.

Lemma wp_bind_inv {A B} (m : M S A) (f : A → M S B) Q s :
  wp (m ≫= f) Q s → wp m (λ a, wp (f a) Q) s.
Proof. unfold wp, mbind, M_bind. by destruct (m s) as [[??]|]. Qed.

Lemma wp_gets {A} (f : S → A) (Q : A → S → Prop) s : Q (f s) s → wp (gets f) Q s.
Proof. done. Qed.

Lemma wp_modify (f : S → S) (Q : unit → S → Prop) s : Q tt (f s) → wp (modify f) Q s.
Proof. done. Qed.

Lemma wp_deref {A} (p : option A) (a : A) (Q : A → S → Prop) s :
  p = Some a → Q a s → wp (deref p) Q s.
Proof. by intros ->. Qed.

Lemma wp_when (b : bool) (m : M S unit) (Q : unit → S → Prop) s :
  (b = true → wp m Q s) → (b = false → Q tt s) → wp (when b m) Q s.
Proof. destruct b; simpl; intros H1 H2; [by apply H1|by apply wp_ret, H2]. Qed.

Lemma wp_zoom {T A} (get : S → T) (set : T → S → S) (m : M T A) (Q : A → S → Prop) s :
  wp m (λ a t, Q a (set t s)) (get s) → wp (zoom get set m) Q s.
Proof. unfold wp, zoom. by destruct (m (get s)) as [[??]|]. Qed.

(** A loop whose body decreases a measure terminates with enough fuel. *)
Lemma wp_loop {A B} (I : nat → A → S → Prop) (body : A → M S (A + B)) (Q : B → S → Prop) :
  (∀ n a s, I n a s →
     wp (body a) (λ r s', match r with
                          | inl a' => ∃ n', n' < n ∧ I n' a' s'
                          | inr b => Q b s'
                          end) s) →
  ∀ n fuel a s, n < fuel → I n a s → wp (loop fuel body a) Q s.
Proof.
  intros Hbody n fuel. revert n.
  induction fuel as [|fuel IH]; intros n a s Hlt HI; [lia|].
  simpl. apply wp_bind. eapply wp_mono; [by apply Hbody|].
  intros [a'|b] s'; simpl.
  - intros (n' & Hn' & HI'). eapply (IH n'); [lia|done].
  - done.
Qed.

(** A counted loop carries an invariant indexed by what was processed. *)
Lemma wp_for_each {A} (I : list A → S → Prop) (body : A → M S unit) l s :
  I [] s →
  (∀ done x rest s, l = done ++ x :: rest → I done s →
     wp (body x) (λ _ s', I (done ++ [x]) s') s) →
  wp (for_each l body) (λ _ s', I l s') s.
Proof.
  intros H0 Hstep.
  assert (∀ rest dn s, l = dn ++ rest → I dn s →
            wp (for_each rest body) (λ _ s', I l s') s) as Hgen.
  { induction rest as [|x rest IH]; intros dn s0 -> HI; simpl.
    - apply wp_ret. by rewrite app_nil_r.
    - apply wp_bind. eapply wp_mono; [by eapply Hstep|].
      intros [] s1 HI'. simpl. apply (IH (dn ++ [x])); [|done].
      by rewrite <-app_assoc. }
  by apply (Hgen l []).
Qed.

(** The same for [for(k = 0; k < n; k++)]. *)
Lemma wp_for_seq (I : nat → S → Prop) (body : nat → M S unit) n s :
  I 0 s →
  (∀ k s, k < n → I k s → wp (body k) (λ _ s', I (1 + k) s') s) →
  wp (for_each (seq 0 n) body) (λ _ s', I n s') s.
Proof.
  intros H0 Hstep.
  assert (∀ m k s, k + m = n → I k s → wp (for_each (seq k m) body) (λ _ s', I n s') s) as Hgen.
  { induction m as [|m IH]; intros k s0 E HI; simpl.
    - apply wp_ret. by replace n with k by lia.
    - apply wp_bind. eapply wp_mono; [apply Hstep; [lia|done]|]. intros [] s1 HI'. apply IH; [lia|done]. }
  by apply (Hgen n 0).
Qed.
End wp_rules.

(** Monad laws used when a routine is unfolded into its pieces. *)
Lemma bind_ok {S A B} (m : M S A) (f : A → M S B) s a s' :
  m s = Ok (a, s') → (m ≫= f) s = f a s'.
Proof. unfold mbind, M_bind. by intros ->. Qed.

Lemma bind_err {S A B} (m : M S A) (f : A → M S B) s e :
  m s = Err e → (m ≫= f) s = Err e.
Proof. unfold mbind, M_bind. by intros ->. Qed.

Lemma bind_ret_r {S A} (m : M S A) s : (m ≫= mret) s = m s.
Proof. unfold mbind, M_bind. by destruct (m s) as [[]|]. Qed.

Lemma bind_ext {S A B} (m : M S A) (f g : A → M S B) s : (∀ a s', f a s' = g a s') → (m ≫= f) s = (m ≫= g) s.
Proof. intros Hfg. unfold mbind, M_bind. by destruct (m s) as [[]|]. Qed.

Lemma zoom_ok {S T A} (get : S → T) (set : T → S → S) (m : M T A) s a t :
  m (get s) = Ok (a, t) → zoom get set m s = Ok (a, set t s).
Proof. unfold zoom. by intros ->. Qed.

Lemma loop_inl {S A B} n (body : A → M S (A + B)) a s a' s' :
  body a s = Ok (inl a', s') → loop (Datatypes.S n) body a s = loop n body a' s'.
Proof. intros Hb. cbn [loop]. by rewrite (bind_ok _ _ _ _ _ Hb). Qed.

Lemma loop_inr {S A B} n (body : A → M S (A + B)) a s b s' :
  body a s = Ok (inr b, s') → loop (Datatypes.S n) body a s = Ok (b, s').
Proof. intros Hb. cbn [loop]. by rewrite (bind_ok _ _ _ _ _ Hb). Qed.

Lemma loop_err {S A B} n (body : A → M S (A + B)) a s e :
  body a s = Err e → loop (Datatypes.S n) body a s = Err e.
Proof. intros Hb. cbn [loop]. by rewrite (bind_err _ _ _ _ Hb). Qed.

(** [wstep] performs one structural step of a [wp] goal. *)
Ltac wstep :=
  lazymatch goal with
  | |- wp (mret _) _ _ => apply wp_ret
  | |- wp (_ ≫= _) _ _ => apply wp_bind
  | |- wp (gets _) _ _ => apply wp_gets
  | |- wp (modify _) _ _ => apply wp_modify
  | |- wp (when _ _) _ _ => apply wp_when; intros ?
  | |- wp (zoom _ _ _) _ _ => apply wp_zoom
  | |- wp (deref (Some _)) _ _ => apply (wp_deref _ _ _ _ eq_refl)
  | |- wp (deref _) _ _ => eapply wp_deref
  end; cbv beta.

Ltac wsteps := repeat wstep.

(** Use a [wp] fact about a call as a step of a larger routine. *)
Tactic Notation "wcall" uconstr(H) := eapply wp_mono; [ eapply H | ]; cbv beta.

(** ** Lists *)

Lemma filter_ext_in {A} (P1 P2 : A → Prop) `{∀ x, Decision (P1 x), ∀ x, Decision (P2 x)} (l : list A) :
  (∀ x, x ∈ l → P1 x ↔ P2 x) → filter P1 l = filter P2 l.
Proof.
  induction l as [|x l IH]; intros Hl; [done|]. rewrite !filter_cons, IH by set_solver.
  specialize (Hl x ltac:(set_solver)). repeat case_decide; tauto || done.
Qed.

Lemma filter_all {A} (P : A → Prop) `{∀ x, Decision (P x)} (l : list A) :
  (∀ x, x ∈ l → P x) → filter P l = l.
Proof.
  induction l as [|x l IH]; intros Hl; [done|]. rewrite filter_cons, IH by set_solver.
  rewrite decide_True by set_solver. done.
Qed.

Lemma filter_none {A} (P : A → Prop) `{∀ x, Decision (P x)} (l : list A) :
  (∀ x, x ∈ l → ¬ P x) → filter P l = [].
Proof.
  induction l as [|x l IH]; intros Hl; [done|]. rewrite filter_cons, IH by set_solver.
  rewrite decide_False by set_solver. done.
Qed.

(** ** Machine integers *)

Open Scope Z_scope.

Definition two32 : Z := 4294967296.
(** The value an [unsigned int] holds after a computation. *)
Definition u32 (z : Z) : Z := z mod two32.
(** The value a two's complement [int] holds after a computation. *)
Definition s32 (z : Z) : Z := (z + 2147483648) mod two32 - 2147483648.

Definition is_u32 (z : Z) : Prop := 0 ≤ z < two32.
Definition is_s32 (z : Z) : Prop := -2147483648 ≤ z < 2147483648.

Lemma u32_small z : is_u32 z → u32 z = z.
Proof. unfold is_u32, u32. intros. by apply Z.mod_small. Qed.

Lemma u32_range z : is_u32 (u32 z).
Proof. unfold is_u32, u32, two32. apply Z.mod_pos_bound. lia. Qed.

Lemma s32_small z : is_s32 z → s32 z = z.
Proof. unfold is_s32, s32, two32. intros. rewrite Z.mod_small; lia. Qed.

(** Storing an [int] in an unsigned word and reading it back. *)
Lemma s32_mod z : is_s32 z → s32 (z mod two32) = z.
Proof.
  unfold is_s32, s32, two32. intros Hz. rewrite Zplus_mod_idemp_l. rewrite Z.mod_small; lia.
Qed.

Lemma s32_range z : is_s32 (s32 z).
Proof.
  unfold is_s32, s32, two32.
  pose proof (Z.mod_pos_bound (z + 2147483648) 4294967296 ltac:(lia)). lia.
Qed.

(** C's [/] truncates toward zero and faults on zero. *)
Definition idiv {S} (a b : Z) : M S Z :=
  if Z.eqb b 0 then fail DivByZero else mret (Z.quot a b).

Close Scope Z_scope.

#[global] Arguments loop : simpl never.

Create HintDb xv6.
#[export] Hint Resolve u32_range s32_range : xv6.
