(* ===== verification/Strings.v ===== *)
(** * Memory and string routines ([src/xv6-public/string.c])

    Memory is a finite map from addresses to bytes; touching an address that
    is not mapped is the fault [WildPtr].  The counted loops recurse on their
    counter; [strlen], which has none, runs on fuel, and its theorem gives
    the fuel that is enough.  Addresses are not wrapped at 32 bits: forming a
    pointer past the end of memory is undefined in C. *)

From S2P Require Import Prelude.

Open Scope Z_scope.

Abbreviation bmem := (gmap Z Z).
Abbreviation BM := (M bmem).

(** [*p] and [*p = v] for a [uchar] or [char] pointer (a byte is 0..255). *)
Definition ld8 (a : Z) : BM Z :=
  m ← gets (λ m, m !! a);
  match m with Some v => mret v | None => fail WildPtr end.
Definition st8 (a v : Z) : BM unit :=
  m ← gets (λ m, m !! a);
  match m with Some _ => modify (<[a := v mod 256]>) | None => fail WildPtr end.

(** The string instructions [rep stosb] and [rep stosl] of [x86.h]. *)
Fixpoint stosb (a data : Z) (cnt : nat) : BM unit :=
  match cnt with
  | O => mret tt
  | S cnt => st8 a data;; stosb (a + 1) data cnt
  end.

Fixpoint stosl (a data : Z) (cnt : nat) : BM unit :=
  match cnt with
  | O => mret tt
  | S cnt =>
      st8 a data;;
      st8 (a + 1) (Z.shiftr data 8);;
      st8 (a + 2) (Z.shiftr data 16);;
      st8 (a + 3) (Z.shiftr data 24);;
      stosl (a + 4) data cnt
  end.

Definition memset (dst c : Z) (n : nat) : BM Z :=
  (if Z.eqb (dst mod 4) 0 && Z.eqb (Z.of_nat n mod 4) 0 then
     let c := Z.land c 255 in
     stosl dst (Z.lor (Z.lor (Z.lor (Z.shiftl c 24) (Z.shiftl c 16)) (Z.shiftl c 8)) c) (n / 4)
   else stosb dst c n);;
  mret dst.

Fixpoint memcmp (s1 s2 : Z) (n : nat) : BM Z :=
  match n with
  | O => mret 0
  | S n =>
      a ← ld8 s1;
      b ← ld8 s2;
      if Z.eqb a b then memcmp (s1 + 1) (s2 + 1) n else mret (a - b)
  end.

(** The two loops of [memmove]. *)
Fixpoint copy_down (d s : Z) (n : nat) : BM unit :=
  match n with
  | O => mret tt
  | S n => v ← ld8 (s - 1); st8 (d - 1) v;; copy_down (d - 1) (s - 1) n
  end.

Fixpoint copy_up (d s : Z) (n : nat) : BM unit :=
  match n with
  | O => mret tt
  | S n => v ← ld8 s; st8 d v;; copy_up (d + 1) (s + 1) n
  end.

Definition memmove (dst src : Z) (n : nat) : BM Z :=
  (if Z.ltb src dst && Z.ltb dst (src + Z.of_nat n)
   then copy_down (dst + Z.of_nat n) (src + Z.of_nat n) n
   else copy_up dst src n);;
  mret dst.

Definition memcpy (dst src : Z) (n : nat) : BM Z := memmove dst src n.

Fixpoint strncmp (p q : Z) (n : nat) : BM Z :=
  match n with
  | O => mret 0
  | S n' =>
      a ← ld8 p;
      b ← ld8 q;
      if negb (Z.eqb a 0) && Z.eqb a b then strncmp (p + 1) (q + 1) n' else mret (a - b)
  end.

(** The padding loop of [strncpy]. *)
Fixpoint zero_fill (s : Z) (n : nat) : BM unit :=
  match n with O => mret tt | S n => st8 s 0;; zero_fill (s + 1) n end.

Fixpoint strncpy_loop (s t : Z) (n : nat) : BM unit :=
  match n with
  | O => mret tt
  | S n =>
      v ← ld8 t;
      st8 s v;;
      if Z.eqb v 0 then zero_fill (s + 1) n else strncpy_loop (s + 1) (t + 1) n
  end.

Definition strncpy (s t n : Z) : BM Z := strncpy_loop s t (Z.to_nat n);; mret s.

(** The copying loop of [safestrcpy], with [n - 1] bytes to go, and the final NUL. *)
Fixpoint safestrcpy_loop (s t : Z) (n : nat) : BM unit :=
  match n with
  | O => st8 s 0
  | S n =>
      v ← ld8 t;
      st8 s v;;
      if Z.eqb v 0 then st8 (s + 1) 0 else safestrcpy_loop (s + 1) (t + 1) n
  end.

Definition safestrcpy (s t n : Z) : BM Z :=
  if Z.leb n 0 then mret s
  else safestrcpy_loop s t (Z.to_nat (n - 1));; mret s.

Definition strlen (fuel : nat) (s : Z) : BM Z :=
  loop fuel (λ n, v ← ld8 (s + n); if Z.eqb v 0 then mret (inr n) else mret (inl (n + 1))) 0.

(** ** Ranges of memory *)

(** The bytes [l] stand in memory from [a] on. *)
Definition bytes_at (m : bmem) (a : Z) (l : list Z) : Prop :=
  ∀ i x, l !! i = Some x → m !! (a + Z.of_nat i) = Some x.

(** [n] mapped bytes from [a] on. *)
Definition mapped (m : bmem) (a : Z) (n : nat) : Prop :=
  ∀ i, (i < n)%nat → is_Some (m !! (a + Z.of_nat i)).

Definition is_byte (x : Z) : Prop := 0 ≤ x < 256.

(** Memory with the bytes [l] written from [a] on. *)
Fixpoint write_bytes (a : Z) (l : list Z) (m : bmem) : bmem :=
  match l with [] => m | x :: l => write_bytes (a + 1) l (<[a := x]> m) end.

Lemma write_bytes_lookup a l m b :
  write_bytes a l m !! b
  = if decide (a ≤ b < a + Z.of_nat (length l)) then l !! Z.to_nat (b - a) else m !! b.
Proof.
  revert a m. induction l as [|x l IH]; intros a m; cbn [write_bytes length].
  { rewrite decide_False by lia. done. }
  rewrite IH. destruct (decide (a = b)) as [->|Hne].
  - rewrite decide_False by lia. rewrite decide_True by lia. rewrite lookup_insert_eq.
    by replace (b - b) with 0 by lia.
  - rewrite lookup_insert_ne by done. case_decide.
    + rewrite decide_True by lia. replace (Z.to_nat (b - a)) with (S (Z.to_nat (b - (a + 1)))) by lia. done.
    + by rewrite decide_False by lia.
Qed.

Lemma write_bytes_app a l1 l2 m :
  write_bytes a (l1 ++ l2) m = write_bytes (a + Z.of_nat (length l1)) l2 (write_bytes a l1 m).
Proof.
  revert a m. induction l1 as [|x l1 IH]; intros a m; simpl; [by rewrite Z.add_0_r|].
  rewrite IH. f_equal. lia.
Qed.

Lemma write_bytes_at a l m : bytes_at (write_bytes a l m) a l.
Proof.
  intros i x Hx. pose proof (lookup_lt_Some _ _ _ Hx). rewrite write_bytes_lookup, decide_True by lia.
  by replace (Z.to_nat (a + Z.of_nat i - a)) with i by lia.
Qed.

Lemma write_bytes_mapped a l m b n : mapped m b n → mapped (write_bytes a l m) b n.
Proof.
  intros Hm i Hi. rewrite write_bytes_lookup. case_decide; [|by apply Hm].
  apply lookup_lt_is_Some_2. lia.
Qed.

Lemma bytes_at_mapped m a l : bytes_at m a l → mapped m a (length l).
Proof. intros Hb i Hi. destruct (lookup_lt_is_Some_2 l i Hi) as [x Hx]. rewrite (Hb _ _ Hx). eauto. Qed.

Lemma bytes_at_cons m a x l : bytes_at m a (x :: l) → m !! a = Some x ∧ bytes_at m (a + 1) l.
Proof.
  intros Hb. split; [rewrite <-(Z.add_0_r a); by apply (Hb 0%nat)|].
  intros i y Hy. rewrite <-(Hb (S i) y Hy). f_equal. lia.
Qed.

Lemma mapped_S m a n : mapped m a (S n) → is_Some (m !! a) ∧ mapped m (a + 1) n.
Proof.
  intros Hm. split; [rewrite <-(Z.add_0_r a); apply (Hm 0%nat); lia|].
  intros i Hi. specialize (Hm (S i) ltac:(lia)). by replace (a + 1 + Z.of_nat i) with (a + Z.of_nat (S i)) by lia.
Qed.

Lemma mapped_insert m a n b x : mapped m a n → mapped (<[b := x]> m) a n.
Proof. intros Hm i Hi. rewrite lookup_insert_is_Some'. right. by apply Hm. Qed.

Lemma ld8_run m a x : m !! a = Some x → ld8 a m = Ok (x, m).
Proof. intros Hx. unfold ld8, mbind, M_bind; simpl. by rewrite Hx. Qed.

Lemma st8_run m a v : is_Some (m !! a) → st8 a v m = Ok (tt, <[a := v mod 256]> m).
Proof. intros [x Hx]. unfold st8, mbind, M_bind; simpl. by rewrite Hx. Qed.

Lemma byte_mod x : is_byte x → x mod 256 = x.
Proof. unfold is_byte. intros. apply Z.mod_small. lia. Qed.

(** ** [memmove] copies as if through a buffer, however the ranges overlap *)

Lemma copy_up_run l : ∀ m d s,
  bytes_at m s l → mapped m d (length l) → Forall is_byte l →
  (d ≤ s ∨ s + Z.of_nat (length l) ≤ d) →
  copy_up d s (length l) m = Ok (tt, write_bytes d l m).
Proof.
  induction l as [|x l IH]; intros m d s Hs Hd Hb Hov; [done|].
  apply bytes_at_cons in Hs as [Hx Hs]. apply mapped_S in Hd as [Hd0 Hd].
  apply Forall_cons in Hb as [Hx' Hb]. cbn [length copy_up write_bytes].
  rewrite (bind_ok _ _ _ _ _ (ld8_run _ _ _ Hx)), (bind_ok _ _ _ _ _ (st8_run _ _ _ Hd0)).
  rewrite byte_mod by done. apply IH; [|by apply mapped_insert|done|simpl in Hov; lia].
  intros i y Hy. pose proof (lookup_lt_Some _ _ _ Hy). rewrite lookup_insert_ne; [by apply Hs|].
  simpl in Hov. lia.
Qed.

Lemma copy_down_run l : ∀ m d s,
  bytes_at m (s - Z.of_nat (length l)) l → mapped m (d - Z.of_nat (length l)) (length l) →
  Forall is_byte l → s < d →
  copy_down d s (length l) m = Ok (tt, write_bytes (d - Z.of_nat (length l)) l m).
Proof.
  induction l as [|x l IH] using rev_ind; intros m d s Hs Hd Hb Hlt; [done|].
  apply Forall_app in Hb as [Hb [Hx _]%Forall_cons]. rewrite length_app in *. cbn [length] in *.
  replace (length l + 1)%nat with (S (length l)) in * by lia. cbn [copy_down].
  assert (m !! (s - 1) = Some x) as Hl.
  { rewrite <-(Hs (length l) x) by (by apply list_lookup_middle). f_equal. lia. }
  assert (is_Some (m !! (d - 1))) as Hd1.
  { specialize (Hd (length l) ltac:(lia)).
    by replace (d - Z.of_nat (S (length l)) + Z.of_nat (length l)) with (d - 1) in Hd by lia. }
  rewrite (bind_ok _ _ _ _ _ (ld8_run _ _ _ Hl)), (bind_ok _ _ _ _ _ (st8_run _ _ _ Hd1)).
  rewrite byte_mod by done. rewrite IH.
  - do 2 f_equal. apply map_eq. intros b.
    rewrite !write_bytes_lookup, length_app. cbn [length].
    destruct (decide (b = d - 1)) as [->|Hne].
    + rewrite decide_False by lia. rewrite decide_True by lia. rewrite lookup_insert_eq.
      replace (Z.to_nat (d - 1 - (d - Z.of_nat (S (length l))))) with (length l) by lia.
      by rewrite list_lookup_middle.
    + rewrite lookup_insert_ne by done. case_decide.
      * rewrite decide_True by lia. rewrite lookup_app_l by lia. f_equal. lia.
      * by rewrite decide_False by lia.
  - intros i y Hy. pose proof (lookup_lt_Some _ _ _ Hy). rewrite lookup_insert_ne by lia.
    rewrite <-(Hs i y) by (by rewrite lookup_app_l). f_equal. lia.
  - intros i Hi. rewrite lookup_insert_is_Some'. right. specialize (Hd i ltac:(lia)).
    by replace (d - 1 - Z.of_nat (length l) + Z.of_nat i) with (d - Z.of_nat (S (length l)) + Z.of_nat i) by lia.
  - done.
  - lia.
Qed.

Lemma memmove_run m dst src l :
  bytes_at m src l → mapped m dst (length l) → Forall is_byte l →
  memmove dst src (length l) m = Ok (dst, write_bytes dst l m).
Proof.
  intros Hs Hd Hb. unfold memmove.
  destruct (Z.ltb_spec src dst), (Z.ltb_spec dst (src + Z.of_nat (length l))); cbn [andb].
  1: { rewrite (bind_ok _ _ _ tt (write_bytes dst l m)); [done|].
       rewrite copy_down_run; [do 3 f_equal; lia| | |done|lia].
       - by replace (src + Z.of_nat (length l) - Z.of_nat (length l)) with src by lia.
       - by replace (dst + Z.of_nat (length l) - Z.of_nat (length l)) with dst by lia. }
  all: rewrite (bind_ok _ _ _ tt (write_bytes dst l m)); [done|]; apply copy_up_run; try done; lia.
Qed.

(** ** [memset] *)

Lemma stosb_run n c : ∀ m a, mapped m a n →
  stosb a c n m = Ok (tt, write_bytes a (replicate n (c mod 256)) m).
Proof.
  induction n as [|n IH]; intros m a Hm; [done|]. apply mapped_S in Hm as [H0 Hm].
  cbn [stosb]. rewrite (bind_ok _ _ _ _ _ (st8_run _ _ _ H0)). by apply IH, mapped_insert.
Qed.

(** The word [(c<<24)|(c<<16)|(c<<8)|c] has the byte [c] at every place. *)
Lemma splat_bytes c : is_byte c →
  let w := Z.lor (Z.lor (Z.lor (Z.shiftl c 24) (Z.shiftl c 16)) (Z.shiftl c 8)) c in
  w mod 256 = c ∧ Z.shiftr w 8 mod 256 = c ∧ Z.shiftr w 16 mod 256 = c ∧ Z.shiftr w 24 mod 256 = c.
Proof.
  intros Hc. cbv zeta.
  assert (∀ i, 8 ≤ i → Z.testbit c i = false) as Hhi.
  { intros i Hi. unfold is_byte in Hc. destruct (decide (c = 0)) as [->|]; [by apply Z.testbit_0_l|].
    apply Z.bits_above_log2; [lia|]. assert (Z.log2 c < 8); [|lia]. apply Z.log2_lt_pow2; lia. }
  assert (∀ x, (∀ i, 0 ≤ i < 8 → Z.testbit x i = Z.testbit c i) → x mod 256 = c) as Hm.
  { intros x Hx. apply Z.bits_inj'. intros i Hi. change 256 with (2 ^ 8).
    destruct (decide (i < 8)); [rewrite Z.mod_pow2_bits_low by lia; apply Hx; lia|].
    rewrite Z.mod_pow2_bits_high by lia. by rewrite Hhi by lia. }
  split_and!; apply Hm; intros i Hi.
  all: rewrite ?Z.shiftr_spec by lia; rewrite !Z.lor_spec, !Z.shiftl_spec by lia.
  - rewrite !(Z.testbit_neg_r c) by lia. done.
  - rewrite (Z.testbit_neg_r c (i + 8 - 24)), (Z.testbit_neg_r c (i + 8 - 16)) by lia.
    rewrite (Hhi (i + 8)) by lia. rewrite orb_false_r. simpl. f_equal. lia.
  - rewrite (Z.testbit_neg_r c (i + 16 - 24)), (Hhi (i + 16 - 8)), (Hhi (i + 16)) by lia.
    rewrite !orb_false_r. simpl. f_equal. lia.
  - rewrite (Hhi (i + 24 - 16)), (Hhi (i + 24 - 8)), (Hhi (i + 24)) by lia.
    rewrite !orb_false_r. f_equal. lia.
Qed.

Lemma stosl_run n c : is_byte c → ∀ m a, mapped m a (4 * n) →
  stosl a (Z.lor (Z.lor (Z.lor (Z.shiftl c 24) (Z.shiftl c 16)) (Z.shiftl c 8)) c) n m
  = Ok (tt, write_bytes a (replicate (4 * n) c) m).
Proof.
  intros Hc. destruct (splat_bytes c Hc) as (H0 & H1 & H2 & H3).
  induction n as [|n IH]; intros m a Hm; [done|].
  replace (4 * S n)%nat with (S (S (S (S (4 * n))))) in * by lia.
  apply mapped_S in Hm as [Ha Hm]. apply mapped_S in Hm as [Hb Hm].
  apply mapped_S in Hm as [Hd Hm]. apply mapped_S in Hm as [He Hm].
  replace (a + 1 + 1) with (a + 2) in * by lia. replace (a + 2 + 1) with (a + 3) in * by lia.
  replace (a + 3 + 1) with (a + 4) in * by lia.
  cbn [stosl]. rewrite (bind_ok _ _ _ _ _ (st8_run _ _ _ Ha)).
  do 3 (erewrite bind_ok; [|apply st8_run; rewrite ?lookup_insert_is_Some'; tauto]).
  rewrite IH by (by repeat apply mapped_insert). rewrite H0, H1, H2, H3. cbn [replicate write_bytes].
  by replace (a + 1 + 1) with (a + 2) by lia; replace (a + 2 + 1) with (a + 3) by lia;
    replace (a + 3 + 1) with (a + 4) by lia.
Qed.

Lemma memset_run m dst c n :
  mapped m dst n → memset dst c n m = Ok (dst, write_bytes dst (replicate n (c mod 256)) m).
Proof.
  intros Hm. unfold memset.
  destruct (Z.eqb_spec (dst mod 4) 0), (Z.eqb_spec (Z.of_nat n mod 4) 0) as [Hn|]; cbn [andb].
  1: { assert (Z.land c 255 = c mod 256) as -> by (change 255 with (Z.ones 8); by rewrite Z.land_ones).
       assert (4 * (n / 4) = n)%nat as H4.
       { change 4 with (Z.of_nat 4) in Hn. rewrite <-Nat2Z.inj_mod in Hn.
         pose proof (Nat.div_mod_eq n 4). lia. }
       rewrite (bind_ok _ _ _ tt (write_bytes dst (replicate n (c mod 256)) m)); [done|].
       rewrite stosl_run; [by rewrite H4|apply Z.mod_pos_bound; lia|by rewrite H4]. }
  all: by rewrite (bind_ok _ _ _ _ _ (stosb_run n c m dst Hm)).
Qed.

(** ** C strings *)

(** The characters before the first NUL. *)
Fixpoint cstr (l : list Z) : list Z :=
  match l with [] => [] | x :: l => if Z.eqb x 0 then [] else x :: cstr l end.

(** Enough bytes for a routine that stops at the first NUL or after [n]. *)
Definition cstr_in (n : nat) (l : list Z) : Prop := 0 ∈ l ∨ (n ≤ length l)%nat.

Lemma cstr_in_cons n x l : cstr_in (S n) (x :: l) → x ≠ 0 → cstr_in n l.
Proof. intros [[?|?]%elem_of_cons|?] Hx; [done|by left|right]. simpl in *. lia. Qed.

(** [strncmp] is zero exactly when the first [n] characters agree. *)
Lemma strncmp_run n : ∀ m p q lp lq,
  bytes_at m p lp → bytes_at m q lq → cstr_in n lp → cstr_in n lq →
  ∃ r, strncmp p q n m = Ok (r, m) ∧ (r = 0 ↔ take n (cstr lp) = take n (cstr lq)).
Proof.
  induction n as [|n IH]; intros m p q lp lq Hp Hq Hlp Hlq; [by exists 0|].
  destruct lp as [|a lp]; [by destruct Hlp as [?%not_elem_of_nil|?]; [done|simpl in *; lia]|].
  destruct lq as [|b lq]; [by destruct Hlq as [?%not_elem_of_nil|?]; [done|simpl in *; lia]|].
  apply bytes_at_cons in Hp as [Ha Hp]. apply bytes_at_cons in Hq as [Hb Hq].
  cbn [strncmp]. rewrite (bind_ok _ _ _ _ _ (ld8_run _ _ _ Ha)), (bind_ok _ _ _ _ _ (ld8_run _ _ _ Hb)).
  cbn [cstr]. destruct (Z.eqb_spec a 0) as [->|Ha0]; cbn [andb negb].
  - exists (0 - b). split; [done|]. destruct (Z.eqb_spec b 0) as [->|]; [done|]. simpl. split; [lia|done].
  - destruct (Z.eqb_spec a b) as [<-|Hab].
    + destruct (IH m (p + 1) (q + 1) lp lq) as (r & Hr & Hr0); [done..| | |].
      { by eapply cstr_in_cons. } { by eapply cstr_in_cons. }
      exists r. split; [done|]. destruct (Z.eqb_spec a 0); [done|]. simpl. rewrite Hr0.
      split; [by intros ->|by intros [= ->]].
    + exists (a - b). split; [done|]. destruct (Z.eqb_spec b 0) as [->|]; simpl; (split; [lia|]); [done|congruence].
Qed.

(** What [strncpy] writes: the string cut at [n] and padded with NULs. *)
Definition strncpy_bytes (n : nat) (t : list Z) : list Z :=
  take n (cstr t) ++ replicate (n - length (cstr t)) 0.

Lemma zero_fill_run n : ∀ m s, mapped m s n →
  zero_fill s n m = Ok (tt, write_bytes s (replicate n 0) m).
Proof.
  induction n as [|n IH]; intros m s Hm; [done|]. apply mapped_S in Hm as [H0 Hm].
  cbn [zero_fill]. rewrite (bind_ok _ _ _ _ _ (st8_run _ _ _ H0)). by apply IH, mapped_insert.
Qed.

(** The source is not overwritten by the copy. *)
Definition apart (s t : Z) (n : nat) : Prop := s + Z.of_nat n ≤ t ∨ t + Z.of_nat n ≤ s.

Lemma strncpy_loop_run n : ∀ m s t l,
  mapped m s n → bytes_at m t l → Forall is_byte l → cstr_in n l → apart s t n →
  strncpy_loop s t n m = Ok (tt, write_bytes s (strncpy_bytes n l) m).
Proof.
  induction n as [|n IH]; intros m s t l Hs Ht Hb Hl Hap; [done|].
  destruct l as [|x l]; [by destruct Hl as [?%not_elem_of_nil|?]; [done|simpl in *; lia]|].
  apply mapped_S in Hs as [H0 Hs]. apply bytes_at_cons in Ht as [Hx Ht].
  apply Forall_cons in Hb as [Hbx Hb]. cbn [strncpy_loop].
  rewrite (bind_ok _ _ _ _ _ (ld8_run _ _ _ Hx)), (bind_ok _ _ _ _ _ (st8_run _ _ _ H0)).
  rewrite byte_mod by done. unfold strncpy_bytes. cbn [cstr]. destruct (Z.eqb_spec x 0) as [->|Hx0].
  - rewrite zero_fill_run by by apply mapped_insert. done.
  - cbn [take app write_bytes length]. rewrite Nat.sub_succ.
    destruct (decide (n = 0%nat)) as [->|]; [done|].
    assert (apart (s + 1) (t + 1) n) as Hap' by (unfold apart in *; lia).
    (* only the part of [l] that is read matters *)
    assert (bytes_at (<[s:=x]> m) (t + 1) (take n l)) as Ht'.
    { intros i y Hy. pose proof (lookup_lt_Some _ _ _ Hy) as Hi. rewrite length_take in Hi.
      rewrite lookup_take_lt in Hy by lia. rewrite lookup_insert_ne; [by apply Ht|].
      unfold apart in Hap. lia. }
    rewrite (IH _ _ _ (take n l)); [|by apply mapped_insert|done|by apply Forall_take| |done].
    + do 3 f_equal. unfold strncpy_bytes. 
      assert (∀ k (l' : list Z), take k (cstr (take k l')) = take k (cstr l') ∧
                (k - length (cstr (take k l')) = k - length (cstr l'))%nat) as Hcut.
      { clear. induction k as [|k IH]; intros [|y l']; simpl; [done..|].
        destruct (Z.eqb y 0); simpl; [done|]. destruct (IH l') as [Hk1 Hk2]. split; [congruence|lia]. }
      by destruct (Hcut n l) as [-> ->].
    + apply cstr_in_cons in Hl; [|done]. destruct Hl as [Hl|Hl]; [|right; rewrite length_take; lia].
      destruct (decide (n ≤ length l)%nat); [right; rewrite length_take; lia|left].
      by rewrite take_ge by lia.
Qed.

Lemma length_strncpy_bytes n t : length (strncpy_bytes n t) = n.
Proof. unfold strncpy_bytes. rewrite length_app, length_take, length_replicate. lia. Qed.

Lemma cstr_app_zero l k : 0 ∉ l → cstr (l ++ replicate k 0) = l.
Proof.
  induction l as [|x l IH]; intros Hl; simpl; [by destruct k|].
  destruct (Z.eqb_spec x 0); [set_solver|]. f_equal. apply IH. set_solver.
Qed.

Lemma cstr_no_zero l : 0 ∉ cstr l.
Proof.
  induction l as [|x l IH]; simpl; [apply not_elem_of_nil|].
  destruct (Z.eqb_spec x 0); [apply not_elem_of_nil|set_solver].
Qed.

(** Reading a field written by [strncpy] gives the string cut at [n]. *)
Lemma cstr_strncpy_bytes n t : cstr (strncpy_bytes n t) = take n (cstr t).
Proof.
  apply cstr_app_zero. intros Hx. apply (cstr_no_zero t). by eapply subseteq_take.
Qed.

(** What [safestrcpy] writes when it may store [n] characters and a NUL. *)
Fixpoint safestrcpy_bytes (n : nat) (t : list Z) : list Z :=
  match n, t with
  | O, _ => [0]
  | S _, [] => []
  | S n, x :: t => if Z.eqb x 0 then [0; 0] else x :: safestrcpy_bytes n t
  end.

Lemma safestrcpy_bytes_fit n t : cstr_in n t → (1 ≤ length (safestrcpy_bytes n t) ≤ S n)%nat.
Proof.
  revert t. induction n as [|n IH]; intros [|x t] Hc; simpl; [lia..| |].
  - destruct Hc as [?%not_elem_of_nil|?]; [done|simpl in *; lia].
  - destruct (Z.eqb_spec x 0); simpl; [lia|]. specialize (IH t). apply cstr_in_cons in Hc; [|done].
    specialize (IH Hc). lia.
Qed.

Lemma cstr_safestrcpy_bytes n t : cstr_in n t → cstr (safestrcpy_bytes n t) = take n (cstr t).
Proof.
  revert t. induction n as [|n IH]; intros [|x t] Hc; simpl; [done..|].
  destruct (Z.eqb_spec x 0) as [->|Hx]; simpl; [done|]. destruct (Z.eqb_spec x 0); [done|].
  f_equal. apply IH. by eapply cstr_in_cons.
Qed.

Lemma safestrcpy_bytes_nul n t : cstr_in n t → 0 ∈ safestrcpy_bytes n t.
Proof.
  revert t. induction n as [|n IH]; intros [|x t] Hc; simpl; [set_solver..| |].
  - destruct Hc as [?%not_elem_of_nil|?]; [done|simpl in *; lia].
  - destruct (Z.eqb_spec x 0); [set_solver|]. apply cstr_in_cons in Hc; [|done]. set_solver.
Qed.

Lemma safestrcpy_loop_run n : ∀ m s t l,
  mapped m s (S n) → bytes_at m t l → Forall is_byte l → cstr_in n l → apart s t (S n) →
  safestrcpy_loop s t n m = Ok (tt, write_bytes s (safestrcpy_bytes n l) m).
Proof.
  induction n as [|n IH]; intros m s t l Hs Ht Hb Hl Hap; apply mapped_S in Hs as [H0 Hs].
  { cbn [safestrcpy_loop safestrcpy_bytes]. rewrite (st8_run _ _ _ H0). by destruct l. }
  destruct l as [|x l]; [by destruct Hl as [?%not_elem_of_nil|?]; [done|simpl in *; lia]|].
  apply bytes_at_cons in Ht as [Hx Ht]. apply Forall_cons in Hb as [Hbx Hb]. cbn [safestrcpy_loop].
  rewrite (bind_ok _ _ _ _ _ (ld8_run _ _ _ Hx)), (bind_ok _ _ _ _ _ (st8_run _ _ _ H0)).
  rewrite byte_mod by done. cbn [safestrcpy_bytes]. destruct (Z.eqb_spec x 0) as [->|Hx0].
  - apply st8_run. apply mapped_S in Hs as [? _]. rewrite lookup_insert_is_Some'. tauto.
  - cbn [write_bytes].
    assert (bytes_at (<[s:=x]> m) (t + 1) (take (S n) l)) as Ht'.
    { intros i y Hy. pose proof (lookup_lt_Some _ _ _ Hy) as Hi. rewrite length_take in Hi.
      rewrite lookup_take_lt in Hy by lia. rewrite lookup_insert_ne; [by apply Ht|].
      unfold apart in Hap. lia. }
    apply cstr_in_cons in Hl; [|done].
    rewrite (IH _ _ _ (take (S n) l)); [|by apply mapped_insert|done|by apply Forall_take| |].
    + do 3 f_equal. clear. revert l. induction n as [|n IH]; intros [|y l]; try done.
      cbn [take safestrcpy_bytes]. destruct (Z.eqb y 0); [done|]. f_equal. apply IH.
    + destruct Hl as [Hl|Hl]; [|right; rewrite length_take; lia].
      destruct (decide (S n ≤ length l)%nat); [right; rewrite length_take; lia|left].
      by rewrite take_ge by lia.
    + unfold apart in *. lia.
Qed.

Lemma strlen_run m s l fuel :
  bytes_at m s l → 0 ∈ l → (length (cstr l) < fuel)%nat →
  strlen fuel s m = Ok (Z.of_nat (length (cstr l)), m).
Proof.
  intros Hb H0. unfold strlen.
  enough (∀ rest dn fuel, l = dn ++ rest → 0 ∈ rest → (length (cstr rest) < fuel)%nat →
    loop fuel (λ n, v ← ld8 (s + n); if Z.eqb v 0 then mret (inr n) else mret (inl (n + 1)))
      (Z.of_nat (length dn)) m = Ok (Z.of_nat (length dn) + Z.of_nat (length (cstr rest)), m)) as Hg.
  { intros Hf. by apply (Hg l [] fuel). }
  induction rest as [|x rest IH]; intros dn f Hl Hz Hf; [by apply not_elem_of_nil in Hz|].
  destruct f as [|f]; [lia|].
  assert (m !! (s + Z.of_nat (length dn)) = Some x) as Hx.
  { apply Hb. rewrite Hl. by apply list_lookup_middle. }
  cbn [cstr] in *. destruct (Z.eqb_spec x 0) as [->|Hx0].
  - rewrite (loop_inr _ _ _ _ (Z.of_nat (length dn)) m); [do 2 f_equal; simpl; lia|].
    by rewrite (bind_ok _ _ _ _ _ (ld8_run _ _ _ Hx)).
  - rewrite (loop_inl _ _ _ _ (Z.of_nat (length (dn ++ [x]))) m).
    + rewrite IH; [|by rewrite <-app_assoc|set_solver|simpl in Hf; lia].
      do 2 f_equal. rewrite length_app. simpl. lia.
    + rewrite (bind_ok _ _ _ _ _ (ld8_run _ _ _ Hx)). destruct (Z.eqb_spec x 0); [done|].
      unfold mret, M_ret. do 3 f_equal. rewrite length_app. simpl. lia.
Qed.

(** ** What the string routines promise *)

(** [memmove] leaves at the destination what was at the source before
    the call and changes nothing else, however the two ranges overlap. *)
Theorem memmove_copies_any_overlap m dst src l :
  bytes_at m src l → mapped m dst (length l) → Forall is_byte l →
  memmove dst src (length l) m = Ok (dst, write_bytes dst l m) ∧
  bytes_at (write_bytes dst l m) dst l ∧
  ∀ b, ¬ (dst ≤ b < dst + Z.of_nat (length l)) → write_bytes dst l m !! b = m !! b.
Proof.
  intros Hs Hd Hb. split_and!; [by apply memmove_run|apply write_bytes_at|].
  intros b Hout. by rewrite write_bytes_lookup, decide_False.
Qed.

(** [memset] fills exactly [n] bytes with the low byte of [c], through
    the word loop when address and length are multiples of four and through
    the byte loop otherwise. *)
Theorem memset_fills m dst c n :
  mapped m dst n → memset dst c n m = Ok (dst, write_bytes dst (replicate n (c mod 256)) m).
Proof. apply memset_run. Qed.

(** A name stored by [strncpy] in an [n]-byte field and compared by
    [strncmp] over [n] bytes (as directory entries are) compares equal to the
    strings that agree with the stored one on their first [n] characters and
    to no others; [strncpy] writes exactly the [n] bytes of the field. *)
Theorem strncpy_strncmp_roundtrip m s t q l lq n :
  mapped m s n → bytes_at m t l → Forall is_byte l → cstr_in n l → apart s t n →
  bytes_at m q lq → cstr_in n lq → apart s q (Nat.max n (length lq)) →
  ∃ m' r, strncpy s t (Z.of_nat n) m = Ok (s, m') ∧ strncmp s q n m' = Ok (r, m') ∧
    (r = 0 ↔ take n (cstr l) = take n (cstr lq)) ∧
    ∀ b, ¬ (s ≤ b < s + Z.of_nat n) → m' !! b = m !! b.
Proof.
  intros Hs Ht Hb Hl Hap Hq Hlq Hapq. unfold strncpy. rewrite Nat2Z.id.
  rewrite (bind_ok _ _ _ _ _ (strncpy_loop_run n m s t l Hs Ht Hb Hl Hap)).
  set (m' := write_bytes s (strncpy_bytes n l) m).
  pose proof (length_strncpy_bytes n l) as Hlen.
  destruct (strncmp_run n m' s q (strncpy_bytes n l) lq) as (r & Hr & Hr0).
  - apply write_bytes_at.
  - intros i x Hx. pose proof (lookup_lt_Some _ _ _ Hx). unfold m'.
    rewrite write_bytes_lookup, decide_False; [by apply Hq|]. rewrite Hlen. unfold apart in Hapq. lia.
  - right. lia.
  - done.
  - exists m', r. split_and!; [done|done| |].
    + rewrite Hr0, cstr_strncpy_bytes, take_take. by rewrite Nat.min_id.
    + intros b Hout. unfold m'. by rewrite write_bytes_lookup, Hlen, decide_False.
Qed.

(** [safestrcpy] never writes past the [n] bytes of its buffer, always
    leaves a NUL in them, and the string it leaves is the source cut to
    [n - 1] characters. *)
Theorem safestrcpy_terminates_string m s t l n :
  mapped m s (S n) → bytes_at m t l → Forall is_byte l → cstr_in n l → apart s t (S n) →
  ∃ w, safestrcpy s t (Z.of_nat (S n)) m = Ok (s, write_bytes s w m) ∧
    (length w ≤ S n)%nat ∧ 0 ∈ w ∧ cstr w = take n (cstr l).
Proof.
  intros Hs Ht Hb Hl Hap. exists (safestrcpy_bytes n l). unfold safestrcpy.
  destruct (Z.leb_spec (Z.of_nat (S n)) 0); [lia|].
  replace (Z.to_nat (Z.of_nat (S n) - 1)) with n by lia.
  rewrite (bind_ok _ _ _ _ _ (safestrcpy_loop_run n m s t l Hs Ht Hb Hl Hap)).
  split_and!; [done|by apply safestrcpy_bytes_fit|by apply safestrcpy_bytes_nul|by apply cstr_safestrcpy_bytes].
Qed.

(** [strlen] counts the characters before the first NUL, with any
    amount of fuel above that count. *)
Theorem strlen_counts m s l fuel :
  bytes_at m s l → 0 ∈ l → (length (cstr l) < fuel)%nat →
  strlen fuel s m = Ok (Z.of_nat (length (cstr l)), m).
Proof. apply strlen_run. Qed.

(** ** Concrete instances *)

Definition sample_mem : bmem :=
  list_to_map (zip (Z.of_nat <$> seq 0 32) ([104; 105; 0; 7; 8; 9] ++ replicate 26 1)).

Lemma sample_mapped a n : 0 ≤ a → (Z.to_nat a + n ≤ 32)%nat → mapped sample_mem a n.
Proof.
  intros Ha Hn i Hi. unfold sample_mem.
  assert (∃ k, a + Z.of_nat i = Z.of_nat k ∧ (k < 32)%nat) as (k & -> & Hk)
    by (exists (Z.to_nat a + i)%nat; lia).
  do 32 (destruct k as [|k]; [eexists; reflexivity|]). lia.
Qed.

Lemma sample_bytes a l : bool_decide (map_Forall (λ i x, sample_mem !! (a + Z.of_nat i) = Some x)
    (list_to_map (zip (seq 0 (length l)) l) : gmap nat Z)) = true → bytes_at sample_mem a l.
Proof.
  intros Hb%bool_decide_eq_true_1 i x Hx. apply Hb. apply elem_of_list_to_map_1.
  - rewrite fst_zip by (rewrite length_seq; lia). apply NoDup_seq.
  - apply list_elem_of_lookup. exists i. rewrite lookup_zip_with, lookup_seq_lt by (by eapply lookup_lt_Some).
    simpl. by rewrite Hx.
Qed.

Lemma memmove_copies_any_overlap_witness :
  memmove 2 0 6 sample_mem = Ok (2, write_bytes 2 [104; 105; 0; 7; 8; 9] sample_mem).
Proof.
  apply (memmove_copies_any_overlap sample_mem 2 0 [104; 105; 0; 7; 8; 9]).
  - apply sample_bytes. vm_compute. reflexivity.
  - apply sample_mapped; simpl; lia.
  - repeat constructor; lia.
Defined.

Lemma memset_fills_witness : memset 4 300 8 sample_mem = Ok (4, write_bytes 4 (replicate 8 44) sample_mem).
Proof. apply (memset_fills sample_mem 4 300 8). apply sample_mapped; simpl; lia. Defined.

Lemma strncpy_strncmp_roundtrip_witness :
  ∃ m' r, strncpy 16 0 (Z.of_nat 4) sample_mem = Ok (16, m') ∧ strncmp 16 0 4 m' = Ok (r, m') ∧ r = 0.
Proof.
  destruct (strncpy_strncmp_roundtrip sample_mem 16 0 0 [104; 105; 0] [104; 105; 0] 4) as (m' & r & H1 & H2 & H3 & _).
  - apply sample_mapped; simpl; lia.
  - apply sample_bytes. vm_compute. reflexivity.
  - repeat constructor; lia.
  - left. set_solver.
  - unfold apart. lia.
  - apply sample_bytes. vm_compute. reflexivity.
  - left. set_solver.
  - unfold apart. simpl. lia.
  - exists m', r. split; [done|]. split; [done|]. by apply H3.
Defined.

Lemma safestrcpy_terminates_string_witness :
  ∃ w, safestrcpy 16 0 (Z.of_nat 4) sample_mem = Ok (16, write_bytes 16 w sample_mem) ∧ cstr w = [104; 105].
Proof.
  destruct (safestrcpy_terminates_string sample_mem 16 0 [104; 105; 0] 3) as (w & H1 & _ & _ & H2).
  - apply sample_mapped; simpl; lia.
  - apply sample_bytes. vm_compute. reflexivity.
  - repeat constructor; lia.
  - left. set_solver.
  - unfold apart. lia.
  - by exists w.
Defined.

Lemma strlen_counts_witness : strlen 10 0 sample_mem = Ok (2, sample_mem).
Proof.
  apply (strlen_counts sample_mem 0 [104; 105; 0] 10).
  - apply sample_bytes. vm_compute. reflexivity.
  - set_solver.
  - simpl. lia.
Defined.

Close Scope Z_scope.
