(* ===== verification/Words.v ===== *)
(** * Little-endian words in a block of bytes

    The C code reads and writes [uint] and [ushort] members of structures
    laid over the bytes of a disk block. *)

From S2P Require Import Prelude.

Open Scope Z_scope.

Definition byte_at (d : list Z) (i : nat) : Z := nth i d 0.

Definition ld32 (d : list Z) (off : nat) : Z :=
  byte_at d off + 256 * byte_at d (off + 1) + 65536 * byte_at d (off + 2) + 16777216 * byte_at d (off + 3).

Definition st32 (d : list Z) (off : nat) (v : Z) : list Z :=
  <[(off + 3)%nat := (v / 16777216) mod 256]>
  (<[(off + 2)%nat := (v / 65536) mod 256]>
  (<[(off + 1)%nat := (v / 256) mod 256]>
  (<[off := v mod 256]> d))).

Definition ld16 (d : list Z) (off : nat) : Z := byte_at d off + 256 * byte_at d (off + 1).
Definition st16 (d : list Z) (off : nat) (v : Z) : list Z :=
  <[(off + 1)%nat := (v / 256) mod 256]> (<[off := v mod 256]> d).

Lemma byte_at_insert d i j v :
  (i < length d)%nat → byte_at (<[i := v]> d) j = if decide (i = j) then v else byte_at d j.
Proof.
  intros Hi. unfold byte_at. rewrite !nth_lookup. case_decide as E.
  - subst. by rewrite list_lookup_insert_eq.
  - by rewrite list_lookup_insert_ne.
Qed.

Lemma length_st32 d off v : length (st32 d off v) = length d.
Proof. unfold st32. by rewrite !length_insert. Qed.

Lemma byte_at_st32 d off v j :
  (off + 3 < length d)%nat →
  byte_at (st32 d off v) j =
    if decide (j = off) then v mod 256
    else if decide (j = (off + 1)%nat) then (v / 256) mod 256
    else if decide (j = (off + 2)%nat) then (v / 65536) mod 256
    else if decide (j = (off + 3)%nat) then (v / 16777216) mod 256
    else byte_at d j.
Proof.
  intros Hl. unfold st32.
  rewrite !byte_at_insert by (rewrite ?length_insert; lia).
  repeat (case_decide; try lia); done.
Qed.

Lemma ld32_st32_eq d off v : (off + 3 < length d)%nat → ld32 (st32 d off v) off = v mod two32.
Proof.
  intros Hl. unfold ld32. rewrite !byte_at_st32 by done.
  repeat (case_decide; try lia). unfold two32.
  replace (v mod 4294967296) with (v mod 256 + 256 * ((v / 256) mod 16777216))
    by (change 4294967296 with (256 * 16777216); by rewrite Z.rem_mul_r by lia).
  replace ((v / 256) mod 16777216) with ((v / 256) mod 256 + 256 * ((v / 65536) mod 65536))
    by (change 16777216 with (256 * 65536); rewrite (Z.rem_mul_r (v / 256)) by lia; by rewrite Z.div_div by lia).
  replace ((v / 65536) mod 65536) with ((v / 65536) mod 256 + 256 * ((v / 16777216) mod 256)); [lia|].
  change (65536) with (256 * 256) at 3. rewrite (Z.rem_mul_r (v / 65536)) by lia. by rewrite Z.div_div by lia.
Qed.

Lemma ld32_st32_ne d off off' v :
  (off + 3 < length d)%nat → (off' + 4 ≤ off ∨ off + 4 ≤ off')%nat →
  ld32 (st32 d off v) off' = ld32 d off'.
Proof.
  intros Hl Hne. unfold ld32. rewrite !byte_at_st32 by done. by repeat (case_decide; try lia).
Qed.

(** The words from [off] on, as many as [l] is long. *)
Fixpoint st32s (d : list Z) (off : nat) (l : list Z) : list Z :=
  match l with [] => d | v :: l => st32s (st32 d off v) (off + 4) l end.

Lemma length_st32s d off l : length (st32s d off l) = length d.
Proof. revert d off. induction l as [|v l IH]; intros d off; simpl; [done|]. by rewrite IH, length_st32. Qed.

Lemma ld32_st32s_ne d off l off' :
  (off + 4 * length l ≤ length d)%nat → (off' + 4 ≤ off ∨ off + 4 * length l ≤ off')%nat →
  ld32 (st32s d off l) off' = ld32 d off'.
Proof.
  revert d off. induction l as [|v l IH]; intros d off Hl Hne; simpl in *; [done|].
  rewrite IH by (rewrite ?length_st32; lia). apply ld32_st32_ne; lia.
Qed.

Lemma ld32_st32s d off l i v :
  (off + 4 * length l ≤ length d)%nat → l !! i = Some v →
  ld32 (st32s d off l) (off + 4 * i) = v mod two32.
Proof.
  revert d off i. induction l as [|x l IH]; intros d off i Hl Hi; [done|].
  cbn [st32s length] in *. destruct i as [|i]; simplify_eq/=.
  - rewrite ld32_st32s_ne by (rewrite ?length_st32; lia). rewrite Nat.add_0_r. apply ld32_st32_eq. lia.
  - replace (off + 4 * S i)%nat with ((off + 4) + 4 * i)%nat by lia.
    replace (off + S (i + S (i + S (i + S (i + 0)))))%nat with ((off + 4) + 4 * i)%nat by lia.
    apply IH; [rewrite length_st32; lia|done].
Qed.

Lemma st32s_snoc d off l v : st32s d off (l ++ [v]) = st32 (st32s d off l) (off + 4 * length l) v.
Proof.
  revert d off. induction l as [|x l IH]; intros d off; cbn [st32s app length].
  - by rewrite Nat.mul_0_r, Nat.add_0_r.
  - rewrite IH. f_equal. lia.
Qed.

(** *** Short words, and stores seen from outside *)

Lemma byte_at_st32s_ne d off l j :
  (off + 4 * length l ≤ length d)%nat → (j < off ∨ off + 4 * length l ≤ j)%nat → byte_at (st32s d off l) j = byte_at d j.
Proof.
  revert d off. induction l as [|v l IH]; intros d off Hl Hj; cbn [st32s length] in *; [done|].
  rewrite IH by (rewrite ?length_st32; lia). rewrite byte_at_st32 by lia. by repeat (case_decide; try lia).
Qed.

Lemma length_st16 d off v : length (st16 d off v) = length d.
Proof. unfold st16. by rewrite !length_insert. Qed.

Lemma byte_at_st16 d off v j :
  (off + 1 < length d)%nat →
  byte_at (st16 d off v) j = if decide (j = off) then v mod 256 else if decide (j = (off + 1)%nat) then (v / 256) mod 256 else byte_at d j.
Proof.
  intros Hl. unfold st16. rewrite !byte_at_insert by (rewrite ?length_insert; lia). repeat (case_decide; try lia); done.
Qed.

Lemma ld16_st16_eq d off v : (off + 1 < length d)%nat → ld16 (st16 d off v) off = v mod 65536.
Proof.
  intros Hl. unfold ld16. rewrite !byte_at_st16 by done. repeat (case_decide; try lia).
  change 65536 with (256 * 256). by rewrite Z.rem_mul_r by lia.
Qed.

Lemma ld16_ext d d' off : byte_at d' off = byte_at d off → byte_at d' (off + 1) = byte_at d (off + 1) → ld16 d' off = ld16 d off.
Proof. unfold ld16. by intros -> ->. Qed.
Lemma ld32_ext d d' off : (∀ k, (k < 4)%nat → byte_at d' (off + k) = byte_at d (off + k)) → ld32 d' off = ld32 d off.
Proof.
  intros Hk. unfold ld32. rewrite (Hk 1%nat), (Hk 2%nat), (Hk 3%nat) by lia.
  specialize (Hk 0%nat ltac:(lia)). rewrite !Nat.add_0_r in Hk. by rewrite Hk.
Qed.

Close Scope Z_scope.
