(* ===== verification/ListH.v ===== *)
(** * Intrusive doubly linked lists ([src/xv6-public/list.h])

    A [struct list_head] is a pair of pointers that lives at a [node]
    address; the null pointer is [None].  The memory of all list heads is a
    finite map, where an address that was never written holds the zeroed
    pair (the kernel's tables are in the BSS).  Each routine of [list.h] is
    translated store by store, and is then shown to refine an operation on
    mathematical lists: [dlist h hd l] says that the ring that starts at the
    head [hd] visits the nodes [l] in order, forwards and backwards. *)

From S2P Require Import Prelude.

(** [struct list_head]. *)
Record list_head (node : Type) := mkLH { prev : option node; next : option node }.
Arguments mkLH {node} _ _.
Arguments prev {node} _.
Arguments next {node} _.

Section list_head.
  Context {node : Type} `{Countable node}.
  Abbreviation ptr := (option node).
  Abbreviation lmem := (gmap node (list_head node)).

Definition lh (h : lmem) (n : node) : list_head node := default (mkLH None None) (h !! n).
Definition nxt (h : lmem) (n : node) : ptr := next (lh h n).
Definition prv (h : lmem) (n : node) : ptr := prev (lh h n).
Definition set_nxt (n : node) (v : ptr) (h : lmem) : lmem := <[n := mkLH (prv h n) v]> h.
Definition set_prv (n : node) (v : ptr) (h : lmem) : lmem := <[n := mkLH v (nxt h n)]> h.

(** Loads and stores through a pointer to a list head. *)
Definition ld_next (p : ptr) : M lmem ptr := n ← deref p; gets (λ h, nxt h n).
Definition ld_prev (p : ptr) : M lmem ptr := n ← deref p; gets (λ h, prv h n).
Definition st_next (p v : ptr) : M lmem unit := n ← deref p; modify (set_nxt n v).
Definition st_prev (p v : ptr) : M lmem unit := n ← deref p; modify (set_prv n v).

Definition list_head_init (list : ptr) : M lmem unit :=
  st_next list list;;
  st_prev list list.

Definition __list_add (new prev next : ptr) : M lmem unit :=
  st_prev next new;;
  st_next new next;;
  st_prev new prev;;
  st_next prev new.

Definition list_add (new head : ptr) : M lmem unit :=
  n ← ld_next head;
  __list_add new head n.

Definition list_add_tail (new head : ptr) : M lmem unit :=
  p ← ld_prev head;
  __list_add new p head.

Definition list_add_after (new node : ptr) : M lmem unit :=
  n ← ld_next node;
  __list_add new node n.

Definition __list_del (prev next : ptr) : M lmem unit :=
  st_next prev next;;
  st_prev next prev.

Definition __list_del_entry (entry : ptr) : M lmem unit :=
  p ← ld_prev entry;
  n ← ld_next entry;
  __list_del p n.

Definition list_del (entry : ptr) : M lmem unit :=
  __list_del_entry entry;;
  st_prev entry None;;
  st_next entry None.

Definition list_replace (old new : ptr) : M lmem unit :=
  n ← ld_next old;
  st_next new n;;
  n' ← ld_next new;
  st_prev n' new;;
  p ← ld_prev old;
  st_prev new p;;
  p' ← ld_prev new;
  st_next p' new.

Definition list_empty (head : ptr) : M lmem bool :=
  n ← ld_next head;
  mret (bool_decide (n = head)).

Definition list_is_first (list head : ptr) : M lmem bool :=
  p ← ld_prev list;
  mret (bool_decide (p = head)).

Definition list_is_last (list head : ptr) : M lmem bool :=
  n ← ld_next list;
  mret (bool_decide (n = head)).

Definition list_is_head (list head : ptr) : bool := bool_decide (list = head).

Definition list_bulk_move_tail (src dst : ptr) : M lmem unit :=
  e ← list_empty src;
  when (negb e) (
    dp ← ld_prev dst; sn ← ld_next src; st_next dp sn;;
    sn ← ld_next src; dp ← ld_prev dst; st_prev sn dp;;
    sp ← ld_prev src; st_next sp dst;;
    sp ← ld_prev src; st_prev dst sp;;
    st_next src src;;
    st_prev src src).

(** ** The abstract view *)

Definition link (h : lmem) (x y : node) : Prop := nxt h x = Some y ∧ prv h y = Some x.

(** Consecutive nodes of [ns] point at each other. *)
Fixpoint linked (h : lmem) (ns : list node) : Prop :=
  match ns with
  | x :: ((y :: _) as t) => link h x y ∧ linked h t
  | _ => True
  end.

Definition dlist (h : lmem) (hd : node) (l : list node) : Prop :=
  NoDup (hd :: l) ∧ linked h (hd :: l ++ [hd]).

(** Only the nodes [ns] may differ between two memories. *)
Definition lframe (ns : list node) (h h' : lmem) : Prop :=
  ∀ n, n ∉ ns → lh h' n = lh h n.

(** *** Loads after stores *)

Lemma lh_insert h n v m : lh (<[n := v]> h) m = if decide (n = m) then v else lh h m.
Proof. unfold lh. rewrite lookup_insert. by case_decide. Qed.

Lemma nxt_set_nxt h n v m :
  nxt (set_nxt n v h) m = if decide (n = m) then v else nxt h m.
Proof. unfold nxt, set_nxt. rewrite lh_insert. by case_decide. Qed.

Lemma nxt_set_prv h n v m : nxt (set_prv n v h) m = nxt h m.
Proof. unfold nxt, set_prv. rewrite lh_insert. case_decide; by subst. Qed.

Lemma prv_set_prv h n v m :
  prv (set_prv n v h) m = if decide (n = m) then v else prv h m.
Proof. unfold prv, set_prv. rewrite lh_insert. by case_decide. Qed.

Lemma prv_set_nxt h n v m : prv (set_nxt n v h) m = prv h m.
Proof. unfold prv, set_nxt. rewrite lh_insert. case_decide; by subst. Qed.

Lemma lh_eq h h' n : nxt h' n = nxt h n → prv h' n = prv h n → lh h' n = lh h n.
Proof. unfold nxt, prv. destruct (lh h n), (lh h' n); simpl; congruence. Qed.

(** *** Linked segments *)

Lemma linked_cons h x y t : linked h (x :: y :: t) ↔ link h x y ∧ linked h (y :: t).
Proof. done. Qed.

Lemma linked_app h l1 x l2 :
  linked h (l1 ++ x :: l2) ↔ linked h (l1 ++ [x]) ∧ linked h (x :: l2).
Proof.
  induction l1 as [|a l1 IH]; [simpl; tauto|].
  destruct l1 as [|b l1]; simpl in *; tauto.
Qed.

Lemma linked_tail h x l : linked h (x :: l) → linked h l.
Proof. destruct l as [|y l]; [done|]. by intros [_ ?]%linked_cons. Qed.

Lemma linked_ext h h' ns :
  (∀ x, x ∈ removelast ns → nxt h' x = nxt h x) →
  (∀ x, x ∈ tail ns → prv h' x = prv h x) →
  linked h ns → linked h' ns.
Proof.
  induction ns as [|x [|y t] IH]; [done..|].
  intros Hn Hp [[Hxy Hyx] Ht]. simpl in *. split.
  - split; [rewrite Hn|rewrite Hp]; set_solver.
  - apply IH; [|set_solver|done]. intros z Hz. apply Hn. set_solver.
Qed.

Lemma removelast_mid {A} (l1 l2 : list A) x :
  removelast (l1 ++ x :: l2) = l1 ++ removelast (x :: l2).
Proof. apply removelast_app. done. Qed.

Lemma tail_mid {A} (l1 l2 : list A) x y :
  tail (l1 ++ x :: y :: l2) = tail (l1 ++ [x]) ++ y :: l2.
Proof. destruct l1; simpl; [done|]. by rewrite <-app_assoc. Qed.

Lemma NoDup_mid_notin {A} (l1 l2 : list A) x :
  NoDup (l1 ++ x :: l2) → x ∉ l1 ∧ x ∉ l2.
Proof.
  intros (_ & Hd & H2)%NoDup_app. apply NoDup_cons in H2 as [H2 _].
  split; [|done]. intros Hx. by apply (Hd x Hx), list_elem_of_here.
Qed.

(** What a cyclic walk tells about the two neighbours [p] and [n]. *)
Lemma ring_neighbours {A} (l1 l2 : list A) p n :
  NoDup (removelast (l1 ++ p :: n :: l2)) →
  NoDup (tail (l1 ++ p :: n :: l2)) →
  p ∉ l1 ∧ p ∉ removelast (n :: l2) ∧ n ∉ tail (l1 ++ [p]) ∧ n ∉ l2.
Proof.
  rewrite removelast_mid, tail_mid.
  change (removelast (p :: n :: l2)) with (p :: removelast (n :: l2)).
  intros [? ?]%NoDup_mid_notin [? ?]%NoDup_mid_notin. done.
Qed.

(** Pasting two linked pieces with a new link. *)
Lemma linked_paste h h' l1 p n l2 :
  (∀ x, x ∈ l1 → nxt h' x = nxt h x) →
  (∀ x, x ∈ tail (l1 ++ [p]) → prv h' x = prv h x) →
  (∀ x, x ∈ removelast (n :: l2) → nxt h' x = nxt h x) →
  (∀ x, x ∈ l2 → prv h' x = prv h x) →
  linked h (l1 ++ [p]) → linked h (n :: l2) → link h' p n →
  linked h' (l1 ++ p :: n :: l2).
Proof.
  intros H1 H2 H3 H4 Hl Hr Hpn. apply linked_app. split.
  - eapply linked_ext; [|done|done].
    intros x. rewrite removelast_last. apply H1.
  - apply linked_cons. split; [done|]. by eapply linked_ext.
Qed.

Lemma elem_of_removelast {A} (x : A) l : x ∈ removelast l → x ∈ l.
Proof.
  induction l as [|a [|b l] IH]; [done|set_solver|].
  change (removelast (a :: b :: l)) with (a :: removelast (b :: l)). set_solver.
Qed.

Lemma elem_of_tail {A} (x : A) l : x ∈ tail l → x ∈ l.
Proof. destruct l; set_solver. Qed.

(** *** Insertion between neighbours *)

Definition ins_mem (new p n : node) (h : lmem) : lmem :=
  set_nxt p (Some new) (set_prv new (Some p) (set_nxt new (Some n) (set_prv n (Some new) h))).

Lemma __list_add_run new p n h :
  __list_add (Some new) (Some p) (Some n) h = Ok (tt, ins_mem new p n h).
Proof. reflexivity. Qed.

Lemma ins_mem_frame new p n h : lframe [new; p; n] h (ins_mem new p n h).
Proof.
  intros m Hm. unfold ins_mem. apply lh_eq.
  all: repeat rewrite ?nxt_set_nxt, ?nxt_set_prv, ?prv_set_nxt, ?prv_set_prv.
  all: repeat case_decide; set_solver.
Qed.

Lemma linked_insert h l1 p n l2 new :
  linked h (l1 ++ p :: n :: l2) →
  NoDup (removelast (l1 ++ p :: n :: l2)) → NoDup (tail (l1 ++ p :: n :: l2)) →
  new ∉ l1 ++ p :: n :: l2 →
  linked (ins_mem new p n h) (l1 ++ p :: new :: n :: l2).
Proof.
  intros Hl Hr Ht Hnew.
  destruct (ring_neighbours _ _ _ _ Hr Ht) as (Hp1 & Hp2 & Hn1 & Hn2).
  apply linked_app in Hl as [Hl1 [_ Hl2]].
  assert (new ≠ p ∧ new ≠ n ∧ new ∉ l1 ∧ new ∉ l2) as (?&?&?&?) by set_solver.
  apply linked_app. split; [|rewrite !linked_cons; split; [|split]].
  - eapply linked_ext; [| |exact Hl1].
    + rewrite removelast_last. intros x Hx. unfold ins_mem.
      repeat rewrite ?nxt_set_nxt, ?nxt_set_prv. repeat case_decide; set_solver.
    + intros x Hx. pose proof (elem_of_tail _ _ Hx). unfold ins_mem.
      repeat rewrite ?prv_set_nxt, ?prv_set_prv. repeat case_decide; set_solver.
  - unfold link, ins_mem.
    repeat rewrite ?nxt_set_nxt, ?nxt_set_prv, ?prv_set_nxt, ?prv_set_prv.
    repeat case_decide; done.
  - unfold link, ins_mem.
    repeat rewrite ?nxt_set_nxt, ?nxt_set_prv, ?prv_set_nxt, ?prv_set_prv.
    repeat case_decide; done || congruence.
  - eapply linked_ext; [| |exact Hl2]; simpl tail.
    + intros x Hx. pose proof (elem_of_removelast _ _ Hx). unfold ins_mem.
      repeat rewrite ?nxt_set_nxt, ?nxt_set_prv. repeat case_decide; set_solver.
    + intros x Hx. unfold ins_mem.
      repeat rewrite ?prv_set_nxt, ?prv_set_prv. repeat case_decide; set_solver.
Qed.

(** *** Deletion *)

Definition del_mem (p n e : node) (h : lmem) : lmem :=
  set_nxt e None (set_prv e None (set_prv n (Some p) (set_nxt p (Some n) h))).

Lemma list_del_run h p e n :
  prv h e = Some p → nxt h e = Some n →
  list_del (Some e) h = Ok (tt, del_mem p n e h).
Proof.
  intros Hp Hn. unfold list_del, __list_del_entry, ld_prev, ld_next.
  unfold mbind, M_bind; simpl. by rewrite Hp, Hn.
Qed.

Lemma del_mem_frame p n e h : lframe [p; n; e] h (del_mem p n e h).
Proof.
  intros m Hm. unfold del_mem. apply lh_eq.
  all: repeat rewrite ?nxt_set_nxt, ?nxt_set_prv, ?prv_set_nxt, ?prv_set_prv.
  all: repeat case_decide; set_solver.
Qed.

Lemma linked_delete h l1 p e n l2 :
  linked h (l1 ++ p :: e :: n :: l2) →
  NoDup (removelast (l1 ++ p :: n :: l2)) → NoDup (tail (l1 ++ p :: n :: l2)) →
  e ∉ l1 ++ p :: n :: l2 →
  linked (del_mem p n e h) (l1 ++ p :: n :: l2).
Proof.
  intros Hl Hr Ht He.
  destruct (ring_neighbours _ _ _ _ Hr Ht) as (Hp1 & Hp2 & Hn1 & Hn2).
  apply linked_app in Hl as [Hl1 Hl2].
  rewrite !linked_cons in Hl2. destruct Hl2 as (_ & _ & Hl2).
  assert (e ≠ p ∧ e ≠ n ∧ e ∉ l1 ∧ e ∉ l2) as (?&?&?&?) by set_solver.
  apply (linked_paste h); [..|done|done|].
  - intros x Hx. unfold del_mem.
    repeat rewrite ?nxt_set_nxt, ?nxt_set_prv. repeat case_decide; set_solver.
  - intros x Hx. pose proof (elem_of_tail _ _ Hx). unfold del_mem.
    repeat rewrite ?prv_set_nxt, ?prv_set_prv. repeat case_decide; set_solver.
  - intros x Hx. pose proof (elem_of_removelast _ _ Hx). unfold del_mem.
    repeat rewrite ?nxt_set_nxt, ?nxt_set_prv. repeat case_decide; set_solver.
  - intros x Hx. unfold del_mem.
    repeat rewrite ?prv_set_nxt, ?prv_set_prv. repeat case_decide; set_solver.
  - unfold link, del_mem.
    repeat rewrite ?nxt_set_nxt, ?nxt_set_prv, ?prv_set_nxt, ?prv_set_prv.
    repeat case_decide; done || congruence.
Qed.

(** *** Rings seen from their head *)

Lemma ring_NoDup hd (l : list node) :
  NoDup (hd :: l) →
  NoDup (removelast (hd :: l ++ [hd])) ∧ NoDup (tail (hd :: l ++ [hd])).
Proof.
  intros Hnd. rewrite app_comm_cons, removelast_last. split; [done|].
  simpl. apply NoDup_cons in Hnd as [??]. apply NoDup_app.
  split_and!; [done|set_solver|apply NoDup_singleton].
Qed.

(** The node before and after a position of the ring. *)
Lemma ring_split_first hd (l : list node) : ∃ n t, l ++ [hd] = n :: t.
Proof. destruct l; simpl; eauto. Qed.

Lemma ring_split_last hd (l : list node) : ∃ t p, hd :: l = t ++ [p].
Proof. destruct (exists_last (l:=hd :: l)) as (t & p & ->); [done|eauto]. Qed.

Lemma dlist_first h hd l n t : l ++ [hd] = n :: t → dlist h hd l → nxt h hd = Some n.
Proof. intros E [_ Hl]. rewrite E in Hl. by destruct Hl as [[??] _]. Qed.

Lemma dlist_last h hd l t p : hd :: l = t ++ [p] → dlist h hd l → prv h hd = Some p.
Proof.
  intros E [_ Hl]. rewrite app_comm_cons, E, <-app_assoc in Hl.
  apply linked_app in Hl as [_ [[??] _]]. done.
Qed.

Lemma dlist_nil h hd : dlist h hd [] ↔ nxt h hd = Some hd ∧ prv h hd = Some hd.
Proof.
  unfold dlist, link; simpl. split; [by intros (_ & ? & _)|].
  intros ?. split; [|done]. apply NoDup_singleton.
Qed.

Lemma dlist_next_in h hd l1 x y l2 :
  dlist h hd (l1 ++ x :: y :: l2) → nxt h x = Some y ∧ prv h y = Some x.
Proof.
  intros [_ Hl].
  replace (hd :: (l1 ++ x :: y :: l2) ++ [hd]) with ((hd :: l1) ++ x :: y :: (l2 ++ [hd]))
    in Hl by (simpl; by rewrite <-app_assoc).
  apply linked_app in Hl as [_ [? _]]. done.
Qed.

Lemma dlist_next_end h hd l x : dlist h hd (l ++ [x]) → nxt h x = Some hd.
Proof.
  intros [_ Hl].
  replace (hd :: (l ++ [x]) ++ [hd]) with ((hd :: l) ++ x :: [hd])
    in Hl by (simpl; by rewrite <-app_assoc).
  apply linked_app in Hl as [_ [[? _] _]]. done.
Qed.

Lemma dlist_next_first h hd x l : dlist h hd (x :: l) → nxt h hd = Some x.
Proof. intros [_ [[? _] _]]. done. Qed.

Lemma dlist_prev_first h hd x l : dlist h hd (x :: l) → prv h x = Some hd.
Proof. intros [_ [[_ ?] _]]. done. Qed.

(** Any element of a ring can play the head. *)
Lemma dlist_rotate h a b l1 l2 : dlist h a (l1 ++ b :: l2) → dlist h b (l2 ++ a :: l1).
Proof.
  intros [Hnd Hl]. split.
  - assert (b :: l2 ++ a :: l1 ≡ₚ a :: l1 ++ b :: l2) as ->; [|done].
    apply (Permutation_app_comm (b :: l2) (a :: l1)).
  - replace (a :: (l1 ++ b :: l2) ++ [a]) with ((a :: l1) ++ b :: (l2 ++ [a]))
      in Hl by (simpl; by rewrite <-app_assoc).
    apply linked_app in Hl as [H1 H2].
    replace (b :: (l2 ++ a :: l1) ++ [b]) with ((b :: l2) ++ a :: (l1 ++ [b]))
      by (simpl; by rewrite <-app_assoc).
    apply linked_app. split; done.
Qed.

Lemma dlist_frame h h' hd l ns :
  lframe ns h h' → (∀ x, x ∈ hd :: l → x ∉ ns) → dlist h hd l → dlist h' hd l.
Proof.
  intros Hf Hd [Hnd Hl]. split; [done|].
  assert (∀ x, x ∈ hd :: l → lh h' x = lh h x) as Hlh by (intros; apply Hf; auto).
  eapply linked_ext; [| |exact Hl]; intros x Hx; unfold nxt, prv; rewrite Hlh; try done.
  - apply elem_of_removelast in Hx. set_solver.
  - simpl in Hx. set_solver.
Qed.

Lemma lframe_refl ns h : lframe ns h h.
Proof. done. Qed.

Lemma lframe_trans ns h1 h2 h3 : lframe ns h1 h2 → lframe ns h2 h3 → lframe ns h1 h3.
Proof. intros H12 H23 n Hn. rewrite H23, H12; done. Qed.

Lemma lframe_weaken ns ns' h h' : ns ⊆ ns' → lframe ns h h' → lframe ns' h h'.
Proof. intros Hs Hf n Hn. apply Hf. set_solver. Qed.

(** ** Refinement: every routine implements its list operation *)

Lemma list_head_init_spec h n :
  wp (list_head_init (Some n)) (λ _ h', dlist h' n [] ∧ lframe [n] h h') h.
Proof.
  unfold list_head_init, st_next, st_prev. wsteps. split.
  - apply dlist_nil. rewrite nxt_set_prv, nxt_set_nxt, prv_set_prv. by rewrite !decide_True.
  - intros m Hm. apply lh_eq;
      rewrite ?nxt_set_prv, ?nxt_set_nxt, ?prv_set_prv, ?prv_set_nxt; case_decide; set_solver.
Qed.

(** Inserting between two neighbours of the ring. *)
Lemma dlist_insert h hd l l' new l1 p n l2 :
  hd :: l ++ [hd] = l1 ++ p :: n :: l2 →
  hd :: l' ++ [hd] = l1 ++ p :: new :: n :: l2 →
  NoDup (hd :: l') → new ∉ hd :: l → dlist h hd l →
  dlist (ins_mem new p n h) hd l' ∧ lframe (new :: hd :: l) h (ins_mem new p n h).
Proof.
  intros E E' Hnd' Hnew [Hnd Hl].
  destruct (ring_NoDup _ _ Hnd) as [Hr Ht]. rewrite E in Hl, Hr, Ht. split.
  - split; [done|]. rewrite E'. apply linked_insert; [done..|].
    rewrite <-E. set_solver.
  - eapply lframe_weaken; [|apply ins_mem_frame].
    intros x Hx. assert (x = new ∨ x ∈ hd :: l ++ [hd]) as []; [|set_solver..].
    rewrite E. set_solver.
Qed.

Lemma list_add_spec h hd l new :
  dlist h hd l → new ∉ hd :: l →
  wp (list_add (Some new) (Some hd))
     (λ _ h', dlist h' hd (new :: l) ∧ lframe (new :: hd :: l) h h') h.
Proof.
  intros Hd Hnew. destruct (ring_split_first hd l) as (n & t & E).
  unfold list_add, ld_next. wsteps. rewrite (dlist_first _ _ _ _ _ E Hd).
  eapply wp_eq; [apply __list_add_run|].
  eapply (dlist_insert _ _ _ _ _ [] hd n t); [by rewrite E| |..|done].
  - simpl. by rewrite E.
  - destruct Hd as [Hnd _]. apply NoDup_cons in Hnd as [??].
    apply NoDup_cons. split; [set_solver|]. apply NoDup_cons. set_solver.
  - done.
Qed.

Lemma NoDup_snoc {A} (l : list A) x : NoDup l → x ∉ l → NoDup (l ++ [x]).
Proof. intros. apply NoDup_app. split_and!; [done|set_solver|apply NoDup_singleton]. Qed.

Lemma list_add_tail_spec h hd l new :
  dlist h hd l → new ∉ hd :: l →
  wp (list_add_tail (Some new) (Some hd))
     (λ _ h', dlist h' hd (l ++ [new]) ∧ lframe (new :: hd :: l) h h') h.
Proof.
  intros Hd Hnew. destruct (ring_split_last hd l) as (t & p & E).
  unfold list_add_tail, ld_prev. wsteps. rewrite (dlist_last _ _ _ _ _ E Hd).
  eapply wp_eq; [apply __list_add_run|].
  eapply (dlist_insert _ _ _ _ _ t p hd []).
  - by rewrite app_comm_cons, E, <-app_assoc.
  - rewrite app_comm_cons, app_comm_cons, E, <-!app_assoc. done.
  - rewrite app_comm_cons. apply NoDup_snoc; [apply Hd|done].
  - done.
  - done.
Qed.

Lemma NoDup_insert_mid {A} (l1 l2 : list A) x : NoDup (l1 ++ l2) → x ∉ l1 ++ l2 → NoDup (l1 ++ x :: l2).
Proof.
  intros. assert (l1 ++ x :: l2 ≡ₚ x :: l1 ++ l2) as -> by (symmetry; apply Permutation_middle).
  by apply NoDup_cons.
Qed.

Lemma NoDup_delete_mid {A} (l1 l2 : list A) x : NoDup (l1 ++ x :: l2) → NoDup (l1 ++ l2).
Proof.
  assert (l1 ++ x :: l2 ≡ₚ x :: l1 ++ l2) as -> by (symmetry; apply Permutation_middle).
  by intros [_ ?]%NoDup_cons.
Qed.

(** The neighbours of an element [x] of the ring. *)
Lemma ring_around (hd x : node) (l1 l2 : list node) :
  ∃ t p n u, hd :: l1 = t ++ [p] ∧ l2 ++ [hd] = n :: u ∧
    hd :: (l1 ++ x :: l2) ++ [hd] = t ++ p :: x :: n :: u ∧
    hd :: (l1 ++ l2) ++ [hd] = t ++ p :: n :: u.
Proof.
  destruct (ring_split_last hd l1) as (t & p & E).
  destruct (ring_split_first hd l2) as (n & u & E').
  exists t, p, n, u. split_and!; [done..| |].
  - rewrite <-app_assoc. simpl. rewrite app_comm_cons, E, E', <-app_assoc. done.
  - rewrite <-app_assoc, app_comm_cons, E, E', <-app_assoc. done.
Qed.

Lemma list_add_after_spec h hd l1 x l2 new :
  dlist h hd (l1 ++ x :: l2) → new ∉ hd :: l1 ++ x :: l2 →
  wp (list_add_after (Some new) (Some x))
     (λ _ h', dlist h' hd (l1 ++ x :: new :: l2)
              ∧ lframe (new :: hd :: l1 ++ x :: l2) h h') h.
Proof.
  intros Hd Hnew. destruct (ring_around hd x l1 l2) as (t & p & n & u & E1 & E2 & E & _).
  assert (nxt h x = Some n) as Hn.
  { destruct Hd as [_ Hl]. rewrite E in Hl.
    change (t ++ p :: x :: n :: u) with (t ++ [p] ++ x :: n :: u) in Hl.
    rewrite app_assoc in Hl. apply linked_app in Hl as [_ [[??] _]]. done. }
  unfold list_add_after, ld_next. wsteps. rewrite Hn.
  eapply wp_eq; [apply __list_add_run|].
  assert (hd :: (l1 ++ x :: new :: l2) ++ [hd] = (t ++ [p]) ++ x :: new :: n :: u) as E'.
  { rewrite <-app_assoc. simpl. by rewrite app_comm_cons, E1, E2. }
  eapply (dlist_insert _ _ _ _ _ (t ++ [p]) x n u); [|exact E'| |done..].
  - rewrite E, <-app_assoc. done.
  - destruct Hd as [Hnd _].
    change (l1 ++ x :: new :: l2) with (l1 ++ [x] ++ new :: l2).
    rewrite app_assoc, app_comm_cons. apply NoDup_insert_mid.
    all: rewrite <-app_comm_cons, <-app_assoc; done.
Qed.

Lemma list_del_spec h hd l1 x l2 :
  dlist h hd (l1 ++ x :: l2) →
  wp (list_del (Some x))
     (λ _ h', dlist h' hd (l1 ++ l2) ∧ nxt h' x = None ∧ prv h' x = None
              ∧ lframe (hd :: l1 ++ x :: l2) h h') h.
Proof.
  intros [Hnd Hl]. destruct (ring_around hd x l1 l2) as (t & p & n & u & E1 & E2 & E & E').
  rewrite E in Hl. assert (nxt h x = Some n ∧ prv h x = Some p) as [Hn Hp].
  { apply linked_app in Hl as [_ Hl]. rewrite !linked_cons in Hl.
    unfold link in Hl. tauto. }
  assert (NoDup (hd :: l1 ++ l2)) as Hnd'.
  { rewrite app_comm_cons in Hnd. by apply NoDup_delete_mid in Hnd. }
  assert (x ∉ hd :: l1 ++ l2) as Hx.
  { rewrite app_comm_cons in Hnd. apply NoDup_mid_notin in Hnd. set_solver. }
  assert (x ∉ t ++ p :: n :: u) as Hx'. { rewrite <-E'. set_solver. }
  eapply wp_eq; [by apply list_del_run|].
  destruct (ring_NoDup _ _ Hnd') as [Hr Ht]. rewrite E' in Hr, Ht.
  split_and!.
  - split; [done|]. rewrite E'. by apply linked_delete.
  - unfold del_mem. rewrite nxt_set_nxt. by rewrite decide_True.
  - unfold del_mem. rewrite prv_set_nxt, prv_set_prv. by rewrite decide_True.
  - eapply lframe_weaken; [|apply del_mem_frame].
    intros y Hy. assert (y ∈ hd :: (l1 ++ x :: l2) ++ [hd]); [|set_solver].
    rewrite E. set_solver.
Qed.

Lemma list_empty_spec h hd l :
  dlist h hd l → list_empty (Some hd) h = Ok (bool_decide (l = []), h).
Proof.
  intros Hd. destruct (ring_split_first hd l) as (n & t & E).
  unfold list_empty, ld_next, mbind, M_bind; simpl.
  rewrite (dlist_first _ _ _ _ _ E Hd). unfold mret, M_ret. do 2 f_equal.
  apply bool_decide_ext. destruct Hd as [[Hnd _]%NoDup_cons _].
  destruct l as [|y l]; simpl in E; simplify_eq; [done|]. split; [|done].
  intros [= ->]. set_solver.
Qed.

(** *** Moving a whole ring *)

Definition move_mem (src dst p f z : node) (h : lmem) : lmem :=
  set_prv src (Some src) (set_nxt src (Some src)
    (set_prv dst (Some z) (set_nxt z (Some dst)
      (set_prv f (Some p) (set_nxt p (Some f) h))))).

Lemma list_bulk_move_tail_run h src dst p f z :
  nxt h src = Some f → prv h src = Some z → prv h dst = Some p →
  src ≠ f → src ≠ p → dst ≠ f →
  list_bulk_move_tail (Some src) (Some dst) h = Ok (tt, move_mem src dst p f z h).
Proof.
  intros Hf Hz Hp Hsf Hsp Hdf.
  unfold list_bulk_move_tail, list_empty, ld_next, ld_prev, st_next, st_prev.
  unfold mbind, M_bind; simpl. rewrite Hf.
  rewrite (bool_decide_eq_false_2 (Some f = Some src)) by congruence. simpl.
  rewrite Hp, Hf. unfold gets, modify. simpl.
  rewrite nxt_set_nxt, prv_set_nxt, Hp. rewrite decide_False by done. rewrite Hf. simpl.
  rewrite prv_set_prv, prv_set_nxt, decide_False by done. rewrite Hz. simpl.
  rewrite prv_set_nxt, prv_set_prv, prv_set_nxt, decide_False by done. by rewrite Hz.
Qed.

Lemma move_mem_frame src dst p f z h :
  lframe [src; dst; p; f; z] h (move_mem src dst p f z h).
Proof.
  intros m Hm. unfold move_mem. apply lh_eq.
  all: repeat rewrite ?nxt_set_nxt, ?nxt_set_prv, ?prv_set_nxt, ?prv_set_prv.
  all: repeat case_decide; set_solver.
Qed.

(** Evaluate loads after stores; the arguments prove nodes distinct. *)
Ltac lsimp Hne Hns Hns' :=
  repeat rewrite ?nxt_set_nxt, ?nxt_set_prv, ?prv_set_nxt, ?prv_set_prv;
  repeat first
    [ rewrite decide_True by done
    | rewrite decide_False
        by first [ congruence | by apply Hne | by apply not_eq_sym, Hne
                 | by apply Hns | by apply not_eq_sym, Hns
                 | by apply Hns' | by apply not_eq_sym, Hns' ] ];
  try done.

(** The links of the merged ring, given where the two rings are cut. *)
Lemma linked_move h src dst p f z l1 l2 l3 :
  f :: l2 = l3 ++ [z] →
  linked h (l1 ++ [p]) → linked h (f :: l2) →
  NoDup (l1 ++ [p]) → NoDup (f :: l2) →
  (∀ x, x ∈ l1 ++ [p] → x ∉ src :: f :: l2) → src ∉ f :: l2 →
  dst ∈ l1 ++ [p] → dst ∉ tail (l1 ++ [p]) →
  linked (move_mem src dst p f z h) (l1 ++ p :: f :: l2 ++ [dst]).
Proof.
  intros E Hl1 Hl2 Hnd1 Hnd2 Hdisj Hsrc Hdst Hdst'.
  set (h' := move_mem src dst p f z h).
  assert (z ∈ f :: l2) as Hz by (rewrite E; set_solver).
  assert (p ∈ l1 ++ [p]) as Hp by set_solver.
  apply NoDup_mid_notin in Hnd1 as [Hp1 _].
  pose proof Hnd2 as [Hf2 _]%NoDup_cons.
  assert (z ∉ l3) as Hz3 by (rewrite E in Hnd2; by apply NoDup_mid_notin in Hnd2 as [??]).
  assert (∀ x y, x ∈ l1 ++ [p] → y ∈ f :: l2 → x ≠ y) as Hne.
  { intros x y Hx Hy ->. by eapply (Hdisj y), list_elem_of_further. }
  assert (∀ x, x ∈ l1 ++ [p] → x ≠ src) as Hns.
  { intros x Hx ->. by eapply (Hdisj src), list_elem_of_here. }
  assert (∀ x, x ∈ f :: l2 → x ≠ src) as Hns' by (intros x Hx ->; done).
  assert (f ∈ f :: l2) as Hf by apply list_elem_of_here.
  assert (linked h' (f :: l2 ++ [dst])) as Hr.
  { rewrite app_comm_cons, E, <-app_assoc. simpl. apply linked_app. split.
    - rewrite <-E. eapply linked_ext; [| |exact Hl2]; intros x Hx; unfold h', move_mem.
      + rewrite E, removelast_last in Hx.
        assert (x ∈ f :: l2) as Hx2 by (rewrite E; set_solver).
        assert (z ≠ x) by (intros ->; done). lsimp Hne Hns Hns'.
      + simpl in Hx. assert (x ∈ f :: l2) as Hx2 by set_solver.
        assert (f ≠ x) by (intros ->; done). lsimp Hne Hns Hns'.
    - apply linked_cons. split; [|done]. unfold link, h', move_mem.
      split; lsimp Hne Hns Hns'. }
  apply linked_app. split.
  - eapply linked_ext; [| |exact Hl1]; intros x Hx; unfold h', move_mem.
    + rewrite removelast_last in Hx. assert (x ∈ l1 ++ [p]) as Hx2 by set_solver.
      assert (p ≠ x) by (intros ->; done). lsimp Hne Hns Hns'.
    + assert (dst ≠ x) by (intros ->; done).
      apply elem_of_tail in Hx. lsimp Hne Hns Hns'.
  - apply linked_cons. split; [|done]. unfold link, h', move_mem.
    split; lsimp Hne Hns Hns'.
Qed.

Lemma list_bulk_move_tail_spec h src dst ls ld :
  dlist h src ls → dlist h dst ld → (∀ x, x ∈ src :: ls → x ∉ dst :: ld) →
  wp (list_bulk_move_tail (Some src) (Some dst))
     (λ _ h', dlist h' src [] ∧ dlist h' dst (ld ++ ls)
              ∧ lframe (src :: ls ++ dst :: ld) h h') h.
Proof.
  intros Hs Hd Hdisj. destruct ls as [|f l2].
  { unfold list_bulk_move_tail. wstep. eapply wp_eq; [by apply list_empty_spec|].
    simpl. apply wp_ret. rewrite app_nil_r. split_and!; [done..|apply lframe_refl]. }
  destruct (ring_split_last dst ld) as (l1 & p & Ep).
  destruct (exists_last (l:=f :: l2)) as (l3 & z & Ez); [done|].
  assert (prv h src = Some z) as Hz.
  { eapply (dlist_last _ _ _ (src :: l3)); [|exact Hs]. by rewrite Ez. }
  pose proof (dlist_last _ _ _ _ _ Ep Hd) as Hp.
  pose proof (dlist_next_first _ _ _ _ Hs) as Hf.
  destruct Hs as [Hnds Hls], Hd as [Hndd Hld].
  pose proof Hnds as [Hsrc Hndl]%NoDup_cons.
  assert (z ∈ f :: l2) by (rewrite Ez; set_solver).
  assert (p ∈ dst :: ld) by (rewrite Ep; set_solver).
  eapply wp_eq; [apply list_bulk_move_tail_run; [done..| | |]; set_solver|].
  assert (∀ x, x ∈ l1 ++ [p] → x ∉ src :: f :: l2) as Hdj.
  { rewrite <-Ep. intros x Hx Hx'. by apply (Hdisj x). }
  split_and!.
  - apply dlist_nil. unfold move_mem.
    repeat rewrite ?nxt_set_nxt, ?nxt_set_prv, ?prv_set_nxt, ?prv_set_prv.
    by rewrite !decide_True.
  - split.
    + rewrite app_comm_cons. apply NoDup_app. split_and!; [done| |done]. set_solver.
    + rewrite !app_comm_cons, Ep, <-!app_assoc. apply (linked_move _ _ _ _ _ _ _ l2 l3 Ez).
      * rewrite app_comm_cons, Ep, <-app_assoc in Hld. by apply linked_app in Hld as [??].
      * rewrite Ez in Hls |- *. rewrite <-app_assoc in Hls.
        apply (linked_app _ (src :: l3) z [src]) in Hls as [Hls _]. apply (linked_tail _ src). done.
      * by rewrite <-Ep.
      * done.
      * done.
      * done.
      * rewrite <-Ep. set_solver.
      * rewrite <-Ep. simpl. by apply NoDup_cons in Hndd as [??].
  - eapply lframe_weaken; [|apply move_mem_frame]. set_solver.
Qed.

(** *** Replacement *)

Lemma list_replace_spec h hd l1 old l2 new :
  dlist h hd (l1 ++ old :: l2) → new ∉ hd :: l1 ++ old :: l2 →
  wp (list_replace (Some old) (Some new))
     (λ _ h', dlist h' hd (l1 ++ new :: l2)
              ∧ lframe (new :: hd :: l1 ++ old :: l2) h h') h.
Proof.
  intros [Hnd Hl] Hnew.
  destruct (ring_around hd old l1 l2) as (t & p & n & u & E1 & E2 & E & E').
  assert (hd :: (l1 ++ new :: l2) ++ [hd] = t ++ p :: new :: n :: u) as En.
  { rewrite <-app_assoc. simpl. rewrite app_comm_cons, E1, E2, <-app_assoc. done. }
  rewrite E in Hl. assert (nxt h old = Some n ∧ prv h old = Some p) as [Hn Hp].
  { apply linked_app in Hl as [_ Hl]. rewrite !linked_cons in Hl. unfold link in Hl. tauto. }
  assert (NoDup (hd :: l1 ++ l2)) as Hnd'.
  { rewrite app_comm_cons in Hnd. by apply NoDup_delete_mid in Hnd. }
  assert (old ∉ hd :: l1 ++ l2) as Hold.
  { rewrite app_comm_cons in Hnd. apply NoDup_mid_notin in Hnd. set_solver. }
  assert (new ∉ t ++ p :: n :: u ∧ old ∉ t ++ p :: n :: u) as [Hnew' Hold'].
  { rewrite <-E'. set_solver. }
  assert (new ≠ old) by set_solver.
  assert (list_replace (Some old) (Some new) h
          = Ok (tt, set_nxt p (Some new) (set_prv new (Some p)
                      (set_prv n (Some new) (set_nxt new (Some n) h))))) as Hrun.
  { unfold list_replace, ld_next, ld_prev, st_next, st_prev, mbind, M_bind; simpl.
    rewrite Hn. simpl. rewrite nxt_set_nxt, decide_True by done. simpl.
    assert (prv (set_prv n (Some new) (set_nxt new (Some n) h)) old = Some p) as ->.
    { rewrite prv_set_prv, decide_False by set_solver. by rewrite prv_set_nxt. }
    rewrite prv_set_prv, decide_True by done. done. }
  eapply wp_eq; [exact Hrun|].
  destruct (ring_NoDup _ _ Hnd') as [Hr Ht]. rewrite E' in Hr, Ht.
  destruct (ring_neighbours _ _ _ _ Hr Ht) as (Hp1 & Hp2 & Hn1 & Hn2).
  apply linked_app in Hl as [Hl1 Hl2]. rewrite !linked_cons in Hl2.
  destruct Hl2 as (_ & _ & Hl2).
  split; [split|].
  - rewrite app_comm_cons. apply NoDup_insert_mid; [done|]. set_solver.
  - rewrite En. apply linked_app. split; [|rewrite !linked_cons; split_and!].
    + eapply linked_ext; [| |exact Hl1]; intros x Hx.
      * rewrite removelast_last in Hx.
        repeat rewrite ?nxt_set_nxt, ?nxt_set_prv. repeat case_decide; set_solver.
      * pose proof (elem_of_tail _ _ Hx).
        repeat rewrite ?prv_set_nxt, ?prv_set_prv. repeat case_decide; set_solver.
    + unfold link. repeat rewrite ?nxt_set_nxt, ?nxt_set_prv, ?prv_set_nxt, ?prv_set_prv.
      repeat case_decide; set_solver.
    + unfold link. repeat rewrite ?nxt_set_nxt, ?nxt_set_prv, ?prv_set_nxt, ?prv_set_prv.
      repeat case_decide; set_solver.
    + eapply linked_ext; [| |exact Hl2]; intros x Hx.
      * pose proof (elem_of_removelast _ _ Hx).
        repeat rewrite ?nxt_set_nxt, ?nxt_set_prv. repeat case_decide; set_solver.
      * simpl in Hx.
        repeat rewrite ?prv_set_nxt, ?prv_set_prv. repeat case_decide; set_solver.
  - intros m Hm. assert (m ∉ hd :: (l1 ++ old :: l2) ++ [hd]) as Hm' by set_solver.
    rewrite E in Hm'. apply lh_eq.
    all: repeat rewrite ?nxt_set_nxt, ?nxt_set_prv, ?prv_set_nxt, ?prv_set_prv.
    all: repeat case_decide; set_solver.
Qed.

End list_head.
