(* ===== verification/Spinlock.v ===== *)
(** * CPUs and spin locks ([src/xv6-public/spinlock.c], and [mycpu], [cpuid],
    [myproc] of [src/xv6-public/proc.c])

    The state is what one executing CPU sees: the table [cpus[0..ncpu)], its
    own local APIC id, its interrupt flag, and the locks of the kernel.  A
    spin on a lock that is already taken is the fault [Spin]: the code would
    loop until another CPU stores 0.  The debugging fields of a lock ([name],
    [pcs]) are not kept. *)

From S2P Require Import Prelude.

Open Scope Z_scope.

Definition FL_IF : Z := 512.
Definition NCPU : nat := 8.

(** [struct cpu]: the fields the scheduler and the locks use. *)
Record cpu := mkCpu {
  apicid : Z;
  ncli : Z;              (* depth of pushcli nesting *)
  intena : Z;            (* were interrupts enabled before pushcli? *)
  cpu_proc : option nat  (* the process running on this cpu or null *)
}.

(** [struct spinlock]. *)
Record spinlock := mkLock { locked : Z; lk_cpu : option nat }.

(** The kernel's spin locks, by address. *)
Inductive lockid := Lptable | Lfutex | Lticks | Lother (addr : Z).

#[global] Instance lockid_eq_dec : EqDecision lockid.
Proof. solve_decision. Defined.
#[global] Instance lockid_countable : Countable lockid.
Proof.
  apply (inj_countable'
    (λ l, match l with
          | Lptable => inl 0 | Lfutex => inl 1 | Lticks => inl 2 | Lother a => inr a
          end : Z + Z)
    (λ e, match e with
          | inl 0 => Lptable | inl 1 => Lfutex | inl _ => Lticks | inr a => Lother a
          end)).
  by intros [].
Defined.

Record cpus := mkCpus {
  cpu_tab : list cpu;        (* cpus[0], ..., cpus[ncpu-1] *)
  lapicid : Z;               (* local APIC id of the executing CPU *)
  flag_if : bool;            (* its interrupt-enable flag *)
  locks : gmap lockid spinlock
}.

Definition set_flag_if (b : bool) (s : cpus) : cpus :=
  mkCpus (cpu_tab s) (lapicid s) b (locks s).
Definition upd_cpu (i : nat) (f : cpu → cpu) (s : cpus) : cpus :=
  mkCpus (alter f i (cpu_tab s)) (lapicid s) (flag_if s) (locks s).
Definition lock_of (s : cpus) (l : lockid) : spinlock :=
  default (mkLock 0 None) (locks s !! l).
Definition set_lock (l : lockid) (v : spinlock) (s : cpus) : cpus :=
  mkCpus (cpu_tab s) (lapicid s) (flag_if s) (<[l := v]> (locks s)).

Definition set_ncli (v : Z) (c : cpu) : cpu := mkCpu (apicid c) v (intena c) (cpu_proc c).
Definition set_intena (v : Z) (c : cpu) : cpu := mkCpu (apicid c) (ncli c) v (cpu_proc c).
Definition set_cpu_proc (v : option nat) (c : cpu) : cpu :=
  mkCpu (apicid c) (ncli c) (intena c) v.

(** The processor's own instructions. *)
Definition readeflags : M cpus Z := gets (λ s, if flag_if s then FL_IF else 0).
Definition cli : M cpus unit := modify (set_flag_if false).
Definition sti : M cpus unit := modify (set_flag_if true).

(** The linear search of [mycpu] for the executing CPU's APIC id. *)
Fixpoint find_apic (id : Z) (i : nat) (tab : list cpu) : option nat :=
  match tab with
  | [] => None
  | c :: tab' => if Z.eqb (apicid c) id then Some i else find_apic id (S i) tab'
  end.

Definition mycpu : M cpus nat :=
  eflags ← readeflags;
  if negb (Z.eqb (Z.land eflags FL_IF) 0) then panic "mycpu called with interrupts enabled"
  else
    id ← gets lapicid;
    tab ← gets cpu_tab;
    match find_apic id 0 tab with
    | Some i => mret i
    | None => panic "unknown apicid"
    end.

Definition cpuid : M cpus nat := mycpu.

Definition ld_cpu (i : nat) : M cpus cpu :=
  tab ← gets cpu_tab;
  match tab !! i with Some c => mret c | None => fail OutOfBounds end.

Definition pushcli : M cpus unit :=
  eflags ← readeflags;
  cli;;
  i ← mycpu; c ← ld_cpu i;
  when (Z.eqb (ncli c) 0) (modify (upd_cpu i (set_intena (Z.land eflags FL_IF))));;
  c ← ld_cpu i;
  modify (upd_cpu i (set_ncli (ncli c + 1))).

Definition popcli : M cpus unit :=
  eflags ← readeflags;
  if negb (Z.eqb (Z.land eflags FL_IF) 0) then panic "popcli - interruptible"
  else
    i ← mycpu; c ← ld_cpu i;
    modify (upd_cpu i (set_ncli (ncli c - 1)));;
    if Z.ltb (ncli c - 1) 0 then panic "popcli"
    else when (Z.eqb (ncli c - 1) 0 && negb (Z.eqb (intena c) 0)) sti.

Definition holding (l : lockid) : M cpus bool :=
  pushcli;;
  i ← mycpu;
  lk ← gets (λ s, lock_of s l);
  popcli;;
  mret (negb (Z.eqb (locked lk) 0) && bool_decide (lk_cpu lk = Some i)).

Definition initlock (l : lockid) : M cpus unit := modify (set_lock l (mkLock 0 None)).

(** [while(xchg(&lk->locked, 1) != 0) ;] *)
Definition xchg_spin (l : lockid) : M cpus unit :=
  lk ← gets (λ s, lock_of s l);
  if Z.eqb (locked lk) 0 then modify (set_lock l (mkLock 1 (lk_cpu lk))) else fail Spin.

Definition acquire (l : lockid) : M cpus unit :=
  pushcli;;
  h ← holding l;
  if h : bool then panic "acquire"
  else
    xchg_spin l;;
    i ← mycpu;
    lk ← gets (λ s, lock_of s l);
    modify (set_lock l (mkLock (locked lk) (Some i))).

Definition release (l : lockid) : M cpus unit :=
  h ← holding l;
  if negb h then panic "release"
  else
    lk ← gets (λ s, lock_of s l);
    modify (set_lock l (mkLock (locked lk) None));;
    modify (set_lock l (mkLock 0 None));;
    popcli.

Definition myproc : M cpus (option nat) :=
  pushcli;;
  i ← mycpu; c ← ld_cpu i;
  popcli;;
  mret (cpu_proc c).

(** ** Reasoning about the executing CPU *)

(** [at_cpu s i c]: the executing CPU is [cpus[i]], whose fields are [c]. *)
Definition at_cpu (s : cpus) (i : nat) (c : cpu) : Prop :=
  find_apic (lapicid s) 0 (cpu_tab s) = Some i ∧ cpu_tab s !! i = Some c.

(** The nesting counter is consistent: inside a [pushcli] interrupts are off. *)
Definition cli_ok (s : cpus) (c : cpu) : Prop :=
  0 ≤ ncli c ∧ (0 < ncli c → flag_if s = false).

Lemma find_apic_alter f id i k tab :
  (∀ c, apicid (f c) = apicid c) → find_apic id k (alter f i tab) = find_apic id k tab.
Proof.
  intros Hf. revert i k. induction tab as [|c tab IH]; intros [|i] k; simpl; [done..| |].
  - by rewrite Hf.
  - case_match; [done|]. apply IH.
Qed.

Lemma at_cpu_upd s i c f :
  (∀ c, apicid (f c) = apicid c) → at_cpu s i c → at_cpu (upd_cpu i f s) i (f c).
Proof.
  intros Hf [H1 H2]. split; simpl.
  - by rewrite find_apic_alter.
  - by rewrite list_lookup_alter_eq, H2.
Qed.

Lemma at_cpu_flag s i c b : at_cpu s i c → at_cpu (set_flag_if b s) i c.
Proof. done. Qed.

Lemma at_cpu_lock s i c l v : at_cpu s i c → at_cpu (set_lock l v s) i c.
Proof. done. Qed.

Lemma mycpu_run s i c : at_cpu s i c → flag_if s = false → mycpu s = Ok (i, s).
Proof.
  intros [Hf _] Hif. unfold mycpu, readeflags, mbind, M_bind; simpl.
  rewrite Hif. simpl. by rewrite Hf.
Qed.

Lemma ld_cpu_run s i c : at_cpu s i c → ld_cpu i s = Ok (c, s).
Proof. intros [_ H]. unfold ld_cpu, mbind, M_bind; simpl. by rewrite H. Qed.

Lemma upd_cpu_ext s i c f g :
  cpu_tab s !! i = Some c → f c = g c → upd_cpu i f s = upd_cpu i g s.
Proof.
  intros H1 H2. unfold upd_cpu. f_equal. apply list_eq. intros j.
  destruct (decide (i = j)) as [<-|].
  - rewrite !list_lookup_alter_eq, H1. simpl. congruence.
  - by rewrite !list_lookup_alter_ne.
Qed.

Lemma upd_cpu_upd s i c f g h :
  cpu_tab s !! i = Some c → f (g c) = h c → upd_cpu i f (upd_cpu i g s) = upd_cpu i h s.
Proof.
  intros H1 H2. unfold upd_cpu; simpl. f_equal. apply list_eq. intros j.
  destruct (decide (i = j)) as [<-|].
  - rewrite !list_lookup_alter_eq, H1. simpl. congruence.
  - by rewrite !list_lookup_alter_ne.
Qed.

Lemma upd_cpu_id s i c f : cpu_tab s !! i = Some c → f c = c → upd_cpu i f s = s.
Proof.
  intros H1 H2. destruct s; unfold upd_cpu; simpl in *. f_equal. apply list_eq. intros j.
  destruct (decide (i = j)) as [<-|].
  - rewrite list_lookup_alter_eq, H1. simpl. congruence.
  - by rewrite list_lookup_alter_ne.
Qed.

Definition if_bits (s : cpus) : Z := if flag_if s then FL_IF else 0.

Lemma if_bits_land s : Z.land (if_bits s) FL_IF = if_bits s.
Proof. unfold if_bits. by destruct (flag_if s). Qed.

(** What [pushcli] leaves in the CPU's record, and the state after it. *)
Definition pushed_cpu (s : cpus) (c : cpu) : cpu :=
  mkCpu (apicid c) (ncli c + 1) (if Z.eqb (ncli c) 0 then if_bits s else intena c) (cpu_proc c).
Definition pushed (i : nat) (s : cpus) : cpus :=
  upd_cpu i (pushed_cpu s) (set_flag_if false s).
Definition popped (i : nat) (c : cpu) (s : cpus) : cpus :=
  set_flag_if (Z.eqb (ncli c) 1 && negb (Z.eqb (intena c) 0))
    (upd_cpu i (set_ncli (ncli c - 1)) s).

Lemma at_cpu_pushed s i c : at_cpu s i c → at_cpu (pushed i s) i (pushed_cpu s c).
Proof. intros Hat. by apply at_cpu_upd. Qed.

Lemma pushcli_run s i c : at_cpu s i c → pushcli s = Ok (tt, pushed i s).
Proof.
  intros Hat. unfold pushcli, readeflags, cli, mbind, M_bind; simpl.
  rewrite (mycpu_run _ i c) by done. rewrite (ld_cpu_run _ i c) by done.
  unfold when, modify, mret, M_ret, pushed, pushed_cpu.
  pose proof (proj2 Hat) as Hc.
  destruct (Z.eqb_spec (ncli c) 0) as [E|E].
  - assert (at_cpu (upd_cpu i (set_intena (Z.land (if_bits s) FL_IF)) (set_flag_if false s)) i
              (set_intena (if_bits s) c)) as Hat2.
    { rewrite if_bits_land. by apply at_cpu_upd. }
    change (if flag_if s then FL_IF else 0) with (if_bits s).
    rewrite (ld_cpu_run _ _ _ Hat2). do 2 f_equal.
    apply (upd_cpu_upd _ _ c); [done|]. simpl. rewrite if_bits_land. by rewrite E.
  - rewrite (ld_cpu_run _ i c) by done. do 2 f_equal.
    eapply upd_cpu_ext; [done|]. unfold set_ncli. apply Z.eqb_neq in E. by rewrite E.
Qed.

Lemma popcli_run s i c :
  at_cpu s i c → flag_if s = false → 0 < ncli c → popcli s = Ok (tt, popped i c s).
Proof.
  intros Hat Hif Hn. unfold popcli, readeflags, mbind, M_bind; simpl. rewrite Hif. simpl.
  rewrite (mycpu_run _ i c) by done. rewrite (ld_cpu_run _ i c) by done.
  unfold modify. destruct (Z.ltb_spec (ncli c - 1) 0); [lia|].
  unfold popped. replace (ncli c - 1 =? 0) with (ncli c =? 1) by lia.
  destruct ((ncli c =? 1) && negb (intena c =? 0)); simpl; [done|].
  unfold mret, M_ret, set_flag_if, upd_cpu. simpl. by rewrite Hif.
Qed.

(** [pushcli] followed by [popcli] only refreshes [intena]. *)
Definition refreshed (i : nat) (s : cpus) : cpus :=
  upd_cpu i (λ c, if Z.eqb (ncli c) 0 then set_intena (if_bits s) c else c) s.

Lemma popped_pushed s i c :
  at_cpu s i c → cli_ok s c → popped i (pushed_cpu s c) (pushed i s) = refreshed i s.
Proof.
  intros [_ Hc] [Hn Hif]. unfold popped, pushed, refreshed. simpl.
  rewrite (upd_cpu_upd _ _ c _ _ (λ c, if ncli c =? 0 then set_intena (if_bits s) c else c)).
  - unfold set_flag_if, upd_cpu; simpl. f_equal.
    replace (ncli c + 1 =? 1) with (ncli c =? 0) by lia.
    destruct (Z.eqb_spec (ncli c) 0) as [E|E]; simpl.
    + unfold if_bits. by destruct (flag_if s).
    + rewrite Hif; [done|lia].
  - done.
  - unfold pushed_cpu, set_ncli. simpl. destruct (Z.eqb_spec (ncli c) 0) as [E|E].
    + unfold set_intena. rewrite E. done.
    + replace (ncli c + 1 - 1) with (ncli c) by lia. by destruct c.
Qed.

Lemma holding_run s i c l :
  at_cpu s i c → cli_ok s c →
  holding l s = Ok (negb (Z.eqb (locked (lock_of s l)) 0)
                      && bool_decide (lk_cpu (lock_of s l) = Some i), refreshed i s).
Proof.
  intros Hat Hok. unfold holding, mbind, M_bind.
  rewrite (pushcli_run _ _ _ Hat). pose proof (at_cpu_pushed _ _ _ Hat) as Hat'.
  rewrite (mycpu_run _ _ _ Hat' eq_refl). simpl.
  rewrite (popcli_run _ _ _ Hat' eq_refl) by (destruct Hok; simpl; lia).
  by rewrite (popped_pushed _ _ _ Hat Hok).
Qed.

Lemma myproc_run s i c :
  at_cpu s i c → cli_ok s c → myproc s = Ok (cpu_proc c, refreshed i s).
Proof.
  intros Hat Hok. unfold myproc, mbind, M_bind.
  rewrite (pushcli_run _ _ _ Hat). pose proof (at_cpu_pushed _ _ _ Hat) as Hat'.
  rewrite (mycpu_run _ _ _ Hat' eq_refl), (ld_cpu_run _ _ _ Hat').
  rewrite (popcli_run _ _ _ Hat' eq_refl) by (destruct Hok; simpl; lia).
  by rewrite (popped_pushed _ _ _ Hat Hok).
Qed.

Lemma refreshed_held s i c : at_cpu s i c → 0 < ncli c → refreshed i s = s.
Proof.
  intros [_ Hc] Hn. unfold refreshed. eapply upd_cpu_id; [done|].
  destruct (Z.eqb_spec (ncli c) 0); [lia|done].
Qed.

Lemma cli_ok_pushed s i c : cli_ok s c → cli_ok (pushed i s) (pushed_cpu s c).
Proof. intros [??]. split; simpl; [lia|done]. Qed.

(** ** What the locks promise *)

(** [acquire] of a free lock: interrupts go off, one more nesting level, and
    the lock is marked taken by this CPU. *)
Lemma acquire_run s i c l :
  at_cpu s i c → cli_ok s c → locked (lock_of s l) = 0 → lk_cpu (lock_of s l) = None →
  acquire l s = Ok (tt, set_lock l (mkLock 1 (Some i)) (pushed i s)).
Proof.
  intros Hat Hok Hl Hc. unfold acquire, mbind, M_bind.
  rewrite (pushcli_run _ _ _ Hat). pose proof (at_cpu_pushed _ _ _ Hat) as Hat'.
  rewrite (holding_run _ _ _ _ Hat' (cli_ok_pushed _ _ _ Hok)).
  rewrite (refreshed_held _ _ _ Hat') by (destruct Hok; simpl; lia).
  change (lock_of (pushed i s) l) with (lock_of s l). rewrite Hl. simpl.
  unfold xchg_spin, mbind, M_bind; simpl.
  change (lock_of (pushed i s) l) with (lock_of s l). rewrite Hl. simpl.
  unfold modify. rewrite (mycpu_run _ i (pushed_cpu s c)) by done. simpl.
  unfold set_lock, lock_of; simpl. rewrite lookup_insert_eq. simpl.
  do 3 f_equal. apply insert_insert_eq.
Qed.

(** [release] of a lock this CPU holds. *)
Lemma release_run s i c l :
  at_cpu s i c → cli_ok s c → 0 < ncli c → locked (lock_of s l) ≠ 0 →
  lk_cpu (lock_of s l) = Some i →
  release l s = Ok (tt, popped i c (set_lock l (mkLock 0 None) s)).
Proof.
  intros Hat Hok Hn Hl Hc. unfold release, mbind, M_bind.
  rewrite (holding_run _ _ _ _ Hat Hok), (refreshed_held _ _ _ Hat Hn).
  rewrite Hc. apply Z.eqb_neq in Hl. rewrite Hl. rewrite bool_decide_eq_true_2 by done. simpl.
  unfold modify. rewrite (popcli_run _ i c); [|done|by apply Hok|done].
  do 2 f_equal. unfold set_lock; simpl. by rewrite insert_insert_eq.
Qed.

(** Taking a lock twice on the same CPU is a panic, not a deadlock. *)
Lemma acquire_held_panics s i c l :
  at_cpu s i c → cli_ok s c → locked (lock_of s l) ≠ 0 → lk_cpu (lock_of s l) = Some i →
  acquire l s = Err (Panic "acquire").
Proof.
  intros Hat Hok Hl Hc. unfold acquire, mbind, M_bind.
  rewrite (pushcli_run _ _ _ Hat). pose proof (at_cpu_pushed _ _ _ Hat) as Hat'.
  rewrite (holding_run _ _ _ _ Hat' (cli_ok_pushed _ _ _ Hok)).
  change (lock_of (pushed i s) l) with (lock_of s l). rewrite Hc.
  apply Z.eqb_neq in Hl. rewrite Hl. by rewrite bool_decide_eq_true_2.
Qed.

(** A lock another CPU holds makes [acquire] spin. *)
Lemma acquire_other_spins s i j c l :
  at_cpu s i c → cli_ok s c → locked (lock_of s l) ≠ 0 → lk_cpu (lock_of s l) = Some j → i ≠ j →
  acquire l s = Err Spin.
Proof.
  intros Hat Hok Hl Hc Hij. unfold acquire, mbind, M_bind.
  rewrite (pushcli_run _ _ _ Hat). pose proof (at_cpu_pushed _ _ _ Hat) as Hat'.
  rewrite (holding_run _ _ _ _ Hat' (cli_ok_pushed _ _ _ Hok)).
  rewrite (refreshed_held _ _ _ Hat') by (destruct Hok; simpl; lia).
  change (lock_of (pushed i s) l) with (lock_of s l). rewrite Hc.
  rewrite bool_decide_eq_false_2 by congruence. rewrite andb_false_r.
  unfold xchg_spin, mbind, M_bind; simpl.
  change (lock_of (pushed i s) l) with (lock_of s l).
  apply Z.eqb_neq in Hl. by rewrite Hl.
Qed.

(** Releasing a lock that is not held by this CPU is a panic. *)
Lemma release_not_held_panics s i c l :
  at_cpu s i c → cli_ok s c → (locked (lock_of s l) = 0 ∨ lk_cpu (lock_of s l) ≠ Some i) →
  release l s = Err (Panic "release").
Proof.
  intros Hat Hok Hl. unfold release, mbind, M_bind.
  rewrite (holding_run _ _ _ _ Hat Hok).
  destruct Hl as [->|Hl]; simpl; [done|].
  rewrite bool_decide_eq_false_2 by done. by rewrite andb_false_r.
Qed.

(** The critical section [acquire l; release l] gives back the interrupt
    state and the nesting depth it found, and leaves the lock free. *)
Theorem acquire_release_roundtrip s i c l :
  at_cpu s i c → cli_ok s c → locked (lock_of s l) = 0 → lk_cpu (lock_of s l) = None →
  (acquire l;; release l) s = Ok (tt, set_lock l (mkLock 0 None) (refreshed i s)).
Proof.
  intros Hat Hok Hl Hc.
  rewrite (bind_ok _ _ _ _ _ (acquire_run _ _ _ _ Hat Hok Hl Hc)).
  pose proof (at_cpu_pushed _ _ _ Hat) as Hat'.
  rewrite (release_run _ i (pushed_cpu s c)).
  - do 2 f_equal. rewrite <-(popped_pushed _ _ _ Hat Hok).
    unfold popped, set_lock, set_flag_if, upd_cpu; simpl. by rewrite insert_insert_eq.
  - done.
  - by apply cli_ok_pushed.
  - destruct Hok; simpl; lia.
  - unfold lock_of; simpl. by rewrite lookup_insert_eq.
  - unfold lock_of; simpl. by rewrite lookup_insert_eq.
Qed.

Lemma acquire_release_roundtrip_witness :
  let s := mkCpus [mkCpu 0 0 0 None] 0 true ∅ in
  (acquire Lptable;; release Lptable) s = Ok (tt, set_lock Lptable (mkLock 0 None) (refreshed 0 s)).
Proof.
  intros s. apply (acquire_release_roundtrip s 0 (mkCpu 0 0 0 None) Lptable).
  - split; reflexivity.
  - split; simpl; lia.
  - reflexivity.
  - reflexivity.
Defined.

(** [acquire] cannot be entered twice: on the CPU that already holds the
    lock it panics, and on any other CPU it keeps spinning, so no two CPUs
    are ever past [acquire] on one lock. *)
Theorem acquire_is_exclusive s i j c l :
  at_cpu s i c → cli_ok s c → locked (lock_of s l) ≠ 0 → lk_cpu (lock_of s l) = Some j →
  acquire l s = if decide (i = j) then Err (Panic "acquire") else Err Spin.
Proof.
  intros. case_decide; subst; [by eapply acquire_held_panics|by eapply acquire_other_spins].
Qed.

Lemma acquire_is_exclusive_witness :
  acquire Lptable (mkCpus [mkCpu 0 1 0 None] 0 false {[Lptable := mkLock 1 (Some 0%nat)]})
  = Err (Panic "acquire").
Proof.
  apply (acquire_is_exclusive _ 0 0 (mkCpu 0 1 0 None) Lptable).
  - split; reflexivity.
  - split; simpl; [lia|reflexivity].
  - vm_compute. discriminate.
  - reflexivity.
Defined.

Close Scope Z_scope.
