(* ===== verification/Kstate.v ===== *)
(** * The kernel's process table ([src/xv6-public/proc.h], [scheduler.h],
    [param.h])

    Data only: process states, [struct proc], [struct mlfq],
    [struct stride], and the state [kstate] every routine of [proc.c] and
    [thread.c] works on.  A [struct proc *] is the index of the entry in
    [ptable.proc]; the embedded [struct list_head]s are the addresses
    [NProc f p] of one shared memory of links.  Entries that were never
    written hold the zeroes of the BSS. *)

From S2P Require Import Prelude.
From S2P Require Import ListH.
From S2P Require Import Spinlock.

Open Scope Z_scope.

(** ** [param.h] *)
Definition NPROC : nat := 256.
Definition KSTACKSIZE : Z := 4096.
Definition USTACKSIZE : Z := 4096.
Definition NOFILE : nat := 16.
Definition QSIZE : nat := 3.
Definition BOOSTINTERVAL : Z := 200.
Definition RESERVE : Z := 20.
Definition MAGICEXIT : Z := 3772834016.   (* 0xE0E0E0E0 *)

(** ** [scheduler.h] *)
Definition DTQ : Z := 5.
Definition TQ (l : Z) : Z := if Z.eqb l 0 then 5 else 10 * l.
Definition TA (l : Z) : Z := 4 * TQ l.
Definition LARGENUM : Z := 1000.
Definition MAXINT : Z := 2147483647.      (* 0x7fffffff *)
Definition BARRIER : Z := 1879048191.     (* 0x6fffffff *)

(** ** Addresses of list heads *)

(** The [struct list_head] members of [struct proc]. *)
Inductive lfield := Fchildren | Fsibling | Fsleep | Fmlfq | Ffree | Frun | Fthgroup.

Inductive lnode :=
| NProc (f : lfield) (p : nat)   (* &ptable.proc[p].f *)
| NQueue (l : nat)               (* &ptable.mlfq.queue[l] *)
| NStrideRun                     (* &ptable.stride.run *)
| NSleep                         (* &ptable.sleep *)
| NFree.                         (* &ptable.free *)

#[global] Instance lfield_eq_dec : EqDecision lfield.
Proof. solve_decision. Defined.
#[global] Instance lnode_eq_dec : EqDecision lnode.
Proof. solve_decision. Defined.

Definition lfield_code (f : lfield) : nat :=
  match f with
  | Fchildren => 0 | Fsibling => 1 | Fsleep => 2 | Fmlfq => 3 | Ffree => 4 | Frun => 5
  | Fthgroup => 6
  end.
Definition lfield_decode (n : nat) : lfield :=
  match n with
  | 0 => Fchildren | 1 => Fsibling | 2 => Fsleep | 3 => Fmlfq | 4 => Ffree | 5 => Frun
  | _ => Fthgroup
  end%nat.

#[global] Instance lnode_countable : Countable lnode.
Proof.
  apply (inj_countable'
    (λ n, match n with
          | NProc f p => inl (lfield_code f, p)
          | NQueue l => inr (inl l)
          | NStrideRun => inr (inr 0%nat) | NSleep => inr (inr 1%nat) | NFree => inr (inr 2%nat)
          end : (nat * nat) + (nat + nat))
    (λ e, match e with
          | inl (c, p) => NProc (lfield_decode c) p
          | inr (inl l) => NQueue l
          | inr (inr 0%nat) => NStrideRun | inr (inr 1%nat) => NSleep | inr (inr _) => NFree
          end)).
  by intros [[]| | | |].
Defined.

(** ** [proc.h] *)

Inductive procstate := UNUSED | EMBRYO | SLEEPING | RUNNABLE | RUNNING | ZOMBIE.
Inductive schedtype := MLFQ | STRIDE.

#[global] Instance procstate_eq_dec : EqDecision procstate.
Proof. solve_decision. Defined.
#[global] Instance schedtype_eq_dec : EqDecision schedtype.
Proof. solve_decision. Defined.

(** A sleep channel: null, a process, or another kernel address. *)
Inductive chan := Cnull | Cproc (p : nat) | Caddr (a : Z).
#[global] Instance chan_eq_dec : EqDecision chan.
Proof. solve_decision. Defined.

(** [struct proc], without the embedded list heads. *)
Record proc := mkProc {
  p_sz : Z;  (* size of process memory (bytes) *)
  p_pgdir : Z;  (* page table *)
  p_kstack : Z;  (* bottom of kernel stack, 0 when there is none *)
  p_kstk : list Z;  (* the words of the kernel stack page *)
  p_ustack : Z;  (* bottom of the thread's user stack *)
  p_state : procstate;
  p_pid : Z;
  p_parent : option nat;
  p_tf : Z;  (* address of the trap frame on the kernel stack *)
  p_context : Z;  (* address of the saved context on the kernel stack *)
  p_chan : chan;  (* if non-null, sleeping on it *)
  p_killed : Z;
  p_ofile : list (option nat);  (* open files: indices into ftable.file *)
  p_cwd : option nat;  (* current directory: index into icache.inode *)
  p_name : list Z;  (* char name[16] *)
  p_type : schedtype;
  p_tickets : Z;  (* stride *)
  p_pass : Z;  (* stride *)
  p_ticks : Z;  (* MLFQ *)
  p_privlevel : Z;  (* MLFQ *)
  p_tid : Z;
  p_thmain : option nat;
  p_retval : Z
}.

Definition set_p_sz (v : Z) (p : proc) : proc :=
  mkProc v (p_pgdir p) (p_kstack p) (p_kstk p) (p_ustack p) (p_state p) (p_pid p) (p_parent p) (p_tf p) (p_context p) (p_chan p) (p_killed p) (p_ofile p) (p_cwd p) (p_name p) (p_type p) (p_tickets p) (p_pass p) (p_ticks p) (p_privlevel p) (p_tid p) (p_thmain p) (p_retval p).
Definition set_p_pgdir (v : Z) (p : proc) : proc :=
  mkProc (p_sz p) v (p_kstack p) (p_kstk p) (p_ustack p) (p_state p) (p_pid p) (p_parent p) (p_tf p) (p_context p) (p_chan p) (p_killed p) (p_ofile p) (p_cwd p) (p_name p) (p_type p) (p_tickets p) (p_pass p) (p_ticks p) (p_privlevel p) (p_tid p) (p_thmain p) (p_retval p).
Definition set_p_kstack (v : Z) (p : proc) : proc :=
  mkProc (p_sz p) (p_pgdir p) v (p_kstk p) (p_ustack p) (p_state p) (p_pid p) (p_parent p) (p_tf p) (p_context p) (p_chan p) (p_killed p) (p_ofile p) (p_cwd p) (p_name p) (p_type p) (p_tickets p) (p_pass p) (p_ticks p) (p_privlevel p) (p_tid p) (p_thmain p) (p_retval p).
Definition set_p_kstk (v : list Z) (p : proc) : proc :=
  mkProc (p_sz p) (p_pgdir p) (p_kstack p) v (p_ustack p) (p_state p) (p_pid p) (p_parent p) (p_tf p) (p_context p) (p_chan p) (p_killed p) (p_ofile p) (p_cwd p) (p_name p) (p_type p) (p_tickets p) (p_pass p) (p_ticks p) (p_privlevel p) (p_tid p) (p_thmain p) (p_retval p).
Definition set_p_ustack (v : Z) (p : proc) : proc :=
  mkProc (p_sz p) (p_pgdir p) (p_kstack p) (p_kstk p) v (p_state p) (p_pid p) (p_parent p) (p_tf p) (p_context p) (p_chan p) (p_killed p) (p_ofile p) (p_cwd p) (p_name p) (p_type p) (p_tickets p) (p_pass p) (p_ticks p) (p_privlevel p) (p_tid p) (p_thmain p) (p_retval p).
Definition set_p_state (v : procstate) (p : proc) : proc :=
  mkProc (p_sz p) (p_pgdir p) (p_kstack p) (p_kstk p) (p_ustack p) v (p_pid p) (p_parent p) (p_tf p) (p_context p) (p_chan p) (p_killed p) (p_ofile p) (p_cwd p) (p_name p) (p_type p) (p_tickets p) (p_pass p) (p_ticks p) (p_privlevel p) (p_tid p) (p_thmain p) (p_retval p).
Definition set_p_pid (v : Z) (p : proc) : proc :=
  mkProc (p_sz p) (p_pgdir p) (p_kstack p) (p_kstk p) (p_ustack p) (p_state p) v (p_parent p) (p_tf p) (p_context p) (p_chan p) (p_killed p) (p_ofile p) (p_cwd p) (p_name p) (p_type p) (p_tickets p) (p_pass p) (p_ticks p) (p_privlevel p) (p_tid p) (p_thmain p) (p_retval p).
Definition set_p_parent (v : option nat) (p : proc) : proc :=
  mkProc (p_sz p) (p_pgdir p) (p_kstack p) (p_kstk p) (p_ustack p) (p_state p) (p_pid p) v (p_tf p) (p_context p) (p_chan p) (p_killed p) (p_ofile p) (p_cwd p) (p_name p) (p_type p) (p_tickets p) (p_pass p) (p_ticks p) (p_privlevel p) (p_tid p) (p_thmain p) (p_retval p).
Definition set_p_tf (v : Z) (p : proc) : proc :=
  mkProc (p_sz p) (p_pgdir p) (p_kstack p) (p_kstk p) (p_ustack p) (p_state p) (p_pid p) (p_parent p) v (p_context p) (p_chan p) (p_killed p) (p_ofile p) (p_cwd p) (p_name p) (p_type p) (p_tickets p) (p_pass p) (p_ticks p) (p_privlevel p) (p_tid p) (p_thmain p) (p_retval p).
Definition set_p_context (v : Z) (p : proc) : proc :=
  mkProc (p_sz p) (p_pgdir p) (p_kstack p) (p_kstk p) (p_ustack p) (p_state p) (p_pid p) (p_parent p) (p_tf p) v (p_chan p) (p_killed p) (p_ofile p) (p_cwd p) (p_name p) (p_type p) (p_tickets p) (p_pass p) (p_ticks p) (p_privlevel p) (p_tid p) (p_thmain p) (p_retval p).
Definition set_p_chan (v : chan) (p : proc) : proc :=
  mkProc (p_sz p) (p_pgdir p) (p_kstack p) (p_kstk p) (p_ustack p) (p_state p) (p_pid p) (p_parent p) (p_tf p) (p_context p) v (p_killed p) (p_ofile p) (p_cwd p) (p_name p) (p_type p) (p_tickets p) (p_pass p) (p_ticks p) (p_privlevel p) (p_tid p) (p_thmain p) (p_retval p).
Definition set_p_killed (v : Z) (p : proc) : proc :=
  mkProc (p_sz p) (p_pgdir p) (p_kstack p) (p_kstk p) (p_ustack p) (p_state p) (p_pid p) (p_parent p) (p_tf p) (p_context p) (p_chan p) v (p_ofile p) (p_cwd p) (p_name p) (p_type p) (p_tickets p) (p_pass p) (p_ticks p) (p_privlevel p) (p_tid p) (p_thmain p) (p_retval p).
Definition set_p_ofile (v : list (option nat)) (p : proc) : proc :=
  mkProc (p_sz p) (p_pgdir p) (p_kstack p) (p_kstk p) (p_ustack p) (p_state p) (p_pid p) (p_parent p) (p_tf p) (p_context p) (p_chan p) (p_killed p) v (p_cwd p) (p_name p) (p_type p) (p_tickets p) (p_pass p) (p_ticks p) (p_privlevel p) (p_tid p) (p_thmain p) (p_retval p).
Definition set_p_cwd (v : option nat) (p : proc) : proc :=
  mkProc (p_sz p) (p_pgdir p) (p_kstack p) (p_kstk p) (p_ustack p) (p_state p) (p_pid p) (p_parent p) (p_tf p) (p_context p) (p_chan p) (p_killed p) (p_ofile p) v (p_name p) (p_type p) (p_tickets p) (p_pass p) (p_ticks p) (p_privlevel p) (p_tid p) (p_thmain p) (p_retval p).
Definition set_p_name (v : list Z) (p : proc) : proc :=
  mkProc (p_sz p) (p_pgdir p) (p_kstack p) (p_kstk p) (p_ustack p) (p_state p) (p_pid p) (p_parent p) (p_tf p) (p_context p) (p_chan p) (p_killed p) (p_ofile p) (p_cwd p) v (p_type p) (p_tickets p) (p_pass p) (p_ticks p) (p_privlevel p) (p_tid p) (p_thmain p) (p_retval p).
Definition set_p_type (v : schedtype) (p : proc) : proc :=
  mkProc (p_sz p) (p_pgdir p) (p_kstack p) (p_kstk p) (p_ustack p) (p_state p) (p_pid p) (p_parent p) (p_tf p) (p_context p) (p_chan p) (p_killed p) (p_ofile p) (p_cwd p) (p_name p) v (p_tickets p) (p_pass p) (p_ticks p) (p_privlevel p) (p_tid p) (p_thmain p) (p_retval p).
Definition set_p_tickets (v : Z) (p : proc) : proc :=
  mkProc (p_sz p) (p_pgdir p) (p_kstack p) (p_kstk p) (p_ustack p) (p_state p) (p_pid p) (p_parent p) (p_tf p) (p_context p) (p_chan p) (p_killed p) (p_ofile p) (p_cwd p) (p_name p) (p_type p) v (p_pass p) (p_ticks p) (p_privlevel p) (p_tid p) (p_thmain p) (p_retval p).
Definition set_p_pass (v : Z) (p : proc) : proc :=
  mkProc (p_sz p) (p_pgdir p) (p_kstack p) (p_kstk p) (p_ustack p) (p_state p) (p_pid p) (p_parent p) (p_tf p) (p_context p) (p_chan p) (p_killed p) (p_ofile p) (p_cwd p) (p_name p) (p_type p) (p_tickets p) v (p_ticks p) (p_privlevel p) (p_tid p) (p_thmain p) (p_retval p).
Definition set_p_ticks (v : Z) (p : proc) : proc :=
  mkProc (p_sz p) (p_pgdir p) (p_kstack p) (p_kstk p) (p_ustack p) (p_state p) (p_pid p) (p_parent p) (p_tf p) (p_context p) (p_chan p) (p_killed p) (p_ofile p) (p_cwd p) (p_name p) (p_type p) (p_tickets p) (p_pass p) v (p_privlevel p) (p_tid p) (p_thmain p) (p_retval p).
Definition set_p_privlevel (v : Z) (p : proc) : proc :=
  mkProc (p_sz p) (p_pgdir p) (p_kstack p) (p_kstk p) (p_ustack p) (p_state p) (p_pid p) (p_parent p) (p_tf p) (p_context p) (p_chan p) (p_killed p) (p_ofile p) (p_cwd p) (p_name p) (p_type p) (p_tickets p) (p_pass p) (p_ticks p) v (p_tid p) (p_thmain p) (p_retval p).
Definition set_p_tid (v : Z) (p : proc) : proc :=
  mkProc (p_sz p) (p_pgdir p) (p_kstack p) (p_kstk p) (p_ustack p) (p_state p) (p_pid p) (p_parent p) (p_tf p) (p_context p) (p_chan p) (p_killed p) (p_ofile p) (p_cwd p) (p_name p) (p_type p) (p_tickets p) (p_pass p) (p_ticks p) (p_privlevel p) v (p_thmain p) (p_retval p).
Definition set_p_thmain (v : option nat) (p : proc) : proc :=
  mkProc (p_sz p) (p_pgdir p) (p_kstack p) (p_kstk p) (p_ustack p) (p_state p) (p_pid p) (p_parent p) (p_tf p) (p_context p) (p_chan p) (p_killed p) (p_ofile p) (p_cwd p) (p_name p) (p_type p) (p_tickets p) (p_pass p) (p_ticks p) (p_privlevel p) (p_tid p) v (p_retval p).
Definition set_p_retval (v : Z) (p : proc) : proc :=
  mkProc (p_sz p) (p_pgdir p) (p_kstack p) (p_kstk p) (p_ustack p) (p_state p) (p_pid p) (p_parent p) (p_tf p) (p_context p) (p_chan p) (p_killed p) (p_ofile p) (p_cwd p) (p_name p) (p_type p) (p_tickets p) (p_pass p) (p_ticks p) (p_privlevel p) (p_tid p) (p_thmain p) v.

(** The zeroes of the BSS ([UNUSED], [MLFQ] are 0). *)
Definition proc0 : proc :=
  mkProc 0 0 0 [] 0 UNUSED 0 None 0 0 Cnull 0 (replicate NOFILE None) None (replicate 16 0)
         MLFQ 0 0 0 0 0 None 0.

(** ** [struct mlfq], [struct stride] and the whole state *)

Record mlfq_t := mkMlfq {
  mq_tickets : Z;
  mq_pass : Z;
  mq_ticks : Z;
  mq_pin : list (option lnode)  (* pin[QSIZE] *)
}.

Definition set_mq_tickets (v : Z) (m : mlfq_t) : mlfq_t :=
  mkMlfq v (mq_pass m) (mq_ticks m) (mq_pin m).
Definition set_mq_pass (v : Z) (m : mlfq_t) : mlfq_t :=
  mkMlfq (mq_tickets m) v (mq_ticks m) (mq_pin m).
Definition set_mq_ticks (v : Z) (m : mlfq_t) : mlfq_t :=
  mkMlfq (mq_tickets m) (mq_pass m) v (mq_pin m).
Definition set_mq_pin (v : list (option lnode)) (m : mlfq_t) : mlfq_t :=
  mkMlfq (mq_tickets m) (mq_pass m) (mq_ticks m) v.

Record stride_t := mkStride {
  st_size : Z;  (* size of minheap *)
  st_minheap : list (option nat)  (* minheap[NPROC], used from index 1 *)
}.

Definition set_st_size (v : Z) (t : stride_t) : stride_t :=
  mkStride v (st_minheap t).
Definition set_st_minheap (v : list (option nat)) (t : stride_t) : stride_t :=
  mkStride (st_size t) v.

Record kstate (E : Type) := mkK {
  procs : gmap nat proc;  (* ptable.proc *)
  links : gmap lnode (list_head lnode);  (* every list_head of the kernel *)
  k_mlfq : mlfq_t;  (* ptable.mlfq *)
  k_stride : stride_t;  (* ptable.stride *)
  nproc : Z;
  nextpid : Z;
  initproc : option nat;
  k_cpus : cpus;  (* the CPUs and the locks *)
  k_ext : E  (* the memory and file subsystems *)
}.

Arguments mkK {E}.
Arguments procs {E}.
Arguments links {E}.
Arguments k_mlfq {E}.
Arguments k_stride {E}.
Arguments nproc {E}.
Arguments nextpid {E}.
Arguments initproc {E}.
Arguments k_cpus {E}.
Arguments k_ext {E}.

Definition set_procs {E} (v : gmap nat proc) (s : kstate E) : kstate E :=
  mkK v (links s) (k_mlfq s) (k_stride s) (nproc s) (nextpid s) (initproc s) (k_cpus s) (k_ext s).
Definition set_links {E} (v : gmap lnode (list_head lnode)) (s : kstate E) : kstate E :=
  mkK (procs s) v (k_mlfq s) (k_stride s) (nproc s) (nextpid s) (initproc s) (k_cpus s) (k_ext s).
Definition set_k_mlfq {E} (v : mlfq_t) (s : kstate E) : kstate E :=
  mkK (procs s) (links s) v (k_stride s) (nproc s) (nextpid s) (initproc s) (k_cpus s) (k_ext s).
Definition set_k_stride {E} (v : stride_t) (s : kstate E) : kstate E :=
  mkK (procs s) (links s) (k_mlfq s) v (nproc s) (nextpid s) (initproc s) (k_cpus s) (k_ext s).
Definition set_nproc {E} (v : Z) (s : kstate E) : kstate E :=
  mkK (procs s) (links s) (k_mlfq s) (k_stride s) v (nextpid s) (initproc s) (k_cpus s) (k_ext s).
Definition set_nextpid {E} (v : Z) (s : kstate E) : kstate E :=
  mkK (procs s) (links s) (k_mlfq s) (k_stride s) (nproc s) v (initproc s) (k_cpus s) (k_ext s).
Definition set_initproc {E} (v : option nat) (s : kstate E) : kstate E :=
  mkK (procs s) (links s) (k_mlfq s) (k_stride s) (nproc s) (nextpid s) v (k_cpus s) (k_ext s).
Definition set_k_cpus {E} (v : cpus) (s : kstate E) : kstate E :=
  mkK (procs s) (links s) (k_mlfq s) (k_stride s) (nproc s) (nextpid s) (initproc s) v (k_ext s).
Definition set_k_ext {E} (v : E) (s : kstate E) : kstate E :=
  mkK (procs s) (links s) (k_mlfq s) (k_stride s) (nproc s) (nextpid s) (initproc s) (k_cpus s) v.

(** ** Access *)

Section access.
  Context {E : Type}.
  Abbreviation KM := (M (kstate E)).

Definition pr (s : kstate E) (p : nat) : proc := default proc0 (procs s !! p).
Definition upd_proc (p : nat) (f : proc → proc) (s : kstate E) : kstate E :=
  set_procs (<[p := f (pr s p)]> (procs s)) s.
Definition upd_mlfq (f : mlfq_t → mlfq_t) (s : kstate E) : kstate E :=
  set_k_mlfq (f (k_mlfq s)) s.
Definition upd_stride (f : stride_t → stride_t) (s : kstate E) : kstate E :=
  set_k_stride (f (k_stride s)) s.

(** [p->field] and [p->field = v]. *)
Definition rd {A} (p : nat) (f : proc → A) : KM A := gets (λ s, f (pr s p)).
Definition wr (p : nat) (f : proc → proc) : KM unit := modify (upd_proc p f).

(** Routines of [list.h] and [spinlock.c] on the kernel state. *)
Definition on_links {A} : M (gmap lnode (list_head lnode)) A → KM A :=
  zoom links set_links.
Definition on_cpus {A} : M cpus A → KM A := zoom k_cpus set_k_cpus.

(** [list_entry(ptr, struct proc, f)]. *)
Definition list_entry (f : lfield) (n : option lnode) : KM nat :=
  match n with
  | Some (NProc g p) => if decide (f = g) then mret p else fail WildPtr
  | Some _ => fail WildPtr
  | None => fail NullDeref
  end.

(** [&ptable.mlfq.queue[level]], [ptable.mlfq.pin[level]]. *)
Definition level_ok (level : Z) : bool := Z.leb 0 level && Z.ltb level (Z.of_nat QSIZE).
Definition queue_at (level : Z) : KM (option lnode) :=
  if level_ok level then mret (Some (NQueue (Z.to_nat level))) else fail OutOfBounds.
Definition ld_pin (level : Z) : KM (option lnode) :=
  s ← gets k_mlfq;
  match mq_pin s !! Z.to_nat level with
  | Some v => if level_ok level then mret v else fail OutOfBounds
  | None => fail OutOfBounds
  end.
Definition st_pin (level : Z) (v : option lnode) : KM unit :=
  if level_ok level
  then modify (upd_mlfq (λ m, set_mq_pin (<[Z.to_nat level := v]> (mq_pin m)) m))
  else fail OutOfBounds.

(** [ptable.stride.minheap[i]]. *)
Definition ld_heap (i : Z) : KM (option nat) :=
  t ← gets k_stride;
  if Z.leb 0 i then
    match st_minheap t !! Z.to_nat i with Some v => mret v | None => fail OutOfBounds end
  else fail OutOfBounds.
Definition st_heap (i : Z) (v : option nat) : KM unit :=
  t ← gets k_stride;
  if Z.leb 0 i && Z.ltb i (Z.of_nat (length (st_minheap t)))
  then modify (upd_stride (λ t, set_st_minheap (<[Z.to_nat i := v]> (st_minheap t)) t))
  else fail OutOfBounds.

(** *** Reading back *)

Lemma pr_upd_eq p f s : pr (upd_proc p f s) p = f (pr s p).
Proof. unfold pr, upd_proc; simpl. by rewrite lookup_insert_eq. Qed.

Lemma pr_upd_ne p q f s : p ≠ q → pr (upd_proc p f s) q = pr s q.
Proof. intros. unfold pr, upd_proc; simpl. by rewrite lookup_insert_ne. Qed.

Lemma pr_upd p q f s : pr (upd_proc p f s) q = if decide (p = q) then f (pr s p) else pr s q.
Proof. case_decide as E0; [subst; apply pr_upd_eq|by apply pr_upd_ne]. Qed.

Lemma wp_rd {A} p (f : proc → A) (Q : A → kstate E → Prop) s : Q (f (pr s p)) s → wp (rd p f) Q s.
Proof. done. Qed.

Lemma wp_wr p f (Q : unit → kstate E → Prop) s : Q tt (upd_proc p f s) → wp (wr p f) Q s.
Proof. done. Qed.

Lemma wp_on_links {A} (m : M _ A) (Q : A → kstate E → Prop) s :
  wp m (λ a h, Q a (set_links h s)) (links s) → wp (on_links m) Q s.
Proof. apply wp_zoom. Qed.

End access.

(** One structural step of a [wp] goal on the kernel state. *)
Ltac kstep :=
  lazymatch goal with
  | |- wp (rd _ _) _ _ => apply wp_rd
  | |- wp (wr _ _) _ _ => apply wp_wr
  | _ => wstep
  end; cbv beta.

(** Step through a call whose result an equation gives. *)
Tactic Notation "krun" uconstr(H) :=
  repeat lazymatch goal with |- wp (_ ≫= _) _ _ => apply wp_bind end;
  eapply wp_eq; [eapply H; eauto; fail|]; cbv beta.

Close Scope Z_scope.
