(* ===== verification/ThreadCore.v ===== *)
(** * Threads of a process: iteration and queries ([src/xv6-public/thread.c])

    The threads of a process form a ring through their [thgroup] list heads.
    [threads_apply0]/[threads_apply1] walk the ring from the thread after
    their argument round to the argument itself and stop at the first
    callback that answers non-null; every query of [thread.c] is such a walk.
    [main_thread] follows [thmain] to its fixed point. *)

From S2P Require Import Prelude.
From S2P Require Import ListH.
From S2P Require Import Spinlock.
From S2P Require Import Kstate.

Open Scope Z_scope.

Section threads.
  Context {E : Type}.
  Abbreviation KM := (M (kstate E)).

(** A ring of threads has at most [NPROC] members. *)
Definition walk_fuel : nat := S NPROC.

(** The do-while loop of [threads_apply0]; a callback returns non-null to stop. *)
Definition threads_apply0 (p : nat) (routine : nat → KM (option nat)) : KM (option nat) :=
  start ← on_links (ld_next (Some (NProc Fthgroup p)));
  loop walk_fuel (λ itr,
    th ← list_entry Fthgroup itr;
    itr ← on_links (ld_next itr);
    r ← routine th;
    match r with
    | Some _ => mret (inr (Some th))
    | None => if decide (itr = start) then mret (inr None) else mret (inl itr)
    end) start.

Definition threads_apply1 {A} (p : nat) (routine : nat → A → KM (option nat)) (arg : A) :
    KM (option nat) :=
  start ← on_links (ld_next (Some (NProc Fthgroup p)));
  loop walk_fuel (λ itr,
    th ← list_entry Fthgroup itr;
    itr ← on_links (ld_next itr);
    r ← routine th arg;
    match r with
    | Some _ => mret (inr (Some th))
    | None => if decide (itr = start) then mret (inr None) else mret (inl itr)
    end) start.

(** [main_thread] follows [thmain] until it finds a thread that is its own. *)
Definition main_thread (th : nat) : KM nat :=
  loop walk_fuel (λ th,
    m ← rd th p_thmain;
    if decide (m = Some th) then mret (inr th)
    else m ← deref m; mret (inl m)) th.

(** ** The callbacks *)

Definition __routine_get_thread (th : nat) (tid : Z) : KM (option nat) :=
  t ← rd th p_tid;
  mret (if Z.eqb t tid then Some th else None).

Definition __routine_handle_orphan_thread (th : nat) (thmain : nat) : KM (option nat) :=
  m ← rd th p_thmain;
  (if decide (m = Some thmain)
   then m' ← main_thread thmain; wr th (set_p_thmain (Some m'))
   else mret tt);;
  mret None.

Definition __routine_is_ready (th : nat) : KM (option nat) :=
  st ← rd th p_state;
  mret (if decide (st = RUNNABLE) then Some th else None).

Definition __routine_is_sleeping (th : nat) : KM (option nat) :=
  st ← rd th p_state;
  mret (if decide (st = SLEEPING) then Some th else None).

Definition __routine_is_ready_or_running (th : nat) : KM (option nat) :=
  st ← rd th p_state;
  mret (if decide (st = RUNNABLE ∨ st = RUNNING) then Some th else None).

Definition __routine_kill_thread (th : nat) : KM (option nat) :=
  wr th (set_p_killed 1);;
  mret None.

Definition __routine_usurp_proc (th : nat) (main : nat) : KM (option nat) :=
  wr th (set_p_thmain (Some main));;
  mret None.

(** ** The queries *)

Definition get_thread (p : nat) (thread : Z) : KM (option nat) :=
  threads_apply1 p __routine_get_thread thread.

Definition ready_thread (th : nat) : KM (option nat) := threads_apply0 th __routine_is_ready.

Definition sleeping_thread (th : nat) : KM (option nat) :=
  threads_apply0 th __routine_is_sleeping.

Definition ready_or_running_thread (th : nat) : KM (option nat) :=
  threads_apply0 th __routine_is_ready_or_running.

Definition thread_size (p : nat) : KM Z :=
  let start := Some (NProc Fthgroup p) in
  loop walk_fuel (λ '(itr, size),
    itr ← on_links (ld_next itr);
    if decide (itr = start) then mret (inr (size + 1)) else mret (inl (itr, size + 1)))
    (start, 0).

Definition terminate_proc (p : nat) : KM unit :=
  threads_apply0 p __routine_kill_thread;;
  mret tt.

(** ** The ring of a process *)

(** [thring s p ths]: the ring through [p] visits [ths] and comes back. *)
Definition thring (s : kstate E) (p : nat) (ths : list nat) : Prop :=
  dlist (links s) (NProc Fthgroup p) (NProc Fthgroup <$> ths).

(** A routine that leaves the [thgroup] links alone. *)
Definition thgroup_stable {A} (m : KM A) : Prop :=
  ∀ s a s', m s = Ok (a, s') →
    ∀ q, lh (links s') (NProc Fthgroup q) = lh (links s) (NProc Fthgroup q).

(** Reference: apply a callback along a list until one answers. *)
Fixpoint first_of (l : list nat) (routine : nat → KM (option nat)) : KM (option nat) :=
  match l with
  | [] => mret None
  | x :: l' => r ← routine x; match r with Some _ => mret (Some x) | None => first_of l' routine end
  end.

Lemma thring_rotate s p ths1 q ths2 :
  thring s p (ths1 ++ q :: ths2) → thring s q (ths2 ++ p :: ths1).
Proof. unfold thring. rewrite !fmap_app, !fmap_cons. apply dlist_rotate. Qed.

Lemma thring_NoDup s p ths : thring s p ths → NoDup (p :: ths).
Proof. intros [Hnd _]. by apply (NoDup_fmap_1 (NProc Fthgroup) (p :: ths)). Qed.

Lemma thring_links s s' p ths :
  (∀ q, lh (links s') (NProc Fthgroup q) = lh (links s) (NProc Fthgroup q)) →
  thring s p ths → thring s' p ths.
Proof.
  intros Hl [Hnd Hli]. split; [done|]. eapply linked_ext; [| |exact Hli].
  all: intros x Hx; assert (∃ q, x = NProc Fthgroup q) as [q ->];
    [|unfold nxt, prv; by rewrite Hl].
  - apply elem_of_removelast in Hx. set_solver.
  - apply elem_of_tail in Hx. set_solver.
Qed.

(** The forward pointers of a ring, by position in the visiting order. *)
Lemma thring_next s p ths i q :
  thring s p ths → (ths ++ [p]) !! i = Some q →
  nxt (links s) (NProc Fthgroup q)
  = Some (NProc Fthgroup (default (default p (head ths)) ((ths ++ [p]) !! S i))).
Proof.
  intros Hr Hq. destruct (decide (i = length ths)) as [->|Hne].
  - rewrite list_lookup_middle in Hq by done. injection Hq as <-.
    rewrite (lookup_ge_None_2 (ths ++ [p])) by (rewrite length_app; simpl; lia). simpl.
    destruct ths as [|x ths]; simpl in *.
    + unfold thring in Hr. simpl in Hr. by apply dlist_nil in Hr as [? _].
    + by apply dlist_next_first in Hr.
  - pose proof (lookup_lt_Some _ _ _ Hq) as Hlt. rewrite length_app in Hlt. simpl in Hlt.
    rewrite lookup_app_l in Hq by lia.
    apply list_elem_of_split_length in Hq as (l1 & l2 & -> & ->).
    unfold thring in Hr. rewrite fmap_app, fmap_cons in Hr.
    rewrite <-app_assoc. simpl.
    destruct l2 as [|y l2]; simpl in Hr.
    + rewrite lookup_app_r by lia. replace (S (length l1) - length l1)%nat with 1%nat by lia.
      simpl. by apply dlist_next_end in Hr.
    + rewrite lookup_app_r by lia. replace (S (length l1) - length l1)%nat with 1%nat by lia.
      simpl. by apply dlist_next_in in Hr as [? _].
Qed.

(** ** The walk is a search along the ring *)

Lemma threads_apply1_apply0 {A} p (routine : nat → A → KM (option nat)) arg :
  threads_apply1 p routine arg = threads_apply0 p (λ th, routine th arg).
Proof. reflexivity. Qed.

Lemma list_entry_run f p (s : kstate E) : list_entry f (Some (NProc f p)) s = Ok (p, s).
Proof. simpl. by rewrite decide_True. Qed.

Lemma ld_next_run (s : kstate E) n : on_links (ld_next (Some n)) s = Ok (nxt (links s) n, s).
Proof. destruct s. done. Qed.

Lemma thring_NoDup_visit s p ths : thring s p ths → NoDup (ths ++ [p]).
Proof.
  intros Hr%thring_NoDup. assert (ths ++ [p] ≡ₚ p :: ths) as -> by apply Permutation_app_comm.
  done.
Qed.

Lemma ring_not_first s p ths dn x y rest :
  thring s p ths → ths ++ [p] = dn ++ x :: y :: rest → y ≠ default p (head ths).
Proof.
  intros Hr%thring_NoDup_visit Hs Hy.
  assert ((ths ++ [p]) !! 0%nat = Some y) as H0 by (rewrite Hy; by destruct ths).
  assert ((ths ++ [p]) !! S (length dn) = Some y) as H1.
  { rewrite Hs, lookup_app_r by lia. by replace (S (length dn) - length dn)%nat with 1%nat by lia. }
  pose proof (NoDup_lookup _ _ _ _ Hr H0 H1). done.
Qed.

Lemma threads_walk p ths routine :
  (∀ q, thgroup_stable (routine q)) →
  let start := Some (NProc Fthgroup (default p (head ths))) in
  ∀ rest dn x s fuel,
  thring s p ths → ths ++ [p] = dn ++ x :: rest → (S (length rest) ≤ fuel)%nat →
  loop fuel (λ itr,
    th ← list_entry Fthgroup itr;
    itr ← on_links (ld_next itr);
    r ← routine th;
    match r with
    | Some _ => mret (inr (Some th))
    | None => if decide (itr = start) then mret (inr None) else mret (inl itr)
    end) (Some (NProc Fthgroup x)) s
  = first_of (x :: rest) routine s.
Proof.
  intros Hst start. induction rest as [|y rest IH]; intros dn x s fuel Hr Hs Hf.
  all: destruct fuel as [|fuel]; [simpl in Hf; lia|].
  all: assert ((ths ++ [p]) !! length dn = Some x) as Hx
    by (rewrite Hs; by apply list_lookup_middle).
  all: pose proof (thring_next _ _ _ _ _ Hr Hx) as Hn.
  - replace ((ths ++ [p]) !! S (length dn)) with (@None nat) in Hn
      by (rewrite Hs, lookup_ge_None_2; [done|rewrite length_app; simpl; lia]).
    cbn [first_of]. destruct (routine x s) as [[[w|] s']|e] eqn:Er.
    all: rewrite ?(bind_ok _ _ _ _ _ Er), ?(bind_err _ _ _ _ Er).
    1, 2: apply loop_inr. 3: apply loop_err.
    all: unfold mbind, M_bind; rewrite list_entry_run, ld_next_run, Hn, Er; try done.
    by rewrite decide_True.
  - assert ((ths ++ [p]) !! S (length dn) = Some y) as Hy.
    { rewrite Hs, lookup_app_r by lia. by replace (S (length dn) - length dn)%nat with 1%nat by lia. }
    rewrite Hy in Hn. simpl default in Hn. cbn [first_of].
    destruct (routine x s) as [[[w|] s']|e] eqn:Er.
    all: rewrite ?(bind_ok _ _ _ _ _ Er), ?(bind_err _ _ _ _ Er).
    + apply loop_inr. unfold mbind, M_bind. by rewrite list_entry_run, ld_next_run, Hn, Er.
    + erewrite loop_inl.
      * eapply (IH (dn ++ [x])); [|by rewrite <-app_assoc|simpl in Hf; lia].
        eapply thring_links; [|done]. by eapply Hst.
      * unfold mbind, M_bind. rewrite list_entry_run, ld_next_run, Hn, Er.
        rewrite decide_False; [done|].
        unfold start. intros [= Hy0]. by eapply ring_not_first in Hy0.
    + apply loop_err. unfold mbind, M_bind. by rewrite list_entry_run, ld_next_run, Hn, Er.
Qed.

(** [threads_apply0] is the search along the ring, starting after [p]. *)
Theorem threads_apply0_spec s p ths routine :
  (∀ q, thgroup_stable (routine q)) → thring s p ths → (length ths < NPROC)%nat →
  threads_apply0 p routine s = first_of (ths ++ [p]) routine s.
Proof.
  intros Hst Hr Hlen. unfold threads_apply0, mbind at 1, M_bind at 1. rewrite ld_next_run.
  assert (nxt (links s) (NProc Fthgroup p) = Some (NProc Fthgroup (default p (head ths)))) as ->.
  { rewrite (thring_next _ _ _ (length ths) p Hr) by (by rewrite list_lookup_middle).
    rewrite lookup_ge_None_2; [done|rewrite length_app; simpl; lia]. }
  destruct (ths ++ [p]) as [|x rest] eqn:Hv; [by destruct ths|].
  assert (default p (head ths) = x) as <- by (destruct ths; by simplify_eq/=).
  pose proof (f_equal length Hv) as Hlv. rewrite length_app in Hlv. simpl in Hlv.
  eapply (threads_walk p ths routine Hst rest []); [done|done|unfold walk_fuel; lia].
Qed.

(** A walk whose callback never answers visits the whole ring, as long as
    each call keeps the ring. *)
Lemma threads_apply0_all s p ths routine (I : list nat → kstate E → Prop) :
  thring s p ths → (length ths < NPROC)%nat → I [] s →
  (∀ dn x rest s', ths ++ [p] = dn ++ x :: rest → thring s' p ths → I dn s' →
     wp (routine x) (λ r s'', r = None ∧ thring s'' p ths ∧ I (dn ++ [x]) s'') s') →
  wp (threads_apply0 p routine) (λ r s', r = None ∧ thring s' p ths ∧ I (ths ++ [p]) s') s.
Proof.
  intros Hr Hlen HI Hstep. unfold threads_apply0. apply wp_bind.
  eapply wp_eq; [apply ld_next_run|].
  assert (nxt (links s) (NProc Fthgroup p) = Some (NProc Fthgroup (default p (head ths)))) as ->.
  { rewrite (thring_next _ _ _ (length ths) p Hr) by (by rewrite list_lookup_middle).
    rewrite lookup_ge_None_2; [done|rewrite length_app; simpl; lia]. }
  set (start := Some (NProc Fthgroup (default p (head ths)))).
  apply (wp_loop (λ n itr s', ∃ dn x rest, itr = Some (NProc Fthgroup x) ∧
    ths ++ [p] = dn ++ x :: rest ∧ n = length rest ∧ thring s' p ths ∧ I dn s')) with (n := length ths).
  - intros n itr s' (dn & x & rest & -> & Hs & -> & Hr' & HI').
    assert ((ths ++ [p]) !! length dn = Some x) as Hx by (rewrite Hs; by apply list_lookup_middle).
    pose proof (thring_next _ _ _ _ _ Hr' Hx) as Hn.
    apply wp_bind. eapply wp_eq; [apply list_entry_run|]. apply wp_bind.
    eapply wp_eq; [apply ld_next_run|]. apply wp_bind. rewrite Hn.
    eapply wp_mono; [by eapply Hstep|]. intros r s'' (-> & Hr'' & HI'').
    destruct rest as [|y rest].
    + replace ((ths ++ [p]) !! S (length dn)) with (@None nat)
        by (rewrite Hs, lookup_ge_None_2; [done|rewrite length_app; simpl; lia]).
      rewrite decide_True by done. apply wp_ret. by rewrite Hs.
    + assert ((ths ++ [p]) !! S (length dn) = Some y) as ->.
      { rewrite Hs, lookup_app_r by lia. by replace (S (length dn) - length dn)%nat with 1%nat by lia. }
      rewrite decide_False; cycle 1.
      { unfold start. intros [= Hy0]. by eapply ring_not_first in Hy0. }
      apply wp_ret. exists (length rest). split; [simpl; lia|].
      exists (dn ++ [x]), y, rest. rewrite <-app_assoc. done.
  - unfold walk_fuel. lia.
  - destruct (ths ++ [p]) as [|x rest] eqn:Hv; [by destruct ths|].
    assert (default p (head ths) = x) as <- by (destruct ths; by simplify_eq/=).
    pose proof (f_equal length Hv) as Hlv. rewrite length_app in Hlv. simpl in Hlv.
    exists [], (default p (head ths)), rest. split_and!; [done..|lia|done|done].
Qed.

(** Callbacks that only look at the thread they are given. *)
Definition pure_routine (f : proc → bool) (routine : nat → KM (option nat)) : Prop :=
  ∀ q s, routine q s = Ok (if f (pr s q) then Some q else None, s).

Lemma pure_routine_stable f routine q : pure_routine f routine → thgroup_stable (routine q).
Proof. intros Hp s a s' Hr. rewrite Hp in Hr. by simplify_eq. Qed.

Lemma first_of_pure f routine l s :
  pure_routine f routine → first_of l routine s = Ok (find (λ q, f (pr s q)) l, s).
Proof.
  intros Hp. induction l as [|x l IH]; simpl; [done|].
  unfold mbind, M_bind. rewrite Hp. by destruct (f (pr s x)).
Qed.

Lemma threads_find s p ths f routine :
  pure_routine f routine → thring s p ths → (length ths < NPROC)%nat →
  threads_apply0 p routine s = Ok (find (λ q, f (pr s q)) (ths ++ [p]), s).
Proof.
  intros Hp Hr Hl. rewrite (threads_apply0_spec s p ths); [|by eauto using pure_routine_stable|done..].
  by apply first_of_pure.
Qed.

Definition is_ready (x : proc) : bool := bool_decide (p_state x = RUNNABLE).
Definition is_sleeping (x : proc) : bool := bool_decide (p_state x = SLEEPING).
Definition in_mlfq (x : proc) : bool := bool_decide (p_state x = RUNNABLE ∨ p_state x = RUNNING).

Lemma ready_thread_run s p ths :
  thring s p ths → (length ths < NPROC)%nat →
  ready_thread p s = Ok (find (λ q, is_ready (pr s q)) (ths ++ [p]), s).
Proof.
  apply threads_find. intros q t. unfold is_ready, __routine_is_ready. simpl.
  unfold mret, M_ret, mbind, M_bind; simpl. case_decide as Hd.
  - by rewrite bool_decide_eq_true_2.
  - by rewrite bool_decide_eq_false_2.
Qed.

Lemma sleeping_thread_run s p ths :
  thring s p ths → (length ths < NPROC)%nat →
  sleeping_thread p s = Ok (find (λ q, is_sleeping (pr s q)) (ths ++ [p]), s).
Proof.
  apply threads_find. intros q t. unfold is_sleeping, __routine_is_sleeping.
  unfold mret, M_ret, mbind, M_bind; simpl. case_decide as Hd.
  - by rewrite bool_decide_eq_true_2.
  - by rewrite bool_decide_eq_false_2.
Qed.

Lemma ready_or_running_thread_run s p ths :
  thring s p ths → (length ths < NPROC)%nat →
  ready_or_running_thread p s = Ok (find (λ q, in_mlfq (pr s q)) (ths ++ [p]), s).
Proof.
  apply threads_find. intros q t. unfold in_mlfq, __routine_is_ready_or_running.
  unfold mret, M_ret, mbind, M_bind; simpl. case_decide as Hd.
  - by rewrite bool_decide_eq_true_2.
  - by rewrite bool_decide_eq_false_2.
Qed.

Lemma get_thread_run s p ths tid :
  thring s p ths → (length ths < NPROC)%nat →
  get_thread p tid s = Ok (find (λ q, Z.eqb (p_tid (pr s q)) tid) (ths ++ [p]), s).
Proof.
  intros Hr Hl. unfold get_thread. rewrite threads_apply1_apply0.
  eapply (threads_find s p ths (λ x, Z.eqb (p_tid x) tid)); [|done..].
  intros q t. done.
Qed.

(** ** Updating every thread *)

Definition upd_all (qs : list nat) (f : proc → proc) (s : kstate E) : kstate E :=
  foldl (λ s q, upd_proc q f s) s qs.

Lemma pr_upd_all qs f s q :
  NoDup qs → pr (upd_all qs f s) q = if decide (q ∈ qs) then f (pr s q) else pr s q.
Proof.
  revert s. induction qs as [|x qs IH]; intros s Hnd; unfold upd_all; cbn [foldl].
  - by rewrite decide_False by set_solver.
  - apply NoDup_cons in Hnd as [Hx Hnd]. unfold upd_all in IH. rewrite IH by done.
    rewrite pr_upd. destruct (decide (x = q)) as [->|Hne].
    + rewrite decide_False by done. rewrite decide_True by set_solver. done.
    + destruct (decide (q ∈ qs)); [rewrite decide_True by set_solver|rewrite decide_False by set_solver]; done.
Qed.

(** Everything but the process entries is as it was. *)
Definition same_but_procs (s s' : kstate E) : Prop := set_procs (procs s) s' = s.

Lemma same_but_procs_links s s' : same_but_procs s s' → links s' = links s.
Proof. intros H. by rewrite <-H. Qed.

Lemma upd_all_same qs f s : same_but_procs s (upd_all qs f s).
Proof.
  unfold same_but_procs. revert s. induction qs as [|x qs IH]; intros s; simpl; [by destruct s|].
  unfold upd_all in IH. specialize (IH (upd_proc x f s)).
  apply (f_equal (set_procs (procs s))) in IH. etrans; [exact IH|]. by destruct s.
Qed.

Lemma first_of_wr f (routine : nat → KM (option nat)) l s :
  (∀ q s, routine q s = Ok (None, upd_proc q f s)) →
  first_of l routine s = Ok (None, upd_all l f s).
Proof.
  intros Hr. revert s. induction l as [|x l IH]; intros s; [done|].
  cbn [first_of]. rewrite (bind_ok _ _ _ _ _ (Hr _ _)). apply IH.
Qed.

Lemma wr_stable q f : thgroup_stable (wr q f;; mret (@None nat) : KM (option nat)).
Proof. intros s a s' [= <- <-]. done. Qed.

(** [terminate_proc] marks exactly the threads of the process as killed. *)
Lemma terminate_proc_run s p ths :
  thring s p ths → (length ths < NPROC)%nat →
  terminate_proc p s = Ok (tt, upd_all (ths ++ [p]) (set_p_killed 1) s).
Proof.
  intros Hr Hl. unfold terminate_proc.
  assert (threads_apply0 p __routine_kill_thread s
          = Ok (None, upd_all (ths ++ [p]) (set_p_killed 1) s)) as Ht.
  { rewrite (threads_apply0_spec s p ths); [|intros q; apply wr_stable|done..].
    by apply first_of_wr. }
  by rewrite (bind_ok _ _ _ _ _ Ht).
Qed.

(** [thread_size] counts the ring. *)
Lemma thread_size_run s p ths :
  thring s p ths → (length ths < NPROC)%nat →
  thread_size p s = Ok (Z.of_nat (S (length ths)), s).
Proof.
  intros Hr Hl. unfold thread_size.
  set (start := Some (NProc Fthgroup p)).
  assert (∀ rest dn q n fuel, p :: ths = dn ++ q :: rest → (S (length rest) ≤ fuel)%nat →
    loop fuel (λ '(itr, size),
      itr ← on_links (ld_next itr);
      if decide (itr = start) then mret (inr (size + 1)) else mret (inl (itr, size + 1)))
      (Some (NProc Fthgroup q), n) s = Ok (n + Z.of_nat (S (length rest)), s)) as Hgen.
  { induction rest as [|y rest IH]; intros dn q n fuel Hs Hf.
    all: destruct fuel as [|fuel]; [simpl in Hf; lia|].
    - assert (nxt (links s) (NProc Fthgroup q) = start) as Hn.
      { destruct dn as [|d dn]; simplify_eq/=; [by apply dlist_nil in Hr as [? _]|].
        unfold thring in Hr. rewrite fmap_app in Hr. by apply dlist_next_end in Hr. }
      apply loop_inr. unfold mbind, M_bind. rewrite ld_next_run, Hn, decide_True by done.
      do 3 f_equal; simpl; lia.
    - assert (nxt (links s) (NProc Fthgroup q) = Some (NProc Fthgroup y)) as Hn.
      { destruct dn as [|d dn]; simplify_eq/=; [by apply dlist_next_first in Hr|].
        unfold thring in Hr. rewrite fmap_app in Hr. by apply dlist_next_in in Hr as [? _]. }
      rewrite (loop_inl _ _ _ _ (Some (NProc Fthgroup y), n + 1) s).
      + rewrite (IH (dn ++ [q])); [do 2 f_equal; simpl; lia|by rewrite <-app_assoc|simpl in Hf; lia].
      + unfold mbind, M_bind. rewrite ld_next_run, Hn. rewrite decide_False; [done|].
        intros [= ->]. apply thring_NoDup in Hr. rewrite Hs in Hr.
        destruct dn as [|d dn]; simplify_eq/=; [apply NoDup_cons in Hr; set_solver|].
        apply NoDup_cons in Hr as [Hr _]. set_solver. }
  apply (Hgen ths [] p 0 walk_fuel); [done|unfold walk_fuel; lia].
Qed.

(** ** [main_thread] terminates

    [thmain_chain s n th m]: following [thmain] [n] times from [th] reaches
    [m], which is its own main thread. *)
Inductive thmain_chain (s : kstate E) : nat → nat → nat → Prop :=
| chain_main m : p_thmain (pr s m) = Some m → thmain_chain s 0 m m
| chain_step n th th' m :
    p_thmain (pr s th) = Some th' → th ≠ th' → thmain_chain s n th' m →
    thmain_chain s (S n) th m.

Definition main_of (s : kstate E) (th m : nat) : Prop := ∃ n, (n ≤ NPROC)%nat ∧ thmain_chain s n th m.

Lemma main_thread_chain s n th m fuel :
  thmain_chain s n th m → (n < fuel)%nat →
  loop fuel (λ th,
    m ← rd th p_thmain;
    if decide (m = Some th) then mret (inr th) else m ← deref m; mret (inl m)) th s
  = Ok (m, s).
Proof.
  intros Hc. revert fuel. induction Hc as [m Hm|n th th' m Hm Hne Hc IH]; intros [|fuel] Hf; [lia| |lia|].
  - apply loop_inr. unfold mbind, M_bind. simpl. rewrite Hm. by rewrite decide_True.
  - erewrite loop_inl; [apply IH; lia|].
    unfold mbind, M_bind. simpl. rewrite Hm, decide_False by congruence. done.
Qed.

Lemma main_thread_run s th m : main_of s th m → main_thread th s = Ok (m, s).
Proof. intros (n & Hn & Hc). eapply main_thread_chain; [done|]. unfold walk_fuel. lia. Qed.

Lemma thmain_chain_det s n th m n' m' :
  thmain_chain s n th m → thmain_chain s n' th m' → n = n' ∧ m = m'.
Proof.
  intros Hc. revert n'. induction Hc as [m Hm|n th th' m Hm Hne Hc IH]; intros n' Hc'.
  all: inversion Hc' as [? Hm'|? ? th2 ? Hm' Hne' Hc2]; subst; [done || congruence|..].
  - congruence.
  - assert (th2 = th') as -> by congruence. destruct (IH _ Hc2); subst; done.
Qed.

Lemma main_of_det s th m m' : main_of s th m → main_of s th m' → m = m'.
Proof. intros (n & _ & Hc) (n' & _ & Hc'). by edestruct (thmain_chain_det _ _ _ _ _ _ Hc Hc'). Qed.

Lemma main_of_self s th m : main_of s th m → p_thmain (pr s m) = Some m.
Proof. intros (n & _ & Hc). by induction Hc. Qed.

(** The threads met on the way, each with its distance to the main thread. *)
Lemma thmain_chain_path s n th m :
  thmain_chain s n th m → ∃ path, length path = S n ∧ NoDup path ∧
    (∀ x, x ∈ path → ∃ k, (k ≤ n)%nat ∧ thmain_chain s k x m).
Proof.
  induction 1 as [m Hm|n th th' m Hm Hne Hc (path & Hl & Hnd & Hp)].
  - exists [m]. split_and!; [done|apply NoDup_singleton|].
    intros x ->%list_elem_of_singleton. exists 0%nat. split; [lia|by constructor].
  - exists (th :: path). split_and!; [simpl; lia| |].
    + apply NoDup_cons. split; [|done]. intros (k & Hk & Hck)%Hp.
      assert (thmain_chain s (S n) th m) as Hc' by (by econstructor).
      destruct (thmain_chain_det _ _ _ _ _ _ Hck Hc') as [-> _]. lia.
    + intros x [->|Hx]%elem_of_cons.
      * exists (S n). split; [lia|by econstructor].
      * destruct (Hp _ Hx) as (k & ? & ?). exists k. split; [lia|done].
Qed.

(** When following [thmain] from [th] stays inside the process table and
    reaches a thread that is its own main thread, the loop of [main_thread]
    ends there: the chain has no repetition, so it is shorter than the table. *)
Theorem main_thread_terminates s n th m :
  thmain_chain s n th m →
  (∀ k x, thmain_chain s k x m → (x < NPROC)%nat) →
  main_thread th s = Ok (m, s).
Proof.
  intros Hc Hin. apply main_thread_run. exists n. split; [|done].
  destruct (thmain_chain_path _ _ _ _ Hc) as (path & Hl & Hnd & Hp).
  assert (path ⊆ seq 0 NPROC) as Hsub.
  { intros x Hx. destruct (Hp _ Hx) as (k & _ & Hk). apply elem_of_seq. apply Hin in Hk. lia. }
  pose proof (NoDup_submseteq _ _ Hnd Hsub) as Hle%submseteq_length.
  rewrite length_seq in Hle. lia.
Qed.

End threads.

Lemma main_thread_terminates_witness :
  let s : kstate unit := mkK (list_to_map [(0%nat, set_p_thmain (Some 0%nat) proc0);
      (1%nat, set_p_thmain (Some 0%nat) proc0)]) ∅ (mkMlfq 100 0 0 []) (mkStride 0 []) 254 2 None
      (mkCpus [] 0 true ∅) tt in
  main_thread 1 s = Ok (0%nat, s).
Proof.
  intros s. apply (main_thread_terminates s 1 1 0).
  - econstructor; [reflexivity|done|]. by constructor.
  - intros k x Hc. destruct x as [|[|x]]; [unfold NPROC; lia..|].
    inversion Hc as [? Hm|? ? th' ? Hm ? ?]; subst; unfold pr in Hm; simpl in Hm;
      rewrite !lookup_insert_ne, lookup_empty in Hm by done; done.
Defined.

Close Scope Z_scope.
