(* ===== verification/StrideHeap.v ===== *)
(** * The stride min-heap ([getminpass], [pushheap], [popheap] of
    [src/xv6-public/proc.c])

    [ptable.stride.minheap] is a binary heap in an array used from index 1;
    the key of an entry is the [pass] of its main thread.  The routines are
    translated with their "hole" technique and are shown to implement a
    priority queue: pushing adds the thread, popping removes one whose pass
    is minimal, and both keep the array ordered. *)

From S2P Require Import Prelude.
From S2P Require Import ListH.
From S2P Require Import Kstate.
From S2P Require Import ThreadCore.

Open Scope Z_scope.

Section heap.
  Context {E : Type}.
  Abbreviation KM := (M (kstate E)).

(** [main_thread(q)->pass]. *)
Definition main_pass (q : nat) : KM Z :=
  m ← main_thread q;
  rd m p_pass.

(** [main_thread(minheap[i])->pass]. *)
Definition heap_pass (i : Z) : KM Z :=
  q ← ld_heap i;
  q ← deref q;
  main_pass q.

Definition getminpass : KM Z :=
  n ← gets (λ s, st_size (k_stride s));
  if Z.ltb 0 n then heap_pass 1 else mret MAXINT.

Definition set_heap_size (n : Z) : KM unit := modify (upd_stride (set_st_size n)).

(** The array has [NPROC] slots and each round at least halves or doubles the
    index, so [NPROC] rounds are plenty. *)
Definition pushheap (p : nat) : KM unit :=
  n ← gets (λ s, st_size (k_stride s));
  set_heap_size (s32 (n + 1));;
  i ← gets (λ s, st_size (k_stride s));
  thmain ← main_thread p;
  i ← loop walk_fuel (λ i,
        if Z.eqb i 1 then mret (inr i)
        else
          mp ← rd thmain p_pass;
          pp ← heap_pass (Z.quot i 2);
          if Z.ltb mp pp then
            v ← ld_heap (Z.quot i 2);
            st_heap i v;;
            mret (inl (Z.quot i 2))
          else mret (inr i)) i;
  st_heap i (Some p).

Definition popheap : KM (option nat) :=
  min ← ld_heap 1;
  n ← gets (λ s, st_size (k_stride s));
  last ← ld_heap n;
  set_heap_size (s32 (n - 1));;
  parent ← loop walk_fuel (λ '(parent, child),
    size ← gets (λ s, st_size (k_stride s));
    if Z.leb child size then
      child ← (if Z.ltb child size then
                 a ← heap_pass child;
                 b ← heap_pass (child + 1);
                 mret (if Z.ltb b a then child + 1 else child)
               else mret child);
      l ← (l ← deref last; main_pass l);
      c ← heap_pass child;
      if Z.leb l c then mret (inr parent)
      else
        v ← ld_heap child;
        st_heap parent v;;
        mret (inl (child, child * 2))
    else mret (inr parent)) (1, 2);
  st_heap parent last;;
  mret min.

(** ** The abstract heap: a list read from index 1 *)

Definition at1 (l : list nat) (j : nat) : nat := nth (j - 1) l 0%nat.
Definition ins1 (j v : nat) (l : list nat) : list nat := <[(j - 1)%nat := v]> l.

Lemma at1_ins1 l j k v :
  (1 ≤ j ≤ length l)%nat → (1 ≤ k)%nat → at1 (ins1 j v l) k = if decide (j = k) then v else at1 l k.
Proof.
  intros Hj Hk. unfold at1, ins1. rewrite !nth_lookup. case_decide as Hd.
  - subst. rewrite list_lookup_insert_eq by lia. done.
  - rewrite list_lookup_insert_ne by lia. done.
Qed.

Lemma length_ins1 j v l : length (ins1 j v l) = length l.
Proof. apply length_insert. Qed.

Lemma at1_lookup l j : (1 ≤ j ≤ length l)%nat → l !! (j - 1)%nat = Some (at1 l j).
Proof.
  intros Hj. unfold at1. rewrite nth_lookup.
  destruct (lookup_lt_is_Some_2 l (j - 1)) as [x ->]; [lia|done].
Qed.

Lemma at1_lookup' l j x : l !! j = Some x → at1 l (S j) = x.
Proof. intros Hx. unfold at1. rewrite nth_lookup. replace (S j - 1)%nat with j by lia. by rewrite Hx. Qed.

Lemma ins1_swap_perm l i j :
  (1 ≤ i ≤ length l)%nat → (1 ≤ j ≤ length l)%nat →
  ins1 i (at1 l j) (ins1 j (at1 l i) l) ≡ₚ l.
Proof.
  intros Hi Hj. unfold ins1.
  apply Permutation_insert_swap; by apply at1_lookup.
Qed.

(** Heap order with respect to a key. *)
Section order.
  Variable ky : nat → Z.

Definition heap_ord (l : list nat) : Prop :=
  ∀ j, (2 ≤ j ≤ length l)%nat → ky (at1 l (j / 2)) ≤ ky (at1 l j).

(** Ordered except possibly between [i] and its parent. *)
Definition up_ok (l : list nat) (i : nat) : Prop :=
  (∀ j, (2 ≤ j ≤ length l)%nat → j ≠ i → ky (at1 l (j / 2)) ≤ ky (at1 l j)) ∧
  (∀ j, (2 ≤ i)%nat → (2 ≤ j ≤ length l)%nat → (j / 2)%nat = i →
        ky (at1 l (i / 2)) ≤ ky (at1 l j)).

(** Ordered except possibly between [i] and its children. *)
Definition down_ok (l : list nat) (i : nat) : Prop :=
  (∀ j, (2 ≤ j ≤ length l)%nat → (j / 2)%nat ≠ i → ky (at1 l (j / 2)) ≤ ky (at1 l j)) ∧
  (∀ j, (2 ≤ i)%nat → (2 ≤ j ≤ length l)%nat → (j / 2)%nat = i →
        ky (at1 l (i / 2)) ≤ ky (at1 l j)).

Lemma heap_ord_root l j : heap_ord l → (1 ≤ j ≤ length l)%nat → ky (at1 l 1) ≤ ky (at1 l j).
Proof.
  intros Ho. induction j as [j IH] using lt_wf_ind. intros Hj.
  destruct (decide (j = 1)%nat) as [->|]; [done|].
  etrans; [apply (IH (j / 2)%nat)|apply Ho; lia].
  - apply Nat.div_lt; lia.
  - split; [apply (Nat.div_le_mono 2 j 2); lia|]. pose proof (Nat.div_lt j 2); lia.
Qed.

Definition swap1 (i k : nat) (l : list nat) : list nat := ins1 i (at1 l k) (ins1 k (at1 l i) l).

Lemma at1_swap1 l i k j :
  (1 ≤ i ≤ length l)%nat → (1 ≤ k ≤ length l)%nat → (1 ≤ j)%nat →
  at1 (swap1 i k l) j = if decide (i = j) then at1 l k
                        else if decide (k = j) then at1 l i else at1 l j.
Proof.
  intros Hi Hk Hj. unfold swap1. rewrite at1_ins1; [|rewrite length_ins1; lia|lia].
  case_decide; [done|]. rewrite at1_ins1; [done|lia|lia].
Qed.

Lemma length_swap1 i k l : length (swap1 i k l) = length l.
Proof. unfold swap1. by rewrite !length_ins1. Qed.

Lemma up_ok_stop l i :
  up_ok l i → (i = 1%nat ∨ ky (at1 l (i / 2)) ≤ ky (at1 l i)) → heap_ord l.
Proof.
  intros [H1 _] Hi j Hj. destruct (decide (j = i)) as [->|]; [|by apply H1].
  destruct Hi; [lia|done].
Qed.

Lemma up_ok_step l i :
  up_ok l i → (2 ≤ i ≤ length l)%nat → ky (at1 l i) < ky (at1 l (i / 2)) →
  up_ok (swap1 i (i / 2) l) (i / 2).
Proof.
  intros [H1 H2] Hi Hlt.
  assert (1 ≤ i / 2 < i)%nat as Hp.
  { split; [apply (Nat.div_le_mono 2 i 2); lia|apply Nat.div_lt; lia]. }
  assert (∀ j, (2 ≤ j)%nat → 1 ≤ j / 2)%nat as Hhalf by (intros; apply (Nat.div_le_mono 2 j 2); lia).
  split.
  - intros j Hj Hne. rewrite length_swap1 in Hj. pose proof (Hhalf j ltac:(lia)).
    rewrite !at1_swap1 by lia.
    destruct (decide (i = j)) as [<-|Hij].
    + rewrite decide_False by lia. rewrite decide_True by done. lia.
    + rewrite (decide_False (P:=(i / 2)%nat = j)) by lia.
      destruct (decide (i = (j / 2)%nat)) as [->|].
      * apply H2; lia.
      * destruct (decide ((i / 2)%nat = (j / 2)%nat)) as [Hq|]; [|apply H1; lia].
        etrans; [apply Z.lt_le_incl, Hlt|]. rewrite Hq. apply H1; lia.
  - intros j H2i Hj Hji. rewrite length_swap1 in Hj. pose proof (Hhalf (i / 2)%nat ltac:(lia)).
    assert (i / 2 / 2 < i / 2)%nat by (apply Nat.div_lt; lia).
    rewrite !at1_swap1 by lia.
    rewrite (decide_False (P:=i = (i / 2 / 2)%nat)), (decide_False (P:=(i / 2)%nat = (i / 2 / 2)%nat)) by lia.
    assert (ky (at1 l (i / 2 / 2)) ≤ ky (at1 l (i / 2))) by (apply H1; lia).
    destruct (decide (i = j)) as [<-|]; [done|].
    rewrite decide_False by (pose proof (Nat.div_lt j 2); lia).
    etrans; [done|]. rewrite <-Hji. apply H1; lia.
Qed.

Lemma down_ok_stop l i :
  down_ok l i →
  (∀ j, (2 ≤ j ≤ length l)%nat → (j / 2)%nat = i → ky (at1 l i) ≤ ky (at1 l j)) → heap_ord l.
Proof.
  intros [H1 _] H2 j Hj. destruct (decide ((j / 2)%nat = i)) as [<-|]; [by apply H2|by apply H1].
Qed.

Lemma down_ok_step l i c :
  down_ok l i → (1 ≤ i)%nat → (2 ≤ c ≤ length l)%nat → (c / 2)%nat = i →
  (∀ j, (2 ≤ j ≤ length l)%nat → (j / 2)%nat = i → ky (at1 l c) ≤ ky (at1 l j)) →
  ky (at1 l c) < ky (at1 l i) →
  down_ok (swap1 i c l) c.
Proof.
  intros [H1 H2] Hi Hc Hci Hmin Hlt.
  assert (i < c)%nat by (rewrite <-Hci; apply Nat.div_lt; lia).
  assert (∀ j, (2 ≤ j)%nat → 1 ≤ j / 2 < j)%nat as Hhalf.
  { intros. split; [apply (Nat.div_le_mono 2 j 2); lia|apply Nat.div_lt; lia]. }
  split.
  - intros j Hj Hjc. rewrite length_swap1 in Hj. pose proof (Hhalf j ltac:(lia)).
    rewrite !at1_swap1 by lia.
    rewrite (decide_False (P:=c = (j / 2)%nat)) by lia.
    destruct (decide (i = (j / 2)%nat)) as [Hij|Hij].
    + rewrite (decide_False (P:=i = j)) by lia.
      destruct (decide (c = j)) as [<-|]; [lia|]. apply Hmin; lia.
    + destruct (decide (i = j)) as [<-|].
      * apply H2; lia.
      * rewrite (decide_False (P:=c = j)) by (intros ->; lia). apply H1; lia.
  - intros j _ Hj Hjc. rewrite length_swap1 in Hj. pose proof (Hhalf j ltac:(lia)).
    rewrite !at1_swap1 by lia. rewrite Hci.
    rewrite (decide_True (P:=i = i)) by done.
    rewrite (decide_False (P:=i = j)), (decide_False (P:=c = j)) by lia.
    rewrite <-Hjc. apply H1; lia.
Qed.

End order.

(** ** Representation in the kernel state *)

Definition minheap (s : kstate E) : list (option nat) := st_minheap (k_stride s).

(** The array slots [1..length l], except the hole [i], hold [l]. *)
Definition heap_hole (s : kstate E) (l : list nat) (i : nat) : Prop :=
  st_size (k_stride s) = Z.of_nat (length l) ∧ length (minheap s) = NPROC ∧
  (length l < NPROC)%nat ∧
  (∀ j, (1 ≤ j ≤ length l)%nat → j ≠ i → minheap s !! j = Some (Some (at1 l j))).

(** [heap_rep s l]: the heap holds the threads [l], in array order. *)
Definition heap_rep (s : kstate E) (l : list nat) : Prop := heap_hole s l 0.

(** [ky] gives the pass of the main thread of every member. *)
Definition keyed (s : kstate E) (ky : nat → Z) (l : list nat) : Prop :=
  ∀ q, q ∈ l → ∃ m, main_of s q m ∧ p_pass (pr s m) = ky q.

(** Only the stride structure differs. *)
Definition but_stride (s s' : kstate E) : Prop := s' = set_k_stride (k_stride s') s.

Lemma but_stride_refl (s : kstate E) : but_stride s s.
Proof. by destruct s. Qed.
Lemma but_stride_trans s1 s2 s3 : but_stride s1 s2 → but_stride s2 s3 → but_stride s1 s3.
Proof. unfold but_stride. intros -> H. rewrite H at 1. done. Qed.
Lemma but_stride_upd s f : but_stride s (upd_stride f s).
Proof. done. Qed.

Lemma thmain_chain_procs (s s' : kstate E) n th m :
  procs s' = procs s → thmain_chain s n th m → thmain_chain s' n th m.
Proof.
  intros Hp. assert (∀ q, pr s' q = pr s q) as Hpr by (intros; unfold pr; by rewrite Hp).
  induction 1; econstructor; rewrite ?Hpr; done.
Qed.

Lemma main_of_procs (s s' : kstate E) th m : procs s' = procs s → main_of s th m → main_of s' th m.
Proof. intros Hp (n & ? & ?). exists n. eauto using thmain_chain_procs. Qed.

Lemma keyed_but_stride s s' ky l : but_stride s s' → keyed s ky l → keyed s' ky l.
Proof.
  intros Hb Hk q Hq. destruct (Hk q Hq) as (m & Hm & Hp).
  assert (procs s' = procs s) as Hpr by (by rewrite Hb).
  exists m. split; [by eapply main_of_procs|]. unfold pr in *. by rewrite Hpr.
Qed.

Lemma keyed_perm s ky l l' : l' ≡ₚ l → keyed s ky l → keyed s ky l'.
Proof. intros Hp Hk q. rewrite Hp. apply Hk. Qed.

Lemma elem_of_at1 l j : (1 ≤ j ≤ length l)%nat → at1 l j ∈ l.
Proof. intros Hj. apply list_elem_of_lookup. eauto using at1_lookup. Qed.

Lemma main_pass_run s ky l q : keyed s ky l → q ∈ l → main_pass q s = Ok (ky q, s).
Proof.
  intros Hk Hq. destruct (Hk q Hq) as (m & Hm & <-).
  unfold main_pass. rewrite (bind_ok _ _ _ _ _ (main_thread_run _ _ _ Hm)). done.
Qed.

Lemma ld_heap_run s l i j :
  heap_hole s l i → (1 ≤ j ≤ length l)%nat → j ≠ i →
  ld_heap (Z.of_nat j) s = Ok (Some (at1 l j), s).
Proof.
  intros (_ & _ & _ & Hh) Hj Hne. unfold ld_heap, mbind, M_bind; simpl.
  destruct (Z.leb_spec 0 (Z.of_nat j)); [|lia]. rewrite Nat2Z.id.
  change (st_minheap (k_stride s)) with (minheap s). by rewrite (Hh j Hj Hne).
Qed.

Lemma heap_pass_run s ky l i j :
  heap_hole s l i → keyed s ky l → (1 ≤ j ≤ length l)%nat → j ≠ i →
  heap_pass (Z.of_nat j) s = Ok (ky (at1 l j), s).
Proof.
  intros Hh Hk Hj Hne. unfold heap_pass.
  rewrite (bind_ok _ _ _ _ _ (ld_heap_run _ _ _ _ Hh Hj Hne)). simpl.
  eapply main_pass_run; [done|by apply elem_of_at1].
Qed.

(** Moving the entry at [k] into the hole at [i] moves the hole to [k]. *)
Definition put_heap (i : nat) (v : option nat) (s : kstate E) : kstate E :=
  upd_stride (λ t, set_st_minheap (<[i := v]> (st_minheap t)) t) s.

Lemma st_heap_run (s : kstate E) i v :
  length (minheap s) = NPROC → (i < NPROC)%nat → st_heap (Z.of_nat i) v s = Ok (tt, put_heap i v s).
Proof.
  intros Hl Hi. unfold st_heap, mbind, M_bind; simpl.
  change (st_minheap (k_stride s)) with (minheap s). rewrite Hl.
  destruct (Z.leb_spec 0 (Z.of_nat i)), (Z.ltb_spec (Z.of_nat i) (Z.of_nat NPROC)); try lia.
  simpl. unfold modify, put_heap. by rewrite Nat2Z.id.
Qed.

Lemma put_heap_lookup s i j v :
  (i < length (minheap s))%nat →
  minheap (put_heap i v s) !! j = if decide (i = j) then Some v else minheap s !! j.
Proof.
  intros Hi. unfold minheap, put_heap in *; simpl in *. case_decide.
  - subst. by rewrite list_lookup_insert_eq.
  - by rewrite list_lookup_insert_ne.
Qed.

Lemma heap_hole_move s l i k :
  heap_hole s l i → (1 ≤ i ≤ length l)%nat → (1 ≤ k ≤ length l)%nat → i ≠ k →
  heap_hole (put_heap i (Some (at1 l k)) s) (swap1 i k l) k.
Proof.
  intros (Hs & Hl & Hn & Hh) Hi Hk Hik. unfold heap_hole. rewrite length_swap1.
  split_and!; [done|by unfold minheap, put_heap in *; simpl; rewrite length_insert|done|].
  intros j Hj Hjk. rewrite put_heap_lookup by lia. rewrite at1_swap1 by lia.
  case_decide; [done|]. rewrite decide_False by done. apply Hh; lia.
Qed.

Lemma heap_hole_fill s l i :
  heap_hole s l i → (1 ≤ i < NPROC)%nat →
  heap_rep (put_heap i (Some (at1 l i)) s) l.
Proof.
  intros (Hs & Hl & Hn & Hh) Hi.
  split_and!; [done|by unfold minheap, put_heap in *; simpl; rewrite length_insert|done|].
  intros j Hj _. rewrite put_heap_lookup by lia. case_decide; [by subst|]. apply Hh; lia.
Qed.

(** ** The heap is a priority queue *)

Lemma at1_app_l l p j : (1 ≤ j ≤ length l)%nat → at1 (l ++ [p]) j = at1 l j.
Proof. intros. unfold at1. rewrite !nth_lookup. by rewrite lookup_app_l by lia. Qed.

Lemma at1_app_r l p : at1 (l ++ [p]) (S (length l)) = p.
Proof.
  unfold at1. rewrite nth_lookup. replace (S (length l) - 1)%nat with (length l) by lia.
  by rewrite list_lookup_middle.
Qed.

Lemma up_ok_snoc ky l p : heap_ord ky l → up_ok ky (l ++ [p]) (S (length l)).
Proof.
  intros Ho. unfold up_ok. rewrite length_app. cbn [length]. split.
  - intros j Hj Hne. assert (1 ≤ j / 2 < j)%nat.
    { split; [apply (Nat.div_le_mono 2 j 2); lia|apply Nat.div_lt; lia]. }
    rewrite !at1_app_l by lia. apply Ho. lia.
  - intros j _ Hj Hd. assert (j / 2 < j)%nat by (apply Nat.div_lt; lia). lia.
Qed.

Lemma half_bounds j : (2 ≤ j)%nat → (1 ≤ j / 2 < j)%nat.
Proof. intros. split; [apply (Nat.div_le_mono 2 j 2); lia|apply Nat.div_lt; lia]. Qed.

(** The loop of [pushheap] with the hole at [i]; [V] is the array with the
    new thread put into the hole. *)
Definition push_at (s0 : kstate E) (ky : nat → Z) (p : nat) (l V : list nat) (i : nat)
    (s : kstate E) : Prop :=
  (1 ≤ i ≤ length V)%nat ∧ heap_hole s V i ∧ V ≡ₚ p :: l ∧ at1 V i = p ∧ but_stride s0 s.

Lemma push_at_step s0 ky p l V i s :
  push_at s0 ky p l V i s → (2 ≤ i)%nat →
  push_at s0 ky p l (swap1 i (i / 2) V) (i / 2) (put_heap i (Some (at1 V (i / 2))) s).
Proof.
  intros (Hi & Hh & Hp & Hat & Hb) H2. pose proof (half_bounds i H2).
  unfold push_at. rewrite length_swap1. split_and!; [lia..| | | |].
  - apply heap_hole_move; [done|lia|lia|lia].
  - rewrite <-Hp. apply ins1_swap_perm; lia.
  - rewrite at1_swap1 by lia. rewrite decide_False by lia. by rewrite decide_True.
  - eapply but_stride_trans; [exact Hb|apply but_stride_upd].
Qed.

Lemma pushheap_loop s0 ky p l m i V s :
  keyed s0 ky (p :: l) → p_pass (pr s0 m) = ky p →
  push_at s0 ky p l V i s → up_ok ky V i → (i ≤ NPROC)%nat →
  wp (loop walk_fuel (λ i,
        if Z.eqb i 1 then mret (inr i)
        else
          mp ← rd m p_pass;
          pp ← heap_pass (Z.quot i 2);
          if Z.ltb mp pp then
            v ← ld_heap (Z.quot i 2);
            st_heap i v;;
            mret (inl (Z.quot i 2))
          else mret (inr i)) (Z.of_nat i))
     (λ a s', ∃ V' i', a = Z.of_nat i' ∧ push_at s0 ky p l V' i' s' ∧ heap_ord ky V') s.
Proof.
  intros Hk Hm Hpa Hup Hi.
  eapply (wp_loop (λ n a s, ∃ V, a = Z.of_nat n ∧ push_at s0 ky p l V n s ∧ up_ok ky V n))
    with (n := i); [|unfold walk_fuel; lia|by exists V].
  clear V i s Hpa Hup Hi. intros i a s (V & -> & Hpa & Hup).
  pose proof Hpa as (Hi & Hh & Hp & Hat & Hb).
  assert (keyed s ky V) as Hk2 by (eapply keyed_but_stride, keyed_perm; eauto).
  destruct (Z.eqb_spec (Z.of_nat i) 1) as [E1|E1].
  { apply wp_ret. exists V, i. split_and!; [done..|]. eapply up_ok_stop; [done|]. left. lia. }
  pose proof (half_bounds i ltac:(lia)).
  assert (Z.quot (Z.of_nat i) 2 = Z.of_nat (i / 2)) as ->.
  { rewrite Z.quot_div_nonneg by lia. by rewrite Nat2Z.inj_div. }
  assert (p_pass (pr s m) = ky p) as Hm2 by (rewrite Hb; exact Hm).
  wstep. apply wp_rd. wstep. eapply wp_eq; [eapply heap_pass_run; [done|done|lia|lia]|].
  rewrite Hm2. destruct (Z.ltb_spec (ky p) (ky (at1 V (i / 2)))) as [Hlt|Hge].
  - wstep. eapply wp_eq; [eapply ld_heap_run; [done|lia|lia]|]. wstep.
    eapply wp_eq; [apply st_heap_run; [apply Hh|destruct Hh; lia]|]. wstep.
    exists (i / 2)%nat. split; [lia|]. exists (swap1 i (i / 2) V).
    split_and!; [done|apply push_at_step; [done|lia]|].
    apply up_ok_step; [done|lia|by rewrite Hat].
  - apply wp_ret. exists V, i. split_and!; [done..|].
    eapply up_ok_stop; [done|]. right. by rewrite Hat.
Qed.

Theorem pushheap_spec s l ky p :
  heap_rep s l → heap_ord ky l → keyed s ky (p :: l) → (S (length l) < NPROC)%nat →
  wp (pushheap p)
     (λ _ s', ∃ l', heap_rep s' l' ∧ l' ≡ₚ p :: l ∧ heap_ord ky l' ∧ but_stride s s') s.
Proof.
  intros (Hsz & Hml & _ & Hh) Ho Hk Hn. unfold pushheap, set_heap_size. wsteps.
  rewrite Hsz. rewrite s32_small by (unfold is_s32, NPROC in *; lia).
  replace (Z.of_nat (length l) + 1) with (Z.of_nat (S (length l))) by lia.
  set (s1 := upd_stride _ s). destruct (Hk p ltac:(set_solver)) as (m & Hm & Hmp).
  eapply wp_eq; [apply main_thread_run; by eapply main_of_procs, Hm|]. wstep.
  eapply wp_mono; [apply (pushheap_loop s ky p l m (S (length l)) (l ++ [p])); [done|done| | |lia]|].
  - unfold push_at, heap_hole. rewrite length_app. cbn [length].
    split_and!; [lia|lia|unfold s1; simpl; lia|done|lia| | | |].
    + intros j Hj Hne. rewrite at1_app_l by lia. apply Hh; lia.
    + by rewrite Permutation_app_comm.
    + apply at1_app_r.
    + apply but_stride_upd.
  - by apply up_ok_snoc.
  - intros a s' (V & i & -> & (Hi & Hhole & Hp & Hat & Hb) & Hord).
    pose proof Hhole as (_ & Hml3 & HlV & _).
    eapply wp_eq; [apply st_heap_run; [done|lia]|].
    exists V. split_and!; [|done|done|].
    + rewrite <-Hat at 1. apply heap_hole_fill; [done|lia].
    + eapply but_stride_trans; [exact Hb|apply but_stride_upd].
Qed.

Lemma half_eq j i : (j / 2)%nat = i → j = (2 * i)%nat ∨ j = (2 * i + 1)%nat.
Proof.
  intros <-. pose proof (Nat.div_mod_eq j 2). pose proof (Nat.mod_upper_bound j 2). lia.
Qed.

Lemma half_double i : (2 * i / 2)%nat = i.
Proof. rewrite Nat.mul_comm. apply Nat.div_mul. lia. Qed.

Lemma half_double_1 i : ((2 * i + 1) / 2)%nat = i.
Proof. rewrite Nat.mul_comm, Nat.div_add_l by lia. simpl. lia. Qed.

(** The loop of [popheap] with the hole at [i]; [V] is the array with the
    former last entry put into the hole. *)
Definition pop_at (s0 : kstate E) (lst : nat) (V0 V : list nat) (i : nat) (s : kstate E) : Prop :=
  (1 ≤ i ≤ length V)%nat ∧ heap_hole s V i ∧ V ≡ₚ V0 ∧ at1 V i = lst ∧ but_stride s0 s.

Lemma pop_at_step s0 lst V0 V i c s :
  pop_at s0 lst V0 V i s → (i < c ≤ length V)%nat →
  pop_at s0 lst V0 (swap1 i c V) c (put_heap i (Some (at1 V c)) s).
Proof.
  intros (Hi & Hh & Hp & Hat & Hb) Hc.
  unfold pop_at. rewrite length_swap1. split_and!; [lia..| | | |].
  - apply heap_hole_move; [done|lia|lia|lia].
  - rewrite <-Hp. apply ins1_swap_perm; lia.
  - rewrite at1_swap1 by lia. rewrite decide_False by lia. by rewrite decide_True.
  - eapply but_stride_trans; [exact Hb|apply but_stride_upd].
Qed.

(** The smaller child of [i]. *)
Definition min_child (ky : nat → Z) (V : list nat) (i : nat) : nat :=
  if decide (2 * i < length V ∧ (ky (at1 V (2 * i + 1)) < ky (at1 V (2 * i)))%Z)%nat
  then (2 * i + 1)%nat else (2 * i)%nat.

Lemma min_child_spec ky V i :
  (1 ≤ i)%nat → (2 * i ≤ length V)%nat →
  (i < min_child ky V i ≤ length V)%nat ∧ (min_child ky V i / 2)%nat = i ∧
  (∀ j, (2 ≤ j ≤ length V)%nat → (j / 2)%nat = i → ky (at1 V (min_child ky V i)) ≤ ky (at1 V j)).
Proof.
  intros Hi Hc. unfold min_child. case_decide as Hd.
  - split_and!; [lia|lia|apply half_double_1|]. intros j Hj [->| ->]%half_eq; lia.
  - split_and!; [lia|lia|apply half_double|]. intros j Hj [->| ->]%half_eq; [lia|].
    destruct (Z.le_gt_cases (ky (at1 V (2 * i))) (ky (at1 V (2 * i + 1)))); [done|]. lia.
Qed.

Lemma select_child_run s ky V i :
  heap_hole s V i → keyed s ky V → (1 ≤ i)%nat → (2 * i ≤ length V)%nat →
  (if Z.ltb (Z.of_nat (2 * i)) (Z.of_nat (length V)) then
     a ← heap_pass (Z.of_nat (2 * i));
     b ← heap_pass (Z.of_nat (2 * i) + 1);
     mret (if Z.ltb b a then Z.of_nat (2 * i) + 1 else Z.of_nat (2 * i))
   else mret (Z.of_nat (2 * i))) s = Ok (Z.of_nat (min_child ky V i), s).
Proof.
  intros Hh Hk Hi Hc. unfold min_child.
  destruct (Z.ltb_spec (Z.of_nat (2 * i)) (Z.of_nat (length V))).
  - rewrite (bind_ok _ _ _ _ _ (heap_pass_run s ky V i (2 * i) Hh Hk ltac:(lia) ltac:(lia))).
    replace (Z.of_nat (2 * i) + 1) with (Z.of_nat (2 * i + 1)) by lia.
    rewrite (bind_ok _ _ _ _ _ (heap_pass_run s ky V i (2 * i + 1) Hh Hk ltac:(lia) ltac:(lia))).
    destruct (Z.ltb_spec (ky (at1 V (2 * i + 1))) (ky (at1 V (2 * i)))).
    + rewrite decide_True by lia. done.
    + rewrite decide_False by lia. done.
  - rewrite decide_False by lia. done.
Qed.

Lemma popheap_loop s0 ky lst V0 V i s :
  keyed s0 ky V0 → pop_at s0 lst V0 V i s → down_ok ky V i →
  wp (loop walk_fuel (λ '(parent, child),
        size ← gets (λ s, st_size (k_stride s));
        if Z.leb child size then
          child ← (if Z.ltb child size then
                     a ← heap_pass child;
                     b ← heap_pass (child + 1);
                     mret (if Z.ltb b a then child + 1 else child)
                   else mret child);
          l ← (l ← deref (Some lst); main_pass l);
          c ← heap_pass child;
          if Z.leb l c then mret (inr parent)
          else
            v ← ld_heap child;
            st_heap parent v;;
            mret (inl (child, child * 2))
        else mret (inr parent)) (Z.of_nat i, Z.of_nat (2 * i)))
     (λ a s', ∃ V' i', a = Z.of_nat i' ∧ pop_at s0 lst V0 V' i' s' ∧ heap_ord ky V') s.
Proof.
  intros Hk Hpa Hdn.
  eapply (wp_loop (λ n a s, ∃ V i, n = (length V0 - i)%nat ∧ a = (Z.of_nat i, Z.of_nat (2 * i)) ∧
                     pop_at s0 lst V0 V i s ∧ down_ok ky V i))
    with (n := (length V0 - i)%nat); [| |by exists V, i].
  2: { destruct Hpa as (_ & (_ & _ & Hl & _) & Hp & _). rewrite Hp in Hl. unfold walk_fuel. lia. }
  clear V i s Hpa Hdn. intros n a s (V & i & -> & -> & Hpa & Hdn).
  pose proof Hpa as (Hi & Hh & Hp & Hat & Hb). pose proof Hh as (Hsz & Hml & HlV & _).
  assert (keyed s ky V) as Hk2 by (eapply keyed_but_stride, keyed_perm; eauto).
  pose proof (Permutation_length Hp) as HlV0.
  wsteps. rewrite Hsz. destruct (Z.leb_spec (Z.of_nat (2 * i)) (Z.of_nat (length V))) as [Hc|Hc].
  2: { apply wp_ret. exists V, i. split_and!; [done..|]. eapply down_ok_stop; [done|].
       intros j Hj [->| ->]%half_eq; lia. }
  destruct (min_child_spec ky V i ltac:(lia) ltac:(lia)) as (Hm1 & Hm2 & Hm3).
  wstep. eapply wp_eq; [apply (select_child_run _ ky V); [done|done|lia|lia]|]. wstep.
  eapply wp_eq; [eapply main_pass_run; [done|rewrite <-Hat; by apply elem_of_at1]|]. wstep.
  eapply wp_eq; [eapply heap_pass_run; [done|done|lia|lia]|].
  destruct (Z.leb_spec (ky lst) (ky (at1 V (min_child ky V i)))) as [Hle|Hgt].
  - apply wp_ret. exists V, i. split_and!; [done..|]. eapply down_ok_stop; [done|].
    intros j Hj Hji. rewrite Hat. etrans; [exact Hle|]. by apply Hm3.
  - wstep. eapply wp_eq; [eapply ld_heap_run; [done|lia|lia]|]. wstep.
    eapply wp_eq; [apply st_heap_run; [done|lia]|]. wstep.
    eexists. split; [|exists (swap1 i (min_child ky V i) V), (min_child ky V i);
                      split_and!; [done|f_equal; lia|by apply pop_at_step|]].
    + lia.
    + apply down_ok_step; [done|lia|lia|done|done|by rewrite Hat].
Qed.

Lemma at1_cons_app x y mid z j :
  (2 ≤ j ≤ S (length mid))%nat → at1 (y :: mid) j = at1 (x :: mid ++ [z]) j.
Proof.
  intros Hj. unfold at1. destruct j as [|[|j]]; [lia..|]. simpl.
  rewrite !nth_lookup. by rewrite lookup_app_l by lia.
Qed.

Lemma down_ok_init ky x mid z : heap_ord ky (x :: mid ++ [z]) → down_ok ky (z :: mid) 1.
Proof.
  intros Ho. split; [|lia]. intros j Hj Hne. cbn [length] in Hj.
  pose proof (half_bounds j ltac:(lia)).
  rewrite !(at1_cons_app x z mid z) by lia. apply Ho. cbn [length]. rewrite length_app. lia.
Qed.

Lemma keyed_sub s ky l l' : l' ⊆ l → keyed s ky l → keyed s ky l'.
Proof. intros Hs Hk q Hq. apply Hk. by apply Hs. Qed.

Theorem popheap_spec s l ky :
  heap_rep s l → heap_ord ky l → keyed s ky l → l ≠ [] →
  wp popheap
     (λ r s', ∃ q l', r = Some q ∧ l ≡ₚ q :: l' ∧ (∀ x, x ∈ l → ky q ≤ ky x) ∧
              heap_rep s' l' ∧ heap_ord ky l' ∧ but_stride s s') s.
Proof.
  intros Hr Ho Hk Hne. pose proof Hr as (Hsz & Hml & Hln & Hh).
  assert (∀ x, x ∈ l → ky (at1 l 1) ≤ ky x) as Hmin.
  { intros x [j Hj]%list_elem_of_lookup. pose proof (lookup_lt_Some _ _ _ Hj).
    pose proof (heap_ord_root ky l (S j) Ho ltac:(lia)) as Hle.
    rewrite (at1_lookup' l j x Hj) in Hle. done. }
  destruct l as [|x rest]; [done|]. clear Hne.
  unfold popheap, set_heap_size. wstep.
  eapply wp_eq; [apply (ld_heap_run s _ 0 1 Hr); simpl; lia|]. wsteps. rewrite Hsz.
  eapply wp_eq; [apply (ld_heap_run s _ 0 _ Hr); simpl; lia|]. wsteps.
  rewrite s32_small by (unfold is_s32, NPROC in *; lia).
  set (s1 := upd_stride _ s). destruct (decide (rest = [])) as [->|Hrest].
  - (* a single entry *)
    eapply wp_eq; [by apply loop_inr|].
    wstep. eapply wp_eq; [apply (st_heap_run s1 1); [done|unfold NPROC; lia]|]. wstep.
    exists x, []. split_and!; [done..| | |].
    + split_and!; [done|unfold minheap, put_heap; simpl; by rewrite length_insert|unfold NPROC; simpl; lia|].
      simpl. intros; lia.
    + intros j Hj. simpl in Hj. lia.
    + eapply but_stride_trans; [apply but_stride_upd|apply but_stride_upd].
  - destruct (exists_last Hrest) as (mid & z & ->). cbn [length] in *.
    rewrite length_app in *. cbn [length] in *.
    assert (at1 (x :: mid ++ [z]) (S (length mid + 1)) = z) as Ez.
    { replace (S (length mid + 1)) with (S (length (x :: mid))) by (simpl; lia).
      apply (at1_app_r (x :: mid)). }
    rewrite Ez. eapply wp_mono; [apply (popheap_loop s ky z (z :: mid) (z :: mid) 1 s1)|].
    + eapply keyed_sub; [|exact Hk]. set_solver.
    + split_and!; [lia|simpl; lia| |done|done|apply but_stride_upd].
      split_and!; [change (st_size (k_stride s1)) with (Z.of_nat (length (x :: mid ++ [z])) - 1);
                   cbn [length]; rewrite length_app; cbn [length]; lia|done|cbn [length]; lia|].
      intros j Hj Hj1. cbn [length] in Hj. rewrite (at1_cons_app x z mid z) by lia. apply Hh; lia.
    + by apply (down_ok_init _ x).
    + intros a s' (V & i & -> & (Hi & Hhole & Hp & Hat & Hb) & Hord).
      pose proof Hhole as (_ & Hml3 & HlV & _). wstep.
      eapply wp_eq; [apply st_heap_run; [done|lia]|]. wstep.
      exists x, V. split_and!; [done| |done| |done|].
      * rewrite Hp. apply perm_skip. by rewrite Permutation_app_comm.
      * rewrite <-Hat at 1. apply heap_hole_fill; [done|lia].
      * eapply but_stride_trans; [exact Hb|apply but_stride_upd].
Qed.

Lemma getminpass_run s l ky :
  heap_rep s l → heap_ord ky l → keyed s ky l →
  getminpass s = Ok (match l with [] => MAXINT | x :: _ => ky x end, s).
Proof.
  intros Hr Ho Hk. pose proof Hr as (Hsz & _). unfold getminpass, mbind, M_bind; simpl.
  rewrite Hsz. destruct l as [|x rest]; [done|].
  destruct (Z.ltb_spec 0 (Z.of_nat (length (x :: rest)))); [|simpl in *; lia].
  apply (heap_pass_run s ky (x :: rest) 0 1 Hr Hk); simpl; lia.
Qed.

End heap.
Close Scope Z_scope.
