(* ===== verification/Mlfq.v ===== *)
(** * The multi-level feedback queue ([src/xv6-public/proc.c], group MLFQ)

    Three queues of RUNNABLE and RUNNING threads, linked through [mlfq], and
    one pin per level that remembers where the next selection starts.  The
    threads of one process stay next to each other in their queue. *)

From S2P Require Import Prelude.
From S2P Require Import ListH.
From S2P Require Import Spinlock.
From S2P Require Import Kstate.
From S2P Require Import ThreadCore.

Open Scope Z_scope.

Section mlfq.
  Context {E : Type}.
  Abbreviation KM := (M (kstate E)).

(** [&th->mlfq]. *)
Definition mlfq_node (th : nat) : option lnode := Some (NProc Fmlfq th).

Definition __routine_set_stride (th : nat) : KM (option nat) :=
  wr th (set_p_type STRIDE);;
  mret None.

Definition __routine_is_pinned (th : nat) (pin : option lnode) : KM (option nat) :=
  mret (if decide (mlfq_node th = pin) then Some th else None).

Definition __routine_enqueue_remain (th : nat) (pivot : nat) : KM (option nat) :=
  st ← rd th p_state;
  (if decide (th ≠ pivot ∧ (st = RUNNABLE ∨ st = RUNNING))
   then on_links (list_add_after (mlfq_node th) (mlfq_node pivot))
   else mret tt);;
  mret None.

Definition __routine_dequeue_proc (th : nat) : KM (option nat) :=
  st ← rd th p_state;
  (if decide (st = RUNNABLE ∨ st = RUNNING)
   then on_links (list_del (mlfq_node th))
   else mret tt);;
  mret None.

(** The queue has at most [NPROC] threads and its head. *)
Definition queue_fuel : nat := S (S NPROC).

Definition ready_proc (p : nat) : KM (option nat) :=
  m ← main_thread p;
  level ← rd m p_privlevel;
  st ← rd p p_state;
  if decide (st ≠ RUNNABLE ∧ st ≠ RUNNING) then panic "ready_proc"
  else
    q ← queue_at level;
    let start := mlfq_node p in
    itr ← on_links (ld_next start);
    loop queue_fuel (λ itr,
      if decide (itr = start) then mret (inr None)
      else
        found ← (if list_is_head itr q then mret None
                 else
                   np ← list_entry Fmlfq itr;
                   npid ← rd np p_pid;
                   pid ← rd p p_pid;
                   nst ← rd np p_state;
                   mret (if decide (npid ≠ pid ∧ nst = RUNNABLE) then Some np else None));
        match found with
        | Some np => mret (inr (Some np))
        | None => itr ← on_links (ld_next itr); mret (inl itr)
        end) itr.

Definition is_proc_pinned (p : nat) (pin : option lnode) : KM bool :=
  th ← threads_apply1 p __routine_is_pinned pin;
  mret (bool_decide (th ≠ None)).

Definition pin_next_thread (th : nat) (self : bool) : KM unit :=
  m ← main_thread th;
  level ← rd m p_privlevel;
  pin ← ld_pin level;
  pinned ← is_proc_pinned th pin;
  when pinned (
    nxt ← ready_thread th;
    if match nxt with Some n => self || bool_decide (n ≠ th) | None => false end
    then st_pin level (nxt ≫= mlfq_node)
    else
      nxt ← ready_or_running_thread th;
      match nxt with
      | None => panic "pin next thread"
      | Some n =>
          nxt ← ready_proc n;
          q ← queue_at level;
          st_pin level (match nxt with Some n => mlfq_node n | None => q end)
      end).

Definition pin_next_proc (p : nat) (self : bool) : KM unit :=
  m ← main_thread p;
  level ← rd m p_privlevel;
  pin ← ld_pin level;
  pinned ← is_proc_pinned p pin;
  when pinned (
    nxt ← ready_or_running_thread p;
    match nxt with
    | None => panic "pin next proc"
    | Some n =>
        nxt ← ready_proc n;
        q ← queue_at level;
        match nxt with
        | Some n => st_pin level (mlfq_node n)
        | None =>
            if self then
              nxt ← ready_thread p;
              st_pin level (match nxt with Some n => mlfq_node n | None => q end)
            else st_pin level q
        end
    end).

Definition enqueue_thread (th : nat) : KM unit :=
  st ← rd th p_state;
  if decide (st ≠ RUNNABLE) then panic "enqueue unready thread"
  else
    pivot ← ready_or_running_thread th;
    if decide (Some th = pivot) then
      m ← main_thread th;
      level ← rd m p_privlevel;
      q ← queue_at level;
      on_links (list_add_tail (mlfq_node th) q)
    else
      pivot ← deref pivot;
      on_links (list_add_after (mlfq_node th) (mlfq_node pivot)).

Definition enqueue_proc (p : nat) : KM unit :=
  st ← rd p p_state;
  if decide (st ≠ RUNNABLE ∧ st ≠ RUNNING) then panic "enqueue proc: RUNNING, RUNNABLE"
  else
    m ← main_thread p;
    level ← rd m p_privlevel;
    q ← queue_at level;
    on_links (list_add_tail (mlfq_node p) q);;
    threads_apply1 p __routine_enqueue_remain p;;
    mret tt.

Definition concatqueue (src dst : Z) : KM unit :=
  srcq ← queue_at src;
  dstq ← queue_at dst;
  e ← on_links (list_empty dstq);
  spin ← ld_pin src;
  when (e && bool_decide (spin ≠ srcq)) (st_pin dst spin);;
  st_pin src srcq;;
  on_links (list_bulk_move_tail srcq dstq).

Definition dequeue_thread (th : nat) : KM unit :=
  pin_next_thread th false;;
  on_links (list_del (mlfq_node th)).

Definition dequeue_proc (p : nat) : KM unit :=
  pin_next_proc p false;;
  threads_apply0 p __routine_dequeue_proc;;
  mret tt.

(** [mlfqselect]: the body of the loop over the levels answers [inr] to
    return and [inl] to go on with the next level. *)
Definition select_level (l : Z) : KM (Z + option nat) :=
  if Z.ltb l (Z.of_nat QSIZE) then
    q ← queue_at l;
    e ← on_links (list_empty q);
    if e : bool then mret (inl (l + 1))
    else
      pin ← ld_pin l;
      p ← (if decide (pin = q)
           then n ← on_links (ld_next q); list_entry Fmlfq n
           else list_entry Fmlfq pin);
      st ← rd p p_state;
      skip ← (if decide (st = RUNNING) then
                pin_next_thread p false;;
                pin ← ld_pin l;
                (if decide (pin = q) then pin_next_proc p false else mret tt);;
                pin ← ld_pin l;
                mret (bool_decide (pin = q))
              else mret false);
      if skip : bool then mret (inl (l + 1))
      else
        m ← main_thread p;
        lv ← rd m p_privlevel;
        if Z.eqb lv l then
          st_pin l (mlfq_node p);;
          mret (inr (Some p))
        else panic "mlfqselect"
  else mret (inr None).
Definition mlfqselect : KM (option nat) := loop (S QSIZE) select_level 0.

(** [for(itr = q->next; itr != q; itr = itr->next) body(list_entry(itr))]. *)
Definition for_list (q : option lnode) (f : lfield) (body : nat → KM unit) : KM unit :=
  itr ← on_links (ld_next q);
  loop queue_fuel (λ itr,
    if decide (itr = q) then mret (inr tt)
    else
      p ← list_entry f itr;
      body p;;
      itr ← on_links (ld_next itr);
      mret (inl itr)) itr.

Definition reset_level (p : nat) : KM unit :=
  wr p (set_p_privlevel 0);;
  wr p (set_p_ticks 0).

Definition priority_boost : KM unit :=
  for_each (Z.of_nat <$> seq 1 (QSIZE - 1)) (λ l,
    q ← queue_at l;
    for_list q Fmlfq reset_level;;
    concatqueue l 0);;
  for_list (Some NSleep) Fsleep reset_level;;
  modify (upd_mlfq (set_mq_ticks 0)).

Definition mlfqlogic (p : nat) : KM unit :=
  thmain ← main_thread p;
  let baselevel := Z.of_nat QSIZE - 1 in
  l ← rd thmain p_privlevel;
  ticks ← rd thmain p_ticks;
  if Z.ltb l baselevel && Z.leb (TA l) ticks then
    dequeue_proc p;;
    wr thmain (set_p_privlevel (l + 1));;
    wr thmain (set_p_ticks 0);;
    th ← ready_or_running_thread p;
    match th with Some th => enqueue_proc th | None => mret tt end
  else if Z.eqb (Z.rem ticks (TQ l)) 0 then pin_next_proc p true
  else pin_next_thread p true.

(** ** Walking a queue *)

Fixpoint find_map {A B} (g : A → option B) (l : list A) : option B :=
  match l with [] => None | x :: l' => match g x with Some b => Some b | None => find_map g l' end end.

Lemma ring_walk {B} (s : kstate E) start nodes (step : option lnode → KM (option B)) g :
  dlist (links s) start nodes →
  (∀ n, n ∈ nodes → step (Some n) s = Ok (g n, s)) →
  ∀ rest dn fuel, nodes = dn ++ rest → (length rest < fuel)%nat →
  loop fuel (λ itr,
    if decide (itr = Some start) then mret (inr None)
    else
      found ← step itr;
      match found with
      | Some b => mret (inr (Some b))
      | None => itr ← on_links (ld_next itr); mret (inl itr)
      end) (Some (default start (head rest))) s = Ok (find_map g rest, s).
Proof.
  intros Hd Hg. induction rest as [|x rest IH]; intros dn fuel Hn Hf.
  all: destruct fuel as [|fuel]; [simpl in Hf; lia|].
  - apply loop_inr. simpl. by rewrite decide_True.
  - change (default start (head (x :: rest))) with x. cbn [find_map].
    assert (x ≠ start) as Hne.
    { destruct Hd as [[Hs _]%NoDup_cons _]. intros ->. rewrite Hn in Hs. set_solver. }
    assert (step (Some x) s = Ok (g x, s)) as Hst by (apply Hg; rewrite Hn; set_solver).
    assert (nxt (links s) x = Some (default start (head rest))) as Hx.
    { rewrite Hn in Hd. destruct rest; [by apply dlist_next_end in Hd|by apply dlist_next_in in Hd as [? _]]. }
    destruct (g x) as [b|] eqn:Eg.
    + apply loop_inr. rewrite decide_False by congruence. by rewrite (bind_ok _ _ _ _ _ Hst).
    + erewrite loop_inl; [apply (IH (dn ++ [x])); [by rewrite <-app_assoc|simpl in Hf; lia]|].
      rewrite decide_False by congruence. rewrite (bind_ok _ _ _ _ _ Hst).
      unfold mbind, M_bind. by rewrite ld_next_run, Hx.
Qed.

Lemma find_map_app {A B} (g : A → option B) l1 l2 :
  find_map g (l1 ++ l2) = match find_map g l1 with Some b => Some b | None => find_map g l2 end.
Proof. induction l1 as [|x l1 IH]; simpl; [done|]. by destruct (g x). Qed.

Lemma dlist_next_head (h : gmap lnode (list_head lnode)) start nodes :
  dlist h start nodes → nxt h start = Some (default start (head nodes)).
Proof. destruct nodes; [by intros [? _]%dlist_nil|by apply dlist_next_first]. Qed.

(** ** The queues as lists of threads *)

Definition qnodes (l : list nat) : list lnode := NProc Fmlfq <$> l.

(** [queues s Q]: queue [l] holds the threads [Q l], in order. *)
Definition queues (s : kstate E) (Q : nat → list nat) : Prop :=
  (∀ l, (l < QSIZE)%nat → dlist (links s) (NQueue l) (qnodes (Q l))) ∧
  (∀ l l' q, (l < QSIZE)%nat → (l' < QSIZE)%nat → q ∈ Q l → q ∈ Q l' → l = l').

(** Every pin is its queue's head or a thread of that queue. *)
Definition pin_in (Q : nat → list nat) (l : nat) (v : option lnode) : Prop :=
  v = Some (NQueue l) ∨ ∃ q, q ∈ Q l ∧ v = mlfq_node q.
Definition pins_ok (s : kstate E) (Q : nat → list nat) : Prop :=
  length (mq_pin (k_mlfq s)) = QSIZE ∧
  ∀ l v, mq_pin (k_mlfq s) !! l = Some v → pin_in Q l v.

(** The group of threads of a process with main thread [m]. *)
Definition group (s : kstate E) (th : nat) (ths : list nat) (m : nat) : Prop :=
  thring s th ths ∧ (length ths < NPROC)%nat ∧
  ∀ q, q ∈ th :: ths → main_of s q m ∧ p_pid (pr s q) = p_pid (pr s m).

Definition at_level (s : kstate E) (m l : nat) : Prop :=
  (l < QSIZE)%nat ∧ p_privlevel (pr s m) = Z.of_nat l.

Lemma NoDup_queue s Q l : queues s Q → (l < QSIZE)%nat → NoDup (Q l).
Proof.
  intros [Hd _] Hl. destruct (Hd l Hl) as [[_ Hnd]%NoDup_cons _].
  by apply NoDup_fmap_1 in Hnd.
Qed.

Lemma queue_at_run l (s : kstate E) :
  (l < QSIZE)%nat → queue_at (Z.of_nat l) s = Ok (Some (NQueue l), s).
Proof.
  intros Hl. unfold queue_at, level_ok.
  destruct (Z.leb_spec 0 (Z.of_nat l)), (Z.ltb_spec (Z.of_nat l) (Z.of_nat QSIZE)); try lia.
  simpl. by rewrite Nat2Z.id.
Qed.

Lemma ld_pin_run l v (s : kstate E) :
  (l < QSIZE)%nat → mq_pin (k_mlfq s) !! l = Some v → ld_pin (Z.of_nat l) s = Ok (v, s).
Proof.
  intros Hl Hv. unfold ld_pin, level_ok, mbind, M_bind; simpl. rewrite Nat2Z.id, Hv.
  destruct (Z.leb_spec 0 (Z.of_nat l)), (Z.ltb_spec (Z.of_nat l) (Z.of_nat QSIZE)); try lia.
  done.
Qed.

Definition put_pin (l : nat) (v : option lnode) (s : kstate E) : kstate E :=
  upd_mlfq (λ m, set_mq_pin (<[l := v]> (mq_pin m)) m) s.

Lemma st_pin_run l v (s : kstate E) :
  (l < QSIZE)%nat → st_pin (Z.of_nat l) v s = Ok (tt, put_pin l v s).
Proof.
  intros Hl. unfold st_pin, level_ok, put_pin.
  destruct (Z.leb_spec 0 (Z.of_nat l)), (Z.ltb_spec (Z.of_nat l) (Z.of_nat QSIZE)); try lia.
  simpl. unfold modify. by rewrite Nat2Z.id.
Qed.

Lemma put_pin_ok l v s Q : (l < QSIZE)%nat → pins_ok s Q → pin_in Q l v → pins_ok (put_pin l v s) Q.
Proof.
  intros Hl [Hlen Hp] Hv. split; [simpl; by rewrite length_insert|].
  intros l' v'. simpl. destruct (decide (l = l')) as [->|].
  - rewrite list_lookup_insert_eq by lia. by intros [= <-].
  - rewrite list_lookup_insert_ne by done. apply Hp.
Qed.

(** [ready_proc p] finds the first RUNNABLE thread of another process after
    [p] in the round of its queue. *)
Definition other_ready (s : kstate E) (p np : nat) : bool :=
  bool_decide (p_pid (pr s np) ≠ p_pid (pr s p) ∧ p_state (pr s np) = RUNNABLE).

Lemma ready_proc_run s Q p m l q1 q2 :
  queues s Q → main_of s p m → at_level s m l → in_mlfq (pr s p) = true →
  Q l = q1 ++ p :: q2 → (length (Q l) ≤ NPROC)%nat →
  ready_proc p s = Ok (find (other_ready s p) (q2 ++ q1), s).
Proof.
  intros Hq Hm [Hl Hlv] Hin HQ Hlen. unfold ready_proc.
  rewrite (bind_ok _ _ _ _ _ (main_thread_run _ _ _ Hm)). unfold mbind at 1, M_bind at 1; simpl.
  unfold mbind at 1, M_bind at 1; simpl.
  apply bool_decide_eq_true_1 in Hin. rewrite decide_False by tauto.
  rewrite Hlv, (bind_ok _ _ _ _ _ (queue_at_run _ _ Hl)).
  destruct Hq as [Hd _]. specialize (Hd l Hl). rewrite HQ in Hd. unfold qnodes in Hd.
  rewrite fmap_app, fmap_cons in Hd. apply dlist_rotate in Hd.
  unfold mlfq_node. rewrite (bind_ok _ _ _ _ _ (ld_next_run _ _)).
  rewrite (dlist_next_head _ _ _ Hd).
  set (g := λ n, match n with NProc Fmlfq np => if other_ready s p np then Some np else None
                 | _ => None end).
  etrans; [eapply (ring_walk s _ _ _ g Hd) with (dn := [])|]; cycle 1.
  1: done.
  - rewrite HQ in Hlen. rewrite length_app in *. simpl in *. rewrite !length_fmap.
    unfold queue_fuel. lia.
  - f_equal. f_equal. rewrite find_map_app. cbn [find_map g].
    assert (∀ k, find_map g (NProc Fmlfq <$> k) = find (other_ready s p) k) as Hfm.
    { induction k as [|x k IH]; [done|]. simpl. by destruct (other_ready s p x). }
    rewrite !Hfm. clear. induction q2 as [|x q2 IH]; simpl; [done|].
    by destruct (other_ready s p x).
  - intros n Hn. unfold list_is_head.
    assert (n = NQueue l ∨ ∃ np, n = NProc Fmlfq np) as [->|[np ->]].
    { apply elem_of_app in Hn as [Hn|Hn]; [set_solver|].
      apply elem_of_cons in Hn as [->|Hn]; set_solver. }
    + by rewrite bool_decide_eq_true_2.
    + rewrite bool_decide_eq_false_2 by congruence. simpl.
      unfold mbind, M_bind; simpl.
      unfold other_ready, mret, M_ret. case_decide; [by rewrite bool_decide_eq_true_2|by rewrite bool_decide_eq_false_2].
Qed.

(** ** Advancing the pin *)

Lemma is_proc_pinned_run s p ths pin :
  thring s p ths → (length ths < NPROC)%nat →
  is_proc_pinned p pin s = Ok (bool_decide (pin ∈ mlfq_node <$> (ths ++ [p])), s).
Proof.
  intros Hr Hl. unfold is_proc_pinned. rewrite threads_apply1_apply0.
  assert (∀ q t, __routine_is_pinned q pin t
    = Ok (if bool_decide (mlfq_node q = pin) then Some q else None, t)) as Hq.
  { intros q t. unfold __routine_is_pinned, mret, M_ret. by do 2 case_bool_decide || case_decide. }
  assert (∀ l, first_of l (λ th, __routine_is_pinned th pin) s
    = Ok (find (λ q, bool_decide (mlfq_node q = pin)) l, s)) as Hf.
  { induction l as [|x l IH]; [done|]. cbn [first_of]. rewrite (bind_ok _ _ _ _ _ (Hq _ _)).
    simpl. by case_bool_decide. }
  assert (∀ l, bool_decide (find (λ q, bool_decide (mlfq_node q = pin)) l ≠ None)
               = bool_decide (pin ∈ mlfq_node <$> l)) as Hb.
  { intros l. apply bool_decide_ext. induction l as [|x l IH]; simpl.
    - split; [done|]. by intros ?%not_elem_of_nil.
    - rewrite elem_of_cons. case_bool_decide; [split; [by left|done]|].
      rewrite IH. split; [by right|]. intros [->|?]; done. }
  erewrite bind_ok; cycle 1.
  { rewrite (threads_apply0_spec s p ths); [apply Hf| |done..].
    intros q t a t' Ht. rewrite Hq in Ht. by simplify_eq. }
  unfold mret, M_ret. by rewrite Hb.
Qed.

Lemma find_some_in {A} (f : A → bool) l x : find f l = Some x → x ∈ l ∧ f x = true.
Proof. intros H%List.find_some. by rewrite list_elem_of_In. Qed.

Lemma find_none_in {A} (f : A → bool) l : find f l = None → ∀ x, x ∈ l → f x = false.
Proof. intros H x Hx. eapply List.find_none in H; [done|by apply list_elem_of_In]. Qed.

Lemma find_snoc {A} (f : A → bool) l x :
  find f (l ++ [x]) = match find f l with Some y => Some y | None => if f x then Some x else None end.
Proof. induction l as [|y l IH]; simpl; [done|]. by destruct (f y). Qed.

(** The searches of a ring look at [th] last. *)
Lemma find_ring_last {A} `{EqDecision A} (f : A → bool) l x y :
  match find f (l ++ [x]) with Some r => r = x | None => True end →
  x ∉ l → y ∈ x :: l → f y = true → y = x.
Proof.
  induction l as [|a l IH]; simpl; intros Hf Hx Hy Hfy; [set_solver|].
  destruct (f a) eqn:Ha; [set_solver|].
  destruct (decide (y = a)) as [->|]; [congruence|]. apply IH; [done|set_solver..].
Qed.

(** What a process's threads promise the queue they are in: the members of
    the ring that are RUNNABLE or RUNNING are the members of queue [l]. *)
Record queued (s : kstate E) (Q : nat → list nat) (th : nat) (ths : list nat) (m l : nat) : Prop := {
  qd_queues : queues s Q;
  qd_pins : pins_ok s Q;
  qd_group : group s th ths m;
  qd_level : at_level s m l;
  qd_len : (length (Q l) ≤ NPROC)%nat;
  qd_mem : ∀ q, q ∈ th :: ths → in_mlfq (pr s q) = true ↔ q ∈ Q l;
  qd_pid : ∀ q, q ∈ Q l → p_pid (pr s q) = p_pid (pr s m) → q ∈ th :: ths;
  qd_only : ∀ q l', q ∈ th :: ths → (l' < QSIZE)%nat → q ∈ Q l' → l' = l
}.

Lemma queued_pin s Q th ths m l :
  queued s Q th ths m l →
  ∃ v, mq_pin (k_mlfq s) !! l = Some v ∧ pin_in Q l v ∧ ld_pin (Z.of_nat l) s = Ok (v, s).
Proof.
  intros H. destruct (qd_pins _ _ _ _ _ _ H) as [Hlen Hp]. destruct (qd_level _ _ _ _ _ _ H) as [Hl _].
  destruct (lookup_lt_is_Some_2 (mq_pin (k_mlfq s)) l) as [v Hv]; [lia|].
  exists v. split_and!; [done|by apply Hp|by apply ld_pin_run].
Qed.

(** Where the pin may go: to a RUNNABLE thread of the queue that satisfies
    [keep], and to the head of the queue only when there is none. *)
Definition advanced (s : kstate E) (Q : nat → list nat) (l : nat)
    (keep : nat → Prop) (v : option lnode) : Prop :=
  (∃ n, v = mlfq_node n ∧ n ∈ Q l ∧ p_state (pr s n) = RUNNABLE ∧ keep n) ∨
  (v = Some (NQueue l) ∧ ∀ n, n ∈ Q l → p_state (pr s n) = RUNNABLE → ¬ keep n).

Lemma advanced_pin_in s Q l keep v : advanced s Q l keep v → pin_in Q l v.
Proof. intros [(n & -> & Hn & _)|[-> _]]; [right; eauto|by left]. Qed.

(** [ready_proc] on a member of the group of [th]: the next process. *)
Lemma ready_proc_next s Q th ths m l n :
  queued s Q th ths m l → n ∈ th :: ths → in_mlfq (pr s n) = true →
  ∃ r, ready_proc n s = Ok (r, s) ∧
    match r with
    | Some np => np ∈ Q l ∧ p_state (pr s np) = RUNNABLE ∧ np ∉ th :: ths
    | None => ∀ np, np ∈ Q l → p_state (pr s np) = RUNNABLE → np ∈ th :: ths
    end.
Proof.
  intros H Hn Hin. destruct (qd_group _ _ _ _ _ _ H) as (Hr & Hlt & Hg).
  assert (n ∈ Q l) as HnQ by (by apply (qd_mem _ _ _ _ _ _ H)).
  destruct (list_elem_of_split _ _ HnQ) as (q1 & q2 & HQ).
  destruct (Hg n Hn) as [Hm Hpid].
  eexists. split.
  { eapply ready_proc_run; [apply H|done|apply H|done|done|apply H]. }
  destruct (find _ _) as [np|] eqn:Hf.
  - apply find_some_in in Hf as [Hnp Ho]. apply bool_decide_eq_true_1 in Ho as [Hp Hs].
    split_and!; [rewrite HQ; set_solver|done|].
    intros Hnp'. apply Hg in Hnp' as [_ ?]. congruence.
  - intros np Hnp Hs. pose proof Hnp as HnpQ. rewrite HQ in Hnp.
    destruct (decide (np = n)) as [->|]; [done|].
    apply find_none_in with (x := np) in Hf; [|set_solver].
    apply bool_decide_eq_false_1 in Hf. apply (qd_pid _ _ _ _ _ _ H); [done|].
    destruct (decide (p_pid (pr s np) = p_pid (pr s n))); [congruence|tauto].
Qed.

(** Some thread of a queued process is found by the two searches. *)
Lemma ready_or_running_queued s Q th ths m l :
  queued s Q th ths m l → (∃ q, q ∈ th :: ths ∧ q ∈ Q l) →
  ∃ n, ready_or_running_thread th s = Ok (Some n, s) ∧ n ∈ th :: ths ∧ in_mlfq (pr s n) = true.
Proof.
  intros H (q & Hq & HqQ). destruct (qd_group _ _ _ _ _ _ H) as (Hr & Hlt & Hg).
  rewrite (ready_or_running_thread_run s th ths Hr Hlt).
  apply (qd_mem _ _ _ _ _ _ H) in HqQ; [|done].
  destruct (find _ _) as [n|] eqn:Hf.
  - apply find_some_in in Hf as [Hn Hs]. exists n. split_and!; [done|set_solver|done].
  - apply find_none_in with (x := q) in Hf; [congruence|set_solver].
Qed.

Lemma pin_thread_found {s : kstate E} {Q th ths m l pin} :
  queued s Q th ths m l → mq_pin (k_mlfq s) !! l = Some pin → pin ∈ mlfq_node <$> (ths ++ [th]) →
  ∃ q, q ∈ th :: ths ∧ q ∈ Q l.
Proof.
  intros H Hv (q & -> & Hq)%list_elem_of_fmap.
  destruct (qd_pins _ _ _ _ _ _ H) as [_ Hp]. exists q. split; [set_solver|].
  destruct (Hp _ _ Hv) as [|(q' & ? & [= ->])]; done.
Qed.

(** The pin of level [l] moved from a process with threads [ps]. *)
Definition pin_moved (Q : nat → list nat) (l : nat) (ps : list nat) (keep : nat → Prop)
    (s s' : kstate E) : Prop :=
  ∃ pin, mq_pin (k_mlfq s) !! l = Some pin ∧
  ((pin ∉ mlfq_node <$> ps ∧ s' = s) ∨
   (pin ∈ mlfq_node <$> ps ∧ ∃ v, s' = put_pin l v s ∧ advanced s Q l keep v)).

(** [pin_next_thread]: nothing moves unless the pin is on the process of [th];
    then it goes on to a RUNNABLE thread, [th] itself only if [self]. *)
Lemma pin_next_thread_spec s Q th ths m l (self : bool) :
  queued s Q th ths m l →
  wp (pin_next_thread th self)
     (λ _, pin_moved Q l (ths ++ [th]) (λ n, n = th → self = true) s) s.
Proof.
  intros H. destruct (queued_pin _ _ _ _ _ _ H) as (pin & Hpin & Hin & Hld).
  destruct (qd_group _ _ _ _ _ _ H) as (Hr & Hlt & Hg). destruct (qd_level _ _ _ _ _ _ H) as [Hl Hlv].
  destruct (Hg th ltac:(set_solver)) as [Hm _]. unfold pin_next_thread.
  krun main_thread_run. do 2 kstep. rewrite Hlv. krun Hld.
  krun (is_proc_pinned_run s th ths pin). kstep; [|exists pin; split; [done|]].
  all: rename select (bool_decide _ = _) into Hp.
  2: { left. by apply bool_decide_eq_false_1 in Hp. }
  apply bool_decide_eq_true_1 in Hp.
  enough (∀ v s', s' = put_pin l v s → advanced s Q l (λ n, n = th → self = true) v →
            pin_moved Q l (ths ++ [th]) (λ n, n = th → self = true) s s') as Hdone.
  2: { intros v s' -> Hv. exists pin. split; [done|right; eauto]. }
  krun (ready_thread_run s th ths).
  destruct (match find _ _ with Some n => self || bool_decide (n ≠ th) | None => false end) eqn:Hc.
  - destruct (find _ _) as [r|] eqn:Hf; [|done].
    apply find_some_in in Hf as [Hrin Hrr]. apply bool_decide_eq_true_1 in Hrr.
    krun st_pin_run. eapply Hdone; [done|]. left. exists r. split_and!; [done| |done|].
    + apply (qd_mem _ _ _ _ _ _ H); [set_solver|]. by apply bool_decide_eq_true_2; left.
    + intros ->. destruct self; [done|]. by apply bool_decide_eq_true_1 in Hc.
  - destruct (ready_or_running_queued _ _ _ _ _ _ H (pin_thread_found H Hpin Hp)) as (n & Hn & Hnin & Hnm).
    krun Hn. destruct (ready_proc_next _ _ _ _ _ _ n H Hnin Hnm) as (r & Hrp & Hrs).
    krun Hrp. krun queue_at_run. krun st_pin_run. eapply Hdone; [done|]. destruct r as [np|].
    + destruct Hrs as (? & ? & ?). left. exists np. split_and!; [done..|]. intros ->. set_solver.
    + right. split; [done|]. intros np HnQ Hns Hk. specialize (Hrs _ HnQ Hns).
      assert (match find (λ q, is_ready (pr s q)) (ths ++ [th]) with
              | Some r => r = th ∧ self = false | None => True end) as Hfd.
      { destruct (find _ _) as [r|]; [|done]. apply orb_false_iff in Hc as [-> Hc].
        apply bool_decide_eq_false_1 in Hc. split; [|done]. by destruct (decide (r = th)). }
      assert (np = th) as ->.
      { eapply (find_ring_last (λ q, is_ready (pr s q)) ths).
        - destruct (find _ _); [apply Hfd|done].
        - apply thring_NoDup, NoDup_cons in Hr. tauto.
        - done.
        - by apply bool_decide_eq_true_2. }
      rewrite (Hk eq_refl) in *. destruct (find _ _) eqn:Hf; [by destruct Hfd|].
      apply find_none_in with (x := th) in Hf; [|set_solver].
      by apply bool_decide_eq_false_1 in Hf.
Qed.

(** [pin_next_proc]: as [pin_next_thread], but the process of [p] itself is
    taken only if [self] and no other process is ready. *)
Lemma pin_next_proc_spec s Q p ths m l (self : bool) :
  queued s Q p ths m l →
  wp (pin_next_proc p self)
     (λ _, pin_moved Q l (ths ++ [p]) (λ n, n ∈ p :: ths → self = true) s) s.
Proof.
  intros H. destruct (queued_pin _ _ _ _ _ _ H) as (pin & Hpin & Hin & Hld).
  destruct (qd_group _ _ _ _ _ _ H) as (Hr & Hlt & Hg). destruct (qd_level _ _ _ _ _ _ H) as [Hl Hlv].
  destruct (Hg p ltac:(set_solver)) as [Hm _]. unfold pin_next_proc.
  krun main_thread_run. do 2 kstep. rewrite Hlv. krun Hld.
  krun (is_proc_pinned_run s p ths pin). kstep; [|exists pin; split; [done|]].
  all: rename select (bool_decide _ = _) into Hp.
  2: { left. by apply bool_decide_eq_false_1 in Hp. }
  apply bool_decide_eq_true_1 in Hp.
  enough (∀ v s', s' = put_pin l v s → advanced s Q l (λ n, n ∈ p :: ths → self = true) v →
            pin_moved Q l (ths ++ [p]) (λ n, n ∈ p :: ths → self = true) s s') as Hdone.
  2: { intros v s' -> Hv. exists pin. split; [done|right; eauto]. }
  destruct (ready_or_running_queued _ _ _ _ _ _ H (pin_thread_found H Hpin Hp)) as (n & Hn & Hnin & Hnm).
  krun Hn. destruct (ready_proc_next _ _ _ _ _ _ n H Hnin Hnm) as (r & Hrp & Hrs).
  krun Hrp. krun queue_at_run. destruct r as [np|].
  { krun st_pin_run. destruct Hrs as (? & ? & ?). eapply Hdone; [done|].
    left. exists np. split_and!; done. }
  destruct self.
  - krun (ready_thread_run s p ths). krun st_pin_run. eapply Hdone; [done|].
    destruct (find _ _) as [r|] eqn:Hf.
    + apply find_some_in in Hf as [Hrin Hrr]. apply bool_decide_eq_true_1 in Hrr.
      left. exists r. split_and!; [done| |done|done].
      apply (qd_mem _ _ _ _ _ _ H); [set_solver|]. by apply bool_decide_eq_true_2; left.
    + right. split; [done|]. intros np HnQ Hns _.
      apply find_none_in with (x := np) in Hf; [by apply bool_decide_eq_false_1 in Hf|].
      specialize (Hrs _ HnQ Hns). set_solver.
  - krun st_pin_run. eapply Hdone; [done|]. right. split; [done|].
    intros np HnQ Hns Hk. by specialize (Hk (Hrs _ HnQ Hns)).
Qed.

(** ** Changing one queue *)

Definition setq (Q : nat → list nat) (l : nat) (L : list nat) : nat → list nat :=
  λ l', if decide (l' = l) then L else Q l'.

Lemma setq_eq Q l L : setq Q l L l = L.
Proof. unfold setq. by rewrite decide_True. Qed.
Lemma setq_ne Q l l' L : l' ≠ l → setq Q l L l' = Q l'.
Proof. intros. unfold setq. by rewrite decide_False. Qed.

Lemma queues_upd s s' Q l L ns :
  queues s Q → (l < QSIZE)%nat →
  dlist (links s') (NQueue l) (qnodes L) → lframe ns (links s) (links s') →
  (∀ x, x ∈ ns → x = NQueue l ∨ ∃ q, x = NProc Fmlfq q ∧ (q ∈ Q l ∨ q ∈ L)) →
  (∀ q l', q ∈ L → (l' < QSIZE)%nat → l' ≠ l → q ∉ Q l') →
  queues s' (setq Q l L).
Proof.
  intros [Hd Hx] Hl HL Hf Hns HLx. split.
  - intros l' Hl'. destruct (decide (l' = l)) as [->|Hne]; [by rewrite setq_eq|].
    rewrite setq_ne by done. eapply dlist_frame; [done| |by apply Hd].
    intros x Hx' [->|(q & -> & Hq)]%Hns.
    + apply elem_of_cons in Hx' as [[= ]|(y & ? & ?)%list_elem_of_fmap]; congruence.
    + apply elem_of_cons in Hx' as [[= ]|(y & [= ->] & Hy)%list_elem_of_fmap].
      destruct Hq as [Hq|Hq]; [|by eapply HLx in Hq; eauto].
      by specialize (Hx _ _ _ Hl Hl' Hq Hy).
  - intros l1 l2 q H1 H2. destruct (decide (l1 = l)) as [->|], (decide (l2 = l)) as [->|];
      rewrite ?setq_eq, ?setq_ne by done; [done| | |by apply Hx].
    + intros Ha Hb. by destruct (HLx q l2).
    + intros Ha Hb. by destruct (HLx q l1).
Qed.

Lemma pins_ok_setq s s' Q l L :
  pins_ok s Q → mq_pin (k_mlfq s') = mq_pin (k_mlfq s) →
  (∀ q, mq_pin (k_mlfq s) !! l = Some (mlfq_node q) → q ∈ Q l → q ∈ L) →
  pins_ok s' (setq Q l L).
Proof.
  intros [Hlen Hp] He Hk. split; [congruence|]. intros l' v. rewrite He. intros Hv.
  destruct (Hp _ _ Hv) as [->|(q & Hq & ->)]; [by left|]. right. exists q. split; [|done].
  destruct (decide (l' = l)) as [->|]; [rewrite setq_eq; eauto|by rewrite setq_ne].
Qed.

(** Only the links of [ns] and the pins may have changed. *)
Definition mlfq_frame (ns : list lnode) (s s' : kstate E) : Prop :=
  lframe ns (links s) (links s') ∧
  s' = set_k_mlfq (set_mq_pin (mq_pin (k_mlfq s')) (k_mlfq s)) (set_links (links s') s).

Lemma mlfq_frame_links ns s s' : mlfq_frame ns s s' → lframe ns (links s) (links s').
Proof. by intros [? _]. Qed.

Lemma mlfq_frame_procs ns s s' : mlfq_frame ns s s' → procs s' = procs s.
Proof. by intros [_ ->]. Qed.

Lemma mlfq_frame_pr ns s s' q : mlfq_frame ns s s' → pr s' q = pr s q.
Proof. intros H%mlfq_frame_procs. unfold pr. by rewrite H. Qed.

Lemma mlfq_frame_trans ns s1 s2 s3 : mlfq_frame ns s1 s2 → mlfq_frame ns s2 s3 → mlfq_frame ns s1 s3.
Proof.
  intros [H1 ->] [H2 ->]. split; [|done]. by eapply lframe_trans.
Qed.

Lemma pin_moved_frame Q l ps keep s s' : pin_moved Q l ps keep s s' → mlfq_frame [] s s'.
Proof.
  intros (pin & _ & [[_ ->]|(_ & v & -> & _)]); split; try done.
  by destruct s as [? ? [] ? ? ? ? ? ?].
Qed.

Lemma pin_moved_queues Q l ps keep s s' : pin_moved Q l ps keep s s' → queues s Q → queues s' Q.
Proof. by intros (pin & _ & [[_ ->]|(_ & v & -> & _)]). Qed.

Lemma pin_moved_pins Q l ps keep s s' :
  (l < QSIZE)%nat → pin_moved Q l ps keep s s' → pins_ok s Q → pins_ok s' Q.
Proof.
  intros Hl (pin & _ & [[_ ->]|(_ & v & -> & Hv)]) Hp; [done|].
  apply put_pin_ok; [done..|]. by eapply advanced_pin_in.
Qed.

(** Once the pin moved off, it is not on a thread that was not to be kept. *)
Lemma pin_moved_off Q l ps keep s s' q :
  pins_ok s Q → (l < QSIZE)%nat → pin_moved Q l ps keep s s' → q ∈ ps → ¬ keep q →
  mq_pin (k_mlfq s') !! l ≠ Some (mlfq_node q).
Proof.
  intros [Hlen _] Hl (pin & Hpin & [[Hn ->]|(_ & v & -> & Hv)]) Hq Hk.
  - rewrite Hpin. intros [= ->]. apply Hn, list_elem_of_fmap. eauto.
  - simpl. rewrite list_lookup_insert_eq by lia. intros [= ->].
    destruct Hv as [(n & [= ->] & _ & _ & ?)|[[=] _]]. done.
Qed.

(** ** Threads of one process stay together

    [gathered f L]: two members of [L] with the same [f] have only members
    with that [f] between them. *)
Definition gathered (f : nat → Z) (L : list nat) : Prop :=
  ∀ i j k a b c, (i ≤ j ≤ k)%nat → L !! i = Some a → L !! j = Some b → L !! k = Some c →
  f a = f c → f b = f a.

Lemma gathered_embed f L L' (g : nat → nat) :
  (∀ i j, (i ≤ j)%nat → (g i ≤ g j)%nat) →
  (∀ i x, L' !! i = Some x → ∃ y, L !! g i = Some y ∧ f y = f x) →
  gathered f L → gathered f L'.
Proof.
  intros Hg He HL i j k a b c Hij Ha Hb Hc Hf.
  destruct (He _ _ Ha) as (a' & ? & Ea), (He _ _ Hb) as (b' & ? & Eb), (He _ _ Hc) as (c' & ? & Ec).
  rewrite <-Ea, <-Eb. eapply (HL (g i) (g j) (g k)); [|done..|congruence]. split; apply Hg; lia.
Qed.

Lemma gathered_insert f q1 n x q2 :
  f x = f n → gathered f (q1 ++ n :: q2) → gathered f (q1 ++ n :: x :: q2).
Proof.
  intros Hx. apply (gathered_embed _ _ _ (λ i, if decide (i ≤ length q1)%nat then i else (i - 1)%nat)).
  - intros i j Hij. repeat case_decide; lia.
  - intros i y Hy. case_decide as Hi.
    + exists y. split; [|done]. destruct (decide (i = length q1)) as [->|].
      * rewrite list_lookup_middle in Hy |- * by done. done.
      * rewrite lookup_app_l in Hy |- * by lia. done.
    + destruct (decide (i = S (length q1))) as [->|].
      * rewrite lookup_app_r in Hy by lia. replace (S (length q1) - length q1)%nat with 1%nat in Hy by lia.
        simplify_eq/=. exists n. rewrite list_lookup_middle by lia. done.
      * rewrite lookup_app_r in Hy by lia. rewrite lookup_app_r by lia.
        replace (i - length q1)%nat with (S (S (i - length q1 - 2))) in Hy by lia.
        replace (i - 1 - length q1)%nat with (S (i - length q1 - 2)) by lia. eauto.
Qed.

Lemma gathered_delete f q1 x q2 : gathered f (q1 ++ x :: q2) → gathered f (q1 ++ q2).
Proof.
  apply (gathered_embed _ _ _ (λ i, if decide (i < length q1)%nat then i else S i)).
  - intros i j Hij. repeat case_decide; lia.
  - intros i y Hy. exists y. split; [|done]. case_decide.
    + rewrite lookup_app_l in Hy |- * by lia. done.
    + rewrite lookup_app_r in Hy |- * by lia. by replace (S i - length q1)%nat with (S (i - length q1)) by lia.
Qed.

Lemma gathered_app f L1 L2 :
  gathered f L1 → gathered f L2 → (∀ x y, x ∈ L1 → y ∈ L2 → f x ≠ f y) → gathered f (L1 ++ L2).
Proof.
  intros H1 H2 Hd i j k a b c Hij Ha Hb Hc Hf.
  rewrite lookup_app_Some in Ha, Hb, Hc.
  destruct Ha as [Ha|[? Ha]], Hc as [Hc|[? Hc]].
  - pose proof (lookup_lt_Some _ _ _ Hc). destruct Hb as [Hb|[? Hb]]; [by eapply (H1 i j k)|lia].
  - destruct (Hd a c); [by eapply list_elem_of_lookup_2..|done].
  - pose proof (lookup_lt_Some _ _ _ Hc). lia.
  - destruct Hb as [Hb|[? Hb]]; [pose proof (lookup_lt_Some _ _ _ Hb); lia|].
    eapply (H2 (i - length L1)%nat (j - length L1)%nat (k - length L1)%nat); [lia|done..].
Qed.

Lemma gathered_single f x : gathered f [x].
Proof.
  intros [|i] [|j] [|k] a b c Hij Ha Hb Hc Hf; simplify_eq/=; done.
Qed.

(** ** [dequeue_thread] *)

(** [list_del(&th->mlfq)] takes [th] out of its queue. *)
Lemma queue_unlink s Q l q1 th q2 :
  queues s Q → pins_ok s Q → (l < QSIZE)%nat → Q l = q1 ++ th :: q2 →
  mq_pin (k_mlfq s) !! l ≠ Some (mlfq_node th) →
  wp (on_links (list_del (mlfq_node th))) (λ _ s',
    queues s' (setq Q l (q1 ++ q2)) ∧ pins_ok s' (setq Q l (q1 ++ q2)) ∧
    mlfq_frame (NQueue l :: qnodes (Q l)) s s' ∧ mq_pin (k_mlfq s') = mq_pin (k_mlfq s) ∧
    lh (links s') (NProc Fmlfq th) = mkLH None None) s.
Proof.
  intros [Hd1 Hx1] Hps1 Hl HQ Hoff. apply wp_on_links. pose proof (Hd1 l Hl) as Hdl.
  rewrite HQ in Hdl. unfold qnodes in Hdl. rewrite fmap_app, fmap_cons in Hdl.
  wcall (list_del_spec (links s)); [exact Hdl|]. intros [] h (Hd' & Hn & Hp & Hf).
  assert (lframe (NQueue l :: qnodes (Q l)) (links s) h) as Hfr.
  { by rewrite HQ; unfold qnodes; rewrite fmap_app, fmap_cons. }
  split_and!; [..|done|].
  - eapply (queues_upd s); [by split|done| |exact Hfr| |].
    + unfold qnodes. by rewrite fmap_app.
    + intros x [->|(q & -> & Hq)%list_elem_of_fmap]%elem_of_cons; [by left|]. right; eauto.
    + intros q l' Hq Hl' Hne Hq'. apply Hne. symmetry. eapply (Hx1 l l' q); [done..| |done].
      rewrite HQ. set_solver.
  - eapply pins_ok_setq; [exact Hps1|done|]. intros q Hv HqQ. rewrite HQ in HqQ.
    assert (q ≠ th) by congruence. set_solver.
  - split; [exact Hfr|by destruct s as [? ? [] ? ? ? ? ? ?]].
  - change (lh h (NProc Fmlfq th) = mkLH None None). unfold nxt, prv in *.
    destruct (lh h (NProc Fmlfq th)); simpl in *; congruence.
Qed.

Lemma mlfq_frame_weaken ns ns' s s' : ns ⊆ ns' → mlfq_frame ns s s' → mlfq_frame ns' s s'.
Proof. intros Hs [Hf He]. split; [|done]. by eapply lframe_weaken. Qed.

Lemma dequeue_thread_spec s Q th ths m l q1 q2 :
  queued s Q th ths m l → Q l = q1 ++ th :: q2 →
  wp (dequeue_thread th) (λ _ s',
    queues s' (setq Q l (q1 ++ q2)) ∧ pins_ok s' (setq Q l (q1 ++ q2)) ∧
    mlfq_frame (NQueue l :: qnodes (Q l)) s s' ∧
    lh (links s') (NProc Fmlfq th) = mkLH None None) s.
Proof.
  intros H HQ. unfold dequeue_thread. apply wp_bind.
  wcall pin_next_thread_spec; [done|]. intros [] s1 Hpm.
  pose proof (qd_pins _ _ _ _ _ _ H) as Hps. destruct (qd_level _ _ _ _ _ _ H) as [Hl _].
  wcall queue_unlink; [by eapply pin_moved_queues, H|by eapply pin_moved_pins|done|done| |].
  { eapply (pin_moved_off _ _ _ _ _ _ th); [exact Hps|done|exact Hpm|set_solver|].
    intros Hk. by specialize (Hk eq_refl). }
  intros [] s2 (Hq2 & Hp2 & Hf2 & _ & Hlh). split_and!; [done..| |done].
  eapply mlfq_frame_trans; [|exact Hf2].
  eapply mlfq_frame_weaken; [|by eapply pin_moved_frame]. set_solver.
Qed.

(** ** [enqueue_thread] *)

(** A thread that is in no queue, while its siblings are in queue [l] exactly
    when they are RUNNABLE or RUNNING. *)
Record queueable (s : kstate E) (Q : nat → list nat) (th : nat) (ths : list nat) (m l : nat) : Prop := {
  qb_queues : queues s Q;
  qb_pins : pins_ok s Q;
  qb_group : group s th ths m;
  qb_level : at_level s m l;
  qb_out : ∀ l', (l' < QSIZE)%nat → th ∉ Q l';
  qb_mem : ∀ q, q ∈ ths → in_mlfq (pr s q) = true ↔ q ∈ Q l
}.

(** Where a thread goes: behind the first RUNNABLE or RUNNING sibling, and to
    the end of the queue when it has none. *)
Definition enqueued (s : kstate E) (th : nat) (ths L L' : list nat) : Prop :=
  match find (λ q, in_mlfq (pr s q)) ths with
  | Some n => ∃ q1 q2, L = q1 ++ n :: q2 ∧ L' = q1 ++ n :: th :: q2
  | None => L' = L ++ [th]
  end.

Lemma enqueued_perm s th ths L L' : enqueued s th ths L L' → L' ≡ₚ th :: L.
Proof.
  unfold enqueued. destruct (find _ _) as [n|].
  - intros (q1 & q2 & -> & ->). assert (q1 ++ n :: th :: q2 = (q1 ++ [n]) ++ th :: q2) as -> by by rewrite <-app_assoc.
    rewrite <-Permutation_middle, <-app_assoc. done.
  - intros ->. by rewrite Permutation_app_comm.
Qed.

(** The links after a thread was added to queue [l]. *)
Lemma queue_grow s h Q l L L' th :
  queues s Q → pins_ok s Q → (l < QSIZE)%nat → Q l = L → L' ≡ₚ th :: L →
  (∀ l', (l' < QSIZE)%nat → th ∉ Q l') →
  dlist h (NQueue l) (qnodes L') → lframe (NProc Fmlfq th :: NQueue l :: qnodes L) (links s) h →
  queues (set_links h s) (setq Q l L') ∧ pins_ok (set_links h s) (setq Q l L') ∧
  mlfq_frame (NProc Fmlfq th :: NQueue l :: qnodes L) s (set_links h s).
Proof.
  intros Hq Hps Hl HQ HL Hout Hd Hf. split_and!.
  - eapply queues_upd; [exact Hq|done|exact Hd|exact Hf| |].
    + intros x Hx. apply elem_of_cons in Hx as [->|Hx].
      { right. exists th. split; [done|]. right. rewrite HL. by left. }
      apply elem_of_cons in Hx as [->|(q & -> & ?)%list_elem_of_fmap]; [by left|].
      right. exists q. rewrite HQ. eauto.
    + intros q l' Hq' Hl' Hne. rewrite HL in Hq'. apply elem_of_cons in Hq' as [->|Hq']; [by apply Hout|].
      intros Hq''. apply Hne. destruct Hq as [_ Hx]. by eapply (Hx l' l q); rewrite ?HQ.
  - eapply pins_ok_setq; [exact Hps|done|]. intros q _ HqQ. rewrite HL, <-HQ. by right.
  - split; [exact Hf|]. by destruct s as [? ? [] ? ? ? ? ? ?].
Qed.

(** [list_add_after(&x->mlfq, &p->mlfq)] when [x] is in no queue. *)
Lemma queue_link_after s Q l q1 p q2 x :
  queues s Q → pins_ok s Q → (l < QSIZE)%nat → Q l = q1 ++ p :: q2 →
  (∀ l', (l' < QSIZE)%nat → x ∉ Q l') →
  wp (on_links (list_add_after (mlfq_node x) (mlfq_node p))) (λ _ s',
    queues s' (setq Q l (q1 ++ p :: x :: q2)) ∧ pins_ok s' (setq Q l (q1 ++ p :: x :: q2)) ∧
    mlfq_frame (NProc Fmlfq x :: NQueue l :: qnodes (Q l)) s s') s.
Proof.
  intros Hqs Hps Hl HQ Hout. apply wp_on_links. pose proof (proj1 Hqs l Hl) as Hdl.
  assert (NProc Fmlfq x ∉ NQueue l :: qnodes (Q l)) as Hnew.
  { intros [?|(q & [= <-] & Hq)%list_elem_of_fmap]%elem_of_cons; [done|]. by eapply Hout. }
  rewrite HQ in Hdl, Hnew |- *. unfold qnodes in Hdl, Hnew |- *.
  rewrite fmap_app, fmap_cons in Hdl, Hnew |- *.
  wcall (list_add_after_spec (links s)); [exact Hdl|exact Hnew|]. intros [] h [Hd' Hf'].
  replace ((NProc Fmlfq <$> q1) ++ NProc Fmlfq p :: (NProc Fmlfq <$> q2))
    with (qnodes (q1 ++ p :: q2)) in * by (unfold qnodes; by rewrite fmap_app, fmap_cons).
  apply queue_grow; try done.
  - assert (q1 ++ p :: x :: q2 = (q1 ++ [p]) ++ x :: q2) as -> by by rewrite <-app_assoc.
    by rewrite <-Permutation_middle, <-app_assoc.
  - unfold qnodes. by rewrite fmap_app, !fmap_cons.
Qed.

Lemma queue_link_tail s Q l x :
  queues s Q → pins_ok s Q → (l < QSIZE)%nat → (∀ l', (l' < QSIZE)%nat → x ∉ Q l') →
  wp (on_links (list_add_tail (mlfq_node x) (Some (NQueue l)))) (λ _ s',
    queues s' (setq Q l (Q l ++ [x])) ∧ pins_ok s' (setq Q l (Q l ++ [x])) ∧
    mlfq_frame (NProc Fmlfq x :: NQueue l :: qnodes (Q l)) s s') s.
Proof.
  intros Hqs Hps Hl Hout. apply wp_on_links. pose proof (proj1 Hqs l Hl) as Hdl.
  assert (NProc Fmlfq x ∉ NQueue l :: qnodes (Q l)) as Hnew.
  { intros [?|(q & [= <-] & Hq)%list_elem_of_fmap]%elem_of_cons; [done|]. by eapply Hout. }
  wcall (list_add_tail_spec (links s)); [exact Hdl|exact Hnew|]. intros [] h [Hd' Hf'].
  apply queue_grow; try done.
  - by rewrite Permutation_app_comm.
  - unfold qnodes. by rewrite fmap_app.
Qed.

Lemma enqueue_thread_spec s Q th ths m l :
  queueable s Q th ths m l → p_state (pr s th) = RUNNABLE →
  wp (enqueue_thread th) (λ _ s', ∃ L,
    enqueued s th ths (Q l) L ∧
    queues s' (setq Q l L) ∧ pins_ok s' (setq Q l L) ∧
    mlfq_frame (NProc Fmlfq th :: NQueue l :: qnodes (Q l)) s s') s.
Proof.
  intros H Hst. destruct (qb_group _ _ _ _ _ _ H) as (Hr & Hlt & Hg).
  destruct (qb_level _ _ _ _ _ _ H) as [Hl Hlv]. destruct (Hg th ltac:(set_solver)) as [Hm _].
  unfold enqueue_thread. do 2 kstep. rewrite decide_False by (rewrite Hst; auto).
  krun (ready_or_running_thread_run s th ths). rewrite find_snoc. unfold enqueued.
  destruct (find _ ths) as [n|] eqn:Hf.
  - apply find_some_in in Hf as [Hn Hin]. rewrite decide_False; cycle 1.
    { intros [= ->]. apply thring_NoDup, NoDup_cons in Hr. tauto. }
    kstep. simpl deref. kstep. apply (qb_mem _ _ _ _ _ _ H) in Hin; [|done].
    destruct (list_elem_of_split _ _ Hin) as (q1 & q2 & HQ).
    wcall queue_link_after; [apply H|apply H|done|exact HQ|apply H|].
    intros [] s' Hs'. exists (q1 ++ n :: th :: q2). split; [eauto|done].
  - assert (in_mlfq (pr s th) = true) as -> by (apply bool_decide_eq_true_2; by left).
    rewrite decide_True by done. krun main_thread_run. do 2 kstep. rewrite Hlv. krun queue_at_run.
    wcall queue_link_tail; [apply H|apply H|done|apply H|].
    intros [] s' Hs'. exists (Q l ++ [th]). done.
Qed.

(** Enqueuing keeps the threads of every process together. *)
Lemma enqueued_gathered s Q th ths m l L :
  queueable s Q th ths m l →
  (∀ q, q ∈ Q l → p_pid (pr s q) = p_pid (pr s th) → q ∈ ths) →
  gathered (λ q, p_pid (pr s q)) (Q l) → enqueued s th ths (Q l) L →
  gathered (λ q, p_pid (pr s q)) L.
Proof.
  intros H Hpid HG. unfold enqueued. destruct (find _ _) as [n|] eqn:Hf.
  - apply find_some_in in Hf as [Hn _]. intros (q1 & q2 & HQ & ->). rewrite HQ in HG.
    apply gathered_insert; [|done]. destruct (qb_group _ _ _ _ _ _ H) as (_ & _ & Hg).
    destruct (Hg n) as [_ ->]; [set_solver|]. destruct (Hg th) as [_ ->]; [set_solver|done].
  - intros ->. apply gathered_app; [done|apply gathered_single|].
    intros x y Hx ->%list_elem_of_singleton Hxy. pose proof (Hpid _ Hx Hxy) as Hxt.
    apply find_none_in with (x := x) in Hf; [|done].
    apply (qb_mem _ _ _ _ _ _ H) in Hx; [congruence|done].
Qed.

(** ** [dequeue_proc] and [enqueue_proc] *)

Lemma queues_ext s Q Q' : (∀ l, Q l = Q' l) → queues s Q → queues s Q'.
Proof.
  intros He [Hd Hx]. split.
  - intros l Hl. rewrite <-He. by apply Hd.
  - intros l l' q Hl Hl'. rewrite <-!He. by apply Hx.
Qed.

Lemma pins_ok_ext s Q Q' : (∀ l, Q l = Q' l) → pins_ok s Q → pins_ok s Q'.
Proof.
  intros He [Hl Hp]. split; [done|]. intros l v Hv. unfold pin_in. rewrite <-He. by apply Hp.
Qed.

Lemma setq_setq Q l L L' l' : setq (setq Q l L) l L' l' = setq Q l L' l'.
Proof. unfold setq. by case_decide. Qed.

Lemma setq_id Q l l' : Q l' = setq Q l (Q l) l'.
Proof. unfold setq. by case_decide; subst. Qed.

Lemma thring_mlfq_frame ns s s' p ths :
  mlfq_frame ns s s' → (∀ x, x ∈ ns → ∀ q, x ≠ NProc Fthgroup q) →
  thring s p ths → thring s' p ths.
Proof.
  intros [Hf _] Hns. apply thring_links. intros q. apply Hf. intros Hq. by eapply Hns.
Qed.

Lemma queue_not_thgroup l L x : x ∈ NQueue l :: qnodes L → ∀ q, x ≠ NProc Fthgroup q.
Proof. intros [->|(y & -> & _)%list_elem_of_fmap]%elem_of_cons; done. Qed.

(** Members of [L] that are not in [dn]. *)
Definition without (dn L : list nat) : list nat := filter (λ q, q ∉ dn) L.

Lemma without_nil L : without [] L = L.
Proof. unfold without. apply filter_all. intros x _. apply not_elem_of_nil. Qed.

Lemma without_step_out dn x L : x ∉ L → without (dn ++ [x]) L = without dn L.
Proof.
  intros Hx. unfold without. apply filter_ext_in. intros y Hy.
  assert (y ≠ x) by set_solver. set_solver.
Qed.

Lemma without_step_in dn x L :
  NoDup L → x ∈ L → x ∉ dn →
  ∃ q1 q2, without dn L = q1 ++ x :: q2 ∧ without (dn ++ [x]) L = q1 ++ q2.
Proof.
  intros Hnd (a & b & ->)%list_elem_of_split Hx. apply NoDup_mid_notin in Hnd as [Ha Hb].
  exists (without dn a), (without dn b). unfold without. rewrite !filter_app, !filter_cons.
  rewrite decide_True by done. rewrite decide_False by set_solver. split; [done|].
  f_equal; by apply without_step_out.
Qed.

Lemma without_sub dn L q : q ∈ without dn L ↔ q ∈ L ∧ q ∉ dn.
Proof. unfold without. rewrite list_elem_of_filter. tauto. Qed.

Lemma dequeue_proc_spec s Q p ths m l :
  queued s Q p ths m l →
  wp (dequeue_proc p) (λ _ s',
    let Q' := setq Q l (without (ths ++ [p]) (Q l)) in
    queues s' Q' ∧ pins_ok s' Q' ∧ mlfq_frame (NQueue l :: qnodes (Q l)) s s') s.
Proof.
  intros H. unfold dequeue_proc. apply wp_bind.
  wcall pin_next_proc_spec; [done|]. intros [] s1 Hpm.
  pose proof (qd_pins _ _ _ _ _ _ H) as Hps. destruct (qd_level _ _ _ _ _ _ H) as [Hl _].
  destruct (qd_group _ _ _ _ _ _ H) as (Hr & Hlt & Hg).
  pose proof (NoDup_queue _ _ _ (qd_queues _ _ _ _ _ _ H) Hl) as Hnd.
  assert (mlfq_frame (NQueue l :: qnodes (Q l)) s s1) as Hf1.
  { eapply mlfq_frame_weaken; [|by eapply pin_moved_frame]. set_solver. }
  assert (thring s1 p ths) as Hr1 by (eapply thring_mlfq_frame; [exact Hf1|apply queue_not_thgroup|done]).
  assert (∀ q, q ∈ ths ++ [p] → mq_pin (k_mlfq s1) !! l ≠ Some (mlfq_node q)) as Hoff.
  { intros q Hq. eapply pin_moved_off; [exact Hps|done|exact Hpm|done|].
    intros Hk. assert (q ∈ p :: ths) as Hq' by set_solver. by specialize (Hk Hq'). }
  apply wp_bind. wcall (threads_apply0_all s1 p ths __routine_dequeue_proc (λ dn s',
    queues s' (setq Q l (without dn (Q l))) ∧ pins_ok s' (setq Q l (without dn (Q l))) ∧
    mlfq_frame (NQueue l :: qnodes (Q l)) s1 s' ∧ mq_pin (k_mlfq s') = mq_pin (k_mlfq s1))).
  - done.
  - done.
  - rewrite without_nil. split_and!; [..|done].
    + eapply queues_ext; [apply setq_id|]. by eapply pin_moved_queues, H.
    + eapply pins_ok_ext; [apply setq_id|]. by eapply pin_moved_pins.
    + split; [apply lframe_refl|]. by destruct s1 as [? ? [] ? ? ? ? ? ?].
  - intros dn x rest s2 Hsp Hr2 (Hq2 & Hp2 & Hf2 & Hpin2). unfold __routine_dequeue_proc. do 2 kstep.
    assert (x ∈ p :: ths) as Hx.
    { assert (x ∈ ths ++ [p]) by (rewrite Hsp; set_solver). set_solver. }
    assert (x ∉ dn) as Hxd.
    { apply thring_NoDup_visit in Hr1. rewrite Hsp in Hr1. by apply NoDup_mid_notin in Hr1 as [? _]. }
    rewrite (mlfq_frame_pr _ _ _ _ Hf2), (mlfq_frame_pr _ _ _ _ Hf1).
    pose proof (qd_mem _ _ _ _ _ _ H x Hx) as Hmem. unfold in_mlfq in Hmem.
    apply wp_bind. destruct (decide (p_state (pr s x) = RUNNABLE ∨ p_state (pr s x) = RUNNING)) as [Hst|Hst].
    + destruct Hmem as [Hmem _]. specialize (Hmem (bool_decide_eq_true_2 _ Hst)).
      destruct (without_step_in dn x (Q l) Hnd Hmem Hxd) as (q1 & q2 & HL & HL').
      wcall (queue_unlink s2 (setq Q l (without dn (Q l))) l q1 x q2).
      * done.
      * done.
      * done.
      * by rewrite setq_eq.
      * rewrite Hpin2. apply Hoff. set_solver.
      * intros [] s3 (Hq3 & Hp3 & Hf3 & Hpin3 & _). apply wp_ret.
        rewrite setq_eq in Hf3.
        assert (mlfq_frame (NQueue l :: qnodes (Q l)) s2 s3) as Hf3'.
        { eapply mlfq_frame_weaken; [|exact Hf3]. intros y. rewrite !elem_of_cons.
          intros [->|(z & -> & Hz)%list_elem_of_fmap]; [by left|right].
          apply list_elem_of_fmap. exists z. by apply without_sub in Hz as [? _]. }
        rewrite HL'. split_and!; [done| | | | |congruence].
        -- eapply thring_mlfq_frame; [exact Hf3'|apply queue_not_thgroup|done].
        -- by eapply queues_ext; [apply setq_setq|].
        -- by eapply pins_ok_ext; [apply setq_setq|].
        -- by eapply mlfq_frame_trans.
    + apply wp_ret, wp_ret. split_and!; try done.
      all: rewrite without_step_out; [done|].
      all: intros HxQ; eapply Hst, bool_decide_eq_true_1; by apply Hmem.
  - intros r s2 (_ & _ & Hq2 & Hp2 & Hf2 & _). apply wp_ret. split_and!; [done..|].
    by eapply mlfq_frame_trans.
Qed.

(** A process none of whose threads is queued. *)
Record unqueued (s : kstate E) (Q : nat → list nat) (p : nat) (ths : list nat) (m l : nat) : Prop := {
  uq_queues : queues s Q;
  uq_pins : pins_ok s Q;
  uq_group : group s p ths m;
  uq_level : at_level s m l;
  uq_out : ∀ q l', q ∈ p :: ths → (l' < QSIZE)%nat → q ∉ Q l'
}.

(** The RUNNABLE and RUNNING members of [ths], last visited first. *)
Definition others_of (s : kstate E) (ths : list nat) : list nat :=
  reverse (filter (λ q, in_mlfq (pr s q) = true) ths).

(** A process of which [dn] was looked at: [p] and its RUNNABLE or RUNNING
    threads among [dn] stand at the end of the queue. *)
Definition partly_queued (s : kstate E) (Q : nat → list nat) (p l : nat) (dn : list nat) :
    nat → list nat :=
  setq Q l (Q l ++ p :: others_of s (filter (λ q, q ≠ p) dn)).

Definition mlfq_nodes (l : nat) (qs : list nat) : list lnode := NQueue l :: qnodes qs.

Lemma others_of_snoc s dn x :
  others_of s (dn ++ [x])
  = if in_mlfq (pr s x) then x :: others_of s dn else others_of s dn.
Proof.
  unfold others_of. rewrite filter_app, filter_cons, filter_nil. destruct (in_mlfq (pr s x)).
  - by rewrite decide_True, reverse_app.
  - by rewrite decide_False, app_nil_r.
Qed.

Lemma others_of_sub s dn q : q ∈ others_of s dn → q ∈ dn.
Proof. unfold others_of. rewrite elem_of_reverse, list_elem_of_filter. tauto. Qed.

Lemma enqueue_proc_spec s Q p ths m l :
  unqueued s Q p ths m l → in_mlfq (pr s p) = true →
  wp (enqueue_proc p) (λ _ s',
    let Q' := setq Q l (Q l ++ p :: others_of s ths) in
    queues s' Q' ∧ pins_ok s' Q' ∧ mlfq_frame (mlfq_nodes l (Q l ++ p :: ths)) s s') s.
Proof.
  intros H Hin. destruct (uq_group _ _ _ _ _ _ H) as (Hr & Hlt & Hg).
  destruct (uq_level _ _ _ _ _ _ H) as [Hl Hlv]. pose proof (uq_out _ _ _ _ _ _ H) as Hout.
  destruct (Hg p ltac:(set_solver)) as [Hm _]. unfold enqueue_proc. do 2 kstep.
  pose proof (bool_decide_eq_true_1 _ Hin) as Hst. rewrite decide_False by tauto.
  krun main_thread_run. do 2 kstep. rewrite Hlv. krun queue_at_run. apply wp_bind.
  wcall queue_link_tail; [apply H|apply H|done|intros; apply Hout; set_solver|].
  intros [] s1 (Hq1 & Hp1 & Hf1). set (ns := mlfq_nodes l (Q l ++ p :: ths)).
  assert (mlfq_frame ns s s1) as Hf1'.
  { eapply mlfq_frame_weaken; [|exact Hf1]. unfold ns, mlfq_nodes, qnodes. set_solver. }
  assert (∀ y, y ∈ ns → ∀ q, y ≠ NProc Fthgroup q) as Hns by apply queue_not_thgroup.
  apply wp_bind. rewrite threads_apply1_apply0.
  wcall (threads_apply0_all s1 p ths (λ th, __routine_enqueue_remain th p) (λ dn s',
    queues s' (partly_queued s Q p l dn) ∧ pins_ok s' (partly_queued s Q p l dn) ∧
    mlfq_frame ns s s')).
  - by eapply thring_mlfq_frame.
  - done.
  - done.
  - intros dn x rest s2 Hsp Hr2 (Hq2 & Hp2 & Hf2). unfold __routine_enqueue_remain. do 2 kstep.
    rewrite (mlfq_frame_pr _ _ _ _ Hf2). apply wp_bind.
    assert (x ∈ p :: ths) as Hx.
    { assert (x ∈ ths ++ [p]) by (rewrite Hsp; set_solver). set_solver. }
    unfold partly_queued in *. rewrite filter_app, filter_cons, filter_nil.
    destruct (decide (x ≠ p)) as [Hxp|Hxp].
    + rewrite others_of_snoc.
      destruct (decide (p_state (pr s x) = RUNNABLE ∨ p_state (pr s x) = RUNNING)) as [Hs|Hs].
      * rewrite decide_True by done.
        assert (in_mlfq (pr s x) = true) as -> by by apply bool_decide_eq_true_2.
        assert (x ∉ dn) as Hxd.
        { apply thring_NoDup_visit in Hr2. rewrite Hsp in Hr2. by apply NoDup_mid_notin in Hr2 as [? _]. }
        wcall queue_link_after; [exact Hq2|exact Hp2|done|by rewrite setq_eq| |].
        { intros l' Hl'. unfold setq. case_decide; [|by apply Hout].
          rewrite elem_of_app, elem_of_cons. intros [?|[?|Hxo%others_of_sub]]; [by apply (Hout x l)|done|].
          apply list_elem_of_filter in Hxo. tauto. }
        intros [] s3 (Hq3 & Hp3 & Hf3). apply wp_ret. rewrite setq_eq in Hf3.
        assert (mlfq_frame ns s2 s3) as Hf3'.
        { eapply mlfq_frame_weaken; [|exact Hf3]. unfold ns, mlfq_nodes, qnodes.
          intros y Hy. rewrite elem_of_cons, list_elem_of_fmap. rewrite elem_of_cons in Hy.
          destruct Hy as [->|[->|(z & -> & Hz)%list_elem_of_fmap]%elem_of_cons]; [|by left|]; right; eexists;
            (split; [done|]); [set_solver|].
          rewrite elem_of_app, elem_of_cons in Hz. destruct Hz as [?|[?|Hz%others_of_sub]]; [set_solver..|].
          apply list_elem_of_filter in Hz as [_ Hz].
          assert (z ∈ ths ++ [p]) by (rewrite Hsp; set_solver). set_solver. }
        split_and!; [done|by eapply thring_mlfq_frame| | |by eapply mlfq_frame_trans].
        -- eapply queues_ext; [|exact Hq3]. intros. by rewrite setq_setq.
        -- eapply pins_ok_ext; [|exact Hp3]. intros. by rewrite setq_setq.
      * rewrite decide_False by tauto.
        assert (in_mlfq (pr s x) = false) as -> by by apply bool_decide_eq_false_2.
        apply wp_ret, wp_ret. done.
    + rewrite decide_False by tauto. apply wp_ret, wp_ret. by rewrite app_nil_r.
  - intros r s2 (_ & _ & Hq2 & Hp2 & Hf2). apply wp_ret. cbv zeta.
    assert (filter (λ q, q ≠ p) (ths ++ [p]) = ths) as He.
    { rewrite filter_app, filter_cons, filter_nil, decide_False by tauto. rewrite app_nil_r.
      apply filter_all. intros y Hy ->. apply thring_NoDup, NoDup_cons in Hr. tauto. }
    unfold partly_queued in *. rewrite He in *. done.
Qed.

(** ** [mlfqlogic]: a process that used up its allotment goes down a level *)

Lemma main_of_ext (s s' : kstate E) q m :
  (∀ x, p_thmain (pr s' x) = p_thmain (pr s x)) → main_of s q m → main_of s' q m.
Proof.
  intros He (n & Hn & Hc). exists n. split; [done|].
  induction Hc as [m Hm|n th th' m Hm Hne Hc IH]; econstructor; rewrite ?He; eauto with lia.
Qed.

Lemma group_ext (s s' : kstate E) p ths m :
  (∀ x, p_thmain (pr s' x) = p_thmain (pr s x)) → (∀ x, p_pid (pr s' x) = p_pid (pr s x)) →
  thring s' p ths → group s p ths m → group s' p ths m.
Proof.
  intros Ht Hp Hr (_ & Hl & Hg). split_and!; [done..|]. intros q Hq. rewrite !Hp.
  destruct (Hg q Hq). split; [by eapply main_of_ext|done].
Qed.

Lemma group_rotate s p ths m th :
  group s p ths m → th ∈ p :: ths → ∃ ths', group s th ths' m ∧ th :: ths' ≡ₚ p :: ths.
Proof.
  intros (Hr & Hl & Hg) Hth. destruct (decide (th = p)) as [->|Hne]; [by exists ths|].
  assert (th ∈ ths) as (a & b & ->)%list_elem_of_split by set_solver.
  assert (th :: b ++ p :: a ≡ₚ p :: a ++ th :: b) as Hperm by apply (Permutation_app_comm (th :: b) (p :: a)).
  exists (b ++ p :: a). split; [|done]. split_and!.
  - by apply thring_rotate.
  - rewrite length_app in *. simpl in *. lia.
  - intros q Hq. apply Hg. by rewrite <-Hperm.
Qed.

Definition demoted (l : nat) (x : proc) : proc := set_p_ticks 0 (set_p_privlevel (Z.of_nat (S l)) x).

Lemma others_of_perm s th ths : in_mlfq (pr s th) = true →
  th :: others_of s ths ≡ₚ filter (λ q, in_mlfq (pr s q) = true) (th :: ths).
Proof.
  intros Hin. rewrite filter_cons, decide_True by done. unfold others_of.
  by rewrite reverse_Permutation.
Qed.

Lemma mlfqlogic_demote s Q p ths m l :
  queued s Q p ths m l → (S l < QSIZE)%nat → TA (Z.of_nat l) ≤ p_ticks (pr s m) →
  wp (mlfqlogic p) (λ _ s', ∃ Q',
    queues s' Q' ∧ pins_ok s' Q' ∧
    Q' l = without (ths ++ [p]) (Q l) ∧
    Q' (S l) ≡ₚ Q (S l) ++ filter (λ q, in_mlfq (pr s q) = true) (p :: ths) ∧
    (∀ l', l' ≠ l → l' ≠ S l → Q' l' = Q l') ∧
    (∀ q, pr s' q = if decide (q = m) then demoted l (pr s m) else pr s q)) s.
Proof.
  intros H HSl Hta. destruct (qd_group _ _ _ _ _ _ H) as (Hr & Hlt & Hg).
  destruct (qd_level _ _ _ _ _ _ H) as [Hl Hlv]. destruct (Hg p ltac:(set_solver)) as [Hm _].
  unfold mlfqlogic. krun main_thread_run. do 4 kstep. rewrite Hlv.
  assert (Z.ltb (Z.of_nat l) (Z.of_nat QSIZE - 1) = true) as -> by (apply Z.ltb_lt; lia).
  assert (Z.leb (TA (Z.of_nat l)) (p_ticks (pr s m)) = true) as -> by by apply Z.leb_le.
  cbn [andb]. apply wp_bind. wcall dequeue_proc_spec; [exact H|]. intros [] s1 (Hq1 & Hp1 & Hf1).
  set (Q1 := setq Q l (without (ths ++ [p]) (Q l))) in *. do 4 kstep.
  set (s2 := upd_proc m _ _).
  assert (∀ q, pr s2 q = if decide (q = m) then demoted l (pr s m) else pr s q) as Hpr.
  { intros q. unfold s2. rewrite !pr_upd. rewrite !(mlfq_frame_pr _ _ _ _ Hf1).
    rewrite (decide_True (P := m = m)) by done. unfold demoted. rewrite Nat2Z.inj_succ, <-Z.add_1_r.
    destruct (decide (m = q)), (decide (q = m)); congruence. }
  assert (∀ q, in_mlfq (pr s2 q) = in_mlfq (pr s q)) as Hin2.
  { intros q. rewrite Hpr. by case_decide; subst. }
  assert (group s2 p ths m) as Hg2.
  { eapply (group_ext s); [| |eapply (thring_mlfq_frame _ s s1); [exact Hf1|apply queue_not_thgroup|done]|by split].
    all: intros x; rewrite Hpr; by case_decide; subst. }
  pose proof (proj1 Hg2) as Hr2.
  assert (queues s2 Q1 ∧ pins_ok s2 Q1) as [Hq2 Hp2] by done.
  krun (ready_or_running_thread_run s2 p ths).
  destruct (find _ (ths ++ [p])) as [th|] eqn:Hf.
  - apply find_some_in in Hf as [Hth Hthin].
    destruct (group_rotate s2 p ths m th) as (ths' & Hgr & Hperm); [done|set_solver|].
    wcall (enqueue_proc_spec s2 Q1 th ths' m (S l)).
    + split; [done|done|done| |].
      * split; [done|]. rewrite Hpr, decide_True by done. done.
      * intros q l' Hq Hl' HqQ. rewrite Hperm in Hq. unfold Q1, setq in HqQ. case_decide.
        -- apply without_sub in HqQ as [_ HqQ]. apply HqQ. set_solver.
        -- by pose proof (qd_only _ _ _ _ _ _ H q l' Hq Hl' HqQ).
    + done.
    + cbv zeta. intros [] s3 (Hq3 & Hp3 & Hf3). eexists. split_and!; [exact Hq3|exact Hp3|..].
      * rewrite setq_ne by lia. unfold Q1. by rewrite setq_eq.
      * rewrite setq_eq. unfold Q1. rewrite setq_ne by lia. f_equiv.
        rewrite others_of_perm by done. rewrite Hperm.
        rewrite (filter_ext_in _ (λ q, in_mlfq (pr s q) = true)); [done|].
        intros q _. by rewrite Hin2.
      * intros l' ? ?. rewrite setq_ne by done. unfold Q1. by rewrite setq_ne.
      * intros q. rewrite (mlfq_frame_pr _ _ _ _ Hf3). apply Hpr.
  - apply wp_ret. exists Q1. split_and!; [done|done| | | |done].
    + unfold Q1. by rewrite setq_eq.
    + unfold Q1. rewrite setq_ne by lia.
      assert (filter (λ q, in_mlfq (pr s q) = true) (p :: ths) = []) as ->; [|by rewrite app_nil_r].
      apply filter_none. intros q Hq Hqin.
      apply find_none_in with (x := q) in Hf; [|set_solver]. rewrite Hin2 in Hf. congruence.
    + intros l' ? ?. unfold Q1. by rewrite setq_ne.
Qed.

(** ** [priority_boost] *)

Lemma upd_proc_twice p f g (s : kstate E) : upd_proc p g (upd_proc p f s) = upd_proc p (λ x, g (f x)) s.
Proof.
  unfold upd_proc at 1. rewrite pr_upd_eq. unfold upd_proc. simpl.
  destruct s; unfold set_procs; simpl. by rewrite insert_insert_eq.
Qed.

Lemma upd_proc_links p f (s : kstate E) : links (upd_proc p f s) = links s.
Proof. done. Qed.

(** A pass over a list whose body updates the process it is given. *)
Lemma for_list_upd (s : kstate E) hd f L body g :
  dlist (links s) hd (NProc f <$> L) → (length L ≤ NPROC)%nat →
  (∀ p s, body p s = Ok (tt, upd_proc p g s)) →
  for_list (Some hd) f body s = Ok (tt, upd_all L g s).
Proof.
  intros Hd Hlen Hb. unfold for_list. rewrite (bind_ok _ _ _ _ _ (ld_next_run _ _)).
  rewrite (dlist_next_head _ _ _ Hd).
  enough (∀ rest dn fuel t, L = dn ++ rest → (length rest < fuel)%nat → links t = links s →
    loop fuel (λ itr,
      if decide (itr = Some hd) then mret (inr tt)
      else p ← list_entry f itr; body p;; itr ← on_links (ld_next itr); mret (inl itr))
      (Some (default hd (head (NProc f <$> rest)))) t = Ok (tt, upd_all rest g t)) as Hgen.
  { apply (Hgen L []); [done| |done]. unfold queue_fuel. lia. }
  induction rest as [|x rest IH]; intros dn fuel t HL Hf Ht.
  all: destruct fuel as [|fuel]; [simpl in Hf; lia|].
  - apply loop_inr. by rewrite decide_True.
  - cbn [head fmap list_fmap default]. rewrite HL, fmap_app, fmap_cons in Hd.
    assert (NProc f x ≠ hd) as Hne.
    { destruct Hd as [[Hs _]%NoDup_cons _]. intros <-. set_solver. }
    assert (nxt (links s) (NProc f x) = Some (default hd (head (NProc f <$> rest)))) as Hx.
    { destruct rest; [by apply dlist_next_end in Hd|by apply dlist_next_in in Hd as [? _]]. }
    rewrite (loop_inl _ _ _ _ (Some (default hd (head (NProc f <$> rest)))) (upd_proc x g t)).
    + apply (IH (dn ++ [x])); [by rewrite <-app_assoc|simpl in Hf; lia|done].
    + cbv beta. simpl default. change (id (NProc f x)) with (NProc f x).
      rewrite decide_False by congruence. rewrite (bind_ok _ _ _ _ _ (list_entry_run _ _ _)).
      rewrite (bind_ok _ _ _ _ _ (Hb _ _)), (bind_ok _ _ _ _ _ (ld_next_run _ _)).
      rewrite upd_proc_links, Ht, Hx. done.
Qed.

Definition boosted (x : proc) : proc := set_p_ticks 0 (set_p_privlevel 0 x).

Lemma reset_level_run p (s : kstate E) : reset_level p s = Ok (tt, upd_proc p boosted s).
Proof.
  unfold reset_level, wr, mbind, M_bind, modify. by rewrite upd_proc_twice.
Qed.

Lemma concatqueue_spec s Q src dst :
  queues s Q → pins_ok s Q → (src < QSIZE)%nat → (dst < QSIZE)%nat → src ≠ dst →
  wp (concatqueue (Z.of_nat src) (Z.of_nat dst)) (λ _ s',
    let Q' := setq (setq Q dst (Q dst ++ Q src)) src [] in
    queues s' Q' ∧ pins_ok s' Q' ∧
    mlfq_frame (mlfq_nodes src (Q src) ++ mlfq_nodes dst (Q dst)) s s') s.
Proof.
  intros Hq Hp Hsrc Hdst Hne. unfold concatqueue. krun queue_at_run. krun queue_at_run.
  pose proof (proj1 Hq src Hsrc) as Hds. pose proof (proj1 Hq dst Hdst) as Hdd.
  apply wp_bind, wp_on_links. eapply wp_eq; [by apply list_empty_spec|].
  replace (set_links (links s) s) with s by by destruct s.
  destruct (lookup_lt_is_Some_2 (mq_pin (k_mlfq s)) src) as [spin Hspin]; [destruct Hp; lia|].
  krun ld_pin_run. set (Q1 := setq Q dst (Q dst ++ Q src)).
  assert (∀ l q, q ∈ Q l → q ∈ Q1 l) as HQ1.
  { intros l q HqQ. unfold Q1, setq. case_decide; [subst; set_solver|done]. }
  assert (pins_ok s Q1) as Hp1.
  { destruct Hp as [Hlen Hpi]. split; [done|]. intros l v Hv.
    destruct (Hpi l v Hv) as [->|(q & Hql & ->)]; [by left|right; eauto]. }
  assert (pin_in Q src spin) as Hsp by by eapply Hp.
  apply wp_bind. eapply (wp_mono _ (λ _ s', pins_ok s' Q1 ∧ links s' = links s ∧ mlfq_frame [] s s')).
  { kstep; [|split_and!; [done..|]; split; [done|by destruct s as [? ? [] ? ? ? ? ? ?]]].
    krun st_pin_run. rename select (_ && _ = true) into Hc. apply andb_true_iff in Hc as [_ Hc].
    apply bool_decide_eq_true_1 in Hc. destruct Hsp as [?|(q & Hqs & ->)]; [done|]. split_and!.
    - apply put_pin_ok; [done..|]. right. exists q. split; [|done]. unfold Q1. rewrite setq_eq. set_solver.
    - done.
    - split; [done|by destruct s as [? ? [] ? ? ? ? ? ?]]. }
  intros [] s1 (Hp1' & Hl1 & Hf1). krun st_pin_run. set (s2 := put_pin src (Some (NQueue src)) s1).
  apply wp_on_links. change (links s2) with (links s1). rewrite Hl1.
  wcall (list_bulk_move_tail_spec (links s)); [exact Hds|exact Hdd| |].
  { intros x Hx. rewrite elem_of_cons. apply elem_of_cons in Hx as [->|(q & -> & Hqs)%list_elem_of_fmap].
    - intros [[= ?]|(q' & ? & _)%list_elem_of_fmap]; done.
    - intros [?|(q' & [= <-] & Hqd)%list_elem_of_fmap]; [done|].
      by apply Hne, (proj2 Hq src dst q). }
  intros [] h (Hs' & Hd' & Hfr). cbv zeta.
  assert (lframe (mlfq_nodes src (Q src) ++ mlfq_nodes dst (Q dst)) (links s) h) as Hfr' by done.
  assert (mlfq_frame (mlfq_nodes src (Q src) ++ mlfq_nodes dst (Q dst)) s (set_links h s2)) as HF.
  { split; [done|]. destruct Hf1 as [_ He].
    assert (∃ pn lk, s1 = set_k_mlfq (set_mq_pin pn (k_mlfq s)) (set_links lk s)) as (pn & lk & ->) by eauto.
    done. }
  split_and!; [| |done].
  - split.
    + intros l Hl. destruct (decide (l = src)) as [->|Hns]; [by rewrite setq_eq|]. rewrite setq_ne by done.
      destruct (decide (l = dst)) as [->|Hnd].
      * unfold Q1. rewrite setq_eq. unfold qnodes. by rewrite fmap_app.
      * unfold Q1. rewrite setq_ne by done. eapply dlist_frame; [exact Hfr'| |by apply Hq].
        intros x Hx Hx'. unfold mlfq_nodes in Hx'. rewrite elem_of_app, !elem_of_cons in Hx'.
        apply elem_of_cons in Hx as [->|(q & -> & Hql)%list_elem_of_fmap].
        -- destruct Hx' as [[?|(?&?&?)%list_elem_of_fmap]|[?|(?&?&?)%list_elem_of_fmap]]; simplify_eq.
        -- destruct Hx' as [[?|(q'&?&?)%list_elem_of_fmap]|[?|(q'&?&?)%list_elem_of_fmap]]; simplify_eq.
           ++ by apply Hns, (proj2 Hq l src q').
           ++ by apply Hnd, (proj2 Hq l dst q').
    + assert (∀ l q, q ∈ setq Q1 src [] l → l ≠ src ∧ (q ∈ Q l ∨ l = dst ∧ q ∈ Q src)) as Hmem.
      { intros l q. unfold Q1, setq. case_decide; [by intros ?%not_elem_of_nil|].
        case_decide; [subst; rewrite elem_of_app|]; tauto. }
      intros l l' q Hl Hl' [Hn1 Hm1]%Hmem [Hn2 Hm2]%Hmem.
      destruct Hm1 as [Hm1|[-> Hm1]], Hm2 as [Hm2|[-> Hm2]]; [by apply (proj2 Hq l l' q)| | |done].
      * by destruct Hn1; apply (proj2 Hq l src q).
      * by destruct Hn2; apply (proj2 Hq l' src q).
  - assert (pins_ok s2 Q1) as Hp2 by (apply put_pin_ok; [done..|by left]).
    eapply pins_ok_setq; [exact Hp2|done|]. intros q Hv _. exfalso.
    simpl in Hv. rewrite list_lookup_insert_eq in Hv; [done|]. destruct Hp1'. lia.
Qed.

Lemma queues_procs s s' Q : same_but_procs s s' → queues s Q → queues s' Q.
Proof. unfold queues. by intros ->%same_but_procs_links. Qed.

Lemma pins_ok_procs s s' Q : same_but_procs s s' → pins_ok s Q → pins_ok s' Q.
Proof. unfold pins_ok. intros He. assert (k_mlfq s' = k_mlfq s) as -> by by rewrite <-He. done. Qed.

Lemma boosted_idem x : boosted (boosted x) = boosted x.
Proof. done. Qed.

(** One level of the boost: its threads are reset and join queue 0. *)
Lemma boost_level_spec s Q l :
  queues s Q → pins_ok s Q → (0 < l < QSIZE)%nat → (length (Q l) ≤ NPROC)%nat →
  wp (q ← queue_at (Z.of_nat l); for_list q Fmlfq reset_level;; concatqueue (Z.of_nat l) 0)
     (λ _ s', let Q' := setq (setq Q 0 (Q 0%nat ++ Q l)) l [] in
        queues s' Q' ∧ pins_ok s' Q' ∧
        mlfq_frame (mlfq_nodes l (Q l) ++ mlfq_nodes 0 (Q 0%nat)) (upd_all (Q l) boosted s) s') s.
Proof.
  intros Hq Hp [Hl0 Hl] Hlen. krun queue_at_run.
  apply wp_bind. eapply wp_eq.
  { apply (for_list_upd s (NQueue l) Fmlfq (Q l)); [by apply Hq|done|apply reset_level_run]. }
  pose proof (upd_all_same (Q l) boosted s) as Hs. change 0 with (Z.of_nat 0).
  apply concatqueue_spec; [by eapply queues_procs|by eapply pins_ok_procs|done|unfold QSIZE; lia|lia].
Qed.

Lemma mlfq_frame_sleep l L l' L' s s' SL :
  mlfq_frame (mlfq_nodes l L ++ mlfq_nodes l' L') s s' →
  dlist (links s) NSleep (NProc Fsleep <$> SL) → dlist (links s') NSleep (NProc Fsleep <$> SL).
Proof.
  intros [Hf _]. apply (dlist_frame _ _ _ _ _ Hf). unfold mlfq_nodes, qnodes.
  intros x. rewrite elem_of_app, !elem_of_cons, !list_elem_of_fmap.
  intros [->|(?&->&?)] [[?|(?&?&?)]|[?|(?&?&?)]]; done.
Qed.

Theorem priority_boost_spec s Q SL :
  queues s Q → pins_ok s Q → dlist (links s) NSleep (NProc Fsleep <$> SL) →
  (length (Q 1%nat) ≤ NPROC)%nat → (length (Q 2%nat) ≤ NPROC)%nat → (length SL ≤ NPROC)%nat →
  wp priority_boost (λ _ s', ∃ Q',
    queues s' Q' ∧ pins_ok s' Q' ∧
    Q' 0%nat = Q 0%nat ++ Q 1%nat ++ Q 2%nat ∧ Q' 1%nat = [] ∧ Q' 2%nat = [] ∧
    (∀ q, pr s' q = if decide (q ∈ Q 1%nat ++ Q 2%nat ++ SL) then boosted (pr s q) else pr s q) ∧
    mq_ticks (k_mlfq s') = 0) s.
Proof.
  intros Hq Hp Hsl H1 H2 H3. unfold priority_boost.
  change (Z.of_nat <$> seq 1 (QSIZE - 1)) with [Z.of_nat 1; Z.of_nat 2]. cbn [for_each].
  apply wp_bind, wp_bind. wcall (boost_level_spec s Q 1); [done|done|unfold QSIZE; lia|done|].
  cbv zeta. intros [] s1 (Hq1 & Hp1 & Hf1). apply wp_bind.
  wcall boost_level_spec; [exact Hq1|exact Hp1|unfold QSIZE; lia|done|].
  cbv zeta. intros [] s2 (Hq2 & Hp2 & Hf2). apply wp_ret.
  assert (dlist (links s1) NSleep (NProc Fsleep <$> SL)) as Hsl1.
  { eapply mlfq_frame_sleep; [exact Hf1|]. by rewrite (same_but_procs_links _ _ (upd_all_same _ _ _)). }
  assert (dlist (links s2) NSleep (NProc Fsleep <$> SL)) as Hsl2.
  { eapply mlfq_frame_sleep; [exact Hf2|]. by rewrite (same_but_procs_links _ _ (upd_all_same _ _ _)). }
  apply wp_bind. eapply wp_eq.
  { apply (for_list_upd s2 NSleep Fsleep SL); [done|done|apply reset_level_run]. }
  kstep. set (Q2 := setq _ 2 _) in Hq2, Hp2. exists Q2.
  pose proof (upd_all_same SL boosted s2) as Hs. split_and!; try done.
  - by apply (queues_procs _ _ _ Hs).
  - by apply (pins_ok_procs _ _ _ Hs).
  - unfold Q2. rewrite setq_ne, setq_eq by done. rewrite setq_ne, setq_eq by done.
    rewrite (setq_ne _ 1 2), (setq_ne _ 0 2) by done. by rewrite <-app_assoc.
  - intros q. change (pr (upd_mlfq _ ?t) q) with (pr t q).
    assert (NoDup SL) as HndSL.
    { destruct Hsl as [[_ Hnd]%NoDup_cons _]. by apply NoDup_fmap_1 in Hnd. }
    rewrite pr_upd_all by done. rewrite !(mlfq_frame_pr _ _ _ _ Hf2).
    rewrite (setq_ne _ 1 2), (setq_ne _ 0 2) by done.
    rewrite pr_upd_all by (eapply NoDup_queue; [done|unfold QSIZE; lia]).
    rewrite !(mlfq_frame_pr _ _ _ _ Hf1).
    rewrite pr_upd_all by (eapply NoDup_queue; [done|unfold QSIZE; lia]).
    destruct (decide (q ∈ Q 1%nat)), (decide (q ∈ Q 2%nat)), (decide (q ∈ SL));
      first [rewrite decide_True by set_solver|rewrite decide_False by set_solver]; by rewrite ?boosted_idem.
Qed.

(** ** [mlfqselect] *)

(** The thread the pin of a level designates: the first of the queue when the
    pin is the queue's head. *)
Definition pinned_thread (s : kstate E) (Q : nat → list nat) (l : nat) : option nat :=
  match mq_pin (k_mlfq s) !! l with
  | Some (Some (NProc Fmlfq q)) => Some q
  | Some (Some (NQueue _)) => head (Q l)
  | _ => None
  end.

Lemma list_empty_queue s Q l :
  queues s Q → (l < QSIZE)%nat →
  on_links (list_empty (Some (NQueue l))) s = Ok (bool_decide (Q l = []), s).
Proof.
  intros Hq Hl. unfold on_links, zoom. rewrite (list_empty_spec _ _ _ (proj1 Hq l Hl)).
  do 2 f_equal; [|by destruct s]. apply bool_decide_ext. unfold qnodes. by destruct (Q l).
Qed.

Lemma pinned_thread_some s Q l :
  pins_ok s Q → (l < QSIZE)%nat → Q l ≠ [] →
  ∃ p pin, mq_pin (k_mlfq s) !! l = Some pin ∧ pinned_thread s Q l = Some p ∧ p ∈ Q l ∧
    ((pin = Some (NQueue l) ∧ head (Q l) = Some p) ∨ pin = mlfq_node p).
Proof.
  intros [Hlen Hp] Hl Hne. destruct (lookup_lt_is_Some_2 (mq_pin (k_mlfq s)) l) as [v Hv]; [lia|].
  unfold pinned_thread. rewrite Hv. destruct (Hp l v Hv) as [->|(q & Hq & ->)].
  - destruct (Q l) as [|x L] eqn:HQ; [done|]. exists x, (Some (NQueue l)). split_and!; [done..|set_solver|by left].
  - exists q, (mlfq_node q). split_and!; [done..|by right].
Qed.

Lemma pinned_thread_empty s Q l : pins_ok s Q → (l < QSIZE)%nat → Q l = [] → pinned_thread s Q l = None.
Proof.
  intros [Hlen Hp] Hl HQ. destruct (lookup_lt_is_Some_2 (mq_pin (k_mlfq s)) l) as [v Hv]; [lia|].
  unfold pinned_thread. rewrite Hv. destruct (Hp l v Hv) as [->|(q & Hin & _)]; rewrite HQ in *; [done|by apply not_elem_of_nil in Hin].
Qed.

(** [mlfqselect] goes on to the next level: the queue is empty, or the thread
    the pin designates is RUNNING and either the pin is at the head of the
    queue or no other thread of the queue is RUNNABLE. *)
Definition other_runnable (s : kstate E) (Q : nat → list nat) (l p : nat) : bool :=
  existsb (λ n, bool_decide (n ≠ p ∧ p_state (pr s n) = RUNNABLE)) (Q l).
Definition passed (s : kstate E) (Q : nat → list nat) (l : nat) : bool :=
  match pinned_thread s Q l with
  | Some p =>
      bool_decide (p_state (pr s p) = RUNNING) &&
      (bool_decide (mq_pin (k_mlfq s) !! l = Some (Some (NQueue l))) || negb (other_runnable s Q l p))
  | None => true
  end.

(** Every queued thread stands with the threads of its process. *)
Definition all_queued (s : kstate E) (Q : nat → list nat) : Prop :=
  ∀ l q, (l < QSIZE)%nat → q ∈ Q l → ∃ ths m, queued s Q q ths m l.

(** The pins of the levels below [n] are put at the head. *)
Definition unpinned (n : nat) (s : kstate E) : kstate E := foldl (λ s k, put_pin k (Some (NQueue k)) s) s (seq 0 n).

Lemma other_runnable_spec s Q l p :
  if other_runnable s Q l p then ∃ n, n ∈ Q l ∧ n ≠ p ∧ p_state (pr s n) = RUNNABLE
  else ∀ n, n ∈ Q l → n ≠ p → p_state (pr s n) ≠ RUNNABLE.
Proof.
  unfold other_runnable. destruct (existsb _ _) eqn:Ex.
  - apply existsb_exists in Ex as (n & Hn & Hb). apply bool_decide_eq_true_1 in Hb. exists n. by rewrite list_elem_of_In.
  - intros n Hn Hne Hs. apply not_true_iff_false in Ex. apply Ex, existsb_exists. exists n. rewrite <-list_elem_of_In.
    split; [done|]. by apply bool_decide_eq_true_2.
Qed.

Lemma put_pin_same l v (s : kstate E) : mq_pin (k_mlfq s) !! l = Some v → put_pin l v s = s.
Proof. destruct s as [? ? [] ? ? ? ? ? ?]. simpl. intros Hv. unfold put_pin, upd_mlfq, set_mq_pin. simpl. by rewrite list_insert_id. Qed.
Lemma put_pin_twice l v w (s : kstate E) : put_pin l v (put_pin l w s) = put_pin l v s.
Proof. unfold put_pin, upd_mlfq, set_mq_pin. simpl. by rewrite list_insert_insert_eq. Qed.

Lemma main_of_put l v (s : kstate E) q m : main_of s q m → main_of (put_pin l v s) q m.
Proof. by apply main_of_ext. Qed.
Lemma queued_put s Q p ths m l k v :
  queued s Q p ths m l → (k < QSIZE)%nat → pin_in Q k v → queued (put_pin k v s) Q p ths m l.
Proof.
  intros [A1 A2 A3 A4 A5 A6 A7 A8] Hk Hv. split; [exact A1|by apply put_pin_ok| |exact A4|exact A5|exact A6|exact A7|exact A8].
  apply (group_ext s); [intros x; reflexivity|intros x; reflexivity|apply A3|exact A3].
Qed.

(** The RUNNING branch: the level is passed, or the pin has moved off [p]. *)
Lemma select_running s Q l p ths m pin :
  queued s Q p ths m l → mq_pin (k_mlfq s) !! l = Some pin → pin = Some (NQueue l) ∨ pin = mlfq_node p → p_state (pr s p) = RUNNING →
  ∃ v, (pin_next_thread p false;;
        pin ← ld_pin (Z.of_nat l);
        (if decide (pin = Some (NQueue l)) then pin_next_proc p false else mret tt);;
        pin ← ld_pin (Z.of_nat l);
        mret (bool_decide (pin = Some (NQueue l)))) s = Ok (bool_decide (v = Some (NQueue l)), put_pin l v s) ∧
    (v = Some (NQueue l) ↔ pin = Some (NQueue l) ∨ other_runnable s Q l p = false).
Proof.
  intros H Hpin Hcase Hrun. pose proof H as [_ [Hlen _] _ [Hl _] _ _ _ _].
  assert (∀ v, mq_pin (k_mlfq (put_pin l v s)) !! l = Some v) as Hnew by (intros v; simpl; apply list_lookup_insert_eq; lia).
  assert (pin_in Q l pin) as Hpi by (by apply (qd_pins _ _ _ _ _ _ H)).
  pose proof (pin_next_thread_spec s Q p ths m l false H) as ([] & s1 & E1 & pin' & Hpin' & Hmv)%wp_ok. rewrite Hpin in Hpin'. injection Hpin' as <-.
  rewrite (bind_ok _ _ _ _ _ E1).
  assert (∃ v, s1 = put_pin l v s ∧ (v = Some (NQueue l) ↔ pin = Some (NQueue l) ∨ other_runnable s Q l p = false) ∧ pin_in Q l v) as (v & -> & Hv & Hin).
  { pose proof (other_runnable_spec s Q l p) as Ho. destruct Hmv as [[Hno ->]|[Hyes (v & -> & Hadv)]].
    - exists pin. split; [by rewrite put_pin_same|]. destruct Hcase as [->| ->]; [split; [tauto|done]|].
      destruct Hno. apply list_elem_of_fmap. exists p. split; [done|]. set_solver.
    - exists v. split; [done|]. split; [|by eapply advanced_pin_in].
      assert (pin = mlfq_node p) as ->.
      { destruct Hcase as [->|]; [|done]. apply list_elem_of_fmap in Hyes as (? & [=] & _). }
      destruct Hadv as [(n & -> & Hn & Hs & Hk)|[-> Hk]]; destruct (other_runnable s Q l p).
      + split; [done|]. by intros [|].
      + assert (n ≠ p) by (intros ->; by specialize (Hk eq_refl)). by destruct (Ho n).
      + destruct Ho as (n & Hn & Hne & Hs). by destruct (Hk n Hn Hs).
      + split; [by right|done]. }
  exists v. split; [|exact Hv]. rewrite (bind_ok _ _ _ _ _ (ld_pin_run _ _ _ Hl (Hnew v))).
  assert (queued (put_pin l v s) Q p ths m l) as H1 by by apply queued_put.
  rewrite (bind_ok _ _ _ tt (put_pin l v s)); [by rewrite (bind_ok _ _ _ _ _ (ld_pin_run _ _ _ Hl (Hnew v)))|].
  case_decide as Eh; [|done]. subst v.
  pose proof (pin_next_proc_spec _ Q p ths m l false H1) as ([] & s2 & E2 & pin2 & Hpin2 & Hmv2)%wp_ok. rewrite Hnew in Hpin2. injection Hpin2 as <-.
  destruct Hmv2 as [[_ ->]|[(? & [=] & _)%list_elem_of_fmap _]]. done.
Qed.

(** One turn of the loop. *)
Lemma select_level_run s Q l :
  queues s Q → pins_ok s Q → all_queued s Q → (l < QSIZE)%nat →
  select_level (Z.of_nat l) s =
    match pinned_thread s Q l with
    | Some p => if passed s Q l then Ok (inl (Z.of_nat (S l)), put_pin l (Some (NQueue l)) s)
                else Ok (inr (Some p), put_pin l (mlfq_node p) s)
    | None => Ok (inl (Z.of_nat (S l)), put_pin l (Some (NQueue l)) s)
    end.
Proof.
  intros Hq Hp Hst Hl. unfold select_level. rewrite (proj2 (Z.ltb_lt _ _)) by lia.
  replace (Z.of_nat l + 1) with (Z.of_nat (S l)) by lia.
  rewrite (bind_ok _ _ _ _ _ (queue_at_run _ _ Hl)), (bind_ok _ _ _ _ _ (list_empty_queue _ _ _ Hq Hl)).
  destruct (decide (Q l = [])) as [HQ|HQ].
  { rewrite bool_decide_eq_true_2 by done. destruct Hp as [Hlen Hp]. destruct (lookup_lt_is_Some_2 (mq_pin (k_mlfq s)) l) as [v Hv]; [lia|].
    unfold pinned_thread. rewrite Hv. destruct (Hp l v Hv) as [->|(q & Hin & _)]; [|rewrite HQ in Hin; by apply not_elem_of_nil in Hin].
    rewrite HQ. simpl. by rewrite put_pin_same. }
  rewrite bool_decide_eq_false_2 by done.
  destruct (pinned_thread_some s Q l Hp Hl HQ) as (p & pin & Hpin & Hpt & HpQ & Hcase). rewrite Hpt.
  destruct (Hst l p Hl HpQ) as (ths & m & H). pose proof H as [_ _ (_ & _ & Hg) [_ Hlv] _ _ _ _].
  destruct (Hg p ltac:(set_solver)) as [Hm _].
  rewrite (bind_ok _ _ _ _ _ (ld_pin_run _ _ _ Hl Hpin)). rewrite (bind_ok _ _ _ p s); cycle 1.
  { destruct Hcase as [[-> Hh]| ->].
    - rewrite decide_True by done. rewrite (bind_ok _ _ _ _ _ (ld_next_run _ _)).
      rewrite (dlist_next_head _ _ _ (proj1 Hq l Hl)). destruct (Q l) as [|x L]; [done|]. by simplify_eq/=.
    - rewrite decide_False by done. apply list_entry_run. }
  rewrite (bind_ok _ _ _ (p_state (pr s p)) s) by done.
  assert (∀ v, (m ← main_thread p; lv ← rd m p_privlevel;
    if Z.eqb lv (Z.of_nat l) then st_pin (Z.of_nat l) (mlfq_node p);; mret (inr (Some p)) else panic "mlfqselect") (put_pin l v s) =
    Ok (inr (Some p) : Z + option nat, put_pin l (mlfq_node p) s)) as Hret.
  { intros v. rewrite (bind_ok _ _ _ m (put_pin l v s)) by (by apply main_thread_run, main_of_put). rewrite (bind_ok _ _ _ (p_privlevel (pr s m)) (put_pin l v s)) by done.
    rewrite Hlv, Z.eqb_refl, (bind_ok _ _ _ _ _ (st_pin_run _ _ _ Hl)). by rewrite put_pin_twice. }
  unfold passed. rewrite Hpt, Hpin. destruct (decide (p_state (pr s p) = RUNNING)) as [Hrun|Hrun]; cycle 1.
  { rewrite bool_decide_eq_false_2 by done. rewrite (bind_ok _ _ _ false s) by done. simpl. rewrite <-(put_pin_same l pin s Hpin) at 1. apply Hret. }
  rewrite bool_decide_eq_true_2 by done. simpl.
  destruct (select_running s Q l p ths m pin H Hpin ltac:(tauto) Hrun) as (v & Ev & Hv). rewrite (bind_ok _ _ _ _ _ Ev).
  assert (bool_decide (Some pin = Some (Some (NQueue l))) || negb (other_runnable s Q l p) = bool_decide (v = Some (NQueue l))) as ->.
  { apply eq_bool_prop_intro. rewrite orb_True, !bool_decide_spec, negb_True, Hv. destruct (other_runnable s Q l p); naive_solver. }
  case_bool_decide as Ec; [by subst v|]. apply Hret.
Qed.

(** The loop, from level [l] on. *)
Lemma mlfqselect_run s Q :
  queues s Q → pins_ok s Q → all_queued s Q →
  (mlfqselect s = Ok (None, unpinned QSIZE s) ∧ ∀ l, (l < QSIZE)%nat → passed s Q l = true) ∨
  (∃ l p, mlfqselect s = Ok (Some p, put_pin l (mlfq_node p) (unpinned l s)) ∧ (l < QSIZE)%nat ∧ p ∈ Q l ∧
     pinned_thread s Q l = Some p ∧ passed s Q l = false ∧ ∀ k, (k < l)%nat → passed s Q k = true).
Proof.
  intros Hq Hp Hst. unfold mlfqselect.
  assert (∀ l, (l ≤ QSIZE)%nat → pins_ok (unpinned l s) Q ∧ queues (unpinned l s) Q ∧ all_queued (unpinned l s) Q ∧
    (∀ q, pr (unpinned l s) q = pr s q) ∧ ∀ k, (l ≤ k)%nat → mq_pin (k_mlfq (unpinned l s)) !! k = mq_pin (k_mlfq s) !! k) as Hun.
  { induction l as [|l IH]; intros Hl; [done|]. destruct (IH ltac:(lia)) as (I1 & I2 & I3 & I4 & I5).
    unfold unpinned. rewrite seq_S, foldl_app. simpl. fold (unpinned l s). assert (pins_ok (put_pin l (Some (NQueue l)) (unpinned l s)) Q) as P by (apply put_pin_ok; [lia|done|by left]).
    split_and!; try done.
    - intros k q Hk Hin. destruct (I3 k q Hk Hin) as (ths & m & H). exists ths, m. apply queued_put; [done|lia|by left].
    - intros k Hk. rewrite list_lookup_insert_ne by lia. apply I5. lia. }
  assert (∀ l, (l < QSIZE)%nat → pinned_thread (unpinned l s) Q l = pinned_thread s Q l ∧ passed (unpinned l s) Q l = passed s Q l) as Hsame.
  { intros l Hl. destruct (Hun l ltac:(lia)) as (_ & _ & _ & E4 & E5). specialize (E5 l ltac:(lia)).
    assert (pinned_thread (unpinned l s) Q l = pinned_thread s Q l) as Ep by (unfold pinned_thread; by rewrite E5).
    split; [done|]. unfold passed. rewrite Ep, E5. destruct (pinned_thread s Q l) as [p|]; [|done]. rewrite E4. do 3 f_equal.
    unfold other_runnable. induction (Q l) as [|x L IH]; [done|]. simpl. by rewrite E4, IH. }
  enough (∀ n l, (l + n = QSIZE)%nat → (∀ k, (k < l)%nat → passed s Q k = true) →
    (loop (S n) select_level (Z.of_nat l) (unpinned l s) = Ok (None, unpinned QSIZE s) ∧ ∀ l, (l < QSIZE)%nat → passed s Q l = true) ∨
    (∃ l' p, loop (S n) select_level (Z.of_nat l) (unpinned l s) = Ok (Some p, put_pin l' (mlfq_node p) (unpinned l' s)) ∧ (l' < QSIZE)%nat ∧ p ∈ Q l' ∧
       pinned_thread s Q l' = Some p ∧ passed s Q l' = false ∧ ∀ k, (k < l')%nat → passed s Q k = true)) as Hgen
    by (apply (Hgen QSIZE 0%nat); [done|lia]).
  induction n as [|n IH]; intros l Hln Hbelow.
  { left. assert (l = QSIZE) as -> by lia. split; [|done]. by apply loop_inr. }
  assert (l < QSIZE)%nat as Hl by lia. destruct (Hun l ltac:(lia)) as (U1 & U2 & U3 & _). destruct (Hsame l Hl) as [S1 S2].
  pose proof (select_level_run _ Q l U2 U1 U3 Hl) as Hrun. rewrite S1, S2 in Hrun.
  assert (passed s Q l = true → select_level (Z.of_nat l) (unpinned l s) = Ok (inl (Z.of_nat (S l)), unpinned (S l) s)) as Hpass.
  { intros Hps. rewrite Hps in Hrun. unfold unpinned at 2. rewrite seq_S, foldl_app. simpl. fold (unpinned l s). by destruct (pinned_thread s Q l). }
  destruct (passed s Q l) eqn:Hps.
  - rewrite (loop_inl _ _ _ _ _ _ (Hpass eq_refl)). apply IH; [lia|]. intros k Hk. destruct (decide (k = l)) as [->|]; [done|]. apply Hbelow. lia.
  - right. destruct (pinned_thread s Q l) as [p|] eqn:Hpt; [|unfold passed in Hps; by rewrite Hpt in Hps].
    exists l, p. split_and!; [by apply loop_inr|done| |done|done|done].
    unfold pinned_thread in Hpt. destruct (mq_pin (k_mlfq s) !! l) as [v|] eqn:Hv; [|done]. destruct (proj2 Hp l v Hv) as [->|(q & Hin & ->)].
    + destruct (Q l); simplify_eq/=. set_solver.
    + simpl in Hpt. by simplify_eq.
Qed.

End mlfq.

Close Scope Z_scope.
