(* ===== verification/Sched.v ===== *)
(** * Scheduling ([src/xv6-public/proc.c], the context switch helpers of
    [src/xv6-public/vm.c])

    [set_cpu_share], [stridelogic], the per-CPU [scheduler], [sched],
    [yield], [sleep], [wakeup1], [wakeup] and [kill].

    [swtch] leaves a routine in the middle and comes back to it later, so a
    routine that switches is two definitions: the part up to the switch,
    which answers where control goes ([swto]), and the part after it.  The
    scheduler's loop is one iteration, split the same way. *)

From S2P Require Import Prelude.
From S2P Require Import ListH.
From S2P Require Import Spinlock.
From S2P Require Import Kstate.
From S2P Require Import ThreadCore.
From S2P Require Import StrideHeap.
From S2P Require Import Mlfq.

Open Scope Z_scope.

Definition KERNBASE : Z := 2147483648.
Definition V2P (a : Z) : Z := a - KERNBASE.

(** The registers a context switch loads: the page-directory register, the
    task segment's kernel stack pointer; [kpgdir] is the kernel's own table. *)
Class Hw (E : Type) := {
  lcr3 : Z → E → E;
  load_esp0 : Z → E → E;
  kpgdir : E → Z
}.

(** Where [swtch] goes. *)
Inductive swto :=
| SwScheduler           (* mycpu()->scheduler *)
| SwThread (nxt : nat)  (* nxt->context *)
| SwStay.               (* no switch *)

Section sched.
  Context {E : Type} `{!Hw E}.
  Abbreviation KM := (M (kstate E)).

(** [upd_cpu] on the executing CPU: [mycpu()->f = v]. *)
Definition st_mycpu (f : cpu → cpu) : KM unit :=
  i ← on_cpus mycpu;
  modify (λ s, set_k_cpus (upd_cpu i f (k_cpus s)) s).
Definition ld_mycpu {A} (f : cpu → A) : KM A :=
  i ← on_cpus mycpu; c ← on_cpus (ld_cpu i); mret (f c).
Definition upd_ext (f : E → E) : KM unit := modify (λ s, set_k_ext (f (k_ext s)) s).

(** ** [vm.c]: loading a process *)

Definition switchkvm : KM unit := upd_ext (λ e, lcr3 (V2P (kpgdir e)) e).

Definition invalidate_tlb (p : nat) : KM unit :=
  on_cpus pushcli;;
  pgdir ← rd p p_pgdir;
  upd_ext (lcr3 (V2P pgdir));;
  on_cpus popcli.

Definition switchuvm (p : option nat) : KM unit :=
  match p with
  | None => panic "switchuvm: no process"
  | Some p =>
      kstack ← rd p p_kstack;
      if Z.eqb kstack 0 then panic "switchuvm: no kstack"
      else
        pgdir ← rd p p_pgdir;
        if Z.eqb pgdir 0 then panic "switchuvm: no pgdir"
        else
          on_cpus pushcli;;
          on_cpus mycpu;;
          upd_ext (load_esp0 (u32 (kstack + KSTACKSIZE)));;
          upd_ext (lcr3 (V2P pgdir));;
          on_cpus popcli
  end.

Definition vswitchuvm (p : nat) : KM unit :=
  on_cpus pushcli;;
  on_cpus mycpu;;
  kstack ← rd p p_kstack;
  upd_ext (load_esp0 (u32 (kstack + KSTACKSIZE)));;
  on_cpus popcli.

(** ** Stride *)

Definition set_cpu_share (share : Z) : KM Z :=
  if Z.ltb share 1 || Z.ltb (100 - RESERVE) share then mret (-1)
  else
    on_cpus (acquire Lptable);;
    p ← on_cpus myproc;
    p ← deref p;
    thmain ← main_thread p;
    remain ← gets (λ s, mq_tickets (k_mlfq s));
    ty ← rd p p_type;
    mt ← rd thmain p_tickets;
    let remain := if decide (ty = STRIDE) then remain + mt else remain in
    if Z.leb RESERVE (remain - share) then
      (if decide (ty = MLFQ) then
         dequeue_proc p;;
         minpass ← getminpass;
         mlfqpass ← gets (λ s, mq_pass (k_mlfq s));
         wr thmain (set_p_pass (if Z.ltb minpass mlfqpass then minpass else mlfqpass));;
         threads_apply0 thmain __routine_set_stride;;
         on_links (list_add (Some (NProc Frun p)) (Some NStrideRun))
       else mret tt);;
      modify (upd_mlfq (set_mq_tickets (remain - share)));;
      wr thmain (set_p_tickets share);;
      on_cpus (release Lptable);;
      mret 0
    else
      on_cpus (release Lptable);;
      mret (-1).

(** [STRD(t)]. *)
Definition STRD (t : Z) : KM Z := idiv LARGENUM t.

(** [main_thread(q)->pass -= minpass]. *)
Definition lower_pass (minpass : Z) (q : nat) : KM unit :=
  m ← main_thread q;
  v ← rd m p_pass;
  wr m (set_p_pass (s32 (v - minpass))).

(** [p == 0 || p->type == MLFQ]. *)
Definition is_mlfq_or_null (p : option nat) : KM bool :=
  match p with
  | None => mret true
  | Some q => ty ← rd q p_type; mret (bool_decide (ty = MLFQ))
  end.

Definition stridelogic (p : option nat) : KM unit :=
  mlfq ← is_mlfq_or_null p;
  minpass ← (if mlfq : bool then gets (λ s, mq_pass (k_mlfq s))
             else q ← deref p; m ← main_thread q; rd m p_pass);
  when (Z.ltb BARRIER minpass) (
    n ← gets (λ s, st_size (k_stride s));
    for_each (Z.of_nat <$> seq 1 (Z.to_nat n)) (λ i,
      q ← ld_heap i; q ← deref q; lower_pass minpass q);;
    for_list (Some NStrideRun) Frun (lower_pass minpass);;
    modify (upd_mlfq (λ m, set_mq_pass (s32 (mq_pass m - minpass)) m)));;
  mlfq ← is_mlfq_or_null p;
  if mlfq : bool then
    t ← gets (λ s, mq_tickets (k_mlfq s));
    d ← STRD t;
    modify (upd_mlfq (λ m, set_mq_pass (s32 (mq_pass m + d)) m))
  else
    p ← deref p;
    ty ← rd p p_type;
    if decide (ty = STRIDE) then
      thmain ← main_thread p;
      t ← rd thmain p_tickets;
      d ← STRD t;
      v ← rd thmain p_pass;
      wr thmain (set_p_pass (s32 (v + d)));;
      nxt ← ready_thread p;
      match nxt with
      | Some n => pushheap n
      | None =>
          nxt ← sleeping_thread p;
          match nxt with Some n => pushheap n | None => mret tt end
      end
    else mret tt.

(** ** The scheduler *)

(** One round up to [swtch]: the process chosen, and whether it is run. *)
Definition scheduler_select : KM (option nat * bool) :=
  on_cpus sti;;
  on_cpus (acquire Lptable);;
  minpass ← getminpass;
  mlfqpass ← gets (λ s, mq_pass (k_mlfq s));
  p ← (if Z.ltb minpass mlfqpass then popheap else mlfqselect);
  match p with
  | None => mret (p, false)
  | Some q =>
      st ← rd q p_state;
      if decide (st = RUNNABLE) then
        ty ← rd q p_type;
        (if decide (ty = STRIDE)
         then on_links (list_add (Some (NProc Frun q)) (Some NStrideRun)) else mret tt);;
        st_mycpu (set_cpu_proc (Some q));;
        switchuvm (Some q);;
        wr q (set_p_state RUNNING);;
        mret (p, true)
      else mret (p, false)
  end.

(** The rest of the round, with the scheduler's own [p]. *)
Definition scheduler_finish (p : option nat) (ran : bool) : KM unit :=
  when ran (
    switchkvm;;
    q ← deref p;
    ty ← rd q p_type;
    if decide (ty = MLFQ) then c ← ld_mycpu cpu_proc; c ← deref c; mlfqlogic c
    else on_links (list_del (Some (NProc Frun q))));;
  t ← gets (λ s, mq_ticks (k_mlfq s));
  when (Z.leb BOOSTINTERVAL t) priority_boost;;
  own ← match p with
        | None => mret true
        | Some q => st ← rd q p_state; mret (bool_decide (st = SLEEPING))
        end;
  (if own : bool then stridelogic p else c ← ld_mycpu cpu_proc; stridelogic c);;
  st_mycpu (set_cpu_proc None);;
  on_cpus (release Lptable).

(** [sched] up to its switch: where to go, and the saved [intena]. *)
Definition sched : KM (swto * Z) :=
  p ← on_cpus myproc;
  p ← deref p;
  thmain ← main_thread p;
  nxt ← ready_thread p;
  h ← on_cpus (holding Lptable);
  if negb h then panic "sched ptable.lock"
  else
    n ← ld_mycpu ncli;
    if negb (Z.eqb n 1) then panic "sched locks"
    else
      st ← rd p p_state;
      if decide (st = RUNNING) then panic "sched running"
      else
        fl ← on_cpus readeflags;
        if negb (Z.eqb (Z.land fl FL_IF) 0) then panic "sched interruptible"
        else
          intena ← ld_mycpu intena;
          ticks ← rd thmain p_ticks;
          match nxt with
          | Some nxt =>
              if Z.eqb (Z.rem ticks DTQ) 0 then mret (SwScheduler, intena)
              else if decide (p ≠ nxt) then
                vswitchuvm nxt;;
                st_mycpu (set_cpu_proc (Some nxt));;
                wr nxt (set_p_state RUNNING);;
                mret (SwThread nxt, intena)
              else
                wr p (set_p_state RUNNING);;
                mret (SwStay, intena)
          | None => mret (SwScheduler, intena)
          end.

(** What [sched] does when control comes back. *)
Definition sched_back (intena : Z) : KM unit := st_mycpu (set_intena intena).

Definition yield : KM (swto * Z) :=
  on_cpus (acquire Lptable);;
  p ← on_cpus myproc;
  p ← deref p;
  thmain ← main_thread p;
  t ← rd thmain p_ticks;
  wr thmain (set_p_ticks (u32 (t + 1)));;
  ty ← rd thmain p_type;
  (if decide (ty = MLFQ)
   then modify (upd_mlfq (λ m, set_mq_ticks (u32 (mq_ticks m + 1)) m)) else mret tt);;
  wr p (set_p_state RUNNABLE);;
  sched.

Definition yield_back (intena : Z) : KM unit :=
  sched_back intena;;
  on_cpus (release Lptable).

(** ** Sleep and wakeup *)

(** [p->chan = chan; if(p->type == MLFQ) dequeue_thread(p); p->state =
    SLEEPING; list_add(&p->sleep, &ptable.sleep);] *)
Definition go_to_sleep (p : nat) (ch : chan) : KM unit :=
  wr p (set_p_chan ch);;
  ty ← rd p p_type;
  (if decide (ty = MLFQ) then dequeue_thread p else mret tt);;
  wr p (set_p_state SLEEPING);;
  on_links (list_add (Some (NProc Fsleep p)) (Some NSleep)).

Definition sleep (ch : chan) (lk : option lockid) : KM (swto * Z) :=
  p ← on_cpus myproc;
  match p with
  | None => panic "sleep"
  | Some p =>
      match lk with
      | None => panic "sleep without lk"
      | Some lk =>
          (if decide (lk ≠ Lptable) then on_cpus (acquire Lptable);; on_cpus (release lk) else mret tt);;
          go_to_sleep p ch;;
          sched
      end
  end.

Definition sleep_back (lk : lockid) (intena : Z) : KM unit :=
  sched_back intena;;
  p ← on_cpus myproc;
  p ← deref p;
  wr p (set_p_chan Cnull);;
  if decide (lk ≠ Lptable) then on_cpus (release Lptable);; on_cpus (acquire lk) else mret tt.

(** [list_del(&p->sleep); p->state = RUNNABLE; if(p->type == MLFQ) enqueue_thread(p);] *)
Definition wake_thread (p : nat) : KM unit :=
  on_links (list_del (Some (NProc Fsleep p)));;
  wr p (set_p_state RUNNABLE);;
  ty ← rd p p_type;
  if decide (ty = MLFQ) then enqueue_thread p else mret tt.

Definition wakeup1 (ch : chan) : KM unit :=
  let q := Some NSleep in
  itr ← on_links (ld_next q);
  loop queue_fuel (λ itr,
    if decide (itr = q) then mret (inr tt)
    else
      p ← list_entry Fsleep itr;
      itr ← on_links (ld_next itr);
      c ← rd p p_chan;
      (if decide (c = ch) then wake_thread p else mret tt);;
      mret (inl itr)) itr.

Definition wakeup (ch : chan) : KM unit :=
  on_cpus (acquire Lptable);;
  wakeup1 ch;;
  on_cpus (release Lptable).

Definition kill (pid : Z) : KM Z :=
  on_cpus (acquire Lptable);;
  loop (S NPROC) (λ p,
    if (p <? NPROC)%nat then
      pp ← rd p p_pid;
      if Z.eqb pp pid then
        terminate_proc p;;
        st ← rd p p_state;
        (if decide (st = SLEEPING) then wake_thread p else mret tt);;
        on_cpus (release Lptable);;
        mret (inr 0)
      else mret (inl (S p))
    else
      on_cpus (release Lptable);;
      mret (inr (-1))) 0%nat.

End sched.

Close Scope Z_scope.
