(* ===== verification/SchedInv.v ===== *)
(** * The run-state invariant of the process table

    [sched_inv s Q SL] ties the states of the threads to the lists they are
    linked on: [Q l] holds the RUNNABLE and RUNNING threads of MLFQ processes
    of level [l], [SL] the SLEEPING threads.  It is kept by waking a thread,
    by [wakeup1] and by the part of [sleep] that goes to sleep. *)

From S2P Require Import Prelude.
From S2P Require Import ListH.
From S2P Require Import Spinlock.
From S2P Require Import Kstate.
From S2P Require Import ThreadCore.
From S2P Require Import StrideHeap.
From S2P Require Import Mlfq.
From S2P Require Import Sched.

Open Scope Z_scope.

Section sched_inv.
  Context {E : Type} `{!Hw E}.
  Abbreviation KM := (M (kstate E)).

(** The threads that are linked on a queue or on the sleep list. *)
Definition listed (Q : nat → list nat) (SL : list nat) (q : nat) : Prop :=
  q ∈ SL ∨ ∃ l, (l < QSIZE)%nat ∧ q ∈ Q l.

(** A process all of whose threads are of type MLFQ and stand in queue [l]
    exactly when they are RUNNABLE or RUNNING; a listed thread with its pid is
    one of its threads. *)
Record mlfq_group (s : kstate E) (Q : nat → list nat) (SL : list nat)
    (p : nat) (ths : list nat) (m l : nat) : Prop := {
  mg_group : group s p ths m;
  mg_level : at_level s m l;
  mg_mem : ∀ q, q ∈ p :: ths → p_type (pr s q) = MLFQ ∧ (in_mlfq (pr s q) = true ↔ q ∈ Q l) ∧
           ∀ l', (l' < QSIZE)%nat → q ∈ Q l' → l' = l;
  mg_pid : ∀ q, listed Q SL q → p_pid (pr s q) = p_pid (pr s m) → q ∈ p :: ths
}.

Record sched_inv (s : kstate E) (Q : nat → list nat) (SL : list nat) : Prop := {
  si_queues : queues s Q;
  si_pins : pins_ok s Q;
  si_sleep : dlist (links s) NSleep (NProc Fsleep <$> SL);
  si_idx : ∀ p, listed Q SL p → (p < NPROC)%nat;
  si_sleeping : ∀ p, p ∈ SL → p_state (pr s p) = SLEEPING;
  si_in_mlfq : ∀ l q, (l < QSIZE)%nat → q ∈ Q l → in_mlfq (pr s q) = true ∧ p_type (pr s q) = MLFQ;
  si_groups : ∀ p, p_type (pr s p) = MLFQ → listed Q SL p → ∃ ths m l, mlfq_group s Q SL p ths m l
}.

Lemma NoDup_bounded (l : list nat) n : NoDup l → (∀ x, x ∈ l → (x < n)%nat) → (length l ≤ n)%nat.
Proof.
  intros Hnd Hb. assert (l ⊆ seq 0 n) as Hsub.
  { intros x Hx. apply elem_of_seq. specialize (Hb x Hx). lia. }
  pose proof (NoDup_submseteq _ _ Hnd Hsub) as Hle%submseteq_length. by rewrite length_seq in Hle.
Qed.

Lemma si_NoDup_sleep s Q SL : sched_inv s Q SL → NoDup SL.
Proof. intros H. destruct (si_sleep _ _ _ H) as [[_ Hnd]%NoDup_cons _]. by apply NoDup_fmap_1 in Hnd. Qed.

Lemma si_len_sleep s Q SL : sched_inv s Q SL → (length SL ≤ NPROC)%nat.
Proof.
  intros H. apply NoDup_bounded; [by eapply si_NoDup_sleep|]. intros x Hx. apply (si_idx _ _ _ H). by left.
Qed.

Lemma si_len_queue s Q SL l : sched_inv s Q SL → (l < QSIZE)%nat → (length (Q l) ≤ NPROC)%nat.
Proof.
  intros H Hl. apply NoDup_bounded; [eapply NoDup_queue; [apply H|done]|].
  intros x Hx. apply (si_idx _ _ _ H). right. eauto.
Qed.

Lemma sleeping_not_queued s Q SL p l : sched_inv s Q SL → (l < QSIZE)%nat → p ∈ SL → p ∉ Q l.
Proof.
  intros H Hl Hp Hq. destruct (si_in_mlfq _ _ _ H l p Hl Hq) as [Hin _].
  apply bool_decide_eq_true_1 in Hin. rewrite (si_sleeping _ _ _ H p Hp) in Hin. destruct Hin; done.
Qed.

(** The threads of a group have one level. *)
Lemma mlfq_group_det s Q SL p q ths m l ths' m' l' :
  mlfq_group s Q SL p ths m l → mlfq_group s Q SL q ths' m' l' → p ∈ q :: ths' → m = m' ∧ l = l'.
Proof.
  intros [(_ & _ & Hg) (_ & Hl) _ _] [(_ & _ & Hg') (_ & Hl') _ _] Hp.
  destruct (Hg p ltac:(set_solver)) as [Hm _], (Hg' p Hp) as [Hm' _].
  pose proof (main_of_det _ _ _ _ Hm Hm') as ->. split; [done|]. lia.
Qed.

(** ** Leaving the sleep list *)

(** The state with [p] off the sleep list and RUNNABLE. *)
Definition awake (p : nat) (h : gmap lnode (list_head lnode)) (s : kstate E) : kstate E :=
  upd_proc p (set_p_state RUNNABLE) (set_links h s).

Lemma pr_awake p h s q :
  pr (awake p h s) q = if decide (p = q) then set_p_state RUNNABLE (pr s p) else pr s q.
Proof. unfold awake. by rewrite pr_upd. Qed.

Lemma thring_frame_sleep ns (s s' : kstate E) p ths :
  lframe ns (links s) (links s') → (∀ x q, x ∈ ns → x ≠ NProc Fthgroup q) →
  thring s p ths → thring s' p ths.
Proof. intros Hf Hns. apply thring_links. intros q. apply Hf. intros Hq. by eapply Hns. Qed.

Lemma queues_frame ns (s s' : kstate E) Q :
  lframe ns (links s) (links s') →
  (∀ x, x ∈ ns → (∀ l, x ≠ NQueue l) ∧ (∀ q, x ≠ NProc Fmlfq q)) → queues s Q → queues s' Q.
Proof.
  intros Hf Hns [Hd Hx]. split; [|done]. intros l Hl. eapply dlist_frame; [exact Hf| |by apply Hd].
  intros x Hx' [Hn1 Hn2]%Hns. apply elem_of_cons in Hx' as [->|(q & -> & _)%list_elem_of_fmap]; [by eapply Hn1|by eapply Hn2].
Qed.

Lemma sleep_node_other SL x :
  x ∈ NSleep :: (NProc Fsleep <$> SL) →
  (∀ l, x ≠ NQueue l) ∧ (∀ q, x ≠ NProc Fmlfq q) ∧ (∀ q, x ≠ NProc Fthgroup q).
Proof. intros [->|(q & -> & _)%list_elem_of_fmap]%elem_of_cons; done. Qed.

(** [list_del(&p->sleep); p->state = RUNNABLE] makes [p] queueable. *)
Lemma awake_queueable s Q SL p h ths m l :
  sched_inv s Q SL → p ∈ SL → mlfq_group s Q SL p ths m l →
  lframe (NSleep :: (NProc Fsleep <$> SL)) (links s) h →
  queueable (awake p h s) Q p ths m l.
Proof.
  intros H Hp [Hg Hlv Hmem _] Hf. pose proof Hg as (Hr & Hlt & Hgm).
  assert (∀ x, p_thmain (pr (awake p h s) x) = p_thmain (pr s x)) as Ht.
  { intros x. rewrite pr_awake. by case_decide; subst. }
  assert (∀ x, p_pid (pr (awake p h s) x) = p_pid (pr s x)) as Hpid.
  { intros x. rewrite pr_awake. by case_decide; subst. }
  split.
  - eapply (queues_frame _ s); [exact Hf| |apply H]. intros x Hx%sleep_node_other. tauto.
  - apply H.
  - eapply group_ext; [done|done| |exact Hg].
    eapply (thring_frame_sleep _ s); [exact Hf| |done]. intros x q Hx%sleep_node_other. naive_solver.
  - destruct Hlv as [Hl Hlv]. split; [done|]. rewrite pr_awake. by case_decide; subst.
  - intros l' Hl'. by eapply sleeping_not_queued.
  - intros q Hq. rewrite pr_awake. rewrite decide_False; [apply Hmem; set_solver|].
    intros <-. apply thring_NoDup, NoDup_cons in Hr. tauto.
Qed.

(** The groups after [p], on level [l0], was put in its queue. *)
Lemma mlfq_group_woken s s' Q Q' SL SL' p l0 L q ths m l :
  mlfq_group s Q SL q ths m l →
  (p ∈ q :: ths → l = l0) → (∀ l', (l' < QSIZE)%nat → p ∉ Q l') →
  L ≡ₚ p :: Q l0 → (∀ k, Q' k = setq Q l0 L k) →
  (∀ x, pr s' x = if decide (p = x) then set_p_state RUNNABLE (pr s p) else pr s x) →
  (∀ x, lh (links s') (NProc Fthgroup x) = lh (links s) (NProc Fthgroup x)) →
  (∀ x, listed Q' SL' x → listed Q SL x) →
  mlfq_group s' Q' SL' q ths m l.
Proof.
  intros [Hg Hlv Hmem Hpid] Hl0 Hout HL HQ' Hpr Hth Hls.
  assert (∀ k x, x ∈ Q' k ↔ x ∈ Q k ∨ (k = l0 ∧ x = p)) as HQm.
  { intros k x. rewrite HQ'. unfold setq. case_decide; subst; [rewrite HL, elem_of_cons|]; naive_solver. }
  assert (∀ x, p_thmain (pr s' x) = p_thmain (pr s x) ∧ p_pid (pr s' x) = p_pid (pr s x) ∧
    p_type (pr s' x) = p_type (pr s x) ∧ p_privlevel (pr s' x) = p_privlevel (pr s x)) as Hsame.
  { intros x. rewrite Hpr. by case_decide; subst. }
  split.
  - eapply group_ext; [apply Hsame|apply Hsame|by eapply thring_links, Hg|done].
  - destruct Hlv as [Hl Hlv]. split; [done|]. by destruct (Hsame m) as (_ & _ & _ & ->).
  - intros x Hx. destruct (Hmem x Hx) as (Hty & Hin & Hlev).
    destruct (Hsame x) as (_ & _ & -> & _). split; [done|]. rewrite HQm, Hpr.
    destruct (decide (p = x)) as [<-|Hne].
    + split; [split; [|done]|].
      * intros _. right. split; [by apply Hl0|done].
      * intros l' Hl' [?|[-> _]]%HQm; [by eapply Hlev|symmetry; by apply Hl0].
    + split; [naive_solver|]. intros l' Hl' [?|[_ ->]]%HQm; [by apply Hlev|done].
  - intros x Hx. destruct (Hsame x) as (_ & -> & _), (Hsame m) as (_ & -> & _). by apply Hpid, Hls.
Qed.

(** Only process entries, links and pins may have changed. *)
Definition run_frame (s s' : kstate E) : Prop :=
  s' = set_procs (procs s') (set_links (links s')
         (set_k_mlfq (set_mq_pin (mq_pin (k_mlfq s')) (k_mlfq s)) s)).

Lemma run_frame_refl s : run_frame s s.
Proof. unfold run_frame. by destruct s as [? ? [] ? ? ? ? ? ?]. Qed.

Lemma run_frame_trans s1 s2 s3 : run_frame s1 s2 → run_frame s2 s3 → run_frame s1 s3.
Proof. unfold run_frame. intros -> ->. done. Qed.

Lemma mlfq_run_frame ns s s' : mlfq_frame ns s s' → run_frame s s'.
Proof. intros [_ ->]. unfold run_frame. by destruct s as [? ? [] ? ? ? ? ? ?]. Qed.

Lemma awake_run_frame p h s : run_frame s (awake p h s).
Proof. unfold run_frame. by destruct s as [? ? [] ? ? ? ? ? ?]. Qed.

(** What waking [p] does to the queues: an MLFQ thread joins its queue next
    to its siblings, a STRIDE thread joins none. *)
Definition woken (s : kstate E) (Q : nat → list nat) (SL : list nat) (p : nat) (Q' : nat → list nat) : Prop :=
  if decide (p_type (pr s p) = MLFQ) then
    ∃ ths m l L, mlfq_group s Q SL p ths m l ∧ enqueued s p ths (Q l) L ∧ Q' = setq Q l L
  else Q' = Q.

Lemma enqueued_awake s h p ths L L' :
  p ∉ ths → enqueued (awake p h s) p ths L L' → enqueued s p ths L L'.
Proof.
  intros Hp. unfold enqueued.
  assert (∀ ths, p ∉ ths → find (λ q, in_mlfq (pr (awake p h s) q)) ths = find (λ q, in_mlfq (pr s q)) ths) as ->; [|done|done].
  clear ths Hp. induction ths as [|x ths IH]; intros Hp; [done|]. simpl.
  rewrite pr_awake, decide_False by set_solver. rewrite IH by set_solver. done.
Qed.

Lemma sched_inv_stride_wake s Q SL1 p SL2 h :
  sched_inv s Q (SL1 ++ p :: SL2) → p_type (pr s p) ≠ MLFQ →
  dlist h NSleep (NProc Fsleep <$> (SL1 ++ SL2)) →
  lframe (NSleep :: (NProc Fsleep <$> (SL1 ++ p :: SL2))) (links s) h →
  sched_inv (awake p h s) Q (SL1 ++ SL2).
Proof.
  intros H Hty Hd Hf. set (SL := SL1 ++ p :: SL2) in *.
  assert (∀ q, q ∈ SL1 ++ SL2 → q ∈ SL) as Hsub by (unfold SL; set_solver).
  assert (∀ l, (l < QSIZE)%nat → p ∉ Q l) as Hout.
  { intros l Hl. eapply sleeping_not_queued; [exact H|done|unfold SL; set_solver]. }
  assert (p ∉ SL1 ++ SL2) as HpSL.
  { pose proof (si_NoDup_sleep _ _ _ H) as [? ?]%NoDup_mid_notin. set_solver. }
  assert (∀ q, q ≠ p → pr (awake p h s) q = pr s q) as Hpr by (intros; rewrite pr_awake; by case_decide).
  split.
  - eapply (queues_frame _ s); [exact Hf| |apply H]. intros x Hx%sleep_node_other. tauto.
  - apply H.
  - done.
  - intros q [Hq|Hq]; apply (si_idx _ _ _ H); [left; auto|by right].
  - intros q Hq. rewrite Hpr by congruence. by apply (si_sleeping _ _ _ H), Hsub.
  - intros l q Hl Hq. rewrite Hpr by (intros ->; by eapply Hout). by apply (si_in_mlfq _ _ _ H l).
  - intros q Hq Hls. assert (q ≠ p) as Hne.
    { intros ->. rewrite pr_awake, decide_True in Hq by done. done. }
    rewrite Hpr in Hq by done.
    destruct (si_groups _ _ _ H q Hq) as (ths & m & l & [Hg Hlv Hmem Hpid]).
    { destruct Hls; [left; auto|by right]. }
    exists ths, m, l. assert (∀ x, x ∈ q :: ths → x ≠ p) as Hnp.
    { intros x Hx ->. by destruct (Hmem p Hx) as (? & _). }
    assert (∀ x, p_thmain (pr (awake p h s) x) = p_thmain (pr s x) ∧ p_pid (pr (awake p h s) x) = p_pid (pr s x)
      ∧ p_privlevel (pr (awake p h s) x) = p_privlevel (pr s x)) as Hsame.
    { intros x. rewrite pr_awake. by case_decide; subst. }
    split.
    + eapply group_ext; [apply Hsame|apply Hsame| |done].
      eapply (thring_frame_sleep _ s); [exact Hf| |apply Hg]. intros x y Hx%sleep_node_other. naive_solver.
    + destruct Hlv as [Hl Hlv]. split; [done|]. by destruct (Hsame m) as (_ & _ & ->).
    + intros x Hx. rewrite Hpr by auto. by apply Hmem.
    + intros x Hx. destruct (Hsame x) as (_ & -> & _), (Hsame m) as (_ & -> & _). apply Hpid.
      destruct Hx; [left; auto|by right].
Qed.

Lemma wake_thread_spec s Q SL1 p SL2 :
  sched_inv s Q (SL1 ++ p :: SL2) →
  wp (wake_thread p) (λ _ s', ∃ Q',
    sched_inv s' Q' (SL1 ++ SL2) ∧ woken s Q (SL1 ++ p :: SL2) p Q' ∧ run_frame s s' ∧
    (∀ x, pr s' x = if decide (p = x) then set_p_state RUNNABLE (pr s p) else pr s x)) s.
Proof.
  intros H. set (SL := SL1 ++ p :: SL2) in *. pose proof (si_sleep _ _ _ H) as Hd.
  unfold wake_thread. apply wp_bind, wp_on_links. unfold SL in Hd. rewrite fmap_app, fmap_cons in Hd.
  wcall (list_del_spec (links s)); [exact Hd|]. intros [] h (Hd' & _ & _ & Hf).
  rewrite <-fmap_app in Hd'. rewrite <-fmap_cons, <-fmap_app in Hf. do 4 kstep.
  change (upd_proc p (set_p_state RUNNABLE) (set_links h s)) with (awake p h s).
  assert (p ∈ SL) as HpSL by (unfold SL; set_solver).
  assert (∀ q, q ∈ SL1 ++ SL2 → q ∈ SL) as Hsub by (unfold SL; set_solver).
  assert (p ∉ SL1 ++ SL2) as HpSL'.
  { pose proof (si_NoDup_sleep _ _ _ H) as [? ?]%NoDup_mid_notin. set_solver. }
  assert (∀ l, (l < QSIZE)%nat → p ∉ Q l) as Hout.
  { intros l Hl. by eapply sleeping_not_queued. }
  rewrite pr_awake, (decide_True (P := p = p)) by done. unfold woken.
  change (p_type (set_p_state RUNNABLE (pr s p))) with (p_type (pr s p)).
  destruct (decide (p_type (pr s p) = MLFQ)) as [Hty|Hty]; cycle 1.
  { apply wp_ret. exists Q. split_and!; [by apply sched_inv_stride_wake|done|apply awake_run_frame|].
    intros x. by rewrite pr_awake. }
  destruct (si_groups _ _ _ H p Hty (or_introl HpSL)) as (ths & m & l & Hmg).
  wcall (enqueue_thread_spec (awake p h s) Q p ths m l); [by eapply awake_queueable| |].
  { rewrite pr_awake, decide_True by done. done. }
  intros [] s' (L & HL & Hq' & Hp' & Hfr). exists (setq Q l L).
  pose proof (enqueued_perm _ _ _ _ _ HL) as HLp. pose proof (mg_level _ _ _ _ _ _ _ Hmg) as [Hl _].
  assert (∀ x, pr s' x = if decide (p = x) then set_p_state RUNNABLE (pr s p) else pr s x) as Hpr.
  { intros x. rewrite (mlfq_frame_pr _ _ _ _ Hfr). apply pr_awake. }
  assert (∀ k x, x ∈ setq Q l L k ↔ x ∈ Q k ∨ (k = l ∧ x = p)) as HQm.
  { intros k x. unfold setq. case_decide; subst; [rewrite HLp, elem_of_cons|]; naive_solver. }
  assert (∀ x, listed (setq Q l L) (SL1 ++ SL2) x → listed Q SL x) as Hls.
  { intros x [Hx|(k & Hk & Hx)]; [left; auto|]. apply HQm in Hx as [Hx|[_ ->]]; [right; eauto|by left]. }
  assert (∀ x, lh (links s') (NProc Fthgroup x) = lh (links s) (NProc Fthgroup x)) as Hth.
  { intros x. etrans; [apply (mlfq_frame_links _ _ _ Hfr)|apply Hf].
    - intros [?|Hx]%elem_of_cons; [done|]. by apply (queue_not_thgroup _ _ _ Hx x).
    - intros Hx%sleep_node_other. naive_solver. }
  split_and!; [|exists ths, m, l, L; split_and!; [done| |done]| |done].
  - split; [done|done| | | | |].
    + eapply dlist_frame; [apply (mlfq_frame_links _ _ _ Hfr)| |exact Hd'].
      intros x Hx%sleep_node_other. unfold qnodes. rewrite !elem_of_cons, list_elem_of_fmap. naive_solver.
    + intros x Hx. by apply (si_idx _ _ _ H), Hls.
    + intros x Hx. rewrite Hpr, decide_False by congruence. by apply (si_sleeping _ _ _ H), Hsub.
    + intros k x Hk [Hx|[-> ->]]%HQm.
      * rewrite Hpr, decide_False by (intros <-; by eapply Hout). by apply (si_in_mlfq _ _ _ H k).
      * rewrite Hpr, decide_True by done. done.
    + intros x Hx Hx'. destruct (si_groups _ _ _ H x) as (ths' & m' & l' & Hmg').
      { rewrite Hpr in Hx. case_decide; by subst. } { by apply Hls. }
      exists ths', m', l'. eapply (mlfq_group_woken s s' Q _ SL _ p l L); try done.
      intros Hpx. by destruct (mlfq_group_det _ _ _ _ _ _ _ _ _ _ _ Hmg Hmg' Hpx).
  - eapply enqueued_awake; [|exact HL]. destruct (mg_group _ _ _ _ _ _ _ Hmg) as (Hr & _).
    apply thring_NoDup, NoDup_cons in Hr. tauto.
  - eapply run_frame_trans; [apply awake_run_frame|by eapply mlfq_run_frame].
Qed.

(** ** [wakeup1] wakes exactly the threads sleeping on the channel *)

Definition still_asleep (s : kstate E) (ch : chan) (SL : list nat) : list nat :=
  filter (λ p, p_chan (pr s p) ≠ ch) SL.

(** The entry of thread [x] after the threads [dn] were looked at. *)
Definition woken_entry (s : kstate E) (ch : chan) (dn : list nat) (x : nat) : proc :=
  if decide (x ∈ dn ∧ p_chan (pr s x) = ch) then set_p_state RUNNABLE (pr s x) else pr s x.

Lemma woken_entry_chan s ch dn x : p_chan (woken_entry s ch dn x) = p_chan (pr s x).
Proof. unfold woken_entry. by case_decide. Qed.

Lemma wakeup1_spec s Q SL ch :
  sched_inv s Q SL →
  wp (wakeup1 ch) (λ _ s', ∃ Q',
    sched_inv s' Q' (still_asleep s ch SL) ∧ run_frame s s' ∧
    (∀ x, pr s' x = woken_entry s ch SL x) ∧
    (∀ l q, (l < QSIZE)%nat → q ∈ Q' l → q ∈ Q l ∨ (q ∈ SL ∧ p_chan (pr s q) = ch))) s.
Proof.
  intros H. unfold wakeup1. krun ld_next_run.
  set (P := λ (rest : list nat) (s' : kstate E), ∃ dn Q', SL = dn ++ rest ∧
    sched_inv s' Q' (still_asleep s ch dn ++ rest) ∧ run_frame s s' ∧
    (∀ x, pr s' x = woken_entry s ch dn x) ∧
    (∀ l q, (l < QSIZE)%nat → q ∈ Q' l → q ∈ Q l ∨ (q ∈ dn ∧ p_chan (pr s q) = ch))).
  eapply (wp_loop (λ n itr s', ∃ rest, n = length rest ∧
    itr = Some (default NSleep (head (NProc Fsleep <$> rest))) ∧ P rest s') _ _) with (n := length SL).
  - intros n itr s' (rest & -> & -> & dn & Q' & HSL & Hinv & Hfr & Hpr & Hqs).
    destruct rest as [|p rest].
    { simpl. apply wp_ret. rewrite app_nil_r in *. subst dn. exists Q'. done. }
    change (default NSleep (head (NProc Fsleep <$> p :: rest))) with (NProc Fsleep p).
    rewrite decide_False by done. krun list_entry_run.
    pose proof (si_sleep _ _ _ Hinv) as Hd. rewrite fmap_app, fmap_cons in Hd.
    assert (nxt (links s') (NProc Fsleep p) = Some (default NSleep (head (NProc Fsleep <$> rest)))) as Hn.
    { destruct rest; [by apply dlist_next_end in Hd|by apply dlist_next_in in Hd as [? _]]. }
    krun ld_next_run. rewrite Hn. do 2 kstep. rewrite Hpr, woken_entry_chan.
    assert (p ∉ dn) as Hpd.
    { pose proof (si_NoDup_sleep _ _ _ H) as Hnd. rewrite HSL in Hnd. by apply NoDup_mid_notin in Hnd as [? _]. }
    assert (∀ x, woken_entry s ch (dn ++ [p]) x
                 = if decide (p = x ∧ p_chan (pr s x) = ch) then set_p_state RUNNABLE (pr s x)
                   else woken_entry s ch dn x) as Hwe.
    { intros x. unfold woken_entry. destruct (decide (p = x ∧ _)) as [[<- ?]|Hne].
      - rewrite decide_True by set_solver. done.
      - destruct (decide (x ∈ dn ∧ p_chan (pr s x) = ch)); [rewrite decide_True by set_solver; done|].
        rewrite decide_False; [done|]. set_solver. }
    apply wp_bind.
    assert (∀ s'', P rest s'' → ∃ n', (n' < length (p :: rest))%nat ∧ ∃ rest', n' = length rest' ∧
      Some (default NSleep (head (NProc Fsleep <$> rest))) = Some (default NSleep (head (NProc Fsleep <$> rest'))) ∧
      P rest' s'') as Hnext.
    { intros s'' HP. exists (length rest). split; [simpl; lia|]. by exists rest. }
    destruct (decide (p_chan (pr s p) = ch)) as [Hc|Hc].
    + wcall wake_thread_spec; [exact Hinv|]. intros [] s2 (Q2 & Hinv2 & Hwk & Hfr2 & Hpr2). apply wp_ret, Hnext.
      exists (dn ++ [p]), Q2. split_and!; [by rewrite <-app_assoc| | | |].
      * unfold still_asleep. rewrite filter_app, filter_cons, filter_nil, decide_False by tauto.
        by rewrite app_nil_r.
      * by eapply run_frame_trans.
      * intros x. rewrite Hpr2, Hwe, !Hpr. destruct (decide (p = x)) as [<-|].
        -- rewrite decide_True by done. unfold woken_entry. rewrite decide_False by tauto. done.
        -- by rewrite decide_False by tauto.
      * intros l q Hl Hq. unfold woken in Hwk. case_decide.
        -- destruct Hwk as (ths & m & l0 & L & Hmg & HL & ->). unfold setq in Hq. case_decide; subst.
           ++ rewrite (enqueued_perm _ _ _ _ _ HL) in Hq. apply elem_of_cons in Hq as [->|Hq]; [set_solver|].
              destruct (Hqs _ _ Hl Hq); set_solver.
           ++ destruct (Hqs _ _ Hl Hq); set_solver.
        -- subst Q2. destruct (Hqs _ _ Hl Hq); set_solver.
    + apply wp_ret, wp_ret, Hnext. exists (dn ++ [p]), Q'. split_and!; [by rewrite <-app_assoc| |done| |].
      * unfold still_asleep. rewrite filter_app, filter_cons, filter_nil, decide_True by done.
        by rewrite <-app_assoc.
      * intros x. rewrite Hwe, Hpr. rewrite decide_False; [done|]. by intros [<- ?].
      * intros l q Hl Hq. destruct (Hqs _ _ Hl Hq); set_solver.
  - pose proof (si_len_sleep _ _ _ H). unfold queue_fuel. lia.
  - exists SL. split_and!; [done|by rewrite (dlist_next_head _ _ _ (si_sleep _ _ _ H))|].
    exists [], Q. split_and!; [done|done|apply run_frame_refl| |by left].
    intros x. unfold woken_entry. rewrite decide_False; [done|]. set_solver.
Qed.

(** ** Going to sleep *)

Lemma mlfq_group_queued s Q SL p ths m l :
  sched_inv s Q SL → mlfq_group s Q SL p ths m l → queued s Q p ths m l.
Proof.
  intros H [Hg Hlv Hmem Hpid]. split; [apply H|apply H|done|done| | | |].
  - eapply si_len_queue; [exact H|apply Hlv].
  - intros q Hq. by apply Hmem.
  - intros q Hq. apply Hpid. right. exists l. split; [apply Hlv|done].
  - intros q l' Hq. by apply Hmem.
Qed.

Lemma sched_inv_all_queued s Q SL : sched_inv s Q SL → all_queued s Q.
Proof.
  intros H l q Hl Hq. destruct (si_in_mlfq _ _ _ H l q Hl Hq) as [_ Hty].
  destruct (si_groups _ _ _ H q Hty) as (ths & m & l' & G); [by right; eauto|].
  assert (l = l') as -> by (by apply (mg_mem _ _ _ _ _ _ _ G q ltac:(set_solver))).
  exists ths, m. by eapply mlfq_group_queued.
Qed.

(** The invariant only reads these fields of the process entries. *)
Definition same_run (x y : proc) : Prop :=
  p_state x = p_state y ∧ p_type x = p_type y ∧ p_thmain x = p_thmain y ∧
  p_pid x = p_pid y ∧ p_privlevel x = p_privlevel y.

Lemma same_run_in_mlfq x y : same_run x y → in_mlfq x = in_mlfq y.
Proof. unfold in_mlfq. by intros (-> & _). Qed.

Lemma mlfq_group_ext s s' Q SL p ths m l :
  (∀ x, same_run (pr s' x) (pr s x)) → thring s' p ths →
  mlfq_group s Q SL p ths m l → mlfq_group s' Q SL p ths m l.
Proof.
  intros Hsr Hr [Hg [Hl Hlv] Hmem Hpid]. split.
  - eapply group_ext; [apply Hsr|apply Hsr|done|done].
  - split; [done|]. by destruct (Hsr m) as (_ & _ & _ & _ & ->).
  - intros q Hq. rewrite (same_run_in_mlfq _ _ (Hsr q)). destruct (Hsr q) as (_ & -> & _). by apply Hmem.
  - intros q Hq. destruct (Hsr q) as (_ & _ & _ & -> & _), (Hsr m) as (_ & _ & _ & -> & _). by apply Hpid.
Qed.

Lemma sched_inv_ext s s' Q SL :
  (∀ x, same_run (pr s' x) (pr s x)) → links s' = links s → mq_pin (k_mlfq s') = mq_pin (k_mlfq s) →
  sched_inv s Q SL → sched_inv s' Q SL.
Proof.
  intros Hsr Hl Hp H. split.
  - unfold queues. rewrite Hl. apply H.
  - unfold pins_ok. rewrite Hp. apply H.
  - rewrite Hl. apply H.
  - apply H.
  - intros p Hpin. destruct (Hsr p) as (-> & _). by apply (si_sleeping _ _ _ H).
  - intros l q Hlt Hq. rewrite (same_run_in_mlfq _ _ (Hsr q)). destruct (Hsr q) as (_ & -> & _).
    by apply (si_in_mlfq _ _ _ H l).
  - intros p Hty Hls. destruct (Hsr p) as (_ & Hty' & _). rewrite Hty' in Hty.
    destruct (si_groups _ _ _ H p Hty Hls) as (ths & m & l & Hmg). exists ths, m, l.
    eapply mlfq_group_ext; [done| |exact Hmg]. destruct Hmg as [(Hr & _) _ _ _].
    unfold thring. by rewrite Hl.
Qed.

(** Moving a pin. *)
Lemma sched_inv_put s Q SL l v : sched_inv s Q SL → (l < QSIZE)%nat → pin_in Q l v → sched_inv (put_pin l v s) Q SL.
Proof.
  intros H Hl Hv. split; [apply H|apply put_pin_ok; [done|apply H|done]|apply H|apply H|apply H|apply H|].
  intros p Hty Hls. destruct (si_groups _ _ _ H p Hty Hls) as (ths & m & k & G). exists ths, m, k.
  eapply (mlfq_group_ext s); [intros x; by split_and!| |exact G]. apply (mg_group _ _ _ _ _ _ _ G).
Qed.
Lemma sched_inv_unpinned s Q SL n : sched_inv s Q SL → (n ≤ QSIZE)%nat → sched_inv (unpinned n s) Q SL.
Proof.
  intros H. induction n as [|n IH]; intros Hn; [done|]. unfold unpinned. rewrite seq_S, foldl_app. simpl. fold (unpinned n s).
  apply sched_inv_put; [apply IH; lia|lia|by left].
Qed.

Lemma queued_ext (s s' : kstate E) Q p ths m l :
  (∀ x, same_run (pr s' x) (pr s x)) → links s' = links s → mq_pin (k_mlfq s') = mq_pin (k_mlfq s) →
  queued s Q p ths m l → queued s' Q p ths m l.
Proof.
  intros Hsr Hl Hp [Hq Hpi Hg [Hlt Hlv] Hlen Hmem Hpid Honly]. split.
  - unfold queues. by rewrite Hl.
  - unfold pins_ok. by rewrite Hp.
  - eapply group_ext; [apply Hsr|apply Hsr|unfold thring; rewrite Hl; apply Hg|done].
  - split; [done|]. by destruct (Hsr m) as (_ & _ & _ & _ & ->).
  - done.
  - intros q Hq'. rewrite (same_run_in_mlfq _ _ (Hsr q)). by apply Hmem.
  - intros q Hq'. destruct (Hsr q) as (_ & _ & _ & -> & _), (Hsr m) as (_ & _ & _ & -> & _). by apply Hpid.
  - done.
Qed.

Definition asleep (ch : chan) (x : proc) : proc := set_p_state SLEEPING (set_p_chan ch x).

(** The invariant after a running MLFQ thread left its queue for the sleep list. *)
Lemma sched_inv_asleep s s' Q SL p ths m l q1 q2 ch :
  sched_inv s Q SL → mlfq_group s Q SL p ths m l → Q l = q1 ++ p :: q2 →
  queues s' (setq Q l (q1 ++ q2)) → pins_ok s' (setq Q l (q1 ++ q2)) →
  dlist (links s') NSleep (NProc Fsleep <$> (p :: SL)) →
  (∀ x, pr s' x = if decide (p = x) then asleep ch (pr s p) else pr s x) →
  (∀ x, lh (links s') (NProc Fthgroup x) = lh (links s) (NProc Fthgroup x)) →
  sched_inv s' (setq Q l (q1 ++ q2)) (p :: SL).
Proof.
  intros H Hmg HQ Hq' Hp' Hd' Hpr Hth. pose proof (mg_level _ _ _ _ _ _ _ Hmg) as [Hl _].
  pose proof (mg_mem _ _ _ _ _ _ _ Hmg p ltac:(set_solver)) as (_ & _ & Honly).
  assert (p ∉ q1 ++ q2) as HpL.
  { pose proof (NoDup_queue _ _ _ (si_queues _ _ _ H) Hl) as Hnd. rewrite HQ in Hnd.
    apply NoDup_mid_notin in Hnd. set_solver. }
  assert (∀ k x, (k < QSIZE)%nat → x ∈ setq Q l (q1 ++ q2) k ↔ x ∈ Q k ∧ x ≠ p) as HQm.
  { intros k x Hk. unfold setq. case_decide; subst; [rewrite HQ; set_solver|]. split; [|tauto].
    intros Hx. split; [done|]. intros ->. by apply Honly in Hx. }
  assert (∀ x, listed (setq Q l (q1 ++ q2)) (p :: SL) x → listed Q SL x) as Hls.
  { intros x [[->|Hx]%elem_of_cons|(k & Hk & [Hx _]%HQm)]; [|by left|right; eauto|done].
    right. exists l. split; [done|]. rewrite HQ. set_solver. }
  assert (∀ x, p_thmain (pr s' x) = p_thmain (pr s x) ∧ p_pid (pr s' x) = p_pid (pr s x) ∧
    p_type (pr s' x) = p_type (pr s x) ∧ p_privlevel (pr s' x) = p_privlevel (pr s x)) as Hsame.
  { intros x. rewrite Hpr. by case_decide; subst. }
  split; [done|done|done| | | |].
  - intros x Hx. by apply (si_idx _ _ _ H), Hls.
  - intros x Hx. rewrite Hpr. case_decide; [done|]. apply (si_sleeping _ _ _ H). set_solver.
  - intros k x Hk [Hx Hne]%HQm; [|done]. rewrite Hpr, decide_False by done. by apply (si_in_mlfq _ _ _ H k).
  - intros x Hx Hx'. destruct (Hsame x) as (_ & _ & Hty & _). rewrite Hty in Hx.
    destruct (si_groups _ _ _ H x Hx (Hls _ Hx')) as (ths' & m' & l' & Hmg'). exists ths', m', l'.
    destruct Hmg' as [Hg [Hl' Hlv] Hmem Hpid]. split.
    + eapply group_ext; [apply Hsame|apply Hsame|by eapply thring_links, Hg|done].
    + split; [done|]. by destruct (Hsame m') as (_ & _ & _ & ->).
    + intros y Hy. destruct (Hmem y Hy) as (? & Hin & Hlev).
      destruct (Hsame y) as (_ & _ & -> & _). split; [done|]. rewrite HQm, Hpr by done.
      destruct (decide (p = y)) as [<-|Hne].
      * split; [split; [done|by intros [_ ?]]|]. intros k Hk [_ ?]%HQm; done.
      * split; [naive_solver|]. intros k Hk [? _]%HQm; [by apply Hlev|done].
    + intros y Hy. destruct (Hsame y) as (_ & -> & _), (Hsame m') as (_ & -> & _). by apply Hpid, Hls.
Qed.

Lemma go_to_sleep_spec s Q SL p l ch :
  sched_inv s Q SL → (l < QSIZE)%nat → p ∈ Q l →
  wp (go_to_sleep p ch) (λ _ s', ∃ q1 q2, Q l = q1 ++ p :: q2 ∧
    sched_inv s' (setq Q l (q1 ++ q2)) (p :: SL) ∧ run_frame s s' ∧
    (∀ x, pr s' x = if decide (p = x) then asleep ch (pr s p) else pr s x)) s.
Proof.
  intros H Hl HpQ. destruct (si_in_mlfq _ _ _ H l p Hl HpQ) as [_ Hty].
  assert (listed Q SL p) as Hls by (right; eauto).
  destruct (si_groups _ _ _ H p Hty Hls) as (ths & m & l' & Hmg).
  assert (l = l') as <- by (eapply (mg_mem _ _ _ _ _ _ _ Hmg p); [set_solver|done..]).
  destruct (list_elem_of_split _ _ HpQ) as (q1 & q2 & HQ).
  unfold go_to_sleep. do 4 kstep. set (s1 := upd_proc p (set_p_chan ch) s).
  assert (∀ x, pr s1 x = if decide (p = x) then set_p_chan ch (pr s p) else pr s x) as Hpr1.
  { intros x. apply pr_upd. }
  assert (∀ x, same_run (pr s1 x) (pr s x)) as Hsr by (intros x; rewrite Hpr1; by case_decide; subst).
  assert (sched_inv s1 Q SL) as H1 by (by eapply sched_inv_ext).
  assert (mlfq_group s1 Q SL p ths m l) as Hmg1.
  { eapply mlfq_group_ext; [done| |exact Hmg]. apply (mg_group _ _ _ _ _ _ _ Hmg). }
  rewrite Hpr1, (decide_True (P := p = p)) by done. change (p_type (set_p_chan ch (pr s p))) with (p_type (pr s p)).
  rewrite (decide_True (P := p_type (pr s p) = MLFQ)) by done. apply wp_bind.
  wcall dequeue_thread_spec; [by eapply mlfq_group_queued|exact HQ|].
  intros [] s2 (Hq2 & Hp2 & Hf2 & _). do 2 kstep. set (s3 := upd_proc p (set_p_state SLEEPING) s2).
  assert (dlist (links s2) NSleep (NProc Fsleep <$> SL)) as Hd2.
  { eapply dlist_frame; [apply (mlfq_frame_links _ _ _ Hf2)| |apply (si_sleep _ _ _ H1)].
    intros x Hx%sleep_node_other. unfold qnodes. rewrite elem_of_cons, list_elem_of_fmap. naive_solver. }
  apply wp_on_links. wcall (list_add_spec (links s3)); [exact Hd2| |].
  { intros [?|(y & [= <-] & Hy)%list_elem_of_fmap]%elem_of_cons; [done|].
    by eapply (sleeping_not_queued s Q SL p l). }
  intros [] h [Hd' Hf]. exists q1, q2. split; [done|].
  assert (∀ x, pr (set_links h s3) x = if decide (p = x) then asleep ch (pr s p) else pr s x) as Hpr3.
  { intros x. change (pr (set_links h s3) x) with (pr s3 x). unfold s3. rewrite pr_upd.
    rewrite !(mlfq_frame_pr _ _ _ _ Hf2), !Hpr1. destruct (decide (p = x)); [|done].
    rewrite decide_True by done. done. }
  split_and!; [| |done].
  - eapply (sched_inv_asleep s _ Q SL p ths m l q1 q2 ch); try done.
    + eapply (queues_frame _ s2); [exact Hf| |done]. intros x. rewrite elem_of_cons.
      intros [->|Hx%sleep_node_other]; [done|tauto].
    + intros x. etrans; [apply Hf|].
      * intros [?|Hx%sleep_node_other]%elem_of_cons; [done|naive_solver].
      * etrans; [apply (mlfq_frame_links _ _ _ Hf2)|done].
        intros Hx. by eapply queue_not_thgroup.
  - apply (run_frame_trans _ s1); [unfold run_frame; by destruct s as [? ? [] ? ? ? ? ? ?]|].
    apply (run_frame_trans _ s2); [by eapply mlfq_run_frame|].
    unfold run_frame. by destruct s2 as [? ? [] ? ? ? ? ? ?].
Qed.

End sched_inv.
Close Scope Z_scope.
