(* ===== verification/CpuShare.v ===== *)
(** * [set_cpu_share]: granting a share of the CPU ([src/xv6-public/proc.c])

    The effect of [set_cpu_share] on every branch, and the ticket ledger: the
    MLFQ scheduler and the STRIDE processes always hold 100 tickets together,
    of which MLFQ keeps at least [RESERVE]. *)

From S2P Require Import Prelude.
From S2P Require Import ListH.
From S2P Require Import Spinlock.
From S2P Require Import Kstate.
From S2P Require Import ThreadCore.
From S2P Require Import StrideHeap.
From S2P Require Import Mlfq.
From S2P Require Import Sched.
From S2P Require Import SchedInv.

Open Scope Z_scope.

Section cpu_share.
  Context {E : Type} `{!Hw E}.
  Abbreviation KM := (M (kstate E)).

(** ** Critical sections of [ptable.lock] *)

(** The executing CPU is [i] with record [c], and nobody holds the lock. *)
Record lock_free (s : kstate E) (i : nat) (c : cpu) : Prop := {
  lf_at : at_cpu (k_cpus s) i c;
  lf_cli : cli_ok (k_cpus s) c;
  lf_free : lock_of (k_cpus s) Lptable = mkLock 0 None
}.

(** The CPUs inside the critical section, and after it. *)
Definition inside (i : nat) (k : cpus) : cpus := set_lock Lptable (mkLock 1 (Some i)) (pushed i k).
Definition after (i : nat) (k : cpus) : cpus := set_lock Lptable (mkLock 0 None) (refreshed i k).

Lemma acquire_enter (s : kstate E) i c :
  lock_free s i c → on_cpus (acquire Lptable) s = Ok (tt, set_k_cpus (inside i (k_cpus s)) s).
Proof.
  intros [Hat Hcli Hf]. unfold on_cpus. apply zoom_ok. eapply acquire_run; [done|done|by rewrite Hf..].
Qed.

Lemma at_cpu_inside s i c : lock_free s i c → at_cpu (inside i (k_cpus s)) i (pushed_cpu (k_cpus s) c).
Proof. intros H. apply at_cpu_lock, at_cpu_pushed, H. Qed.

Lemma cli_ok_inside s i c : lock_free s i c → cli_ok (inside i (k_cpus s)) (pushed_cpu (k_cpus s) c).
Proof. intros H. apply (cli_ok_pushed _ i), H. Qed.

Lemma ncli_inside s i c : lock_free s i c → 0 < ncli (pushed_cpu (k_cpus s) c).
Proof. intros [_ [??] _]. simpl. lia. Qed.

Lemma set_k_cpus_id (s : kstate E) : set_k_cpus (k_cpus s) s = s.
Proof. by destruct s. Qed.

Lemma myproc_inside (s s' : kstate E) i c :
  lock_free s i c → k_cpus s' = inside i (k_cpus s) → on_cpus myproc s' = Ok (cpu_proc c, s').
Proof.
  intros H Hk. unfold on_cpus. rewrite (zoom_ok _ _ _ _ (cpu_proc c) (k_cpus s')).
  - by rewrite set_k_cpus_id.
  - rewrite Hk. rewrite (myproc_run _ _ _ (at_cpu_inside _ _ _ H) (cli_ok_inside _ _ _ H)).
    by rewrite (refreshed_held _ _ _ (at_cpu_inside _ _ _ H) (ncli_inside _ _ _ H)).
Qed.

Lemma release_leave (s s' : kstate E) i c :
  lock_free s i c → k_cpus s' = inside i (k_cpus s) →
  on_cpus (release Lptable) s' = Ok (tt, set_k_cpus (after i (k_cpus s)) s').
Proof.
  intros H Hk. unfold on_cpus. apply zoom_ok. rewrite Hk.
  rewrite (release_run _ i (pushed_cpu (k_cpus s) c)).
  - do 2 f_equal. unfold after. rewrite <-(popped_pushed _ _ _ (lf_at _ _ _ H) (lf_cli _ _ _ H)).
    unfold inside, popped, set_lock, set_flag_if, upd_cpu; simpl. by rewrite insert_insert_eq.
  - by apply at_cpu_inside.
  - by apply cli_ok_inside.
  - by eapply ncli_inside.
  - unfold lock_of, inside; simpl. by rewrite lookup_insert_eq.
  - unfold lock_of, inside; simpl. by rewrite lookup_insert_eq.
Qed.

(** ** The refusals *)

Lemma set_cpu_share_range share (s : kstate E) :
  share < 1 ∨ 100 - RESERVE < share → set_cpu_share share s = Ok (-1, s).
Proof.
  intros Hr. unfold set_cpu_share.
  destruct (Z.ltb_spec share 1), (Z.ltb_spec (100 - RESERVE) share); done || lia.
Qed.

(** The tickets that are free for the caller with main thread [m]. *)
Definition remain (s : kstate E) (p m : nat) : Z :=
  if decide (p_type (pr s p) = STRIDE) then mq_tickets (k_mlfq s) + p_tickets (pr s m)
  else mq_tickets (k_mlfq s).

Definition in_range (share : Z) : Prop := 1 ≤ share ≤ 100 - RESERVE.

Lemma in_range_test share : in_range share → Z.ltb share 1 || Z.ltb (100 - RESERVE) share = false.
Proof.
  unfold in_range, RESERVE. intros.
  destruct (Z.ltb_spec share 1), (Z.ltb_spec (100 - 20) share); done || lia.
Qed.

(** The part of [set_cpu_share] before its decision. *)
Lemma set_cpu_share_decide s i c p m share (Q : Z → kstate E → Prop) :
  lock_free s i c → cpu_proc c = Some p → main_of s p m → in_range share →
  let s1 := set_k_cpus (inside i (k_cpus s)) s in
  wp (if Z.leb RESERVE (remain s p m - share) then
      (if decide (p_type (pr s p) = MLFQ) then
         dequeue_proc p;;
         minpass ← getminpass;
         mlfqpass ← gets (λ s, mq_pass (k_mlfq s));
         wr m (set_p_pass (if Z.ltb minpass mlfqpass then minpass else mlfqpass));;
         threads_apply0 m __routine_set_stride;;
         on_links (list_add (Some (NProc Frun p)) (Some NStrideRun))
       else mret tt);;
      modify (upd_mlfq (set_mq_tickets (remain s p m - share)));;
      wr m (set_p_tickets share);;
      on_cpus (release Lptable);;
      mret 0
    else on_cpus (release Lptable);; mret (-1)) Q s1 →
  wp (set_cpu_share share) Q s.
Proof.
  intros Hf Hp Hm Hr s1 Hw. unfold set_cpu_share. rewrite in_range_test by done.
  assert (main_of s1 p m) as Hm1 by by eapply (main_of_procs s).
  krun (acquire_enter s i c). krun (myproc_inside s _ i c). rewrite Hp. kstep. kstep.
  krun main_thread_run. do 6 kstep.
  change (pr (set_k_cpus (inside i (k_cpus s)) s)) with (pr s).
  change (k_mlfq (set_k_cpus (inside i (k_cpus s)) s)) with (k_mlfq s). exact Hw.
Qed.

Lemma set_cpu_share_refused s i c p m share :
  lock_free s i c → cpu_proc c = Some p → main_of s p m → in_range share →
  remain s p m - share < RESERVE →
  wp (set_cpu_share share) (λ r s', r = -1 ∧ s' = set_k_cpus (after i (k_cpus s)) s) s.
Proof.
  intros Hf Hp Hm Hr Hlow. eapply set_cpu_share_decide; [done..|]. cbv zeta.
  destruct (Z.leb_spec RESERVE (remain s p m - share)); [lia|].
  krun (release_leave s _ i c). kstep. done.
Qed.

(** ** The grants *)

(** A STRIDE process only changes its own tickets against MLFQ's. *)
Lemma set_cpu_share_stride s i c p m share :
  lock_free s i c → cpu_proc c = Some p → main_of s p m → in_range share →
  p_type (pr s p) = STRIDE → RESERVE ≤ remain s p m - share →
  wp (set_cpu_share share) (λ r s', r = 0 ∧
    s' = set_k_cpus (after i (k_cpus s))
           (upd_proc m (set_p_tickets share) (upd_mlfq (set_mq_tickets (remain s p m - share)) s))) s.
Proof.
  intros Hf Hp Hm Hr Hty Hok. eapply set_cpu_share_decide; [done..|]. cbv zeta.
  destruct (Z.leb_spec RESERVE (remain s p m - share)); [|lia].
  rewrite decide_False by (rewrite Hty; done). do 6 kstep.
  krun (release_leave s _ i c). kstep. done.
Qed.

(** The pass a process starts its STRIDE life with. *)
Definition start_pass (s : kstate E) (ky : nat → Z) (hl : list nat) : Z :=
  Z.min (match hl with [] => MAXINT | x :: _ => ky x end) (mq_pass (k_mlfq s)).

(** A process entry after its process became STRIDE. *)
Definition granted (ps : list nat) (m : nat) (pass share : Z) (q : nat) (x : proc) : proc :=
  let x := if decide (q ∈ ps) then set_p_type STRIDE x else x in
  if decide (q = m) then set_p_tickets share (set_p_pass pass x) else x.

(** What an MLFQ process must satisfy: it is queued, its main thread is one
    of its threads, and the stride structures are well formed. *)
Record grantable (s : kstate E) (Q : nat → list nat) (p : nat) (ths : list nat) (m l : nat)
    (ky : nat → Z) (hl R : list nat) : Prop := {
  gr_queued : queued s Q p ths m l;
  gr_main : m ∈ p :: ths;
  gr_heap : heap_rep s hl ∧ heap_ord ky hl ∧ keyed s ky hl;
  gr_run : dlist (links s) NStrideRun (NProc Frun <$> R);
  gr_new : p ∉ R
}.

Lemma set_stride_all (s : kstate E) p ths :
  thring s p ths → (length ths < NPROC)%nat →
  threads_apply0 p __routine_set_stride s = Ok (None, upd_all (ths ++ [p]) (set_p_type STRIDE) s).
Proof.
  intros Hr Hl. rewrite (threads_apply0_spec s p ths); [|intros q; apply wr_stable|done..].
  by apply first_of_wr.
Qed.

Lemma upd_all_cpus qs f (s : kstate E) :
  k_cpus (upd_all qs f s) = k_cpus s ∧ k_mlfq (upd_all qs f s) = k_mlfq s ∧
  links (upd_all qs f s) = links s ∧ k_stride (upd_all qs f s) = k_stride s.
Proof. pose proof (upd_all_same qs f s) as H. unfold same_but_procs in H. by rewrite <-H at 2 4 6 8. Qed.

Lemma queued_cpus (s : kstate E) k Q p ths m l : queued s Q p ths m l → queued (set_k_cpus k s) Q p ths m l.
Proof.
  intros [? ? (Hr & Hl & Hg) ? ? ? ? ?]. split; try done. split_and!; [done..|].
  intros q Hq. destruct (Hg q Hq). split; [by eapply (main_of_procs s)|done].
Qed.

Lemma keyed_frame ns (s s' : kstate E) ky l : mlfq_frame ns s s' → keyed s ky l → keyed s' ky l.
Proof.
  intros Hf Hk q Hq. destruct (Hk q Hq) as (m & Hm & Hp). exists m. split.
  - eapply main_of_procs; [by eapply mlfq_frame_procs|done].
  - by rewrite (mlfq_frame_pr _ _ _ _ Hf).
Qed.

(** The conclusion of a grant to an MLFQ process. *)
Record granted_mlfq (s s' : kstate E) (i : nat) (Q : nat → list nat) (p : nat) (ths : list nat)
    (m l : nat) (pass share : Z) (R : list nat) : Prop := {
  gm_queues : queues s' (setq Q l (without (ths ++ [p]) (Q l)));
  gm_pins : pins_ok s' (setq Q l (without (ths ++ [p]) (Q l)));
  gm_run : dlist (links s') NStrideRun (NProc Frun <$> p :: R);
  gm_procs : ∀ q, pr s' q = granted (p :: ths) m pass share q (pr s q);
  gm_tickets : mq_tickets (k_mlfq s') = mq_tickets (k_mlfq s) - share;
  gm_pass : mq_pass (k_mlfq s') = mq_pass (k_mlfq s);
  gm_stride : k_stride s' = k_stride s;
  gm_cpus : k_cpus s' = after i (k_cpus s)
}.

Lemma run_node_other l L x :
  x ∈ NQueue l :: qnodes L → x ≠ NStrideRun ∧ ∀ q, x ≠ NProc Frun q.
Proof. intros [->|(y & -> & _)%list_elem_of_fmap]%elem_of_cons; done. Qed.

Lemma set_cpu_share_mlfq s i c Q p ths m l ky hl R share :
  lock_free s i c → cpu_proc c = Some p → in_range share →
  grantable s Q p ths m l ky hl R → p_type (pr s p) = MLFQ →
  RESERVE ≤ mq_tickets (k_mlfq s) - share →
  wp (set_cpu_share share)
     (λ r s', r = 0 ∧ granted_mlfq s s' i Q p ths m l (start_pass s ky hl) share R) s.
Proof.
  intros Hf Hp Hr [Hqd Hmin (Hh & Hho & Hhk) Hrun HpR] Hty Hok.
  pose proof (qd_group _ _ _ _ _ _ Hqd) as (Hring & Hlt & Hgm).
  destruct (Hgm p ltac:(set_solver)) as [Hm _].
  assert (remain s p m = mq_tickets (k_mlfq s)) as Hrem.
  { unfold remain. rewrite decide_False; [done|]. rewrite Hty. done. }
  eapply set_cpu_share_decide; [done..|]. cbv zeta. rewrite Hrem.
  destruct (Z.leb_spec RESERVE (mq_tickets (k_mlfq s) - share)); [|lia].
  rewrite decide_True by done. set (s1 := set_k_cpus _ s). do 2 apply wp_bind.
  wcall (dequeue_proc_spec s1 Q p ths m l); [by apply queued_cpus|]. cbv zeta. intros [] s2 (Hq2 & Hp2 & Hf2).
  pose proof (mlfq_frame_links _ _ _ Hf2) as Hl2. pose proof (proj2 Hf2) as He2.
  assert (k_stride s2 = k_stride s ∧ k_cpus s2 = inside i (k_cpus s) ∧
    mq_pass (k_mlfq s2) = mq_pass (k_mlfq s) ∧ mq_tickets (k_mlfq s2) = mq_tickets (k_mlfq s))
    as (Hst2 & Hc2 & Hpa2 & Hti2) by by rewrite He2.
  assert (heap_rep s2 hl) as Hh2 by (unfold heap_rep, heap_hole, minheap; by rewrite Hst2).
  assert (keyed s2 ky hl) as Hk2.
  { eapply keyed_frame; [exact Hf2|]. intros q Hq. destruct (Hhk q Hq) as (mq & ? & ?).
    exists mq. split; [by eapply (main_of_procs s)|done]. }
  assert (∀ q, pr s2 q = pr s q) as Hpr2 by (intros q; by rewrite (mlfq_frame_pr _ _ _ _ Hf2)).
  krun (getminpass_run s2 hl ky). do 4 kstep. rewrite Hpa2.
  set (pass := if Z.ltb _ _ then _ else _).
  assert (pass = start_pass s ky hl) as <-.
  { unfold pass, start_pass. destruct (Z.ltb_spec match hl with [] => MAXINT | x :: _ => ky x end (mq_pass (k_mlfq s))); lia. }
  set (s3 := upd_proc m (set_p_pass pass) s2).
  assert (group s p ths m) as Hg by done.
  destruct (group_rotate s p ths m m Hg Hmin) as (ths' & (Hr' & Hlt' & _) & Hperm).
  assert (thring s3 m ths') as Hr3.
  { change (thring s2 m ths'). eapply (thring_mlfq_frame _ s1); [exact Hf2|apply queue_not_thgroup|done]. }
  apply wp_bind. eapply wp_eq; [by apply set_stride_all|]. set (s4 := upd_all _ _ s3).
  destruct (upd_all_cpus (ths' ++ [m]) (set_p_type STRIDE) s3) as (Hc4 & Hmq4 & Hl4 & Hst4).
  assert (dlist (links s4) NStrideRun (NProc Frun <$> R)) as Hrun4.
  { unfold s4. rewrite Hl4. eapply (dlist_frame (links s)); [exact Hl2| |exact Hrun].
    intros x Hx [Hx1 Hx2]%run_node_other. apply elem_of_cons in Hx as [->|(y & -> & _)%list_elem_of_fmap]; [done|].
    by eapply Hx2. }
  apply wp_on_links. wcall (list_add_spec (links s4)); [exact Hrun4| |].
  { intros [?|(y & [= <-] & Hy)%list_elem_of_fmap]%elem_of_cons; done. }
  intros [] h [Hd5 Hf5]. do 4 kstep. set (s6 := upd_proc m _ _).
  assert (k_cpus s6 = inside i (k_cpus s)) as Hc6 by (unfold s6; simpl; unfold s4; by rewrite Hc4).
  krun (release_leave s s6 i c). kstep. split; [done|].
  assert (∀ q, q ∈ ths' ++ [m] ↔ q ∈ p :: ths) as Hmem.
  { intros q. rewrite <-Hperm. set_solver. }
  assert (NoDup (ths' ++ [m])) as Hnd by by eapply thring_NoDup_visit.
  split; try done.
  - eapply (queues_frame _ s4); [exact Hf5| |unfold queues, s4; by rewrite Hl4].
    intros x. rewrite !elem_of_cons, list_elem_of_fmap. naive_solver.
  - unfold pins_ok. simpl. unfold s4. rewrite Hmq4. exact Hp2.
  - intros q. change (pr (set_k_cpus _ s6) q) with (pr s6 q). unfold s6, granted. rewrite !pr_upd.
    change (pr (upd_mlfq _ (set_links h s4))) with (pr s4). unfold s4. rewrite !pr_upd_all by done.
    unfold s3. rewrite !pr_upd, !Hpr2. rewrite !(decide_True (P := m = m)) by done.
    destruct (decide (m = q)) as [<-|Hne].
    + rewrite (decide_True (P := m = m)) by done.
      rewrite (decide_True (P := m ∈ ths' ++ [m])) by set_solver. rewrite decide_True by done. done.
    + rewrite (decide_False (P := q = m)) by congruence.
      destruct (decide (q ∈ p :: ths)) as [Hin|Hin]; [rewrite decide_True by by apply Hmem|rewrite decide_False by by rewrite Hmem]; done.
  - simpl. unfold s4. by rewrite Hmq4.
  - simpl. unfold s4. by rewrite Hst4.
Qed.

(** ** The ticket ledger *)

Definition sum_tickets (s : kstate E) (ms : list nat) : Z :=
  foldr (λ q acc, p_tickets (pr s q) + acc) 0 ms.

(** [ms] are the main threads of the STRIDE processes. *)
Record ledger (s : kstate E) (ms : list nat) : Prop := {
  lg_nodup : NoDup ms;
  lg_total : mq_tickets (k_mlfq s) + sum_tickets s ms = 100;
  lg_reserve : RESERVE ≤ mq_tickets (k_mlfq s);
  lg_pos : ∀ m, m ∈ ms → 1 ≤ p_tickets (pr s m)
}.

Lemma sum_tickets_ge s ms : (∀ m, m ∈ ms → 1 ≤ p_tickets (pr s m)) → Z.of_nat (length ms) ≤ sum_tickets s ms.
Proof.
  induction ms as [|x ms IH]; intros Hp; simpl; [lia|].
  pose proof (Hp x ltac:(set_solver)). specialize (IH ltac:(set_solver)). lia.
Qed.

(** At most 80 processes can be STRIDE, so the heap array never overflows. *)
Lemma ledger_length s ms : ledger s ms → (length ms ≤ 80)%nat.
Proof.
  intros [_ Ht Hr Hp]. pose proof (sum_tickets_ge _ _ Hp). unfold RESERVE in Hr. lia.
Qed.

Lemma sum_tickets_ext s s' ms :
  (∀ q, q ∈ ms → p_tickets (pr s' q) = p_tickets (pr s q)) → sum_tickets s' ms = sum_tickets s ms.
Proof.
  induction ms as [|x ms IH]; intros He; simpl; [done|]. rewrite He, IH; set_solver.
Qed.

Lemma sum_tickets_upd s s' ms m :
  NoDup ms → m ∈ ms → (∀ q, q ∈ ms → q ≠ m → p_tickets (pr s' q) = p_tickets (pr s q)) →
  sum_tickets s' ms = sum_tickets s ms - p_tickets (pr s m) + p_tickets (pr s' m).
Proof.
  induction ms as [|x ms IH]; intros Hnd0 Hm He; [set_solver|].
  apply NoDup_cons in Hnd0 as [Hx Hnd]. simpl. destruct (decide (x = m)) as [->|Hne].
  - rewrite (sum_tickets_ext s s'); [lia|]. intros q Hq. apply He; set_solver.
  - rewrite He, IH by set_solver. lia.
Qed.

Lemma ledger_ext (s s' : kstate E) ms :
  (∀ q, pr s' q = pr s q) → k_mlfq s' = k_mlfq s → ledger s ms → ledger s' ms.
Proof.
  intros Hpr Hq [? Ht ? Hp]. split; [done| |by rewrite Hq|].
  - rewrite Hq, (sum_tickets_ext s); [done|]. intros; by rewrite Hpr.
  - intros m Hm. rewrite Hpr. by apply Hp.
Qed.

(** Changing the tickets of a STRIDE process against MLFQ's. *)
Lemma ledger_move s s' ms m share :
  ledger s ms → m ∈ ms → 1 ≤ share → p_tickets (pr s' m) = share →
  (∀ q, q ≠ m → p_tickets (pr s' q) = p_tickets (pr s q)) →
  mq_tickets (k_mlfq s') = mq_tickets (k_mlfq s) + p_tickets (pr s m) - share →
  RESERVE ≤ mq_tickets (k_mlfq s') → ledger s' ms.
Proof.
  intros [Hnd Ht Hr Hp] Hm Hsh Hs Hq Hmq Hres. split; [done| |done|].
  - rewrite (sum_tickets_upd s s' ms m), Hs, Hmq; [lia|done|done|]. intros; by apply Hq.
  - intros q Hqm. destruct (decide (q = m)) as [->|]; [lia|]. rewrite Hq by done. by apply Hp.
Qed.

(** A new STRIDE process. *)
Lemma ledger_add s s' ms m share :
  ledger s ms → m ∉ ms → 1 ≤ share → p_tickets (pr s' m) = share →
  (∀ q, q ≠ m → p_tickets (pr s' q) = p_tickets (pr s q)) →
  mq_tickets (k_mlfq s') = mq_tickets (k_mlfq s) - share →
  RESERVE ≤ mq_tickets (k_mlfq s') → ledger s' (m :: ms).
Proof.
  intros [Hnd Ht Hr Hp] Hm Hsh Hs Hq Hmq Hres. split; [by apply NoDup_cons| |done|].
  - simpl. rewrite (sum_tickets_ext s), Hs, Hmq; [lia|]. intros q Hqm. apply Hq. congruence.
  - intros q [->|Hqm]%elem_of_cons; [lia|]. rewrite Hq by congruence. by apply Hp.
Qed.

Lemma set_cpu_share_ledger_keep s i c Q p ths m l ky hl R ms share :
  lock_free s i c → cpu_proc c = Some p → main_of s p m → ledger s ms →
  (p_type (pr s p) = STRIDE → m ∈ ms) →
  (p_type (pr s p) = MLFQ → m ∉ ms ∧ grantable s Q p ths m l ky hl R) →
  wp (set_cpu_share share) (λ r s',
    (r = -1 ∧ (∀ q, pr s' q = pr s q) ∧ ledger s' ms) ∨
    (r = 0 ∧ p_tickets (pr s' m) = share ∧ ∃ ms', ledger s' ms' ∧ m ∈ ms' ∧
       (∀ q, q ∈ ms' ↔ q = m ∨ q ∈ ms))) s.
Proof.
  intros Hf Hp Hm Hlg Hstr Hml.
  destruct (decide (in_range share)) as [Hr|Hr]; cycle 1.
  { eapply wp_eq; [apply set_cpu_share_range; unfold in_range in Hr; lia|]. by left. }
  destruct (decide (RESERVE ≤ remain s p m - share)) as [Hok|Hno]; cycle 1.
  { wcall set_cpu_share_refused; [done..|lia|]. intros r s' [-> ->]. left. split_and!; [done..|].
    by apply (ledger_ext s). }
  destruct (p_type (pr s p)) eqn:Hty.
  - destruct (Hml eq_refl) as [Hnew Hgr].
    assert (remain s p m = mq_tickets (k_mlfq s)) as Hrem by (unfold remain; rewrite Hty; done).
    rewrite Hrem in Hok. wcall set_cpu_share_mlfq; [done..|].
    intros r s' [-> G]. right. pose proof (gm_procs _ _ _ _ _ _ _ _ _ _ _ G) as Hpr.
    assert (p_tickets (pr s' m) = share) as Hs' by (rewrite Hpr; unfold granted; by rewrite decide_True).
    split_and!; [done|done|]. exists (m :: ms). split_and!; [|set_solver|set_solver].
    eapply ledger_add; [exact Hlg|done|apply Hr|done| |apply G|].
    + intros q Hq. rewrite Hpr. unfold granted. rewrite (decide_False (P := q = m)) by done. by case_decide.
    + rewrite (gm_tickets _ _ _ _ _ _ _ _ _ _ _ G). lia.
  - specialize (Hstr eq_refl). wcall set_cpu_share_stride; [done..|].
    intros r s' [-> ->]. right.
    assert (remain s p m = mq_tickets (k_mlfq s) + p_tickets (pr s m)) as Hrem.
    { unfold remain. by rewrite Hty. }
    assert (∀ q, pr (set_k_cpus (after i (k_cpus s)) (upd_proc m (set_p_tickets share)
      (upd_mlfq (set_mq_tickets (remain s p m - share)) s))) q
      = if decide (m = q) then set_p_tickets share (pr s m) else pr s q) as Hpr by (intros q; exact (pr_upd m q _ (upd_mlfq _ s))).
    split_and!; [done|by rewrite Hpr, decide_True|]. exists ms. split_and!; [|done|set_solver].
    eapply ledger_move; [exact Hlg|done|apply Hr|by rewrite Hpr, decide_True| |simpl; lia|done].
    intros q Hq. by rewrite Hpr, decide_False.
Qed.

End cpu_share.
Close Scope Z_scope.
