(* ===== verification/Sample.v ===== *)
(** * A concrete process table

    Process 1 has the threads 0 (main) and 1, process 2 the thread 2, all
    RUNNABLE on queue 0; process 3 sleeps on the address 7.  CPU 0 runs
    thread 0 in [running].  The states are used to evaluate the operations
    on a concrete input. *)

From S2P Require Import Prelude.
From S2P Require Import ListH.
From S2P Require Import Spinlock.
From S2P Require Import Kstate.
From S2P Require Import ThreadCore.
From S2P Require Import StrideHeap.
From S2P Require Import Mlfq.
From S2P Require Import Sched.
From S2P Require Import SchedInv.
From S2P Require Import CpuShare.

Open Scope Z_scope.

(** The cells of a ring through [hd] and [l]. *)
Fixpoint chain_cells (before : lnode) (l : list lnode) (hd : lnode) : list (lnode * list_head lnode) :=
  match l with
  | [] => []
  | x :: l' => (x, mkLH (Some before) (Some (default hd (head l')))) :: chain_cells x l' hd
  end.
Definition ring_cells (hd : lnode) (l : list lnode) : list (lnode * list_head lnode) :=
  (hd, mkLH (Some (default hd (last l))) (Some (default hd (head l)))) :: chain_cells hd l hd.

(** Checking a ring by evaluation. *)
Fixpoint linkedb (h : gmap lnode (list_head lnode)) (ns : list lnode) : bool :=
  match ns with
  | x :: ((y :: _) as t) => bool_decide (nxt h x = Some y) && bool_decide (prv h y = Some x) && linkedb h t
  | _ => true
  end.
Definition dlistb (h : gmap lnode (list_head lnode)) (hd : lnode) (l : list lnode) : bool :=
  bool_decide (NoDup (hd :: l)) && linkedb h (hd :: l ++ [hd]).

Lemma linkedb_ok h ns : linkedb h ns = true → linked h ns.
Proof.
  induction ns as [|x [|y t] IH]; [done..|]. intros Hb.
  cbn [linkedb] in Hb. apply andb_true_iff in Hb as [Hb Ht]. apply andb_true_iff in Hb as [Hn Hp].
  split; [split; by eapply bool_decide_eq_true_1|by apply IH].
Qed.

Lemma dlistb_ok h hd l : dlistb h hd l = true → dlist h hd l.
Proof.
  unfold dlistb. intros [Hn Hl]%andb_true_iff. split; [by eapply bool_decide_eq_true_1|by apply linkedb_ok].
Qed.

Definition sample_proc (st : procstate) (pid tid : Z) (main : nat) : proc :=
  set_p_state st (set_p_pid pid (set_p_tid tid (set_p_thmain (Some main) (set_p_pgdir 4096
    (set_p_kstack 4096 proc0))))).

Definition sample_procs (st0 : procstate) : gmap nat proc :=
  list_to_map [(0%nat, sample_proc st0 1 0 0); (1%nat, sample_proc RUNNABLE 1 1 0);
               (2%nat, sample_proc RUNNABLE 2 0 2);
               (3%nat, set_p_chan (Caddr 7) (sample_proc SLEEPING 3 0 3))].

Definition sample_links : gmap lnode (list_head lnode) :=
  list_to_map (ring_cells (NQueue 0) (NProc Fmlfq <$> [0; 1; 2]%nat)
    ++ ring_cells (NQueue 1) [] ++ ring_cells (NQueue 2) []
    ++ ring_cells (NProc Fthgroup 0) [NProc Fthgroup 1] ++ ring_cells (NProc Fthgroup 2) []
    ++ ring_cells (NProc Fthgroup 3) [] ++ ring_cells NSleep [NProc Fsleep 3]
    ++ ring_cells NStrideRun [] ++ ring_cells NFree (NProc Ffree <$> seq 4 (NPROC - 4))).

Definition sample_cpu : cpu := mkCpu 0 0 0 (Some 0%nat).
Definition sample_cpus : cpus := mkCpus [sample_cpu] 0 true ∅.

Definition sample (st0 : procstate) : kstate unit :=
  mkK (sample_procs st0) sample_links
      (mkMlfq 100 0 0 [mlfq_node 0; Some (NQueue 1); Some (NQueue 2)])
      (mkStride 0 (replicate NPROC None)) 252 4 (Some 2%nat) sample_cpus tt.

(** Everything RUNNABLE, as when the scheduler selects; and thread 0 RUNNING. *)
Definition idle : kstate unit := sample RUNNABLE.
Definition running : kstate unit := sample RUNNING.

#[global] Instance unit_hw : Hw unit := {| lcr3 _ e := e; load_esp0 _ e := e; kpgdir _ := 0 |}.

Definition sampleQ (l : nat) : list nat := match l with O => [0; 1; 2]%nat | _ => [] end.

Lemma sample_queues st : queues (sample st) sampleQ.
Proof.
  split.
  - intros [|[|[|l]]] Hl; [..|unfold QSIZE in Hl; lia]; apply dlistb_ok; vm_compute; reflexivity.
  - intros [|l] [|l'] q Hl Hl'; [done|by intros _ ?%not_elem_of_nil|by intros ?%not_elem_of_nil..].
Qed.

Lemma sample_pins st : pins_ok (sample st) sampleQ.
Proof.
  split; [done|]. intros [|[|[|l]]] v Hv; simplify_eq/=; [|by left..].
  right. exists 0%nat. split; [set_solver|done].
Qed.

Lemma sample_main st q m : (q, m) ∈ [(0, 0); (1, 0); (2, 2); (3, 3)]%nat → main_of (sample st) q m.
Proof.
  intros Hq. assert (∀ x, (x = 0 ∨ x = 2 ∨ x = 3)%nat → thmain_chain (sample st) 0 x x) as Hs.
  { intros x Hx. constructor. destruct Hx as [->|[->| ->]]; vm_compute; reflexivity. }
  apply list_elem_of_In in Hq. simpl in Hq.
  destruct Hq as [[= <- <-]|[[= <- <-]|[[= <- <-]|[[= <- <-]|[]]]]].
  1,3,4: exists 0%nat; split; [lia|apply Hs; tauto].
  exists 1%nat. split; [unfold NPROC; lia|]. econstructor; [vm_compute; reflexivity|done|apply Hs; tauto].
Qed.

Lemma sample_group0 st : group (sample st) 0 [1%nat] 0.
Proof.
  split_and!; [apply dlistb_ok; vm_compute; reflexivity|unfold NPROC; simpl; lia|].
  intros q Hq. apply list_elem_of_In in Hq. simpl in Hq. destruct Hq as [<-|[<-|[]]].
  all: split; [apply sample_main, list_elem_of_In; simpl; tauto|vm_compute; reflexivity].
Qed.

Lemma sample_level st m : (m < 4)%nat → at_level (sample st) m 0.
Proof.
  intros Hm. split; [unfold QSIZE; lia|].
  destruct m as [|[|[|[|m]]]]; [vm_compute; reflexivity..|lia].
Qed.

Lemma sample_in_mlfq0 st : st = RUNNABLE ∨ st = RUNNING → in_mlfq (pr (sample st) 0) = true.
Proof. by intros [->| ->]. Qed.

Lemma sample_queued st :
  st = RUNNABLE ∨ st = RUNNING → queued (sample st) sampleQ 0 [1%nat] 0 0.
Proof.
  intros Hst. split; [apply sample_queues|apply sample_pins|apply sample_group0|apply sample_level; lia|..].
  - unfold NPROC. simpl. lia.
  - intros q Hq. apply list_elem_of_In in Hq. simpl in Hq. destruct Hq as [<-|[<-|[]]].
    + rewrite sample_in_mlfq0 by done. set_solver.
    + split; [set_solver|]. intros _. vm_compute. reflexivity.
  - intros q Hq. apply list_elem_of_In in Hq. simpl in Hq. destruct Hq as [<-|[<-|[<-|[]]]]; [set_solver..|].
    intros Hp. vm_compute in Hp. destruct st; discriminate.
  - intros q [|l'] _ _; [done|]. by intros ?%not_elem_of_nil.
Qed.

Lemma sample_group1 st : group (sample st) 1 [0%nat] 0.
Proof.
  split_and!; [apply dlistb_ok; vm_compute; reflexivity|unfold NPROC; simpl; lia|].
  intros q Hq. apply list_elem_of_In in Hq. simpl in Hq. destruct Hq as [<-|[<-|[]]].
  all: split; [apply sample_main, list_elem_of_In; simpl; tauto|vm_compute; reflexivity].
Qed.

Lemma sample_group2 st : group (sample st) 2 [] 2.
Proof.
  split_and!; [apply dlistb_ok; vm_compute; reflexivity|unfold NPROC; simpl; lia|].
  intros q ->%list_elem_of_singleton.
  split; [apply sample_main, list_elem_of_In; simpl; tauto|done].
Qed.

Lemma sample_group3 st : group (sample st) 3 [] 3.
Proof.
  split_and!; [apply dlistb_ok; vm_compute; reflexivity|unfold NPROC; simpl; lia|].
  intros q ->%list_elem_of_singleton.
  split; [apply sample_main, list_elem_of_In; simpl; tauto|done].
Qed.

Lemma sample_listed q : listed sampleQ [3%nat] q → q = 0%nat ∨ q = 1%nat ∨ q = 2%nat ∨ q = 3%nat.
Proof.
  intros [->%list_elem_of_singleton|([|l] & _ & Hq)]; [tauto| |by apply not_elem_of_nil in Hq].
  simpl in Hq. set_solver.
Qed.

Lemma sample_mlfq_group st p ths m :
  st = RUNNABLE ∨ st = RUNNING → group (sample st) p ths m → (m < 4)%nat →
  (∀ q, q ∈ p :: ths → q = 0%nat ∨ q = 1%nat ∨ q = 2%nat ∨ q = 3%nat) →
  (∀ q, q = 0%nat ∨ q = 1%nat ∨ q = 2%nat ∨ q = 3%nat →
        p_pid (pr (sample st) q) = p_pid (pr (sample st) m) → q ∈ p :: ths) →
  mlfq_group (sample st) sampleQ [3%nat] p ths m 0.
Proof.
  intros Hst Hg Hm Hin Hpid. split; [done|by apply sample_level| |].
  - intros q Hq. split_and!.
    + destruct (Hin q Hq) as [->|[->|[->| ->]]]; vm_compute; reflexivity.
    + destruct (Hin q Hq) as [->|[->|[->| ->]]]; [rewrite sample_in_mlfq0 by done; set_solver| | |].
      1,2: split; [set_solver|intros _; vm_compute; reflexivity].
      split; [intros Hb; vm_compute in Hb; discriminate|]. intros Hq3. set_solver.
    + intros [|l'] _ Hq'; [done|by apply not_elem_of_nil in Hq'].
  - intros q Hq. apply Hpid. by apply sample_listed.
Qed.

Lemma sample_inv st : st = RUNNABLE ∨ st = RUNNING → sched_inv (sample st) sampleQ [3%nat].
Proof.
  intros Hst. split; [apply sample_queues|apply sample_pins|apply dlistb_ok; vm_compute; reflexivity|..].
  - intros p Hp%sample_listed. unfold NPROC. lia.
  - intros p ->%list_elem_of_singleton. vm_compute. reflexivity.
  - intros [|l] q Hl Hq; [|by apply not_elem_of_nil in Hq]. simpl in Hq.
    apply list_elem_of_In in Hq. simpl in Hq. destruct Hq as [<-|[<-|[<-|[]]]].
    1: split; [by apply sample_in_mlfq0|vm_compute; reflexivity].
    all: split; vm_compute; reflexivity.
  - intros p Hty Hls%sample_listed. destruct Hls as [->|[->|[->| ->]]].
    + exists [1%nat], 0%nat, 0%nat. apply sample_mlfq_group; [done|apply sample_group0|lia|set_solver|].
      intros q [->|[->|[->| ->]]] Hp; [set_solver..| |]; vm_compute in Hp; discriminate.
    + exists [0%nat], 0%nat, 0%nat. apply sample_mlfq_group; [done|apply sample_group1|lia|set_solver|].
      intros q [->|[->|[->| ->]]] Hp; [set_solver..| |]; vm_compute in Hp; discriminate.
    + exists [], 2%nat, 0%nat. apply sample_mlfq_group; [done|apply sample_group2|lia|set_solver|].
      intros q [->|[->|[->| ->]]] Hp; [| |set_solver|]; vm_compute in Hp; discriminate.
    + exists [], 3%nat, 0%nat. apply sample_mlfq_group; [done|apply sample_group3|lia|set_solver|].
      intros q [->|[->|[->| ->]]] Hp; [| | |set_solver]; vm_compute in Hp; discriminate.
Qed.

(** Process 3 woken but not queued yet; process 1 at the end of its allotment. *)
Definition fresh : kstate unit := upd_proc 3 (set_p_state RUNNABLE) idle.
Definition tired : kstate unit := upd_proc 0 (set_p_ticks 20) running.

Lemma fresh_queueable : queueable fresh sampleQ 3 [] 3 0.
Proof.
  split; [apply (sample_queues RUNNABLE)|apply (sample_pins RUNNABLE)| | | |].
  - split_and!; [apply dlistb_ok; vm_compute; reflexivity|unfold NPROC; simpl; lia|].
    intros q ->%list_elem_of_singleton. split; [|done]. exists 0%nat. split; [lia|].
    constructor. vm_compute. reflexivity.
  - split; [unfold QSIZE; lia|vm_compute; reflexivity].
  - intros [|l] _ Hq; [simpl in Hq; set_solver|by apply not_elem_of_nil in Hq].
  - by intros q ?%not_elem_of_nil.
Qed.

Lemma tired_queued : queued tired sampleQ 0 [1%nat] 0 0.
Proof.
  apply (queued_ext running); [|done|done|apply sample_queued; by right].
  intros x. unfold tired. rewrite pr_upd. by case_decide; subst.
Qed.

(** ** The stride side *)

Lemma sample_lock_free st : lock_free (sample st) 0 sample_cpu.
Proof. split; [split; reflexivity|split; [simpl; lia|simpl; lia]|reflexivity]. Qed.

Lemma sample_heap st : heap_rep (sample st) [] ∧ heap_ord (λ _, 0) [] ∧ keyed (sample st) (λ _, 0) [].
Proof.
  split_and!.
  - split_and!; [done|done|unfold NPROC; simpl; lia|]. intros j Hj. simpl in Hj. lia.
  - intros j Hj. simpl in Hj. lia.
  - by intros q ?%not_elem_of_nil.
Qed.

Lemma sample_grantable st :
  st = RUNNABLE ∨ st = RUNNING → grantable (sample st) sampleQ 0 [1%nat] 0 0 (λ _, 0) [] [].
Proof.
  intros Hst. split; [by apply sample_queued|set_solver|apply sample_heap| |apply not_elem_of_nil].
  apply dlistb_ok. vm_compute. reflexivity.
Qed.

Lemma sample_ledger st : ledger (sample st) [].
Proof. split; [apply NoDup_nil_2|reflexivity|vm_compute; discriminate|by intros m ?%not_elem_of_nil]. Qed.

Close Scope Z_scope.
