(* ===== verification/SchedTheorems.v ===== *)
(** * What the scheduler promises

    The properties of the queues, of selection, of sleeping and waking and of
    the CPU shares, each with a concrete instance on the process table of
    [Sample]. *)

From S2P Require Import Prelude.
From S2P Require Import ListH.
From S2P Require Import Spinlock.
From S2P Require Import Kstate.
From S2P Require Import ThreadCore.
From S2P Require Import StrideHeap.
From S2P Require Import Mlfq.
From S2P Require Import Sched.
From S2P Require Import SchedInv.
From S2P Require Import CpuShare.
From S2P Require Import Sample.

Open Scope Z_scope.

Section theorems.
  Context {E : Type} `{!Hw E}.

(** C6: [mlfqselect] looks at the thread the pin of a level designates (the
    first of the queue when the pin is the queue's head), the highest level
    first.  It passes over a level exactly when the queue is empty, or the
    designated thread is RUNNING on a CPU and the pin is at the head of the
    queue or no other thread of the queue is RUNNABLE; the pins of the levels
    passed are left at the head.  It answers the null pointer when it passes
    all levels; otherwise it pins and returns the designated thread of the
    first level it does not pass, which is RUNNABLE, or RUNNING in a queue
    that has another RUNNABLE thread.  While no queued thread is RUNNING, the
    levels passed are the empty ones.  The invariant of the scheduler holds
    again. *)
Theorem mlfqselect_picks_highest (s : kstate E) Q SL :
  sched_inv s Q SL →
  (∀ l, (l < QSIZE)%nat → (∀ q, q ∈ Q l → p_state (pr s q) = RUNNABLE) → passed s Q l = bool_decide (Q l = [])) ∧
  ((mlfqselect s = Ok (None, unpinned QSIZE s) ∧ sched_inv (unpinned QSIZE s) Q SL ∧
      ∀ l, (l < QSIZE)%nat → passed s Q l = true) ∨
   (∃ l p s', mlfqselect s = Ok (Some p, s') ∧ s' = put_pin l (mlfq_node p) (unpinned l s) ∧ sched_inv s' Q SL ∧
      (l < QSIZE)%nat ∧ p ∈ Q l ∧ pinned_thread s Q l = Some p ∧
      (p_state (pr s p) = RUNNABLE ∨
       p_state (pr s p) = RUNNING ∧ ∃ n, n ∈ Q l ∧ n ≠ p ∧ p_state (pr s n) = RUNNABLE) ∧
      ∀ k, (k < l)%nat → passed s Q k = true)).
Proof.
  intros H. split.
  { intros l Hl Hall. unfold passed. destruct (decide (Q l = [])) as [HQ|HQ].
    - rewrite (bool_decide_eq_true_2 (Q l = [])) by done. rewrite (pinned_thread_empty s Q l (si_pins _ _ _ H) Hl HQ). done.
    - rewrite (bool_decide_eq_false_2 (Q l = [])) by done.
      destruct (pinned_thread_some s Q l (si_pins _ _ _ H) Hl HQ) as (p & pin & _ & -> & Hp & _). by rewrite (Hall p Hp). }
  destruct (mlfqselect_run s Q) as [[Hr Hall]|(l & p & Hr & Hl & Hp & Hpt & Hno & Hk)];
    [apply H|apply H|by eapply sched_inv_all_queued|left|right].
  { split; [done|]. split; [by apply sched_inv_unpinned|done]. }
  exists l, p, (put_pin l (mlfq_node p) (unpinned l s)). split_and!; try done.
  - apply sched_inv_put; [apply sched_inv_unpinned; [done|lia]|done|right; eauto].
  - destruct (si_in_mlfq _ _ _ H l p Hl Hp) as [[Hs|Hs]%bool_decide_eq_true_1 _]; [by left|right].
    split; [done|]. unfold passed in Hno. rewrite Hpt, (bool_decide_eq_true_2 _ Hs) in Hno.
    pose proof (other_runnable_spec s Q l p) as Ho. destruct (other_runnable s Q l p); [done|]. by rewrite orb_true_r in Hno.
Qed.

(** C13: [enqueue_thread] on a RUNNABLE thread whose siblings stand together
    in its level's queue puts it right behind a RUNNABLE or RUNNING sibling,
    or at the end of the queue when it has none; afterwards the threads of
    every process still stand together, the queue holds the old threads and
    the new one, and all queues and pins are well formed. *)
Theorem enqueue_thread_gathers (s : kstate E) Q th ths m l :
  queueable s Q th ths m l → p_state (pr s th) = RUNNABLE →
  (∀ q, q ∈ Q l → p_pid (pr s q) = p_pid (pr s th) → q ∈ ths) →
  gathered (λ q, p_pid (pr s q)) (Q l) →
  wp (enqueue_thread th) (λ _ s', ∃ L,
    L ≡ₚ th :: Q l ∧ enqueued s th ths (Q l) L ∧ gathered (λ q, p_pid (pr s' q)) L ∧
    queues s' (setq Q l L) ∧ pins_ok s' (setq Q l L) ∧ ∀ q, pr s' q = pr s q) s.
Proof.
  intros H Hst Hpid HG. wcall enqueue_thread_spec; [done|done|].
  intros [] s' (L & HL & Hq & Hp & Hf). exists L.
  assert (∀ q, pr s' q = pr s q) as Hpr by (intros q; by eapply mlfq_frame_pr).
  split_and!; try done.
  - by eapply enqueued_perm.
  - pose proof (enqueued_gathered _ _ _ _ _ _ _ H Hpid HG HL) as HG'.
    intros i j k a b c. rewrite !Hpr. by apply HG'.
Qed.

(** [dequeue_thread] removes exactly the thread from its queue, clears
    its links, leaves every process entry alone, and no pin is left on it:
    all queues and pins are well formed afterwards. *)
Theorem dequeue_thread_unlinks (s : kstate E) Q th ths m l q1 q2 :
  queued s Q th ths m l → Q l = q1 ++ th :: q2 →
  wp (dequeue_thread th) (λ _ s',
    queues s' (setq Q l (q1 ++ q2)) ∧ pins_ok s' (setq Q l (q1 ++ q2)) ∧
    lh (links s') (NProc Fmlfq th) = mkLH None None ∧ ∀ q, pr s' q = pr s q) s.
Proof.
  intros H HQ. wcall dequeue_thread_spec; [done|done|].
  intros [] s' (? & ? & Hf & ?). split_and!; try done. intros q. by eapply mlfq_frame_pr.
Qed.

(** C23: [mlfqlogic] on a process that used up the time allotment of a level
    above the base level moves all its RUNNABLE and RUNNING threads from that
    queue to the end of the next one, sets the main thread's level and resets
    its ticks, and changes no other process entry and no other queue. *)
Theorem mlfqlogic_demotes (s : kstate E) Q p ths m l :
  queued s Q p ths m l → (S l < QSIZE)%nat → TA (Z.of_nat l) ≤ p_ticks (pr s m) →
  wp (mlfqlogic p) (λ _ s', ∃ Q',
    queues s' Q' ∧ pins_ok s' Q' ∧
    Q' l = without (ths ++ [p]) (Q l) ∧
    Q' (S l) ≡ₚ Q (S l) ++ filter (λ q, in_mlfq (pr s q) = true) (p :: ths) ∧
    (∀ l', l' ≠ l → l' ≠ S l → Q' l' = Q l') ∧
    (∀ q, pr s' q = if decide (q = m) then demoted l (pr s m) else pr s q)) s.
Proof. apply mlfqlogic_demote. Qed.

(** C34: [priority_boost] appends queue 1 and then queue 2 to queue 0, leaves
    them empty, sends exactly the threads of these two queues and of the
    sleep list to level 0 with zero ticks, and resets the boost clock. *)
Theorem priority_boost_lifts_all (s : kstate E) Q SL :
  queues s Q → pins_ok s Q → dlist (links s) NSleep (NProc Fsleep <$> SL) →
  (length (Q 1%nat) ≤ NPROC)%nat → (length (Q 2%nat) ≤ NPROC)%nat → (length SL ≤ NPROC)%nat →
  wp priority_boost (λ _ s', ∃ Q',
    queues s' Q' ∧ pins_ok s' Q' ∧
    Q' 0%nat = Q 0%nat ++ Q 1%nat ++ Q 2%nat ∧ Q' 1%nat = [] ∧ Q' 2%nat = [] ∧
    (∀ q, pr s' q = if decide (q ∈ Q 1%nat ++ Q 2%nat ++ SL) then boosted (pr s q) else pr s q) ∧
    mq_ticks (k_mlfq s') = 0) s.
Proof. apply priority_boost_spec. Qed.

(** C32: [wakeup1] makes exactly the threads sleeping on the channel RUNNABLE
    and takes exactly them off the sleep list; the threads it adds to the
    queues are among them, every other process entry is as it was, and the
    run-state invariant of the process table holds again. *)
Theorem wakeup1_wakes_exactly (s : kstate E) Q SL ch :
  sched_inv s Q SL →
  wp (wakeup1 ch) (λ _ s', ∃ Q',
    sched_inv s' Q' (still_asleep s ch SL) ∧
    (∀ x, pr s' x = woken_entry s ch SL x) ∧
    (∀ l q, (l < QSIZE)%nat → q ∈ Q' l → q ∈ Q l ∨ (q ∈ SL ∧ p_chan (pr s q) = ch))) s.
Proof.
  intros H. wcall wakeup1_spec; [done|]. intros [] s' (Q' & ? & _ & ? & ?). by exists Q'.
Qed.

(** C33: going to sleep takes the running thread off its queue, whatever the
    pins were, puts it at the head of the sleep list with its channel and the
    state SLEEPING, changes no other entry, and keeps the run-state invariant. *)
Theorem sleep_moves_to_sleep_list (s : kstate E) Q SL p l ch :
  sched_inv s Q SL → (l < QSIZE)%nat → p ∈ Q l →
  wp (go_to_sleep p ch) (λ _ s', ∃ q1 q2, Q l = q1 ++ p :: q2 ∧
    sched_inv s' (setq Q l (q1 ++ q2)) (p :: SL) ∧
    (∀ x, pr s' x = if decide (p = x) then asleep ch (pr s p) else pr s x)) s.
Proof.
  intros H Hl Hp. wcall go_to_sleep_spec; [done..|]. intros [] s' (q1 & q2 & ? & ? & _ & ?). by exists q1, q2.
Qed.

(** C9: whatever share is asked for, [set_cpu_share] returns 0 or -1; on -1
    every process keeps its entry; on 0 the caller's process holds exactly
    the share; either way the tickets of MLFQ and of the STRIDE processes add
    up to 100, MLFQ keeps at least the reserve, and every STRIDE process has
    at least one ticket. *)
Theorem set_cpu_share_keeps_ledger (s : kstate E) i c Q p ths m l ky hl R ms share :
  lock_free s i c → cpu_proc c = Some p → main_of s p m → ledger s ms →
  (p_type (pr s p) = STRIDE → m ∈ ms) →
  (p_type (pr s p) = MLFQ → m ∉ ms ∧ grantable s Q p ths m l ky hl R) →
  wp (set_cpu_share share) (λ r s',
    (r = -1 ∧ (∀ q, pr s' q = pr s q) ∧ ledger s' ms) ∨
    (r = 0 ∧ p_tickets (pr s' m) = share ∧ ∃ ms', ledger s' ms' ∧ m ∈ ms' ∧
       (∀ q, q ∈ ms' ↔ q = m ∨ q ∈ ms))) s.
Proof. apply set_cpu_share_ledger_keep. Qed.

(** A share granted to an MLFQ process takes all its threads out of the
    queues, makes all of them and nobody else STRIDE, starts its pass at the
    smaller of the heap's minimum and MLFQ's pass (so that it neither starves
    nor monopolises the CPU), and links the caller on the list of running
    STRIDE threads; the lock is free again. *)
Theorem set_cpu_share_becomes_stride (s : kstate E) i c Q p ths m l ky hl R share :
  lock_free s i c → cpu_proc c = Some p → in_range share →
  grantable s Q p ths m l ky hl R → p_type (pr s p) = MLFQ →
  RESERVE ≤ mq_tickets (k_mlfq s) - share →
  wp (set_cpu_share share)
     (λ r s', r = 0 ∧ granted_mlfq s s' i Q p ths m l (start_pass s ky hl) share R) s.
Proof. apply set_cpu_share_mlfq. Qed.

(** C35: with the ledger in balance there are at most 80 STRIDE processes, so
    a heap that holds one thread of each of them always has room in
    [minheap] for one more entry and [pushheap] stays inside the array. *)
Theorem stride_heap_never_overflows (s : kstate E) ms hl ky p :
  ledger s ms → heap_rep s hl → heap_ord ky hl → keyed s ky (p :: hl) →
  (length hl ≤ length ms)%nat →
  wp (pushheap p) (λ _ s', ∃ hl', heap_rep s' hl' ∧ hl' ≡ₚ p :: hl ∧ heap_ord ky hl') s.
Proof.
  intros Hlg Hr Ho Hk Hlen. pose proof (ledger_length _ _ Hlg).
  wcall pushheap_spec; [done..|unfold NPROC; lia|]. intros [] s' (hl' & ? & ? & ? & _). by exists hl'.
Qed.

(** [popheap] on a non-empty stride heap returns a thread of least pass
    and leaves a heap of exactly the other threads; nothing outside the
    stride structure changes. *)
Theorem popheap_returns_minimum (s : kstate E) hl ky :
  heap_rep s hl → heap_ord ky hl → keyed s ky hl → hl ≠ [] →
  wp popheap (λ r s', ∃ q hl', r = Some q ∧ hl ≡ₚ q :: hl' ∧ (∀ x, x ∈ hl → ky q ≤ ky x) ∧
    heap_rep s' hl' ∧ heap_ord ky hl' ∧ but_stride s s') s.
Proof. apply popheap_spec. Qed.

(** A walk over the threads of a process visits the ring from the thread
    after [p] round to [p] itself and answers the first thread whose callback
    answers non-null, for every callback that leaves the ring alone. *)
Theorem thread_walk_is_search (s : kstate E) p ths routine :
  (∀ q, thgroup_stable (routine q)) → thring s p ths → (length ths < NPROC)%nat →
  threads_apply0 p routine s = first_of (ths ++ [p]) routine s.
Proof. apply threads_apply0_spec. Qed.

(** [terminate_proc] sets [killed] in every thread of the process and in
    no other entry, and changes nothing else. *)
Theorem terminate_proc_kills_all (s : kstate E) p ths :
  thring s p ths → (length ths < NPROC)%nat →
  ∃ s', terminate_proc p s = Ok (tt, s') ∧ same_but_procs s s' ∧
    ∀ q, pr s' q = if decide (q ∈ p :: ths) then set_p_killed 1 (pr s q) else pr s q.
Proof.
  intros Hr Hl. eexists. split; [by apply terminate_proc_run|]. split; [apply upd_all_same|].
  intros q. rewrite pr_upd_all by by eapply thring_NoDup_visit.
  destruct (decide (q ∈ p :: ths)); [rewrite decide_True by set_solver|rewrite decide_False by set_solver]; done.
Qed.

End theorems.

(** ** Concrete instances *)

(** Thread 0 runs on a CPU and is pinned: the other CPU's [mlfqselect] returns
    it all the same. *)
Lemma mlfqselect_picks_highest_witness :
  passed running sampleQ 0 = false ∧ passed running sampleQ 1 = true ∧
  ∃ l p s', mlfqselect running = Ok (Some p, s') ∧ sched_inv s' sampleQ [3%nat] ∧ p ∈ sampleQ l.
Proof.
  assert (passed running sampleQ 0 = false) as H0 by (vm_compute; reflexivity).
  split; [exact H0|]. split; [vm_compute; reflexivity|].
  destruct (mlfqselect_picks_highest running sampleQ [3%nat]) as [_ [(_ & _ & H)|(l & p & s' & A1 & _ & A2 & _ & A3 & _)]].
  - apply sample_inv. by right.
  - specialize (H 0%nat ltac:(unfold QSIZE; lia)). congruence.
  - exists l, p, s'. exact (conj A1 (conj A2 A3)).
Defined.

Lemma enqueue_thread_gathers_witness :
  wp (enqueue_thread 3) (λ _ s', ∃ L, L ≡ₚ 3%nat :: sampleQ 0 ∧ queues s' (setq sampleQ 0 L)) fresh.
Proof.
  eapply wp_mono; [apply (enqueue_thread_gathers fresh sampleQ 3 [] 3 0)|].
  - apply fresh_queueable.
  - vm_compute. reflexivity.
  - intros q Hq Hp. apply list_elem_of_In in Hq. simpl in Hq.
    destruct Hq as [<-|[<-|[<-|[]]]]; vm_compute in Hp; discriminate.
  - intros [|[|[|i]]] [|[|[|j]]] [|[|[|k]]] a b c Hij Ha Hb Hc Hf; simplify_eq/=; try lia; try done;
      vm_compute in Hf; discriminate.
  - intros [] s' (L & ? & _ & _ & ? & _). by exists L.
Defined.

Lemma dequeue_thread_unlinks_witness :
  wp (dequeue_thread 0) (λ _ s', queues s' (setq sampleQ 0 [1; 2]%nat)) running.
Proof.
  eapply wp_mono; [apply (dequeue_thread_unlinks running sampleQ 0 [1%nat] 0 0 [] [1; 2]%nat)|].
  - apply sample_queued. by right.
  - reflexivity.
  - by intros [] s' (? & _).
Defined.

Lemma mlfqlogic_demotes_witness :
  wp (mlfqlogic 0) (λ _ s', ∃ Q', queues s' Q' ∧ Q' 0%nat = [2%nat] ∧ Q' 1%nat ≡ₚ [0; 1]%nat) tired.
Proof.
  eapply wp_mono; [apply (mlfqlogic_demotes tired sampleQ 0 [1%nat] 0 0)|].
  - apply tired_queued.
  - unfold QSIZE. lia.
  - vm_compute. discriminate.
  - intros [] s' (Q' & ? & _ & H0 & H1 & _). exists Q'. split; [done|]. split; [by rewrite H0|by rewrite H1].
Defined.

Lemma priority_boost_lifts_all_witness :
  wp priority_boost (λ _ s', ∃ Q', queues s' Q' ∧ Q' 0%nat = [0; 1; 2]%nat) idle.
Proof.
  eapply wp_mono; [apply (priority_boost_lifts_all idle sampleQ [3%nat])|].
  - apply sample_queues.
  - apply sample_pins.
  - apply dlistb_ok. vm_compute. reflexivity.
  - unfold NPROC. simpl. lia.
  - unfold NPROC. simpl. lia.
  - unfold NPROC. simpl. lia.
  - intros [] s' (Q' & ? & _ & H0 & _). exists Q'. split; [done|]. by rewrite H0.
Defined.

Lemma wakeup1_wakes_exactly_witness :
  wp (wakeup1 (Caddr 7)) (λ _ s', p_state (pr s' 3) = RUNNABLE ∧ ∃ Q', sched_inv s' Q' []) running.
Proof.
  eapply wp_mono; [apply (wakeup1_wakes_exactly running sampleQ [3%nat] (Caddr 7))|].
  - apply sample_inv. by right.
  - intros [] s' (Q' & Hi & Hp & _). split.
    + rewrite Hp. vm_compute. reflexivity.
    + exists Q'. assert (still_asleep running (Caddr 7) [3%nat] = []) as <-; [|done].
      vm_compute. reflexivity.
Defined.

Lemma sleep_moves_to_sleep_list_witness :
  wp (go_to_sleep 0 (Caddr 9)) (λ _ s', p_state (pr s' 0) = SLEEPING) running.
Proof.
  eapply wp_mono; [apply (sleep_moves_to_sleep_list running sampleQ [3%nat] 0 0 (Caddr 9))|].
  - apply sample_inv. by right.
  - unfold QSIZE. lia.
  - simpl. set_solver.
  - intros [] s' (q1 & q2 & _ & _ & Hp). rewrite Hp. reflexivity.
Defined.

Lemma set_cpu_share_keeps_ledger_witness :
  wp (set_cpu_share 40) (λ r s', r = -1 ∨ (r = 0 ∧ p_tickets (pr s' 0) = 40)) running.
Proof.
  eapply wp_mono; [apply (set_cpu_share_keeps_ledger running 0 sample_cpu sampleQ 0 [1%nat] 0 0 (λ _, 0) [] [] [] 40)|].
  - apply sample_lock_free.
  - reflexivity.
  - apply sample_main, list_elem_of_In. simpl. tauto.
  - apply sample_ledger.
  - intros Hs. vm_compute in Hs. discriminate.
  - intros _. split; [apply not_elem_of_nil|]. apply sample_grantable. by right.
  - intros r s' [(-> & _)|(-> & ? & _)]; [by left|by right].
Defined.

Lemma set_cpu_share_becomes_stride_witness :
  wp (set_cpu_share 40) (λ r s', r = 0 ∧ p_type (pr s' 0) = STRIDE) running.
Proof.
  eapply wp_mono; [apply (set_cpu_share_becomes_stride running 0 sample_cpu sampleQ 0 [1%nat] 0 0 (λ _, 0) [] [] 40)|].
  - apply sample_lock_free.
  - reflexivity.
  - vm_compute. split; discriminate.
  - apply sample_grantable. by right.
  - vm_compute. reflexivity.
  - vm_compute. discriminate.
  - intros r s' [-> G]. split; [done|]. rewrite (gm_procs _ _ _ _ _ _ _ _ _ _ _ G). vm_compute. reflexivity.
Defined.

Lemma stride_heap_never_overflows_witness :
  wp (pushheap 0) (λ _ s', ∃ hl', heap_rep s' hl' ∧ hl' ≡ₚ [0%nat]) (upd_mlfq (set_mq_tickets 60)
    (upd_proc 0 (set_p_tickets 40) running)).
Proof.
  eapply wp_mono; [apply (stride_heap_never_overflows _ [0%nat] [] (λ _, 0) 0)|].
  - split; [apply NoDup_singleton|vm_compute; reflexivity|vm_compute; discriminate|].
    intros m ->%list_elem_of_singleton. vm_compute. discriminate.
  - split_and!; [done|done|unfold NPROC; simpl; lia|]. intros j Hj. simpl in Hj. lia.
  - intros j Hj. simpl in Hj. lia.
  - intros q ->%list_elem_of_singleton. exists 0%nat. split; [|vm_compute; reflexivity].
    exists 0%nat. split; [lia|]. constructor. vm_compute. reflexivity.
  - simpl. lia.
  - intros [] s' (hl' & ? & ? & _). by exists hl'.
Defined.

Lemma popheap_returns_minimum_witness :
  wp popheap (λ r s', r = Some 0%nat) (upd_stride (λ _, mkStride 1 (<[1%nat := Some 0%nat]> (replicate NPROC None))) running).
Proof.
  eapply wp_mono; [apply (popheap_returns_minimum _ [0%nat] (λ _, 0))|].
  - split_and!; [done|done|unfold NPROC; simpl; lia|]. intros [|[|j]] Hj Hne; simpl in Hj; [lia|reflexivity|lia].
  - intros j Hj. simpl in Hj. lia.
  - intros q ->%list_elem_of_singleton. exists 0%nat. split; [|vm_compute; reflexivity].
    exists 0%nat. split; [lia|]. constructor. vm_compute. reflexivity.
  - done.
  - intros r s' (q & hl' & -> & Hp & _). f_equal. symmetry in Hp.
    apply Permutation_singleton_r in Hp. by simplify_eq.
Defined.

Lemma thread_walk_is_search_witness :
  threads_apply0 0 __routine_is_ready idle = first_of [1; 0]%nat __routine_is_ready idle.
Proof.
  apply (thread_walk_is_search idle 0 [1%nat] __routine_is_ready).
  - intros q s a s' Hr. unfold __routine_is_ready, mbind, M_bind, mret, M_ret in Hr. simpl in Hr. by simplify_eq.
  - apply sample_group0.
  - unfold NPROC. simpl. lia.
Defined.

Lemma terminate_proc_kills_all_witness :
  ∃ s', terminate_proc 0 idle = Ok (tt, s') ∧ p_killed (pr s' 1) = 1 ∧ p_killed (pr s' 2) = 0.
Proof.
  destruct (terminate_proc_kills_all idle 0 [1%nat]) as (s' & H1 & _ & H2).
  - apply sample_group0.
  - unfold NPROC. simpl. lia.
  - exists s'. split; [done|]. rewrite !H2. split; vm_compute; reflexivity.
Defined.

Close Scope Z_scope.
