(* ===== verification/Bio.v ===== *)
(** * Sleep locks, the disk and the buffer cache ([src/xv6-public/sleeplock.c],
    [memide.c], [bio.c])

    The state of one process working on the disk: the buffers and their LRU
    ring, the contents of the disk, the sequence of blocks written to it so
    far ([dtrace], one block write is atomic), and who the process is.  A
    sleep lock that somebody else holds makes the routine wait, which is the
    fault [Spin]; the sections under a spin lock are single steps. *)

From S2P Require Import Prelude.
From S2P Require Import ListH.

Open Scope Z_scope.

(** ** [sleeplock.h], [buf.h], [param.h] *)

Record sleeplock := mkSleeplock { sl_locked : Z; sl_pid : Z; sl_tid : Z }.

Definition BSIZE : nat := 512.
Definition NBUF : nat := 30.
Definition FSSIZE : Z := 40000.
Definition B_VALID : Z := 2.
Definition B_DIRTY : Z := 4.

Abbreviation block := (list Z).

Record buf := mkBuf {
  b_flags : Z;
  b_dev : Z;
  b_blockno : Z;
  b_lock : sleeplock;
  b_refcnt : Z;
  b_data : block
}.

Definition set_b_flags (v : Z) (b : buf) : buf :=
  mkBuf v (b_dev b) (b_blockno b) (b_lock b) (b_refcnt b) (b_data b).
Definition set_b_lock (v : sleeplock) (b : buf) : buf :=
  mkBuf (b_flags b) (b_dev b) (b_blockno b) v (b_refcnt b) (b_data b).
Definition set_b_refcnt (v : Z) (b : buf) : buf :=
  mkBuf (b_flags b) (b_dev b) (b_blockno b) (b_lock b) v (b_data b).
Definition set_b_data (v : block) (b : buf) : buf :=
  mkBuf (b_flags b) (b_dev b) (b_blockno b) (b_lock b) (b_refcnt b) v.

Definition buf0 : buf := mkBuf 0 0 0 (mkSleeplock 0 0 0) 0 (replicate BSIZE 0).

(** [&bcache.head] and [&bcache.buf[i]] as list nodes. *)
Inductive bnode := BHead | BBuf (i : nat).
#[global] Instance bnode_eq_dec : EqDecision bnode.
Proof. solve_decision. Defined.
#[global] Instance bnode_countable : Countable bnode.
Proof.
  apply (inj_countable' (λ n, match n with BHead => None | BBuf i => Some i end)
                        (λ o, match o with None => BHead | Some i => BBuf i end)).
  by intros [].
Defined.

Record bstate := mkB {
  bufs : gmap nat buf;                       (* bcache.buf *)
  blinks : gmap bnode (list_head bnode);     (* prev and next of the buffers *)
  disk : gmap Z block;                       (* memdisk *)
  disksize : Z;
  dtrace : list (Z * block);                 (* blocks written, oldest first *)
  me_pid : Z;                                (* myproc()->pid *)
  me_tid : Z                                 (* myproc()->tid *)
}.

Definition set_bufs (v : gmap nat buf) (s : bstate) : bstate :=
  mkB v (blinks s) (disk s) (disksize s) (dtrace s) (me_pid s) (me_tid s).
Definition set_blinks (v : gmap bnode (list_head bnode)) (s : bstate) : bstate :=
  mkB (bufs s) v (disk s) (disksize s) (dtrace s) (me_pid s) (me_tid s).
Definition put_disk (b : Z) (v : block) (s : bstate) : bstate :=
  mkB (bufs s) (blinks s) (<[b := v]> (disk s)) (disksize s) (dtrace s ++ [(b, v)]) (me_pid s) (me_tid s).

Abbreviation BM := (M bstate).

Definition bf (s : bstate) (i : nat) : buf := default buf0 (bufs s !! i).
Definition upd_buf (i : nat) (f : buf → buf) (s : bstate) : bstate :=
  set_bufs (<[i := f (bf s i)]> (bufs s)) s.
Definition rb {A} (i : nat) (f : buf → A) : BM A := gets (λ s, f (bf s i)).
Definition wb (i : nat) (f : buf → buf) : BM unit := modify (upd_buf i f).
Definition on_blinks {A} : M (gmap bnode (list_head bnode)) A → BM A := zoom blinks set_blinks.

(** The disk content of a block that was never written is zeroes. *)
Definition disk_at (s : bstate) (b : Z) : block := default (replicate BSIZE 0) (disk s !! b).

(** ** [sleeplock.c] *)

Definition initsleeplock (i : nat) : BM unit := wb i (set_b_lock (mkSleeplock 0 0 0)).

Definition acquiresleep (i : nat) : BM unit :=
  lk ← rb i b_lock;
  if negb (Z.eqb (sl_locked lk) 0) then fail Spin
  else
    pid ← gets me_pid;
    tid ← gets me_tid;
    wb i (set_b_lock (mkSleeplock 1 pid tid)).

Definition releasesleep (i : nat) : BM unit :=
  lk ← rb i b_lock;
  wb i (set_b_lock (mkSleeplock 0 0 (sl_tid lk))).

Definition holdingsleep (i : nat) : BM bool :=
  lk ← rb i b_lock;
  pid ← gets me_pid;
  tid ← gets me_tid;
  mret (negb (Z.eqb (sl_locked lk) 0) && Z.eqb (sl_pid lk) pid && Z.eqb (sl_tid lk) tid).

(** ** [memide.c] *)

Definition iderw (i : nat) : BM unit :=
  h ← holdingsleep i;
  if negb h then panic "iderw: buf not locked"
  else
    fl ← rb i b_flags;
    if Z.eqb (Z.land fl (Z.lor B_VALID B_DIRTY)) B_VALID then panic "iderw: nothing to do"
    else
      dev ← rb i b_dev;
      if negb (Z.eqb dev 1) then panic "iderw: request not for disk 1"
      else
        blockno ← rb i b_blockno;
        n ← gets disksize;
        if Z.leb n blockno then panic "iderw: block out of range"
        else
          (if negb (Z.eqb (Z.land fl B_DIRTY) 0) then
             wb i (set_b_flags (Z.land fl (Z.lnot B_DIRTY)));;
             d ← rb i b_data;
             modify (put_disk blockno d)
           else
             d ← gets (λ s, disk_at s blockno);
             wb i (set_b_data d));;
          fl ← rb i b_flags;
          wb i (set_b_flags (Z.lor fl B_VALID)).

(** ** [bio.c] *)

(** [b->next = head.next; b->prev = &head; head.next->prev = b; head.next = b]. *)
Definition move_to_front (i : nat) : M (gmap bnode (list_head bnode)) unit :=
  let b := Some (BBuf i) in
  let head := Some BHead in
  n ← ld_next head;
  st_next b n;;
  st_prev b head;;
  n ← ld_next head;
  st_prev n b;;
  st_next head b.

Definition binit : BM unit :=
  on_blinks (st_prev (Some BHead) (Some BHead));;
  on_blinks (st_next (Some BHead) (Some BHead));;
  for_each (seq 0 NBUF) (λ i,
    n ← on_blinks (ld_next (Some BHead));
    on_blinks (st_next (Some (BBuf i)) n);;
    on_blinks (st_prev (Some (BBuf i)) (Some BHead));;
    initsleeplock i;;
    n ← on_blinks (ld_next (Some BHead));
    on_blinks (st_prev n (Some (BBuf i)));;
    on_blinks (st_next (Some BHead) (Some (BBuf i)))).

(** A scan of the ring: the first buffer that passes [test]. *)
Definition scan_ring (step : option bnode → M (gmap bnode (list_head bnode)) (option bnode))
    (test : nat → BM bool) : BM (option nat) :=
  itr ← on_blinks (step (Some BHead));
  loop (S (S NBUF)) (λ itr,
    match itr with
    | None => fail NullDeref
    | Some BHead => mret (inr None)
    | Some (BBuf i) =>
        t ← test i;
        if t : bool then mret (inr (Some i))
        else itr ← on_blinks (step (Some (BBuf i))); mret (inl itr)
    end) itr.

Definition bget (dev blockno : Z) : BM nat :=
  hit ← scan_ring ld_next (λ i, d ← rb i b_dev; n ← rb i b_blockno;
                                mret (Z.eqb d dev && Z.eqb n blockno));
  match hit with
  | Some i =>
      c ← rb i b_refcnt;
      wb i (set_b_refcnt (c + 1));;
      acquiresleep i;;
      mret i
  | None =>
      free ← scan_ring ld_prev (λ i, c ← rb i b_refcnt; fl ← rb i b_flags;
                                     mret (Z.eqb c 0 && Z.eqb (Z.land fl B_DIRTY) 0));
      match free with
      | Some i =>
          wb i (λ b, mkBuf 0 dev blockno (b_lock b) 1 (b_data b));;
          acquiresleep i;;
          mret i
      | None => panic "bget: no buffers"
      end
  end.

Definition bread (dev blockno : Z) : BM nat :=
  i ← bget dev blockno;
  fl ← rb i b_flags;
  (if Z.eqb (Z.land fl B_VALID) 0 then iderw i else mret tt);;
  mret i.

Definition bwrite (i : nat) : BM unit :=
  h ← holdingsleep i;
  if negb h then panic "bwrite"
  else
    fl ← rb i b_flags;
    wb i (set_b_flags (Z.lor fl B_DIRTY));;
    iderw i.

(** Unlinking a buffer and putting it first. *)
Definition to_front (i : nat) : M (gmap bnode (list_head bnode)) unit :=
  n ← ld_next (Some (BBuf i));
  p ← ld_prev (Some (BBuf i));
  st_prev n p;;
  p ← ld_prev (Some (BBuf i));
  n ← ld_next (Some (BBuf i));
  st_next p n;;
  move_to_front i.

Definition brelse (i : nat) : BM unit :=
  h ← holdingsleep i;
  if negb h then panic "brelse"
  else
    releasesleep i;;
    c ← rb i b_refcnt;
    wb i (set_b_refcnt (c - 1));;
    when (Z.eqb (c - 1) 0) (on_blinks (to_front i)).

(** ** Scanning the ring *)

Lemma on_blinks_ld_next s n : on_blinks (ld_next (Some n)) s = Ok (nxt (blinks s) n, s).
Proof. by destruct s. Qed.
Lemma on_blinks_ld_prev s n : on_blinks (ld_prev (Some n)) s = Ok (prv (blinks s) n, s).
Proof. by destruct s. Qed.

Definition pure_test (s : bstate) (f : nat → bool) (test : nat → BM bool) : Prop :=
  ∀ i, test i s = Ok (f i, s).

(** From the most recently used buffer on. *)
Lemma scan_next_run s lru f test :
  dlist (blinks s) BHead (BBuf <$> lru) → (length lru ≤ NBUF)%nat → pure_test s f test →
  scan_ring ld_next test s = Ok (find f lru, s).
Proof.
  intros Hd Hlen Ht. unfold scan_ring. rewrite (bind_ok _ _ _ _ _ (on_blinks_ld_next _ _)).
  match goal with |- loop _ ?b _ _ = _ => set (body := b) end.
  enough (∀ rest dn fuel, lru = dn ++ rest → (length rest < fuel)%nat →
    loop fuel body (Some (default BHead (BBuf <$> head rest))) s = Ok (find f rest, s)) as Hg.
  { assert (nxt (blinks s) BHead = Some (default BHead (BBuf <$> head lru))) as ->.
    { destruct lru; [by apply dlist_nil in Hd as [? _]|by apply dlist_next_first in Hd]. }
    apply (Hg lru []); [done|lia]. }
  induction rest as [|i rest IH]; intros dn fuel Hl Hf; (destruct fuel as [|fuel]; [simpl in Hf; lia|]).
  - by apply loop_inr.
  - cbn [find]. destruct (f i) eqn:Hi.
    + apply loop_inr. unfold body. simpl. rewrite (bind_ok _ _ _ _ _ (Ht i)). by rewrite Hi.
    + rewrite (loop_inl _ _ _ _ (Some (default BHead (BBuf <$> head rest))) s).
      * apply (IH (dn ++ [i])); [by rewrite <-app_assoc|simpl in Hf; lia].
      * unfold body. simpl. rewrite (bind_ok _ _ _ _ _ (Ht i)), Hi.
        rewrite (bind_ok _ _ _ _ _ (on_blinks_ld_next _ _)).
        rewrite Hl, fmap_app, fmap_cons in Hd. unfold mret, M_ret. do 3 f_equal.
        destruct rest; [by apply dlist_next_end in Hd|by apply dlist_next_in in Hd as [? _]].
Qed.

(** From the least recently used buffer on. *)
Lemma scan_prev_run s lru f test :
  dlist (blinks s) BHead (BBuf <$> lru) → (length lru ≤ NBUF)%nat → pure_test s f test →
  scan_ring ld_prev test s = Ok (find f (reverse lru), s).
Proof.
  intros Hd Hlen Ht. unfold scan_ring. rewrite (bind_ok _ _ _ _ _ (on_blinks_ld_prev _ _)).
  match goal with |- loop _ ?b _ _ = _ => set (body := b) end.
  assert (∀ i l1 l2, BBuf <$> lru = l1 ++ BBuf i :: l2 → prv (blinks s) (BBuf i) = Some (default BHead (last l1))) as Hpr.
  { intros i l1 l2 Hl. rewrite Hl in Hd. induction l1 as [|x l1 _] using rev_ind.
    - by apply dlist_prev_first in Hd.
    - rewrite last_snoc, <-app_assoc in *. by apply dlist_next_in in Hd as [_ ?]. }
  assert (prv (blinks s) BHead = Some (default BHead (last (BBuf <$> lru)))) as ->.
  { clear Hpr. induction lru as [|x lru _] using rev_ind; [by apply dlist_nil in Hd as [_ ?]|].
    rewrite fmap_app. simpl. rewrite last_snoc. destruct (ring_split_last BHead (BBuf <$> (lru ++ [x]))) as (t & p & E).
    rewrite (dlist_last _ _ _ _ _ E Hd). f_equal. rewrite fmap_app in E. simpl in E.
    rewrite app_comm_cons in E. by apply app_inj_tail in E as [_ ->]. }
  enough (∀ rest dn fuel, lru = reverse rest ++ dn → (length rest < fuel)%nat →
    loop fuel body (Some (default BHead (BBuf <$> head rest))) s = Ok (find f rest, s)) as Hg.
  { rewrite fmap_last, <-head_reverse. apply (Hg _ []); [by rewrite reverse_involutive, app_nil_r|].
    rewrite length_reverse. lia. }
  induction rest as [|i rest IH]; intros dn fuel Hl Hf; (destruct fuel as [|fuel]; [simpl in Hf; lia|]).
  - by apply loop_inr.
  - cbn [find]. destruct (f i) eqn:Hi.
    + apply loop_inr. unfold body. simpl. rewrite (bind_ok _ _ _ _ _ (Ht i)). by rewrite Hi.
    + rewrite (loop_inl _ _ _ _ (Some (default BHead (BBuf <$> head rest))) s).
      * apply (IH (i :: dn)); [by rewrite Hl, reverse_cons, <-app_assoc|simpl in Hf; lia].
      * unfold body. simpl. rewrite (bind_ok _ _ _ _ _ (Ht i)), Hi.
        rewrite (bind_ok _ _ _ _ _ (on_blinks_ld_prev _ _)). unfold mret, M_ret. do 3 f_equal.
        rewrite (Hpr i (BBuf <$> reverse rest) (BBuf <$> dn)).
        -- by rewrite fmap_last, <-head_reverse, reverse_involutive.
        -- rewrite Hl, reverse_cons, !fmap_app, <-app_assoc. done.
Qed.

(** ** The cache invariant

    [H] are the buffers this process holds, [lru] the ring from the most
    recently used buffer on. *)

Record binv (s : bstate) (H lru : list nat) : Prop := {
  bi_ring : dlist (blinks s) BHead (BBuf <$> lru);
  bi_perm : lru ≡ₚ seq 0 NBUF;
  bi_H : NoDup H ∧ ∀ i, i ∈ H → (i < NBUF)%nat ∧ b_dev (bf s i) = 1;
  bi_held : ∀ i, i ∈ H → b_refcnt (bf s i) = 1 ∧ b_lock (bf s i) = mkSleeplock 1 (me_pid s) (me_tid s);
  bi_free : ∀ i, (i < NBUF)%nat → i ∉ H → b_refcnt (bf s i) = 0 ∧ sl_locked (b_lock (bf s i)) = 0;
  bi_flags : ∀ i, (i < NBUF)%nat →
    (b_dev (bf s i) = 1 ∧ (b_flags (bf s i) = 2 ∨ b_flags (bf s i) = 6) ∧ 0 ≤ b_blockno (bf s i) < disksize s)
    ∨ (b_dev (bf s i) = 0 ∧ b_flags (bf s i) = 0);
  bi_uniq : ∀ i j, (i < NBUF)%nat → (j < NBUF)%nat → b_dev (bf s i) = 1 → b_dev (bf s j) = 1 →
    b_blockno (bf s i) = b_blockno (bf s j) → i = j;
  bi_clean : ∀ i, (i < NBUF)%nat → i ∉ H → b_dev (bf s i) = 1 → b_flags (bf s i) = 2 →
    b_data (bf s i) = disk_at s (b_blockno (bf s i))
}.

(** The buffer that caches block [b]. *)
Definition caches (s : bstate) (b : Z) (i : nat) : bool :=
  Z.eqb (b_dev (bf s i)) 1 && Z.eqb (b_blockno (bf s i)) b.
Definition cached (s : bstate) (b : Z) : option nat := find (caches s b) (seq 0 NBUF).

(** What a reader of block [b] sees. *)
Definition bview (s : bstate) (b : Z) : block :=
  match cached s b with Some i => b_data (bf s i) | None => disk_at s b end.

(** Blocks with a dirty buffer, which must not be evicted. *)
Definition dirty (s : bstate) (b : Z) : Prop :=
  ∃ i, (i < NBUF)%nat ∧ b_dev (bf s i) = 1 ∧ b_blockno (bf s i) = b ∧ b_flags (bf s i) = 6.

Lemma bf_upd i f s j : bf (upd_buf i f s) j = if decide (i = j) then f (bf s i) else bf s j.
Proof.
  unfold bf at 1, upd_buf; simpl. case_decide as Hd; [subst; by rewrite lookup_insert_eq|].
  by rewrite lookup_insert_ne.
Qed.

Definition put_buf (i : nat) (b : buf) (s : bstate) : bstate := upd_buf i (λ _, b) s.

Lemma bf_put i b s j : bf (put_buf i b s) j = if decide (i = j) then b else bf s j.
Proof. apply bf_upd. Qed.

Lemma upd_buf_put i f s : upd_buf i f s = put_buf i (f (bf s i)) s.
Proof. done. Qed.

Lemma put_put_buf i b b' s : put_buf i b' (put_buf i b s) = put_buf i b' s.
Proof. unfold put_buf, upd_buf, set_bufs; simpl. by rewrite insert_insert_eq. Qed.

Lemma find_unique {A} (f : A → bool) l x :
  x ∈ l → f x = true → (∀ y, y ∈ l → f y = true → y = x) → find f l = Some x.
Proof.
  intros Hx Hf Hu. destruct (find f l) as [y|] eqn:Hy.
  - apply List.find_some in Hy as [Hy1 Hy2]. f_equal. apply Hu; [by apply list_elem_of_In|done].
  - eapply List.find_none in Hy; [|by apply list_elem_of_In]. congruence.
Qed.

Section cache.
  Context (s : bstate) (H lru : list nat) (I : binv s H lru).

Lemma bi_lru_lt i : i ∈ lru ↔ (i < NBUF)%nat.
Proof. rewrite (bi_perm _ _ _ I), elem_of_seq. lia. Qed.

Lemma bi_lru_len : (length lru ≤ NBUF)%nat.
Proof. by rewrite (bi_perm _ _ _ I), length_seq. Qed.

Lemma caches_spec b i : caches s b i = true ↔ b_dev (bf s i) = 1 ∧ b_blockno (bf s i) = b.
Proof. unfold caches. by rewrite andb_true_iff, !Z.eqb_eq. Qed.

Lemma cached_hit b i :
  (i < NBUF)%nat → b_dev (bf s i) = 1 → b_blockno (bf s i) = b →
  cached s b = Some i ∧ find (caches s b) lru = Some i.
Proof.
  intros Hi Hd Hb. assert (caches s b i = true) as Hc by by apply caches_spec.
  assert (∀ j, (j < NBUF)%nat → caches s b j = true → j = i) as Hu.
  { intros j Hj [??]%caches_spec. apply (bi_uniq _ _ _ I); congruence. }
  split; apply find_unique; try done.
  - apply elem_of_seq. lia.
  - intros j Hj%elem_of_seq. apply Hu. lia.
  - by apply bi_lru_lt.
  - intros j Hj%bi_lru_lt. by apply Hu.
Qed.

Lemma cached_find b : find (caches s b) lru = cached s b.
Proof.
  unfold cached at 1. destruct (find (caches s b) (seq 0 NBUF)) as [i|] eqn:Hf.
  - apply List.find_some in Hf as [Hi [??]%caches_spec].
    apply list_elem_of_In, elem_of_seq in Hi. apply cached_hit; [lia|done..].
  - destruct (find (caches s b) lru) as [i|] eqn:Hf'; [|done].
    apply List.find_some in Hf' as [Hi Hc]. apply list_elem_of_In, bi_lru_lt in Hi.
    eapply List.find_none in Hf; [|apply list_elem_of_In, elem_of_seq; instantiate (1 := i); lia].
    congruence.
Qed.

Lemma cached_miss b i : cached s b = None → (i < NBUF)%nat → b_dev (bf s i) = 1 → b_blockno (bf s i) ≠ b.
Proof. intros Hn Hi Hd Hb. destruct (cached_hit b i Hi Hd Hb). congruence. Qed.

Lemma cached_some b i : cached s b = Some i → (i < NBUF)%nat ∧ b_dev (bf s i) = 1 ∧ b_blockno (bf s i) = b.
Proof.
  intros [Hi Hc%caches_spec]%List.find_some. apply list_elem_of_In, elem_of_seq in Hi. split; [lia|done].
Qed.

(** Taking a free buffer for block [b]. *)
Lemma binv_hold i nb :
  (i < NBUF)%nat → i ∉ H → b_dev nb = 1 → (b_flags nb = 2 ∨ b_flags nb = 6) →
  b_refcnt nb = 1 → b_lock nb = mkSleeplock 1 (me_pid s) (me_tid s) →
  0 ≤ b_blockno nb < disksize s →
  (∀ j, (j < NBUF)%nat → j ≠ i → b_dev (bf s j) = 1 → b_blockno (bf s j) ≠ b_blockno nb) →
  binv (put_buf i nb s) (i :: H) lru.
Proof.
  intros Hi HiH Hd Hfl Hr Hl Hb Hu. split.
  - apply I.
  - apply I.
  - destruct (bi_H _ _ _ I) as [Hnd HH]. split; [by apply NoDup_cons|].
    intros j. rewrite bf_put. case_decide; [by subst|]. intros [->|?]%elem_of_cons; [done|by apply HH].
  - intros j. rewrite bf_put. case_decide; [by subst|].
    intros [->|?]%elem_of_cons; [done|by apply (bi_held _ _ _ I)].
  - intros j Hj Hn. rewrite bf_put, decide_False by set_solver. apply (bi_free _ _ _ I); set_solver.
  - intros j Hj. rewrite bf_put. case_decide; [left; done|by apply (bi_flags _ _ _ I)].
  - intros j k Hj Hk. rewrite !bf_put. destruct (decide (i = j)) as [<-|], (decide (i = k)) as [<-|].
    + done.
    + intros _ Hdk E. by destruct (Hu k Hk ltac:(done) Hdk).
    + intros Hdj _ E. by destruct (Hu j Hj ltac:(done) Hdj).
    + by apply (bi_uniq _ _ _ I).
  - intros j Hj Hn. rewrite bf_put, decide_False by set_solver. apply (bi_clean _ _ _ I); set_solver.
Qed.

End cache.

(** Two states with the same view of every block. *)
Lemma cached_ext s s' H H' lru lru' b :
  binv s H lru → binv s' H' lru' →
  (∀ i, (i < NBUF)%nat → b_dev (bf s' i) = 1 → b_blockno (bf s' i) = b →
        b_dev (bf s i) = 1 ∧ b_blockno (bf s i) = b ∧ b_data (bf s' i) = b_data (bf s i) ∨
        cached s b = None ∧ b_data (bf s' i) = disk_at s b) →
  (cached s' b = None → bview s b = disk_at s' b) →
  bview s' b = bview s b.
Proof.
  intros I I' Hi Hn. unfold bview at 1. destruct (cached s' b) as [i|] eqn:Hc; [|symmetry; by apply Hn].
  destruct (cached_some s' b i Hc) as (Hlt & Hd & Hb).
  unfold bview. destruct (Hi i Hlt Hd Hb) as [(Hd' & Hb' & ->)|[-> ->]]; [|done].
  by destruct (cached_hit s H lru I b i Hlt Hd' Hb') as [-> _].
Qed.

(** ** [bread] *)

(** The caller got block [b] in buffer [i]; nobody sees a difference. *)
Record got (s s' : bstate) (b : Z) (i : nat) : Prop := {
  got_block : b_blockno (bf s' i) = b;
  got_data : b_data (bf s' i) = bview s b;
  got_dirty : b_flags (bf s' i) = 6 ↔ dirty s b;
  got_only : s' = put_buf i (bf s' i) s;
  got_view : ∀ b', bview s' b' = bview s b';
  got_same_dirty : ∀ b', dirty s' b' ↔ dirty s b'
}.

Lemma rb_run {A} i (f : buf → A) s : rb i f s = Ok (f (bf s i), s).
Proof. done. Qed.

(** Both ways of [bget] end by locking the buffer. *)
Lemma acquiresleep_run i s :
  sl_locked (b_lock (bf s i)) = 0 →
  acquiresleep i s = Ok (tt, upd_buf i (set_b_lock (mkSleeplock 1 (me_pid s) (me_tid s))) s).
Proof. intros Hl. unfold acquiresleep, mbind, M_bind. simpl. by rewrite Hl. Qed.

Lemma holdingsleep_run i s :
  b_lock (bf s i) = mkSleeplock 1 (me_pid s) (me_tid s) → holdingsleep i s = Ok (true, s).
Proof.
  intros Hl. unfold holdingsleep, mbind, M_bind. simpl. rewrite Hl. simpl. by rewrite !Z.eqb_refl.
Qed.

(** Reading a buffer that was just assigned to block [b]. *)
Lemma iderw_read_run i s :
  b_lock (bf s i) = mkSleeplock 1 (me_pid s) (me_tid s) → b_flags (bf s i) = 0 → b_dev (bf s i) = 1 →
  b_blockno (bf s i) < disksize s →
  iderw i s = Ok (tt, put_buf i (set_b_flags 2 (set_b_data (disk_at s (b_blockno (bf s i))) (bf s i))) s).
Proof.
  intros Hl Hf Hd Hb. unfold iderw. rewrite (bind_ok _ _ _ _ _ (holdingsleep_run _ _ Hl)). cbn [negb].
  rewrite (bind_ok _ _ _ _ _ (rb_run i b_flags s)), Hf.
  match goal with |- context [Z.eqb (Z.land ?f (Z.lor B_VALID B_DIRTY)) B_VALID] =>
    change (Z.eqb (Z.land f (Z.lor B_VALID B_DIRTY)) B_VALID) with false end. cbv iota.
  rewrite (bind_ok _ _ _ _ _ (rb_run i b_dev s)), Hd. change (Z.eqb 1 1) with true. cbn [negb].
  rewrite (bind_ok _ _ _ _ _ (rb_run i b_blockno s)).
  rewrite (bind_ok _ _ _ (disksize s) s) by done.
  destruct (Z.leb_spec (disksize s) (b_blockno (bf s i))); [lia|].
  change (Z.eqb (Z.land 0 B_DIRTY) 0) with true. cbn [negb].
  set (s1 := put_buf i (set_b_data (disk_at s (b_blockno (bf s i))) (bf s i)) s).
  rewrite (bind_ok _ _ _ tt s1) by done. rewrite (bind_ok _ _ _ _ _ (rb_run i b_flags s1)).
  unfold wb, modify. rewrite upd_buf_put. unfold s1. rewrite put_put_buf, bf_put, decide_True by done.
  simpl b_flags. by rewrite Hf.
Qed.

(** Writing a held buffer through. *)
Lemma iderw_write_run i s :
  b_lock (bf s i) = mkSleeplock 1 (me_pid s) (me_tid s) → b_flags (bf s i) = 6 → b_dev (bf s i) = 1 →
  b_blockno (bf s i) < disksize s →
  iderw i s = Ok (tt, put_disk (b_blockno (bf s i)) (b_data (bf s i)) (put_buf i (set_b_flags 2 (bf s i)) s)).
Proof.
  intros Hl Hf Hd Hb. unfold iderw. rewrite (bind_ok _ _ _ _ _ (holdingsleep_run _ _ Hl)). cbn [negb].
  rewrite (bind_ok _ _ _ _ _ (rb_run i b_flags s)), Hf.
  match goal with |- context [Z.eqb (Z.land ?f (Z.lor B_VALID B_DIRTY)) B_VALID] =>
    change (Z.eqb (Z.land f (Z.lor B_VALID B_DIRTY)) B_VALID) with false end. cbv iota.
  rewrite (bind_ok _ _ _ _ _ (rb_run i b_dev s)), Hd. change (Z.eqb 1 1) with true. cbn [negb].
  rewrite (bind_ok _ _ _ _ _ (rb_run i b_blockno s)).
  rewrite (bind_ok _ _ _ (disksize s) s) by done.
  destruct (Z.leb_spec (disksize s) (b_blockno (bf s i))); [lia|].
  change (Z.eqb (Z.land 6 B_DIRTY) 0) with false. cbn [negb].
  set (s1 := put_disk (b_blockno (bf s i)) (b_data (bf s i)) (put_buf i (set_b_flags 2 (bf s i)) s)).
  assert (bf s1 i = set_b_flags 2 (bf s i)) as Hb1.
  { change (bf s1 i) with (bf (put_buf i (set_b_flags 2 (bf s i)) s) i). by rewrite bf_put, decide_True. }
  rewrite (bind_ok _ _ _ tt s1); cycle 1.
  { unfold wb at 1. rewrite (bind_ok _ _ _ tt (put_buf i (set_b_flags 2 (bf s i)) s)) by done.
    rewrite (bind_ok _ _ _ _ _ (rb_run i b_data _)), bf_put, decide_True by done. done. }
  rewrite (bind_ok _ _ _ _ _ (rb_run i b_flags s1)), Hb1. unfold wb, modify. rewrite upd_buf_put, Hb1.
  do 2 f_equal. unfold s1, put_buf, upd_buf, set_bufs, put_disk; simpl. by rewrite insert_insert_eq.
Qed.

(** A valid cached block is taken as it is. *)
Lemma bread_hit s H lru b i :
  binv s H lru → 0 ≤ b < disksize s → cached s b = Some i → i ∉ H →
  let nb := mkBuf (b_flags (bf s i)) 1 b (mkSleeplock 1 (me_pid s) (me_tid s)) 1 (b_data (bf s i)) in
  bread 1 b s = Ok (i, put_buf i nb s).
Proof.
  intros I Hb Hc HiH nb. destruct (cached_some s b i Hc) as (Hi & Hd & Hbn).
  destruct (bi_free _ _ _ I i Hi HiH) as [Hr Hl].
  assert (bget 1 b s = Ok (i, put_buf i nb s)) as Hg.
  { unfold bget. rewrite (bind_ok _ _ _ (Some i) s); cycle 1.
    { rewrite (scan_next_run s lru (caches s b)); [by rewrite (cached_find s H lru I), Hc|apply I|by eapply bi_lru_len|].
      intros j. done. }
    rewrite (bind_ok _ _ _ _ _ (rb_run _ _ _)), Hr. unfold wb at 1.
    rewrite (bind_ok _ _ _ tt (upd_buf i (set_b_refcnt (0 + 1)) s)) by done.
    rewrite (bind_ok _ _ _ tt (put_buf i nb s)); [done|].
    rewrite acquiresleep_run by by rewrite bf_upd, decide_True.
    do 2 f_equal. rewrite !upd_buf_put, put_put_buf, bf_put, decide_True by done. f_equal.
    unfold nb. destruct (bf s i). simpl in *. by subst. }
  unfold bread. rewrite (bind_ok _ _ _ _ _ Hg). rewrite (bind_ok _ _ _ _ _ (rb_run _ _ _)), bf_put, decide_True by done.
  destruct (bi_flags _ _ _ I i Hi) as [(_ & Hfl & _)|[? _]]; [|congruence].
  simpl b_flags. destruct Hfl as [-> | ->]; done.
Qed.

(** Otherwise a free clean buffer is recycled and filled from the disk. *)
Lemma bread_miss s H lru b :
  binv s H lru → 0 ≤ b < disksize s → cached s b = None →
  (∃ i, (i < NBUF)%nat ∧ i ∉ H ∧ b_flags (bf s i) ≠ 6) →
  ∃ i, (i < NBUF)%nat ∧ i ∉ H ∧ b_flags (bf s i) ≠ 6 ∧
    bread 1 b s = Ok (i, put_buf i (mkBuf 2 1 b (mkSleeplock 1 (me_pid s) (me_tid s)) 1 (disk_at s b)) s).
Proof.
  intros I Hb Hc (k & Hk & HkH & Hkf).
  set (f := λ i, Z.eqb (b_refcnt (bf s i)) 0 && Z.eqb (Z.land (b_flags (bf s i)) B_DIRTY) 0).
  assert (∀ i, (i < NBUF)%nat → f i = true ↔ i ∉ H ∧ b_flags (bf s i) ≠ 6) as Hff.
  { intros i Hi. unfold f. destruct (decide (i ∈ H)) as [HiH|HiH].
    - destruct (bi_held _ _ _ I i HiH) as [-> _]. split; [done|tauto].
    - destruct (bi_free _ _ _ I i Hi HiH) as [-> _]. simpl.
      destruct (bi_flags _ _ _ I i Hi) as [(_ & [-> | ->] & _)|[_ ->]]; simpl; split; try done; tauto. }
  destruct (find f (reverse lru)) as [i|] eqn:Hf; cycle 1.
  { eapply List.find_none in Hf; [|apply list_elem_of_In, elem_of_reverse, (bi_lru_lt s H lru I); exact Hk].
    assert (f k = true) by by apply Hff. congruence. }
  apply List.find_some in Hf as Hf'. destruct Hf' as [Hin Hfi].
  apply list_elem_of_In, elem_of_reverse, (bi_lru_lt s H lru I) in Hin.
  apply Hff in Hfi as [HiH Hfl]; [|done]. exists i. split_and!; [done..|].
  destruct (bi_free _ _ _ I i Hin HiH) as [Hr Hl].
  set (s1 := put_buf i (mkBuf 0 1 b (mkSleeplock 1 (me_pid s) (me_tid s)) 1 (b_data (bf s i))) s).
  assert (bget 1 b s = Ok (i, s1)) as Hg.
  { unfold bget. rewrite (bind_ok _ _ _ None s); cycle 1.
    { rewrite (scan_next_run s lru (caches s b)); [by rewrite (cached_find s H lru I), Hc|apply I|by eapply bi_lru_len|done]. }
    rewrite (bind_ok _ _ _ (Some i) s); cycle 1.
    { rewrite (scan_prev_run s lru f); [by rewrite Hf|apply I|by eapply bi_lru_len|done]. }
    unfold wb. rewrite (bind_ok _ _ _ tt (upd_buf i (λ b0, mkBuf 0 1 b (b_lock b0) 1 (b_data b0)) s)) by done.
    rewrite (bind_ok _ _ _ tt s1); [done|]. rewrite acquiresleep_run by by rewrite bf_upd, decide_True.
    do 2 f_equal. by rewrite !upd_buf_put, put_put_buf, bf_put, decide_True. }
  unfold bread. rewrite (bind_ok _ _ _ _ _ Hg). rewrite (bind_ok _ _ _ _ _ (rb_run _ _ _)).
  assert (bf s1 i = mkBuf 0 1 b (mkSleeplock 1 (me_pid s) (me_tid s)) 1 (b_data (bf s i))) as Hb1
    by (unfold s1; by rewrite bf_put, decide_True).
  rewrite Hb1. simpl Z.eqb. cbn match. rewrite (bind_ok _ _ _ _ _ (iderw_read_run i s1
    ltac:(by rewrite Hb1) ltac:(by rewrite Hb1) ltac:(by rewrite Hb1) ltac:(rewrite Hb1; simpl; lia))).
  rewrite Hb1. unfold s1. by rewrite put_put_buf.
Qed.

Lemma bread_spec s H lru b :
  binv s H lru → 0 ≤ b < disksize s → (∀ i, i ∈ H → b_blockno (bf s i) ≠ b) →
  (is_Some (cached s b) ∨ ∃ i, (i < NBUF)%nat ∧ i ∉ H ∧ b_flags (bf s i) ≠ 6) →
  wp (bread 1 b) (λ i s', (i < NBUF)%nat ∧ i ∉ H ∧ binv s' (i :: H) lru ∧ got s s' b i) s.
Proof.
  intros I Hb HH Hroom. destruct (cached s b) as [i|] eqn:Hc.
  - destruct (cached_some s b i Hc) as (Hi & Hd & Hbn).
    assert (i ∉ H) as HiH by (intros ?; by eapply HH).
    eapply wp_eq; [by apply (bread_hit s H lru b i)|]. cbv zeta. set (nb := mkBuf _ _ _ _ _ _).
    destruct (bi_flags _ _ _ I i Hi) as [(_ & Hfl & Hr)|[? _]]; [|congruence].
    assert (binv (put_buf i nb s) (i :: H) lru) as I'.
    { apply binv_hold; try done. intros j Hj Hne Hdj Hbj. apply Hne. by apply (bi_uniq _ _ _ I); [..|simpl in *; congruence]. }
    split_and!; [done|done|done|]. split.
    + by rewrite bf_put, decide_True.
    + rewrite bf_put, decide_True by done. unfold bview. by rewrite Hc.
    + rewrite bf_put, decide_True by done. simpl. split.
      * intros Hf6. by exists i.
      * intros (j & Hj & Hdj & Hbj & Hfj). assert (j = i) as <-; [|done]. apply (bi_uniq _ _ _ I); congruence.
    + by rewrite bf_put, decide_True.
    + intros b'. eapply cached_ext; [done|done| |].
      * intros j Hj. rewrite bf_put. case_decide as Hij; [rewrite <-Hij; intros; left; simpl in *; split_and!; congruence|]. by left.
      * intros Hn. unfold bview. destruct (cached s b') as [k|] eqn:Hk; [|done]. exfalso.
        destruct (cached_some s b' k Hk) as (Hk1 & Hk2 & Hk3).
        destruct (cached_hit _ _ _ I' b' k Hk1) as [? _]; [..|congruence].
        all: rewrite bf_put; case_decide; subst; simpl; congruence.
    + intros b'. unfold dirty. split; intros (j & Hj & Hrest); exists j; (split; [done|]); revert Hrest;
        rewrite bf_put; case_decide; subst; simpl; intuition congruence.
  - destruct Hroom as [[? ?]|Hroom]; [done|].
    destruct (bread_miss s H lru b I Hb Hc Hroom) as (i & Hi & HiH & Hfl & Hrun).
    eapply wp_eq; [exact Hrun|]. set (nb := mkBuf _ _ _ _ _ _).
    assert (binv (put_buf i nb s) (i :: H) lru) as I'.
    { apply binv_hold; try done; [by left|]. intros j Hj Hne Hdj. by eapply cached_miss. }
    split_and!; [done|done|done|]. split.
    + by rewrite bf_put, decide_True.
    + rewrite bf_put, decide_True by done. unfold bview. by rewrite Hc.
    + rewrite bf_put, decide_True by done. simpl. split; [done|].
      intros (j & Hj & Hdj & Hbj & Hfj). exfalso. by eapply cached_miss in Hbj.
    + by rewrite bf_put, decide_True.
    + intros b'. eapply cached_ext; [done|done| |].
      * intros j Hj. rewrite bf_put. case_decide; [|by left]. simpl. intros _ <-. by right.
      * intros Hn. unfold bview. destruct (cached s b') as [k|] eqn:Hk; [|done].
        destruct (cached_some s b' k Hk) as (Hk1 & Hk2 & Hk3).
        destruct (decide (k = i)) as [->|Hne].
        -- destruct (bi_flags _ _ _ I i Hi) as [(_ & [?|?] & _)|[? _]]; [|done|congruence].
           rewrite (bi_clean _ _ _ I i Hi HiH Hk2) by done. by rewrite Hk3.
        -- exfalso. destruct (cached_hit _ _ _ I' b' k Hk1) as [? _]; [..|congruence].
           all: by rewrite bf_put, decide_False by congruence.
    + intros b'. unfold dirty. split; intros (j & Hj & Hrest); exists j; (split; [done|]); revert Hrest;
        rewrite bf_put; case_decide; subst; simpl; intuition congruence.
Qed.

(** ** [brelse] *)

(** The memory after [e] was linked in before [f], the first of the ring. *)
Definition front_mem (e f : bnode) (h : gmap bnode (list_head bnode)) : gmap bnode (list_head bnode) :=
  set_nxt BHead (Some e) (set_prv f (Some e) (set_prv e (Some BHead) (set_nxt e (Some f) h))).

Lemma front_dlist h e l :
  dlist h BHead l → e ∉ BHead :: l →
  ∃ f, nxt h BHead = Some f ∧ f ≠ e ∧ dlist (front_mem e f h) BHead (e :: l).
Proof.
  intros Hd He. apply not_elem_of_cons in He as [HeH He]. destruct (ring_split_first BHead l) as (f & w & Ef).
  assert (f ∈ BHead :: l) as Hf.
  { assert (f ∈ l ++ [BHead]) by (rewrite Ef; set_solver). set_solver. }
  assert (f ≠ e) by (intros ->; set_solver). exists f. split; [by eapply dlist_first|]. split; [done|].
  destruct (dlist_insert h BHead l (e :: l) e [] BHead f w) as [Hins _].
  - simpl. by rewrite Ef.
  - simpl. by rewrite <-Ef.
  - destruct Hd as [[? ?]%NoDup_cons _]. apply NoDup_cons. split; [set_solver|]. by apply NoDup_cons.
  - set_solver.
  - done.
  - eapply (dlist_frame _ _ _ _ []); [|intros ? _; apply not_elem_of_nil|exact Hins].
    intros x _. apply lh_eq; unfold ins_mem, front_mem;
      repeat rewrite ?nxt_set_nxt, ?nxt_set_prv, ?prv_set_nxt, ?prv_set_prv; repeat case_decide; congruence.
Qed.

Lemma move_to_front_run h i f :
  nxt h BHead = Some f → move_to_front i h = Ok (tt, front_mem (BBuf i) f h).
Proof.
  intros Hf. unfold move_to_front, ld_next, st_next, st_prev, mbind, M_bind, modify, gets.
  cbn [deref mret M_ret]. rewrite Hf. cbn [deref mret M_ret]. rewrite nxt_set_prv, nxt_set_nxt, decide_False by done.
  rewrite Hf. done.
Qed.

Lemma to_front_spec h i l1 l2 :
  dlist h BHead (l1 ++ BBuf i :: l2) →
  wp (to_front i) (λ _ h', dlist h' BHead (BBuf i :: l1 ++ l2)) h.
Proof.
  intros Hd. set (e := BBuf i) in *. assert (e ≠ BHead) as HeH by done.
  destruct (ring_around BHead e l1 l2) as (t & p & n & u & E1 & E2 & E3 & E4).
  pose proof Hd as [Hnd Hl]. pose proof Hnd as [_ Hnd']%NoDup_cons.
  assert (e ∉ BHead :: l1 ++ l2) as He.
  { apply NoDup_mid_notin in Hnd' as [? ?]. rewrite elem_of_cons, elem_of_app. naive_solver. }
  rewrite E3 in Hl. pose proof Hl as Hlk.
  apply linked_app in Hlk as [_ [[Hpe Hep] [[Hen Hne] _]]].
  assert (p ∈ BHead :: l1 ++ l2 ∧ n ∈ BHead :: l1 ++ l2) as [Hp Hn].
  { assert (p ∈ BHead :: l1) by (rewrite E1; set_solver). assert (n ∈ l2 ++ [BHead]) by (rewrite E2; set_solver).
    set_solver. }
  assert (p ≠ e ∧ n ≠ e) as [Hpn Hnn] by (split; intros ->; done).
  (* the ring without [e] *)
  set (h1 := set_nxt p (Some n) (set_prv n (Some p) h)).
  assert (dlist h1 BHead (l1 ++ l2)) as Hd1.
  { assert (NoDup (BHead :: l1 ++ l2)) as Hnd2 by (rewrite app_comm_cons in *; by eapply NoDup_delete_mid).
    destruct (ring_NoDup BHead (l1 ++ l2) Hnd2) as [Hn1 Hn2].
    eapply (dlist_frame (del_mem p n e h) _ _ _ [e]).
    - intros x Hx. apply lh_eq; unfold h1, del_mem;
        repeat rewrite ?nxt_set_nxt, ?nxt_set_prv, ?prv_set_nxt, ?prv_set_prv; repeat case_decide; set_solver.
    - intros x Hx Hx'. set_solver.
    - split; [done|]. rewrite E4 in *. apply linked_delete; [done..|].
      rewrite <-E4. rewrite elem_of_cons, elem_of_app in *. set_solver. }
  destruct (front_dlist h1 e (l1 ++ l2) Hd1 He) as (f & Hf & Hfe & Hins).
  assert (to_front i h = Ok (tt, front_mem e f h1)) as Hrun; [|by eapply wp_eq; [exact Hrun|]].
  assert (prv (set_prv n (Some p) h) e = Some p ∧ nxt (set_prv n (Some p) h) e = Some n) as [Hq1 Hq2].
  { rewrite prv_set_prv, nxt_set_prv, decide_False by done. done. }
  unfold to_front. fold e.
  rewrite (bind_ok _ _ _ (Some n) h) by (unfold ld_next, mbind, M_bind, gets; simpl; by rewrite Hen).
  rewrite (bind_ok _ _ _ (Some p) h) by (unfold ld_prev, mbind, M_bind, gets; simpl; by rewrite Hep).
  rewrite (bind_ok _ _ _ tt (set_prv n (Some p) h)) by done.
  rewrite (bind_ok _ _ _ (Some p) (set_prv n (Some p) h)) by (unfold ld_prev, mbind, M_bind, gets; simpl; by rewrite Hq1).
  rewrite (bind_ok _ _ _ (Some n) (set_prv n (Some p) h)) by (unfold ld_next, mbind, M_bind, gets; simpl; by rewrite Hq2).
  rewrite (bind_ok _ _ _ tt h1) by done. by apply move_to_front_run.
Qed.

(** Giving back a held buffer whose content is on the disk or pinned. *)
Lemma brelse_spec s H1 i H2 lru :
  binv s (H1 ++ i :: H2) lru →
  (b_flags (bf s i) = 6 ∨ b_data (bf s i) = disk_at s (b_blockno (bf s i))) →
  wp (brelse i) (λ _ s', ∃ lru', binv s' (H1 ++ H2) lru' ∧
    disk s' = disk s ∧ dtrace s' = dtrace s ∧ disksize s' = disksize s ∧
    (∀ j, bf s' j = if decide (i = j) then set_b_refcnt 0 (set_b_lock (mkSleeplock 0 0 (me_tid s)) (bf s i)) else bf s j) ∧
    (∀ b, bview s' b = bview s b) ∧ (∀ b, dirty s' b ↔ dirty s b)) s.
Proof.
  intros I Hcl. set (H := H1 ++ i :: H2) in *. assert (i ∈ H) as HiH by (unfold H; set_solver).
  destruct (bi_held _ _ _ I i HiH) as [Hr Hl]. destruct (bi_H _ _ _ I) as [Hnd HH].
  destruct (HH i HiH) as [Hi Hd]. unfold brelse. apply wp_bind.
  eapply wp_eq; [by apply holdingsleep_run|]. cbn [negb]. unfold releasesleep, wb. wsteps.
  apply wp_gets. wsteps. set (s1 := upd_buf i _ s).
  assert (bf s1 i = set_b_lock (mkSleeplock 0 0 (me_tid s)) (bf s i)) as Hb1.
  { unfold s1. rewrite bf_upd, decide_True by done. by rewrite Hl. }
  apply wp_gets. apply wp_bind, wp_modify. rewrite Hb1. simpl b_refcnt. rewrite Hr. change (1 - 1) with 0. simpl when.
  set (s2 := upd_buf i (set_b_refcnt 0) s1).
  assert (∀ j, bf s2 j = if decide (i = j) then set_b_refcnt 0 (set_b_lock (mkSleeplock 0 0 (me_tid s)) (bf s i)) else bf s j) as Hb2.
  { intros j. unfold s2. rewrite bf_upd, Hb1. case_decide; [done|]. unfold s1. by rewrite bf_upd, decide_False. }
  assert (i ∈ lru) as Hil by by apply (bi_lru_lt s H lru I).
  destruct (list_elem_of_split _ _ Hil) as (l1 & l2 & Hlru).
  pose proof (bi_ring _ _ _ I) as Hring. rewrite Hlru, fmap_app, fmap_cons in Hring.
  apply wp_zoom. wcall (to_front_spec (blinks s2)); [exact Hring|]. intros [] h Hd'.
  assert (∀ j, bf (set_blinks h s2) j = bf s2 j) as Hb3 by done.
  assert (∀ j, b_dev (bf s2 j) = b_dev (bf s j) ∧ b_blockno (bf s2 j) = b_blockno (bf s j) ∧
    b_flags (bf s2 j) = b_flags (bf s j) ∧ b_data (bf s2 j) = b_data (bf s j)) as Hsame.
  { intros j. rewrite Hb2. by case_decide; subst. }
  apply NoDup_mid_notin in Hnd as Hni.
  assert (binv (set_blinks h s2) (H1 ++ H2) (i :: l1 ++ l2)) as I'.
  { split.
    - rewrite fmap_cons, fmap_app. done.
    - rewrite <-(bi_perm _ _ _ I), Hlru. apply Permutation_middle.
    - split; [by eapply NoDup_delete_mid|]. intros j Hj. rewrite Hb3. destruct (Hsame j) as (-> & _).
      apply HH. unfold H. set_solver.
    - intros j Hj. rewrite Hb3, Hb2, decide_False by (intros <-; set_solver).
      apply (bi_held _ _ _ I). unfold H. set_solver.
    - intros j Hj Hn. rewrite Hb3, Hb2. case_decide; [done|]. apply (bi_free _ _ _ I j Hj). unfold H. set_solver.
    - intros j Hj. rewrite Hb3. destruct (Hsame j) as (-> & -> & -> & _). by apply (bi_flags _ _ _ I).
    - intros j k Hj Hk. rewrite !Hb3. destruct (Hsame j) as (-> & -> & _), (Hsame k) as (-> & -> & _).
      by apply (bi_uniq _ _ _ I).
    - intros j Hj Hn. rewrite Hb3. destruct (Hsame j) as (-> & -> & -> & ->). intros Hdj Hfj.
      destruct (decide (i = j)) as [<-|Hne]; [destruct Hcl; [congruence|done]|].
      apply (bi_clean _ _ _ I j Hj); [unfold H; set_solver|done..]. }
  exists (i :: l1 ++ l2). split_and!; try done.
  - intros b. eapply cached_ext; [exact I|exact I'| |].
    + intros j Hj. rewrite Hb3. destruct (Hsame j) as (-> & -> & _ & ->). by left.
    + intros Hn. unfold bview. destruct (cached s b) as [k|] eqn:Hk; [|done]. exfalso.
      destruct (cached_some s b k Hk) as (Hk1 & Hk2 & Hk3). destruct (Hsame k) as (E1 & E2 & _).
      destruct (cached_hit _ _ _ I' b k Hk1) as [Hhit _].
      * rewrite Hb3. congruence.
      * rewrite Hb3. congruence.
      * rewrite Hn in Hhit. done.
  - intros b. unfold dirty. setoid_rewrite Hb3. split; intros (j & Hj & Hx); exists j; (split; [done|]);
      destruct (Hsame j) as (E1 & E2 & E3 & _); rewrite ?E1, ?E2, ?E3 in *; done.
Qed.

(** ** Changing and writing a held buffer *)

Lemma bview_held s H lru i b :
  binv s H lru → i ∈ H → b_blockno (bf s i) = b → bview s b = b_data (bf s i).
Proof.
  intros I Hi Hb. destruct (bi_H _ _ _ I) as [_ HH]. destruct (HH i Hi) as [Hlt Hd].
  unfold bview. by destruct (cached_hit s H lru I b i Hlt Hd Hb) as [-> _].
Qed.

(** A held buffer with other contents or flags. *)
Lemma binv_put_held s H lru i nb :
  binv s H lru → i ∈ H → b_dev nb = 1 → b_blockno nb = b_blockno (bf s i) →
  b_lock nb = b_lock (bf s i) → b_refcnt nb = b_refcnt (bf s i) → (b_flags nb = 2 ∨ b_flags nb = 6) →
  binv (put_buf i nb s) H lru ∧
  (∀ b, b ≠ b_blockno (bf s i) → bview (put_buf i nb s) b = bview s b) ∧
  bview (put_buf i nb s) (b_blockno (bf s i)) = b_data nb.
Proof.
  intros I HiH Hd Hb Hl Hr Hf. destruct (bi_H _ _ _ I) as [Hnd HH]. destruct (HH i HiH) as [Hi Hd0].
  destruct (bi_held _ _ _ I i HiH) as [Hr0 Hl0].
  assert (∀ j, b_dev (bf (put_buf i nb s) j) = b_dev (bf s j) ∧ b_blockno (bf (put_buf i nb s) j) = b_blockno (bf s j)
    ∧ b_lock (bf (put_buf i nb s) j) = b_lock (bf s j) ∧ b_refcnt (bf (put_buf i nb s) j) = b_refcnt (bf s j)) as Hsame.
  { intros j. rewrite bf_put. case_decide; subst; split_and!; congruence. }
  assert (binv (put_buf i nb s) H lru) as I'.
  { split.
    - apply I.
    - apply I.
    - split; [done|]. intros j Hj. destruct (Hsame j) as (-> & _). by apply HH.
    - intros j Hj. destruct (Hsame j) as (_ & _ & -> & ->). by apply (bi_held _ _ _ I).
    - intros j Hj Hn. destruct (Hsame j) as (_ & _ & -> & ->). by apply (bi_free _ _ _ I).
    - intros j Hj. destruct (Hsame j) as (-> & -> & _).
      destruct (bi_flags _ _ _ I j Hj) as [(? & ? & ?)|[? ?]].
      + left. split; [done|]. split; [rewrite bf_put; by case_decide|done].
      + right. split; [done|]. rewrite bf_put. case_decide; [subst; congruence|done].
    - intros j k Hj Hk. destruct (Hsame j) as (-> & -> & _), (Hsame k) as (-> & -> & _). by apply (bi_uniq _ _ _ I).
    - intros j Hj Hn. rewrite bf_put, decide_False by (intros <-; done). by apply (bi_clean _ _ _ I). }
  split_and!; [done| |].
  - intros b Hne. eapply cached_ext; [exact I|exact I'| |].
    + intros j Hj. destruct (Hsame j) as (-> & -> & _). rewrite bf_put.
      case_decide; [subst; done|]. by left.
    + intros Hn. unfold bview. destruct (cached s b) as [k|] eqn:Hk; [|done]. exfalso.
      destruct (cached_some s b k Hk) as (Hk1 & Hk2 & Hk3). destruct (Hsame k) as (E1 & E2 & _).
      destruct (cached_hit _ _ _ I' b k Hk1) as [? _]; congruence.
  - rewrite (bview_held _ H lru i) by (try done; by destruct (Hsame i) as (_ & -> & _)).
    by rewrite bf_put, decide_True.
Qed.

(** [bwrite] sends the buffer to the disk. *)
Lemma bwrite_spec s H lru i :
  binv s H lru → i ∈ H →
  bwrite i s = Ok (tt, put_disk (b_blockno (bf s i)) (b_data (bf s i)) (put_buf i (set_b_flags 2 (bf s i)) s)).
Proof.
  intros I HiH. destruct (bi_H _ _ _ I) as [Hnd HH]. destruct (HH i HiH) as [Hi Hd0].
  destruct (bi_held _ _ _ I i HiH) as [Hr0 Hl0].
  destruct (bi_flags _ _ _ I i Hi) as [(_ & Hfl & Hb)|[? _]]; [|congruence].
  unfold bwrite. rewrite (bind_ok _ _ _ _ _ (holdingsleep_run _ _ Hl0)). cbn [negb].
  rewrite (bind_ok _ _ _ _ _ (rb_run i b_flags s)). unfold wb.
  assert (Z.lor (b_flags (bf s i)) B_DIRTY = 6) as -> by (destruct Hfl as [-> | ->]; done).
  rewrite (bind_ok _ _ _ tt (put_buf i (set_b_flags 6 (bf s i)) s)) by done.
  rewrite iderw_write_run; rewrite ?bf_put, ?decide_True by done; simpl; [|done|done|done|lia].
  by rewrite put_put_buf.
Qed.

Lemma disk_at_put b v s b' : disk_at (put_disk b v s) b' = if decide (b = b') then v else disk_at s b'.
Proof.
  unfold disk_at; simpl. case_decide as Hd; [subst; by rewrite lookup_insert_eq|by rewrite lookup_insert_ne].
Qed.

(** Writing a block to the disk keeps the invariant when its buffer is held. *)
Lemma binv_put_disk s H lru i v :
  binv s H lru → i ∈ H → binv (put_disk (b_blockno (bf s i)) v s) H lru.
Proof.
  intros I HiH. destruct (bi_H _ _ _ I) as [Hnd HH]. destruct (HH i HiH) as [Hi Hd0].
  destruct I as [I1 I2 I3 I4 I5 I6 I7 I8]. split; try done.
  intros j Hj Hn Hdj Hfj. change (bf (put_disk _ v s) j) with (bf s j) in *. rewrite disk_at_put, decide_False; [by apply I8|].
  intros E. apply Hn. by rewrite <-(I7 i j Hi Hj Hd0 Hdj E).
Qed.

(** ** Copying one block over another *)

Lemma clean_view s H lru b :
  binv s H lru → ¬ dirty s b → (∀ i, i ∈ H → b_blockno (bf s i) ≠ b) → bview s b = disk_at s b.
Proof.
  intros I Hd HH. unfold bview. destruct (cached s b) as [i|] eqn:Hc; [|done].
  destruct (cached_some s b i Hc) as (Hi & Hdev & Hb).
  rewrite (bi_clean _ _ _ I i Hi); [by rewrite Hb|by intros ?%HH|done|].
  destruct (bi_flags _ _ _ I i Hi) as [(_ & [?|?] & _)|[? _]]; [done| |congruence].
  destruct Hd. by exists i.
Qed.

(** The state after [b->data] was set to [d] and the buffer written. *)
Definition overwritten (t : nat) (d : block) (s : bstate) : bstate :=
  put_disk (b_blockno (bf s t)) d (put_buf t (set_b_flags 2 (set_b_data d (bf s t))) s).

Lemma bf_overwritten t d s j :
  bf (overwritten t d s) j = if decide (t = j) then set_b_flags 2 (set_b_data d (bf s t)) else bf s j.
Proof. exact (bf_put t _ s j). Qed.

Lemma overwrite_run s H lru t d :
  binv s H lru → t ∈ H →
  (wb t (set_b_data d);; bwrite t) s = Ok (tt, overwritten t d s) ∧
  binv (overwritten t d s) H lru ∧
  (∀ b, bview (overwritten t d s) b = if decide (b = b_blockno (bf s t)) then d else bview s b) ∧
  (∀ b, dirty (overwritten t d s) b ↔ dirty s b ∧ b ≠ b_blockno (bf s t)).
Proof.
  intros I HtH. destruct (bi_H _ _ _ I) as [Hnd HH]. destruct (HH t HtH) as [Ht Hd0].
  destruct (bi_flags _ _ _ I t Ht) as [(_ & Hfl & Hb)|[? _]]; [|congruence].
  set (nb := set_b_data d (bf s t)).
  destruct (binv_put_held s H lru t nb I HtH) as (I1 & Hv1 & Hv2); [done..|].
  assert (bf (put_buf t nb s) t = nb) as Hbt by (by rewrite bf_put, decide_True).
  destruct (binv_put_held s H lru t (set_b_flags 2 nb) I HtH) as (I2 & Hw1 & Hw2); try done; [by left|].
  assert (binv (overwritten t d s) H lru) as I3.
  { pose proof (binv_put_disk _ H lru t d I2 HtH) as I3. by rewrite bf_put, decide_True in I3. }
  split_and!.
  - rewrite (bind_ok _ _ _ tt (put_buf t nb s)) by done.
    rewrite (bwrite_spec _ H lru t I1 HtH), Hbt. unfold overwritten, nb. by rewrite put_put_buf.
  - done.
  - intros b. case_decide as E.
    + subst b. rewrite (bview_held _ H lru t); [|done|done|by rewrite bf_overwritten, decide_True].
      by rewrite bf_overwritten, decide_True.
    + rewrite <-(Hw1 b E). unfold bview.
      change (cached (overwritten t d s) b) with (cached (put_buf t (set_b_flags 2 nb) s) b).
      destruct (cached _ b); [done|]. unfold overwritten. rewrite disk_at_put, decide_False by done. done.
  - intros b. unfold dirty. setoid_rewrite bf_overwritten. split.
    + intros (j & Hj & Hx). case_decide; [subst; simpl in Hx; intuition congruence|]. split; [by exists j|].
      intros ->. destruct Hx as (Hdj & Hbj & _). by destruct (bi_uniq _ _ _ I t j Ht Hj Hd0 Hdj).
    + intros [(j & Hj & Hx) Hne]. exists j. split; [done|]. rewrite decide_False; [done|]. intros <-. intuition.
Qed.

(** ** [binit] *)

(** The zeroed buffers [binit] starts from. *)
Definition boot_bufs (s : bstate) : Prop := ∀ i, (i < NBUF)%nat → bf s i = buf0.

Lemma binit_spec s :
  boot_bufs s →
  wp binit (λ _ s', binv s' [] (reverse (seq 0 NBUF)) ∧ boot_bufs s' ∧
    disk s' = disk s ∧ dtrace s' = dtrace s ∧ disksize s' = disksize s) s.
Proof.
  intros Hb. unfold binit. apply wp_bind, wp_zoom, wp_modify, wp_bind, wp_zoom, wp_modify.
  eapply wp_mono; [apply (wp_for_seq (λ k s', dlist (blinks s') BHead (BBuf <$> reverse (seq 0 k)) ∧
    boot_bufs s' ∧ disk s' = disk s ∧ dtrace s' = dtrace s ∧ disksize s' = disksize s))|].
  - split_and!; try done. split; [repeat constructor; set_solver|]. simpl. split; [|done].
    split; simpl; rewrite ?nxt_set_nxt, ?prv_set_nxt, ?prv_set_prv, ?decide_True by done; done.
  - intros k s' Hk (Hd & Hbf & D & T & Z). rewrite seq_S, reverse_snoc, fmap_cons. simpl.
    destruct (front_dlist _ (BBuf k) _ Hd) as (f & Hf & Hfe & Hd').
    { rewrite not_elem_of_cons. split; [done|]. intros (j & [= <-] & Hj%elem_of_reverse%elem_of_seq)%list_elem_of_fmap. lia. }
    apply wp_bind. eapply wp_eq; [apply on_blinks_ld_next|]. rewrite Hf.
    apply wp_bind, wp_zoom, wp_modify, wp_bind, wp_zoom, wp_modify. apply wp_bind, wp_modify, wp_bind.
    set (s1 := upd_buf k _ _). assert (nxt (blinks s1) BHead = Some f) as Hf1.
    { unfold s1. simpl. rewrite nxt_set_prv, nxt_set_nxt, decide_False by done. done. }
    eapply wp_eq; [apply on_blinks_ld_next|]. rewrite Hf1.
    apply wp_bind, wp_zoom, wp_modify, wp_zoom, wp_modify. split_and!; try done.
    intros i Hi. change (bf s1 i = buf0). unfold s1. rewrite bf_upd.
    assert (∀ h h' j, bf (set_blinks h (set_blinks h' s')) j = bf s' j) as Hbl by done.
    rewrite !Hbl. case_decide; [subst|]; rewrite Hbf by done; done.
  - intros [] s' (Hd & Hbf & D & T & Z). split; [|done]. split; try done.
    + apply reverse_Permutation.
    + split; [constructor|set_solver].
    + set_solver.
    + intros i Hi _. by rewrite (Hbf i Hi).
    + intros i Hi. rewrite (Hbf i Hi). by right.
    + intros i j Hi Hj. by rewrite (Hbf i Hi).
    + intros i Hi _. by rewrite (Hbf i Hi).
Qed.

Close Scope Z_scope.
