(* ===== verification/Log.v ===== *)
(** * The write-ahead log ([src/xv6-public/log.c])

    Transactions, commit and recovery on top of the buffer cache.  The
    sections under [log.lock] are single steps and [wakeup(&log)] does not
    touch this state; [begin_op] is one round of its waiting loop. *)

From S2P Require Import Prelude.
From S2P Require Import ListH.
From S2P Require Import Words.
From S2P Require Import Bio.

Open Scope Z_scope.

Definition LOGSIZE : nat := 30.
Definition MAXOPBLOCKS : Z := 10.

(** [struct log] with its [struct logheader]. *)
Record logst := mkLog {
  l_start : Z;
  l_size : Z;
  l_outstanding : Z;
  l_committing : Z;
  l_dev : Z;
  l_n : Z;           (* lh.n *)
  l_block : list Z   (* lh.block[LOGSIZE] *)
}.

Definition set_l_outstanding (v : Z) (l : logst) : logst :=
  mkLog (l_start l) (l_size l) v (l_committing l) (l_dev l) (l_n l) (l_block l).
Definition set_l_committing (v : Z) (l : logst) : logst :=
  mkLog (l_start l) (l_size l) (l_outstanding l) v (l_dev l) (l_n l) (l_block l).
Definition set_l_n (v : Z) (l : logst) : logst :=
  mkLog (l_start l) (l_size l) (l_outstanding l) (l_committing l) (l_dev l) v (l_block l).
Definition set_l_block (v : list Z) (l : logst) : logst :=
  mkLog (l_start l) (l_size l) (l_outstanding l) (l_committing l) (l_dev l) (l_n l) v.

Record lstate := mkL { bs : bstate; lg : logst }.
Definition set_bs (b : bstate) (s : lstate) : lstate := mkL b (lg s).
Definition set_lg (l : logst) (s : lstate) : lstate := mkL (bs s) l.
Definition upd_lg (f : logst → logst) (s : lstate) : lstate := set_lg (f (lg s)) s.

Abbreviation LM := (M lstate).

Definition on_b {A} : BM A → LM A := zoom bs set_bs.

(** [log.lh.block[i]]. *)
Definition ld_block (i : nat) : LM Z :=
  l ← gets lg;
  match l_block l !! i with Some v => mret v | None => fail OutOfBounds end.
Definition st_block (i : nat) (v : Z) : LM unit :=
  l ← gets lg;
  if (i <? length (l_block l))%nat then modify (upd_lg (λ l, set_l_block (<[i := v]> (l_block l)) l))
  else fail OutOfBounds.

(** [hb->n] and [hb->block[i]] in the bytes of the header block. *)
Definition HN : nat := 0.
Definition HB (i : nat) : nat := 4 + 4 * i.

(** The body of [install_trans]'s loop. *)
Definition install_one (tail : nat) : LM unit :=
  l ← gets lg;
  lbuf ← on_b (bread (l_dev l) (l_start l + Z.of_nat tail + 1));
  blk ← ld_block tail;
  dbuf ← on_b (bread (l_dev l) blk);
  d ← on_b (rb lbuf b_data);
  on_b (wb dbuf (set_b_data d));;
  on_b (bwrite dbuf);;
  on_b (brelse lbuf);;
  on_b (brelse dbuf).

Definition install_trans : LM unit :=
  n ← gets (λ s, l_n (lg s));
  for_each (seq 0 (Z.to_nat n)) install_one.

Definition read_head : LM unit :=
  l ← gets lg;
  buf ← on_b (bread (l_dev l) (l_start l));
  d ← on_b (rb buf b_data);
  modify (upd_lg (set_l_n (s32 (ld32 d HN))));;
  n ← gets (λ s, l_n (lg s));
  for_each (seq 0 (Z.to_nat n)) (λ i, st_block i (s32 (ld32 d (HB i))));;
  on_b (brelse buf).

Definition write_head : LM unit :=
  l ← gets lg;
  buf ← on_b (bread (l_dev l) (l_start l));
  on_b (wb buf (λ b, set_b_data (st32 (b_data b) HN (l_n l)) b));;
  for_each (seq 0 (Z.to_nat (l_n l))) (λ i,
    v ← ld_block i;
    on_b (wb buf (λ b, set_b_data (st32 (b_data b) (HB i) v) b)));;
  on_b (bwrite buf);;
  on_b (brelse buf).

Definition recover_from_log : LM unit :=
  read_head;;
  install_trans;;
  modify (upd_lg (set_l_n 0));;
  write_head.

(** [initlog], given the two fields of the superblock it reads. *)
Definition initlog (dev logstart nlog : Z) : LM unit :=
  modify (upd_lg (λ l, mkLog logstart nlog (l_outstanding l) (l_committing l) dev (l_n l) (l_block l)));;
  recover_from_log.

(** One round of [begin_op]'s loop: [true] when the operation may start,
    [false] when it has to sleep. *)
Definition begin_op : LM bool :=
  l ← gets lg;
  if negb (Z.eqb (l_committing l) 0) then mret false
  else if Z.ltb (Z.of_nat LOGSIZE) (l_n l + (l_outstanding l + 1) * MAXOPBLOCKS) then mret false
  else modify (upd_lg (set_l_outstanding (l_outstanding l + 1)));; mret true.

(** The body of [write_log]'s loop. *)
Definition log_one (tail : nat) : LM unit :=
  l ← gets lg;
  to ← on_b (bread (l_dev l) (l_start l + Z.of_nat tail + 1));
  blk ← ld_block tail;
  from ← on_b (bread (l_dev l) blk);
  d ← on_b (rb from b_data);
  on_b (wb to (set_b_data d));;
  on_b (bwrite to);;
  on_b (brelse from);;
  on_b (brelse to).

Definition write_log : LM unit :=
  n ← gets (λ s, l_n (lg s));
  for_each (seq 0 (Z.to_nat n)) log_one.

Definition commit : LM unit :=
  n ← gets (λ s, l_n (lg s));
  when (Z.ltb 0 n) (
    write_log;;
    write_head;;
    install_trans;;
    modify (upd_lg (set_l_n 0));;
    write_head).

Definition end_op : LM unit :=
  l ← gets lg;
  modify (upd_lg (set_l_outstanding (l_outstanding l - 1)));;
  if negb (Z.eqb (l_committing l) 0) then panic "log.committing"
  else if Z.eqb (l_outstanding l - 1) 0 then
    modify (upd_lg (set_l_committing 1));;
    commit;;
    modify (upd_lg (set_l_committing 0))
  else mret tt.

Definition log_write (b : nat) : LM unit :=
  l ← gets lg;
  if Z.leb (Z.of_nat LOGSIZE) (l_n l) || Z.leb (l_size l - 1) (l_n l) then panic "too big a transaction"
  else if Z.ltb (l_outstanding l) 1 then panic "log_write outside of trans"
  else
    blockno ← on_b (rb b b_blockno);
    i ← loop (S LOGSIZE) (λ i,
          if Z.ltb (Z.of_nat i) (l_n l) then
            v ← ld_block i;
            if Z.eqb v blockno then mret (inr i) else mret (inl (S i))
          else mret (inr i)) 0%nat;
    st_block i blockno;;
    when (Z.eqb (Z.of_nat i) (l_n l)) (modify (upd_lg (set_l_n (l_n l + 1))));;
    on_b (wb b (λ b, set_b_flags (Z.lor (b_flags b) B_DIRTY) b)).

(** ** Sequences of block writes *)

(** The disk after the writes [w]. *)
Definition replay (w : list (Z * block)) (d : gmap Z block) : gmap Z block :=
  foldl (λ d x, <[x.1 := x.2]> d) d w.

Record wrote (s s' : bstate) (w : list (Z * block)) : Prop := {
  wr_disk : disk s' = replay w (disk s);
  wr_trace : dtrace s' = dtrace s ++ w;
  wr_size : disksize s' = disksize s
}.

Lemma wrote_refl s : wrote s s [].
Proof. split; [done| |done]. by rewrite app_nil_r. Qed.

Lemma wrote_trans s1 s2 s3 w w' : wrote s1 s2 w → wrote s2 s3 w' → wrote s1 s3 (w ++ w').
Proof.
  intros [D1 T1 S1] [D2 T2 S2]. split.
  - unfold replay. by rewrite foldl_app, D2, D1.
  - by rewrite T2, T1, app_assoc.
  - congruence.
Qed.

Lemma replay_other w d b : b ∉ w.*1 → replay w d !! b = d !! b.
Proof.
  revert d. induction w as [|[b' v] w IH]; intros d Hb; [done|]. simpl in *.
  apply not_elem_of_cons in Hb as [Hne Hb]. rewrite IH by done. by rewrite lookup_insert_ne.
Qed.

Lemma replay_app w w' d : replay (w ++ w') d = replay w' (replay w d).
Proof. apply foldl_app. Qed.

Lemma replay_last w d b v w' : b ∉ w'.*1 → replay (w ++ (b, v) :: w') d !! b = Some v.
Proof.
  intros Hb. unfold replay. rewrite foldl_app. simpl. change (replay w' (<[b := v]> (foldl (λ d x, <[x.1 := x.2]> d) d w)) !! b = Some v).
  rewrite replay_other by done. by rewrite lookup_insert_eq.
Qed.

(** A write of distinct blocks is found again. *)
Lemma replay_in w d b v : NoDup w.*1 → (b, v) ∈ w → replay w d !! b = Some v.
Proof.
  intros Hnd (w1 & w2 & ->)%list_elem_of_split. apply replay_last.
  rewrite fmap_app, fmap_cons in Hnd. simpl in Hnd. apply NoDup_mid_notin in Hnd. tauto.
Qed.

(** ** Room in the cache *)

Definition bounds (s : bstate) (D : list Z) : Prop := ∀ b, dirty s b → b ∈ D.

(** Each dirty buffer pins a block of [D], so a short [D] leaves a clean one. *)
Lemma room s H lru D :
  binv s H lru → bounds s D → (length D + length H < NBUF)%nat →
  ∃ i, (i < NBUF)%nat ∧ i ∉ H ∧ b_flags (bf s i) ≠ 6.
Proof.
  intros I HD Hlen. set (P := λ i, i ∉ H ∧ b_flags (bf s i) ≠ 6).
  destruct (decide (Exists P (seq 0 NBUF))) as [(i & Hi & HP)%Exists_exists|Hno].
  { apply elem_of_seq in Hi. exists i. split; [lia|exact HP]. }
  exfalso. set (F := filter (λ i, i ∉ H) (seq 0 NBUF)).
  assert (∀ i, i ∈ F → (i < NBUF)%nat ∧ b_flags (bf s i) = 6 ∧ b_dev (bf s i) = 1) as HF.
  { intros i [Hi Hs]%list_elem_of_filter. apply elem_of_seq in Hs as Hs'.
    destruct (decide (b_flags (bf s i) = 6)) as [E|E].
    - split; [lia|]. split; [done|]. destruct (bi_flags _ _ _ I i) as [(? & _)|[_ ?]]; [lia|done|congruence].
    - destruct Hno. apply Exists_exists. by exists i. }
  assert (NoDup ((λ i, b_blockno (bf s i)) <$> F)) as Hnd.
  { apply NoDup_fmap_2_strong; [|apply NoDup_filter, NoDup_seq]. intros i j Hi Hj E.
    destruct (HF i Hi) as (? & _ & ?), (HF j Hj) as (? & _ & ?). by apply (bi_uniq _ _ _ I). }
  assert ((λ i, b_blockno (bf s i)) <$> F ⊆ D) as Hsub.
  { intros b (i & -> & Hi)%list_elem_of_fmap. apply HD. destruct (HF i Hi) as (? & ? & ?). by exists i. }
  apply NoDup_submseteq in Hsub; [|done]. apply submseteq_length in Hsub. rewrite length_fmap in Hsub.
  assert (seq 0 NBUF ⊆ F ++ H) as Hcov.
  { intros i Hi. destruct (decide (i ∈ H)); [set_solver|]. apply elem_of_app. left. by apply list_elem_of_filter. }
  apply NoDup_submseteq in Hcov; [|apply NoDup_seq]. apply submseteq_length in Hcov.
  rewrite length_app, length_seq in Hcov. lia.
Qed.

Lemma dirty_cached s H lru b : binv s H lru → dirty s b → is_Some (cached s b).
Proof. intros I (i & Hi & Hd & Hb & _). destruct (cached_hit s H lru I b i Hi Hd Hb) as [-> _]. done. Qed.

(** ** Copying a block *)

Record copied (s s' : bstate) (src dst : Z) : Prop := {
  cp_inv : ∃ lru, binv s' [] lru;
  cp_wrote : wrote s s' [(dst, bview s src)];
  cp_view : ∀ b, bview s' b = if decide (b = dst) then bview s src else bview s b;
  cp_dirty : ∀ b, dirty s' b ↔ dirty s b ∧ b ≠ dst
}.

(** The common tail of the two loops, with both buffers held. *)
Definition copy_tail (src dst : nat) : BM unit :=
  d ← rb src b_data;
  wb dst (set_b_data d);;
  bwrite dst;;
  brelse src;;
  brelse dst.

Lemma bf_put_disk b v s i : bf (put_disk b v s) i = bf s i.
Proof. done. Qed.

(** Released buffers must be pinned or agree with the disk. *)
Definition releasable (s : bstate) (i : nat) : Prop :=
  b_flags (bf s i) = 6 ∨ b_data (bf s i) = disk_at s (b_blockno (bf s i)).

Lemma copy_tail_spec s H lru src dst :
  binv s H lru → H = [src; dst] ∨ H = [dst; src] → releasable s src →
  wp (copy_tail src dst) (λ _ s', (∃ lru', binv s' [] lru') ∧
    wrote s s' [(b_blockno (bf s dst), b_data (bf s src))] ∧
    (∀ b, bview s' b = if decide (b = b_blockno (bf s dst)) then b_data (bf s src) else bview s b) ∧
    (∀ b, dirty s' b ↔ dirty s b ∧ b ≠ b_blockno (bf s dst))) s.
Proof.
  intros I HH Hrel. destruct (bi_H _ _ _ I) as [Hnd HH'].
  assert (src ∈ H ∧ dst ∈ H ∧ src ≠ dst) as (Hs & Hd & Hne).
  { destruct HH as [-> | ->]; apply NoDup_cons in Hnd as [? _]; set_solver. }
  assert (b_blockno (bf s dst) ≠ b_blockno (bf s src)) as Hneb.
  { destruct (HH' src Hs), (HH' dst Hd). intros E. apply Hne. symmetry. by apply (bi_uniq _ _ _ I). }
  destruct (overwrite_run s H lru dst (b_data (bf s src)) I Hd) as (Hrun & I1 & Hv1 & Hd1).
  set (s1 := overwritten dst (b_data (bf s src)) s) in *.
  assert (bf s1 src = bf s src) as Hsrc by (unfold s1; by rewrite bf_overwritten, decide_False).
  assert (bf s1 dst = set_b_flags 2 (set_b_data (b_data (bf s src)) (bf s dst))) as Hdst
    by (unfold s1; by rewrite bf_overwritten, decide_True).
  assert (∀ b, disk_at s1 b = if decide (b_blockno (bf s dst) = b) then b_data (bf s src) else disk_at s b) as Hda
    by (intros b; unfold s1, overwritten; by rewrite disk_at_put).
  unfold copy_tail. apply wp_bind, wp_gets.
  assert (wp (brelse src;; brelse dst) (λ _ s', (∃ lru', binv s' [] lru') ∧
    disk s' = disk s1 ∧ dtrace s' = dtrace s1 ∧ disksize s' = disksize s1 ∧
    (∀ b, bview s' b = bview s1 b) ∧ (∀ b, dirty s' b ↔ dirty s1 b)) s1) as Hrels.
  { assert (∃ H1 H2, H = H1 ++ src :: H2 ∧ H1 ++ H2 = [dst]) as (H1 & H2 & -> & E).
    { destruct HH as [-> | ->]; [exists [], [dst]|exists [dst], []]; done. }
    apply wp_bind. wcall (brelse_spec s1 H1 src H2 lru I1).
    { destruct Hrel as [Hf|Hf]; rewrite Hsrc; [by left|right]. by rewrite Hda, decide_False. }
    intros [] s2 (lru2 & I2 & D2 & T2 & Z2 & B2 & V2 & Y2). rewrite E in I2.
    wcall (brelse_spec s2 [] dst [] lru2 I2).
    { right. rewrite B2, decide_False, Hdst by done. simpl.
      assert (∀ b, disk_at s2 b = disk_at s1 b) as -> by (intros b; unfold disk_at; by rewrite D2).
      by rewrite Hda, decide_True. }
    intros [] s3 (lru3 & I3 & D3 & T3 & Z3 & B3 & V3 & Y3). split; [by exists lru3|].
    split_and!; [congruence..| |].
    - intros b. by rewrite V3, V2.
    - intros b. by rewrite Y3, Y2. }
  change (wp ((wb dst (set_b_data (b_data (bf s src)));; (bwrite dst;; (brelse src;; brelse dst))))
    (λ _ s', (∃ lru', binv s' [] lru') ∧
    wrote s s' [(b_blockno (bf s dst), b_data (bf s src))] ∧
    (∀ b, bview s' b = if decide (b = b_blockno (bf s dst)) then b_data (bf s src) else bview s b) ∧
    (∀ b, dirty s' b ↔ dirty s b ∧ b ≠ b_blockno (bf s dst))) s).
  apply wp_bind, wp_modify, wp_bind. eapply wp_eq; [exact Hrun|]. wcall Hrels.
  intros [] s' (HI & Ed & Et & Ez & Ev & Ey). split; [done|]. split; [|split].
  - by split.
  - intros b. by rewrite Ev, Hv1.
  - intros b. by rewrite Ey, Hd1.
Qed.

(** Reading two blocks, in the order of the call. *)
Lemma bread_two s lru D a b (K : nat → nat → BM unit) Q :
  binv s [] lru → bounds s D → (length D < NBUF)%nat → a ≠ b →
  0 ≤ a < disksize s → 0 ≤ b < disksize s → dirty s b ∨ (S (length D) < NBUF)%nat →
  (∀ i j s', binv s' [j; i] lru → b_blockno (bf s' i) = a → b_blockno (bf s' j) = b →
     b_data (bf s' i) = bview s a → b_data (bf s' j) = bview s b →
     releasable s' i → releasable s' j → wrote s s' [] →
     (∀ b, bview s' b = bview s b) → (∀ b, dirty s' b ↔ dirty s b) →
     wp (K i j) Q s') →
  wp (i ← bread 1 a; j ← bread 1 b; K i j) Q s.
Proof.
  intros I HD HlD Hab Ha Hb Hroom2 HK. apply wp_bind. wcall (bread_spec s [] lru a I Ha).
  { intros i Hi. set_solver. }
  { right. apply (room s [] lru D); [done..|simpl; lia]. }
  intros i s1 (Hi & _ & I1 & [G1 G2 G3 G4 G5 G6]). apply wp_bind.
  assert (disksize s1 = disksize s ∧ disk s1 = disk s ∧ dtrace s1 = dtrace s) as (Z1 & D1 & T1)
    by (rewrite G4; done).
  wcall (bread_spec s1 [i] lru b I1).
  { by rewrite Z1. }
  { intros k ->%list_elem_of_singleton. by rewrite G1. }
  { destruct Hroom2 as [Hdb|HlD2].
    - left. apply (dirty_cached s1 [i] lru); [done|]. by apply G6.
    - right. apply (room s1 [i] lru D); [done| |simpl; lia]. intros b' ?%G6. by apply HD. }
  intros j s2 (Hj & Hij & I2 & [F1 F2 F3 F4 F5 F6]). rewrite list_elem_of_singleton in Hij.
  assert (disksize s2 = disksize s1 ∧ disk s2 = disk s1 ∧ dtrace s2 = dtrace s1) as (Z2 & D2 & T2)
    by (rewrite F4; done).
  assert (bf s2 i = bf s1 i) as Hbi by (rewrite F4, bf_put, decide_False; done).
  assert (∀ c, disk_at s2 c = disk_at s c) as Hda by (intros c; unfold disk_at; by rewrite D2, D1).
  apply HK; try done; rewrite ?Hbi, ?F2; try done.
  - unfold releasable. rewrite Hbi, G1, Hda. destruct (decide (b_flags (bf s1 i) = 6)); [by left|right].
    rewrite G2. apply (clean_view s [] lru a I); [by rewrite <-G3|set_solver].
  - unfold releasable. rewrite F1, Hda. destruct (decide (b_flags (bf s2 j) = 6)); [by left|right].
    rewrite F2, G5. apply (clean_view s [] lru b I); [by rewrite <-G6, <-F3|set_solver].
  - split; [simpl; congruence|rewrite app_nil_r; congruence|congruence].
  - intros c. by rewrite F5, G5.
  - intros c. by rewrite F6, G6.
Qed.

Lemma on_b_bind {A B} (m : BM A) (f : A → BM B) S :
  (x ← on_b m; on_b (f x)) S = on_b (m ≫= f) S.
Proof.
  unfold on_b, zoom, mbind, M_bind. destruct (m (bs S)) as [[a b]|e]; [|done].
  cbn [bs set_bs]. by destruct (f a b) as [[? ?]|].
Qed.

Lemma ld_block_run S i v : l_block (lg S) !! i = Some v → ld_block i S = Ok (v, S).
Proof. intros E. unfold ld_block, mbind, M_bind, gets. by rewrite E. Qed.

Lemma on_b_seq {A B} (m : BM A) (f : A → BM B) (g : A → LM B) S :
  (∀ x b, g x (set_bs b S) = on_b (f x) (set_bs b S)) →
  (x ← on_b m; g x) S = on_b (m ≫= f) S.
Proof.
  intros Hg. rewrite <-on_b_bind. unfold mbind, M_bind, on_b, zoom.
  destruct (m (bs S)) as [[a b]|e]; [|done]. by rewrite Hg.
Qed.

Lemma log_one_run S k blk :
  l_block (lg S) !! k = Some blk →
  log_one k S = on_b (i ← bread (l_dev (lg S)) (l_start (lg S) + Z.of_nat k + 1);
                      j ← bread (l_dev (lg S)) blk; copy_tail j i) S.
Proof.
  intros Hk. unfold log_one. rewrite (bind_ok _ _ _ (lg S) S) by done.
  apply on_b_seq. intros i b. rewrite (bind_ok _ _ _ _ _ (ld_block_run (set_bs b S) k blk Hk)).
  apply on_b_seq. intros j b'. unfold copy_tail. repeat (apply on_b_seq; intros ? ?). done.
Qed.

Lemma install_one_run S k blk :
  l_block (lg S) !! k = Some blk →
  install_one k S = on_b (i ← bread (l_dev (lg S)) (l_start (lg S) + Z.of_nat k + 1);
                          j ← bread (l_dev (lg S)) blk; copy_tail i j) S.
Proof.
  intros Hk. unfold install_one. rewrite (bind_ok _ _ _ (lg S) S) by done.
  apply on_b_seq. intros i b. rewrite (bind_ok _ _ _ _ _ (ld_block_run (set_bs b S) k blk Hk)).
  apply on_b_seq. intros j b'. unfold copy_tail. repeat (apply on_b_seq; intros ? ?). done.
Qed.

Lemma wp_on_b {A} (m : BM A) (f : LM A) Q S :
  f S = on_b m S → wp m (λ a b, Q a (set_bs b S)) (bs S) → wp f Q S.
Proof. unfold wp, on_b, zoom. intros ->. by destruct (m (bs S)) as [[? ?]|]. Qed.

(** ** The two loops *)

Section loops.
  Context (S0 : lstate) (blocks : list Z).
  Context (Hdev : l_dev (lg S0) = 1) (Hst : 0 ≤ l_start (lg S0)).
  Context (Hln : l_n (lg S0) = Z.of_nat (length blocks)).
  Context (Hblk : ∀ k b, blocks !! k = Some b → l_block (lg S0) !! k = Some b).
  Context (Hlen : (Z.of_nat (length blocks) < l_size (lg S0))).
  Context (Hend : l_start (lg S0) + l_size (lg S0) ≤ disksize (bs S0)).
  Context (Hnd : NoDup blocks).
  Context (Hout : ∀ b, b ∈ blocks → 0 ≤ b < disksize (bs S0) ∧
            (b < l_start (lg S0) ∨ l_start (lg S0) + l_size (lg S0) ≤ b)).

  (** The [k]th block of the log. *)
Definition slot (k : nat) : Z := l_start (lg S0) + Z.of_nat k + 1.
Definition in_log (b : Z) : Prop := l_start (lg S0) < b < l_start (lg S0) + l_size (lg S0).

Lemma slot_in k : (k < length blocks)%nat → in_log (slot k) ∧ 0 ≤ slot k < disksize (bs S0).
Proof using Hst Hlen Hend. unfold in_log, slot. lia. Qed.

Lemma write_log_spec lru :
  binv (bs S0) [] lru → (∀ b, dirty (bs S0) b ↔ b ∈ blocks) → (length blocks < NBUF)%nat →
  wp write_log (λ _ S, lg S = lg S0 ∧ (∃ lru, binv (bs S) [] lru) ∧
    wrote (bs S0) (bs S) (imap (λ k b, (slot k, bview (bs S0) b)) blocks) ∧
    (∀ b, ¬ in_log b → bview (bs S) b = bview (bs S0) b) ∧ (∀ b, dirty (bs S) b ↔ b ∈ blocks)) S0.
Proof using Hdev Hst Hln Hblk Hlen Hend Hout.
  intros I0 Hdirty Hsmall. unfold write_log. apply wp_bind, wp_gets. rewrite Hln, Nat2Z.id.
  set (W := imap (λ k b, (slot k, bview (bs S0) b)) blocks).
  eapply wp_mono; [apply (wp_for_seq (λ k S, lg S = lg S0 ∧ (∃ lru, binv (bs S) [] lru) ∧
    wrote (bs S0) (bs S) (take k W) ∧
    (∀ b, ¬ in_log b → bview (bs S) b = bview (bs S0) b) ∧ (∀ b, dirty (bs S) b ↔ b ∈ blocks)))|].
  - split_and!; try done; [by exists lru|]. apply wrote_refl.
  - intros k S Hk (El & [lru' I] & Hw & Hv & Hd).
    destruct (lookup_lt_is_Some_2 blocks k Hk) as [b Hb]. destruct (slot_in k Hk) as [Hsl Hsd].
    destruct (Hout b ltac:(by eapply list_elem_of_lookup_2)) as [Hbd Hbo].
    assert (slot k ≠ b) as Hne by (unfold in_log in Hsl; lia).
    eapply wp_on_b; [apply log_one_run; rewrite El; by apply Hblk|]. rewrite El, Hdev. fold (slot k).
    eapply (bread_two _ lru' blocks); try done; rewrite ?(wr_size _ _ _ Hw); try done.
    { intros b' ?. by apply Hd. }
    { left. apply Hd. by eapply list_elem_of_lookup_2. }
    intros i j s' I' Ei Ej Di Dj Ri Rj W' V' Y'.
    wcall (copy_tail_spec s' [j; i] lru' j i I'); [by left|done|].
    rewrite Ei, Dj. intros [] s'' (HI & Hw' & Hv' & Hy'). split_and!; [done|done| | |].
    + simpl bs. change (1 + k)%nat with (Datatypes.S k). rewrite (take_S_r W k (slot k, bview (bs S) b)).
      * eapply wrote_trans; [exact Hw|]. apply (wrote_trans _ _ _ _ _ W' Hw').
      * unfold W. rewrite list_lookup_imap, Hb. simpl. rewrite Hv by (unfold in_log; lia). done.
    + intros c Hc. simpl bs. rewrite Hv', decide_False by (intros ->; done). rewrite V'. by apply Hv.
    + intros c. simpl bs. rewrite Hy', Y', Hd. split; [tauto|]. intros Hc. split; [done|]. intros ->.
      destruct (Hout (slot k) Hc). unfold in_log in Hsl. lia.
  - intros [] S (El & HI & Hw & Hv & Hd). rewrite firstn_all2 in Hw by (unfold W; rewrite length_imap; lia). done.
Qed.

(** Installing copies each slot home. *)
Lemma install_trans_spec lru D :
  binv (bs S0) [] lru → bounds (bs S0) D → (∀ k, (k < length blocks)%nat → ¬ dirty (bs S0) (slot k)) →
  (length D < NBUF)%nat → (∀ b, b ∈ blocks → dirty (bs S0) b) ∨ (S (length D) < NBUF)%nat →
  wp install_trans (λ _ S, lg S = lg S0 ∧ (∃ lru, binv (bs S) [] lru) ∧
    wrote (bs S0) (bs S) (imap (λ k b, (b, bview (bs S0) (slot k))) blocks) ∧
    (∀ b, b ∉ blocks → bview (bs S) b = bview (bs S0) b) ∧
    (∀ b, dirty (bs S) b ↔ dirty (bs S0) b ∧ b ∉ blocks)) S0.
Proof using Hdev Hst Hln Hblk Hlen Hend Hout Hnd.
  intros I0 HD Hclean HlD Hroom. unfold install_trans. apply wp_bind, wp_gets. rewrite Hln, Nat2Z.id.
  set (W := imap (λ k b, (b, bview (bs S0) (slot k))) blocks).
  eapply wp_mono; [apply (wp_for_seq (λ k S, lg S = lg S0 ∧ (∃ lru, binv (bs S) [] lru) ∧
    wrote (bs S0) (bs S) (take k W) ∧
    (∀ b, b ∉ blocks → bview (bs S) b = bview (bs S0) b) ∧
    (∀ b, dirty (bs S) b ↔ dirty (bs S0) b ∧ b ∉ take k blocks)))|].
  - split_and!; try done; [by exists lru|apply wrote_refl|]. intros b. simpl. set_solver.
  - intros k S Hk (El & [lru' I] & Hw & Hv & Hd).
    destruct (lookup_lt_is_Some_2 blocks k Hk) as [b Hb]. destruct (slot_in k Hk) as [Hsl Hsd].
    assert (b ∈ blocks) as Hin by by eapply list_elem_of_lookup_2. destruct (Hout b Hin) as [Hbd Hbo].
    assert (slot k ≠ b) as Hne by (unfold in_log in Hsl; lia).
    assert (slot k ∉ blocks) as Hsk by (intros ?%Hout; unfold in_log in Hsl; lia).
    eapply wp_on_b; [apply install_one_run; rewrite El; by apply Hblk|]. rewrite El, Hdev. fold (slot k).
    eapply (bread_two _ lru' D); try done; rewrite ?(wr_size _ _ _ Hw); try done.
    { intros b' [? _]%Hd. by apply HD. }
    { destruct Hroom as [Hr|Hr]; [|by right]. left. apply Hd. split; [by apply Hr|].
      intros (j & Hj1 & Hj2)%elem_of_take. rewrite (NoDup_lookup blocks k j b) in Hj2 by done. lia. }
    intros i j s' I' Ei Ej Di Dj Ri Rj W' V' Y'.
    wcall (copy_tail_spec s' [j; i] lru' i j I'); [by right|done|].
    rewrite Ej, Di. intros [] s'' (HI & Hw' & Hv' & Hy'). split_and!; [done|done| | |].
    + simpl bs. change (1 + k)%nat with (Datatypes.S k). rewrite (take_S_r W k (b, bview (bs S) (slot k))).
      * eapply wrote_trans; [exact Hw|]. apply (wrote_trans _ _ _ _ _ W' Hw').
      * unfold W. rewrite list_lookup_imap, Hb. simpl. by rewrite Hv.
    + intros c Hc. simpl bs. rewrite Hv', decide_False by (intros ->; done). rewrite V'. by apply Hv.
    + intros c. simpl bs. rewrite Hy', Y', Hd. change (1 + k)%nat with (Datatypes.S k).
      rewrite (take_S_r blocks k b Hb), elem_of_app, list_elem_of_singleton. tauto.
  - intros [] S (El & HI & Hw & Hv & Hd). rewrite firstn_all2 in Hw by (unfold W; rewrite length_imap; lia).
    rewrite firstn_all2 in Hd by lia. done.
Qed.

End loops.

(** ** The header block *)

(** The bytes [write_head] puts over [d] for the blocks [bl]. *)
Definition header (d : block) (bl : list Z) : block :=
  st32s (st32 d HN (Z.of_nat (length bl))) (HB 0) bl.

Section header.
  Context (d : block) (bl : list Z).
  Context (Hd : length d = BSIZE) (Hbl : (length bl ≤ LOGSIZE)%nat).

Lemma header_length : length (header d bl) = BSIZE.
Proof using Hd. unfold header. by rewrite length_st32s, length_st32. Qed.

Lemma header_n : s32 (ld32 (header d bl) HN) = Z.of_nat (length bl).
Proof using Hd Hbl.
  unfold header, HN, HB, LOGSIZE, BSIZE in *. rewrite ld32_st32s_ne by (rewrite ?length_st32; lia).
  rewrite ld32_st32_eq by lia. apply s32_mod. unfold is_s32. lia.
Qed.

Lemma header_block k b : bl !! k = Some b → is_s32 b → s32 (ld32 (header d bl) (HB k)) = b.
Proof using Hd Hbl.
  intros Hk Hb. unfold header, HB, LOGSIZE, BSIZE in *.
  change (4 + 4 * 0)%nat with 4%nat. rewrite (ld32_st32s _ 4 bl k b); [by apply s32_mod| |done].
  rewrite length_st32. lia.
Qed.
End header.

(** Holding one block that nobody has dirtied. *)
Lemma bread_one s lru D a :
  binv s [] lru → bounds s D → (length D < NBUF)%nat → 0 ≤ a < disksize s → ¬ dirty s a →
  wp (bread 1 a) (λ i s', (i < NBUF)%nat ∧ binv s' [i] lru ∧ b_blockno (bf s' i) = a ∧
    b_data (bf s' i) = disk_at s a ∧ wrote s s' [] ∧ releasable s' i ∧
    (∀ b, bview s' b = bview s b) ∧ (∀ b, dirty s' b ↔ dirty s b)) s.
Proof.
  intros I HD HlD Ha Hna. wcall (bread_spec s [] lru a I Ha); [set_solver| |].
  { right. apply (room s [] lru D); [done..|simpl; lia]. }
  intros i s1 (Hi & _ & I1 & [G1 G2 G3 G4 G5 G6]).
  assert (disksize s1 = disksize s ∧ disk s1 = disk s ∧ dtrace s1 = dtrace s) as (Z1 & D1 & T1)
    by (rewrite G4; done).
  assert (b_data (bf s1 i) = disk_at s a) as Hda.
  { rewrite G2. by apply (clean_view s [] lru a I); [|set_solver]. }
  split_and!; try done.
  - split; [done|by rewrite app_nil_r|done].
  - right. rewrite Hda, G1. unfold disk_at. by rewrite D1.
Qed.

(** The loop that fills in the block numbers. *)
Lemma fill_header S i b0 d bl :
  (∀ k b, bl !! k = Some b → l_block (lg S) !! k = Some b) →
  let st d := set_bs (put_buf i (set_b_data d b0) (bs S)) S in
  wp (for_each (seq 0 (length bl)) (λ k,
        v ← ld_block k; on_b (wb i (λ b, set_b_data (st32 (b_data b) (HB k) v) b))))
     (λ _ S', S' = st (st32s d (HB 0) bl)) (st d).
Proof.
  intros Hbl st.
  eapply wp_mono; [apply (wp_for_seq (λ k S', S' = st (st32s d (HB 0) (take k bl))))|].
  - done.
  - intros k S' Hk ->. destruct (lookup_lt_is_Some_2 bl k Hk) as [b Hb].
    apply wp_bind. eapply wp_eq; [apply ld_block_run; by apply Hbl|].
    apply wp_zoom, wp_modify. change (1 + k)%nat with (Datatypes.S k).
    rewrite (take_S_r bl k b Hb), st32s_snoc, length_take. rewrite Nat.min_l by lia.
    unfold st, set_bs; simpl. rewrite upd_buf_put, put_put_buf, bf_put, decide_True by done. done.
  - intros [] S' ->. by rewrite firstn_all.
Qed.

(** The loop of [read_head]. *)
Lemma read_blocks d n S :
  (n ≤ length (l_block (lg S)))%nat →
  wp (for_each (seq 0 n) (λ i, st_block i (s32 (ld32 d (HB i)))))
     (λ _ S', bs S' = bs S ∧ ∃ bl, lg S' = set_l_block bl (lg S) ∧ length bl = length (l_block (lg S)) ∧
        ∀ k, (k < n)%nat → bl !! k = Some (s32 (ld32 d (HB k)))) S.
Proof.
  intros Hn. apply (wp_for_seq (λ k S', bs S' = bs S ∧ ∃ bl, lg S' = set_l_block bl (lg S) ∧
    length bl = length (l_block (lg S)) ∧ ∀ j, (j < k)%nat → bl !! j = Some (s32 (ld32 d (HB j))))).
  - split; [done|]. exists (l_block (lg S)). split; [by destruct (lg S)|]. split; [done|lia].
  - intros k S' Hk (Eb & bl & El & Hl & Hj). unfold st_block. apply wp_bind, wp_gets. rewrite El. cbn [l_block set_l_block].
    destruct (Nat.ltb_spec k (length bl)); [|lia]. apply wp_modify. split; [done|].
    eexists. split; [unfold upd_lg; cbn [lg set_lg]; rewrite El; reflexivity|]. cbn [l_block set_l_block].
    split; [by rewrite length_insert|]. intros j Hjk. destruct (decide (j = k)) as [->|Hne].
    + by rewrite list_lookup_insert_eq.
    + rewrite list_lookup_insert_ne by done. apply Hj. lia.
Qed.

Section write_head.
  Context (S0 : lstate) (lru : list nat) (D bl : list Z).
  Context (I : binv (bs S0) [] lru) (HD : bounds (bs S0) D) (HlD : (length D < NBUF)%nat).
  Context (Hdev : l_dev (lg S0) = 1) (Hst : 0 ≤ l_start (lg S0) < disksize (bs S0)).
  Context (Hclean : ¬ dirty (bs S0) (l_start (lg S0))).

Lemma write_head_spec :
  l_n (lg S0) = Z.of_nat (length bl) → (∀ k b, bl !! k = Some b → l_block (lg S0) !! k = Some b) →
  let v := header (disk_at (bs S0) (l_start (lg S0))) bl in
  wp write_head (λ _ S, lg S = lg S0 ∧ (∃ lru, binv (bs S) [] lru) ∧
    wrote (bs S0) (bs S) [(l_start (lg S0), v)] ∧
    (∀ b, bview (bs S) b = if decide (b = l_start (lg S0)) then v else bview (bs S0) b) ∧
    (∀ b, dirty (bs S) b ↔ dirty (bs S0) b)) S0.
Proof using I HD HlD Hdev Hst Hclean.
  intros Hn Hbl v. unfold write_head. apply wp_bind, wp_gets, wp_bind, wp_zoom. rewrite Hdev.
  wcall (bread_one (bs S0) lru D); [done..|].
  intros i s1 (Hi & I1 & Hb & Hda & Hw & Hr & Hv & Hy). apply wp_bind, wp_zoom, wp_modify.
  set (S1 := set_bs s1 S0). rewrite Hn, Nat2Z.id, upd_buf_put.
  change (bs S1) with s1. cbv beta. rewrite Hda.
  apply wp_bind. wcall (fill_header S1 i (bf s1 i) _ bl); [exact Hbl|]. fold (header (disk_at (bs S0) (l_start (lg S0))) bl).
  fold v. intros [] S2 ->.
  destruct (overwrite_run s1 [i] lru i v I1 ltac:(set_solver)) as (Hrun & I2 & Hv2 & Hd2). rewrite Hb in *.
  apply wp_bind, wp_zoom. eapply wp_eq; [exact Hrun|]. apply wp_zoom.
  set (s2 := overwritten i v s1) in *. assert (bf s2 i = set_b_flags 2 (set_b_data v (bf s1 i))) as Hbi
    by (unfold s2; by rewrite bf_overwritten, decide_True).
  wcall (brelse_spec s2 [] i [] lru I2).
  { right. unfold s2, overwritten. rewrite disk_at_put. fold (overwritten i v s1). fold s2. rewrite Hbi. simpl.
    by rewrite decide_True. }
  intros [] s3 (lru3 & I3 & D3 & T3 & Z3 & _ & V3 & Y3). split_and!; [done|by exists lru3| | |]; simpl bs.
  - eapply (wrote_trans _ _ _ [] _ Hw). split; [by rewrite D3, <-Hb|by rewrite T3, <-Hb|done].
  - intros b. rewrite V3, Hv2, Hv. done.
  - intros b. rewrite Y3, Hd2, Hy. split; [tauto|]. intros Hdb. split; [done|]. intros ->. done.
Qed.

Lemma read_head_spec :
  let d := disk_at (bs S0) (l_start (lg S0)) in
  let n := s32 (ld32 d HN) in
  0 ≤ n ≤ Z.of_nat (length (l_block (lg S0))) →
  wp read_head (λ _ S, (∃ lru, binv (bs S) [] lru) ∧ wrote (bs S0) (bs S) [] ∧
    (∀ b, bview (bs S) b = bview (bs S0) b) ∧ (∀ b, dirty (bs S) b ↔ dirty (bs S0) b) ∧
    ∃ bl', lg S = set_l_block bl' (set_l_n n (lg S0)) ∧ length bl' = length (l_block (lg S0)) ∧
      ∀ k, Z.of_nat k < n → bl' !! k = Some (s32 (ld32 d (HB k)))) S0.
Proof using I HD HlD Hdev Hst Hclean.
  intros d n Hn. unfold read_head. apply wp_bind, wp_gets, wp_bind, wp_zoom. rewrite Hdev.
  wcall (bread_one (bs S0) lru D); [done..|].
  intros i s1 (Hi & I1 & Hb & Hda & Hw & Hr & Hv & Hy).
  apply wp_bind, wp_zoom, wp_gets. change (bs (set_bs s1 S0)) with s1. rewrite Hda. fold d. apply wp_bind, wp_modify. fold n. apply wp_bind, wp_gets, wp_bind.
  wcall (read_blocks d (Z.to_nat n)). { simpl. lia. }
  intros [] S2 (Eb & bl' & El & Hl & Hk). apply wp_zoom. rewrite Eb. simpl bs. simpl lg in El.
  wcall (brelse_spec s1 [] i [] lru I1); [exact Hr|].
  intros [] s3 (lru3 & I3 & D3 & T3 & Z3 & _ & V3 & Y3). simpl. split_and!; [by exists lru3| | | |].
  - apply (wrote_trans _ _ _ [] [] Hw). split; [done|by rewrite app_nil_r|done].
  - intros b. by rewrite V3, Hv.
  - intros b. by rewrite Y3, Hy.
  - exists bl'. split; [done|]. split; [done|]. intros k Hkn. apply Hk. lia.
Qed.
End write_head.

(** ** The log between operations

    [blocks] are the blocks of the transaction being collected: they are
    exactly the dirty ones, they lie outside the log, and the header on the
    disk says that nothing is committed. *)

Record log_inv (S : lstate) (H lru : list nat) (blocks : list Z) : Prop := {
  li_cache : binv (bs S) H lru;
  li_dev : l_dev (lg S) = 1;
  li_start : 0 ≤ l_start (lg S);
  li_end : l_start (lg S) + l_size (lg S) ≤ disksize (bs S);
  li_n : l_n (lg S) = Z.of_nat (length blocks);
  li_len : length (l_block (lg S)) = LOGSIZE;
  li_block : ∀ k b, blocks !! k = Some b → l_block (lg S) !! k = Some b;
  li_fit : Z.of_nat (length blocks) < l_size (lg S);
  li_nodup : NoDup blocks;
  li_out : ∀ b, b ∈ blocks → is_s32 b ∧ 0 ≤ b < disksize (bs S) ∧
    (b < l_start (lg S) ∨ l_start (lg S) + l_size (lg S) ≤ b);
  li_dirty : ∀ b, dirty (bs S) b ↔ b ∈ blocks;
  li_header : length (disk_at (bs S) (l_start (lg S))) = BSIZE ∧
    s32 (ld32 (disk_at (bs S) (l_start (lg S))) HN) = 0
}.

Lemma li_cap S H lru blocks : log_inv S H lru blocks → (length blocks ≤ LOGSIZE)%nat.
Proof.
  intros L. destruct blocks as [|b bl] using rev_ind; [simpl; lia|].
  pose proof (li_block _ _ _ _ L (length bl) b) as Hb. rewrite lookup_app_r, Nat.sub_diag in Hb by lia.
  specialize (Hb eq_refl). apply lookup_lt_Some in Hb. rewrite (li_len _ _ _ _ L) in Hb. rewrite length_app. simpl. lia.
Qed.

(** A block that does not belong to the log. *)
Definition home (l : logst) (b : Z) : Prop := b < l_start l ∨ l_start l + l_size l ≤ b.

Definition dk (d : gmap Z block) (b : Z) : block := default (replicate BSIZE 0) (d !! b).

Lemma dk_replay_other w d b : b ∉ w.*1 → dk (replay w d) b = dk d b.
Proof. intros Hb. unfold dk. by rewrite replay_other. Qed.

Lemma dk_replay_in w d b v : NoDup w.*1 → (b, v) ∈ w → dk (replay w d) b = v.
Proof. intros Hn Hb. unfold dk. by rewrite (replay_in w d b v). Qed.

Lemma wrote_disk_at s s' w b : wrote s s' w → disk_at s' b = dk (replay w (disk s)) b.
Proof. intros [E _ _]. unfold disk_at. by rewrite E. Qed.

(** *** Recovery *)

Section recover.
  Context (R : lstate) (lru : list nat) (start size : Z) (bl : list Z).
  Context (I : binv (bs R) [] lru) (Hclean : ∀ b, ¬ dirty (bs R) b).
  Context (Hlb : length (l_block (lg R)) = LOGSIZE).
  Context (Hst : 0 ≤ start) (Hend : start + size ≤ disksize (bs R)).
  Context (Hfit : Z.of_nat (length bl) < size) (Hlen : (length bl ≤ LOGSIZE)%nat).
  Context (Hnd : NoDup bl).
  Context (Hout : ∀ b, b ∈ bl → 0 ≤ b < disksize (bs R) ∧ (b < start ∨ start + size ≤ b)).
  Context (Hhl : length (disk_at (bs R) start) = BSIZE).
  Context (Hhn : s32 (ld32 (disk_at (bs R) start) HN) = Z.of_nat (length bl)).
  Context (Hhb : ∀ k b, bl !! k = Some b → s32 (ld32 (disk_at (bs R) start) (HB k)) = b).

Lemma initlog_spec :
  wp (initlog 1 start size) (λ _ S,
    (∃ lru', log_inv S [] lru' []) ∧
    (∃ bl', lg S = mkLog start size (l_outstanding (lg R)) (l_committing (lg R)) 1 0 bl') ∧
    wrote (bs R) (bs S) (imap (λ k b, (b, disk_at (bs R) (start + Z.of_nat k + 1))) bl ++
                         [(start, header (disk_at (bs R) start) [])])) R.
Proof using I Hclean Hlb Hst Hend Hfit Hlen Hnd Hout Hhl Hhn Hhb.
  unfold initlog, recover_from_log. apply wp_bind, wp_modify, wp_bind.
  set (l1 := mkLog start size (l_outstanding (lg R)) (l_committing (lg R)) 1 (l_n (lg R)) (l_block (lg R))).
  change (upd_lg _ R) with (set_lg l1 R).
  wcall (read_head_spec (set_lg l1 R) lru []); try done.
  { by intros b ?%Hclean. }
  { unfold NBUF. simpl. lia. }
  { simpl. lia. }
  { simpl. rewrite Hhn, Hlb. lia. }
  simpl bs. simpl l_start. rewrite Hhn. simpl l_block.
  intros [] S1 ([lru1 I1] & Hw1 & Hv1 & Hd1 & bl' & El1 & Hl' & Hk1).
  assert (∀ k b, bl !! k = Some b → l_block (lg S1) !! k = Some b) as Hblk.
  { intros k b Hk. rewrite El1. simpl. rewrite Hk1 by (apply lookup_lt_Some in Hk; lia). f_equal. by apply Hhb. }
  pose proof (wr_size _ _ _ Hw1) as Z1.
  assert (∀ b, ¬ dirty (bs S1) b) as Hclean1 by (intros b ?%Hd1; by eapply Hclean).
  assert (l_dev (lg S1) = 1 ∧ l_start (lg S1) = start ∧ l_size (lg S1) = size ∧
    l_n (lg S1) = Z.of_nat (length bl)) as (Ed & Es1 & Ez & En) by by rewrite El1.
  apply wp_bind. wcall (install_trans_spec S1 bl Ed ltac:(by rewrite Es1) En Hblk ltac:(by rewrite Ez)
    ltac:(by rewrite Es1, Ez, Z1) Hnd ltac:(by rewrite Es1, Ez, Z1) lru1 [] I1); try done.
  { by intros b ?%Hclean1. }
  { simpl. unfold NBUF. lia. }
  { right. unfold NBUF. simpl. lia. }
  intros [] S2 (El2 & [lru2 I2] & Hw2 & Hv2 & Hd2).
  assert (∀ b, ¬ dirty (bs S2) b) as Hclean2 by (intros b [? _]%Hd2; by eapply Hclean1).
  apply wp_bind, wp_modify.
  assert (disk_at (bs S2) start = disk_at (bs R) start) as Hhd.
  { rewrite (wrote_disk_at _ _ _ _ (wrote_trans _ _ _ _ _ Hw1 Hw2)). cbn [app]. rewrite dk_replay_other; [done|].
    intros ([b v] & E1 & (k & b' & ? & Hb)%elem_of_lookup_imap)%list_elem_of_fmap. simplify_eq/=.
    apply list_elem_of_lookup_2 in Hb as [_ ?]%Hout. lia. }
  set (S2' := upd_lg (set_l_n 0) S2).
  wcall (write_head_spec S2' lru2 [] []); try done.
  { by intros b ?%Hclean2. }
  { simpl. unfold NBUF. lia. }
  { simpl. by rewrite El2, El1. }
  { simpl. rewrite El2, El1. simpl. rewrite (wr_size _ _ _ Hw2), Z1. lia. }
  intros [] S3 (El3 & [lru3 I3] & Hw3 & Hv3 & Hd3).
  assert (lg S3 = set_l_n 0 (set_l_block bl' (set_l_n (Z.of_nat (length bl)) l1))) as El by (rewrite El3; simpl; rewrite El2, El1; done).
  assert (l_start (lg S2') = start) as Es by (simpl; by rewrite El2, El1). rewrite Es in Hw3, Hv3.
  change (bs S2') with (bs S2) in *. rewrite Hhd in Hw3, Hv3.
  assert (disk_at (bs S3) start = header (disk_at (bs R) start) []) as Hh3.
  { rewrite (wrote_disk_at _ _ _ _ Hw3). unfold dk, replay. simpl. by rewrite lookup_insert_eq. }
  split_and!; [|by rewrite El; eexists|].
  - exists lru3. split; rewrite ?El; simpl; rewrite ?(wr_size _ _ _ Hw3), ?(wr_size _ _ _ Hw2), ?Z1, ?Hh3; try done.
    + by rewrite Hl'.
    + simpl in Hfit. lia.
    + constructor.
    + intros b ?. set_solver.
    + intros b. rewrite Hd3. split; [intros ?%Hclean2; done|set_solver].
    + split; [by apply header_length|]. apply (header_n _ []); [done|simpl; unfold LOGSIZE; lia].
  - refine (wrote_trans _ _ _ _ _ _ Hw3). pose proof (wrote_trans _ _ _ _ _ Hw1 Hw2) as Hw. cbn [app] in Hw.
    erewrite imap_ext; [exact Hw|]. intros k b Hb. simpl. f_equal. rewrite Hv1.
    unfold slot. rewrite El1. simpl. symmetry. apply (clean_view _ [] lru); [done|apply Hclean|set_solver].
Qed.
End recover.

(** *** Commit *)

Definition log_part (S : lstate) (blocks : list Z) : list (Z * block) :=
  imap (λ k b, (slot S k, bview (bs S) b)) blocks.
Definition commit_header (S : lstate) (blocks : list Z) : block :=
  header (disk_at (bs S) (l_start (lg S))) blocks.
Definition home_part (S : lstate) (blocks : list Z) : list (Z * block) :=
  (λ b, (b, bview (bs S) b)) <$> blocks.
(** Every disk write of a commit, in order. *)
Definition commit_writes (S : lstate) (blocks : list Z) : list (Z * block) :=
  log_part S blocks ++ (l_start (lg S), commit_header S blocks) ::
  home_part S blocks ++ [(l_start (lg S), header (commit_header S blocks) [])].

Section commit.
  Context (S0 : lstate) (lru : list nat) (blocks : list Z).
  Context (L : log_inv S0 [] lru blocks).
  Local Abbreviation start := (l_start (lg S0)).

Lemma log_part_fst b : b ∈ (log_part S0 blocks).*1 → start < b < start + l_size (lg S0).
Proof using L.
  intros ([b' v] & -> & (k & c & [= -> ->] & Hk)%elem_of_lookup_imap)%list_elem_of_fmap. simpl.
  apply lookup_lt_Some in Hk. pose proof (li_fit _ _ _ _ L). unfold slot. lia.
Qed.

Lemma log_part_NoDup : NoDup (log_part S0 blocks).*1.
Proof using L.
  unfold log_part. rewrite fmap_imap. apply NoDup_alt. intros i j x.
  rewrite !list_lookup_imap. destruct (blocks !! i), (blocks !! j); simpl; try done.
  intros [= <-] [= E]. unfold slot in E. lia.
Qed.

Lemma home_part_fst : (home_part S0 blocks).*1 = blocks.
Proof using. unfold home_part. rewrite <-list_fmap_compose. apply list_fmap_id. Qed.

Lemma log_part_in k b : blocks !! k = Some b → (slot S0 k, bview (bs S0) b) ∈ log_part S0 blocks.
Proof using. intros Hb. unfold log_part. apply elem_of_lookup_imap. by exists k, b. Qed.

(** After [write_log] and [write_head], the slots hold the transaction. *)
Lemma slots_logged S1 k b :
  (∃ lru, binv (bs S1) [] lru) → (∀ b, dirty (bs S1) b ↔ b ∈ blocks) →
  wrote (bs S0) (bs S1) (log_part S0 blocks ++ [(start, commit_header S0 blocks)]) →
  blocks !! k = Some b → bview (bs S1) (slot S0 k) = bview (bs S0) b.
Proof using L.
  intros [lru' I] Hd Hw Hk.
  assert (slot S0 k ∈ (log_part S0 blocks).*1) as Hin.
  { apply list_elem_of_fmap. eexists. split; [|by apply log_part_in]. done. }
  apply log_part_fst in Hin. rewrite (clean_view _ [] lru'); [|done| |set_solver].
  - rewrite (wrote_disk_at _ _ _ _ Hw). apply dk_replay_in; [|apply elem_of_app; left; by apply log_part_in].
    rewrite fmap_app. apply NoDup_app. split_and!; [apply log_part_NoDup| |apply NoDup_singleton].
    intros c Hc%log_part_fst. simpl. rewrite list_elem_of_singleton. lia.
  - rewrite Hd. intros (_ & _ & Ho)%(li_out _ _ _ _ L). lia.
Qed.

Lemma commit_spec :
  (length blocks < NBUF)%nat → blocks ≠ [] →
  wp commit (λ _ S, (∃ lru', log_inv S [] lru' []) ∧ lg S = set_l_n 0 (lg S0) ∧
    wrote (bs S0) (bs S) (commit_writes S0 blocks)) S0.
Proof using L.
  intros Hsmall Hne. destruct L as [I0 Hdev Hst Hend Hn Hlen Hblk Hfit Hnd Hout Hdirty [Hhl Hhn]].
  unfold commit. apply wp_bind, wp_gets. rewrite Hn.
  destruct (Z.ltb_spec 0 (Z.of_nat (length blocks))); [|destruct blocks; simpl in *; [done|lia]]. simpl when.
  assert (∀ b, b ∈ blocks → 0 ≤ b < disksize (bs S0) ∧ (b < start ∨ start + l_size (lg S0) ≤ b)) as Hout'
    by (intros b Hb; by apply Hout).
  assert (start ∉ blocks) as Hstart by (intros (_ & ? & ?)%Hout; lia).
  apply wp_bind. wcall (write_log_spec S0 blocks Hdev Hst Hn Hblk Hfit Hend Hout' lru I0 Hdirty Hsmall).
  intros [] S1 (El1 & [lru1 I1] & Hw1 & Hv1 & Hd1). pose proof (wr_size _ _ _ Hw1) as Z1.
  fold (log_part S0 blocks) in Hw1.
  assert (disk_at (bs S1) start = disk_at (bs S0) start) as Hd1s.
  { rewrite (wrote_disk_at _ _ _ _ Hw1), dk_replay_other; [done|]. intros ?%log_part_fst. lia. }
  apply wp_bind. wcall (write_head_spec S1 lru1 blocks blocks I1); rewrite ?El1, ?Z1; try done.
  { intros b Hb. by apply Hd1. }
  { pose proof (Zle_0_nat (length blocks)). lia. }
  { by rewrite Hd1. }
  rewrite Hd1s. fold (commit_header S0 blocks).
  intros [] S2 (El2 & [lru2 I2] & Hw2 & Hv2 & Hd2). pose proof (wr_size _ _ _ Hw2) as Z2.
  pose proof (wrote_trans _ _ _ _ _ Hw1 Hw2) as Hw12.
  assert (∀ b, dirty (bs S2) b ↔ b ∈ blocks) as Hdirty2 by (intros b; by rewrite Hd2, Hd1).
  assert (Hslot : ∀ k, slot S2 k = slot S0 k) by (intros k; unfold slot; by rewrite El2).
  apply wp_bind. wcall (install_trans_spec S2 blocks ltac:(by rewrite El2) ltac:(by rewrite El2) ltac:(by rewrite El2)
    ltac:(by rewrite El2) ltac:(by rewrite El2) ltac:(by rewrite El2, Z2, Z1) Hnd
    ltac:(by rewrite El2, Z2, Z1) lru2 blocks I2); try done.
  { intros b Hb. by apply Hdirty2. }
  { intros k Hk. rewrite Hdirty2, Hslot. unfold slot. intros (_ & ?)%Hout'. lia. }
  { left. intros b Hb. by apply Hdirty2. }
  intros [] S3 (El3 & [lru3 I3] & Hw3 & Hv3 & Hd3). pose proof (wr_size _ _ _ Hw3) as Z3.
  assert (imap (λ k b, (b, bview (bs S2) (slot S2 k))) blocks = home_part S0 blocks) as Eh.
  { unfold home_part. rewrite <-imap_const. apply imap_ext. intros k b Hk. simpl. f_equal. rewrite Hslot.
    apply (slots_logged S2); try done. by exists lru2. }
  rewrite Eh in Hw3. rewrite El2 in El3.
  assert (∀ b, ¬ dirty (bs S3) b) as Hclean3 by (intros b [?%Hdirty2 ?]%Hd3; done).
  assert (disk_at (bs S3) start = commit_header S0 blocks) as Hd3s.
  { rewrite (wrote_disk_at _ _ _ _ Hw3). rewrite dk_replay_other by (by rewrite home_part_fst).
    change (dk (disk (bs S2)) start) with (disk_at (bs S2) start). rewrite (wrote_disk_at _ _ _ _ Hw2).
    unfold dk, replay. simpl. by rewrite lookup_insert_eq. }
  apply wp_bind, wp_modify. set (S3' := upd_lg (set_l_n 0) S3).
  assert (lg S3' = set_l_n 0 (lg S0)) as El3' by (unfold S3'; simpl; by rewrite El3).
  wcall (write_head_spec S3' lru3 [] []); rewrite ?El3'; change (bs S3') with (bs S3); rewrite ?Z3, ?Z2, ?Z1; try done.
  { by intros b ?%Hclean3. }
  { unfold NBUF. simpl. lia. }
  { simpl. lia. }
  cbn [l_start set_l_n]. rewrite Hd3s. intros [] S4 (El4 & [lru4 I4] & Hw4 & Hv4 & Hd4).
  assert (length (commit_header S0 blocks) = BSIZE) as Hlh by by apply header_length.
  assert (disk_at (bs S4) start = header (commit_header S0 blocks) []) as Hd4s.
  { rewrite (wrote_disk_at _ _ _ _ Hw4). unfold dk, replay. simpl. by rewrite lookup_insert_eq. }
  split_and!; [|done|].
  - exists lru4. split; rewrite ?El4; simpl; rewrite ?(wr_size _ _ _ Hw4), ?Z3, ?Z2, ?Z1, ?Hd4s; try done.
    + lia.
    + constructor.
    + set_solver.
    + intros b. rewrite Hd4. split; [intros ?%Hclean3; done|set_solver].
    + split; [by apply header_length|]. apply (header_n _ []); [done|simpl; unfold LOGSIZE; lia].
  - pose proof (wrote_trans _ _ _ _ _ Hw12 (wrote_trans _ _ _ _ _ Hw3 Hw4)) as Hw. rewrite <-app_assoc in Hw. exact Hw.
Qed.
End commit.

(** *** A crash in the middle of a commit *)

(** The machine restarted after the first [k] writes of [W]: the cache is
    empty of dirty blocks and the disk has just those writes. *)
Record rebooted (S : lstate) (W : list (Z * block)) (k : nat) (R : lstate) : Prop := {
  rb_cache : ∃ lru, binv (bs R) [] lru;
  rb_clean : ∀ b, ¬ dirty (bs R) b;
  rb_disk : disk (bs R) = replay (take k W) (disk (bs S));
  rb_size : disksize (bs R) = disksize (bs S);
  rb_block : length (l_block (lg R)) = LOGSIZE
}.

Section crash.
  Context (S0 : lstate) (lru : list nat) (blocks : list Z).
  Context (L : log_inv S0 [] lru blocks).
  Local Abbreviation start := (l_start (lg S0)).
  Local Abbreviation n := (length blocks).

Lemma length_log_part : length (log_part S0 blocks) = n.
Proof using. apply length_imap. Qed.

Lemma home_clean b : b ∉ blocks → bview (bs S0) b = disk_at (bs S0) b.
Proof using L.
  intros Hb. apply (clean_view _ [] lru); [apply L|by rewrite (li_dirty _ _ _ _ L)|set_solver].
Qed.

Lemma home_not_log b : home (lg S0) b → b ∉ (log_part S0 blocks).*1 ∧ b ≠ start.
Proof using L.
  intros Hb. pose proof (li_fit _ _ _ _ L). unfold home in Hb. split; [|lia].
  intros ?%(log_part_fst S0 lru blocks L). lia.
Qed.

Lemma blocks_home b : b ∈ blocks → home (lg S0) b ∧ b ≠ start ∧ b ∉ (log_part S0 blocks).*1.
Proof using L.
  intros Hb. assert (home (lg S0) b) as Hh by by destruct (li_out _ _ _ _ L b Hb) as (_ & _ & ?).
  destruct (home_not_log b Hh). done.
Qed.

(** Home blocks after all of the home writes. *)
Lemma home_written d w b :
  (∀ c, c ∉ blocks → home (lg S0) c → dk d c = disk_at (bs S0) c) → home (lg S0) b → b ∉ w.*1 → dk (replay (home_part S0 blocks ++ w) d) b = bview (bs S0) b.
Proof using L.
  intros Hd Hb Hw. destruct (decide (b ∈ blocks)) as [Hin|Hin].
  - unfold replay. rewrite foldl_app. fold (replay (home_part S0 blocks) d).
    change (dk (replay w (replay (home_part S0 blocks) d)) b = bview (bs S0) b).
    rewrite dk_replay_other by done. apply dk_replay_in; [rewrite home_part_fst; apply L|].
    unfold home_part. apply list_elem_of_fmap. by exists b.
  - rewrite dk_replay_other, Hd, home_clean by (try done; rewrite ?fmap_app, ?home_part_fst; set_solver). done.
Qed.

(** The three stages of the disk. *)
Lemma take_commit k :
  (k ≤ n)%nat ∧ take k (commit_writes S0 blocks) = take k (log_part S0 blocks) ∨
  (∃ j, (k = n + 1 + j)%nat ∧ (j ≤ n)%nat ∧ take k (commit_writes S0 blocks) =
     log_part S0 blocks ++ (start, commit_header S0 blocks) :: take j (home_part S0 blocks)) ∨
  (n < k)%nat ∧ take k (commit_writes S0 blocks) = commit_writes S0 blocks.
Proof using.
  unfold commit_writes. rewrite take_app, length_log_part.
  destruct (decide (k ≤ n)%nat) as [Hk|Hk].
  { left. replace (k - n)%nat with 0%nat by lia. simpl. by rewrite app_nil_r. }
  rewrite (firstn_all2 (log_part S0 blocks)) by (rewrite length_log_part; lia). right.
  destruct (k - n)%nat as [|j] eqn:Hj; [lia|]. cbn [take]. rewrite take_app.
  assert (length (home_part S0 blocks) = n) as Hlh by apply length_fmap. rewrite Hlh.
  destruct (decide (j ≤ n)%nat) as [Hk'|Hk'].
  - left. exists j. split; [lia|]. split; [done|]. replace (j - n)%nat with 0%nat by lia. simpl. by rewrite app_nil_r.
  - right. split; [lia|]. rewrite (firstn_all2 (home_part S0 blocks)) by lia. rewrite firstn_all2 by (simpl; lia). done.
Qed.

Lemma take_fst_sub j : (take j (home_part S0 blocks)).*1 ⊆ blocks.
Proof using.
  rewrite fmap_take, home_part_fst. intros b (i & Hi & _)%elem_of_take. by eapply list_elem_of_lookup_2.
Qed.

(** Recovery of a disk whose header says nothing is committed. *)
Lemma recover_none R W k (d := disk_at (bs R) start) :
  rebooted S0 W k R → length d = BSIZE → s32 (ld32 d HN) = 0 →
  wp (initlog 1 start (l_size (lg S0))) (λ _ R', (∃ lru', log_inv R' [] lru' []) ∧
    ∀ b, home (lg S0) b → disk_at (bs R') b = disk_at (bs R) b) R.
Proof using L.
  intros [[lruR IR] Hcl Hdk Hsz Hlb] Hl Hn. pose proof (li_fit _ _ _ _ L).
  wcall (initlog_spec R lruR start (l_size (lg S0)) [] IR Hcl Hlb); try done.
  - apply L.
  - rewrite Hsz. apply L.
  - simpl. lia.
  - unfold LOGSIZE. simpl. lia.
  - constructor.
  - set_solver.
  - intros [] R' (HI & _ & Hw). split; [done|]. intros b [_ Hb]%home_not_log.
    rewrite (wrote_disk_at _ _ _ _ Hw), dk_replay_other; [done|]. simpl. set_solver.
Qed.

(** Recovery of a disk with the committed header. *)
Lemma recover_committed R W k :
  rebooted S0 W k R → disk_at (bs R) start = commit_header S0 blocks →
  (∀ j b, blocks !! j = Some b → disk_at (bs R) (slot S0 j) = bview (bs S0) b) →
  (∀ b, b ∉ blocks → home (lg S0) b → disk_at (bs R) b = disk_at (bs S0) b) →
  wp (initlog 1 start (l_size (lg S0))) (λ _ R', (∃ lru', log_inv R' [] lru' []) ∧
    ∀ b, home (lg S0) b → disk_at (bs R') b = bview (bs S0) b) R.
Proof using L.
  intros [[lruR IR] Hcl Hdk Hsz Hlb] Hh Hs Ho. pose proof (li_cap _ _ _ _ L) as Hcap. pose proof (li_fit _ _ _ _ L). destruct (li_header _ _ _ _ L) as [Hhl _].
  wcall (initlog_spec R lruR start (l_size (lg S0)) blocks IR Hcl Hlb); try done.
  - apply L.
  - rewrite Hsz. apply L.
  - apply L.
  - rewrite Hsz. intros b Hb. by apply (li_out _ _ _ _ L).
  - rewrite Hh. by apply header_length.
  - rewrite Hh. by apply header_n.
  - rewrite Hh. intros j b Hj. apply header_block; [done|done|done|].
    apply (li_out _ _ _ _ L). by eapply list_elem_of_lookup_2.
  - intros [] R' (HI & _ & Hw). split; [done|]. intros b Hb. destruct (home_not_log b Hb) as [_ Hbs].
    assert (imap (λ j c, (c, disk_at (bs R) (start + Z.of_nat j + 1))) blocks = home_part S0 blocks) as Eh.
    { unfold home_part. rewrite <-imap_const. apply imap_ext. intros j c Hj. simpl. f_equal. by apply Hs. }
    rewrite Eh in Hw. rewrite (wrote_disk_at _ _ _ _ Hw). apply home_written; [exact Ho|done|]. simpl. set_solver.
Qed.

Lemma commit_crash k R :
  rebooted S0 (commit_writes S0 blocks) k R →
  wp (initlog 1 start (l_size (lg S0))) (λ _ R', (∃ lru', log_inv R' [] lru' []) ∧
    ∀ b, home (lg S0) b → disk_at (bs R') b = if decide (k ≤ n)%nat then disk_at (bs S0) b else bview (bs S0) b) R.
Proof using L.
  intros HR. pose proof (rb_disk _ _ _ _ HR) as Hd. destruct (li_header _ _ _ _ L) as [Hhl Hhn].
  assert (∀ b, disk_at (bs R) b = dk (replay (take k (commit_writes S0 blocks)) (disk (bs S0))) b) as HdR
    by (intros b; unfold disk_at; by rewrite Hd).
  assert (start ∉ blocks) as Hsb by (intros (_ & ? & _)%blocks_home; done).
  assert (start ∉ (log_part S0 blocks).*1) as Hsl by (intros ?%(log_part_fst S0 lru blocks L); lia).
  destruct (take_commit k) as [[Hk E]|[(j & Hk & Hj & E)|[Hk E]]]; rewrite E in HdR.
  - assert (∀ b, b ∉ (log_part S0 blocks).*1 → disk_at (bs R) b = disk_at (bs S0) b) as Hb.
    { intros b Hb. rewrite HdR, dk_replay_other; [done|]. rewrite fmap_take.
      intros (i & Hi & _)%elem_of_take. apply Hb. by eapply list_elem_of_lookup_2. }
    eapply wp_mono; [apply (recover_none R _ k HR); by rewrite Hb|].
    intros [] R' [HI HR']. split; [done|]. intros b Hh. rewrite HR', decide_True by done. apply Hb. by apply home_not_log.
  - eapply wp_mono; [apply (recover_committed R _ k HR)|].
    + rewrite HdR. unfold dk. rewrite replay_last; [done|]. intros ?%take_fst_sub. done.
    + intros i b Hi. rewrite HdR, replay_app. pose proof (log_part_in S0 blocks i b Hi) as Hin.
      assert (slot S0 i ∈ (log_part S0 blocks).*1) as Hin'.
      { apply list_elem_of_fmap. by exists (slot S0 i, bview (bs S0) b). }
      rewrite dk_replay_other; [by apply dk_replay_in; [eapply log_part_NoDup|]|].
      rewrite fmap_cons. apply not_elem_of_cons. split; [intros Es; by rewrite Es in Hin'|].
      intros (_ & _ & ?)%take_fst_sub%blocks_home. done.
    + intros b Hb Hh. destruct (home_not_log b Hh). rewrite HdR, dk_replay_other; [done|].
      rewrite fmap_app, fmap_cons, elem_of_app, elem_of_cons. simpl. intros [?|[?|?%take_fst_sub]]; done.
    + intros [] R' [HI HR']. split; [done|]. intros b Hh. rewrite HR', decide_False by (done || lia). done.
  - assert (disk_at (bs R) start = header (commit_header S0 blocks) []) as Hst.
    { rewrite HdR. unfold commit_writes, dk. rewrite app_comm_cons, app_assoc, replay_last; [done|]. set_solver. }
    assert (length (commit_header S0 blocks) = BSIZE) as Hlh by by apply header_length.
    eapply wp_mono; [apply (recover_none R _ k HR); rewrite Hst; [by apply header_length|]|].
    { apply (header_n _ []); [done|simpl; unfold LOGSIZE; lia]. }
    intros [] R' [HI HR']. split; [done|]. intros b Hh. rewrite HR', decide_False by (done || lia).
    destruct (home_not_log b Hh) as [Hb Hbs]. rewrite HdR. unfold commit_writes.
    rewrite replay_app. change (?x :: ?l ++ ?l') with ([x] ++ (l ++ l')). rewrite replay_app.
    apply home_written; [|done|simpl; set_solver]. intros c Hc Hhc. destruct (home_not_log c Hhc).
    by rewrite dk_replay_other, dk_replay_other by (simpl; set_solver).
Qed.
End crash.

(** *** [end_op] *)

Lemma end_op_spec S lru blocks :
  log_inv S [] lru blocks → (length blocks < NBUF)%nat → l_outstanding (lg S) = 1 → l_committing (lg S) = 0 →
  wp end_op (λ _ S', (∃ lru', log_inv S' [] lru' []) ∧ l_outstanding (lg S') = 0 ∧ l_committing (lg S') = 0 ∧
    wrote (bs S) (bs S') (if decide (blocks = []) then [] else commit_writes S blocks)) S.
Proof.
  intros L Hs Ho Hc. unfold end_op. apply wp_bind, wp_gets, wp_bind, wp_modify. rewrite Hc, Ho. simpl.
  apply wp_bind, wp_modify. set (S1 := upd_lg (set_l_committing 1) _).
  assert (log_inv S1 [] lru blocks) as L1 by (destruct L; by split).
  apply wp_bind. case_decide as Hb.
  - subst blocks. unfold commit. apply wp_bind, wp_gets. rewrite (li_n _ _ _ _ L1). simpl. apply wp_modify.
    split_and!; [exists lru|done..|apply wrote_refl]. destruct L1; by split.
  - wcall (commit_spec S1 lru blocks L1 Hs Hb). intros [] S2 ([lru2 L2] & El & Hw). apply wp_modify.
    split_and!; [exists lru2; destruct L2; by split| |done|exact Hw]. simpl. by rewrite El.
Qed.

(** The machine after power was lost with the first [k] writes of [W] done:
    memory is zeroed, the disk keeps its contents. *)
Definition log0 : logst := mkLog 0 0 0 0 0 0 (replicate LOGSIZE 0).
Definition crashed (S : lstate) (W : list (Z * block)) (k : nat) : lstate :=
  mkL (mkB ∅ ∅ (replay (take k W) (disk (bs S))) (disksize (bs S)) [] (me_pid (bs S)) (me_tid (bs S))) log0.
(** The part of the boot sequence that concerns the disk. *)
Definition reboot (start size : Z) : LM unit := on_b binit;; initlog 1 start size.

Lemma boot_clean s : boot_bufs s → ∀ b, ¬ dirty s b.
Proof. intros Hb b (i & Hi & Hd & _). rewrite (Hb i Hi) in Hd. done. Qed.

Lemma crashed_rebooted S W k Q :
  (∀ R, rebooted S W k R → wp (initlog 1 (l_start (lg S)) (l_size (lg S))) Q R) →
  wp (reboot (l_start (lg S)) (l_size (lg S))) Q (crashed S W k).
Proof.
  intros HQ. unfold reboot. apply wp_bind, wp_zoom. wcall binit_spec; [done|].
  intros [] s (I & Hb & D & T & Z). apply HQ. split; try done.
  - by eexists.
  - by apply boot_clean.
Qed.

(** *** [log_write] *)

Definition absorb (blocks : list Z) (b : Z) : list Z := if decide (b ∈ blocks) then blocks else blocks ++ [b].

Section log_write.
  Context (S : lstate) (H lru : list nat) (blocks : list Z).
  Context (L : log_inv S H lru blocks).

Lemma find_logged b :
  wp (loop (Datatypes.S LOGSIZE) (λ i,
        if Z.ltb (Z.of_nat i) (l_n (lg S)) then
          v ← ld_block i;
          if Z.eqb v b then mret (inr i) else mret (inl (Datatypes.S i))
        else mret (inr i)) 0%nat)
     (λ i S', S' = S ∧ (blocks !! i = Some b ∨ i = length blocks ∧ b ∉ blocks)) S.
Proof using L.
  apply (wp_loop (λ m a S', S' = S ∧ (a + m = length blocks)%nat ∧ b ∉ take a blocks)) with (n := length blocks).
  - intros m a S' (-> & Hm & Ha). rewrite (li_n _ _ _ _ L). destruct (Z.ltb_spec (Z.of_nat a) (Z.of_nat (length blocks))).
    + destruct (lookup_lt_is_Some_2 blocks a ltac:(lia)) as [v Hv]. apply wp_bind.
      eapply wp_eq; [by apply ld_block_run, (li_block _ _ _ _ L)|]. destruct (Z.eqb_spec v b) as [->|Hne].
      * apply wp_ret. by split; [|left].
      * apply wp_ret. exists (m - 1)%nat. split; [lia|]. split; [done|]. split; [lia|].
        rewrite (take_S_r _ _ _ Hv). set_solver.
    + apply wp_ret. split; [done|]. right. rewrite firstn_all2 in Ha by lia. split; [lia|done].
  - pose proof (li_cap _ _ _ _ L). lia.
  - split; [done|]. split; [lia|]. simpl. set_solver.
Qed.

(** The block is recorded once and its buffer pinned. *)
Lemma log_write_spec i (b := b_blockno (bf (bs S) i)) :
  i ∈ H → (length blocks < LOGSIZE)%nat → Z.of_nat (length blocks) < l_size (lg S) - 1 →
  1 ≤ l_outstanding (lg S) → is_s32 b → home (lg S) b →
  wp (log_write i) (λ _ S', log_inv S' H lru (absorb blocks b) ∧
    bs S' = put_buf i (set_b_flags 6 (bf (bs S) i)) (bs S) ∧
    l_outstanding (lg S') = l_outstanding (lg S) ∧ l_size (lg S') = l_size (lg S) ∧
    l_start (lg S') = l_start (lg S) ∧ l_committing (lg S') = l_committing (lg S) ∧
    ∀ c, bview (bs S') c = bview (bs S) c) S.
Proof using L.
  intros HiH Hcap Hsz Ho Hb32 Hhome. pose proof L as [I0 Hdev Hst Hend Hn Hlen Hblk Hfit Hnd Hout Hdirty Hhd].
  destruct (bi_H _ _ _ I0) as [_ HH]. destruct (HH i HiH) as [Hi Hd].
  destruct (bi_flags _ _ _ I0 i Hi) as [(_ & Hfl & Hbr)|[? _]]; [|congruence]. fold b in Hbr.
  unfold log_write. apply wp_bind, wp_gets. rewrite Hn.
  destruct (Z.leb_spec (Z.of_nat LOGSIZE) (Z.of_nat (length blocks))); [lia|].
  destruct (Z.leb_spec (l_size (lg S) - 1) (Z.of_nat (length blocks))); [lia|]. cbn [orb].
  destruct (Z.ltb_spec (l_outstanding (lg S)) 1); [lia|]. apply wp_bind, wp_zoom, wp_gets. fold b.
  rewrite <-Hn. apply wp_bind. replace (set_bs (bs S) S) with S by by destruct S.
  wcall (find_logged b). intros k S' [-> Hk].
  assert (k < LOGSIZE)%nat as Hk30.
  { pose proof (li_cap _ _ _ _ L). destruct Hk as [?%lookup_lt_Some|[-> _]]; lia. }
  apply wp_bind. unfold st_block. apply wp_bind, wp_gets. rewrite Hlen. destruct (Nat.ltb_spec k LOGSIZE); [|lia].
  apply wp_modify. set (S1 := upd_lg _ S). apply wp_bind.
  destruct (binv_put_held (bs S) H lru i (set_b_flags 6 (bf (bs S) i)) I0 HiH) as (I1 & Hv1 & Hv2); try done; [by right|].
  fold b in Hv1, Hv2.
  assert (∀ c, bview (put_buf i (set_b_flags 6 (bf (bs S) i)) (bs S)) c = bview (bs S) c) as Hv.
  { intros c. destruct (decide (c = b)) as [->|Hne]; [|by apply Hv1].
    rewrite Hv2. symmetry. by apply (bview_held _ H lru i b I0 HiH). }
  assert (∀ c, dirty (put_buf i (set_b_flags 6 (bf (bs S) i)) (bs S)) c ↔ c = b ∨ c ∈ blocks) as Hdy.
  { intros c. rewrite <-Hdirty. unfold dirty. setoid_rewrite bf_put. split.
    - intros (j & Hj & Hx). case_decide; [left|right; by exists j]. subst j. by destruct Hx as (_ & <- & _).
    - intros [-> |(j & Hj & Hx)].
      + exists i. split; [done|]. rewrite decide_True by done. done.
      + exists j. split; [done|]. case_decide; [subst j; by destruct Hx as (? & ? & _)|done]. }
  assert (∀ j c, absorb blocks b !! j = Some c → <[k := b]> (l_block (lg S)) !! j = Some c) as Hblk'.
  { intros j c Hj. unfold absorb in Hj. destruct Hk as [Hkb|[-> Hkb]].
    - rewrite decide_True in Hj by by eapply list_elem_of_lookup_2.
      destruct (decide (j = k)) as [->|]; [rewrite list_lookup_insert_eq by lia; congruence|].
      rewrite list_lookup_insert_ne by done. by apply Hblk.
    - rewrite decide_False in Hj by done. apply lookup_snoc_Some in Hj as [[? Hj]|[-> <-]].
      + rewrite list_lookup_insert_ne by lia. by apply Hblk.
      + by rewrite list_lookup_insert_eq by lia. }
  set (l2 := set_l_n (Z.of_nat (length (absorb blocks b))) (lg S1)).
  assert (∀ Q : unit → lstate → Prop, Q tt (set_lg l2 S1) →
    wp (when (Z.of_nat k =? l_n (lg S)) (modify (upd_lg (set_l_n (l_n (lg S) + 1))))) Q S1) as Hwhen.
  { intros Q HQ. rewrite Hn. unfold l2, absorb in HQ. destruct Hk as [Hkb|[-> Hkb]].
    - rewrite decide_True in HQ by by eapply list_elem_of_lookup_2. apply lookup_lt_Some in Hkb.
      destruct (Z.eqb_spec (Z.of_nat k) (Z.of_nat (length blocks))); [lia|]. apply wp_ret.
      enough (set_lg (set_l_n (Z.of_nat (length blocks)) (lg S1)) S1 = S1) as <- by done.
      unfold S1, upd_lg, set_lg. simpl. rewrite <-Hn. by destruct S as [? []].
    - rewrite decide_False in HQ by done. rewrite Z.eqb_refl. apply wp_modify.
      rewrite length_app, Nat2Z.inj_add in HQ. exact HQ. }
  apply Hwhen. apply wp_zoom, wp_modify.
  assert (upd_buf i (λ b0, set_b_flags (Z.lor (b_flags b0) B_DIRTY) b0) (bs S) = put_buf i (set_b_flags 6 (bf (bs S) i)) (bs S)) as Eu.
  { rewrite upd_buf_put. do 2 f_equal. by destruct Hfl as [-> | ->]. }
  change (bs (set_lg l2 S1)) with (bs S). rewrite Eu. split_and!; try done.
  split; simpl; rewrite ?length_insert; try done.
  - unfold absorb. case_decide; [done|]. rewrite length_app. simpl. lia.
  - unfold absorb. case_decide; [done|]. apply NoDup_app. split_and!; [done|set_solver|apply NoDup_singleton].
  - unfold absorb. intros c. case_decide; [by apply Hout|]. rewrite elem_of_app, list_elem_of_singleton.
    intros [?| ->]; [by apply Hout|]. split; [done|]. split; [|done]. lia.
  - intros c. rewrite Hdy. unfold absorb. case_decide; [|set_solver]. set_solver.
Qed.
End log_write.

Close Scope Z_scope.
