(* ===== verification/LogTheorems.v ===== *)
(** * Crash safety of the file system's log

    The properties of [src/xv6-public/bio.c] and [log.c]: the cache hands out
    the current contents of a block, transactions are collected without
    duplicates, a commit is atomic at every crash point, and the space that
    [begin_op] reserves. *)

From S2P Require Import Prelude.
From S2P Require Import ListH.
From S2P Require Import Words.
From S2P Require Import Bio.
From S2P Require Import Log.

Open Scope Z_scope.

(** ** A concrete run *)

Definition boot : lstate := mkL (mkB ∅ ∅ ∅ 1000 [] 1 1) log0.

Definition sevens : block := replicate BSIZE 7.

(** One system call that changes block 40, up to its [end_op]. *)
Definition one_op (size : Z) : LM unit :=
  reboot 2 size;;
  begin_op;;
  i ← on_b (bread 1 40);
  on_b (wb i (set_b_data sevens));;
  log_write i;;
  on_b (brelse i).

Lemma boot_log size :
  30 ≤ size ≤ 32 → wp (reboot 2 size) (λ _ S, ∃ lru, log_inv S [] lru [] ∧ l_start (lg S) = 2 ∧ l_size (lg S) = size ∧
    disksize (bs S) = 1000 ∧ l_outstanding (lg S) = 0 ∧ l_committing (lg S) = 0) boot.
Proof.
  intros Hsize. unfold reboot. apply wp_bind, wp_zoom. wcall binit_spec; [done|]. intros [] s (I & Hb & D & T & Z).
  wcall (initlog_spec (set_bs s boot) _ 2 size [] I (boot_clean s Hb)); rewrite ?Z; try done.
  all: try (simpl; unfold disk_at; by rewrite D).
  all: try (simpl; rewrite ?Z; simpl; unfold LOGSIZE; lia).
  all: try (apply NoDup_nil_2 || by intros b ?%elem_of_nil).
  - intros [] S ([lru L] & [bl El] & Hw). exists lru. rewrite El. split_and!; try done.
    by rewrite (wr_size _ _ _ Hw).
Qed.

Lemma one_op_runs size :
  30 ≤ size ≤ 32 → wp (one_op size) (λ _ S, ∃ lru, log_inv S [] lru [40] ∧ l_outstanding (lg S) = 1 ∧ l_start (lg S) = 2 ∧
    l_size (lg S) = size ∧ disksize (bs S) = 1000 ∧ l_committing (lg S) = 0 ∧ bview (bs S) 40 = sevens) boot.
Proof.
  intros Hsize. unfold one_op. apply wp_bind. wcall (boot_log size Hsize). intros [] S1 (lru & L1 & Es & Ez & Ed & Eo & Ec).
  apply wp_bind. unfold begin_op. apply wp_bind, wp_gets. rewrite Ec, Eo, (li_n _ _ _ _ L1). simpl.
  apply wp_bind, wp_modify, wp_ret. set (S2 := upd_lg _ S1).
  assert (log_inv S2 [] lru []) as L2 by (destruct L1; by split).
  apply wp_bind, wp_zoom. wcall (bread_spec (bs S2) [] lru 40 (li_cache _ _ _ _ L2)).
  - simpl. lia.
  - set_solver.
  - right. apply (room _ [] lru []); [apply L2| |simpl; unfold NBUF; lia]. intros b Hb. by apply (li_dirty _ _ _ _ L2).
  - intros i s3 (Hi & _ & I3 & [G1 G2 G3 G4 G5 G6]). apply wp_bind, wp_zoom, wp_modify. rewrite upd_buf_put.
    change (bs (set_bs s3 S2)) with s3.
    assert (b_dev (bf s3 i) = 1 ∧ b_flags (bf s3 i) = 2) as [Ev Ef].
    { destruct (bi_flags _ _ _ I3 i Hi) as [(Ev & [Ef|Ef] & _)|[Ev _]]; [done| |].
      - apply G3, (li_dirty _ _ _ _ L2) in Ef. set_solver.
      - destruct (bi_H _ _ _ I3) as [_ HH]. destruct (HH i ltac:(set_solver)). congruence. }
    destruct (binv_put_held s3 [i] lru i (set_b_data sevens (bf s3 i)) I3 ltac:(set_solver)) as (I4 & V4 & V4'); try done; [by left|].
    rewrite G1 in V4, V4'. set (s4 := put_buf i _ s3) in *.
    assert (disksize s3 = 1000 ∧ disk s3 = disk (bs S2)) as [Z3 D3] by (rewrite G4; done).
    assert (∀ b, dirty s4 b ↔ dirty s3 b) as Hd4.
    { intros b. unfold dirty, s4. setoid_rewrite bf_put. split; intros (j & Hj & Hx); exists j; (split; [done|]);
        case_decide; subst; simpl in *; done. }
    assert (log_inv (set_bs s4 S2) [i] lru []) as L4.
    { destruct L2. split; try done; simpl in *.
      - by rewrite Z3, <-Ed.
      - set_solver.
      - intros b. rewrite Hd4, G6. apply li_dirty.
      - unfold disk_at in *. simpl in *. rewrite D3. done. }
    assert (bf s4 i = set_b_data sevens (bf s3 i)) as Eb4 by (unfold s4; by rewrite bf_put, decide_True).
    apply wp_bind. wcall (log_write_spec (set_bs s4 S2) [i] lru [] L4 i).
    + set_solver.
    + unfold LOGSIZE. simpl. lia.
    + simpl. rewrite Ez. lia.
    + simpl. lia.
    + simpl. rewrite Eb4; simpl; rewrite G1. unfold is_s32. simpl. lia.
    + right. simpl. rewrite Eb4, Es, Ez; simpl; rewrite G1. lia.
    + simpl bs. simpl lg. rewrite Eb4. cbn [b_blockno set_b_data]. rewrite G1. intros [] S5 (L5 & E5 & O5 & Z5 & T5 & C5 & V5).
      change (absorb [] 40) with [40] in L5. apply wp_zoom.
      wcall (brelse_spec (bs S5) [] i [] lru (li_cache _ _ _ _ L5)).
      { left. rewrite E5, bf_put, decide_True by done. done. }
      intros [] s6 (lru6 & I6 & D6 & T6 & Z6 & _ & V6 & Y6). exists lru6. split_and!.
      * destruct L5. split; simpl; try done; rewrite ?Z6; try done.
        -- intros b. by rewrite Y6.
        -- unfold disk_at in *. by rewrite D6.
      * simpl. rewrite O5. done.
      * simpl. by rewrite T5.
      * simpl. by rewrite Z5.
      * simpl. by rewrite Z6, E5.
      * simpl. by rewrite C5.
      * simpl. by rewrite V6, V5, V4'.
Qed.

(** Fetching block 40 again. *)
Lemma reread S lru :
  log_inv S [] lru [40] → disksize (bs S) = 1000 →
  wp (on_b (bread 1 40)) (λ i S', ∃ s', S' = set_bs s' S ∧ log_inv S' [i] lru [40] ∧ b_blockno (bf s' i) = 40) S.
Proof.
  intros L Ed. apply wp_zoom. wcall (bread_spec (bs S) [] lru 40 (li_cache _ _ _ _ L)).
  - rewrite Ed. lia.
  - set_solver.
  - left. apply (dirty_cached _ [] lru); [apply L|]. apply (li_dirty _ _ _ _ L). set_solver.
  - intros i s' (Hi & _ & I' & [G1 G2 G3 G4 G5 G6]). exists s'. split; [done|]. split; [|done]. destruct L.
    assert (disksize s' = disksize (bs S) ∧ disk s' = disk (bs S)) as [Z' D'] by (rewrite G4; done).
    split; simpl; rewrite ?Z'; try done.
    + intros b. by rewrite G6.
    + unfold disk_at in *. by rewrite D'.
Qed.

(** ** The buffer cache *)

(** [bread] hands the caller the current contents of a block, whether
    it was cached or had to be fetched into a recycled buffer, locked and
    referenced once; recycling a buffer loses nothing: every other block
    reads as before and no dirty block is evicted. *)
Theorem bread_returns_current s H lru b :
  binv s H lru → 0 ≤ b < disksize s → (∀ i, i ∈ H → b_blockno (bf s i) ≠ b) →
  (is_Some (cached s b) ∨ ∃ i, (i < NBUF)%nat ∧ i ∉ H ∧ b_flags (bf s i) ≠ 6) →
  wp (bread 1 b) (λ i s', i ∉ H ∧ binv s' (i :: H) lru ∧
    b_blockno (bf s' i) = b ∧ b_data (bf s' i) = bview s b ∧
    (∀ b', bview s' b' = bview s b') ∧ (∀ b', dirty s' b' ↔ dirty s b') ∧ disk s' = disk s) s.
Proof.
  intros I Hb HH Hr. wcall (bread_spec s H lru b I Hb HH Hr).
  intros i s' (_ & HiH & I' & [G1 G2 G3 G4 G5 G6]). split_and!; try done. by rewrite G4.
Qed.

Lemma bread_returns_current_witness :
  wp (on_b binit;; on_b (bread 1 40)) (λ i S, b_data (bf (bs S) i) = replicate BSIZE 0) boot.
Proof.
  apply wp_bind, wp_zoom. wcall binit_spec; [done|]. intros [] s (I & Hb & D & T & Z). apply wp_zoom.
  eapply wp_mono; [apply (bread_returns_current s [] _ 40 I)|].
  - simpl. rewrite Z. simpl. lia.
  - set_solver.
  - right. exists 0%nat. split; [unfold NBUF; lia|]. split; [set_solver|]. rewrite Hb by (unfold NBUF; lia). done.
  - intros i s' (_ & _ & _ & E & _). simpl. rewrite E, (clean_view s [] _ 40 I).
    + unfold disk_at. by rewrite D.
    + by apply boot_clean.
    + set_solver.
Defined.

(** ** Transactions *)

(** [log_write] records the block of a held buffer exactly once, however
    often it is logged, pins its buffer, and keeps the log well formed; it
    does not panic while the transaction has room. *)
Theorem log_write_absorbs S H lru blocks i (b := b_blockno (bf (bs S) i)) :
  log_inv S H lru blocks → i ∈ H → (length blocks < LOGSIZE)%nat →
  Z.of_nat (length blocks) < l_size (lg S) - 1 → 1 ≤ l_outstanding (lg S) → is_s32 b → home (lg S) b →
  wp (log_write i) (λ _ S',
    log_inv S' H lru (if decide (b ∈ blocks) then blocks else blocks ++ [b]) ∧
    dirty (bs S') b ∧ dtrace (bs S') = dtrace (bs S) ∧ ∀ c, bview (bs S') c = bview (bs S) c) S.
Proof.
  intros L HiH H1 H2 H3 H4 H5. wcall (log_write_spec S H lru blocks L i HiH); [done..|].
  intros [] S' (L' & E & _ & _ & _ & _ & V). split; [exact L'|]. split_and!; [|by rewrite E|done].
  apply (li_dirty _ _ _ _ L'). fold b. unfold absorb. case_decide; set_solver.
Qed.

(** Logging the same block again. *)
Lemma log_write_absorbs_witness :
  wp (one_op 30;; i ← on_b (bread 1 40); log_write i) (λ _ S, ∃ H lru, log_inv S H lru [40]) boot.
Proof.
  apply wp_bind. wcall (one_op_runs 30 ltac:(lia)). intros [] S (lru & L & Eo & Es & Ez & Ed & _).
  apply wp_bind. wcall (reread S lru L Ed). intros i S' (s' & -> & L' & Gb).
  wcall (log_write_absorbs (set_bs s' S) [i] lru [40] i L'); simpl; rewrite ?Gb, ?Eo, ?Ez, ?Es.
  - set_solver.
  - unfold LOGSIZE. simpl. lia.
  - lia.
  - lia.
  - unfold is_s32. lia.
  - unfold home. rewrite Es, Ez. lia.
  - intros [] S' [L'' _]. exists [i], lru. exact L''.
Defined.

(** C1: Ending the last operation of a transaction commits it atomically.
    [end_op] performs a definite sequence [W] of block writes; it leaves every
    block outside the log with its new contents on the disk.  If the machine
    stops after any prefix of [W], rebooting and running the recovery gives
    a disk on which either every block has its old contents or every block
    has its new contents, and from a certain write on it is the new ones. *)
Theorem end_op_crash_atomic S lru blocks :
  log_inv S [] lru blocks → (length blocks < NBUF)%nat → l_outstanding (lg S) = 1 → l_committing (lg S) = 0 →
  wp end_op (λ _ S', (∃ lru', log_inv S' [] lru' []) ∧ l_outstanding (lg S') = 0 ∧
    (∀ b, home (lg S) b → disk_at (bs S') b = bview (bs S) b) ∧
    ∃ W c, dtrace (bs S') = dtrace (bs S) ++ W ∧ (c ≤ length W)%nat ∧
      ∀ k, wp (reboot (l_start (lg S)) (l_size (lg S))) (λ _ R,
        (∃ lru', log_inv R [] lru' []) ∧
        ∀ b, home (lg S) b → disk_at (bs R) b = if decide (k < c)%nat then disk_at (bs S) b else bview (bs S) b)
        (crashed S W k)) S.
Proof.
  intros L Hs Ho Hc. wcall (end_op_spec S lru blocks L Hs Ho Hc).
  intros [] S' (HI & Ho' & _ & Hw). split; [done|]. split; [done|].
  destruct (decide (blocks = [])) as [->|Hne].
  - assert (∀ b, bview (bs S) b = disk_at (bs S) b) as Hv by (intros b; apply (home_clean S lru [] L); set_solver).
    split; [intros b _; rewrite (wrote_disk_at _ _ _ _ Hw); by rewrite Hv|].
    exists [], 0%nat. split; [apply Hw|]. split; [done|]. intros k. apply crashed_rebooted. intros R HR.
    pose proof (rb_disk _ _ _ _ HR) as Hd. rewrite take_nil in Hd. simpl in Hd.
    assert (∀ b, disk_at (bs R) b = disk_at (bs S) b) as Hda by (intros b; unfold disk_at; by rewrite Hd).
    destruct (li_header _ _ _ _ L) as [Hl Hn].
    eapply wp_mono; [apply (recover_none S lru [] L R [] k HR); by rewrite Hda|].
    intros [] R' [HI' HR']. split; [done|]. intros b Hb. by rewrite decide_False, HR', Hda, Hv by (done || lia).
  - split.
    + intros b Hb. destruct (home_not_log S lru blocks L b Hb) as [Hbl Hbs].
      rewrite (wrote_disk_at _ _ _ _ Hw). unfold commit_writes. rewrite replay_app.
      change (?x :: ?l ++ ?l') with ([x] ++ (l ++ l')). rewrite replay_app.
      apply (home_written S lru blocks L); [|done|simpl; set_solver].
      intros c Hc' Hh. destruct (home_not_log S lru blocks L c Hh).
      by rewrite dk_replay_other, dk_replay_other by (simpl; set_solver).
    + exists (commit_writes S blocks), (1 + length blocks)%nat. split; [apply Hw|]. split.
      * unfold commit_writes. rewrite length_app, length_log_part. simpl. lia.
      * intros k. apply crashed_rebooted. intros R HR.
        eapply wp_mono; [apply (commit_crash S lru blocks L k R HR)|].
        intros [] R' [HI' HR']. split; [done|]. intros b Hb. rewrite HR' by done.
        repeat case_decide; done || lia.
Qed.

Lemma end_op_crash_atomic_witness :
  wp (one_op 30;; end_op) (λ _ S, disk_at (bs S) 40 = sevens ∧ l_outstanding (lg S) = 0) boot.
Proof.
  apply wp_bind. wcall (one_op_runs 30 ltac:(lia)). intros [] S (lru & L & Eo & Es & Ez & Ed & Ec & Ev).
  eapply wp_mono; [apply (end_op_crash_atomic S lru [40] L); [unfold NBUF; simpl; lia|done|done]|].
  intros [] S' (_ & Ho & Hv & _). split; [|done]. rewrite Hv, Ev by (unfold home; lia). done.
Defined.

(** ** Reserving log space *)

(** [bud] is what each operation in progress may still log. *)
Record reserved (S : lstate) (H lru : list nat) (blocks : list Z) (bud : list nat) : Prop := {
  rs_log : log_inv S H lru blocks;
  rs_out : l_outstanding (lg S) = Z.of_nat (length bud);
  rs_room : (length blocks + sum_list bud ≤ LOGSIZE)%nat;
  rs_each : Forall (λ m, m ≤ Z.to_nat MAXOPBLOCKS)%nat bud;
  rs_size : Z.of_nat LOGSIZE < l_size (lg S)
}.

Lemma sum_list_app' l l' : sum_list (l ++ l') = (sum_list l + sum_list l')%nat.
Proof. induction l as [|x l IH]; simpl; [done|]. rewrite IH. lia. Qed.

Lemma sum_le l k : Forall (λ m, m ≤ k)%nat l → (sum_list l ≤ length l * k)%nat.
Proof. induction 1; simpl; lia. Qed.

(** When the log area is larger than [LOGSIZE] blocks, the reservation
    of [begin_op] is enough: an operation that is admitted gets a budget of
    [MAXOPBLOCKS] blocks without overcommitting the log, and an operation
    with budget left can log a block without a panic, which uses up at most
    one block of its budget. *)
Theorem reservation_suffices S H lru blocks b1 m b2 i :
  reserved S H lru blocks (b1 ++ Datatypes.S m :: b2) → i ∈ H →
  is_s32 (b_blockno (bf (bs S) i)) → home (lg S) (b_blockno (bf (bs S) i)) →
  wp (log_write i) (λ _ S1,
    reserved S1 H lru (absorb blocks (b_blockno (bf (bs S) i))) (b1 ++ m :: b2) ∧
    wp begin_op (λ ok S2, ∃ bud', reserved S2 H lru (absorb blocks (b_blockno (bf (bs S) i))) bud' ∧
      bud' = if ok : bool then Z.to_nat MAXOPBLOCKS :: (b1 ++ m :: b2) else b1 ++ m :: b2) S1) S.
Proof.
  intros [L Ho Hr He Hz] HiH H32 Hh. rewrite length_app in Ho. simpl in Ho.
  assert (sum_list (b1 ++ Datatypes.S m :: b2) = Datatypes.S (sum_list (b1 ++ m :: b2))) as Es
    by (rewrite !sum_list_app'; simpl; lia).
  wcall (log_write_spec S H lru blocks L i HiH); [lia|lia|lia|done|done|].
  intros [] S1 (L1 & _ & O1 & Z1 & _ & C1 & _).
  assert (length (absorb blocks (b_blockno (bf (bs S) i))) ≤ 1 + length blocks)%nat as Hab.
  { unfold absorb. case_decide; rewrite ?length_app; simpl; lia. }
  assert (reserved S1 H lru (absorb blocks (b_blockno (bf (bs S) i))) (b1 ++ m :: b2)) as R1.
  { split; [done| |lia| |lia]; [rewrite O1, Ho, length_app; simpl; lia|].
    apply Forall_app in He as [He1 He2]. apply Forall_cons in He2 as [He2 He3]. apply Forall_app. split; [done|].
    apply Forall_cons. split; [lia|done]. }
  split; [done|]. unfold begin_op. apply wp_bind, wp_gets.
  destruct (negb (l_committing (lg S1) =? 0)); [apply wp_ret; by eexists|].
  destruct (Z.ltb_spec (Z.of_nat LOGSIZE) (l_n (lg S1) + (l_outstanding (lg S1) + 1) * MAXOPBLOCKS)) as [Hlt|Hle];
    [apply wp_ret; by eexists|].
  apply wp_bind, wp_modify, wp_ret. eexists. split; [|done].
  destruct R1 as [_ Ho1 Hr1 He1 Hz1]. pose proof (sum_le _ _ He1). rewrite (li_n _ _ _ _ L1), Ho1 in Hle.
  split; [destruct L1; by split| | | |].
  - simpl. rewrite Ho1. lia.
  - change (Z.to_nat MAXOPBLOCKS) with 10%nat in *. cbn [sum_list sum_list_with]. unfold MAXOPBLOCKS, LOGSIZE in *. change (id 10%nat) with 10%nat. lia.
  - apply Forall_cons. by split.
  - done.
Qed.

Lemma reservation_suffices_witness :
  wp (one_op 31;; i ← on_b (bread 1 40); log_write i) (λ _ S, ∃ H lru, reserved S H lru [40] [8%nat]) boot.
Proof.
  apply wp_bind. wcall (one_op_runs 31 ltac:(lia)). intros [] S (lru & L & Eo & Es & Ez & Ed & _).
  apply wp_bind. wcall (reread S lru L Ed). intros i S' (s' & -> & L' & Gb).
  wcall (reservation_suffices (set_bs s' S) [i] lru [40] [] 8 [] i).
  - split; simpl; rewrite ?Eo, ?Ez; try done; [unfold LOGSIZE; lia|]. apply Forall_singleton. unfold MAXOPBLOCKS. lia.
  - set_solver.
  - simpl. rewrite Gb. unfold is_s32. lia.
  - simpl. rewrite Gb. unfold home. simpl. rewrite Es, Ez. lia.
  - simpl. rewrite Gb. intros [] S' [R _]. exists [i], lru. exact R.
Defined.

(** mkfs makes the log area [LOGSIZE] blocks long including the header,
    one block short of what [begin_op] reserves: three operations are all
    admitted, each logs its [MAXOPBLOCKS] distinct blocks, and the last
    [log_write] panics. *)
Theorem full_reservation_panics :
  let logblock k := i ← on_b (bread 1 (40 + Z.of_nat k)); log_write i;; on_b (brelse i) in
  let start := reboot 2 (Z.of_nat LOGSIZE);; a ← begin_op; b ← begin_op; c ← begin_op; mret (a, b, c) in
  wp start (λ r _, r = (true, true, true)) boot ∧
  wp (start;; for_each (seq 0 29) logblock) (λ _ S, l_n (lg S) = 29) boot ∧
  (start;; for_each (seq 0 30) logblock) boot = Err (Panic "too big a transaction").
Proof. vm_compute. split_and!; reflexivity. Qed.

Close Scope Z_scope.
