(* ===== verification/Xem.v ===== *)
(** * Semaphores in user space ([src/xv6-public/xem.c])

    The ring buffer of waiting threads and the semaphore built on it from
    [test_and_set] and the futex system calls.  The routines run concurrently
    on a shared [xem_t]: [xstep] executes the next shared access of one
    thread, and a run is any sequence of such steps. *)

From S2P Require Import Prelude.

Open Scope Z_scope.

Definition XEMQSZ : nat := 64.
Definition SLEEPTIME : Z := 30.
Definition UNUSED_SLOT : Z := -1.

Record queue_t := mkQueue { q_head : nat; q_rear : nat; q_queue : list Z }.
Record xem_t := mkXem { guard : Z; count : Z; xq : queue_t }.

(** ** The ring buffer *)

Definition queue_init (q : queue_t) : queue_t :=
  mkQueue 0 0 (foldl (λ l i, <[i := UNUSED_SLOT]> l) (q_queue q) (seq 0 XEMQSZ)).

Definition queue_empty (q : queue_t) : bool := Nat.eqb (q_head q) (q_rear q).

(** The address of a slot is its index. *)
Definition queue_add (q : queue_t) (key : Z) : queue_t * option nat :=
  let nxt := ((q_rear q + 1) mod XEMQSZ)%nat in
  if negb (Nat.eqb nxt (q_head q)) then
    (mkQueue (q_head q) nxt (<[q_rear q := key]> (q_queue q)), Some (q_rear q))
  else (q, None).

Definition queue_head (q : queue_t) : nat := q_head q.

Definition queue_remove (q : queue_t) : queue_t :=
  mkQueue ((q_head q + 1) mod XEMQSZ)%nat (q_rear q) (<[q_head q := UNUSED_SLOT]> (q_queue q)).

Definition slot_val (q : queue_t) (a : nat) : Z := default UNUSED_SLOT (q_queue q !! a).

(** The ring holds the threads [l], the longest waiting first. *)
Record ring (q : queue_t) (l : list Z) : Prop := {
  rg_len : length (q_queue q) = XEMQSZ;
  rg_head : (q_head q < XEMQSZ)%nat;
  rg_rear : q_rear q = ((q_head q + length l) mod XEMQSZ)%nat;
  rg_cap : (length l < XEMQSZ)%nat;
  rg_slot : ∀ i x, l !! i = Some x → q_queue q !! ((q_head q + i) mod XEMQSZ)%nat = Some x;
  rg_rest : ∀ a x, q_queue q !! a = Some x →
    (∀ i, (i < length l)%nat → ((q_head q + i) mod XEMQSZ)%nat ≠ a) → x = UNUSED_SLOT
}.

Lemma ring_mod_inj h i j :
  (i < XEMQSZ)%nat → (j < XEMQSZ)%nat → ((h + i) mod XEMQSZ = (h + j) mod XEMQSZ)%nat → i = j.
Proof.
  unfold XEMQSZ. intros Hi Hj E.
  pose proof (Nat.div_mod_eq (h + i) 64). pose proof (Nat.div_mod_eq (h + j) 64). rewrite E in H. lia.
Qed.

Lemma length_fill (l : list Z) n v : length (foldl (λ l i, <[i := v]> l) l (seq 0 n)) = length l.
Proof. induction n as [|n IH]; [done|]. rewrite seq_S, foldl_app. simpl. by rewrite length_insert. Qed.

Lemma fill_all (l : list Z) n v k x :
  (n ≤ length l)%nat → foldl (λ l i, <[i := v]> l) l (seq 0 n) !! k = Some x → (k < n)%nat → x = v.
Proof.
  intros Hn. induction n as [|n IH]; [lia|]. rewrite seq_S, foldl_app. cbn [foldl Nat.add]. intros Hk Hlt.
  destruct (decide (k = n)) as [->|Hne].
  - rewrite list_lookup_insert_eq in Hk by (rewrite length_fill; lia). congruence.
  - rewrite list_lookup_insert_ne in Hk by done. apply IH; [lia|done|lia].
Qed.

Lemma queue_init_ring q : length (q_queue q) = XEMQSZ → ring (queue_init q) [].
Proof.
  intros Hl. split; cbn [q_queue q_head q_rear queue_init length]; [by rewrite length_fill|unfold XEMQSZ; lia|done|unfold XEMQSZ; lia|done|].
  intros a x Hx _. pose proof (lookup_lt_Some _ _ _ Hx) as Ha. rewrite length_fill, Hl in Ha.
  eapply fill_all; [|exact Hx|exact Ha]. lia.
Qed.

Lemma queue_empty_ring q l : ring q l → queue_empty q = bool_decide (l = []).
Proof.
  intros [_ Hh Hr Hc _ _]. unfold queue_empty. rewrite Hr. destruct l as [|x l].
  - cbn [length]. rewrite Nat.add_0_r, Nat.mod_small by done. by rewrite Nat.eqb_refl.
  - rewrite bool_decide_eq_false_2 by done. apply Nat.eqb_neq. intros E.
    assert (0%nat = length (x :: l)); [|done]. apply (ring_mod_inj (q_head q)); [unfold XEMQSZ; lia|done|].
    rewrite Nat.add_0_r, Nat.mod_small by done. done.
Qed.

(** [queue_add] appends while a slot is left. *)
Lemma queue_add_ring q l t :
  ring q l → (length l < XEMQSZ - 1)%nat →
  ∃ q', queue_add q t = (q', Some (q_rear q)) ∧ ring q' (l ++ [t]) ∧
    (∀ a, a ≠ q_rear q → q_queue q' !! a = q_queue q !! a) ∧ q_queue q' !! q_rear q = Some t ∧
    q_queue q !! q_rear q = Some UNUSED_SLOT.
Proof.
  intros [Hl Hh Hr Hc Hs Hu] Hlt. unfold queue_add.
  assert (((q_rear q + 1) mod XEMQSZ)%nat = ((q_head q + (length l + 1)) mod XEMQSZ)%nat) as En.
  { rewrite Hr, Nat.Div0.add_mod_idemp_l, <-Nat.add_assoc. done. }
  assert (((q_rear q + 1) mod XEMQSZ)%nat ≠ q_head q) as Hne.
  { rewrite En. intros E. assert (length l + 1 = 0)%nat; [|lia].
    apply (ring_mod_inj (q_head q)); [lia|unfold XEMQSZ; lia|].
    rewrite E, Nat.add_0_r, Nat.mod_small by done. done. }
  assert (q_rear q < XEMQSZ)%nat as Hrl by (rewrite Hr; apply Nat.mod_upper_bound; done).
  assert (∀ i, (i < length l)%nat → ((q_head q + i) mod XEMQSZ)%nat ≠ q_rear q) as Hd.
  { intros i Hi E. rewrite Hr in E. apply ring_mod_inj in E; lia. }
  apply Nat.eqb_neq in Hne. rewrite Hne. eexists. split; [done|]. split_and!; cbn [q_queue q_head q_rear].
  - split; cbn [q_queue q_head q_rear].
    + by rewrite length_insert.
    + done.
    + rewrite length_app. cbn [length]. exact En.
    + rewrite length_app. cbn [length]. lia.
    + intros i x [Hi|[-> <-]]%lookup_snoc_Some.
      * destruct Hi as [Hi Hx]. rewrite list_lookup_insert_ne by (intros Ei; by apply (Hd i Hi)). by apply Hs.
      * rewrite <-Hr. by rewrite list_lookup_insert_eq by lia.
    + intros a x Ha Hi. rewrite length_app in Hi. cbn [length] in Hi. rewrite list_lookup_insert_ne in Ha.
      * eapply Hu; [exact Ha|]. intros i Hil. apply Hi. lia.
      * rewrite Hr. apply Hi. lia.
  - intros a Ha. by rewrite list_lookup_insert_ne.
  - by rewrite list_lookup_insert_eq by lia.
  - destruct (lookup_lt_is_Some_2 (q_queue q) (q_rear q) ltac:(lia)) as [x Hx]. rewrite Hx. f_equal. by eapply Hu.
Qed.

Lemma queue_add_full q l t : ring q l → length l = (XEMQSZ - 1)%nat → queue_add q t = (q, None).
Proof.
  intros [Hl Hh Hr Hc Hs Hu] E. unfold queue_add.
  assert (((q_rear q + 1) mod XEMQSZ)%nat = q_head q) as ->; [|by rewrite Nat.eqb_refl].
  rewrite Hr, Nat.Div0.add_mod_idemp_l, E. unfold XEMQSZ in *.
  replace (q_head q + (64 - 1) + 1)%nat with (q_head q + 1 * 64)%nat by lia. rewrite Nat.Div0.mod_add, Nat.mod_small by done. done.
Qed.

(** [queue_remove] drops the longest waiting thread. *)
Lemma queue_remove_ring q t l :
  ring q (t :: l) →
  slot_val q (queue_head q) = t ∧ ring (queue_remove q) l ∧
  ∀ a, a ≠ q_head q → q_queue (queue_remove q) !! a = q_queue q !! a.
Proof.
  intros [Hl Hh Hr Hc Hs Hu]. cbn [length] in *. split_and!.
  - unfold slot_val, queue_head. specialize (Hs 0%nat t eq_refl). rewrite Nat.add_0_r, Nat.mod_small in Hs by done.
    by rewrite Hs.
  - split; cbn [q_queue q_head q_rear queue_remove].
    + by rewrite length_insert.
    + apply Nat.mod_upper_bound. done.
    + rewrite Nat.Div0.add_mod_idemp_l, <-Nat.add_assoc. exact Hr.
    + lia.
    + intros i x Hi. rewrite Nat.Div0.add_mod_idemp_l, <-Nat.add_assoc.
      rewrite list_lookup_insert_ne; [by apply (Hs (S i))|].
      intros E. assert (0 = S i)%nat; [|done]. apply lookup_lt_Some in Hi.
      apply (ring_mod_inj (q_head q)); [unfold XEMQSZ; lia|lia|].
      rewrite Nat.add_0_r, Nat.mod_small by done. exact E.
    + intros a x Ha Hi. destruct (decide (a = q_head q)) as [->|Hne].
      * rewrite list_lookup_insert_eq in Ha by lia. congruence.
      * rewrite list_lookup_insert_ne in Ha by done. eapply Hu; [exact Ha|]. intros [|i] Hil.
        -- rewrite Nat.add_0_r, Nat.mod_small by done. done.
        -- intros E. apply (Hi i); [lia|]. by rewrite Nat.Div0.add_mod_idemp_l, <-Nat.add_assoc.
  - intros a Ha. cbn [q_queue queue_remove]. by rewrite list_lookup_insert_ne.
Qed.

(** ** The routines, one shared access at a time *)

Definition xem_init (x : xem_t) : xem_t := mkXem 0 1 (queue_init (xq x)).

(** Where a thread is. *)
Inductive xpc :=
| Outside                     (* in neither routine *)
| WaitTas (timer : Z)         (* xem_wait: while(test_and_set(..) == 1) *)
| WaitNap                     (* sleep(1) *)
| WaitDec                     (* sema->count--; if(sema->count >= 0) *)
| WaitOpen                    (* sema->guard = 0; return 0 *)
| WaitAdd                     (* queue_add(&sema->q, gettid()) *)
| WaitOpenQ (addr : nat)      (* sema->guard = 0 *)
| WaitFutex (addr : nat)      (* futex_wait(addr, val) *)
| Asleep (addr : nat)         (* sleeping in futex_wait *)
| WaitFailed                  (* returned -1 *)
| PostTas (timer : Z)         (* xem_unlock: while(test_and_set(..) == 1) *)
| PostNap
| PostInc                     (* sema->count++ *)
| PostTest                    (* if(!queue_empty(&sema->q)) *)
| PostWake                    (* futex_wake(queue_head(&sema->q)) *)
| PostRemove                  (* queue_remove(&sema->q) *)
| PostOpen.                   (* sema->guard = 0; return 0 *)

(** The shared semaphore and the threads of the process.  [held] counts the
    calls of [xem_wait] that returned 0 less the calls of [xem_unlock] that
    were made: it is what the clients know, not a variable of the program. *)
Record xsys := mkXsys { sem : xem_t; pcs : gmap Z xpc; held : Z }.

Definition goto (t : Z) (p : xpc) (s : xsys) : xsys := mkXsys (sem s) (<[t := p]> (pcs s)) (held s).
Definition set_sem (x : xem_t) (s : xsys) : xsys := mkXsys x (pcs s) (held s).
Definition add_held (d : Z) (s : xsys) : xsys := mkXsys (sem s) (pcs s) (held s + d).
Definition set_guard (v : Z) (x : xem_t) : xem_t := mkXem v (count x) (xq x).
Definition set_count (v : Z) (x : xem_t) : xem_t := mkXem (guard x) v (xq x).
Definition set_xq (q : queue_t) (x : xem_t) : xem_t := mkXem (guard x) (count x) q.

(** [while(test_and_set(&sema->guard, 1) == 1) if(timer++ < SLEEPTIME) { timer = 0; sleep(1); }] *)
Definition try_guard (t : Z) (timer : Z) (again : Z → xpc) (nap next : xpc) (s : xsys) : xsys :=
  let old := guard (sem s) in
  let s := set_sem (set_guard 1 (sem s)) s in
  if Z.eqb old 1 then
    if Z.ltb timer SLEEPTIME then goto t nap s else goto t (again (timer + 1)) s
  else goto t next s.

(** [wakeup(th)] for a thread that sleeps in [futex_wait], whoever calls it:
    the thread sleeps on its own [struct proc] and looks at nothing when it
    wakes, so [futex_wait] returns 0 and [xem_wait] with it. *)
Definition wake_sleeper (th : Z) (s : xsys) : xsys :=
  match pcs s !! th with
  | Some (Asleep _) => add_held 1 (goto th Outside s)
  | _ => s
  end.

(** [futex_wake(addr)] wakes the thread whose id is stored there. *)
Definition wake_slot (addr : nat) (s : xsys) : xsys := wake_sleeper (slot_val (xq (sem s)) addr) s.

(** A thread outside may call [xem_wait]; it calls [xem_unlock] only for a
    successful [xem_wait] of some thread that was not yet undone. *)
Definition call_wait (t : Z) (s : xsys) : option xsys :=
  match pcs s !! t with
  | Some Outside => Some (goto t (WaitTas 0) s)
  | _ => None
  end.
Definition call_unlock (t : Z) (s : xsys) : option xsys :=
  match pcs s !! t with
  | Some Outside => if Z.ltb 0 (held s) then Some (add_held (-1) (goto t (PostTas 0) s)) else None
  | _ => None
  end.

(** The next access of thread [t] inside a routine; [None] when it sleeps in
    the kernel or is not in a routine. *)
Definition run_wait (t : Z) (p : xpc) (s : xsys) : option xsys :=
  match p with
  | WaitTas timer => Some (try_guard t timer WaitTas WaitNap WaitDec s)
  | WaitNap => Some (goto t (WaitTas 0) s)
  | WaitDec =>
      let s := set_sem (set_count (count (sem s) - 1) (sem s)) s in
      if Z.leb 0 (count (sem s)) then Some (goto t WaitOpen s) else Some (goto t WaitAdd s)
  | WaitOpen => Some (add_held 1 (goto t Outside (set_sem (set_guard 0 (sem s)) s)))
  | WaitAdd =>
      match queue_add (xq (sem s)) t with
      | (q, Some addr) => Some (goto t (WaitOpenQ addr) (set_sem (set_xq q (sem s)) s))
      | (q, None) => Some (goto t WaitFailed (set_sem (set_xq q (sem s)) s))
      end
  | WaitOpenQ addr => Some (goto t (WaitFutex addr) (set_sem (set_guard 0 (sem s)) s))
  | WaitFutex addr =>
      if Z.eqb (slot_val (xq (sem s)) addr) t then Some (goto t (Asleep addr) s)
      else Some (add_held 1 (goto t Outside s))
  | _ => None
  end.

Definition run_unlock (t : Z) (p : xpc) (s : xsys) : option xsys :=
  match p with
  | PostTas timer => Some (try_guard t timer PostTas PostNap PostInc s)
  | PostNap => Some (goto t (PostTas 0) s)
  | PostInc => Some (goto t PostTest (set_sem (set_count (count (sem s) + 1) (sem s)) s))
  | PostTest => Some (goto t (if queue_empty (xq (sem s)) then PostOpen else PostWake) s)
  | PostWake => Some (goto t PostRemove (wake_slot (queue_head (xq (sem s))) s))
  | PostRemove => Some (goto t PostOpen (set_sem (set_xq (queue_remove (xq (sem s))) (sem s)) s))
  | PostOpen => Some (goto t Outside (set_sem (set_guard 0 (sem s)) s))
  | _ => None
  end.

Inductive act := CallWait (t : Z) | CallUnlock (t : Z) | Run (t : Z).

Definition xstep (a : act) (s : xsys) : option xsys :=
  match a with
  | CallWait t => call_wait t s
  | CallUnlock t => call_unlock t s
  | Run t => p ← pcs s !! t;
             match run_wait t p s with Some s' => Some s' | None => run_unlock t p s end
  end.

Definition xrun (l : list act) (s : xsys) : option xsys := foldl (λ o a, s ← o; xstep a s) (Some s) l.

(** Just after [xem_init], with the threads [ts] outside. *)
Definition xstart (x : xem_t) (ts : list Z) : xsys :=
  mkXsys (xem_init x) (list_to_map ((λ t, (t, Outside)) <$> ts)) 0.

Inductive xreach (x : xem_t) (ts : list Z) : xsys → Prop :=
| xreach_start : xreach x ts (xstart x ts)
| xreach_step a s s' : xreach x ts s → xstep a s = Some s' → xreach x ts s'.

(** ** The invariant *)

Definition in_guard (p : xpc) : bool :=
  match p with
  | WaitDec | WaitOpen | WaitAdd | WaitOpenQ _ | WaitFailed
  | PostInc | PostTest | PostWake | PostRemove | PostOpen => true
  | _ => false
  end.

(** Where the semaphore's unit is: free, with a client, or with a thread that
    is about to get it or to give it back. *)
Inductive unit_at := Free | Client | At (t : Z).

Definition carries (p : xpc) : bool :=
  match p with
  | WaitOpen | WaitFutex _ | Asleep _ | PostTas _ | PostNap | PostInc => true
  | _ => false
  end.
(** These hold the unit whenever a thread is there. *)
Definition must_carry (p : xpc) : bool :=
  match p with WaitOpen | PostTas _ | PostNap | PostInc => true | _ => false end.
Definition queued_at (p : xpc) : option nat :=
  match p with WaitOpenQ a | WaitFutex a | Asleep a => Some a | _ => None end.

(** What holds of a thread at [p], when [g] has the guard, [u] is the unit and
    [l] are the waiting threads. *)
Record tinv (g : option Z) (u : unit_at) (l : list Z) (q : queue_t) (t : Z) (p : xpc) : Prop := {
  ti_guard : in_guard p = true ↔ g = Some t;
  ti_carry : u = At t → carries p = true;
  ti_must : must_carry p = true → u = At t;
  ti_in : t ∈ l → ∃ a, queued_at p = Some a ∧ q_queue q !! a = Some t;
  ti_waits : ∀ a, queued_at p = Some a → t ∈ l ∨ u = At t;
  ti_ok : p ≠ WaitFailed
}.

(** What holds of the semaphore, when the thread with the guard is at [gp].
    Between [futex_wake] and [queue_remove] the first thread of the ring is
    not waiting any more. *)
Record ginv (x : xem_t) (h : Z) (g : option Z) (u : unit_at) (l : list Z) (gp : option xpc) : Prop := {
  gi_guard : guard x = match g with Some _ => 1 | None => 0 end;
  gi_held : h = match u with Client => 1 | _ => 0 end;
  gi_nodup : NoDup l ∧ ∀ t, u = At t → t ∉ l;
  gi_ring : match gp with Some PostRemove => ∃ h, h ∉ l ∧ ring (xq x) (h :: l) | _ => ring (xq x) l end;
  gi_count : count x = 1 - (match u with Free => 0 | _ => 1 end) - Z.of_nat (length l) -
                       (match gp with Some WaitAdd => 1 | _ => 0 end);
  gi_free : u = Free → match gp with
                       | Some PostTest => True | Some PostWake => l ≠ [] | Some WaitAdd => False
                       | _ => l = [] end;
  gi_post : gp = Some PostTest ∨ gp = Some PostWake → u = Free
}.

Record xinv (ts : list Z) (s : xsys) (g : option Z) (u : unit_at) (l : list Z) : Prop := {
  xi_dom : ∀ t, is_Some (pcs s !! t) ↔ t ∈ ts;
  xi_refs : (∀ t, g = Some t → t ∈ ts) ∧ (∀ t, u = At t → t ∈ ts) ∧ ∀ t, t ∈ l → t ∈ ts;
  xi_t : ∀ t p, pcs s !! t = Some p → tinv g u l (xq (sem s)) t p;
  xi_g : ginv (sem s) (held s) g u l (g ≫= λ t, pcs s !! t)
}.

Lemma tinv_same g u l q t p g' u' l' q' :
  tinv g u l q t p → (g' = Some t ↔ g = Some t) → (u' = At t ↔ u = At t) → (t ∈ l' ↔ t ∈ l) →
  (∀ a, t ∈ l → q_queue q !! a = Some t → q_queue q' !! a = Some t) → tinv g' u' l' q' t p.
Proof.
  intros [T1 T2 T3 T4 T5 T6] E1 E2 E3 Hq. split.
  - by rewrite E1.
  - by rewrite E2.
  - by rewrite E2.
  - intros Hl%E3. destruct (T4 Hl) as (a & Ha & Hqa). exists a. eauto.
  - intros a Ha. rewrite E2, E3. by eapply T5.
  - done.
Qed.

(** One thread moves; what it says about the others stays the same. *)
Lemma xinv_move ts s g u l t p p' s' g' u' l' :
  xinv ts s g u l → pcs s !! t = Some p → pcs s' = <[t := p']> (pcs s) →
  (∀ t0, t0 ≠ t → (g' = Some t0 ↔ g = Some t0) ∧ (u' = At t0 ↔ u = At t0) ∧ (t0 ∈ l' ↔ t0 ∈ l)) →
  (∀ t0 a, t0 ≠ t → t0 ∈ l → q_queue (xq (sem s)) !! a = Some t0 → q_queue (xq (sem s')) !! a = Some t0) →
  tinv g' u' l' (xq (sem s')) t p' →
  ginv (sem s') (held s') g' u' l' (g' ≫= λ t0, if decide (t0 = t) then Some p' else pcs s !! t0) →
  xinv ts s' g' u' l'.
Proof.
  intros [Hd (Rg & Ru & Rl) Ht Hg] Hp Ep Hsame Hq Ht' Hg'.
  assert (t ∈ ts) as Hts by (apply Hd; eauto). split.
  - intros t0. rewrite Ep. destruct (decide (t0 = t)) as [->|Hne].
    + rewrite lookup_insert_eq. split; eauto.
    + by rewrite lookup_insert_ne.
  - split_and!; intros t0 H0; (destruct (decide (t0 = t)) as [->|Hne]; [done|]);
      destruct (Hsame t0 Hne) as (E1 & E2 & E3); naive_solver.
  - intros t0 p0. rewrite Ep. destruct (decide (t0 = t)) as [->|Hne].
    + rewrite lookup_insert_eq. by intros [= <-].
    + rewrite lookup_insert_ne by done. intros H0.
      destruct (Hsame t0 Hne) as (E1 & E2 & E3). eapply tinv_same; [by apply Ht|done..|eauto].
  - rewrite Ep. destruct g' as [t0|]; [|exact Hg']. simpl in *. destruct (decide (t0 = t)) as [->|Hne].
    + by rewrite lookup_insert_eq.
    + by rewrite lookup_insert_ne.
Qed.

(** A step outside the guard that changes neither the semaphore nor the unit. *)
Lemma xinv_quiet ts s g u l t p p' s' :
  xinv ts s g u l → pcs s !! t = Some p → pcs s' = <[t := p']> (pcs s) →
  sem s' = sem s → held s' = held s → in_guard p = false → in_guard p' = false →
  (carries p = true → carries p' = true) → (must_carry p' = true → must_carry p = true) →
  queued_at p' = queued_at p → xinv ts s' g u l.
Proof.
  intros I Hp Ep Es Eh Hg Hg' Hc Hm Hq. pose proof (xi_t _ _ _ _ _ I t p Hp) as [T1 T2 T3 T4 T5 T6].
  assert (g ≠ Some t) as Hne by (rewrite <-T1, Hg; done).
  eapply (xinv_move ts s g u l t p p' s'); try done.
  - rewrite Es. done.
  - rewrite Es. split; try (rewrite ?Hq; naive_solver).
  - rewrite Es, Eh. replace (g ≫= λ t0, if decide (t0 = t) then Some p' else pcs s !! t0) with (g ≫= λ t0, pcs s !! t0); [apply I|].
    destruct g as [t0|]; [|done]. simpl. rewrite decide_False by congruence. done.
Qed.

Lemma set_guard_same x v : guard x = v → set_guard v x = x.
Proof. intros <-. by destruct x. Qed.

(** Trying the guard. *)
Lemma xinv_try ts s g u l t p timer again nap next :
  xinv ts s g u l → pcs s !! t = Some p → in_guard p = false →
  (∀ n, in_guard (again n) = false ∧ carries (again n) = carries p ∧ must_carry (again n) = must_carry p ∧ queued_at (again n) = None) →
  in_guard nap = false ∧ carries nap = carries p ∧ must_carry nap = must_carry p ∧ queued_at nap = None →
  in_guard next = true ∧ carries next = carries p ∧ must_carry next = must_carry p ∧ queued_at next = None →
  queued_at p = None → next = WaitDec ∨ next = PostInc →
  ∃ g', xinv ts (try_guard t timer again nap next s) g' u l.
Proof.
  intros I Hp Hg Hagain Hnap (N1 & N2 & N3 & N4) Hq Hnext.
  pose proof (xi_t _ _ _ _ _ I t p Hp) as [T1 T2 T3 T4 T5 T6].
  pose proof (xi_g _ _ _ _ _ I) as [G1 G2 G3 G4 G5 G6 G7]. unfold try_guard.
  destruct (Z.eqb_spec (guard (sem s)) 1) as [E|E].
  - exists g. rewrite set_guard_same by done. destruct Hnap as (M1 & M2 & M3 & M4).
    destruct (Z.ltb timer SLEEPTIME).
    + eapply (xinv_quiet ts s g u l t p nap); try done; congruence.
    + destruct (Hagain (timer + 1)) as (A1 & A2 & A3 & A4).
      eapply (xinv_quiet ts s g u l t p (again (timer + 1))); try done; congruence.
  - destruct g as [t0|]; [by rewrite G1 in E|]. exists (Some t).
    eapply (xinv_move ts s None u l t p next); try done.
    + intros t0 Hne. split; [|done]. split; [intros [= ->]; done|done].
    + split; simpl; rewrite ?N1, ?N2, ?N3, ?N4; try done.
      * rewrite <-Hq. done.
      * destruct Hnext as [-> | ->]; done.
    + simpl. rewrite decide_True by done.
      split; simpl; destruct Hnext as [-> | ->]; try done; naive_solver.
Qed.

Lemma xinv_call_wait ts s g u l t s' :
  xinv ts s g u l → call_wait t s = Some s' → xinv ts s' g u l.
Proof.
  intros I. unfold call_wait. destruct (pcs s !! t) as [[]|] eqn:Hp; try done. intros [= <-].
  by eapply (xinv_quiet ts s g u l t Outside (WaitTas 0)).
Qed.

Lemma xinv_call_unlock ts s g u l t s' :
  xinv ts s g u l → call_unlock t s = Some s' → u = Client ∧ xinv ts s' g (At t) l.
Proof.
  intros I. unfold call_unlock. destruct (pcs s !! t) as [[]|] eqn:Hp; try done.
  pose proof (xi_t _ _ _ _ _ I t Outside Hp) as [T1 T2 T3 T4 T5 T6].
  pose proof (xi_g _ _ _ _ _ I) as [G1 G2 G3 G4 G5 G6 G7].
  destruct (Z.ltb_spec 0 (held s)) as [Hh|]; [|done]. intros [= <-].
  assert (u = Client) as -> by (destruct u; simpl in *; [lia|done|lia]).
  assert (g ≠ Some t) as Hne by (rewrite <-T1; done).
  assert ((g ≫= λ t0, if decide (t0 = t) then Some (PostTas 0) else pcs s !! t0) = (g ≫= λ t0, pcs s !! t0)) as Eg.
  { destruct g as [t0|]; [|done]. simpl. rewrite decide_False by congruence. done. }
  split; [done|]. eapply (xinv_move ts s g Client l t Outside (PostTas 0)); try done.
  - intros t0 Ht0. split; [done|]. split; [split; congruence|done].
  - rewrite Eg. split; simpl; try done; [lia| |].
    + split; [apply G3|]. intros t0 [= <-] Hin. by destruct (T4 Hin) as (a & ? & _).
    + intros Hx. by specialize (G7 Hx).
Qed.

(** The invariant holds again; the unit stays where it is when it is with
    another thread than [t], who made the step. *)
Definition xnext (ts : list Z) (s' : xsys) (t : Z) (u : unit_at) : Prop :=
  ∃ g' u' l', xinv ts s' g' u' l' ∧ ∀ t0, t0 ≠ t → u = At t0 → u' = At t0.

Ltac xgo := split; [|intros ? ? ?; solve [congruence|done]].

Definition actor (a : act) : Z := match a with CallWait t | CallUnlock t | Run t => t end.

Section steps.
  Context (ts : list Z) (Hcap : (length ts < XEMQSZ)%nat) (Hun : UNUSED_SLOT ∉ ts).
  Context (s : xsys) (g : option Z) (u : unit_at) (l : list Z) (t : Z).
  Context (I : xinv ts s g u l).

(** The guard's owner leaves it. *)
Lemma xinv_open p p' s' u' :
  pcs s !! t = Some p → in_guard p = true → p ≠ PostRemove → p ≠ WaitAdd → p ≠ PostTest → p ≠ PostWake →
  pcs s' = <[t := p']> (pcs s) → sem s' = set_guard 0 (sem s) →
  held s' = (match u' with Client => 1 | _ => 0 end) →
  (∀ t0, t0 ≠ t → u' = At t0 ↔ u = At t0) → (u' = Free ↔ u = Free) → u' ≠ At t → (u = At t → must_carry p = true) →
  in_guard p' = false → must_carry p' = false → queued_at p' = queued_at p →
  xinv ts s' None u' l.
Proof using All.
  intros Hp Hg P1 P2 P3 P4 Ep Es Eh Hu Hf Hut Hum G1 G2 G3.
  pose proof (xi_t _ _ _ _ _ I t p Hp) as [T1 T2 T3 T4 T5 T6].
  pose proof (xi_g _ _ _ _ _ I) as [V1 V2 V3 V4 V5 V6 V7].
  assert (g = Some t) as -> by by apply T1. simpl in *. rewrite Hp in *.
  eapply (xinv_move ts s (Some t) u l t p p'); try done.
  - intros t0 Hne. split; [split; [done|intros [= ->]; done]|]. split; [by apply Hu|done].
  - by rewrite Es.
  - split; rewrite ?G1, ?G2, ?G3, ?Es; try done.
    + intros a Ha. destruct (T5 a Ha) as [?|Ht]; [by left|]. specialize (Hum Ht). destruct p; done.
    + intros ->. done.
  - simpl. rewrite Es. split; simpl; try done.
    + split; [apply V3|]. intros t0 Ht0. destruct (decide (t0 = t)) as [->|Hne]; [done|].
      apply V3. by apply Hu.
    + destruct p; done.
    + rewrite V5. assert (match u with Free => 0 | _ => 1 end = match u' with Free => 0 | _ => 1 end) as ->.
      { destruct u, u'; naive_solver. }
      destruct p; simpl in *; try done; lia.
    + intros ->. specialize (V6 ltac:(by apply Hf)). destruct p; done.
    + intros [?|?]; done.
Qed.

Lemma xinv_WaitDec s' :
  pcs s !! t = Some WaitDec → run_wait t WaitDec s = Some s' → xnext ts s' t u.
Proof using All.
  intros Hp Hr. pose proof (xi_t _ _ _ _ _ I t _ Hp) as [T1 T2 T3 T4 T5 T6].
  pose proof (xi_g _ _ _ _ _ I) as [V1 V2 V3 V4 V5 V6 V7].
  assert (g = Some t) as -> by by apply T1. simpl in *. rewrite Hp in *.
  assert (u ≠ At t) as Hut by (intros ->; by specialize (T2 eq_refl)).
  assert (t ∉ l) as Htl by (intros Hin; by destruct (T4 Hin) as (a & ? & _)).
  destruct (Z.leb_spec 0 (count (sem s) - 1)) as [Hc|Hc]; simplify_eq/=.
  - assert (u = Free ∧ l = []) as [-> ->]. { destruct u; [|lia|lia]. destruct l; simpl in *; [done|lia]. }
    exists (Some t), (At t), []. xgo. eapply (xinv_move ts s (Some t) Free [] t WaitDec WaitOpen); try done.
    + intros t0 Hne. split; [done|]. split; [|done]. split; [congruence|done].
    + simpl. rewrite decide_True by done. split; simpl in *; try done; try lia.
      * split; [apply V3|set_solver].
      * intros [?|?]; done.
  - exists (Some t), u, l. xgo. eapply (xinv_move ts s (Some t) u l t WaitDec WaitAdd); try done.
    simpl. rewrite decide_True by done. split; simpl in *; try done; try lia.
    + intros ->. specialize (V6 eq_refl). subst l. simpl in *. lia.
    + intros [?|?]; done.
Qed.

Lemma xinv_WaitAdd s' :
  pcs s !! t = Some WaitAdd → run_wait t WaitAdd s = Some s' → xnext ts s' t u.
Proof using All.
  intros Hp Hr. pose proof (xi_t _ _ _ _ _ I t _ Hp) as [T1 T2 T3 T4 T5 T6].
  pose proof (xi_g _ _ _ _ _ I) as [V1 V2 V3 V4 V5 V6 V7].
  assert (g = Some t) as -> by by apply T1. simpl in *. rewrite Hp in *.
  assert (u ≠ At t) as Hut by (intros ->; by specialize (T2 eq_refl)).
  assert (t ∉ l) as Htl by (intros Hin; by destruct (T4 Hin) as (a & ? & _)).
  assert (t ∈ ts) as Hin by (apply (xi_dom _ _ _ _ _ I); eauto).
  destruct (xi_refs _ _ _ _ _ I) as (_ & _ & Rl).
  assert (length (l ++ [t]) ≤ length ts)%nat as Hlen.
  { apply submseteq_length, NoDup_submseteq; [|set_solver].
    apply NoDup_app. split_and!; [apply V3|set_solver|apply NoDup_singleton]. }
  rewrite length_app in Hlen. simpl in Hlen.
  destruct (queue_add_ring (xq (sem s)) l t V4 ltac:(lia)) as (q' & Eq & Hr' & Hsame & Hslot & Hold).
  rewrite Eq in Hr. injection Hr as <-. exists (Some t), u, (l ++ [t]). xgo.
  eapply (xinv_move ts s (Some t) u l t WaitAdd (WaitOpenQ (q_rear (xq (sem s))))); try done.
  - intros t0 Hne. split; [done|]. split; [done|]. rewrite elem_of_app, list_elem_of_singleton. naive_solver.
  - simpl. intros t0 a Hne H0 Ha. rewrite Hsame; [done|]. intros ->. rewrite Hold in Ha. injection Ha as <-.
    by apply Hun, Rl.
  - split; simpl; try done.
    + intros _. eexists. split; [done|done].
    + intros a _. left. set_solver.
  - simpl. rewrite decide_True by done. split; simpl in *; try done.
    + split.
      * apply NoDup_app. split_and!; [apply V3|set_solver|apply NoDup_singleton].
      * intros t0 Ht0. destruct V3 as [_ V3]. specialize (V3 t0 Ht0). rewrite elem_of_app, list_elem_of_singleton.
        intros [?| ->]; done.
    + rewrite length_app. simpl. lia.
    + intros [?|?]; done.
Qed.

Lemma xinv_WaitFutex a s' :
  pcs s !! t = Some (WaitFutex a) → run_wait t (WaitFutex a) s = Some s' → xnext ts s' t u.
Proof using All.
  intros Hp Hr. pose proof (xi_t _ _ _ _ _ I t _ Hp) as [T1 T2 T3 T4 T5 T6].
  pose proof (xi_g _ _ _ _ _ I) as [V1 V2 V3 V4 V5 V6 V7]. simpl in Hr.
  assert (g ≠ Some t) as Hne by (rewrite <-T1; done).
  destruct (Z.eqb_spec (slot_val (xq (sem s)) a) t) as [E|E]; simplify_eq/=.
  - exists g, u, l. xgo. by eapply (xinv_quiet ts s g u l _ (WaitFutex a) (Asleep a)).
  - assert (u = At t) as ->.
    { destruct (T5 a eq_refl) as [Hin|?]; [|done]. destruct (T4 Hin) as (a' & [= <-] & Ha).
      unfold slot_val in E. by rewrite Ha in E. }
    assert (t ∉ l) as Htl by by apply V3.
    assert ((g ≫= λ t0, if decide (t0 = t) then Some Outside else pcs s !! t0) = (g ≫= λ t0, pcs s !! t0)) as Eg.
    { destruct g as [t0|]; [|done]. simpl. rewrite decide_False by congruence. done. }
    exists g, Client, l. xgo. eapply (xinv_move ts s g (At t) l t (WaitFutex a) Outside); try done.
    + intros t0 Ht0. split; [done|]. split; [split; congruence|done].
    + rewrite Eg. split; simpl in *; try done.
      * rewrite V2. done.
      * split; [apply V3|done].
      * intros Hx. by specialize (V7 Hx).
Qed.

Lemma xinv_PostInc s' :
  pcs s !! t = Some PostInc → run_unlock t PostInc s = Some s' → xnext ts s' t u.
Proof using All.
  intros Hp [= <-]. pose proof (xi_t _ _ _ _ _ I t _ Hp) as [T1 T2 T3 T4 T5 T6].
  pose proof (xi_g _ _ _ _ _ I) as [V1 V2 V3 V4 V5 V6 V7].
  assert (g = Some t) as -> by by apply T1. assert (u = At t) as -> by by apply T3. simpl in *. rewrite Hp in *.
  assert (t ∉ l) as Htl by by apply V3.
  exists (Some t), Free, l. xgo. eapply (xinv_move ts s (Some t) (At t) l t PostInc PostTest); try done.
  - intros t0 Hne. split; [done|]. split; [split; congruence|done].
  - simpl. rewrite decide_True by done. split; simpl in *; try done; [split; [apply V3|done]|lia].
Qed.

Lemma xinv_PostTest s' :
  pcs s !! t = Some PostTest → run_unlock t PostTest s = Some s' → xnext ts s' t u.
Proof using All.
  intros Hp [= <-]. pose proof (xi_t _ _ _ _ _ I t _ Hp) as [T1 T2 T3 T4 T5 T6].
  pose proof (xi_g _ _ _ _ _ I) as [V1 V2 V3 V4 V5 V6 V7].
  assert (g = Some t) as -> by by apply T1. simpl in *. rewrite Hp in *.
  assert (u = Free) as -> by (apply V7; by left). rewrite (queue_empty_ring _ _ V4).
  assert (t ∉ l) as Htl by (intros Hin; by destruct (T4 Hin) as (a & ? & _)).
  exists (Some t), Free, l. xgo. destruct (decide (l = [])) as [->|Hl].
  - rewrite bool_decide_eq_true_2 by done.
    eapply (xinv_move ts s (Some t) Free [] t PostTest PostOpen); try done.
    simpl. rewrite decide_True by done. split; simpl in *; try done; by intros [?|?].
  - rewrite bool_decide_eq_false_2 by done.
    eapply (xinv_move ts s (Some t) Free l t PostTest PostWake); try done.
    simpl. rewrite decide_True by done. split; simpl in *; done.
Qed.

(** Waking the first waiter passes the unit on to it: it returns at once if
    it sleeps, and is about to look at its slot otherwise. *)
Lemma xinv_PostWake s' :
  pcs s !! t = Some PostWake → run_unlock t PostWake s = Some s' → xnext ts s' t u.
Proof using All.
  intros Hp [= <-]. pose proof (xi_t _ _ _ _ _ I t _ Hp) as [T1 T2 T3 T4 T5 T6].
  pose proof (xi_g _ _ _ _ _ I) as [V1 V2 V3 V4 V5 V6 V7].
  assert (g = Some t) as -> by by apply T1. simpl in *. rewrite Hp in *.
  assert (u = Free) as -> by (apply V7; by right). specialize (V6 eq_refl). destruct l as [|h l']; [done|].
  assert (t ∉ h :: l') as Htl by (intros Hin; by destruct (T4 Hin) as (a & ? & _)).
  apply not_elem_of_cons in Htl as [Hth Htl].
  destruct V3 as [[Hhl Hnd]%NoDup_cons _]. destruct (queue_remove_ring _ _ _ V4) as (Eh & _).
  destruct I as [Hd (Rg & Ru & Rl) Ht _].
  assert (∃ ph, pcs s !! h = Some ph) as [ph Hph] by (apply Hd, Rl; set_solver).
  pose proof (Ht h ph Hph) as Th. destruct (ti_in _ _ _ _ _ _ Th ltac:(set_solver)) as (a & Ha & Hqa).
  assert (in_guard ph ≠ true) as Hpg by (rewrite (ti_guard _ _ _ _ _ _ Th); congruence).
  unfold wake_slot, wake_sleeper. rewrite Eh, Hph.
  assert (∀ u' t0, u' ≠ At t → t0 = t → u' ≠ Free → tinv (Some t) u' l' (xq (sem s)) t0 PostRemove) as Htt.
  { intros u' t0 Hu' -> _. split; simpl; try done; set_solver. }
  assert (∀ t0 p0 u', pcs s !! t0 = Some p0 → t0 ≠ t → t0 ≠ h → u' ≠ At t0 → tinv (Some t) u' l' (xq (sem s)) t0 p0) as Hto.
  { intros t0 p0 u' H0 Hne Hnh Hu'. eapply tinv_same; [by apply Ht|done|by split| |done]. rewrite elem_of_cons. naive_solver. }
  destruct ph; simpl in Ha, Hpg; try done; injection Ha as ->.
  - exists (Some t), (At h), l'. xgo. split.
    + intros t0. simpl. destruct (decide (t0 = t)) as [->|]; [|by rewrite lookup_insert_ne].
      rewrite lookup_insert_eq. split; [intros _; apply Hd; eauto|eauto].
    + split_and!; [naive_solver| |set_solver]. intros t0 [= <-]. apply Rl. set_solver.
    + intros t0 p0. simpl. destruct (decide (t0 = t)) as [->|Hne].
      * rewrite lookup_insert_eq. intros [= <-]. apply Htt; congruence.
      * rewrite lookup_insert_ne by done. intros H0. destruct (decide (t0 = h)) as [->|Hnh]; [|apply Hto; congruence].
        rewrite Hph in H0. injection H0 as <-. split; simpl; try done; [split; congruence|by right].
    + simpl. rewrite lookup_insert_eq. split; simpl in *; try done; [|by exists h|lia|by intros [?|?]].
      split; [done|]. by intros t0 [= <-].
  - exists (Some t), Client, l'. xgo. split.
    + intros t0. simpl. destruct (decide (t0 = t)) as [->|].
      { rewrite lookup_insert_eq. split; [intros _; apply Hd; eauto|eauto]. }
      rewrite lookup_insert_ne by done. destruct (decide (t0 = h)) as [->|]; [|by rewrite lookup_insert_ne].
      rewrite lookup_insert_eq. split; [intros _; apply Hd; eauto|eauto].
    + split_and!; [naive_solver|done|set_solver].
    + intros t0 p0. simpl. destruct (decide (t0 = t)) as [->|Hne].
      * rewrite lookup_insert_eq. intros [= <-]. apply Htt; congruence.
      * rewrite lookup_insert_ne by done. destruct (decide (t0 = h)) as [->|Hnh].
        -- rewrite lookup_insert_eq. intros [= <-]. split; simpl; try done; split; congruence.
        -- rewrite lookup_insert_ne by done. intros H0. apply Hto; congruence.
    + simpl. rewrite lookup_insert_eq. split; simpl in *; try done; [lia|by exists h|lia|by intros [?|?]].
Qed.

Lemma xinv_PostRemove s' :
  pcs s !! t = Some PostRemove → run_unlock t PostRemove s = Some s' → xnext ts s' t u.
Proof using All.
  intros Hp [= <-]. pose proof (xi_t _ _ _ _ _ I t _ Hp) as [T1 T2 T3 T4 T5 T6].
  pose proof (xi_g _ _ _ _ _ I) as [V1 V2 V3 V4 V5 V6 V7].
  assert (g = Some t) as -> by by apply T1. simpl in *. rewrite Hp in *.
  assert (t ∉ l) as Htl by (intros Hin; by destruct (T4 Hin) as (a & ? & _)).
  assert (u ≠ At t) as Hut by (intros ->; by specialize (T2 eq_refl)).
  destruct V4 as (h & Hhl & V4). destruct (queue_remove_ring _ _ _ V4) as (E & Hr & Hsame).
  exists (Some t), u, l. xgo. eapply (xinv_move ts s (Some t) u l t PostRemove PostOpen); try done.
  - intros t0 a Hne H0 Ha. destruct (decide (a = q_head (xq (sem s)))) as [->|Hna]; [|by cbn [sem xq set_sem set_xq goto]; rewrite Hsame].
    exfalso. unfold slot_val, queue_head in E. rewrite Ha in E. simpl in E. by subst h.
  - simpl. rewrite decide_True by done. split; simpl in *; try done; by intros [?|?].
Qed.

End steps.

Lemma xinv_step ts (Hcap : (length ts < XEMQSZ)%nat) (Hun : UNUSED_SLOT ∉ ts) s g u l a s' :
  xinv ts s g u l → xstep a s = Some s' → xnext ts s' (actor a) u.
Proof.
  intros I. destruct a as [t|t|t]; simpl.
  - intros Hc. exists g, u, l. xgo. by eapply xinv_call_wait.
  - intros Hc. destruct (xinv_call_unlock _ _ _ _ _ _ _ I Hc) as [-> I']. exists g, (At t), l. by xgo.
  - destruct (pcs s !! t) as [p|] eqn:Hp; [|done]. cbn [mbind option_bind].
    pose proof (xi_t _ _ _ _ _ I t p Hp) as [T1 T2 T3 T4 T5 T6].
    pose proof (gi_held _ _ _ _ _ _ (xi_g _ _ _ _ _ I)) as Hh.
    destruct p; try done.
    + intros [= <-]. destruct (xinv_try ts s g u l t _ timer WaitTas WaitNap WaitDec I Hp) as [g' ?]; eauto. exists g', u, l. by xgo.
    + intros [= <-]. exists g, u, l. xgo. by eapply (xinv_quiet ts s g u l t WaitNap (WaitTas 0)).
    + destruct (run_wait t WaitDec s) eqn:E; [intros [= <-]|done].
      by apply (xinv_WaitDec ts Hcap Hun s g u l t I) in E.
    + intros [= <-]. assert (u = At t) as -> by by apply T3.
      exists None, Client, l. xgo. eapply (xinv_open ts Hcap Hun s g (At t) l t I WaitOpen Outside); try done.
      * simpl. by rewrite Hh.
      * intros t0 Hne. split; congruence.
    + destruct (run_wait t WaitAdd s) eqn:E; [intros [= <-]|done].
      by apply (xinv_WaitAdd ts Hcap Hun s g u l t I) in E.
    + intros [= <-]. assert (u ≠ At t) by (intros ->; by specialize (T2 eq_refl)).
      exists None, u, l. xgo. by eapply (xinv_open ts Hcap Hun s g u l t I (WaitOpenQ addr) (WaitFutex addr)).
    + destruct (run_wait t (WaitFutex addr) s) eqn:E; [intros [= <-]|done].
      by apply (xinv_WaitFutex ts Hcap Hun s g u l t I) in E.
    + intros [= <-]. destruct (xinv_try ts s g u l t _ timer PostTas PostNap PostInc I Hp) as [g' ?]; eauto. exists g', u, l. by xgo.
    + intros [= <-]. exists g, u, l. xgo. by eapply (xinv_quiet ts s g u l t PostNap (PostTas 0)).
    + intros E. by eapply (xinv_PostInc ts Hcap Hun s g u l t I) in E.
    + intros E. by eapply (xinv_PostTest ts Hcap Hun s g u l t I) in E.
    + intros E. by eapply (xinv_PostWake ts Hcap Hun s g u l t I) in E.
    + intros E. by eapply (xinv_PostRemove ts Hcap Hun s g u l t I) in E.
    + intros [= <-]. assert (u ≠ At t) by (intros ->; by specialize (T2 eq_refl)).
      exists None, u, l. xgo. by eapply (xinv_open ts Hcap Hun s g u l t I PostOpen Outside).
Qed.

Section reach.
  Context (x : xem_t) (ts : list Z) (Hx : length (q_queue (xq x)) = XEMQSZ).
  Context (Hcap : (length ts < XEMQSZ)%nat) (Hun : UNUSED_SLOT ∉ ts).

Lemma xinv_start : xinv ts (xstart x ts) None Free [].
Proof using All.
  assert (∀ t p, pcs (xstart x ts) !! t = Some p → t ∈ ts ∧ p = Outside) as Hp.
  { intros t p Hp. simpl in Hp. apply elem_of_list_to_map_2 in Hp.
    apply list_elem_of_fmap in Hp as (t' & [= -> ->] & ?). done. }
  split.
  - intros t. split; [by intros [p [? _]%Hp]|]. intros Ht. simpl.
    apply list_elem_of_lookup in Ht as [i Hi]. destruct (list_to_map _ !! t) eqn:E; [eauto|].
    apply not_elem_of_list_to_map in E. destruct E. rewrite <-list_fmap_compose. apply list_elem_of_fmap.
    exists t. split; [done|]. by eapply list_elem_of_lookup_2.
  - split_and!; try done. set_solver.
  - intros t p [_ ->]%Hp. split; [done..|by intros ?%elem_of_nil|done|done].
  - pose proof (queue_init_ring (xq x) Hx) as Hr.
    split; cbn [xstart sem held xem_init guard count xq length mbind option_bind];
      [done|done|split; [constructor|done]|exact Hr|done|done|by intros [?|?]].
Qed.

Lemma xreach_inv s : xreach x ts s → ∃ g u l, xinv ts s g u l.
Proof using Hx Hcap Hun.
  induction 1 as [|a s s' _ (g & u & l & I) Hs].
  - exists None, Free, []. apply xinv_start.
  - destruct (xinv_step ts Hcap Hun s g u l a s' I Hs) as (g' & u' & l' & I' & _). eauto.
Qed.
End reach.

(** ** A lost wakeup *)

Section stuck.
  Context (ts : list Z) (Hcap : (length ts < XEMQSZ)%nat) (Hun : UNUSED_SLOT ∉ ts).

(** Only [futex_wake] moves another thread than the one that steps. *)
Lemma xstep_pcs a s s' t :
  xstep a s = Some s' → t ≠ actor a → pcs s !! actor a ≠ Some PostWake → pcs s' !! t = pcs s !! t.
Proof using.
  assert (∀ t0 p s0, t ≠ t0 → pcs (goto t0 p s0) !! t = pcs s0 !! t) as Hgo
    by (intros t0 p s0 Hne0; unfold goto; cbn [pcs]; by apply lookup_insert_ne).
  intros Hs Hne Hw. destruct a as [t0|t0|t0]; cbn [actor xstep] in *.
  - unfold call_wait in Hs. destruct (pcs s !! t0) as [[]|]; simplify_eq. by rewrite Hgo.
  - unfold call_unlock in Hs. destruct (pcs s !! t0) as [[]|]; try done.
    destruct (0 <? held s); simplify_eq. by apply (Hgo t0 _ s).
  - destruct (pcs s !! t0) as [p|] eqn:Hp; [|done]. cbn [mbind option_bind] in Hs.
    destruct p; simpl in Hs; unfold try_guard in Hs; repeat case_match; simplify_eq; try done;
      unfold goto, add_held, set_sem; cbn [pcs]; by rewrite ?lookup_insert_ne by done.
Qed.

(** A sleeper that was already given the unit sleeps for ever. *)
Lemma asleep_for_ever s g l t a act s' :
  xinv ts s g (At t) l → pcs s !! t = Some (Asleep a) → xstep act s = Some s' →
  ∃ g' l', xinv ts s' g' (At t) l' ∧ pcs s' !! t = Some (Asleep a).
Proof using Hcap Hun.
  intros I Hp Hs. assert (t ≠ actor act) as Hne.
  { intros ->. destruct act; simpl in *; unfold call_wait, call_unlock in Hs; by rewrite Hp in Hs. }
  destruct (xinv_step ts Hcap Hun s g (At t) l act s' I Hs) as (g' & u' & l' & I' & Hu).
  rewrite (Hu t Hne eq_refl) in I'. exists g', l'. split; [done|].
  rewrite (xstep_pcs act s s' t Hs Hne); [done|]. intros Hw.
  pose proof (xi_g _ _ _ _ _ I) as G. pose proof (ti_guard _ _ _ _ _ _ (xi_t _ _ _ _ _ I _ _ Hw)) as [Eg _].
  rewrite (Eg eq_refl) in G. simpl in G. rewrite Hw in G. by specialize (gi_post _ _ _ _ _ _ G (or_intror eq_refl)).
Qed.
End stuck.

(** ** Theorems *)

Definition xem0 : xem_t := mkXem 0 0 (mkQueue 0 0 (replicate XEMQSZ 0)).

(** Runs are reachable. *)
Lemma xrun_reach x ts l s : xrun l (xstart x ts) = Some s → xreach x ts s.
Proof.
  revert s. induction l as [|a l IH] using rev_ind; intros s.
  - intros [= <-]. constructor.
  - unfold xrun. rewrite foldl_app. simpl. fold (xrun l (xstart x ts)).
    destruct (xrun l (xstart x ts)) as [s0|]; [|done]. intros Hs. econstructor; [by apply IH|exact Hs].
Qed.

Definition xwait_alone (t : Z) : list act := [CallWait t; Run t; Run t; Run t].

(** Thread 1 holds the semaphore, thread 2 queues; thread 2 is descheduled
    before [futex_wait], thread 1 calls [futex_wake], then thread 2 goes to
    sleep, and only then thread 1 takes it off the queue. *)
Definition lost_schedule : list act :=
  xwait_alone 1 ++ [CallWait 2; Run 2; Run 2; Run 2; Run 2] ++
  [CallUnlock 1; Run 1; Run 1; Run 1; Run 1; Run 2; Run 1; Run 1].

(** C39: [futex_wake] followed by [queue_remove] can lose a wakeup: after
    [lost_schedule] the holder has released the semaphore, the queue is
    empty, and the thread it meant to wake sleeps; whatever calls on the
    semaphore follow, that thread never returns and nobody ever gets the
    semaphore again. *)
Theorem xem_lost_wakeup :
  ∃ s, xrun lost_schedule (xstart xem0 [1; 2; 3]) = Some s ∧
    pcs s !! 1 = Some Outside ∧ queue_empty (xq (sem s)) = true ∧
    ∀ l s', xrun l s = Some s' → pcs s' !! 2 = Some (Asleep 0) ∧ held s' = 0.
Proof.
  destruct (xrun lost_schedule (xstart xem0 [1; 2; 3])) as [s|] eqn:E; [|by vm_compute in E].
  assert (length [1; 2; 3] < XEMQSZ)%nat as Hcap by (unfold XEMQSZ; simpl; lia).
  assert (UNUSED_SLOT ∉ [1; 2; 3]) as Hun by (unfold UNUSED_SLOT; set_solver).
  exists s. split; [done|].
  destruct (xreach_inv xem0 [1; 2; 3] eq_refl Hcap Hun s) as (g & u & l & I); [by eapply xrun_reach|].
  vm_compute in E. injection E as <-. split; [done|]. split; [done|].
  match type of I with xinv _ ?s _ _ _ => set (s0 := s) in * end.
  assert (pcs s0 !! 2 = Some (Asleep 0)) as Hp by done.
  assert (u = At 2) as ->.
  { destruct (ti_waits _ _ _ _ _ _ (xi_t _ _ _ _ _ I 2 _ Hp) 0%nat eq_refl) as [Hin|?]; [|done].
    destruct (ti_in _ _ _ _ _ _ (xi_t _ _ _ _ _ I 2 _ Hp) Hin) as (a & [= <-] & Hq). done. }
  assert (∀ l' s', xrun l' s0 = Some s' →
    ∃ g' l'', xinv [1; 2; 3] s' g' (At 2) l'' ∧ pcs s' !! 2 = Some (Asleep 0)) as Hall.
  { induction l' as [|a l' IH] using rev_ind; intros s'.
    - intros [= <-]. by exists g, l.
    - unfold xrun. rewrite foldl_app. simpl. fold (xrun l' s0). destruct (xrun l' s0) as [s1|]; [|done].
      destruct (IH s1 eq_refl) as (g1 & l1 & I1 & Hp1). intros Hs. by eapply asleep_for_ever. }
  intros l' s' (g' & l'' & I' & Hp')%Hall. split; [done|]. apply (gi_held _ _ _ _ _ _ (xi_g _ _ _ _ _ I')).
Qed.

Close Scope Z_scope.
