(* ===== verification/XemStray.v ===== *)
(** * How many threads can hold a semaphore ([src/xv6-public/xem.c], [futex.c])

    A thread that waits in [futex_wait] sleeps on its own [struct proc], the
    channel on which [thread_exit] wakes the creator of a thread, [exit] wakes
    the parent of a process and [monopolize_proc] wakes the main thread.  Such
    a wakeup is not meant for the semaphore, but [futex_wait] returns all the
    same.  [wreach] runs the routines of [Xem] with these stray wakeups and
    counts them; the bound on the holders is in terms of this count. *)

From S2P Require Import Prelude.
From S2P Require Import Xem.

Open Scope Z_scope.

(** The runs of the threads [ts] with [n] stray wakeups that found their
    thread asleep in [futex_wait]. *)
Inductive wreach (x : xem_t) (ts : list Z) : Z → xsys → Prop :=
| wreach_start : wreach x ts 0 (xstart x ts)
| wreach_step a n s s' : wreach x ts n s → xstep a s = Some s' → wreach x ts n s'
| wreach_stray t a n s : wreach x ts n s → pcs s !! t = Some (Asleep a) → wreach x ts (n + 1) (wake_sleeper t s).

(** ** Sums over the threads *)

Definition tot (f : Z → xpc → Z) (m : gmap Z xpc) : Z := map_fold (λ t p n, f t p + n) 0 m.

Lemma tot_new f m t p : m !! t = None → tot f (<[t := p]> m) = f t p + tot f m.
Proof. intros Hm. unfold tot. rewrite map_fold_insert_L; [done| |done]. intros. lia. Qed.
Lemma tot_delete f m t p : m !! t = Some p → tot f m = f t p + tot f (delete t m).
Proof. intros Hm. rewrite <-(insert_delete_id m t p Hm) at 1. apply tot_new, lookup_delete_eq. Qed.
Lemma tot_insert f m t p p' : m !! t = Some p → tot f (<[t := p']> m) = tot f m - f t p + f t p'.
Proof.
  intros Hm. rewrite (tot_delete f m t p Hm), <-insert_delete_eq, tot_new by apply lookup_delete_eq. lia.
Qed.
Lemma tot_le f g m : (∀ t p, m !! t = Some p → f t p ≤ g t p) → tot f m ≤ tot g m.
Proof.
  induction m as [|t p m Hm IH] using map_ind; intros H; [done|]. rewrite !tot_new by done.
  pose proof (H t p (lookup_insert_eq _ _ _)). assert (tot f m ≤ tot g m); [|lia].
  apply IH. intros t' p' H'. apply H. rewrite lookup_insert_ne; [done|congruence].
Qed.
Lemma tot_ext f g m : (∀ t p, m !! t = Some p → f t p = g t p) → tot f m = tot g m.
Proof. intros H. apply Z.le_antisymm; apply tot_le; intros t p Hp; rewrite (H t p Hp); lia. Qed.
Lemma tot_plus f g m : tot (λ t p, f t p + g t p) m = tot f m + tot g m.
Proof. induction m as [|t p m Hm IH] using map_ind; [done|]. rewrite !tot_new, IH by done. lia. Qed.
Lemma tot_zero f m : (∀ t p, m !! t = Some p → f t p = 0) → tot f m = 0.
Proof.
  induction m as [|t p m Hm IH] using map_ind; intros H; [done|]. rewrite tot_new, (H t p (lookup_insert_eq _ _ _)) by done.
  apply IH. intros t' p' H'. apply H. rewrite lookup_insert_ne; [done|congruence].
Qed.
Lemma tot_ge f m t p : (∀ t p, 0 ≤ f t p) → m !! t = Some p → f t p ≤ tot f m.
Proof.
  intros Hf Hm. rewrite (tot_delete f m t p Hm).
  assert (tot (λ _ _, 0) (delete t m) ≤ tot f (delete t m)) as H by (apply tot_le; intros; apply Hf). rewrite tot_zero in H by done. lia.
Qed.

(** ** The invariant *)

(** Places where a thread accounts for a unit that [count] lacks. *)
Definition claims (_ : Z) (p : xpc) : Z :=
  match p with
  | WaitOpen | WaitAdd | WaitOpenQ _ | WaitFutex _ | Asleep _ | WaitFailed | PostTas _ | PostNap | PostInc => 1
  | _ => 0
  end.
(** The thread waits and its slot still says so; the slot [gone] is about to
    be freed. *)
Definition live (q : queue_t) (gone : option nat) (t : Z) (p : xpc) : Z :=
  match queued_at p with
  | Some a => if decide (q_queue q !! a = Some t ∧ gone ≠ Some a) then 1 else 0
  | None => 0
  end.
Definition gone (q : queue_t) (gp : option xpc) : option nat :=
  match gp with Some PostRemove => Some (q_head q) | _ => None end.
(** Past the decrement, and in no slot yet. *)
Definition adding (gp : option xpc) : Z := match gp with Some WaitAdd | Some WaitFailed => 1 | _ => 0 end.
(** Past the increment, with the wakeup to come. *)
Definition waking (gp : option xpc) : Z := match gp with Some PostTest | Some PostWake => 1 | _ => 0 end.

(** What the thread [g] that has the guard is about to do. *)
Definition gpc (g : option Z) (m : gmap Z xpc) : option xpc := g ≫= λ t, m !! t.

Record binv (s : xsys) (n : Z) (g : option Z) (l : list Z) : Prop := {
  bi_dom : pcs s !! UNUSED_SLOT = None;
  bi_own : ∀ t p, pcs s !! t = Some p → in_guard p = true ↔ g = Some t;
  bi_ref : ∀ t, g = Some t → is_Some (pcs s !! t);
  bi_guard : guard (sem s) = match g with Some _ => 1 | None => 0 end;
  bi_ring : match gpc g (pcs s) with
            | Some PostRemove => ∃ h, ring (xq (sem s)) (h :: l)
            | Some PostWake => l ≠ [] ∧ ring (xq (sem s)) l
            | _ => ring (xq (sem s)) l
            end;
  bi_count : count (sem s) = 1 - held s - tot claims (pcs s);
  bi_wait : - count (sem s) + waking (gpc g (pcs s)) ≤ Z.of_nat (length l) + adding (gpc g (pcs s));
  bi_live : Z.of_nat (length l) ≤ tot (live (xq (sem s)) (gone (xq (sem s)) (gpc g (pcs s)))) (pcs s) + n;
  bi_held : 0 ≤ held s
}.

Lemma live_01 q o t p : 0 ≤ live q o t p ≤ 1.
Proof. unfold live. destruct (queued_at p); [|lia]. case_decide; lia. Qed.
Lemma claims_01 t p : 0 ≤ claims t p ≤ 1.
Proof. destruct p; simpl; lia. Qed.

(** Every live entry is a claim, and the thread that adds itself is one more. *)
Lemma live_claims q o g m : (∀ t, g = Some t → is_Some (m !! t)) → tot (live q o) m + adding (gpc g m) ≤ tot claims m.
Proof.
  intros Hg. set (stuck := λ (_ : Z) (p : xpc), adding (Some p)).
  assert (tot (live q o) m + tot stuck m ≤ tot claims m) as H.
  { rewrite <-tot_plus. apply tot_le. intros t p _. unfold live, stuck. destruct p; simpl; try case_decide; lia. }
  assert (∀ t p, 0 ≤ stuck t p) as Hs by (intros ? []; unfold stuck; simpl; lia).
  assert (adding (gpc g m) ≤ tot stuck m); [|lia]. destruct g as [t|]; simpl.
  - destruct (Hg t eq_refl) as [p Hp]. rewrite Hp. by apply (tot_ge stuck m t p).
  - rewrite <-(tot_zero (λ _ _, 0) m) by done. apply tot_le. intros. apply Hs.
Qed.

Lemma binv_bound s n g l : binv s n g l → held s ≤ 1 + n.
Proof.
  intros [B1 B2 B3 B4 B5 B6 B7 B8 B9]. pose proof (live_claims (xq (sem s)) (gone (xq (sem s)) (gpc g (pcs s))) g (pcs s) B3).
  assert (0 ≤ waking (gpc g (pcs s))) by (destruct (gpc g (pcs s)) as [[]|]; simpl; lia). lia.
Qed.

Lemma binv_mono s n n' g l : n ≤ n' → binv s n g l → binv s n' g l.
Proof. intros Hn [B1 B2 B3 B4 B5 B6 B7 B8 B9]. split; try done. lia. Qed.

(** *** One thread moves *)

Definition at_next (g : option Z) (t : Z) (p : xpc) (m : gmap Z xpc) : option xpc :=
  g ≫= λ t0, if decide (t0 = t) then Some p else m !! t0.

Lemma gpc_insert g t p m : gpc g (<[t := p]> m) = at_next g t p m.
Proof.
  destruct g as [t0|]; [|done]. simpl. case_decide as E; [subst; apply lookup_insert_eq|by rewrite lookup_insert_ne].
Qed.

Lemma binv_move s n g l t p p' s' n' g' l' :
  binv s n g l → pcs s !! t = Some p → pcs s' = <[t := p']> (pcs s) →
  (in_guard p' = true ↔ g' = Some t) → (∀ t0, t0 ≠ t → g' = Some t0 ↔ g = Some t0) →
  guard (sem s') = match g' with Some _ => 1 | None => 0 end →
  match at_next g' t p' (pcs s) with
  | Some PostRemove => ∃ h, ring (xq (sem s')) (h :: l')
  | Some PostWake => l' ≠ [] ∧ ring (xq (sem s')) l'
  | _ => ring (xq (sem s')) l'
  end →
  count (sem s') + held s' + claims t p' = count (sem s) + held s + claims t p →
  - count (sem s') + waking (at_next g' t p' (pcs s)) ≤ Z.of_nat (length l') + adding (at_next g' t p' (pcs s)) →
  Z.of_nat (length l') ≤ tot (live (xq (sem s')) (gone (xq (sem s')) (at_next g' t p' (pcs s)))) (<[t := p']> (pcs s)) + n' →
  0 ≤ held s' → binv s' n' g' l'.
Proof.
  intros [B1 B2 B3 B4 B5 B6 B7 B8 B9] Hp Ep Hg Hg0 E1 E2 E3 E4 E5 E6.
  assert (is_Some (pcs s !! t)) as Hs by eauto. split; rewrite ?Ep, ?gpc_insert; try done.
  - rewrite lookup_insert_ne; [done|]. intros ->. congruence.
  - intros t0 p0. destruct (decide (t0 = t)) as [->|Hne]; [rewrite lookup_insert_eq; by intros [= <-]|].
    rewrite lookup_insert_ne by done. intros H0. rewrite Hg0 by done. by apply B2.
  - intros t0 H0. destruct (decide (t0 = t)) as [->|Hne]; [by rewrite lookup_insert_eq|].
    rewrite lookup_insert_ne by done. apply B3. by apply Hg0.
  - rewrite (tot_insert _ _ _ p p' Hp). lia.
Qed.

(** The entry of the moving thread in [live] does not change, nor does the
    ring: the bound on the list stays. *)
Lemma live_move q o m t p p' (k n : Z) :
  m !! t = Some p → live q o t p ≤ live q o t p' → k ≤ tot (live q o) m + n → k ≤ tot (live q o) (<[t := p']> m) + n.
Proof. intros Hp Hl Hk. rewrite (tot_insert _ _ _ p p' Hp). lia. Qed.

(** A step outside the guard, or a wakeup: the semaphore does not change. *)
Lemma binv_free s n g l t p p' s' n' :
  binv s n g l → pcs s !! t = Some p → pcs s' = <[t := p']> (pcs s) → sem s' = sem s →
  in_guard p = false → in_guard p' = false → held s' + claims t p' = held s + claims t p → 0 ≤ held s' →
  live (xq (sem s)) (gone (xq (sem s)) (gpc g (pcs s))) t p + n ≤
    live (xq (sem s)) (gone (xq (sem s)) (gpc g (pcs s))) t p' + n' →
  binv s' n' g l.
Proof.
  intros B Hp Ep Es Hi Hi' Hh H0 Hl. pose proof B as [B1 B2 B3 B4 B5 B6 B7 B8 B9].
  assert (g ≠ Some t) as Hg by (rewrite <-(B2 t p Hp); congruence).
  assert (at_next g t p' (pcs s) = gpc g (pcs s)) as En.
  { destruct g as [t0|]; [|done]. simpl. rewrite decide_False; [done|congruence]. }
  eapply (binv_move s n g l t p p' s' n' g l); rewrite ?En, ?Es; try done; try lia.
  - split; congruence.
  - rewrite (tot_insert _ _ _ p p' Hp). lia.
Qed.

Lemma at_next_owner t p m : at_next (Some t) t p m = Some p.
Proof. simpl. by rewrite decide_True. Qed.

(** A step of the thread that has the guard which leaves the ring alone. *)
Lemma binv_owner s n g l t p p' s' g' :
  binv s n g l → pcs s !! t = Some p → in_guard p = true → pcs s' = <[t := p']> (pcs s) →
  p ≠ PostRemove → p' ≠ PostRemove → (p' = PostWake → l ≠ []) → xq (sem s') = xq (sem s) →
  g' = (if in_guard p' then Some t else None) → guard (sem s') = (if in_guard p' then 1 else 0) →
  queued_at p' = queued_at p →
  count (sem s') + held s' + claims t p' = count (sem s) + held s + claims t p →
  (- count (sem s) + waking (Some p) ≤ Z.of_nat (length l) + adding (Some p) →
   - count (sem s') + waking (Some p') ≤ Z.of_nat (length l) + adding (Some p')) →
  0 ≤ held s' → binv s' n g' l.
Proof.
  intros B Hp Hi Ep N1 N2 Hw Eq Eg E1 Hq E2 E3 E4. pose proof B as [B1 B2 B3 B4 B5 B6 B7 B8 B9].
  assert (g = Some t) as -> by by apply (B2 t p Hp). simpl in B5, B7, B8. rewrite Hp in B5, B7, B8.
  assert (ring (xq (sem s)) l) as Hr by (destruct p; try done; by destruct B5).
  assert (gone (xq (sem s)) (Some p) = None) as G1 by by destruct p.
  assert (at_next g' t p' (pcs s) = if in_guard p' then Some p' else None) as En.
  { rewrite Eg. destruct (in_guard p'); [apply at_next_owner|done]. }
  assert (gone (xq (sem s)) (at_next g' t p' (pcs s)) = None) as G2 by (rewrite En; destruct p'; done).
  assert (waking (at_next g' t p' (pcs s)) = waking (Some p')) as Ew by (rewrite En; destruct p'; done).
  assert (adding (at_next g' t p' (pcs s)) = adding (Some p')) as Ea by (rewrite En; destruct p'; done).
  eapply (binv_move s n (Some t) l t p p'); rewrite ?Eq, ?G2, ?Ew, ?Ea; try done; try (by apply E3).
  - rewrite Eg. destruct (in_guard p'); split; congruence.
  - intros t0 Hne. rewrite Eg. destruct (in_guard p'); [done|]. split; congruence.
  - rewrite Eg, E1. by destruct (in_guard p').
  - rewrite En. destruct p'; simpl; try done. split; [by apply Hw|done].
  - eapply live_move; [done| |by rewrite <-G1]. unfold live. by rewrite Hq.
Qed.

(** Trying the guard. *)
Lemma binv_try s n g l t p timer again nap next :
  binv s n g l → pcs s !! t = Some p → in_guard p = false → queued_at p = None →
  (∀ k, in_guard (again k) = false ∧ queued_at (again k) = None ∧ claims t (again k) = claims t p) →
  in_guard nap = false ∧ queued_at nap = None ∧ claims t nap = claims t p →
  next = WaitDec ∨ next = PostInc → claims t next = claims t p →
  ∃ g', binv (try_guard t timer again nap next s) n g' l.
Proof.
  intros B Hp Hi Hq Ha (N1 & N2 & N3) Hn Hc. unfold try_guard. pose proof B as [B1 B2 B3 B4 B5 B6 B7 B8 B9].
  assert (∀ o p', queued_at p' = None → live (xq (sem s)) o t p' = 0) as L0 by (intros o p' E; unfold live; by rewrite E).
  destruct (Z.eqb_spec (guard (sem s)) 1) as [E|E].
  - exists g. rewrite set_guard_same by done. destruct (Z.ltb timer SLEEPTIME).
    + eapply (binv_free s n g l t p nap); try done; simpl; [lia|]. rewrite !L0 by done. lia.
    + destruct (Ha (timer + 1)) as (A1 & A2 & A3).
      eapply (binv_free s n g l t p (again (timer + 1))); try done; simpl; [lia|]. rewrite !L0 by done. lia.
  - destruct g as [t0|]; [by rewrite B4 in E|]. exists (Some t). simpl in B5, B7, B8.
    eapply (binv_move s n None l t p next); rewrite ?at_next_owner; try done; simpl.
    + destruct Hn as [-> | ->]; done.
    + intros t0 Hne. split; congruence.
    + destruct Hn as [-> | ->]; done.
    + lia.
    + destruct Hn as [-> | ->]; simpl; lia.
    + eapply live_move; [done| |]; destruct Hn as [-> | ->]; try done; rewrite !L0 by done; done.
Qed.

(** A wakeup of a sleeper takes its entry out of [live]. *)
Lemma binv_wake s n g l th :
  binv s n g l →
  binv (wake_sleeper th s)
    (n + match pcs s !! th with
         | Some (Asleep a) => live (xq (sem s)) (gone (xq (sem s)) (gpc g (pcs s))) th (Asleep a)
         | _ => 0
         end) g l.
Proof.
  intros B. unfold wake_sleeper. pose proof (bi_held _ _ _ _ B).
  destruct (pcs s !! th) as [p|] eqn:Hp; [|by rewrite Z.add_0_r]. destruct p; try by rewrite Z.add_0_r.
  eapply (binv_free s n g l th (Asleep addr) Outside); try done; simpl; try lia.
  change (live (xq (sem s)) (gone (xq (sem s)) (gpc g (pcs s))) th Outside) with 0. lia.
Qed.

Lemma binv_WaitAdd s n g l t s' :
  binv s n g l → pcs s !! t = Some WaitAdd → run_wait t WaitAdd s = Some s' → ∃ g' l', binv s' n g' l'.
Proof.
  intros B Hp Hs. pose proof B as [B1 B2 B3 B4 B5 B6 B7 B8 B9].
  assert (g = Some t) as -> by by apply (B2 t _ Hp). simpl in B5, B7, B8, Hs. rewrite Hp in B5, B7, B8. simpl in B5, B7, B8.
  assert (∀ t0 p0, pcs s !! t0 = Some p0 → t0 ≠ UNUSED_SLOT) as Hun by (intros t0 p0 H0 ->; congruence).
  destruct (decide (length l < XEMQSZ - 1)%nat) as [Hl|Hl].
  - destruct (queue_add_ring _ l t B5 Hl) as (q' & Eq & Hr & Hsame & Hslot & Hold). rewrite Eq in Hs. injection Hs as <-.
    exists (Some t), (l ++ [t]).
    eapply (binv_move s n (Some t) l t WaitAdd (WaitOpenQ (q_rear (xq (sem s))))); rewrite ?at_next_owner; try done; simpl; try (rewrite ?length_app; simpl; lia).
    rewrite (tot_insert _ _ _ WaitAdd) by done. unfold live at 2 3. cbn [queued_at]. rewrite decide_True by done.
    rewrite (tot_ext (live q' None) (live (xq (sem s)) None)); [rewrite length_app; simpl; lia|].
    intros t0 p0 H0. unfold live. destruct (queued_at p0) as [a|] eqn:Ha; [|done]. destruct (decide (a = q_rear (xq (sem s)))) as [->|Hne].
    + rewrite Hslot, Hold. rewrite !decide_False; [done| |].
      * intros [[= E] _]. by apply (Hun t0 p0 H0).
      * intros [[= ->] _]. rewrite Hp in H0. by injection H0 as <-.
    + by rewrite Hsame.
  - assert (length l = (XEMQSZ - 1)%nat) as El by (pose proof (rg_cap _ _ B5); lia).
    rewrite (queue_add_full _ l t B5 El) in Hs. injection Hs as <-. exists (Some t), l.
    by eapply (binv_owner s n (Some t) l t WaitAdd WaitFailed).
Qed.

Lemma binv_WaitFutex s n g l t a s' :
  binv s n g l → pcs s !! t = Some (WaitFutex a) → run_wait t (WaitFutex a) s = Some s' → ∃ g' l', binv s' n g' l'.
Proof.
  intros B Hp Hs. simpl in Hs. exists g, l. pose proof (bi_held _ _ _ _ B).
  destruct (Z.eqb_spec (slot_val (xq (sem s)) a) t) as [E|E]; simplify_eq/=.
  - by eapply (binv_free s n g l _ (WaitFutex a) (Asleep a)).
  - eapply (binv_free s n g l t (WaitFutex a) Outside); try done; simpl; try lia.
    unfold live. simpl. rewrite decide_False; [lia|]. intros [Ha _]. apply E. unfold slot_val. by rewrite Ha.
Qed.

Lemma binv_PostTest s n g l t s' :
  binv s n g l → pcs s !! t = Some PostTest → run_unlock t PostTest s = Some s' → ∃ g' l', binv s' n g' l'.
Proof.
  intros B Hp [= <-]. pose proof B as [B1 B2 B3 B4 B5 B6 B7 B8 B9].
  assert (g = Some t) as -> by by apply (B2 t _ Hp). simpl in B5. rewrite Hp in B5. rewrite (queue_empty_ring _ _ B5).
  exists (Some t), l. destruct (decide (l = [])) as [El|El].
  - rewrite bool_decide_eq_true_2 by done. eapply (binv_owner s n (Some t) l t PostTest PostOpen); try done. simpl. lia.
  - rewrite bool_decide_eq_false_2 by done. by eapply (binv_owner s n (Some t) l t PostTest PostWake).
Qed.

Lemma binv_PostRemove s n g l t s' :
  binv s n g l → pcs s !! t = Some PostRemove → run_unlock t PostRemove s = Some s' → ∃ g' l', binv s' n g' l'.
Proof.
  intros B Hp [= <-]. pose proof B as [B1 B2 B3 B4 B5 B6 B7 B8 B9].
  assert (g = Some t) as -> by by apply (B2 t _ Hp). simpl in B5, B7, B8. rewrite Hp in B5, B7, B8.
  destruct B5 as [h Hr]. destruct (queue_remove_ring _ _ _ Hr) as (_ & Hr' & Hsame). exists (Some t), l.
  eapply (binv_move s n (Some t) l t PostRemove PostOpen); rewrite ?at_next_owner; try done.
  cbn [sem goto set_sem xq set_xq gone]. rewrite (tot_insert _ _ _ PostRemove) by done. unfold live at 2 3. cbn [queued_at].
  rewrite (tot_ext _ (live (xq (sem s)) (Some (q_head (xq (sem s)))))); [simpl in B8; lia|].
  intros t0 p0 H0. unfold live. destruct (queued_at p0) as [a|]; [|done].
  destruct (decide (a = q_head (xq (sem s)))) as [->|Hne].
  - rewrite !decide_False; [done|by intros [_ ?]|]. intros [E _]. cbn [q_queue queue_remove] in E.
    rewrite list_lookup_insert_eq in E by (rewrite (rg_len _ _ Hr); apply (rg_head _ _ Hr)). congruence.
  - rewrite Hsame by done. apply decide_ext. split; [intros [? _]; split; congruence|by intros [? _]].
Qed.

(** Before [queue_remove], the entry at the head of the ring is taken off
    the books; it was live for at most the thread it names. *)
Lemma binv_unhead s n l t h :
  binv s n (Some t) (h :: l) → pcs s !! t = Some PostWake → slot_val (xq (sem s)) (queue_head (xq (sem s))) = h →
  binv (goto t PostRemove s)
    (n - 1 + match pcs s !! h with
             | Some p => if decide (queued_at p = Some (q_head (xq (sem s)))) then 1 else 0
             | None => 0
             end) (Some t) l.
Proof.
  intros B Hp Eh. pose proof B as [B1 B2 B3 B4 B5 B6 B7 B8 B9]. simpl in B5, B7, B8. rewrite Hp in B5, B7, B8. destruct B5 as [_ Hr].
  pose proof (rg_slot _ _ Hr 0%nat h eq_refl) as Hh. rewrite Nat.add_0_r, Nat.mod_small in Hh by apply (rg_head _ _ Hr).
  set (q := xq (sem s)) in *. set (c := match pcs s !! h with Some p => _ | None => 0 end).
  eapply (binv_move s n (Some t) (h :: l) t PostWake PostRemove); rewrite ?at_next_owner; try done; simpl; try (simpl in B7; lia); [by exists h|].
  rewrite (tot_insert _ _ _ PostWake) by done. change (live (xq (sem s)) (Some (q_head (xq (sem s)))) t PostRemove) with 0.
  change (live (xq (sem s)) (Some (q_head (xq (sem s)))) t PostWake) with 0. fold q. simpl in B8.
  set (one := λ (t0 : Z) (p0 : xpc), if decide (t0 = h ∧ queued_at p0 = Some (q_head q)) then 1 else 0).
  assert (tot (live q None) (pcs s) = tot (live q (Some (q_head q))) (pcs s) + tot one (pcs s)) as Eone.
  { rewrite <-tot_plus. apply tot_ext. intros t0 p0 H0. unfold live, one. destruct (queued_at p0) as [a|].
    - destruct (decide (a = q_head q)) as [->|Hne].
      + rewrite Hh. destruct (decide (t0 = h)) as [->|Hn0].
        * by rewrite decide_True, (decide_False (P := _ ∧ Some (q_head q) ≠ _)), decide_True by naive_solver.
        * by rewrite !decide_False by naive_solver.
      + rewrite (decide_False (P := t0 = h ∧ _)) by naive_solver. rewrite Z.add_0_r. apply decide_ext. naive_solver.
    - by rewrite decide_False by naive_solver. }
  assert (tot one (pcs s) ≤ c); [|lia]. unfold c. clear -B1.
  destruct (pcs s !! h) as [p|] eqn:Hph.
  - rewrite (tot_delete _ _ _ _ Hph), (tot_zero one).
    + unfold one. case_decide; case_decide; naive_solver lia.
    + intros t0 p0 H0. unfold one. rewrite decide_False; [done|]. intros [-> _]. by rewrite lookup_delete_eq in H0.
  - rewrite (tot_zero one); [done|]. intros t0 p0 H0. unfold one. rewrite decide_False; [done|]. intros [-> _]. congruence.
Qed.

Lemma wake_goto s t h p : pcs s !! t = Some p → (∀ a, p ≠ Asleep a) → goto t PostRemove (wake_sleeper h s) = wake_sleeper h (goto t PostRemove s).
Proof.
  intros Hp Hn. unfold wake_sleeper, goto. cbn [pcs]. destruct (decide (h = t)) as [->|Hne].
  - rewrite lookup_insert_eq, Hp. destruct p; try done. by destruct (Hn addr).
  - rewrite lookup_insert_ne by done. destruct (pcs s !! h) as [[]|]; try done. unfold add_held. cbn [pcs sem held].
    by rewrite insert_insert_ne.
Qed.

Lemma binv_PostWake s n g l t s' :
  binv s n g l → pcs s !! t = Some PostWake → run_unlock t PostWake s = Some s' → ∃ g' l', binv s' n g' l'.
Proof.
  intros B Hp [= <-]. pose proof B as [B1 B2 B3 B4 B5 B6 B7 B8 B9].
  assert (g = Some t) as -> by by apply (B2 t _ Hp). simpl in B5. rewrite Hp in B5. destruct B5 as [Hl Hr].
  destruct l as [|h l]; [done|]. destruct (queue_remove_ring _ _ _ Hr) as (Eh & _). unfold wake_slot. rewrite Eh.
  rewrite (wake_goto s t h PostWake) by done. exists (Some t), l.
  pose proof (binv_wake _ _ _ _ h (binv_unhead s n l t h B Hp Eh)) as W.
  assert (h ≠ t → pcs (goto t PostRemove s) !! h = pcs s !! h) as Eo by (intros Hne; unfold goto; cbn [pcs]; by rewrite lookup_insert_ne).
  eapply binv_mono; [|exact W]. clear W. destruct (decide (h = t)) as [->|Hne].
  { unfold goto. cbn [pcs]. rewrite lookup_insert_eq, Hp. simpl. lia. }
  rewrite (Eo Hne). destruct (pcs s !! h) as [p|]; [|lia].
  destruct p; cbn [queued_at]; try (case_decide; lia).
  cbn [goto pcs sem].
  rewrite gpc_insert, at_next_owner. unfold live. cbn [queued_at gone].
  destruct (decide (Some addr = Some (q_head (xq (sem s))))) as [[= ->]|]; [|case_decide; lia].
  rewrite decide_False; [lia|]. by intros [_ ?].
Qed.

(** *** Every step *)

Lemma binv_step s n g l a s' : binv s n g l → xstep a s = Some s' → ∃ g' l', binv s' n g' l'.
Proof.
  intros B. pose proof (bi_held _ _ _ _ B) as H0. destruct a as [t|t|t]; simpl.
  - unfold call_wait. destruct (pcs s !! t) as [[]|] eqn:Hp; try done. intros [= <-]. exists g, l.
    by eapply (binv_free s n g l t Outside (WaitTas 0)).
  - unfold call_unlock. destruct (pcs s !! t) as [[]|] eqn:Hp; try done. destruct (Z.ltb_spec 0 (held s)); [|done]. intros [= <-]. exists g, l.
    eapply (binv_free s n g l t Outside (PostTas 0)); try done; simpl; lia.
  - destruct (pcs s !! t) as [p|] eqn:Hp; [|done]. cbn [mbind option_bind].
    pose proof (bi_own _ _ _ _ B t p Hp) as Hown. destruct p; try done.
    + intros [= <-]. destruct (binv_try s n g l t _ timer WaitTas WaitNap WaitDec B Hp) as [g' ?]; eauto.
    + intros [= <-]. exists g, l. by eapply (binv_free s n g l t WaitNap (WaitTas 0)).
    + cbn [run_wait sem set_sem count set_count]. destruct (Z.leb_spec 0 (count (sem s) - 1)); intros [= <-]; exists (Some t), l.
      * eapply (binv_owner s n g l t WaitDec WaitOpen); try done; simpl; try lia. rewrite (bi_guard _ _ _ _ B). by rewrite (proj1 Hown eq_refl).
      * eapply (binv_owner s n g l t WaitDec WaitAdd); try done; simpl; try lia. rewrite (bi_guard _ _ _ _ B). by rewrite (proj1 Hown eq_refl).
    + intros [= <-]. exists None, l. eapply (binv_owner s n g l t WaitOpen Outside); try done; simpl; lia.
    + intros E. destruct (run_wait t WaitAdd s) eqn:E'; [injection E as ->|by simpl in E]. by apply (binv_WaitAdd s n g l t _ B Hp).
    + intros [= <-]. exists None, l. by eapply (binv_owner s n g l t (WaitOpenQ addr) (WaitFutex addr)).
    + intros E. destruct (run_wait t (WaitFutex addr) s) eqn:E'; [injection E as ->|by simpl in E]. by apply (binv_WaitFutex s n g l t addr _ B Hp).
    + intros [= <-]. destruct (binv_try s n g l t _ timer PostTas PostNap PostInc B Hp) as [g' ?]; eauto.
    + intros [= <-]. exists g, l. by eapply (binv_free s n g l t PostNap (PostTas 0)).
    + intros [= <-]. exists (Some t), l. eapply (binv_owner s n g l t PostInc PostTest); try done; simpl; try lia.
      rewrite (bi_guard _ _ _ _ B). by rewrite (proj1 Hown eq_refl).
    + by apply (binv_PostTest s n g l t s' B).
    + by apply (binv_PostWake s n g l t s' B).
    + by apply (binv_PostRemove s n g l t s' B).
    + intros [= <-]. exists None, l. by eapply (binv_owner s n g l t PostOpen Outside).
Qed.

Lemma xstart_pcs x ts t p : pcs (xstart x ts) !! t = Some p → t ∈ ts ∧ p = Outside.
Proof.
  intros Hp. simpl in Hp. apply elem_of_list_to_map_2 in Hp. apply list_elem_of_fmap in Hp as (t' & [= -> ->] & ?). done.
Qed.

Lemma wreach_inv x ts n s :
  length (q_queue (xq x)) = XEMQSZ → UNUSED_SLOT ∉ ts → wreach x ts n s → ∃ g l, binv s n g l.
Proof.
  intros Hx Hun. induction 1 as [|a n s s' _ (g & l & B) Hs|t a n s _ (g & l & B) Hp].
  - exists None, []. assert (∀ f, (∀ t, f t Outside = 0) → tot f (pcs (xstart x ts)) = 0) as E.
    { intros f Hf. apply tot_zero. intros t p [_ ->]%xstart_pcs. apply Hf. }
    split; try done.
    + destruct (pcs (xstart x ts) !! UNUSED_SLOT) as [p|] eqn:Hp; [|done]. by destruct (xstart_pcs _ _ _ _ Hp).
    + intros t p [_ ->]%xstart_pcs. done.
    + by apply queue_init_ring.
    + by rewrite E.
    + rewrite E; done.
  - destruct (binv_step _ _ _ _ _ _ B Hs) as (g' & l' & ?). eauto.
  - exists g, l. eapply binv_mono; [|apply (binv_wake _ _ _ _ t B)]. rewrite Hp. pose proof (live_01 (xq (sem s)) (gone (xq (sem s)) (gpc g (pcs s))) t (Asleep a)). lia.
Qed.

(** Without stray wakeups these are the runs of [Xem]. *)
Lemma wreach_calm x ts n s : wreach x ts n s → 0 ≤ n ∧ (n = 0 → xreach x ts s).
Proof.
  induction 1 as [|a n s s' _ [Hn IH] Hs|t a n s _ [Hn IH] Hp]; [split; [done|constructor]|split; [done|]|split; lia].
  intros E. econstructor; [by apply IH|exact Hs].
Qed.

(** ** Theorems *)

(** C17: Whatever the interleaving of its threads, and however often the ring
    is found full, the calls of [xem_wait] on a semaphore made by [xem_init]
    that returned 0 and were not undone are at most one more than the wakeups
    that reached a waiting thread from outside the semaphore ([thread_exit],
    [exit] and [monopolize_proc] wake the channel [futex_wait] sleeps on).
    Without such wakeups the semaphore excludes, and with fewer than [XEMQSZ]
    threads no [xem_wait] returns -1. *)
Theorem xem_excludes x ts n s :
  length (q_queue (xq x)) = XEMQSZ → UNUSED_SLOT ∉ ts → wreach x ts n s →
  0 ≤ held s ≤ 1 + n ∧
  (n = 0 → (length ts < XEMQSZ)%nat → ∀ t, pcs s !! t ≠ Some WaitFailed).
Proof.
  intros Hx Hun Hr. destruct (wreach_inv x ts n s Hx Hun Hr) as (g & l & B). split.
  - split; [apply B|by eapply binv_bound].
  - intros E Hcap t Hp. destruct (xreach_inv x ts Hx Hcap Hun s) as (g' & u & l' & I); [by apply (wreach_calm x ts n s Hr)|].
    by apply (ti_ok _ _ _ _ _ _ (xi_t _ _ _ _ _ I t _ Hp)).
Qed.

Lemma xrun_wreach x ts n s l s' : wreach x ts n s → xrun l s = Some s' → wreach x ts n s'.
Proof.
  intros Hr. revert s'. induction l as [|a l IH] using rev_ind; intros s'.
  - by intros [= <-].
  - unfold xrun. rewrite foldl_app. simpl. fold (xrun l s).
    destruct (xrun l s) as [s0|]; [|done]. intros Hs. econstructor; [by apply IH|exact Hs].
Qed.

(** Thread 1 holds the semaphore and thread 2 sleeps for it. *)
Definition one_waits : list act := xwait_alone 1 ++ [CallWait 2; Run 2; Run 2; Run 2; Run 2; Run 2].

(** A thread that thread 2 created exits: both hold the semaphore, so the
    bound is reached. *)
Lemma xem_excludes_witness :
  ∃ s, wreach xem0 [1; 2] 1 s ∧ held s = 2 ∧ pcs s !! 1 = Some Outside ∧ pcs s !! 2 = Some Outside ∧ 0 ≤ held s ≤ 1 + 1.
Proof.
  destruct (xrun one_waits (xstart xem0 [1; 2])) as [s|] eqn:E; [|by vm_compute in E].
  assert (pcs s !! 2 = Some (Asleep 0) ∧ held s = 1 ∧ pcs s !! 1 = Some Outside) as (H2 & Hh & H1)
    by (vm_compute in E; injection E as <-; done).
  assert (wreach xem0 [1; 2] 1 (wake_sleeper 2 s)) as Hw.
  { apply (wreach_stray xem0 [1; 2] 2 0 0 s); [|done]. eapply xrun_wreach; [apply wreach_start|done]. }
  exists (wake_sleeper 2 s). split; [done|]. split_and!.
  - unfold wake_sleeper. rewrite H2. simpl. lia.
  - unfold wake_sleeper. rewrite H2. simpl. by rewrite lookup_insert_ne.
  - unfold wake_sleeper. rewrite H2. simpl. by rewrite lookup_insert_eq.
  - apply (xem_excludes xem0 [1; 2] 1 (wake_sleeper 2 s)); [done|unfold UNUSED_SLOT; set_solver|done].
  - apply (xem_excludes xem0 [1; 2] 1 (wake_sleeper 2 s)); [done|unfold UNUSED_SLOT; set_solver|done].
Defined.

Close Scope Z_scope.
