(* ===== verification/Rwlock.v ===== *)
(** * Readers-writer lock ([src/xv6-public/xem.c])

    [rwlock_t] is three semaphores and a counter.  A thread is at a place of
    a routine of the lock and, while the routine is in a call of [xem_wait] or
    [xem_unlock], at a place of that call: the calls are the ones of [Xem],
    run one shared access at a time, with their wakeups, their sleeps and
    their failures.  [rw_next] makes the next step of one thread. *)

From S2P Require Import Prelude.
From S2P Require Import Xem.

Open Scope Z_scope.

(** Where a thread is: in no routine, in a call of a semaphore routine, at an
    update of [ctr], or past a routine that returned 0 with the lock taken or
    that returned -1. *)
Inductive rpc :=
| Idle
| RdIn | RdMx | RdInc | RdWrt | RdUnMx | RdUnIn     (* rwlock_acquire_readlock *)
| Reading
| RrMx | RrDec | RrUnWrt | RrUnMx                   (* rwlock_release_readlock *)
| WrIn | WrWrt                                      (* rwlock_acquire_writelock *)
| Writing
| WuWrt | WuIn                                      (* rwlock_release_writelock *)
| RFailed.                                          (* a routine returned -1 *)
#[global] Instance rpc_eq_dec : EqDecision rpc.
Proof. solve_decision. Defined.

(** The memory of the lock. *)
Record rwlock_t := mkRwlock { l_in : xem_t; l_mx : xem_t; l_wrt : xem_t; l_ctr : Z }.

Definition rwlock_init (r : rwlock_t) : rwlock_t :=
  mkRwlock (xem_init (l_in r)) (xem_init (l_mx r)) (xem_init (l_wrt r)) 0.

(** The lock and the threads of the process: a semaphore comes with the place
    of every thread in its routines, [Outside] for a thread that is in none. *)
Inductive semid := SIn | SMx | SWrt.
#[global] Instance semid_eq_dec : EqDecision semid.
Proof. solve_decision. Defined.
Record rwsys := mkRwsys { w_in : xsys; w_mx : xsys; w_wrt : xsys; w_ctr : Z; w_sites : gmap Z rpc }.

Definition w_sem (s : rwsys) (k : semid) : xsys := match k with SIn => w_in s | SMx => w_mx s | SWrt => w_wrt s end.
Definition upd_sem (k : semid) (f : xsys → xsys) (s : rwsys) : rwsys :=
  match k with
  | SIn => mkRwsys (f (w_in s)) (w_mx s) (w_wrt s) (w_ctr s) (w_sites s)
  | SMx => mkRwsys (w_in s) (f (w_mx s)) (w_wrt s) (w_ctr s) (w_sites s)
  | SWrt => mkRwsys (w_in s) (w_mx s) (f (w_wrt s)) (w_ctr s) (w_sites s)
  end.
Definition set_site (t : Z) (p : rpc) (s : rwsys) : rwsys :=
  mkRwsys (w_in s) (w_mx s) (w_wrt s) (w_ctr s) (<[t := p]> (w_sites s)).
Definition set_ctr (v : Z) (s : rwsys) : rwsys := mkRwsys (w_in s) (w_mx s) (w_wrt s) v (w_sites s).

(** ** The routines *)

Inductive xcall := CWait (k : semid) | CUnlock (k : semid).
Definition call_sem (c : xcall) : semid := match c with CWait k | CUnlock k => k end.

(** The call a place is in. *)
Definition call_at (p : rpc) : option xcall :=
  match p with
  | RdIn | WrIn => Some (CWait SIn)
  | RdMx | RrMx => Some (CWait SMx)
  | RdWrt | WrWrt => Some (CWait SWrt)
  | RdUnMx | RrUnMx => Some (CUnlock SMx)
  | RdUnIn | WuIn => Some (CUnlock SIn)
  | RrUnWrt | WuWrt => Some (CUnlock SWrt)
  | _ => None
  end.

(** Where a routine goes when the call it is in returns [ret]. *)
Definition rwlock_acquire_readlock (p : rpc) (ret : Z) : rpc :=
  match p with
  | RdIn => if Z.ltb ret 0 then RFailed else RdMx
  | RdMx => if Z.ltb ret 0 then RFailed else RdInc
  | RdWrt => if Z.ltb ret 0 then RFailed else RdUnMx
  | RdUnMx => if Z.ltb ret 0 then RFailed else RdUnIn
  | RdUnIn => if Z.ltb ret 0 then RFailed else Reading
  | _ => p
  end.
Definition rwlock_acquire_writelock (p : rpc) (ret : Z) : rpc :=
  match p with
  | WrIn => if Z.ltb ret 0 then RFailed else WrWrt
  | WrWrt => if Z.ltb ret 0 then RFailed else Writing
  | _ => p
  end.
Definition rwlock_release_readlock (p : rpc) (ret : Z) : rpc :=
  match p with
  | RrMx => if Z.ltb ret 0 then RFailed else RrDec
  | RrUnWrt => if Z.ltb ret 0 then RFailed else RrUnMx
  | RrUnMx => if Z.ltb ret 0 then RFailed else Idle
  | _ => p
  end.
Definition rwlock_release_writelock (p : rpc) (ret : Z) : rpc :=
  match p with
  | WuWrt => if Z.ltb ret 0 then RFailed else WuIn
  | WuIn => if Z.ltb ret 0 then RFailed else Idle
  | _ => p
  end.

Definition resume (p : rpc) (ret : Z) : rpc :=
  match p with
  | RdIn | RdMx | RdWrt | RdUnMx | RdUnIn => rwlock_acquire_readlock p ret
  | RrMx | RrUnWrt | RrUnMx => rwlock_release_readlock p ret
  | WrIn | WrWrt => rwlock_acquire_writelock p ret
  | WuWrt | WuIn => rwlock_release_writelock p ret
  | _ => p
  end.

(** [rwlock->ctr++; if(rwlock->ctr == 1)] and [rwlock->ctr--; if(rwlock->ctr == 0)]. *)
Definition count_in (v : Z) : Z * rpc := let v := v + 1 in (v, if Z.eqb v 1 then RdWrt else RdUnMx).
Definition count_out (v : Z) : Z * rpc := let v := v - 1 in (v, if Z.eqb v 0 then RrUnWrt else RrUnMx).

(** ** Steps *)

(** Thread [t] comes to [p] and makes the call there. *)
Definition begin_call (t : Z) (c : xcall) (s : rwsys) : rwsys :=
  match c with
  | CWait k => upd_sem k (goto t (WaitTas 0)) s
  | CUnlock k => upd_sem k (λ x, add_held (-1) (goto t (PostTas 0) x)) s
  end.
Definition enter (t : Z) (p : rpc) (s : rwsys) : rwsys :=
  let s := set_site t p s in
  match call_at p with Some c => begin_call t c s | None => s end.

(** [wakeup] of a thread, in whichever semaphore it sleeps. *)
Definition wake_all (th : Z) (s : rwsys) : rwsys :=
  mkRwsys (wake_sleeper th (w_in s)) (wake_sleeper th (w_mx s)) (wake_sleeper th (w_wrt s)) (w_ctr s) (w_sites s).

(** The next access of [t] inside a call on the semaphore [k].  Its
    [futex_wake] wakes the thread also if that sleeps for another one. *)
Definition run_call (t : Z) (k : semid) (s : rwsys) : option rwsys :=
  let x := w_sem s k in
  x' ← xstep (Run t) x;
  let s' := upd_sem k (λ _, x') s in
  match pcs x !! t with
  | Some PostWake => Some (wake_all (slot_val (xq (sem x)) (queue_head (xq (sem x)))) s')
  | _ => Some s'
  end.

(** The next step of thread [t] inside a routine of the lock; [None] when it
    sleeps or is in none. *)
Definition rw_next (t : Z) (s : rwsys) : option rwsys :=
  p ← w_sites s !! t;
  match call_at p with
  | Some c =>
      match pcs (w_sem s (call_sem c)) !! t with
      | Some Outside => Some (enter t (resume p 0) s)
      | Some WaitFailed => Some (enter t (resume p (-1)) s)
      | _ => run_call t (call_sem c) s
      end
  | None =>
      match p with
      | RdInc => let '(v, p') := count_in (w_ctr s) in Some (enter t p' (set_ctr v s))
      | RrDec => let '(v, p') := count_out (w_ctr s) in Some (enter t p' (set_ctr v s))
      | _ => None
      end
  end.

(** The routines a thread may call: any acquire without the lock, the
    matching release with it. *)
Definition may_call (p p' : rpc) : bool :=
  match p, p' with
  | (Idle | RFailed), (RdIn | WrIn) | Reading, RrMx | Writing, WuWrt => true
  | _, _ => false
  end.

(** [par t]: other threads or processes have [t] as their creator or parent,
    or may pass to it as orphans; when one of them exits it wakes [t]. *)
Inductive rwstep (par : Z → bool) (s : rwsys) : rwsys → Prop :=
| rwstep_next t s' : rw_next t s = Some s' → rwstep par s s'
| rwstep_call t p p' : w_sites s !! t = Some p → may_call p p' = true → rwstep par s (enter t p' s)
| rwstep_exit t : par t = true → rwstep par s (wake_all t s).

(** The threads [ts] after [rwlock_init]. *)
Definition calm {A} (a : A) (ts : list Z) : gmap Z A := list_to_map ((λ t, (t, a)) <$> ts).
Definition rwstart (r : rwlock_t) (ts : list Z) : rwsys :=
  let r := rwlock_init r in
  mkRwsys (mkXsys (l_in r) (calm Outside ts) 0) (mkXsys (l_mx r) (calm Outside ts) 0) (mkXsys (l_wrt r) (calm Outside ts) 0)
    (l_ctr r) (calm Idle ts).

Inductive rwreach (par : Z → bool) (r : rwlock_t) (ts : list Z) : rwsys → Prop :=
| rwreach_start : rwreach par r ts (rwstart r ts)
| rwreach_step s s' : rwreach par r ts s → rwstep par s s' → rwreach par r ts s'.

(** Runs by name. *)
Inductive rwact := RNext (t : Z) | RCall (t : Z) (p : rpc) | RExit (t : Z).
Definition rw_do (par : Z → bool) (a : rwact) (s : rwsys) : option rwsys :=
  match a with
  | RNext t => rw_next t s
  | RCall t p' => p ← w_sites s !! t; if may_call p p' then Some (enter t p' s) else None
  | RExit t => if par t then Some (wake_all t s) else None
  end.
Definition rw_run (par : Z → bool) (l : list rwact) (s : rwsys) : option rwsys := foldl (λ o a, o ≫= rw_do par a) (Some s) l.

Lemma rw_run_reach par r ts l s : rw_run par l (rwstart r ts) = Some s → rwreach par r ts s.
Proof.
  revert s. induction l as [|a l IH] using rev_ind; intros s; unfold rw_run; [intros [= <-]; constructor|]. rewrite foldl_app. simpl.
  fold (rw_run par l (rwstart r ts)). destruct (rw_run par l (rwstart r ts)) as [s1|]; [|done]. simpl. intros Ha.
  eapply rwreach_step; [by apply IH|]. destruct a as [t|t p'|t]; simpl in Ha.
  - by econstructor.
  - destruct (w_sites s1 !! t) as [p|] eqn:Hp; [|done]. simpl in Ha. destruct (may_call p p') eqn:Hc; simplify_eq. by econstructor.
  - destruct (par t) eqn:Hp; simplify_eq. by constructor.
Qed.

Close Scope Z_scope.
