(* ===== verification/RwSpec.v ===== *)
(** * What a readers-writer lock should do

    The protocol of [Rwlock] over ideal semaphores: each is a number of units,
    [xem_wait] waits until one is there and takes it, [xem_unlock] gives one
    back.  It is the specification the lock of [xem.c] is compared with, and
    none of its definitions stands for code.  The invariant of the protocol
    gives the exclusion. *)

From S2P Require Import Prelude.
From S2P Require Import Rwlock.

Open Scope Z_scope.

(** The units left in [in], [mx] and [wrt], and [ctr]. *)
Record units := mkUnits { rw_in : Z; rw_mx : Z; rw_wrt : Z; rw_ctr : Z }.
Record rsys := mkRsys { rwl : units; rpcs : gmap Z rpc }.

Definition all_units : units := mkUnits 1 1 1 0.

Definition set_in (v : Z) (r : units) : units := mkUnits v (rw_mx r) (rw_wrt r) (rw_ctr r).
Definition set_mx (v : Z) (r : units) : units := mkUnits (rw_in r) v (rw_wrt r) (rw_ctr r).
Definition set_wrt (v : Z) (r : units) : units := mkUnits (rw_in r) (rw_mx r) v (rw_ctr r).
Definition set_units_ctr (v : Z) (r : units) : units := mkUnits (rw_in r) (rw_mx r) (rw_wrt r) v.

(** Taking a unit waits for one. *)
Definition take (get : units → Z) (set : Z → units → units) (r : units) : option units :=
  if Z.ltb 0 (get r) then Some (set (get r - 1) r) else None.
Definition give (get : units → Z) (set : Z → units → units) (r : units) : units :=
  set (get r + 1) r.

Definition at_ (p : rpc) (o : option units) : option (units * rpc) := r ← o; Some (r, p).

(** The next access of a thread inside a routine. *)
Definition raccess (p : rpc) (r : units) : option (units * rpc) :=
  match p with
  | RdIn => at_ RdMx (take rw_in set_in r)
  | RdMx => at_ RdInc (take rw_mx set_mx r)
  | RdInc => let '(v, p') := count_in (rw_ctr r) in Some (set_units_ctr v r, p')
  | RdWrt => at_ RdUnMx (take rw_wrt set_wrt r)
  | RdUnMx => Some (give rw_mx set_mx r, RdUnIn)
  | RdUnIn => Some (give rw_in set_in r, Reading)
  | RrMx => at_ RrDec (take rw_mx set_mx r)
  | RrDec => let '(v, p') := count_out (rw_ctr r) in Some (set_units_ctr v r, p')
  | RrUnWrt => Some (give rw_wrt set_wrt r, RrUnMx)
  | RrUnMx => Some (give rw_mx set_mx r, Idle)
  | WrIn => at_ WrWrt (take rw_in set_in r)
  | WrWrt => at_ Writing (take rw_wrt set_wrt r)
  | WuWrt => Some (give rw_wrt set_wrt r, WuIn)
  | WuIn => Some (give rw_in set_in r, Idle)
  | _ => None
  end.

(** A thread steps inside a routine, or calls one: any routine when it has
    no lock, the matching release when it has one. *)
Inductive rstep : Z → rsys → rsys → Prop :=
| rstep_access t p r' p' s : rpcs s !! t = Some p → raccess p (rwl s) = Some (r', p') →
    rstep t s (mkRsys r' (<[t := p']> (rpcs s)))
| rstep_call t p p' s : rpcs s !! t = Some p →
    (p, p') ∈ [(Idle, RdIn); (Idle, WrIn); (Reading, RrMx); (Writing, WuWrt)] →
    rstep t s (mkRsys (rwl s) (<[t := p']> (rpcs s))).

Inductive rreach : rsys → Prop :=
| rreach_start m : (∀ t p, m !! t = Some p → p = Idle) → rreach (mkRsys all_units m)
| rreach_step t s s' : rreach s → rstep t s s' → rreach s'.

(** ** The invariant *)

Definition has_in (p : rpc) : bool :=
  match p with RdMx | RdInc | RdWrt | RdUnMx | RdUnIn | WrWrt | Writing | WuWrt | WuIn => true | _ => false end.
Definition has_mx (p : rpc) : bool :=
  match p with RdInc | RdWrt | RdUnMx | RrDec | RrUnWrt | RrUnMx => true | _ => false end.
Definition has_wrt (p : rpc) : bool := match p with Writing | WuWrt => true | _ => false end.
Definition counted (p : rpc) : bool :=
  match p with RdWrt | RdUnMx | RdUnIn | Reading | RrMx | RrDec => true | _ => false end.

(** Who has the unit of [wrt]. *)
Inductive wowner := NoOwner | Writer (t : Z) | Readers.

Record rtinv (hi hm : option Z) (w : wowner) (rd : list Z) (t : Z) (p : rpc) : Prop := {
  rt_in : has_in p = true ↔ hi = Some t;
  rt_mx : has_mx p = true ↔ hm = Some t;
  rt_wrt : has_wrt p = true ↔ w = Writer t;
  rt_rd : counted p = true ↔ t ∈ rd
}.

Record rginv (r : units) (hi hm : option Z) (w : wowner) (rd : list Z) (mp : option rpc) : Prop := {
  rg_in : rw_in r = match hi with Some _ => 0 | None => 1 end;
  rg_mx : rw_mx r = match hm with Some _ => 0 | None => 1 end;
  rg_wrt : rw_wrt r = match w with NoOwner => 1 | _ => 0 end;
  rg_ctr : rw_ctr r = Z.of_nat (length rd);
  rg_nodup : NoDup rd;
  rg_phase : match mp with
             | Some RdWrt => w ≠ Readers ∧ length rd = 1%nat
             | Some RrUnWrt => w = Readers ∧ rd = []
             | _ => w = Readers ↔ rd ≠ []
             end
}.

Record rinv (s : rsys) (hi hm : option Z) (w : wowner) (rd : list Z) : Prop := {
  ri_refs : ∀ t, hi = Some t ∨ hm = Some t ∨ w = Writer t ∨ t ∈ rd → is_Some (rpcs s !! t);
  ri_t : ∀ t p, rpcs s !! t = Some p → rtinv hi hm w rd t p;
  ri_g : rginv (rwl s) hi hm w rd (hm ≫= λ t, rpcs s !! t)
}.

Lemma rinv_move s hi hm w rd t p p' r' hi' hm' w' rd' :
  rinv s hi hm w rd → rpcs s !! t = Some p →
  (∀ t0, t0 ≠ t → (hi' = Some t0 ↔ hi = Some t0) ∧ (hm' = Some t0 ↔ hm = Some t0) ∧
                  (w' = Writer t0 ↔ w = Writer t0) ∧ (t0 ∈ rd' ↔ t0 ∈ rd)) →
  rtinv hi' hm' w' rd' t p' →
  rginv r' hi' hm' w' rd' (hm' ≫= λ t0, if decide (t0 = t) then Some p' else rpcs s !! t0) →
  rinv (mkRsys r' (<[t := p']> (rpcs s))) hi' hm' w' rd'.
Proof.
  intros [Hr Ht Hg] Hp Hsame Ht' Hg'. split; cbn [rpcs rwl].
  - intros t0 H0. destruct (decide (t0 = t)) as [->|Hne]; [rewrite lookup_insert_eq; eauto|].
    rewrite lookup_insert_ne by done. apply Hr. destruct (Hsame t0 Hne) as (E1 & E2 & E3 & E4). naive_solver.
  - intros t0 p0. destruct (decide (t0 = t)) as [->|Hne]; [rewrite lookup_insert_eq; by intros [= <-]|].
    rewrite lookup_insert_ne by done. intros H0. destruct (Ht t0 p0 H0) as [T1 T2 T3 T4].
    destruct (Hsame t0 Hne) as (E1 & E2 & E3 & E4). split; [by rewrite E1|by rewrite E2|by rewrite E3|by rewrite E4].
  - destruct hm' as [t0|]; [|done]. simpl in *. destruct (decide (t0 = t)) as [->|Hne].
    + by rewrite lookup_insert_eq.
    + by rewrite lookup_insert_ne.
Qed.

Ltac rpure :=
  try done;
  match goal with
  | |- _ ∈ _ ↔ _ ∈ _ => rewrite ?elem_of_cons, ?elem_of_nil; solve [tauto | split; [intros [?|?]; congruence|auto]]
  | |- _ ↔ _ ∈ _ => rewrite ?elem_of_cons, ?elem_of_nil; solve [tauto | split; intros; first [done|tauto|congruence]]
  | |- _ ↔ _ => split; intros; first [done | congruence | tauto]
  | _ => first [congruence | lia]
  end.

Ltac rphase := first [done | split; [done|]; let H := fresh in intros H; match goal with G : _ ↔ _ ≠ [] |- _ => by apply G in H end | split; intros; first [done|tauto|congruence] | destruct_and?; split; first [done|congruence|tauto]].

(** The guts of one access: [t] at [p] moves to [p'] with new ghosts. *)
Ltac rmove s hi hm w rd t p p' :=
  eapply (rinv_move s hi hm w rd t p p'); [done|done| | |];
  [ intros ? ?; split_and!; rpure
  | split; simpl; rpure
  | simpl; rewrite ?decide_True by done; split; simpl; try rpure ].

Lemma rinv_access s hi hm w rd t p r' p' :
  rinv s hi hm w rd → rpcs s !! t = Some p → raccess p (rwl s) = Some (r', p') →
  ∃ hi' hm' w' rd', rinv (mkRsys r' (<[t := p']> (rpcs s))) hi' hm' w' rd'.
Proof.
  intros I Hp Ha. pose proof (ri_t _ _ _ _ _ I t p Hp) as [T1 T2 T3 T4].
  pose proof (ri_g _ _ _ _ _ I) as [G1 G2 G3 G4 G5 G6].
  assert (∀ q, (has_mx p = true → hm = Some t) → has_mx p = false →
    (hm ≫= λ t0, if decide (t0 = t) then Some q else rpcs s !! t0) = (hm ≫= λ t0, rpcs s !! t0)) as Hmp.
  { intros q _ Hn. destruct hm as [t0|]; [|done]. simpl. rewrite decide_False; [done|]. intros ->. destruct T2 as [_ T2]. specialize (T2 eq_refl). congruence. }
  destruct p; simpl in Ha, T1, T2, T3, T4; try done.
  - (* xem_wait(&rwlock->in) *) unfold take in Ha. destruct (Z.ltb_spec 0 (rw_in (rwl s))) as [Hlt|]; simplify_eq/=.
    destruct hi; [lia|]. exists (Some t), hm, w, rd. eapply (rinv_move s None hm w rd t RdIn RdMx); [done|done| | |].
    + intros t0 Hne. split_and!; rpure.
    + split; simpl; rpure.
    + rewrite Hmp by done. split; simpl; done || lia.
  - unfold take in Ha. destruct (Z.ltb_spec 0 (rw_mx (rwl s))) as [Hlt|]; simplify_eq/=.
    destruct hm; [lia|]. exists hi, (Some t), w, rd. rmove s hi (@None Z) w rd t RdMx RdInc.
  - assert (hm = Some t) as -> by by apply T2. simpl in G6. rewrite Hp in G6.
    assert (t ∉ rd) as Hnt by (intros ?%T4; done).
    exists hi, (Some t), w, (t :: rd).
    destruct (Z.eqb_spec (rw_ctr (rwl s) + 1) 1) as [E|E]; simplify_eq/=.
    + assert (rd = []) as -> by (destruct rd; [done|simpl in G4; lia]).
      rmove s hi (Some t) w (@nil Z) t RdInc RdWrt; [apply NoDup_singleton|]. split; [|done]. intros ->. by apply G6.
    + rmove s hi (Some t) w rd t RdInc RdUnMx; [by apply NoDup_cons|].
      split; [done|]. intros _. apply G6. intros ->. simpl in G4. lia.
  - assert (hm = Some t) as -> by by apply T2. simpl in G6. rewrite Hp in G6. destruct G6 as [G6 G7].
    unfold take in Ha. destruct (Z.ltb_spec 0 (rw_wrt (rwl s))) as [Hlt|]; simplify_eq/=.
    destruct w; [|lia|lia]. exists hi, (Some t), Readers, rd. rmove s hi (Some t) NoOwner rd t RdWrt RdUnMx.
    split; [|done]. intros _ ->. done.
  - assert (hm = Some t) as -> by by apply T2. simpl in G6. rewrite Hp in G6. simplify_eq/=.
    exists hi, None, w, rd. rmove s hi (Some t) w rd t RdUnMx RdUnIn.
  - assert (hi = Some t) as -> by by apply T1. simplify_eq/=. exists None, hm, w, rd.
    eapply (rinv_move s (Some t) hm w rd t RdUnIn Reading); [done|done| | |].
    + intros t0 Hne. split_and!; rpure.
    + split; simpl; rpure.
    + rewrite Hmp by done. split; simpl; done || lia.
  - unfold take in Ha. destruct (Z.ltb_spec 0 (rw_mx (rwl s))) as [Hlt|]; simplify_eq/=.
    destruct hm; [lia|]. exists hi, (Some t), w, rd. rmove s hi (@None Z) w rd t RrMx RrDec.
  - assert (hm = Some t) as -> by by apply T2. simpl in G6. rewrite Hp in G6.
    assert (t ∈ rd) as Hin by by apply T4. destruct (list_elem_of_split _ _ Hin) as (l1 & l2 & ->).
    assert (w = Readers) as -> by (apply G6; by destruct l1).
    pose proof G5 as [Hn1 Hn2]%NoDup_app. rewrite length_app in G4. simpl in G4.
    assert (NoDup (l1 ++ l2) ∧ t ∉ l1 ++ l2) as [Hnd Hnt].
    { rewrite <-(app_nil_l (l1 ++ l2)) || idtac. rewrite <-Permutation_middle in G5. by apply NoDup_cons in G5 as [? ?]. }
    exists hi, (Some t), Readers, (l1 ++ l2).
    destruct (Z.eqb_spec (rw_ctr (rwl s) - 1) 0) as [E|E]; simplify_eq/=.
    + assert (l1 = [] ∧ l2 = []) as [-> ->] by (destruct l1, l2; simpl in *; try lia; done).
      rmove s hi (Some t) Readers [t] t RrDec RrUnWrt.
    + eapply (rinv_move s hi (Some t) Readers (l1 ++ t :: l2) t RrDec RrUnMx); [done|done| | |].
      * intros t0 Hne. split_and!; try done. rewrite !elem_of_app, elem_of_cons. tauto.
      * split; simpl; rpure.
      * simpl. rewrite decide_True by done. split; simpl; try done; rewrite ?length_app; try lia.
        split; [|done]. intros _ E'. apply app_nil in E' as [-> ->]. simpl in *. lia.
  - assert (hm = Some t) as -> by by apply T2. simpl in G6. rewrite Hp in G6. destruct G6 as [-> ->]. simplify_eq/=.
    exists hi, (Some t), NoOwner, []. rmove s hi (Some t) Readers (@nil Z) t RrUnWrt RrUnMx.
  - assert (hm = Some t) as -> by by apply T2. simpl in G6. rewrite Hp in G6. simplify_eq/=.
    exists hi, None, w, rd. rmove s hi (Some t) w rd t RrUnMx Idle.
  - unfold take in Ha. destruct (Z.ltb_spec 0 (rw_in (rwl s))) as [Hlt|]; simplify_eq/=.
    destruct hi; [lia|]. exists (Some t), hm, w, rd. eapply (rinv_move s None hm w rd t WrIn WrWrt); [done|done| | |].
    + intros t0 Hne. split_and!; rpure.
    + split; simpl; rpure.
    + rewrite Hmp by done. split; simpl; done || lia.
  - unfold take in Ha. destruct (Z.ltb_spec 0 (rw_wrt (rwl s))) as [Hlt|]; simplify_eq/=.
    destruct w; [|lia|lia]. exists hi, hm, (Writer t), rd. eapply (rinv_move s hi hm NoOwner rd t WrWrt Writing); [done|done| | |].
    + intros t0 Hne. split_and!; rpure.
    + split; simpl; rpure.
    + rewrite Hmp by done. split; simpl; try (done || lia). clear -G6; destruct (hm ≫= λ t0, rpcs s !! t0) as [q|]; [destruct q|]; rphase.
  - assert (w = Writer t) as -> by by apply T3. simplify_eq/=. exists hi, hm, NoOwner, rd.
    eapply (rinv_move s hi hm (Writer t) rd t WuWrt WuIn); [done|done| | |].
    + intros t0 Hne. split_and!; rpure.
    + split; simpl; rpure.
    + rewrite Hmp by done. split; simpl; try (done || lia). clear -G6; destruct (hm ≫= λ t0, rpcs s !! t0) as [q|]; [destruct q|]; rphase.
  - assert (hi = Some t) as -> by by apply T1. simplify_eq/=. exists None, hm, w, rd.
    eapply (rinv_move s (Some t) hm w rd t WuIn Idle); [done|done| | |].
    + intros t0 Hne. split_and!; rpure.
    + split; simpl; rpure.
    + rewrite Hmp by done. split; simpl; done || lia.
Qed.

Lemma rinv_call s hi hm w rd t p p' :
  rinv s hi hm w rd → rpcs s !! t = Some p →
  (p, p') ∈ [(Idle, RdIn); (Idle, WrIn); (Reading, RrMx); (Writing, WuWrt)] →
  rinv (mkRsys (rwl s) (<[t := p']> (rpcs s))) hi hm w rd.
Proof.
  intros I Hp Hc. pose proof (ri_t _ _ _ _ _ I t p Hp) as [T1 T2 T3 T4].
  assert (has_in p' = has_in p ∧ has_mx p' = has_mx p ∧ has_wrt p' = has_wrt p ∧ counted p' = counted p ∧ has_mx p = false)
    as (E1 & E2 & E3 & E4 & E5).
  { rewrite !elem_of_cons, elem_of_nil in Hc. naive_solver. }
  eapply (rinv_move s hi hm w rd t p p'); [done|done|done| |].
  - split; congruence.
  - replace (hm ≫= λ t0, if decide (t0 = t) then Some p' else rpcs s !! t0) with (hm ≫= λ t0, rpcs s !! t0); [apply I|].
    destruct hm as [t0|]; [|done]. simpl. rewrite decide_False; [done|]. intros ->.
    destruct T2 as [_ T2]. specialize (T2 eq_refl). congruence.
Qed.

Lemma rreach_inv s : rreach s → ∃ hi hm w rd, rinv s hi hm w rd.
Proof.
  induction 1 as [m Hm|t s s' _ (hi & hm & w & rd & I) Hs].
  - exists None, None, NoOwner, []. split; cbn [rpcs rwl].
    + intros t [?|[?|[?|?%elem_of_nil]]]; done.
    + intros t p ->%Hm. split; split; try done. by intros ?%elem_of_nil.
    + split; try done. constructor.
  - destruct Hs as [t p r' p' s Hp Ha|t p p' s Hp Hc].
    + by eapply rinv_access.
    + exists hi, hm, w, rd. by eapply rinv_call.
Qed.

(** ** Theorems *)

Lemma writer_alone s t1 t2 :
  rreach s → rpcs s !! t1 = Some Writing →
  (rpcs s !! t2 = Some Writing → t1 = t2) ∧ rpcs s !! t2 ≠ Some Reading.
Proof.
  intros (hi & hm & w & rd & I)%rreach_inv H1.
  assert (w = Writer t1) as -> by by apply (rt_wrt _ _ _ _ _ _ (ri_t _ _ _ _ _ I t1 _ H1)). split.
  - intros H2. assert (Writer t1 = Writer t2) as [= ->]; [|done]. by apply (rt_wrt _ _ _ _ _ _ (ri_t _ _ _ _ _ I t2 _ H2)).
  - intros H2. pose proof (ri_t _ _ _ _ _ I t2 _ H2) as [_ M2 _ R2]. assert (t2 ∈ rd) as Hin by by apply R2.
    pose proof (ri_g _ _ _ _ _ I) as [_ _ _ _ _ G6]. destruct hm as [t0|]; simpl in G6.
    + destruct (rpcs s !! t0) as [q|] eqn:Hq; cycle 1.
      { destruct G6 as [_ G6]. destruct rd; [by apply elem_of_nil in Hin|]. by specialize (G6 ltac:(done)). }
      destruct (decide (q = RdWrt)) as [->|Hn1].
      { destruct G6 as [_ Hl]. assert (t0 ∈ rd) as Hc by by apply (rt_rd _ _ _ _ _ _ (ri_t _ _ _ _ _ I t0 _ Hq)).
        destruct rd as [|x [|]]; try done. apply list_elem_of_singleton in Hin, Hc. congruence. }
      destruct (decide (q = RrUnWrt)) as [->|Hn2]; [by destruct G6|].
      assert (Writer t1 = Readers ↔ rd ≠ []) as G by (destruct q; done).
      destruct rd; [by apply elem_of_nil in Hin|]. by specialize (proj2 G ltac:(done)).
    + destruct rd; [by apply elem_of_nil in Hin|]. by specialize (proj2 G6 ltac:(done)).
Qed.

Close Scope Z_scope.
