(* ===== verification/RwTheorems.v ===== *)
(** * The readers-writer lock excludes ([src/xv6-public/xem.c])

    The lock of [Rwlock], on the semaphores of [Xem], is compared with the
    protocol of [RwSpec].  A unit leaves an ideal semaphore when [xem_wait]
    returns 0 and comes back when [xem_unlock] is called; the invariant of
    [Xem] holds of each of the three semaphores, and every step of the lock is
    no step or one step of the protocol.  So the exclusion of the protocol is
    one of the lock. *)

From S2P Require Import Prelude.
From S2P Require Import Xem.
From S2P Require Import Rwlock.
From S2P Require Import RwSpec.

Open Scope Z_scope.

(** ** The protocol, by semaphore *)

Definition uget (k : semid) : units → Z := match k with SIn => rw_in | SMx => rw_mx | SWrt => rw_wrt end.
Definition uset (k : semid) : Z → units → units := match k with SIn => set_in | SMx => set_mx | SWrt => set_wrt end.

Lemma raccess_call p c r : call_at p = Some c →
  raccess p r = match c with
                | CWait k => at_ (resume p 0) (take (uget k) (uset k) r)
                | CUnlock k => Some (give (uget k) (uset k) r, resume p 0)
                end.
Proof. destruct p; intros [= <-]; done. Qed.

(** A thread that is about to give a unit back has it. *)
Lemma unlock_has a t p k : rreach a → rpcs a !! t = Some p → call_at p = Some (CUnlock k) → uget k (rwl a) = 0.
Proof.
  intros (hi & hm & w & rd & I)%rreach_inv Hp Hc.
  pose proof (ri_t _ _ _ _ _ I t p Hp) as [T1 T2 T3 _]. pose proof (ri_g _ _ _ _ _ I) as [G1 G2 G3 _ _ G6].
  destruct p; try discriminate Hc; injection Hc as <-; simpl in *.
  - rewrite G2. by rewrite (proj1 T2 eq_refl).
  - rewrite G1. by rewrite (proj1 T1 eq_refl).
  - rewrite (proj1 T2 eq_refl) in G6. simpl in G6. rewrite Hp in G6. destruct G6 as [-> _]. done.
  - rewrite G2. by rewrite (proj1 T2 eq_refl).
  - rewrite G3. by rewrite (proj1 T3 eq_refl).
  - rewrite G1. by rewrite (proj1 T1 eq_refl).
Qed.

(** ** The steps of a semaphore, from outside *)

Definition outside (q : xpc) : bool := match q with Outside => true | _ => false end.
Definition inpost (q : xpc) : bool :=
  match q with PostTas _ | PostNap | PostInc | PostTest | PostWake | PostRemove | PostOpen => true | _ => false end.
Definition inwait (q : xpc) : bool := negb (outside q) && negb (inpost q).

(** A thread stays in the routine it is in, or returns from [xem_unlock]. *)
Definition kept (q q' : xpc) : bool :=
  (inwait q && inwait q') || (inpost q && (inpost q' || outside q')) || (outside q && outside q').

(** At most one [xem_wait] returns 0 in a step, of the thread that steps or of
    the one it wakes. *)
Definition effect (x x' : xsys) : Prop :=
  ∃ ho : option Z, held x' = held x + (if ho is Some _ then 1 else 0) ∧
    (∀ t0, ho = Some t0 → ∃ q, pcs x !! t0 = Some q ∧ inwait q = true) ∧
    ∀ t0 q, pcs x !! t0 = Some q → ∃ q', pcs x' !! t0 = Some q' ∧ (if decide (ho = Some t0) then q' = Outside else kept q q' = true).

Lemma kept_refl q : kept q q = true.
Proof. by destruct q. Qed.

(** One thread moves, or one thread returns 0 from [xem_wait]. *)
Lemma effect_stay t x p p' y : pcs x !! t = Some p → pcs y = <[t := p']> (pcs x) → held y = held x → kept p p' = true → effect x y.
Proof.
  intros Hp Ey Eh Hk. exists None. split; [lia|]. split; [done|]. intros t0 q Hq. rewrite Ey. destruct (decide (t0 = t)) as [->|Hne].
  - rewrite lookup_insert_eq. exists p'. split; [done|]. simpl. congruence.
  - rewrite lookup_insert_ne by done. exists q. split; [done|]. apply kept_refl.
Qed.
Lemma effect_return t x p y : pcs x !! t = Some p → pcs y = <[t := Outside]> (pcs x) → held y = held x + 1 → inwait p = true → effect x y.
Proof.
  intros Hp Ey Eh Hk. exists (Some t). split; [lia|]. split; [intros t0 [= <-]; eauto|]. intros t0 q Hq. rewrite Ey. destruct (decide (t0 = t)) as [->|Hne].
  - rewrite lookup_insert_eq. eexists. split; [done|]. by rewrite decide_True.
  - rewrite lookup_insert_ne by done. exists q. split; [done|]. rewrite decide_False by congruence. apply kept_refl.
Qed.

Lemma run_effect t x x' : xstep (Run t) x = Some x' → effect x x'.
Proof.
  simpl. destruct (pcs x !! t) as [p|] eqn:Hp; [|done]. cbn [mbind option_bind]. intros Hs.
  destruct p; simpl in Hs; try done; unfold try_guard in Hs;
    try (repeat case_match; simplify_eq; solve [by eapply effect_stay | by eapply effect_return]).
  injection Hs as <-. unfold wake_slot, wake_sleeper. set (h := slot_val _ _). destruct (decide (h = t)) as [->|Hne].
  { rewrite Hp. by eapply effect_stay. }
  destruct (pcs x !! h) as [[]|] eqn:Hh; try (by apply (effect_stay t x PostWake PostRemove)). exists (Some h). split; [done|]. split; [intros t0 [= <-]; eauto|].
  intros t0 q Hq. simpl. destruct (decide (t0 = t)) as [->|Hn0].
  - rewrite lookup_insert_eq. eexists. split; [done|]. rewrite decide_False by congruence. simplify_eq. done.
  - rewrite lookup_insert_ne by done. destruct (decide (t0 = h)) as [->|Hnh].
    + rewrite lookup_insert_eq. eexists. split; [done|]. by rewrite decide_True.
    + rewrite lookup_insert_ne by done. exists q. split; [done|]. rewrite decide_False by congruence. apply kept_refl.
Qed.

Lemma wake_awake th x : (∀ a, pcs x !! th ≠ Some (Asleep a)) → wake_sleeper th x = x.
Proof. intros H. unfold wake_sleeper. destruct (pcs x !! th) as [[]|]; try done. by destruct (H addr). Qed.

Lemma woken_awake t x x' th : pcs x !! t = Some PostWake → th = slot_val (xq (sem x)) (queue_head (xq (sem x))) → xstep (Run t) x = Some x' →
  wake_sleeper th x' = x'.
Proof.
  intros Hp -> Hs. simpl in Hs. rewrite Hp in Hs. injection Hs as <-. apply wake_awake. intros a. unfold wake_slot, wake_sleeper.
  set (h := slot_val _ _). simpl. destruct (decide (h = t)) as [->|Hne]; [rewrite lookup_insert_eq; done|].
  rewrite lookup_insert_ne by done. destruct (pcs x !! h) as [[]|] eqn:E; simpl; rewrite ?lookup_insert_eq; congruence.
Qed.

(** ** Where a step leads *)

Definition leads (p p' : rpc) : Prop :=
  (call_at p ≠ None ∧ p' = p) ∨ (call_at p ≠ None ∧ p' = resume p 0) ∨ p' = RFailed ∨
  (p = RdInc ∧ (p' = RdWrt ∨ p' = RdUnMx)) ∨ (p = RrDec ∧ (p' = RrUnWrt ∨ p' = RrUnMx)).

Lemma w_sites_upd k f s : w_sites (upd_sem k f s) = w_sites s.
Proof. by destruct k. Qed.
Lemma enter_sites t p s : w_sites (enter t p s) = <[t := p]> (w_sites s).
Proof. unfold enter. destruct (call_at p) as [[k|k]|]; [simpl; by rewrite w_sites_upd..|done]. Qed.

(** A step moves the place of its own thread only. *)
Lemma rw_next_sites t s s' p : rw_next t s = Some s' → w_sites s !! t = Some p →
  ∃ p', w_sites s' = <[t := p']> (w_sites s) ∧ leads p p'.
Proof.
  intros Hs Hp. unfold rw_next in Hs. rewrite Hp in Hs. cbn [mbind option_bind] in Hs. destruct (call_at p) as [c|] eqn:Hc.
  - assert (run_call t (call_sem c) s = Some s' → ∃ p', w_sites s' = <[t := p']> (w_sites s) ∧ leads p p') as Hrun.
    { unfold run_call. destruct (xstep (Run t) (w_sem s (call_sem c))) as [x'|]; [|done]. cbn [mbind option_bind]. intros Hr. exists p. rewrite insert_id by done.
      split; [|left; by rewrite Hc]. destruct (pcs (w_sem s (call_sem c)) !! t) as [[]|]; injection Hr as <-; apply w_sites_upd. }
    destruct (pcs (w_sem s (call_sem c)) !! t) as [q|] eqn:Hq; [|by apply Hrun]. destruct q; try (by apply Hrun); injection Hs as <-.
    + exists (resume p 0). rewrite enter_sites. split; [done|]. right. left. by rewrite Hc.
    + exists (resume p (-1)). rewrite enter_sites. split; [done|]. right. right. left. by destruct p.
  - destruct p; try done; simpl in Hs; injection Hs as <-; eexists; rewrite enter_sites; (split; [done|]); unfold leads; case_match; naive_solver.
Qed.

Section lock.
Context (ts : list Z).

(** The thread [futex_wake] is called for waits on this semaphore. *)
Lemma woken_waits t x g u l : xinv ts x g u l → pcs x !! t = Some PostWake →
  ∃ q, pcs x !! slot_val (xq (sem x)) (queue_head (xq (sem x))) = Some q ∧ inwait q = true.
Proof using Type.
  intros I Hp. pose proof (xi_t _ _ _ _ _ I t _ Hp) as [T1 _ _ _ _ _]. pose proof (xi_g _ _ _ _ _ I) as [_ _ _ V4 _ V6 V7].
  assert (g = Some t) as -> by by apply T1. simpl in *. rewrite Hp in *. assert (u = Free) as -> by (apply V7; by right).
  specialize (V6 eq_refl). destruct l as [|h l]; [done|]. destruct (queue_remove_ring _ _ _ V4) as (-> & _).
  destruct (xi_refs _ _ _ _ _ I) as (_ & _ & Rl). destruct (proj2 (xi_dom _ _ _ _ _ I h)) as [q Hq]; [apply Rl; set_solver|].
  exists q. split; [done|]. destruct (ti_in _ _ _ _ _ _ (xi_t _ _ _ _ _ I h q Hq)) as (a & Ha & _); [set_solver|]. by destruct q.
Qed.

(** ** The comparison *)

(** Where a thread is in the protocol. *)
Definition absp (s : rwsys) (t : Z) (p : rpc) : rpc :=
  match call_at p with
  | Some (CWait k) => match pcs (w_sem s k) !! t with Some Outside => resume p 0 | _ => p end
  | Some (CUnlock _) => resume p 0
  | None => p
  end.
Definition units_of (s : rwsys) : units :=
  mkUnits (1 - held (w_in s)) (1 - held (w_mx s)) (1 - held (w_wrt s)) (w_ctr s).

(** A thread is in the routine of the semaphore its place calls. *)
Definition place (k : semid) (p : rpc) (q : xpc) : bool :=
  match call_at p with
  | Some (CWait k') => outside q || (bool_decide (k = k') && inwait q)
  | Some (CUnlock k') => outside q || (bool_decide (k = k') && inpost q)
  | None => outside q
  end.

Record winv (s : rwsys) : Prop := {
  wi_x : ∀ k, ∃ g u l, xinv ts (w_sem s k) g u l;
  wi_dom : ∀ t, is_Some (w_sites s !! t) ↔ t ∈ ts;
  wi_place : ∀ t p k q, w_sites s !! t = Some p → pcs (w_sem s k) !! t = Some q → place k p q = true;
  wi_ok : ∀ t, w_sites s !! t ≠ Some RFailed;
  wi_abs : ∃ a, rreach a ∧ rwl a = units_of s ∧ ∀ t, rpcs a !! t = absp s t <$> w_sites s !! t
}.

(** Thread [t] is between two calls and goes to [p]. *)
Record ready (s : rwsys) (t : Z) (p : rpc) : Prop := {
  rd_x : ∀ k, ∃ g u l, xinv ts (w_sem s k) g u l;
  rd_dom : ∀ t0, is_Some (w_sites s !! t0) ↔ t0 ∈ ts;
  rd_t : t ∈ ts ∧ p ≠ RFailed ∧ ∀ k, pcs (w_sem s k) !! t = Some Outside;
  rd_place : ∀ t0 p0 k q, t0 ≠ t → w_sites s !! t0 = Some p0 → pcs (w_sem s k) !! t0 = Some q → place k p0 q = true;
  rd_ok : ∀ t0, t0 ≠ t → w_sites s !! t0 ≠ Some RFailed;
  rd_abs : ∃ a, rreach a ∧ rwl a = units_of s ∧ rpcs a !! t = Some p ∧ ∀ t0, t0 ≠ t → rpcs a !! t0 = absp s t0 <$> w_sites s !! t0
}.

Lemma w_sem_upd k f s j : w_sem (upd_sem k f s) j = if decide (j = k) then f (w_sem s j) else w_sem s j.
Proof using Type. by destruct k, j. Qed.
Lemma units_upd k f s d : (held (f (w_sem s k)) = held (w_sem s k) + d) → units_of (upd_sem k f s) = uset k (uget k (units_of s) - d) (units_of s).
Proof using Type. intros E. destruct k; simpl in *; unfold units_of, set_in, set_mx, set_wrt; simpl; rewrite E; f_equal; lia. Qed.
Lemma units_get k s : uget k (units_of s) = 1 - held (w_sem s k).
Proof using Type. by destruct k. Qed.
Lemma uset_id k r : uset k (uget k r - 0) r = r.
Proof using Type. rewrite Z.sub_0_r. by destruct k, r. Qed.

Lemma xinv_held x g u l : xinv ts x g u l → 0 ≤ held x ≤ 1.
Proof using Type. intros I. rewrite (gi_held _ _ _ _ _ _ (xi_g _ _ _ _ _ I)). destruct u; lia. Qed.

(** Another thread does not see [t] go to its next place. *)
Lemma absp_other s s' t0 p : (∀ k, pcs (w_sem s' k) !! t0 = pcs (w_sem s k) !! t0) → absp s' t0 p = absp s t0 p.
Proof using Type. intros H. unfold absp. destruct (call_at p) as [[k|k]|]; [by rewrite H|done..]. Qed.

(** *** Going to the next place *)

(** The semaphores see the call that is made. *)
Definition called (t : Z) (c : option xcall) (k : semid) (x : xsys) : xsys :=
  match c with
  | Some (CWait k') => if decide (k = k') then goto t (WaitTas 0) x else x
  | Some (CUnlock k') => if decide (k = k') then add_held (-1) (goto t (PostTas 0) x) else x
  | None => x
  end.
Lemma enter_sem t p s k : w_sem (enter t p s) k = called t (call_at p) k (w_sem s k).
Proof using Type. unfold enter, called. destruct (call_at p) as [[[]|[]]|]; by destruct k. Qed.
Lemma enter_units t p s :
  units_of (enter t p s) = match call_at p with Some (CUnlock k) => give (uget k) (uset k) (units_of s) | _ => units_of s end.
Proof using Type.
  unfold enter. destruct (call_at p) as [[k|k]|]; simpl; [| |done].
  - rewrite (units_upd k _ _ 0) by (simpl; lia). by rewrite uset_id.
  - rewrite (units_upd k _ _ (-1)) by (simpl; lia). unfold give. by f_equal.
Qed.
Lemma called_other t c k x t0 : t0 ≠ t → pcs (called t c k x) !! t0 = pcs x !! t0.
Proof using Type. intros Hne. unfold called. destruct c as [[k'|k']|]; try case_decide; simpl; rewrite ?lookup_insert_ne; done. Qed.
Lemma called_self t c k x : pcs x !! t = Some Outside →
  pcs (called t c k x) !! t = Some (match c with
    | Some (CWait k') => if decide (k = k') then WaitTas 0 else Outside
    | Some (CUnlock k') => if decide (k = k') then PostTas 0 else Outside
    | None => Outside end).
Proof using Type. intros Hx. unfold called. destruct c as [[k'|k']|]; [case_decide..|]; simpl; rewrite ?lookup_insert_eq; done. Qed.

(** The protocol takes the step of a call. *)
Lemma enter_abs s t p : ready s t p → ∃ a, rreach a ∧ rwl a = units_of (enter t p s) ∧
  rpcs a !! t = Some (absp (enter t p s) t p) ∧ ∀ t0, t0 ≠ t → rpcs a !! t0 = absp s t0 <$> w_sites s !! t0.
Proof using Type.
  intros R. destruct (rd_abs _ _ _ R) as (a & Ha & Er & Et & Eo). rewrite enter_units. unfold absp at 1.
  destruct (call_at p) as [[k|k]|] eqn:Hc.
  - exists a. destruct (rd_t _ _ _ R) as (_ & _ & Hout). rewrite enter_sem, Hc, called_self by done. by rewrite decide_True.
  - exists (mkRsys (give (uget k) (uset k) (rwl a)) (<[t := resume p 0]> (rpcs a))). cbn [rwl rpcs].
    split_and!.
    + eapply rreach_step; [done|]. apply (rstep_access t p); [done|]. by rewrite (raccess_call _ _ _ Hc).
    + by rewrite Er.
    + apply lookup_insert_eq.
    + intros t0 Hne. rewrite lookup_insert_ne by done. by apply Eo.
  - by exists a.
Qed.

(** A thread that is in no call may go on, where the protocol takes it. *)
Lemma winv_ready s t p p' r : winv s → w_sites s !! t = Some p → (∀ k, pcs (w_sem s k) !! t = Some Outside) → p' ≠ RFailed →
  (∀ a, rreach a → rpcs a !! t = Some (absp s t p) → rwl a = units_of s →
     ∃ a', rreach a' ∧ rwl a' = r ∧ rpcs a' = <[t := p']> (rpcs a)) →
  ∀ v, units_of (set_ctr v s) = r → ready (set_ctr v s) t p'.
Proof using Type.
  intros [W1 W2 W3 W4 (a & Ha & Er & Ea)] Hp Hout Hok Hstep v Ev. assert (∀ k, w_sem (set_ctr v s) k = w_sem s k) as Es by by intros [].
  destruct (Hstep a Ha) as (a' & Ha' & Er' & Ep'); [by rewrite Ea, Hp|done|]. split.
  - intros k. rewrite Es. apply W1.
  - exact W2.
  - split; [apply W2; eauto|]. split; [done|]. intros k. by rewrite Es.
  - intros t0 p0 k q _ H0. rewrite Es. by apply W3.
  - intros t0 _. apply W4.
  - exists a'. split; [done|]. split; [by rewrite Er'|]. rewrite Ep', lookup_insert_eq. split; [done|].
    intros t0 Hne. rewrite lookup_insert_ne by done. rewrite Ea. cbn [w_sites set_ctr]. destruct (w_sites s !! t0); done.
Qed.
Context (Hcap : (length ts < XEMQSZ)%nat) (Hun : UNUSED_SLOT ∉ ts).

Lemma enter_winv s t p : ready s t p → winv (enter t p s).
Proof using Hcap Hun.
  intros R. destruct (enter_abs s t p R) as (a & Ha & Er & Et & Eo). pose proof R as [R1 R2 (Hts & Hok & Hout) R4 R5 R6]. split.
  - intros k. rewrite enter_sem. destruct (R1 k) as (g & u & l & I). unfold called. destruct (call_at p) as [[k'|k']|] eqn:Hc; [| |eauto].
    + case_decide as E; [|eauto]. subst k'. exists g, u, l. apply (xinv_call_wait ts _ g u l t _ I). unfold call_wait. by rewrite Hout.
    + case_decide as E; [|eauto]. subst k'. exists g, (At t), l.
      apply (xinv_call_unlock ts (w_sem s k) g u l t _ I). unfold call_unlock. rewrite Hout.
      destruct R6 as (a0 & Ha0 & Er0 & Et0 & _). pose proof (unlock_has a0 t p k Ha0 Et0 Hc) as Hu. rewrite Er0, units_get in Hu.
      by rewrite (proj2 (Z.ltb_lt _ _)) by lia.
  - intros t0. rewrite enter_sites. destruct (decide (t0 = t)) as [->|Hne]; [rewrite lookup_insert_eq; split; eauto|by rewrite lookup_insert_ne].
  - intros t0 p0 k q. rewrite enter_sites, enter_sem. destruct (decide (t0 = t)) as [->|Hne].
    + rewrite lookup_insert_eq, called_self by done. intros [= <-] [= <-]. unfold place.
      destruct (call_at p) as [[k'|k']|]; [case_decide..|done]; subst; rewrite ?bool_decide_eq_true_2 by done; done.
    + rewrite lookup_insert_ne, called_other by done. by apply R4.
  - intros t0. rewrite enter_sites. destruct (decide (t0 = t)) as [->|Hne]; [rewrite lookup_insert_eq; congruence|rewrite lookup_insert_ne by done; by apply R5].
  - exists a. split; [done|]. split; [done|]. intros t0. rewrite enter_sites. destruct (decide (t0 = t)) as [->|Hne].
    + rewrite lookup_insert_eq. done.
    + rewrite lookup_insert_ne by done. rewrite Eo by done. destruct (w_sites s !! t0); [|done]. simpl. f_equal. symmetry. apply absp_other.
      intros k. rewrite enter_sem. by apply called_other.
Qed.


(** *** Inside a call *)

Lemma place_wait k p q : place k p q = true → inwait q = true → call_at p = Some (CWait k).
Proof using Type.
  unfold place. destruct (call_at p) as [[k'|k']|]; [destruct (decide (k = k')) as [->|]; [done|rewrite bool_decide_eq_false_2 by done]| |]; destruct q; simpl; rewrite ?andb_false_r; done.
Qed.
Lemma place_kept k p q q' : place k p q = true → kept q q' = true → place k p q' = true.
Proof using Type.
  unfold place. destruct (call_at p) as [[k'|k']|]; [destruct (bool_decide (k = k'))..|]; destruct q, q'; done.
Qed.
Lemma absp_kept k p t s s' q q' : (∀ j, j ≠ k → pcs (w_sem s' j) !! t = pcs (w_sem s j) !! t) →
  pcs (w_sem s k) !! t = Some q → pcs (w_sem s' k) !! t = Some q' → place k p q = true → kept q q' = true → absp s' t p = absp s t p.
Proof using Type.
  intros Ho Hq Hq' Hp Hk. unfold absp. unfold place in Hp. destruct (call_at p) as [[j|j]|]; [|done..].
  destruct (decide (j = k)) as [->|Hne]; [|by rewrite Ho]. rewrite Hq, Hq'. rewrite bool_decide_eq_true_2 in Hp by done. by destruct q, q'.
Qed.

(** A step of one semaphore: nothing in the protocol, or one [take]. *)
Lemma sem_step s k t x' : winv s → xstep (Run t) (w_sem s k) = Some x' → winv (upd_sem k (λ _, x') s).
Proof using Hcap Hun.
  intros [W1 W2 W3 W4 (a & Ha & Er & Ea)] Hs. destruct (W1 k) as (g & u & l & I).
  destruct (xinv_step ts Hcap Hun _ g u l _ _ I Hs) as (g' & u' & l' & I' & _). pose proof (xinv_held _ _ _ _ I') as Hh'.
  destruct (run_effect t _ _ Hs) as (ho & Eh & Hho & Hpcs).
  assert (∀ j, w_sem (upd_sem k (λ _, x') s) j = if decide (j = k) then x' else w_sem s j) as Es by (intros j; apply w_sem_upd).
  assert (∀ t0 p0, w_sites s !! t0 = Some p0 → ∃ q, pcs (w_sem s k) !! t0 = Some q ∧ place k p0 q = true) as Hat.
  { intros t0 p0 H0. destruct (proj2 (xi_dom _ _ _ _ _ I t0)) as [q Hq]; [apply W2; eauto|]. eauto. }
  split; rewrite ?w_sites_upd; try done.
  - intros j. rewrite Es. case_decide; [subst; eauto|apply W1].
  - intros t0 p0 j q H0. rewrite Es. case_decide as Ej; [subst j|by apply W3]. intros Hq. destruct (Hat _ _ H0) as (q0 & Hq0 & Hpl).
    destruct (Hpcs _ _ Hq0) as (q1 & Hq1 & Hk). rewrite Hq in Hq1. injection Hq1 as <-. case_decide; [subst q|by eapply place_kept].
    unfold place. by destruct (call_at p0) as [[]|].
  - assert (∀ t0 p0, ho ≠ Some t0 → w_sites s !! t0 = Some p0 → absp (upd_sem k (λ _, x') s) t0 p0 = absp s t0 p0) as Hsame.
    { intros t0 p0 Hne H0. destruct (Hat _ _ H0) as (q0 & Hq0 & Hpl). destruct (Hpcs _ _ Hq0) as (q1 & Hq1 & Hk). rewrite decide_False in Hk by done.
      eapply (absp_kept k); [|exact Hq0| |exact Hpl|exact Hk].
      - intros j Hj. rewrite Es. by rewrite decide_False.
      - rewrite Es. by rewrite decide_True. }
    destruct ho as [h|].
    + destruct (Hho h eq_refl) as (q & Hq & Hw). destruct (proj2 (W2 h)) as [p Hp]; [apply (xi_dom _ _ _ _ _ I); eauto|].
      pose proof (place_wait _ _ _ (W3 _ _ _ _ Hp Hq) Hw) as Hc. destruct (Hpcs _ _ Hq) as (q' & Hq' & Hk). rewrite decide_True in Hk by done. subst q'.
      exists (mkRsys (uset k (uget k (rwl a) - 1) (rwl a)) (<[h := resume p 0]> (rpcs a))). cbn [rwl rpcs]. split_and!.
      * eapply rreach_step; [done|]. apply (rstep_access h p).
        { rewrite Ea, Hp. simpl. f_equal. unfold absp. rewrite Hc, Hq. by destruct q. }
        rewrite (raccess_call _ _ _ Hc). unfold take. rewrite Er, units_get. rewrite (proj2 (Z.ltb_lt _ _)) by lia. done.
      * rewrite (units_upd k _ _ 1) by done. by rewrite Er.
      * intros t0. destruct (decide (t0 = h)) as [->|Hne].
        { rewrite lookup_insert_eq, Hp. simpl. f_equal. unfold absp. rewrite Hc, Es, decide_True by done. by rewrite Hq'. }
        rewrite lookup_insert_ne by done. rewrite Ea. destruct (w_sites s !! t0) eqn:H0; [|done]. simpl. f_equal. symmetry. apply Hsame; congruence.
    + exists a. split; [done|]. split; [rewrite (units_upd k _ _ 0) by done; by rewrite uset_id|].
      intros t0. rewrite Ea. destruct (w_sites s !! t0) eqn:H0; [|done]. simpl. f_equal. symmetry. by apply Hsame.
Qed.

Lemma upd_sem_id s k x : w_sem s k = x → upd_sem k (λ _, x) s = s.
Proof using Type. intros <-. by destruct s, k. Qed.

(** The wakeup of a call reaches no other semaphore. *)
Lemma run_call_winv s s' t k : winv s → run_call t k s = Some s' → winv s'.
Proof using Hcap Hun.
  intros W. unfold run_call. destruct (xstep (Run t) (w_sem s k)) as [x'|] eqn:Hs; [|done]. cbn [mbind option_bind].
  pose proof (sem_step s k t x' W Hs) as W'.
  assert (pcs (w_sem s k) !! t = Some PostWake →
    wake_all (slot_val (xq (sem (w_sem s k))) (queue_head (xq (sem (w_sem s k))))) (upd_sem k (λ _, x') s) = upd_sem k (λ _, x') s) as Hw.
  { intros Hp. destruct (wi_x _ W k) as (g & u & l & I). destruct (woken_waits _ _ _ _ _ I Hp) as (q & Hq & Hi).
    set (th := slot_val _ _) in *.
    assert (∀ j, wake_sleeper th (w_sem (upd_sem k (λ _, x') s) j) = w_sem (upd_sem k (λ _, x') s) j) as Hno.
    { intros j. rewrite w_sem_upd. case_decide as Ej; [by eapply woken_awake|]. apply wake_awake. intros b Hb.
      destruct (proj2 (wi_dom _ W th)) as [p Hth]; [apply (xi_dom _ _ _ _ _ I); eauto|].
      pose proof (place_wait _ _ _ (wi_place _ W _ _ _ _ Hth Hq) Hi) as Hc. pose proof (wi_place _ W _ _ _ _ Hth Hb) as Hpl.
      unfold place in Hpl. rewrite Hc, bool_decide_eq_false_2 in Hpl by done. done. }
    pose proof (Hno SIn) as H1. pose proof (Hno SMx) as H2. pose proof (Hno SWrt) as H3. simpl in H1, H2, H3.
    unfold wake_all. rewrite H1, H2, H3. by destruct (upd_sem k (λ _, x') s). }
  destruct (pcs (w_sem s k) !! t) as [[]|] eqn:Hp; intros [= <-]; try done. by rewrite (Hw eq_refl).
Qed.

Lemma outside_place s t p k : winv s → w_sites s !! t = Some p → (∀ c, call_at p = Some c → call_sem c ≠ k) → pcs (w_sem s k) !! t = Some Outside.
Proof using Type.
  intros W Hp Hc. destruct (wi_x _ W k) as (g & u & l & I). destruct (proj2 (xi_dom _ _ _ _ _ I t)) as [q Hq]; [apply (wi_dom _ W); eauto|].
  pose proof (wi_place _ W _ _ _ _ Hp Hq) as Hpl. unfold place in Hpl. rewrite Hq. f_equal.
  destruct (call_at p) as [[j|j]|]; [specialize (Hc _ eq_refl); simpl in Hc; rewrite bool_decide_eq_false_2 in Hpl by congruence..|]; by destruct q.
Qed.

Lemma set_ctr_id s : set_ctr (w_ctr s) s = s.
Proof using Type. by destruct s. Qed.

(** *** Every step *)

Lemma rw_next_winv s s' t : winv s → rw_next t s = Some s' → winv s'.
Proof using Hcap Hun.
  intros W. unfold rw_next. destruct (w_sites s !! t) as [p|] eqn:Hp; [|done]. cbn [mbind option_bind].
  destruct (call_at p) as [c|] eqn:Hc.
  - assert (run_call t (call_sem c) s = Some s' → winv s') as Hrun by by apply run_call_winv.
    destruct (wi_x _ W (call_sem c)) as (g & u & l & I).
    destruct (pcs (w_sem s (call_sem c)) !! t) as [q|] eqn:Hq; [|by apply Hrun].
    destruct q; try (by apply Hrun).
    + intros [= <-]. apply enter_winv. rewrite <-(set_ctr_id s).
      apply (winv_ready s t p (resume p 0) (units_of s)); [done|done| | | |by rewrite set_ctr_id].
      * intros k. destruct (decide (k = call_sem c)) as [->|Hk]; [done|]. eapply outside_place; [done|done|]. rewrite Hc. congruence.
      * destruct p; done.
      * intros a Ha Ht Er. exists a. split; [done|]. split; [done|]. symmetry. apply insert_id. rewrite Ht. f_equal. unfold absp. rewrite Hc.
        destruct c as [k|k]; [|done]. simpl in Hq. by rewrite Hq.
    + by destruct (ti_ok _ _ _ _ _ _ (xi_t _ _ _ _ _ I t _ Hq)).
  - assert (∀ p' r v, raccess p (units_of s) = Some (r, p') → r = set_units_ctr v (units_of s) → p' ≠ RFailed → winv (enter t p' (set_ctr v s))) as Hcnt.
    { intros p' r v Hr -> Hok. apply enter_winv. apply (winv_ready s t p p' (set_units_ctr v (units_of s))); [done|done| |done| |done].
      - intros k. eapply outside_place; [done|done|]. by rewrite Hc.
      - intros a Ha Ht Er. eexists. split; [eapply rreach_step; [exact Ha|]; apply (rstep_access t p)|].
        + rewrite Ht. f_equal. unfold absp. by rewrite Hc.
        + rewrite Er. exact Hr.
        + done. }
    destruct p; try done; simpl; intros [= <-]; eapply Hcnt; try done; by case_match.
Qed.

Lemma rwstep_winv par s s' : (∀ t, t ∈ ts → par t = false) → winv s → rwstep par s s' → winv s'.
Proof using Hcap Hun.
  intros Hpar W Hs. destruct Hs as [t s' Hs|t p p' Hp Hc|t Ht].
  - by apply (rw_next_winv s s' t).
  - apply enter_winv. rewrite <-(set_ctr_id s). pose proof (wi_ok _ W t) as Hok.
    assert (call_at p = None) as Hn by by destruct p.
    apply (winv_ready s t p p' (units_of s)); [done|done| | | |by rewrite set_ctr_id].
    + intros k. eapply outside_place; [done|done|]. by rewrite Hn.
    + by destruct p, p'.
    + intros a Ha Hat Er. eexists. split; [eapply rreach_step; [exact Ha|]; apply (rstep_call t p p')|by rewrite <-Er].
      * rewrite Hat. f_equal. unfold absp. by rewrite Hn.
      * destruct p, p'; try done; set_solver.
  - assert (t ∉ ts) as Hnt by (intros ?%Hpar; congruence).
    assert (∀ k, wake_sleeper t (w_sem s k) = w_sem s k) as Hno.
    { intros k. apply wake_awake. intros b Hb. destruct (wi_x _ W k) as (g & u & l & I). apply Hnt, (xi_dom _ _ _ _ _ I). eauto. }
    pose proof (Hno SIn) as H1. pose proof (Hno SMx) as H2. pose proof (Hno SWrt) as H3. simpl in H1, H2, H3.
    unfold wake_all. rewrite H1, H2, H3. by destruct s.
Qed.

(** Memory that has room for the three rings. *)
Definition rw_room (r : rwlock_t) : Prop :=
  length (q_queue (xq (l_in r))) = XEMQSZ ∧ length (q_queue (xq (l_mx r))) = XEMQSZ ∧ length (q_queue (xq (l_wrt r))) = XEMQSZ.

Lemma calm_at {A} (a : A) t b : calm a ts !! t = Some b → b = a ∧ t ∈ ts.
Proof using Type. intros H%elem_of_list_to_map_2. apply list_elem_of_fmap in H as (x & [= -> ->] & Hx). done. Qed.
Lemma calm_in {A} (a : A) t : t ∈ ts → calm a ts !! t = Some a.
Proof using Type.
  intros Hin. apply elem_of_list_to_map_1'; [|by apply list_elem_of_fmap; exists t].
  intros p Hp. apply list_elem_of_fmap in Hp as (? & [= -> ->] & _). done.
Qed.

Lemma rwreach_winv par r s : rw_room r → (∀ t, t ∈ ts → par t = false) → rwreach par r ts s → winv s.
Proof using Hcap Hun.
  intros (R1 & R2 & R3) Hpar. induction 1 as [|s s' _ IH Hs]; [|by eapply rwstep_winv]. split.
  - intros k. exists None, Free, []. destruct k; [apply (xinv_start (l_in r))|apply (xinv_start (l_mx r))|apply (xinv_start (l_wrt r))]; done.
  - intros t. simpl. split; [intros [p [_ ?]%calm_at]; done|]. intros Hin. rewrite calm_in by done. done.
  - intros t p k q [-> _]%calm_at Hq. destruct k; apply calm_at in Hq as [-> _]; done.
  - intros t [? _]%calm_at. done.
  - exists (mkRsys all_units (calm Idle ts)). split; [|split; [done|]].
    + apply rreach_start. by intros t p [-> _]%calm_at.
    + intros t. simpl. destruct (calm Idle ts !! t) as [p|] eqn:E; [|done]. apply calm_at in E as [-> _]. done.
Qed.
End lock.

(** ** Theorems *)

(** What the lock's clients use: the exclusion, and that no routine fails. *)
Lemma lock_excludes par r ts s t1 t2 :
  rw_room r → (length ts < XEMQSZ)%nat → UNUSED_SLOT ∉ ts → (∀ t, t ∈ ts → par t = false) → rwreach par r ts s →
  w_sites s !! t1 = Some Writing →
  (w_sites s !! t2 = Some Writing → t1 = t2) ∧ w_sites s !! t2 ≠ Some Reading.
Proof.
  intros Hr Hcap Hun Hpar Hs H1. pose proof (rwreach_winv ts Hcap Hun par r s Hr Hpar Hs) as W.
  destruct (wi_abs _ _ W) as (a & Ha & _ & Ea).
  assert (rpcs a !! t1 = Some Writing) as A1 by by rewrite Ea, H1. destruct (writer_alone a t1 t2 Ha A1) as [X1 X2]. rewrite Ea in X1, X2. split.
  - intros H2. rewrite H2 in X1. by apply X1.
  - intros H2. rewrite H2 in X2. done.
Qed.

Lemma lock_ok par r ts s t :
  rw_room r → (length ts < XEMQSZ)%nat → UNUSED_SLOT ∉ ts → (∀ t, t ∈ ts → par t = false) → rwreach par r ts s → w_sites s !! t ≠ Some RFailed.
Proof. intros Hr Hcap Hun Hpar Hs. apply (wi_ok _ _ (rwreach_winv ts Hcap Hun par r s Hr Hpar Hs)). Qed.

(** C18: The readers-writer lock on the semaphores of [xem.c] excludes: with
    fewer than [XEMQSZ] threads, none of which has created threads or
    processes whose exit would wake it in [futex_wait], in every interleaving
    of the shared accesses of the lock and semaphore routines a thread that
    has the write lock is the only one that has it, no thread has the read
    lock at the same time, and no routine of the lock returns -1. *)
Theorem rwlock_excludes par r ts s t1 t2 :
  rw_room r → (length ts < XEMQSZ)%nat → UNUSED_SLOT ∉ ts → (∀ t, t ∈ ts → par t = false) → rwreach par r ts s →
  w_sites s !! t2 ≠ Some RFailed ∧
  (w_sites s !! t1 = Some Writing → (w_sites s !! t2 = Some Writing → t1 = t2) ∧ w_sites s !! t2 ≠ Some Reading).
Proof.
  intros Hr Hcap Hun Hpar Hs. split; [by apply (lock_ok par r ts)|]. by apply (lock_excludes par r ts).
Qed.

Definition rw0 : rwlock_t := mkRwlock xem0 xem0 xem0 7.

(** Thread 1 takes the write lock; another thread calls for it and sleeps. *)
Definition write_locked (t : Z) : list rwact :=
  RCall 1 WrIn :: replicate 8 (RNext 1) ++ RCall t WrIn :: replicate 5 (RNext t).

Lemma rwlock_excludes_witness :
  ∃ s, rwreach (λ _, false) rw0 [1; 2] s ∧ w_sites s !! 1 = Some Writing ∧ w_sites s !! 2 = Some WrIn ∧
    rw_next 2 s = None ∧ w_sites s !! 2 ≠ Some RFailed ∧ w_sites s !! 2 ≠ Some Reading.
Proof.
  destruct (rw_run (λ _, false) (write_locked 2) (rwstart rw0 [1; 2])) as [s|] eqn:E; [|by vm_compute in E].
  assert (w_sites s !! 1 = Some Writing ∧ w_sites s !! 2 = Some WrIn ∧ rw_next 2 s = None) as (H1 & H2 & H3)
    by (vm_compute in E; injection E as <-; done).
  apply rw_run_reach in E. exists s. split; [done|]. split; [done|]. split; [done|]. split; [done|].
  destruct (rwlock_excludes (λ _, false) rw0 [1; 2] s 1 2) as [T1 T2]; [done|unfold XEMQSZ; simpl; lia|unfold UNUSED_SLOT; set_solver|done|exact E|].
  split; [exact T1|]. by apply T2.
Defined.

(** A thread whose children exit while it waits for the write lock gets it
    all the same: then two threads have it. *)
Lemma exit_breaks_lock :
  ∃ s, rwreach (λ t, Z.eqb t 2) rw0 [1; 2] s ∧ w_sites s !! 1 = Some Writing ∧ w_sites s !! 2 = Some Writing.
Proof.
  destruct (rw_run (λ t, Z.eqb t 2) (write_locked 2 ++ [RExit 2] ++ replicate 6 (RNext 2) ++ [RExit 2; RNext 2]) (rwstart rw0 [1; 2])) as [s|] eqn:E;
    [|by vm_compute in E].
  exists s. split; [by eapply rw_run_reach|]. by vm_compute in E; injection E as <-.
Qed.

Close Scope Z_scope.
