(* ===== verification/Proc.v ===== *)
(** * Creating and ending processes ([src/xv6-public/proc.c])

    [pinit], [allocproc], [userinit], [growproc], [fork] with its helpers,
    [exit], [freeproc], [wait] and [forkret].

    The memory and file subsystems are used through [KMem] and [KFile], what
    [proc.c] and [thread.c] call of [kalloc.c], [vm.c], [file.c], [fs.c] and
    [log.c].  A call that may sleep in a loop is one round of it: it is
    [Done], or [Sleeps] and goes on with another round when it is woken. *)

From S2P Require Import Prelude.
From S2P Require Import Strings.
From S2P Require Import ListH.
From S2P Require Import Spinlock.
From S2P Require Import Kstate.
From S2P Require Import ThreadCore.
From S2P Require Import Mlfq.
From S2P Require Import Sched.

Open Scope Z_scope.

Definition PGSIZE : Z := 4096.
Definition TF_WORDS : nat := 19.        (* sizeof(struct trapframe) / 4 *)
Definition CONTEXT_WORDS : nat := 5.    (* sizeof(struct context) / 4 *)
Definition TF_EAX : nat := 7.
Definition TF_ES : nat := 10.
Definition TF_DS : nat := 11.
Definition TF_EIP : nat := 14.
Definition TF_CS : nat := 15.
Definition TF_EFLAGS : nat := 16.
Definition TF_ESP : nat := 17.
Definition TF_SS : nat := 18.
Definition CTX_EBP : nat := 3.
Definition CTX_EIP : nat := 4.

(** Pages, page tables and user memory. *)
Class KMem (E : Type) := {
  kalloc : M (kstate E) Z;                       (* 0 when there is no memory *)
  kfree : Z → M (kstate E) unit;
  page_words : Z → E → list Z;                   (* the contents of a kernel page *)
  setupkvm : M (kstate E) Z;
  inituvm : Z → M (kstate E) unit;               (* with initcode's bytes *)
  allocuvm : Z → Z → Z → M (kstate E) Z;
  deallocuvm : Z → Z → Z → M (kstate E) Z;
  copyuvm : nat → M (kstate E) Z;
  freevm : Z → M (kstate E) unit;
  allocustack : Z → Z → M (kstate E) Z;
  deallocustack : Z → Z → M (kstate E) unit;
  st_user : Z → Z → M (kstate E) unit;           (* *(uint* )va = v *)
  trapret : Z;
  forkret_addr : Z
}.

(** Open files, inodes and the log. *)
Class KFile (E : Type) := {
  filedup : nat → M (kstate E) nat;
  fileclose : nat → M (kstate E) unit;
  idup : option nat → M (kstate E) (option nat);
  iput : option nat → M (kstate E) unit;
  namei_root : M (kstate E) (option nat);
  begin_op_k : M (kstate E) unit;
  end_op_k : M (kstate E) unit;
  iinit_k : M (kstate E) unit;
  initlog_k : M (kstate E) unit
}.

(** A round of a call that may sleep. *)
Inductive round (A : Type) := Done (a : A) | Sleeps (sw : swto * Z).
Arguments Done {A} a.
Arguments Sleeps {A} sw.

Section proc.
  Context {E : Type} `{!Hw E, !KMem E, !KFile E}.
  Abbreviation KM := (M (kstate E)).

(** ** Words of a kernel stack *)

Definition kword (x : proc) (a : Z) : option nat :=
  let d := a - p_kstack x in
  if Z.leb 0 d && Z.ltb d KSTACKSIZE && Z.eqb (d mod 4) 0 then Some (Z.to_nat (d / 4)) else None.

Definition ld_kstk (p : nat) (a : Z) : KM Z :=
  x ← gets (λ s, pr s p);
  match kword x a ≫= λ i, p_kstk x !! i with Some v => mret v | None => fail WildPtr end.
Definition st_kstk (p : nat) (a v : Z) : KM unit :=
  x ← gets (λ s, pr s p);
  match kword x a with
  | Some i => wr p (λ x, set_p_kstk (<[i := v]> (p_kstk x)) x)
  | None => fail WildPtr
  end.

(** [p->tf->f] and [p->context->f]. *)
Definition at_word (a : Z) (i : nat) : Z := a + 4 * Z.of_nat i.
Definition st_tf (p : nat) (f : nat) (v : Z) : KM unit := tf ← rd p p_tf; st_kstk p (at_word tf f) v.

(** [nproc++]/[nproc--]. *)
Definition add_nproc (d : Z) : KM unit := modify (λ s, set_nproc (s32 (nproc s + d)) s).

(** [p->ofile[fd]]. *)
Definition set_ofile (fd : nat) (v : option nat) (x : proc) : proc := set_p_ofile (<[fd := v]> (p_ofile x)) x.
Definition ofile (fd : nat) (x : proc) : option nat := p_ofile x !! fd ≫= id.

(** [safestrcpy(np->name, p->name, sizeof(p->name))]. *)
Definition copy_name (src dst : list Z) : list Z :=
  let w := safestrcpy_bytes 16 src in w ++ drop (length w) dst.

(** [list_first_entry], [list_last_entry]. *)
Definition list_first_entry (f : lfield) (n : option lnode) : KM nat :=
  n ← on_links (ld_next n); list_entry f n.
Definition list_last_entry (f : lfield) (n : option lnode) : KM nat :=
  n ← on_links (ld_prev n); list_entry f n.

(** ** Boot *)

Definition pinit : KM unit :=
  on_cpus (initlock Lptable);;
  for_each (seq 0 QSIZE) (λ i,
    on_links (list_head_init (Some (NQueue i)));;
    st_pin (Z.of_nat i) (Some (NQueue i)));;
  on_links (list_head_init (Some NStrideRun));;
  on_links (list_head_init (Some NSleep));;
  on_links (list_head_init (Some NFree));;
  for_each (seq 0 NPROC) (λ p, on_links (list_add_tail (Some (NProc Ffree p)) (Some NFree)));;
  modify (upd_mlfq (set_mq_tickets 100)).

(** ** [allocproc] *)

(** [p->state = UNUSED; nproc++; list_add(&p->free, &ptable.free)]. *)
Definition give_back (p : nat) : KM unit :=
  wr p (set_p_state UNUSED);;
  add_nproc 1;;
  on_links (list_add (Some (NProc Ffree p)) (Some NFree)).

(** The fresh kernel stack: a trap frame's room, [trapret] and a context that
    returns to [forkret]. *)
Definition init_kstack (p : nat) : KM unit :=
  kstack ← rd p p_kstack;
  let sp := kstack + KSTACKSIZE - 4 * Z.of_nat TF_WORDS in
  wr p (set_p_tf sp);;
  let sp := sp - 4 in
  st_kstk p sp trapret;;
  let sp := sp - 4 * Z.of_nat CONTEXT_WORDS in
  wr p (set_p_context sp);;
  for_each (seq 0 CONTEXT_WORDS) (λ i, st_kstk p (at_word sp i) 0);;
  st_kstk p (at_word sp CTX_EIP) forkret_addr.

Definition allocproc : KM (option nat) :=
  e ← on_links (list_empty (Some NFree));
  if negb e then
    p ← list_first_entry Ffree (Some NFree);
    add_nproc (-1);;
    on_links (list_del (Some (NProc Ffree p)));;
    wr p (set_p_state EMBRYO);;
    on_links (list_head_init (Some (NProc Fchildren p)));;
    kstack ← kalloc;
    wr p (set_p_kstack kstack);;
    if Z.eqb kstack 0 then
      give_back p;;
      mret None
    else
      words ← gets (λ s, page_words kstack (k_ext s));
      wr p (set_p_kstk words);;
      init_kstack p;;
      mret (Some p)
  else mret None.

Definition SEG_UCODE_SEL : Z := Z.lor (Z.shiftl 3 3) 3.
Definition SEG_UDATA_SEL : Z := Z.lor (Z.shiftl 4 3) 3.
(** "initcode" *)
Definition initcode_name : list Z := [105; 110; 105; 116; 99; 111; 100; 101; 0].

(** [p->pid = nextpid++]. *)
Definition new_pid (p : nat) : KM unit :=
  n ← gets nextpid;
  wr p (set_p_pid n);;
  modify (set_nextpid (s32 (n + 1))).

Definition userinit : KM unit :=
  p ← allocproc;
  modify (set_initproc p);;
  p ← deref p;
  new_pid p;;
  pgdir ← setupkvm;
  wr p (set_p_pgdir pgdir);;
  if Z.eqb pgdir 0 then panic "userinit: out of memory?"
  else
    inituvm pgdir;;
    wr p (set_p_sz PGSIZE);;
    wr p (set_p_type MLFQ);;
    wr p (set_p_privlevel 0);;
    on_links (list_head_init (Some (NProc Fthgroup p)));;
    wr p (set_p_thmain (Some p));;
    tf ← rd p p_tf;
    for_each (seq 0 TF_WORDS) (λ i, st_kstk p (at_word tf i) 0);;
    st_tf p TF_CS SEG_UCODE_SEL;;
    st_tf p TF_DS SEG_UDATA_SEL;;
    st_tf p TF_ES SEG_UDATA_SEL;;
    st_tf p TF_SS SEG_UDATA_SEL;;
    st_tf p TF_EFLAGS FL_IF;;
    st_tf p TF_ESP PGSIZE;;
    st_tf p TF_EIP 0;;
    wr p (λ x, set_p_name (copy_name initcode_name (p_name x)) x);;
    cwd ← namei_root;
    wr p (set_p_cwd cwd);;
    on_cpus (acquire Lptable);;
    wr p (set_p_state RUNNABLE);;
    enqueue_proc p;;
    on_cpus (release Lptable).

(** ** [growproc] *)

Definition growproc (n : Z) : KM Z :=
  curproc ← on_cpus myproc;
  curproc ← deref curproc;
  thmain ← main_thread curproc;
  on_cpus (acquire Lptable);;
  sz ← rd thmain p_sz;
  pgdir ← rd curproc p_pgdir;
  r ← ((if Z.ltb 0 n then sz' ← allocuvm pgdir sz (u32 (sz + n)); mret (sz', Z.eqb sz' 0)
       else if Z.ltb n 0 then sz' ← deallocuvm pgdir sz (u32 (sz + n)); mret (sz', Z.eqb sz' 0)
       else mret (sz, false)) : KM (Z * bool));
  if (snd r : bool) then
    on_cpus (release Lptable);;
    mret (-1)
  else
    wr thmain (set_p_sz (fst r : Z));;
    invalidate_tlb curproc;;
    on_cpus (release Lptable);;
    mret 0.

(** ** [fork] *)

Definition __search_thmain (th1 th2 : nat) : KM (option nat) :=
  m ← rd th1 p_thmain;
  m ← deref m;
  tid ← rd m p_tid;
  get_thread th2 tid.

Definition __routine_fork_thread (th thmain : nat) : KM (option nat) :=
  tid ← rd th p_tid;
  st ← rd th p_state;
  if Z.eqb tid 0 then mret None
  else if decide (st ≠ RUNNABLE ∧ st ≠ RUNNING ∧ st ≠ SLEEPING) then mret None
  else
    nth ← allocproc;
    match nth with
    | None => mret (Some th)
    | Some nth =>
        m ← gets (λ s, pr s thmain);
        wr nth (set_p_pgdir (p_pgdir m));;
        wr nth (set_p_parent (p_parent m));;
        parent ← deref (p_parent m);
        on_links (list_add_tail (Some (NProc Fsibling nth)) (Some (NProc Fchildren parent)));;
        for_each (seq 0 NOFILE) (λ i,
          match ofile i m with Some f => wr nth (set_ofile i (Some f)) | None => mret tt end);;
        wr nth (set_p_cwd (p_cwd m));;
        wr nth (λ x, set_p_name (copy_name (p_name m) (p_name x)) x);;
        wr nth (set_p_pid (p_pid m));;
        x ← gets (λ s, pr s th);
        wr nth (set_p_ustack (p_ustack x));;
        wr nth (set_p_tid (p_tid x));;
        on_links (list_add_tail (Some (NProc Fthgroup nth)) (Some (NProc Fthgroup thmain)));;
        tm ← deref (p_thmain x);
        tmid ← rd tm p_tid;
        (if Z.eqb tmid 0 then wr nth (set_p_thmain (Some thmain))
         else
           m' ← __search_thmain th nth;
           wr nth (set_p_thmain (match m' with Some m' => Some m' | None => Some thmain end)));;
        mret None
    end.

Definition __routine_rollback_thread (th : nat) : KM (option nat) :=
  on_links (list_del (Some (NProc Fsibling th)));;
  kstack ← rd th p_kstack;
  kfree kstack;;
  wr th (set_p_kstack 0);;
  give_back th;;
  mret None.

(** A word of a copied kernel stack that points into the old stack. *)
Definition rebase (from to : Z) (w : Z) : Z :=
  if Z.ltb (s32 from) (s32 w) && Z.ltb (s32 w) (s32 from + KSTACKSIZE) then u32 (w + (to - from)) else w.

(** The state and the kernel stack of one thread of the child. *)
Definition fork_copy (curproc th nth : nat) : KM (option nat) :=
  if decide (th = curproc) then
    tf ← rd th p_tf;
    ntf ← rd nth p_tf;
    for_each (seq 0 TF_WORDS) (λ i, v ← ld_kstk th (at_word tf i); st_kstk nth (at_word ntf i) v);;
    st_tf nth TF_EAX 0;;
    wr nth (set_p_state RUNNABLE);;
    mret (Some nth)
  else
    x ← gets (λ s, pr s th);
    to ← rd nth p_kstack;
    let from := p_kstack x in
    wr nth (set_p_kstk (rebase from to <$> p_kstk x));;
    wr nth (set_p_context (u32 (p_context x - from + to)));;
    ebp ← ld_kstk th (at_word (p_context x) CTX_EBP);
    ncontext ← rd nth p_context;
    st_kstk nth (at_word ncontext CTX_EBP) (u32 (ebp - from + to));;
    wr nth (set_p_tf (u32 (p_tf x - from + to)));;
    wr nth (set_p_state (p_state x));;
    (if decide (p_state x = SLEEPING) then
       wr nth (set_p_chan (if decide (p_chan x = Cproc th) then Cproc nth else p_chan x));;
       on_links (list_add (Some (NProc Fsleep nth)) (Some NSleep))
     else mret tt);;
    mret None.

(** The do-while loop over the two rings of threads. *)
Definition fork_threads (curproc curmain np : nat) : KM (option nat) :=
  let start := Some (NProc Fthgroup curmain) in
  loop walk_fuel (λ '(itr1, itr2, nxt),
    th ← list_entry Fthgroup itr1;
    nth ← list_entry Fthgroup itr2;
    r ← fork_copy curproc th nth;
    let nxt := match r with Some n => Some n | None => nxt end in
    itr1 ← on_links (ld_next itr1);
    itr2 ← on_links (ld_next itr2);
    if decide (itr1 = start) then mret (inr nxt) else mret (inl (itr1, itr2, nxt)))
    (start, Some (NProc Fthgroup np), None).

(** The main thread of the child. *)
Definition fork_main (curproc curmain np : nat) : KM unit :=
  m ← gets (λ s, pr s curmain);
  for_each (seq 0 NOFILE) (λ i,
    match ofile i m with Some f => f ← filedup f; wr np (set_ofile i (Some f)) | None => mret tt end);;
  cwd ← idup (p_cwd m);
  wr np (set_p_cwd cwd);;
  wr np (set_p_sz (p_sz m));;
  wr np (set_p_type MLFQ);;
  wr np (set_p_privlevel 0);;
  wr np (set_p_tid 0);;
  wr np (set_p_thmain (Some np));;
  on_links (list_head_init (Some (NProc Fthgroup np)));;
  wr np (set_p_parent (Some curproc));;
  on_links (list_add_tail (Some (NProc Fsibling np)) (Some (NProc Fchildren curproc)));;
  wr np (set_p_ustack (p_ustack m));;
  wr np (λ x, set_p_name (copy_name (p_name m) (p_name x)) x).

(** [for(fd...) if(p->ofile[fd]) { fileclose(p->ofile[fd]); p->ofile[fd] = 0; }
    begin_op(); iput(p->cwd); end_op(); p->cwd = 0;] *)
Definition close_all (p : nat) : KM unit :=
  for_each (seq 0 NOFILE) (λ fd,
    f ← rd p (ofile fd);
    match f with Some f => fileclose f;; wr p (set_ofile fd None) | None => mret tt end);;
  begin_op_k;;
  cwd ← rd p p_cwd;
  iput cwd;;
  end_op_k;;
  wr p (set_p_cwd None).

Definition fork : KM Z :=
  on_cpus (acquire Lptable);;
  curproc ← on_cpus myproc;
  curproc ← deref curproc;
  curmain ← main_thread curproc;
  sz ← thread_size curproc;
  n ← gets nproc;
  if Z.ltb n sz then
    on_cpus (release Lptable);;
    mret (-1)
  else
    np ← allocproc;
    match np with
    | None =>
        on_cpus (release Lptable);;
        mret (-1)
    | Some np =>
        new_pid np;;
        pgdir ← copyuvm curmain;
        wr np (set_p_pgdir pgdir);;
        if Z.eqb pgdir 0 then
          kstack ← rd np p_kstack;
          kfree kstack;;
          wr np (set_p_kstack 0);;
          give_back np;;
          on_cpus (release Lptable);;
          mret (-1)
        else
          fork_main curproc curmain np;;
          r ← threads_apply1 curmain __routine_fork_thread np;
          match r with
          | Some _ =>
              close_all np;;
              threads_apply0 np __routine_rollback_thread;;
              pgdir ← rd np p_pgdir;
              freevm pgdir;;
              on_cpus (release Lptable);;
              mret (-1)
          | None =>
              nxt ← fork_threads curproc curmain np;
              pid ← rd np p_pid;
              nxt ← deref nxt;
              enqueue_proc nxt;;
              on_cpus (release Lptable);;
              mret pid
          end
    end.

(** ** [freeproc] and [wait] *)

Definition freeproc (p : nat) : KM unit :=
  kstack ← rd p p_kstack;
  kfree kstack;;
  wr p (set_p_kstack 0);;
  pgdir ← rd p p_pgdir;
  freevm pgdir;;
  wr p (set_p_pid 0);;
  wr p (set_p_parent None);;
  wr p (λ x, set_p_name (<[0%nat := 0]> (p_name x)) x);;
  wr p (set_p_type MLFQ);;
  wr p (set_p_killed 0);;
  wr p (set_p_tickets 0);;
  wr p (set_p_pass 0);;
  wr p (set_p_ticks 0);;
  wr p (set_p_privlevel 0);;
  give_back p.

(** The scan of the children for one that exited. *)
Definition wait_scan (children : option lnode) : KM (option nat) :=
  itr ← on_links (ld_next children);
  loop queue_fuel (λ itr,
    if decide (itr = children) then mret (inr None)
    else
      p ← list_entry Fsibling itr;
      tid ← rd p p_tid;
      st ← rd p p_state;
      if Z.eqb tid 0 && bool_decide (st = ZOMBIE) then mret (inr (Some p))
      else itr ← on_links (ld_next itr); mret (inl itr)) itr.

(** One turn of [wait]'s loop, with [ptable.lock] held. *)
Definition wait_turn (curproc : nat) : KM (round Z) :=
  let children := Some (NProc Fchildren curproc) in
  z ← wait_scan children;
  match z with
  | Some p =>
      pid ← rd p p_pid;
      on_links (list_del (Some (NProc Fsibling p)));;
      freeproc p;;
      on_cpus (release Lptable);;
      mret (Done pid)
  | None =>
      e ← on_links (list_empty children);
      killed ← rd curproc p_killed;
      if e || negb (Z.eqb killed 0) then
        on_cpus (release Lptable);;
        mret (Done (-1))
      else
        sw ← sleep (Cproc curproc) (Some Lptable);
        mret (Sleeps sw)
  end.

Definition wait : KM (round Z) :=
  curproc ← on_cpus myproc;
  curproc ← deref curproc;
  on_cpus (acquire Lptable);;
  wait_turn curproc.

(** [wait] goes on when its sleep is over. *)
Definition wait_back (curproc : nat) (intena : Z) : KM (round Z) :=
  sleep_back Lptable intena;;
  wait_turn curproc.

(** ** [forkret] *)

(** With the static [first]. *)
Definition forkret (first : Z) : KM Z :=
  on_cpus (release Lptable);;
  if negb (Z.eqb first 0) then
    iinit_k;;
    initlog_k;;
    mret 0
  else mret first.

End proc.

Close Scope Z_scope.
