(* ===== verification/Thread.v ===== *)
(** * Creating, ending and joining threads; [exit] ([src/xv6-public/thread.c],
    [src/xv6-public/proc.c])

    The rest of [thread.c], and [exit], which joins the threads of the
    process it ends.  As in [Proc], a call that sleeps in a loop is one round
    of the loop. *)

From S2P Require Import Prelude.
From S2P Require Import Strings.
From S2P Require Import ListH.
From S2P Require Import Spinlock.
From S2P Require Import Kstate.
From S2P Require Import ThreadCore.
From S2P Require Import Mlfq.
From S2P Require Import Sched.
From S2P Require Import Proc.

Open Scope Z_scope.

Definition PGROUNDDOWN (a : Z) : Z := Z.land a (Z.lnot (PGSIZE - 1)).

Section thread.
  Context {E : Type} `{!Hw E, !KMem E, !KFile E}.
  Abbreviation KM := (M (kstate E)).

Definition __free_thread (th : nat) : KM unit :=
  kstack ← rd th p_kstack;
  kfree kstack;;
  wr th (set_p_kstack 0);;
  pgdir ← rd th p_pgdir;
  ustack ← rd th p_ustack;
  deallocustack pgdir ustack;;
  wr th (set_p_pid 0);;
  wr th (set_p_tid 0);;
  wr th (set_p_type MLFQ);;
  wr th (set_p_parent None);;
  wr th (λ x, set_p_name (<[0%nat := 0]> (p_name x)) x);;
  wr th (set_p_killed 0);;
  wr th (set_p_tickets 0);;
  wr th (set_p_pass 0);;
  wr th (set_p_ticks 0);;
  wr th (set_p_privlevel 0);;
  wr th (set_p_retval 0);;
  give_back th.

Definition __usurp_proc (th : nat) : KM unit :=
  thmain ← main_thread th;
  m ← gets (λ s, pr s thmain);
  wr th (set_p_sz (p_sz m));;
  wr th (set_p_ticks (p_ticks m));;
  for_each (seq 0 NOFILE) (λ i,
    match ofile i m with Some f => wr th (set_ofile i (Some f)) | None => mret tt end);;
  wr th (set_p_cwd (p_cwd m));;
  ty ← rd th p_type;
  (if decide (ty = STRIDE) then
     wr th (set_p_tickets (p_tickets m));;
     wr th (set_p_pass (p_pass m))
   else mret tt);;
  threads_apply1 th __routine_usurp_proc th;;
  tid ← rd th p_tid;
  wr thmain (set_p_tid tid);;
  wr th (set_p_tid 0).

(** ** [thread_join] *)

(** One turn of the loop, with [ptable.lock] held.  [retval] is the user
    address the value goes to; [None] is a variable of the kernel. *)
Definition join_turn (thread : Z) (retval : option Z) : KM (round Z) :=
  curth ← on_cpus myproc;
  curth ← deref curth;
  th ← get_thread curth thread;
  killed ← rd curth p_killed;
  match th with
  | Some th =>
      if negb (Z.eqb killed 0) then
        on_cpus (release Lptable);;
        mret (Done (-1))
      else
        st ← rd th p_state;
        m ← rd th p_thmain;
        if bool_decide (st = ZOMBIE) && bool_decide (m = Some curth) then
          v ← rd th p_retval;
          (match retval with Some a => st_user a v | None => mret tt end);;
          on_links (list_del (Some (NProc Fthgroup th)));;
          on_links (list_del (Some (NProc Fsibling th)));;
          __free_thread th;;
          on_cpus (release Lptable);;
          mret (Done 0)
        else
          sw ← sleep (Cproc curth) (Some Lptable);
          mret (Sleeps sw)
  | None =>
      on_cpus (release Lptable);;
      mret (Done (-1))
  end.

Definition thread_join (thread : Z) (retval : option Z) : KM (round Z) :=
  on_cpus (acquire Lptable);;
  join_turn thread retval.

Definition thread_join_back (thread : Z) (retval : option Z) (intena : Z) : KM (round Z) :=
  sleep_back Lptable intena;;
  join_turn thread retval.

(** ** [monopolize_proc] *)

Definition monopolize_proc (p : nat) : KM unit :=
  on_cpus (acquire Lptable);;
  m ← rd p p_thmain;
  (if decide (m ≠ Some p) then
     m ← deref m;
     wakeup1 (Cproc m);;
     __usurp_proc p
   else mret tt);;
  terminate_proc p;;
  wr p (set_p_killed 0);;
  on_cpus (release Lptable).

(** One turn of its loop, up to the call of [thread_join]: [None] when the
    process has no other thread left. *)
Definition monopolize_next (p : nat) : KM (option (round Z)) :=
  e ← on_links (list_empty (Some (NProc Fthgroup p)));
  if negb e then
    th ← list_first_entry Fthgroup (Some (NProc Fthgroup p));
    tid ← rd th p_tid;
    r ← thread_join tid None;
    mret (Some r)
  else mret None.

(** ** [thread_create] *)

(** The stack of the new thread: its argument and the magic return address. *)
Definition push_arg (sp arg : Z) : KM Z :=
  let sp := u32 (sp - 4) in
  st_user sp arg;;
  let sp := u32 (sp - 4) in
  st_user sp MAGICEXIT;;
  mret sp.

Definition thread_create (thread start_routine arg : Z) : KM Z :=
  on_cpus (acquire Lptable);;
  curth ← on_cpus myproc;
  curth ← deref curth;
  thmain ← main_thread curth;
  thlast ← list_last_entry Fthgroup (Some (NProc Fthgroup thmain));
  nth ← allocproc;
  match nth with
  | None =>
      on_cpus (release Lptable);;
      mret (-1)
  | Some nth =>
      m ← gets (λ s, pr s thmain);
      wr nth (set_p_pid (p_pid m));;
      wr nth (set_p_pgdir (p_pgdir m));;
      wr nth (set_p_parent (p_parent m));;
      parent ← deref (p_parent m);
      on_links (list_add_tail (Some (NProc Fsibling nth)) (Some (NProc Fchildren parent)));;
      wr nth (set_p_type (p_type m));;
      ustack ← rd thlast p_ustack;
      let sp := u32 (PGROUNDDOWN ustack - PGSIZE) in
      ok ← allocustack (p_pgdir m) (u32 (sp - USTACKSIZE));
      if Z.eqb ok 0 then
        kstack ← rd nth p_kstack;
        kfree kstack;;
        wr nth (set_p_kstack 0);;
        on_links (list_del (Some (NProc Fsibling nth)));;
        give_back nth;;
        on_cpus (release Lptable);;
        mret (-1)
      else
        wr nth (set_p_ustack (u32 (sp - USTACKSIZE)));;
        sp ← push_arg sp arg;
        tid ← rd thlast p_tid;
        wr nth (set_p_tid (s32 (tid + 1)));;
        wr nth (set_p_thmain (Some curth));;
        on_links (list_add_tail (Some (NProc Fthgroup nth)) (Some (NProc Fthgroup thmain)));;
        st_user thread (s32 (tid + 1));;
        tf ← rd curth p_tf;
        ntf ← rd nth p_tf;
        for_each (seq 0 TF_WORDS) (λ i, v ← ld_kstk curth (at_word tf i); st_kstk nth (at_word ntf i) v);;
        st_tf nth TF_EAX 0;;
        st_tf nth TF_ESP sp;;
        st_tf nth TF_EIP start_routine;;
        wr nth (λ x, set_p_name (copy_name (p_name m) (p_name x)) x);;
        wr nth (set_p_state RUNNABLE);;
        ty ← rd nth p_type;
        (if decide (ty = MLFQ) then enqueue_thread nth else mret tt);;
        invalidate_tlb curth;;
        on_cpus (release Lptable);;
        mret 0
  end.

(** ** [thread_exit] *)

(** [None] when the caller is a main thread: the call returns. *)
Definition thread_exit (retval : Z) : KM (option (swto * Z)) :=
  curth ← on_cpus myproc;
  curth ← deref curth;
  m ← rd curth p_thmain;
  if decide (m = Some curth) then mret None
  else
    for_each (seq 0 NOFILE) (λ fd, wr curth (set_ofile fd None));;
    wr curth (set_p_cwd None);;
    on_cpus (acquire Lptable);;
    wr curth (set_p_retval retval);;
    m ← deref m;
    wakeup1 (Cproc m);;
    threads_apply1 curth __routine_handle_orphan_thread curth;;
    for_list (Some (NProc Fchildren curth)) Fsibling (λ p,
      m ← main_thread curth; wr p (set_p_parent (Some m)));;
    m ← main_thread curth;
    on_links (list_bulk_move_tail (Some (NProc Fchildren curth)) (Some (NProc Fchildren m)));;
    ty ← rd curth p_type;
    (if decide (ty = MLFQ) then dequeue_thread curth else mret tt);;
    wr curth (set_p_state ZOMBIE);;
    sw ← sched;
    mret (Some sw).

(** ** [exit] *)

(** The first part: [false] when a thread that is not the main one ended by
    [thread_exit]. *)
Definition exit_begin : KM (option (swto * Z) * bool) :=
  curproc ← on_cpus myproc;
  curproc ← deref curproc;
  ip ← gets initproc;
  if decide (ip = Some curproc) then panic "init exiting"
  else
    killed ← rd curproc p_killed;
    (if Z.eqb killed 0 then terminate_proc curproc else mret tt);;
    tid ← rd curproc p_tid;
    if Z.eqb tid 0 then
      wr curproc (set_p_killed 0);;
      mret (None, true)
    else
      sw ← thread_exit 0;
      mret (sw, false).

(** One turn of the loop that joins the other threads. *)
Definition exit_join : KM (option (round Z)) :=
  curproc ← on_cpus myproc;
  curproc ← deref curproc;
  e ← on_links (list_empty (Some (NProc Fthgroup curproc)));
  if negb e then
    th ← list_first_entry Fthgroup (Some (NProc Fthgroup curproc));
    wakeup (Cproc th);;
    tid ← rd th p_tid;
    r ← thread_join tid None;
    mret (Some r)
  else mret None.

(** The rest, up to the final switch. *)
Definition exit_end : KM (swto * Z) :=
  curproc ← on_cpus myproc;
  curproc ← deref curproc;
  close_all curproc;;
  on_cpus (acquire Lptable);;
  parent ← rd curproc p_parent;
  wakeup1 (match parent with Some p => Cproc p | None => Cnull end);;
  ip ← gets initproc;
  for_list (Some (NProc Fchildren curproc)) Fsibling (λ p,
    wr p (set_p_parent ip);;
    st ← rd p p_state;
    if decide (st = ZOMBIE) then wakeup1 (match ip with Some i => Cproc i | None => Cnull end) else mret tt);;
  ip ← deref ip;
  on_links (list_bulk_move_tail (Some (NProc Fchildren curproc)) (Some (NProc Fchildren ip)));;
  ty ← rd curproc p_type;
  (if decide (ty = MLFQ) then dequeue_proc curproc
   else
     t ← rd curproc p_tickets;
     modify (upd_mlfq (λ m, set_mq_tickets (s32 (mq_tickets m + t)) m)));;
  wr curproc (set_p_state ZOMBIE);;
  sched.

End thread.

Close Scope Z_scope.
