(* ===== verification/BlockStore.v ===== *)
(** * What the file system asks of the layers below it

    [fs.c] works on disk blocks through [bread], the bytes of the buffer,
    [log_write] and [brelse].  [BlockOps] is that interface and [BlockLaws]
    what it promises inside a transaction, in terms of the contents [view] of
    the blocks; [Fs] is written and proved against it.  The buffer cache and
    the log implement it ([log_blocks] below). *)

From S2P Require Import Prelude.
From S2P Require Import ListH.
From S2P Require Import Words.
From S2P Require Import Bio.
From S2P Require Import Log.

Open Scope Z_scope.

Class BlockOps (D : Type) := {
  blk_read : Z → Z → M D nat;              (* bread(dev, blockno) *)
  blk_data : nat → M D block;              (* bp->data *)
  blk_store : nat → block → M D unit;      (* changes to bp->data *)
  blk_log : nat → M D unit;                (* log_write(bp) *)
  blk_release : nat → M D unit             (* brelse(bp) *)
}.

(** The contents of the blocks, the blocks of the file system proper, and
    whether a transaction is open.  [fits d H n]: the buffers [H] are held
    (each with its block number) and [n] more buffers or logged blocks fit. *)
Class BlockModel (D : Type) := {
  view : D → Z → block;
  fits : D → list (nat * Z) → nat → Prop;
  ok_block : D → Z → Prop;
  in_txn : D → Prop
}.

Definition same_txn {D} `{!BlockModel D} (d d' : D) : Prop :=
  (∀ c, ok_block d' c ↔ ok_block d c) ∧ (in_txn d' ↔ in_txn d).

Class BlockLaws (D : Type) `{!BlockOps D} `{!BlockModel D} := {
  blk_read_spec d H n b :
    fits d H (S n) → ok_block d b → b ∉ H.*2 →
    wp (blk_read 1 b) (λ i d', fits d' ((i, b) :: H) n ∧ (∀ c, view d' c = view d c) ∧ same_txn d d') d;
  blk_data_spec d H n i b :
    fits d H n → (i, b) ∈ H → blk_data i d = Ok (view d b, d);
  blk_log_spec d H n i b v :
    fits d H (S n) → in_txn d → (i, b) ∈ H →
    wp (blk_store i v;; blk_log i) (λ _ d', fits d' H n ∧
      (∀ c, view d' c = if decide (c = b) then v else view d c) ∧ same_txn d d') d;
  blk_release_spec d H1 i b H2 n :
    fits d (H1 ++ (i, b) :: H2) n →
    wp (blk_release i) (λ _ d', fits d' (H1 ++ H2) (S n) ∧ (∀ c, view d' c = view d c) ∧ same_txn d d') d;
  fits_weaken d H n n' : fits d H n → (n' ≤ n)%nat → fits d H n'
}.

(** ** The log provides it *)

#[global] Instance log_ops : BlockOps lstate := {
  blk_read dev b := on_b (bread dev b);
  blk_data i := on_b (rb i b_data);
  blk_store i v := on_b (wb i (set_b_data v));
  blk_log := log_write;
  blk_release i := on_b (brelse i)
}.

Record log_room (S : lstate) (H : list (nat * Z)) (n : nat) : Prop := {
  lt_inv : ∃ lru blocks, log_inv S H.*1 lru blocks ∧ (length blocks + length H + n < LOGSIZE)%nat ∧
             Z.of_nat (length blocks + length H + n) < l_size (lg S);
  lt_held : ∀ i b, (i, b) ∈ H → b_blockno (bf (bs S) i) = b ∧ releasable (bs S) i ∧ is_s32 b ∧ home (lg S) b
}.

Definition log_ok_block (S : lstate) (b : Z) : Prop :=
  0 ≤ b < disksize (bs S) ∧ is_s32 b ∧ home (lg S) b.

#[global] Instance log_model : BlockModel lstate := {
  view S := bview (bs S);
  fits := log_room;
  ok_block := log_ok_block;
  in_txn S := 1 ≤ l_outstanding (lg S)
}.

Lemma held_fst (H : list (nat * Z)) i b : (i, b) ∈ H → i ∈ H.*1.
Proof. intros Hi. apply list_elem_of_fmap. by exists (i, b). Qed.

(** The log invariant only depends on what a reader sees. *)
Lemma log_inv_cache S s' H H' lru lru' blocks :
  log_inv S H lru blocks → binv s' H' lru' → disk s' = disk (bs S) → disksize s' = disksize (bs S) →
  (∀ b, dirty s' b ↔ dirty (bs S) b) → log_inv (set_bs s' S) H' lru' blocks.
Proof.
  intros L I Hd Hz Hy. destruct L. split; simpl; rewrite ?Hz; try done.
  - intros b. by rewrite Hy.
  - unfold disk_at in *. by rewrite Hd.
Qed.

Lemma log_bread S H n b :
  log_room S H (Datatypes.S n) → log_ok_block S b → b ∉ H.*2 →
  wp (on_b (bread 1 b)) (λ i S', log_room S' ((i, b) :: H) n ∧ (∀ c, bview (bs S') c = bview (bs S) c) ∧ same_txn S S') S.
Proof.
  intros [(lru & blocks & L & Hn & Hz) Hh] (Hb & H32 & Hhome) HbH.
  pose proof (li_cache _ _ _ _ L) as I. apply wp_zoom. wcall (bread_spec (bs S) H.*1 lru b I Hb).
  - intros i ([i' b'] & -> & Hi)%list_elem_of_fmap. simpl. destruct (Hh i' b' Hi) as [-> _].
    intros ->. apply HbH, list_elem_of_fmap. by exists (i', b).
  - right. apply (room (bs S) H.*1 lru blocks I); [intros c Hc; by apply (li_dirty _ _ _ _ L)|].
    rewrite length_fmap. unfold LOGSIZE, NBUF in *. lia.
  - intros i s' (Hi & HiH & I' & [G1 G2 G3 G4 G5 G6]).
    assert (disksize s' = disksize (bs S) ∧ disk s' = disk (bs S)) as [Zs Ds] by (rewrite G4; done).
    assert (∀ c, disk_at s' c = disk_at (bs S) c) as Hda by (intros c; unfold disk_at; by rewrite Ds).
    split_and!; [|done|]; cycle 1.
    { split; [|done]. intros c. simpl. unfold log_ok_block. simpl. by rewrite Zs. }
    split.
    + exists lru, blocks. split; [by eapply log_inv_cache|]. simpl. lia.
    + intros j c [[= -> ->]|Hj]%elem_of_cons.
      * split; [done|]. split; [|done]. unfold releasable. simpl bs. rewrite G1, Hda.
        destruct (decide (b_flags (bf s' i) = 6)) as [|Hf]; [by left|right]. rewrite G2.
        apply (clean_view _ _ _ _ I); [by rewrite <-G3|].
        intros k ([k' c'] & -> & Hk)%list_elem_of_fmap. simpl. destruct (Hh k' c' Hk) as [-> _]. intros ->.
        apply HbH, list_elem_of_fmap. by exists (k', b).
      * destruct (Hh j c Hj) as (E1 & E2 & E3). assert (bf s' j = bf (bs S) j) as Ej.
        { rewrite G4, bf_put, decide_False; [done|]. intros ->. by apply held_fst in Hj. }
        simpl bs. unfold releasable. rewrite Ej, Hda. done.
Qed.

Lemma log_log S H n i b v :
  log_room S H (Datatypes.S n) → in_txn S → (i, b) ∈ H →
  wp (on_b (wb i (set_b_data v));; log_write i) (λ _ S', log_room S' H n ∧
    (∀ c, bview (bs S') c = if decide (c = b) then v else bview (bs S) c) ∧ same_txn S S') S.
Proof.
  intros [(lru & blocks & L & Hn & Hz) Hh] Ho Hi. pose proof (li_cache _ _ _ _ L) as I.
  destruct (Hh i b Hi) as (Eb & _ & H32 & Hhome). pose proof (held_fst _ _ _ Hi) as Hi1.
  destruct (bi_H _ _ _ I) as [Hnd HH]. destruct (HH i Hi1) as [Hlt Hdev].
  apply wp_bind, wp_zoom, wp_modify. rewrite upd_buf_put.
  destruct (bi_flags _ _ _ I i Hlt) as [(_ & Hfl & Hbr)|[? _]]; [|congruence].
  destruct (binv_put_held (bs S) H.*1 lru i (set_b_data v (bf (bs S) i)) I Hi1) as (I1 & V1 & V1'); [done..|].
  remember (put_buf i (set_b_data v (bf (bs S) i)) (bs S)) as s1 eqn:Es1.
  rewrite Eb in V1, V1'. cbn [b_data set_b_data] in V1'.
  assert (∀ c, dirty s1 c ↔ dirty (bs S) c) as Hd1.
  { intros c. unfold dirty. rewrite Es1. setoid_rewrite bf_put. split; intros (j & Hj & Hx); exists j; (split; [done|]);
      case_decide; subst; simpl in *; done. }
  assert (log_inv (set_bs s1 S) H.*1 lru blocks) as L1 by by (eapply log_inv_cache; try done; by rewrite Es1).
  assert (bf s1 i = set_b_data v (bf (bs S) i)) as E1 by (rewrite Es1; by rewrite bf_put, decide_True).
  wcall (log_write_spec (set_bs s1 S) H.*1 lru blocks L1 i Hi1); simpl bs; simpl lg; rewrite ?E1;
    cbn [b_blockno set_b_data]; rewrite ?Eb; try done; try lia.
  intros [] S2 (L2 & E2 & O2 & Z2 & T2 & C2 & V2). split_and!.
  - split.
    + exists lru, (absorb blocks b). split; [done|]. rewrite Z2. simpl lg.
      assert (length (absorb blocks b) ≤ 1 + length blocks)%nat by (unfold absorb; case_decide; rewrite ?length_app; simpl; lia).
      lia.
    + intros j c Hj. destruct (Hh j c Hj) as (F1 & F2 & F3 & F4).
      assert (b_blockno (bf (bs S2) j) = c) as Fb.
      { rewrite E2, bf_put. destruct (decide (i = j)) as [<-|Hne].
        - simpl. congruence.
        - rewrite Es1, bf_put, decide_False by done. done. }
      split_and!; [done| |done|].
      * unfold releasable. rewrite Fb. destruct (decide (i = j)) as [<-|Hne].
        -- left. rewrite E2, bf_put, decide_True by done. done.
        -- assert (bf (bs S2) j = bf (bs S) j) as -> .
           { rewrite E2, bf_put, decide_False by done. by rewrite Es1, bf_put, decide_False. }
           assert (disk_at (bs S2) c = disk_at (bs S) c) as -> by (unfold disk_at; by rewrite E2, Es1).
           rewrite <-F1 at 1. exact F2.
      * unfold home. rewrite T2, Z2. exact F4.
  - intros c. rewrite V2. simpl bs. case_decide as Hc; [subst c; exact V1'|by apply V1].
  - split; simpl; [|by rewrite O2]. intros c. unfold log_ok_block, home. rewrite E2, T2, Z2, Es1. done.
Qed.

Lemma log_brelse S H1 i b H2 n :
  log_room S (H1 ++ (i, b) :: H2) n →
  wp (on_b (brelse i)) (λ _ S', log_room S' (H1 ++ H2) (Datatypes.S n) ∧ (∀ c, bview (bs S') c = bview (bs S) c) ∧ same_txn S S') S.
Proof.
  intros [(lru & blocks & L & Hn & Hz) Hh]. pose proof (li_cache _ _ _ _ L) as I.
  rewrite fmap_app, fmap_cons in I. cbn [fst] in I. apply wp_zoom.
  destruct (Hh i b ltac:(set_solver)) as (Eb & Hr & _).
  wcall (brelse_spec (bs S) H1.*1 i H2.*1 lru I); [exact Hr|].
  intros [] s' (lru' & I' & D' & T' & Z' & B' & V' & Y'). split_and!; [|done|]; cycle 1.
  { split; [|done]. intros c. simpl. unfold log_ok_block. simpl. by rewrite Z'. }
  split.
  - exists lru', blocks. split; [rewrite fmap_app; by eapply log_inv_cache|].
    rewrite !length_app in *. simpl in *. lia.
  - intros j c Hj. destruct (Hh j c ltac:(set_solver)) as (F1 & F2 & F3).
    assert (j ≠ i) as Hne.
    { intros ->. destruct (bi_H _ _ _ I) as [Hnd _]. apply NoDup_mid_notin in Hnd. apply elem_of_app in Hj as [Hj|Hj];
        apply held_fst in Hj; tauto. }
    simpl bs. assert (bf s' j = bf (bs S) j) as E by (rewrite B', decide_False; done).
    unfold releasable. rewrite E. unfold disk_at. rewrite D'. done.
Qed.

#[global] Program Instance log_blocks : BlockLaws lstate.
Next Obligation. apply log_bread. Qed.
Next Obligation.
  intros S H n i b [(lru & blocks & L & _) Hh] Hi. destruct (Hh i b Hi) as (Eb & _).
  unfold blk_data. simpl. unfold on_b, zoom, rb, gets.
  rewrite (bview_held _ _ _ i b (li_cache _ _ _ _ L) (held_fst _ _ _ Hi) Eb). by destruct S.
Qed.
Next Obligation. apply log_log. Qed.
Next Obligation. apply log_brelse. Qed.
Next Obligation.
  intros S H n n' [(lru & blocks & L & Hn & Hz) Hh] Hle. split; [|done].
  exists lru, blocks. split; [done|]. lia.
Qed.

Close Scope Z_scope.
