(* ===== verification/Fs.v ===== *)
(** * The file system ([src/xv6-public/fs.c])

    Blocks, inodes, file contents, directories and path names, on top of any
    implementation of [BlockOps].  The state is the one of a single process
    inside a transaction: the blocks, the inode cache, the superblock, and
    who the process is.  The sections under [icache.lock] are single steps; a
    sleep lock held by somebody else is the fault [Spin], as in [Bio]. *)

From S2P Require Import Prelude.
From S2P Require Import Strings.
From S2P Require Import Words.
From S2P Require Import Bio.
From S2P Require Import BlockStore.

Open Scope Z_scope.

(** ** [fs.h], [file.h], [stat.h], [param.h] *)

Record superblock := mkSb {
  sb_size : Z;
  sb_nblocks : Z;
  sb_ninodes : Z;
  sb_nlog : Z;
  sb_logstart : Z;
  sb_inodestart : Z;
  sb_bmapstart : Z
}.

Definition NDIRECT : nat := 10.
Definition NINDIRECT : nat := 128.
Definition NINDIRECT2 : Z := 16384.
Definition NINDIRECT3 : Z := 2097152.
Definition IPB : Z := 8.
Definition BPB : Z := 4096.
Definition DIRSIZ : nat := 14.
Definition NINODE : nat := 50.
Definition NDEV : Z := 10.
Definition ROOTDEV : Z := 1.
Definition ROOTINO : Z := 1.
Definition T_DIR : Z := 1.
Definition T_FILE : Z := 2.
Definition T_DEV : Z := 3.

(** [MAXFILE] is [FSSIZE * 0.9], a [double]; the product is exact. *)
Definition MAXFILE : Z := 40000 * 9 / 10.

Record inode := mkInode {
  i_dev : Z;
  i_inum : Z;
  i_ref : Z;
  i_lock : sleeplock;
  i_valid : Z;
  i_type : Z;
  i_major : Z;
  i_minor : Z;
  i_nlink : Z;
  i_size : Z;
  i_addrs : list Z
}.

Definition set_i_ref (v : Z) (p : inode) : inode :=
  mkInode (i_dev p) (i_inum p) v (i_lock p) (i_valid p) (i_type p) (i_major p) (i_minor p) (i_nlink p) (i_size p) (i_addrs p).
Definition set_i_lock (v : sleeplock) (p : inode) : inode :=
  mkInode (i_dev p) (i_inum p) (i_ref p) v (i_valid p) (i_type p) (i_major p) (i_minor p) (i_nlink p) (i_size p) (i_addrs p).
Definition set_i_valid (v : Z) (p : inode) : inode :=
  mkInode (i_dev p) (i_inum p) (i_ref p) (i_lock p) v (i_type p) (i_major p) (i_minor p) (i_nlink p) (i_size p) (i_addrs p).
Definition set_i_type (v : Z) (p : inode) : inode :=
  mkInode (i_dev p) (i_inum p) (i_ref p) (i_lock p) (i_valid p) v (i_major p) (i_minor p) (i_nlink p) (i_size p) (i_addrs p).
Definition set_i_major (v : Z) (p : inode) : inode :=
  mkInode (i_dev p) (i_inum p) (i_ref p) (i_lock p) (i_valid p) (i_type p) v (i_minor p) (i_nlink p) (i_size p) (i_addrs p).
Definition set_i_minor (v : Z) (p : inode) : inode :=
  mkInode (i_dev p) (i_inum p) (i_ref p) (i_lock p) (i_valid p) (i_type p) (i_major p) v (i_nlink p) (i_size p) (i_addrs p).
Definition set_i_nlink (v : Z) (p : inode) : inode :=
  mkInode (i_dev p) (i_inum p) (i_ref p) (i_lock p) (i_valid p) (i_type p) (i_major p) (i_minor p) v (i_size p) (i_addrs p).
Definition set_i_size (v : Z) (p : inode) : inode :=
  mkInode (i_dev p) (i_inum p) (i_ref p) (i_lock p) (i_valid p) (i_type p) (i_major p) (i_minor p) (i_nlink p) v (i_addrs p).
Definition set_i_addr (k : nat) (v : Z) (p : inode) : inode :=
  mkInode (i_dev p) (i_inum p) (i_ref p) (i_lock p) (i_valid p) (i_type p) (i_major p) (i_minor p) (i_nlink p) (i_size p)
    (<[k := v]> (i_addrs p)).

Definition inode0 : inode := mkInode 0 0 0 (mkSleeplock 0 0 0) 0 0 0 0 0 0 (replicate (NDIRECT + 3) 0).

Record stat := mkStat { st_type : Z; st_dev : Z; st_ino : Z; st_nlink : Z; st_size : Z }.

(** A value stored in a [short] and in a [ushort]. *)
Definition s16 (z : Z) : Z := (z + 32768) mod 65536 - 32768.
Definition u16 (z : Z) : Z := z mod 65536.

Record fstate (D : Type) := mkF {
  dsk : D;
  icache : gmap nat inode;
  sb : superblock;
  f_pid : Z;               (* myproc()->pid *)
  f_tid : Z;               (* myproc()->tid *)
  cwd : nat                (* myproc()->cwd *)
}.
Arguments mkF {D} dsk icache sb f_pid f_tid cwd.
Arguments dsk {D} f.
Arguments icache {D} f.
Arguments sb {D} f.
Arguments f_pid {D} f.
Arguments f_tid {D} f.
Arguments cwd {D} f.

(** [memmove(d + o, bytes, ...)]. *)
Definition splice (o : nat) (bytes d : block) : block := take o d ++ bytes ++ drop (o + length bytes) d.

Definition zero_block : block := replicate BSIZE 0.

Section fs.
Context {D : Type} `{!BlockOps D}.
Abbreviation FM := (M (fstate D)).

Definition set_dsk (d : D) (s : fstate D) : fstate D := mkF d (icache s) (sb s) (f_pid s) (f_tid s) (cwd s).
Definition set_icache (v : gmap nat inode) (s : fstate D) : fstate D := mkF (dsk s) v (sb s) (f_pid s) (f_tid s) (cwd s).
Definition set_sb (v : superblock) (s : fstate D) : fstate D := mkF (dsk s) (icache s) v (f_pid s) (f_tid s) (cwd s).

Definition on_d {A} : M D A → FM A := zoom dsk set_dsk.

(** [icache.inode[i]]. *)
Definition ino (s : fstate D) (i : nat) : inode := default inode0 (icache s !! i).
Definition ri {A} (i : nat) (f : inode → A) : FM A := gets (λ s, f (ino s i)).
Definition wi (i : nat) (f : inode → inode) : FM unit :=
  modify (λ s, set_icache (<[i := f (ino s i)]> (icache s)) s).

(** [log_write(bp)] after the bytes of [bp] were changed by [f]. *)
Definition log_update (bp : nat) (f : block → block) : FM unit :=
  d ← on_d (blk_data bp);
  on_d (blk_store bp (f d);; blk_log bp).

Definition IBLOCK (inum : Z) (b : superblock) : Z := u32 (inum / IPB + sb_inodestart b).
Definition BBLOCK (b : Z) (s : superblock) : Z := u32 (b / BPB + sb_bmapstart s).

(** ** Blocks *)

(** [struct superblock] is seven words. *)
Definition decode_sb (d : block) : superblock :=
  mkSb (ld32 d 0) (ld32 d 4) (ld32 d 8) (ld32 d 12) (ld32 d 16) (ld32 d 20) (ld32 d 24).

Definition readsb (dev : Z) : FM superblock :=
  bp ← on_d (blk_read dev 1);
  d ← on_d (blk_data bp);
  on_d (blk_release bp);;
  mret (decode_sb d).

Definition bzero (dev bno : Z) : FM unit :=
  bp ← on_d (blk_read dev bno);
  log_update bp (λ _, zero_block);;
  on_d (blk_release bp).

(** The bit of block [bi] of a bitmap block: its byte and its mask. *)
Definition bit_byte (bi : Z) : nat := Z.to_nat (bi / 8).
Definition bit_mask (bi : Z) : Z := Z.shiftl 1 (bi mod 8).

(** The inner loop: the first free block of the bitmap block in [bp], whose
    first bit is block [b]. *)
Definition balloc_scan (dev b size : Z) (bp : nat) : FM (option Z) :=
  loop (Z.to_nat BPB + 1) (λ bi,
    if Z.ltb bi BPB && Z.ltb (b + bi) size then
      d ← on_d (blk_data bp);
      if Z.eqb (Z.land (byte_at d (bit_byte bi)) (bit_mask bi)) 0 then
        log_update bp (λ d, <[bit_byte bi := Z.lor (byte_at d (bit_byte bi)) (bit_mask bi)]> d);;
        on_d (blk_release bp);;
        bzero dev (b + bi);;
        mret (inr (Some (b + bi)))
      else mret (inl (bi + 1))
    else mret (inr None)) 0.

Definition balloc (dev : Z) : FM Z :=
  size ← gets (λ s, sb_size (sb s));
  loop (Z.to_nat (size / BPB) + 2) (λ b,
    if Z.ltb b size then
      blk ← gets (λ s, BBLOCK b (sb s));
      bp ← on_d (blk_read dev blk);
      hit ← balloc_scan dev b size bp;
      match hit with
      | Some r => mret (inr r)
      | None => on_d (blk_release bp);; mret (inl (b + BPB))
      end
    else panic "balloc: out of blocks") 0.

Definition bfree (dev b : Z) : FM unit :=
  blk ← gets (λ s, BBLOCK b (sb s));
  bp ← on_d (blk_read dev blk);
  let bi := b mod BPB in
  d ← on_d (blk_data bp);
  if Z.eqb (Z.land (byte_at d (bit_byte bi)) (bit_mask bi)) 0 then panic "freeing free block"
  else
    log_update bp (λ d, <[bit_byte bi := Z.land (byte_at d (bit_byte bi)) (Z.lnot (bit_mask bi))]> d);;
    on_d (blk_release bp).

(** ** Inodes *)

(** [(struct dinode* )bp->data + inum%IPB]: the byte offset of the entry. *)
Definition dinode_off (inum : Z) : nat := 64 * Z.to_nat (inum mod IPB).

Definition iinit (dev : Z) : FM unit :=
  for_each (seq 0 NINODE) (λ i, wi i (set_i_lock (mkSleeplock 0 0 0)));;
  s ← readsb dev;
  modify (set_sb s).

(** The first cache entry for [(dev, inum)], else the first free one. *)
Definition iget (dev inum : Z) : FM nat :=
  hit ← loop (S NINODE) (λ '(i, empty),
    if (i <? NINODE)%nat then
      p ← ri i id;
      if Z.ltb 0 (i_ref p) && Z.eqb (i_dev p) dev && Z.eqb (i_inum p) inum then
        wi i (set_i_ref (i_ref p + 1));;
        mret (inr (inl i))
      else
        let empty := match empty with
                     | None => if Z.eqb (i_ref p) 0 then Some i else None
                     | Some e => Some e
                     end in
        mret (inl (S i, empty))
    else mret (inr (inr empty))) (0%nat, None);
  match hit with
  | inl i => mret i
  | inr None => panic "iget: no inodes"
  | inr (Some i) =>
      wi i (λ p, mkInode dev inum 1 (i_lock p) 0 (i_type p) (i_major p) (i_minor p) (i_nlink p) (i_size p) (i_addrs p));;
      mret i
  end.

Definition ialloc (dev type : Z) : FM nat :=
  n ← gets (λ s, sb_ninodes (sb s));
  loop (Z.to_nat n + 1) (λ inum,
    if Z.ltb inum n then
      blk ← gets (λ s, IBLOCK inum (sb s));
      bp ← on_d (blk_read dev blk);
      d ← on_d (blk_data bp);
      let o := dinode_off inum in
      if Z.eqb (ld16 d o) 0 then
        log_update bp (λ d, st16 (st32s d o (replicate 16 0)) o type);;
        on_d (blk_release bp);;
        i ← iget dev inum;
        mret (inr i)
      else
        on_d (blk_release bp);;
        mret (inl (inum + 1))
    else panic "ialloc: no inodes") 1.

(** The on-disk fields of an inode, written to and read from its entry. *)
Definition store_dinode (p : inode) (o : nat) (d : block) : block :=
  st32s (st32 (st16 (st16 (st16 (st16 d o (i_type p)) (o + 2) (i_major p)) (o + 4) (i_minor p)) (o + 6) (i_nlink p))
    (o + 8) (i_size p)) (o + 12) (i_addrs p).

Definition load_dinode (o : nat) (d : block) (p : inode) : inode :=
  mkInode (i_dev p) (i_inum p) (i_ref p) (i_lock p) (i_valid p)
    (s16 (ld16 d o)) (s16 (ld16 d (o + 2))) (s16 (ld16 d (o + 4))) (s16 (ld16 d (o + 6)))
    (ld32 d (o + 8)) ((λ k, ld32 d (o + 12 + 4 * k)) <$> seq 0 (NDIRECT + 3)).

Definition iupdate (ip : nat) : FM unit :=
  p ← ri ip id;
  blk ← gets (λ s, IBLOCK (i_inum p) (sb s));
  bp ← on_d (blk_read (i_dev p) blk);
  log_update bp (store_dinode p (dinode_off (i_inum p)));;
  on_d (blk_release bp).

Definition idup (ip : nat) : FM nat :=
  wi ip (λ p, set_i_ref (i_ref p + 1) p);;
  mret ip.

(** [acquiresleep], [releasesleep] and [holdingsleep] on [ip->lock]. *)
Definition lock_inode (ip : nat) : FM unit :=
  lk ← ri ip i_lock;
  if negb (Z.eqb (sl_locked lk) 0) then fail Spin
  else
    pid ← gets f_pid;
    tid ← gets f_tid;
    wi ip (set_i_lock (mkSleeplock 1 pid tid)).
Definition unlock_inode (ip : nat) : FM unit :=
  wi ip (λ p, set_i_lock (mkSleeplock 0 0 (sl_tid (i_lock p))) p).
Definition holding_inode (ip : nat) : FM bool :=
  lk ← ri ip i_lock;
  pid ← gets f_pid;
  tid ← gets f_tid;
  mret (negb (Z.eqb (sl_locked lk) 0) && Z.eqb (sl_pid lk) pid && Z.eqb (sl_tid lk) tid).

Definition ilock (ip : option nat) : FM unit :=
  match ip with
  | None => panic "ilock"
  | Some ip =>
      r ← ri ip i_ref;
      if Z.ltb r 1 then panic "ilock"
      else
        lock_inode ip;;
        p ← ri ip id;
        when (Z.eqb (i_valid p) 0) (
          blk ← gets (λ s, IBLOCK (i_inum p) (sb s));
          bp ← on_d (blk_read (i_dev p) blk);
          d ← on_d (blk_data bp);
          wi ip (load_dinode (dinode_off (i_inum p)) d);;
          on_d (blk_release bp);;
          wi ip (set_i_valid 1);;
          t ← ri ip i_type;
          when (Z.eqb t 0) (panic "ilock: no type"))
  end.

Definition iunlock (ip : option nat) : FM unit :=
  match ip with
  | None => panic "iunlock"
  | Some ip =>
      h ← holding_inode ip;
      r ← ri ip i_ref;
      if negb h || Z.ltb r 1 then panic "iunlock" else unlock_inode ip
  end.

(** ** File contents *)

(** [if((addr = ip->addrs[k]) == 0) ip->addrs[k] = addr = balloc(ip->dev);] *)
Definition bmap_root (ip : nat) (k : nat) : FM Z :=
  p ← ri ip id;
  match i_addrs p !! k with
  | None => fail OutOfBounds
  | Some addr =>
      if Z.eqb addr 0 then
        addr ← balloc (i_dev p);
        wi ip (set_i_addr k addr);;
        mret addr
      else mret addr
  end.

(** One level of indirection: the block [addr] is loaded and its entry [k]
    followed, allocating if necessary. *)
Definition bmap_level (ip : nat) (addr k : Z) : FM Z :=
  dev ← ri ip i_dev;
  bp ← on_d (blk_read dev addr);
  d ← on_d (blk_data bp);
  let o := (4 * Z.to_nat k)%nat in
  addr ← (if Z.eqb (ld32 d o) 0 then
            addr ← balloc dev;
            log_update bp (λ d, st32 d o addr);;
            mret addr
          else mret (ld32 d o));
  on_d (blk_release bp);;
  mret addr.

Definition bmap (ip : nat) (bn : Z) : FM Z :=
  if Z.ltb bn (Z.of_nat NDIRECT) then bmap_root ip (Z.to_nat bn)
  else
  let bn := bn - Z.of_nat NDIRECT in
  if Z.ltb bn (Z.of_nat NINDIRECT) then
    addr ← bmap_root ip NDIRECT;
    bmap_level ip addr bn
  else
  let bn := bn - Z.of_nat NINDIRECT in
  if Z.ltb bn NINDIRECT2 then
    addr ← bmap_root ip (NDIRECT + 1);
    addr ← bmap_level ip addr (bn / Z.of_nat NINDIRECT);
    let bn := bn mod Z.of_nat NINDIRECT in
    bmap_level ip addr bn
  else
  let bn := bn - NINDIRECT2 in
  if Z.ltb bn NINDIRECT3 then
    addr ← bmap_root ip (NDIRECT + 2);
    addr ← bmap_level ip addr (bn / NINDIRECT2);
    let bn := bn mod NINDIRECT2 in
    addr ← bmap_level ip addr (bn / Z.of_nat NINDIRECT);
    let bn := bn mod Z.of_nat NINDIRECT in
    bmap_level ip addr bn
  else panic "bmap: out of range".

(** The loop over an indirect block: the blocks below each entry are freed
    first, [depth] being the number of further levels. *)
Fixpoint trunc_tree (depth : nat) (dev addr : Z) : FM unit :=
  bp ← on_d (blk_read dev addr);
  for_each (seq 0 NINDIRECT) (λ i,
    d ← on_d (blk_data bp);
    let a := ld32 d (4 * i) in
    when (negb (Z.eqb a 0)) (
      match depth with O => mret tt | S n => trunc_tree n dev a end;;
      bfree dev a));;
  on_d (blk_release bp).

(** [if(ip->addrs[NDIRECT+depth]){ ... }]. *)
Definition trunc_indirect (ip depth : nat) : FM unit :=
  p ← ri ip id;
  let k := (NDIRECT + depth)%nat in
  let a := nth k (i_addrs p) 0 in
  when (negb (Z.eqb a 0)) (
    trunc_tree depth (i_dev p) a;;
    bfree (i_dev p) a;;
    wi ip (set_i_addr k 0)).

Definition itrunc (ip : nat) : FM unit :=
  for_each (seq 0 NDIRECT) (λ i,
    p ← ri ip id;
    let a := nth i (i_addrs p) 0 in
    when (negb (Z.eqb a 0)) (
      bfree (i_dev p) a;;
      wi ip (set_i_addr i 0)));;
  trunc_indirect ip 0;;
  trunc_indirect ip 1;;
  trunc_indirect ip 2;;
  wi ip (set_i_size 0);;
  iupdate ip.

Definition iput (ip : nat) : FM unit :=
  lock_inode ip;;
  p ← ri ip id;
  when (negb (Z.eqb (i_valid p) 0) && Z.eqb (i_nlink p) 0) (
    r ← ri ip i_ref;
    when (Z.eqb r 1) (
      itrunc ip;;
      wi ip (set_i_type 0);;
      iupdate ip;;
      wi ip (set_i_valid 0)));;
  unlock_inode ip;;
  wi ip (λ p, set_i_ref (i_ref p - 1) p).

Definition iunlockput (ip : nat) : FM unit :=
  iunlock (Some ip);;
  iput ip.

Definition stati (ip : nat) : FM stat :=
  ri ip (λ p, mkStat (i_type p) (i_dev p) (i_inum p) (i_nlink p) (i_size p)).

(** The device switch table: what [devsw[major].read] and [.write] do. *)
Context (dev_read : Z → option (nat → Z → FM (Z * list Z))).
Context (dev_write : Z → option (nat → list Z → Z → FM Z)).

(** Returns the count and the bytes stored at [dst]. *)
Definition readi (ip : nat) (off n : Z) : FM (Z * list Z) :=
  p ← ri ip id;
  if Z.eqb (i_type p) T_DEV then
    match (if Z.ltb (i_major p) 0 || Z.leb NDEV (i_major p) then None else dev_read (i_major p)) with
    | None => mret (-1, [])
    | Some f => f ip n
    end
  else if Z.ltb (i_size p) off || Z.ltb (u32 (off + n)) off then mret (-1, [])
  else
    let n := if Z.ltb (i_size p) (u32 (off + n)) then i_size p - off else n in
    bytes ← loop (S (Z.to_nat n)) (λ '(tot, dst),
      if Z.ltb tot n then
        let off := off + tot in
        addr ← bmap ip (off / Z.of_nat BSIZE);
        dev ← ri ip i_dev;
        bp ← on_d (blk_read dev addr);
        d ← on_d (blk_data bp);
        let o := off mod Z.of_nat BSIZE in
        let m := Z.min (n - tot) (Z.of_nat BSIZE - o) in
        on_d (blk_release bp);;
        mret (inl (tot + m, dst ++ take (Z.to_nat m) (drop (Z.to_nat o) d)))
      else mret (inr dst)) (0, []);
    mret (n, bytes).

(** [src] are the [n] bytes at the source address. *)
Definition writei (ip : nat) (src : list Z) (off n : Z) : FM Z :=
  p ← ri ip id;
  if Z.eqb (i_type p) T_DEV then
    match (if Z.ltb (i_major p) 0 || Z.leb NDEV (i_major p) then None else dev_write (i_major p)) with
    | None => mret (-1)
    | Some f => f ip src n
    end
  else if Z.ltb (i_size p) off || Z.ltb (u32 (off + n)) off then mret (-1)
  else if Z.ltb (MAXFILE * Z.of_nat BSIZE) (u32 (off + n)) then mret (-1)
  else
    off ← loop (S (Z.to_nat n)) (λ tot,
      if Z.ltb tot n then
        let off := off + tot in
        addr ← bmap ip (off / Z.of_nat BSIZE);
        dev ← ri ip i_dev;
        bp ← on_d (blk_read dev addr);
        let o := off mod Z.of_nat BSIZE in
        let m := Z.min (n - tot) (Z.of_nat BSIZE - o) in
        let bytes := take (Z.to_nat m) (drop (Z.to_nat tot) src) in
        log_update bp (splice (Z.to_nat o) bytes);;
        on_d (blk_release bp);;
        mret (inl (tot + m))
      else mret (inr (off + tot))) 0;
    sz ← ri ip i_size;
    when (Z.ltb 0 n && Z.ltb sz off) (
      wi ip (set_i_size off);;
      iupdate ip);;
    mret n.

(** ** Directories *)

(** [strncmp] on the two names laid out in memory. *)
Definition namecmp (s t : list Z) : FM Z :=
  match strncmp 0 (Z.of_nat (length s)) DIRSIZ (write_bytes (Z.of_nat (length s)) t (write_bytes 0 s ∅)) with
  | Ok (r, _) => mret r
  | Err e => fail e
  end.

(** [struct dirent]: two bytes of inode number and the name. *)
Definition de_inum (de : list Z) : Z := ld16 de 0.
Definition de_name (de : list Z) : list Z := take DIRSIZ (drop 2 de).

(** Returns the inode and the offset of its entry. *)
Definition dirlookup (dp : nat) (name : list Z) : FM (option (nat * Z)) :=
  p ← ri dp id;
  if negb (Z.eqb (i_type p) T_DIR) then panic "dirlookup not DIR"
  else
    loop (Z.to_nat (i_size p / 16) + 2) (λ off,
      size ← ri dp i_size;
      if Z.ltb off size then
        r ← readi dp off 16;
        if negb (Z.eqb r.1 16) then panic "dirlookup read"
        else if Z.eqb (de_inum r.2) 0 then mret (inl (off + 16))
        else
          c ← namecmp name (de_name r.2);
          if Z.eqb c 0 then
            dev ← ri dp i_dev;
            i ← iget dev (de_inum r.2);
            mret (inr (Some (i, off)))
          else mret (inl (off + 16))
      else mret (inr None)) 0.

Definition dirlink (dp : nat) (name : list Z) (inum : Z) : FM Z :=
  hit ← dirlookup dp name;
  match hit with
  | Some (ip, _) => iput ip;; mret (-1)
  | None =>
      p ← ri dp id;
      off ← loop (Z.to_nat (i_size p / 16) + 2) (λ off,
        size ← ri dp i_size;
        if Z.ltb off size then
          r ← readi dp off 16;
          if negb (Z.eqb r.1 16) then panic "dirlink read"
          else if Z.eqb (de_inum r.2) 0 then mret (inr off)
          else mret (inl (off + 16))
        else mret (inr off)) 0;
      n ← writei dp ([u16 inum mod 256; u16 inum / 256] ++ strncpy_bytes DIRSIZ name) off 16;
      if negb (Z.eqb n 16) then panic "dirlink" else mret 0
  end.
End fs.

(** ** Paths

    A path is the bytes of the string without its NUL. *)

Definition SLASH : Z := 47.

Fixpoint skip_slashes (path : list Z) : list Z :=
  match path with c :: p => if Z.eqb c SLASH then skip_slashes p else path | [] => [] end.

Fixpoint span_elem (path : list Z) : list Z * list Z :=
  match path with
  | c :: p => if Z.eqb c SLASH then ([], path) else let '(e, r) := span_elem p in (c :: e, r)
  | [] => ([], [])
  end.

(** [name] is the caller's buffer of [DIRSIZ] bytes; only the copied bytes
    and the NUL change. *)
Definition skipelem (path name : list Z) : option (list Z * list Z) :=
  let path := skip_slashes path in
  match path with
  | [] => None
  | _ =>
      let '(s, path) := span_elem path in
      let len := length s in
      let name :=
        if (DIRSIZ <=? len)%nat then take DIRSIZ s
        else s ++ [0] ++ drop (S len) name in
      Some (skip_slashes path, name)
  end.

Section paths.
Context {D : Type} `{!BlockOps D}.
Context (dev_read : Z → option (nat → Z → M (fstate D) (Z * list Z))).
Abbreviation FM := (M (fstate D)).

(** Returns the inode and the contents of [name]. *)
Definition namex (path : list Z) (nameiparent : bool) (name : list Z) : FM (option nat * list Z) :=
  ip ← match path with
       | c :: _ => if Z.eqb c SLASH then iget ROOTDEV ROOTINO else i ← gets cwd; idup i
       | [] => i ← gets cwd; idup i
       end;
  loop (S (length path)) (λ '(path, name, ip),
    match skipelem path name with
    | Some (path, name) =>
        ilock (Some ip);;
        t ← ri ip i_type;
        if negb (Z.eqb t T_DIR) then
          iunlockput ip;;
          mret (inr (None, name))
        else if nameiparent && bool_decide (path = []) then
          iunlock (Some ip);;
          mret (inr (Some ip, name))
        else
          next ← dirlookup dev_read ip name;
          match next with
          | None =>
              iunlockput ip;;
              mret (inr (None, name))
          | Some (next, _) =>
              iunlockput ip;;
              mret (inl (path, name, next))
          end
    | None =>
        if nameiparent then
          iput ip;;
          mret (inr (None, name))
        else mret (inr (Some ip, name))
    end) (path, name, ip).

(** [name] is the uninitialised buffer on the stack. *)
Definition namei (path name : list Z) : FM (option nat) :=
  r ← namex path false name;
  mret r.1.

Definition nameiparent (path name : list Z) : FM (option nat * list Z) := namex path true name.
End paths.

Close Scope Z_scope.
