(* ===== verification/FsAlloc.v ===== *)
(** * The block allocator ([balloc], [bfree] of [src/xv6-public/fs.c])

    The bitmap as a predicate on block numbers, and what the two routines do
    to it, for every implementation of [BlockLaws]. *)

From S2P Require Import Prelude.
From S2P Require Import ListH.
From S2P Require Import Words.
From S2P Require Import Bio.
From S2P Require Import BlockStore.
From S2P Require Import Fs.

Open Scope Z_scope.

#[global] Arguments BSIZE : simpl never.

Lemma length_zero_block : length zero_block = BSIZE.
Proof. apply length_replicate. Qed.

(** ** Bits of a bitmap block *)

Definition bit_set (d : block) (bi : Z) : bool := Z.testbit (byte_at d (bit_byte bi)) (bi mod 8).

Lemma shiftl_1_testbit k j : 0 ≤ k → 0 ≤ j → Z.testbit (Z.shiftl 1 k) j = bool_decide (j = k).
Proof.
  intros Hk Hj. rewrite Z.shiftl_1_l, Z.pow2_bits_eqb by done. rewrite Z.eqb_sym.
  case_bool_decide; [by apply Z.eqb_eq|by apply Z.eqb_neq].
Qed.

Lemma mask_testbit x bi : Z.eqb (Z.land x (bit_mask bi)) 0 = negb (Z.testbit x (bi mod 8)).
Proof.
  unfold bit_mask. assert (0 ≤ bi mod 8) as Hk by (apply Z.mod_pos_bound; lia). generalize dependent (bi mod 8). intros k Hk.
  destruct (Z.eqb_spec (Z.land x (Z.shiftl 1 k)) 0) as [E|E].
  - assert (Z.testbit (Z.land x (Z.shiftl 1 k)) k = false) as Ht by by rewrite E, Z.bits_0.
    rewrite Z.land_spec, shiftl_1_testbit, bool_decide_true, andb_true_r in Ht by done. by rewrite Ht.
  - destruct (Z.testbit x k) eqn:Ht; [done|]. destruct E. apply Z.bits_inj'. intros j Hj.
    rewrite Z.land_spec, shiftl_1_testbit, Z.bits_0 by done. case_bool_decide; [subst; by rewrite Ht|by rewrite andb_false_r].
Qed.

(** Changing one byte of the bitmap by setting or clearing one bit. *)
Lemma bit_set_or d bi bj : 0 ≤ bi → 0 ≤ bj → (bit_byte bi < length d)%nat →
  bit_set (<[bit_byte bi := Z.lor (byte_at d (bit_byte bi)) (bit_mask bi)]> d) bj = bit_set d bj || bool_decide (bj = bi).
Proof.
  intros Hi Hj Hl. unfold bit_set. rewrite byte_at_insert by done.
  assert (0 ≤ bj mod 8) by (apply Z.mod_pos_bound; lia).
  assert (0 ≤ bi mod 8) by (apply Z.mod_pos_bound; lia).
  pose proof (Z.div_mod bi 8). pose proof (Z.div_mod bj 8). case_decide as E.
  - unfold bit_byte in *. rewrite Z.lor_spec. unfold bit_mask. rewrite shiftl_1_testbit by done. rewrite E. f_equal.
    assert (bi / 8 = bj / 8) by (apply Z2Nat.inj; [apply Z.div_pos; lia..|done]).
    apply bool_decide_ext. lia.
  - rewrite (bool_decide_eq_false_2 (bj = bi)) by (intros ->; done). by rewrite orb_false_r.
Qed.

Lemma bit_set_andn d bi bj : 0 ≤ bi → 0 ≤ bj → (bit_byte bi < length d)%nat →
  bit_set (<[bit_byte bi := Z.land (byte_at d (bit_byte bi)) (Z.lnot (bit_mask bi))]> d) bj =
    bit_set d bj && negb (bool_decide (bj = bi)).
Proof.
  intros Hi Hj Hl. unfold bit_set. rewrite byte_at_insert by done.
  assert (0 ≤ bj mod 8) by (apply Z.mod_pos_bound; lia).
  assert (0 ≤ bi mod 8) by (apply Z.mod_pos_bound; lia).
  pose proof (Z.div_mod bi 8). pose proof (Z.div_mod bj 8). case_decide as E.
  - unfold bit_byte in *. rewrite Z.land_spec, Z.lnot_spec by done. unfold bit_mask. rewrite shiftl_1_testbit by done.
    rewrite E. do 2 f_equal.
    assert (bi / 8 = bj / 8) by (apply Z2Nat.inj; [apply Z.div_pos; lia..|done]).
    apply bool_decide_ext. lia.
  - rewrite (bool_decide_eq_false_2 (bj = bi)) by (intros ->; done). by rewrite andb_true_r.
Qed.

Lemma bit_byte_lt bi : 0 ≤ bi < BPB → (bit_byte bi < BSIZE)%nat.
Proof.
  unfold bit_byte, BPB, BSIZE. intros ?. assert (0 ≤ bi / 8 < 512) by (split; [apply Z.div_pos; lia|apply Z.div_lt_upper_bound; lia]).
  lia.
Qed.

(** ** Block operations on the file system state *)

Section ops.
Context {D : Type} {BO : BlockOps D} {BM : BlockModel D} {BL : BlockLaws D}.
Implicit Types (s : fstate D) (d : D) (H : list (nat * Z)).

Lemma same_txn_refl d : same_txn d d.
Proof. done. Qed.
Lemma same_txn_trans d1 d2 d3 : same_txn d1 d2 → same_txn d2 d3 → same_txn d1 d3.
Proof. intros [A1 B1] [A2 B2]. split; [intros c; by rewrite A2|by rewrite B2]. Qed.

Lemma fs_read s H n b :
  fits (dsk s) H (S n) → ok_block (dsk s) b → b ∉ H.*2 →
  wp (on_d (blk_read 1 b)) (λ i s', ∃ d', s' = set_dsk d' s ∧ fits d' ((i, b) :: H) n ∧
    (∀ c, view d' c = view (dsk s) c) ∧ same_txn (dsk s) d') s.
Proof.
  intros Hf Hok Hn. apply wp_zoom. wcall (blk_read_spec (dsk s) H n b Hf Hok Hn). intros i d' (? & ? & ?). by exists d'.
Qed.

Lemma fs_data s H n i b : fits (dsk s) H n → (i, b) ∈ H → on_d (blk_data i) s = Ok (view (dsk s) b, s).
Proof. intros Hf Hi. unfold on_d, zoom. rewrite (blk_data_spec _ _ _ _ _ Hf Hi). by destruct s. Qed.

Lemma fs_log s H n i b f :
  fits (dsk s) H (S n) → in_txn (dsk s) → (i, b) ∈ H →
  wp (log_update i f) (λ _ s', ∃ d', s' = set_dsk d' s ∧ fits d' H n ∧
    (∀ c, view d' c = if decide (c = b) then f (view (dsk s) b) else view (dsk s) c) ∧ same_txn (dsk s) d') s.
Proof.
  intros Hf Ht Hi. unfold log_update. apply wp_bind. eapply wp_eq; [by eapply fs_data|]. apply wp_zoom.
  wcall (blk_log_spec (dsk s) H n i b (f (view (dsk s) b)) Hf Ht Hi). intros [] d' (? & ? & ?). by exists d'.
Qed.

Lemma fs_release s H i b n :
  fits (dsk s) ((i, b) :: H) n →
  wp (on_d (blk_release i)) (λ _ s', ∃ d', s' = set_dsk d' s ∧ fits d' H (S n) ∧
    (∀ c, view d' c = view (dsk s) c) ∧ same_txn (dsk s) d') s.
Proof.
  intros Hf. apply wp_zoom. wcall (blk_release_spec (dsk s) [] i b H n Hf). intros [] d' (? & ? & ?). by exists d'.
Qed.

(** Reading a block, changing it, logging it and letting it go. *)
Lemma fs_edit s H n b f :
  fits (dsk s) H (S (S n)) → in_txn (dsk s) → ok_block (dsk s) b → b ∉ H.*2 →
  wp (bp ← on_d (blk_read 1 b); log_update bp f;; on_d (blk_release bp)) (λ _ s', ∃ d', s' = set_dsk d' s ∧ fits d' H (S n) ∧
    (∀ c, view d' c = if decide (c = b) then f (view (dsk s) b) else view (dsk s) c) ∧ same_txn (dsk s) d') s.
Proof.
  intros Hf Ht Hok Hn. apply wp_bind. wcall (fs_read s H (S n) b Hf Hok Hn). intros i s1 (d1 & -> & F1 & V1 & T1).
  apply wp_bind. wcall (fs_log (set_dsk d1 s) _ n i b f F1); [by apply T1|left|].
  intros [] s2 (d2 & -> & F2 & V2 & T2). wcall (fs_release (set_dsk d2 (set_dsk d1 s)) H i b n F2).
  intros [] s3 (d3 & -> & F3 & V3 & T3). exists d3. split_and!; [done..| |].
  - intros c. rewrite V3. simpl. rewrite V2. simpl. rewrite !V1. done.
  - by eapply same_txn_trans, same_txn_trans; [exact T1|exact T2|exact T3].
Qed.

(** Reading the bytes of a block. *)
Lemma fs_peek s H n b :
  fits (dsk s) H (S n) → ok_block (dsk s) b → b ∉ H.*2 →
  wp (bp ← on_d (blk_read 1 b); d ← on_d (blk_data bp); on_d (blk_release bp);; mret d)
    (λ v s', v = view (dsk s) b ∧ ∃ d', s' = set_dsk d' s ∧ fits d' H (S n) ∧
    (∀ c, view d' c = view (dsk s) c) ∧ same_txn (dsk s) d') s.
Proof.
  intros Hf Hok Hn. apply wp_bind. wcall (fs_read s H n b Hf Hok Hn). intros i s1 (d1 & -> & F1 & V1 & T1).
  apply wp_bind. eapply wp_eq; [eapply fs_data; [exact F1|left]|]. apply wp_bind.
  wcall (fs_release (set_dsk d1 s) H i b n F1). intros [] s2 (d2 & -> & F2 & V2 & T2). apply wp_ret.
  split; [apply V1|]. exists d2. split_and!; [done..| |by eapply same_txn_trans].
  intros c. rewrite V2. apply V1.
Qed.

(** ** The bitmap *)

Definition used (s : fstate D) (b : Z) : bool := bit_set (view (dsk s) (BBLOCK b (sb s))) (b mod BPB).

Definition data_range (s : fstate D) (b : Z) : Prop := 0 ≤ b < sb_size (sb s).

(** The disk is laid out sensibly: the bitmap has its blocks, and metadata
    (the bitmap, and whatever is not a file system block) is marked in use. *)
Record geometry (s : fstate D) : Prop := {
  g_size : 0 < sb_size (sb s) < 2147483648;
  g_bmap : 0 ≤ sb_bmapstart (sb s) ∧ sb_bmapstart (sb s) + sb_size (sb s) / BPB < two32;
  g_bmap_ok : ∀ b, data_range s b → ok_block (dsk s) (BBLOCK b (sb s));
  g_len : ∀ b, ok_block (dsk s) b → length (view (dsk s) b) = BSIZE;
  g_free : ∀ b, data_range s b → used s b = false →
    ok_block (dsk s) b ∧ ∀ c, data_range s c → b ≠ BBLOCK c (sb s);
  g_boot : used s 0 = true
}.

Lemma BBLOCK_val s b : geometry s → data_range s b → BBLOCK b (sb s) = b / BPB + sb_bmapstart (sb s).
Proof.
  intros G Hb. unfold BBLOCK. apply u32_small. destruct (g_bmap _ G). destruct Hb. unfold is_u32.
  assert (b / BPB ≤ sb_size (sb s) / BPB) by (apply Z.div_le_mono; unfold BPB; lia).
  assert (0 ≤ b / BPB) by (apply Z.div_pos; unfold BPB; lia). lia.
Qed.

Lemma range0 s : geometry s → data_range s 0.
Proof. intros G. destruct (g_size _ G). split; lia. Qed.

Lemma BBLOCK_chunk s b bi : geometry s → data_range s (BPB * b + bi) → 0 ≤ b → 0 ≤ bi < BPB →
  BBLOCK (BPB * b + bi) (sb s) = BBLOCK (BPB * b) (sb s).
Proof.
  intros G Hr Hb Hbi. rewrite !BBLOCK_val; [|done|destruct Hr; unfold data_range, BPB in *; lia|done|done].
  f_equal. unfold BPB in *. rewrite (Z.mul_comm 4096), Z.div_add_l, Z.div_mul, Z.div_small; lia.
Qed.

Lemma mod_chunk b bi : 0 ≤ bi < BPB → (BPB * b + bi) mod BPB = bi.
Proof. intros. rewrite Z.mul_comm, Z.add_comm, Z.mod_add by (unfold BPB; lia). by apply Z.mod_small. Qed.

Lemma used_ext s d' b : (∀ c, view d' c = view (dsk s) c) → used (set_dsk d' s) b = used s b.
Proof. intros Hv. unfold used. simpl. by rewrite Hv. Qed.

Lemma geometry_ext s d' : geometry s → same_txn (dsk s) d' → (∀ c, view d' c = view (dsk s) c) → geometry (set_dsk d' s).
Proof.
  intros [G1 G2 G3 G4 G5 G6] [To _] Hv. split; simpl; [done|done| | | |by rewrite used_ext].
  - intros b Hb. by apply To, G3.
  - intros b Hb. rewrite Hv. by apply G4, To.
  - intros b Hb Hu. rewrite used_ext in Hu by done. destruct (G5 b Hb Hu). split; [by apply To|done].
Qed.

(** Two in-range blocks share a bit only if they are equal. *)
Lemma used_inj s b c : geometry s → data_range s b → data_range s c →
  BBLOCK b (sb s) = BBLOCK c (sb s) → b mod BPB = c mod BPB → b = c.
Proof.
  intros G Hb Hc E1 E2. rewrite !BBLOCK_val in E1 by done.
  rewrite (Z.div_mod b BPB), (Z.div_mod c BPB) by (unfold BPB; lia). rewrite E2. f_equal. f_equal. lia.
Qed.

Lemma set_bit s b d' (f : block → block) (op : bool → bool → bool) :
  geometry s → data_range s b → same_txn (dsk s) d' →
  (∀ (d : block) bj, length d = BSIZE → 0 ≤ bj → bit_set (f d) bj = op (bit_set d bj) (bool_decide (bj = b mod BPB))) →
  (∀ x, op x false = x) →
  (∀ c, view d' c = if decide (c = BBLOCK b (sb s)) then f (view (dsk s) (BBLOCK b (sb s))) else view (dsk s) c) →
  ∀ c, data_range s c → used (set_dsk d' s) c = op (used s c) (bool_decide (c = b)).
Proof.
  intros G Hb T Hf Hop Hv c Hc. unfold used. simpl. rewrite Hv. case_decide as E.
  - rewrite Hf; [|by apply (g_len _ G), (g_bmap_ok _ G)|apply Z.mod_pos_bound; unfold BPB; lia]. rewrite <-E. f_equal.
    apply bool_decide_ext. split; [intros ?; by apply (used_inj s)|by intros ->].
  - rewrite bool_decide_false, Hop; [done|]. by intros ->.
Qed.

(** What [balloc] returning [r] means. *)
Record allocated (s s' : fstate D) (r : Z) : Prop := {
  al_range : data_range s r;
  al_free : used s r = false;
  al_first : ∀ b, 0 ≤ b < r → used s b = true;
  al_used : ∀ b, data_range s b → used s' b = used s b || bool_decide (b = r);
  al_zero : view (dsk s') r = zero_block;
  al_view : ∀ c, c ≠ r → (∀ b, data_range s b → c ≠ BBLOCK b (sb s)) → view (dsk s') c = view (dsk s) c;
  al_geo : geometry s'
}.

(** The held buffers are neither bitmap blocks nor free blocks. *)
Definition held_ok (s : fstate D) (H : list (nat * Z)) : Prop :=
  ∀ b, b ∈ H.*2 → (∀ c, data_range s c → b ≠ BBLOCK c (sb s)) ∧ (data_range s b → used s b = true).

Lemma bzero_spec s H n b :
  fits (dsk s) H (S (S n)) → in_txn (dsk s) → ok_block (dsk s) b → b ∉ H.*2 →
  wp (bzero 1 b) (λ _ s', ∃ d', s' = set_dsk d' s ∧ fits d' H (S n) ∧
    (∀ c, view d' c = if decide (c = b) then zero_block else view (dsk s) c) ∧ same_txn (dsk s) d') s.
Proof using BL. intros. by apply fs_edit. Qed.

(** The found block is marked, its bitmap buffer released, and it is zeroed. *)
Lemma balloc_take {A} (x : A) s H n i q bi (r := BPB * q + bi) :
  geometry s → fits (dsk s) ((i, BBLOCK (BPB * q) (sb s)) :: H) (S (S n)) → in_txn (dsk s) → held_ok s H →
  0 ≤ q → 0 ≤ bi < BPB → data_range s r → used s r = false → (∀ b, 0 ≤ b < r → used s b = true) →
  wp (log_update i (λ d : block, <[bit_byte bi := Z.lor (byte_at d (bit_byte bi)) (bit_mask bi)]> d);;
      on_d (blk_release i);;
      bzero 1 r;;
      mret x)
    (λ y s', y = x ∧ allocated s s' r ∧ ∃ d', s' = set_dsk d' s ∧ fits d' H (S n) ∧ same_txn (dsk s) d') s.
Proof using BL.
  intros G Hf Ht Hh Hq Hbi Hr Hu Hfirst. apply wp_bind. wcall (fs_log s _ (S n) i _ _ Hf Ht); [left|].
  intros [] s1 (d1 & -> & F1 & V1 & T1). apply wp_bind. wcall (fs_release (set_dsk d1 s) H i _ (S n) F1).
  intros [] s2 (d2 & -> & F2 & V2 & T2). simpl in V1, V2, T2.
  assert (same_txn (dsk s) d2) as T12 by by eapply same_txn_trans.
  destruct (g_free _ G r Hr Hu) as [Hok Hnb].
  apply wp_bind. wcall (bzero_spec (set_dsk d2 (set_dsk d1 s)) H n r F2); [by apply T12|by apply T12| |].
  { intros Hin. destruct (Hh r Hin) as [_ E]. rewrite E in Hu by done. done. }
  intros [] s3 (d3 & -> & F3 & V3 & T3). simpl in V3, T3.
  assert (same_txn (dsk s) d3) as T by by eapply same_txn_trans.
  assert (BBLOCK r (sb s) = BBLOCK (BPB * q) (sb s)) as EB by by apply BBLOCK_chunk.
  assert (r mod BPB = bi) as Em by by apply mod_chunk.
  assert (∀ c, data_range s c → used (set_dsk d3 s) c = used s c || bool_decide (c = r)) as Hused.
  { intros c Hc. assert (used (set_dsk d2 s) c = used s c || bool_decide (c = r)) as <-.
    - apply (set_bit s r d2 (λ d : block, <[bit_byte bi := Z.lor (byte_at d (bit_byte bi)) (bit_mask bi)]> d) orb);
        [done..| |by intros []| |done].
      + intros d bj Hd Hbj. rewrite Em. apply bit_set_or; [lia|done|]. rewrite Hd. by apply bit_byte_lt.
      + intros c0. by rewrite V2, V1, EB.
    - unfold used. simpl. rewrite V3, decide_False by (intros E; by apply (Hnb c)). done. }
  apply wp_ret. split_and!; [done| |by exists d3]. split; simpl.
  - done.
  - done.
  - done.
  - done.
  - by rewrite V3, decide_True.
  - intros c Hcr Hcb. rewrite V3, decide_False, V2, V1, decide_False; [done| |done]. rewrite <-EB. by apply Hcb.
  - split; simpl; [apply G|apply G| | | |].
    + intros b Hb. by apply T, (g_bmap_ok _ G).
    + intros b Hb. apply T in Hb. rewrite V3. case_decide; [by rewrite length_zero_block|]. rewrite V2, V1.
      case_decide; [|by apply (g_len _ G)]. rewrite length_insert. subst b. by apply (g_len _ G).
    + intros b Hb Hub. change (set_dsk d3 (set_dsk d2 (set_dsk d1 s))) with (set_dsk d3 s) in Hub.
      rewrite Hused in Hub by done. apply orb_false_iff in Hub as [Hub _]. destruct (g_free _ G b Hb Hub).
      split; [by apply T|done].
    + change (set_dsk d3 (set_dsk d2 (set_dsk d1 s))) with (set_dsk d3 s). rewrite Hused by apply (range0 _ G). by rewrite (g_boot _ G).
Qed.

Lemma balloc_scan_spec s H n i q (b := BPB * q) :
  geometry s → fits (dsk s) ((i, BBLOCK b (sb s)) :: H) (S (S n)) → in_txn (dsk s) → held_ok s H →
  0 ≤ q → data_range s b → (∀ c, 0 ≤ c < b → used s c = true) →
  wp (balloc_scan 1 b (sb_size (sb s)) i) (λ hit s',
    match hit with
    | Some r => allocated s s' r ∧ ∃ d', s' = set_dsk d' s ∧ fits d' H (S n) ∧ same_txn (dsk s) d'
    | None => s' = s ∧ ∀ c, 0 ≤ c < b + BPB → data_range s c → used s c = true
    end) s.
Proof using BL.
  intros G Hf Ht Hh Hq Hb Hlow. unfold balloc_scan.
  apply (wp_loop (λ m bi s', s' = s ∧ 0 ≤ bi ≤ BPB ∧ m = Z.to_nat (BPB - bi) ∧ ∀ c, 0 ≤ c < b + bi → data_range s c → used s c = true))
    with (n := Z.to_nat BPB); [|lia|].
  - intros m bi s' (-> & Hbi & -> & Hused).
    destruct (Z.ltb_spec bi BPB) as [Hlt|Hge]; cbn [andb]; [|apply wp_ret; split; [done|]; intros c Hc; apply Hused; lia].
    destruct (Z.ltb_spec (b + bi) (sb_size (sb s))) as [Hsz|Hsz].
    2: { apply wp_ret. split; [done|]. intros c Hc Hr. apply Hused; [|done]. destruct Hr. lia. }
    assert (data_range s (b + bi)) as Hr by (destruct Hb; split; lia).
    apply wp_bind. eapply wp_eq; [eapply fs_data; [exact Hf|left]|].
    assert (used s (b + bi) = Z.testbit (byte_at (view (dsk s) (BBLOCK b (sb s))) (bit_byte bi)) (bi mod 8)) as Eu.
    { unfold used, bit_set, b. rewrite BBLOCK_chunk, mod_chunk by (done || lia). done. }
    rewrite mask_testbit, <-Eu. destruct (used s (b + bi)) eqn:Hu; cbn [negb].
    + apply wp_ret. exists (Z.to_nat (BPB - (bi + 1))). split; [lia|]. split_and!; [done|lia|lia|done|].
      intros c Hc Hcr. destruct (decide (c = b + bi)) as [->|]; [done|]. apply Hused; [lia|done].
    + eapply wp_mono; [apply (balloc_take _ s H n i q bi); try done; [lia|]|].
      * intros c Hc. apply Hused; [done|]. destruct Hr. split; lia.
      * intros r s' (-> & ? & ?). done.
  - split_and!; [done|unfold BPB; lia|unfold BPB; lia|by rewrite Z.sub_0_r|]. intros c Hc _. apply Hlow. lia.
Qed.

Lemma balloc_spec s H n :
  geometry s → fits (dsk s) H (S (S (S n))) → in_txn (dsk s) → held_ok s H →
  (∃ b, data_range s b ∧ used s b = false) →
  wp (balloc 1) (λ r s', allocated s s' r ∧ ∃ d', s' = set_dsk d' s ∧ fits d' H (S n) ∧ same_txn (dsk s) d') s.
Proof using BL.
  intros G Hf Ht Hh (b0 & Hb0 & Hfree). unfold balloc. apply wp_bind, wp_gets.
  set (size := sb_size (sb s)).
  apply (wp_loop (λ m b s', ∃ q d', s' = set_dsk d' s ∧ fits d' H (S (S (S n))) ∧ (∀ c, view d' c = view (dsk s) c) ∧
      same_txn (dsk s) d' ∧ b = BPB * q ∧ 0 ≤ q ∧ m = Z.to_nat (size / BPB + 1 - q) ∧
      ∀ c, 0 ≤ c < b → data_range s c → used s c = true))
    with (n := Z.to_nat (size / BPB + 1)).
  - intros m b s' (q & d1 & -> & F1 & V1 & T1 & -> & Hq & -> & Hlow).
    destruct (Z.ltb_spec (BPB * q) size) as [Hlt|Hge].
    2: { rewrite Hlow in Hfree; [done| |done]. destruct Hb0. lia. }
    assert (data_range s (BPB * q)) as Hbq by (split; unfold BPB in *; lia).
    assert (geometry (set_dsk d1 s)) as G1 by by apply geometry_ext.
    apply wp_bind, wp_gets. apply wp_bind. cbn [sb set_dsk].
    wcall (fs_read (set_dsk d1 s) H (S (S n)) (BBLOCK (BPB * q) (sb s)) F1).
    { by apply T1, (g_bmap_ok _ G). }
    { intros Hin. by destruct (Hh _ Hin) as [E _]; apply (E (BPB * q)). }
    intros i s2 (d2 & -> & F2 & V2 & T2). cbn [dsk set_dsk] in *.
    assert (∀ c, view d2 c = view (dsk s) c) as V12 by (intros c; by rewrite V2, V1).
    assert (same_txn (dsk s) d2) as T12 by by eapply same_txn_trans.
    change (set_dsk d2 (set_dsk d1 s)) with (set_dsk d2 s).
    assert (∀ c, used (set_dsk d2 s) c = used s c) as U2 by (intros c; by apply used_ext).
    apply wp_bind. wcall (balloc_scan_spec (set_dsk d2 s) H n i q); try done.
    { by apply geometry_ext. }
    { by apply T12. }
    { intros b Hin. destruct (Hh b Hin). by rewrite U2. }
    { intros c Hc. rewrite U2. apply Hlow; [done|]. destruct Hbq. split; lia. }
    intros [r|] s3.
    + intros ([A1 A2 A3 A4 A5 A6 A7] & d3 & -> & F3 & T3). apply wp_ret. cbn [dsk set_dsk sb] in *. split.
      * rewrite U2 in A2. split; try done; cbn [dsk set_dsk sb].
        -- intros c Hc. rewrite <-U2. by apply A3.
        -- intros c Hc. rewrite <-U2. by apply A4.
        -- intros c Hc Hcb. rewrite <-V12. by apply A6.
      * exists d3. split_and!; [done..|]. by eapply same_txn_trans.
    + intros [-> Hall]. apply wp_bind. wcall (fs_release (set_dsk d2 s) H i _ _ F2).
      intros [] s4 (d4 & -> & F4 & V4 & T4). apply wp_ret. cbn [dsk set_dsk] in *.
      exists (Z.to_nat (size / BPB + 1 - (q + 1))).
      assert (q ≤ size / BPB) by (apply Z.div_le_lower_bound; unfold BPB in *; lia). split; [lia|].
      exists (q + 1), d4. split_and!; [done|done| | |lia|lia|done|].
      * intros c. by rewrite V4, V12.
      * by eapply same_txn_trans.
      * intros c Hc Hcr. rewrite <-U2. by apply Hall.
  - assert (0 ≤ size / BPB) by (apply Z.div_pos; [destruct (g_size _ G); unfold size; lia|unfold BPB; lia]). lia.
  - exists 0, (dsk s). split_and!; [by destruct s|done..|unfold BPB; lia|lia|f_equal; lia|]. intros c Hc. lia.
Qed.

(** [bfree] clears exactly the bit of its block. *)
Lemma bfree_spec s H n b :
  geometry s → fits (dsk s) H (S (S n)) → in_txn (dsk s) → BBLOCK b (sb s) ∉ H.*2 →
  data_range s b → b ≠ 0 → used s b = true → ok_block (dsk s) b → (∀ c, data_range s c → b ≠ BBLOCK c (sb s)) →
  wp (bfree 1 b) (λ _ s', geometry s' ∧ (∀ c, data_range s c → used s' c = used s c && negb (bool_decide (c = b))) ∧
    (∀ c, c ≠ BBLOCK b (sb s) → view (dsk s') c = view (dsk s) c) ∧
    ∃ d', s' = set_dsk d' s ∧ fits d' H (S n) ∧ same_txn (dsk s) d') s.
Proof using BL.
  intros G Hf Ht HH Hb Hb0 Hu Hok Hnb. unfold bfree. apply wp_bind, wp_gets, wp_bind.
  wcall (fs_read s H (S n) _ Hf (g_bmap_ok _ G b Hb) HH). intros i s1 (d1 & -> & F1 & V1 & T1).
  apply wp_bind. eapply wp_eq; [eapply fs_data; [exact F1|left]|]. cbn [dsk set_dsk]. rewrite V1, mask_testbit.
  unfold used, bit_set in Hu. rewrite Hu. cbn [negb]. apply wp_bind.
  wcall (fs_log (set_dsk d1 s) _ n i _ _ F1); [by apply T1|left|]. intros [] s2 (d2 & -> & F2 & V2 & T2).
  wcall (fs_release (set_dsk d2 (set_dsk d1 s)) H i _ n F2). intros [] s3 (d3 & -> & F3 & V3 & T3). cbn [dsk set_dsk] in *.
  assert (same_txn (dsk s) d3) as T by (by eapply same_txn_trans, same_txn_trans; [exact T1|exact T2|exact T3]).
  assert (∀ c, data_range s c → used (set_dsk d3 s) c = used s c && negb (bool_decide (c = b))) as Hused.
  { apply (set_bit s b d3 (λ d : block, <[bit_byte (b mod BPB) :=
      Z.land (byte_at d (bit_byte (b mod BPB))) (Z.lnot (bit_mask (b mod BPB)))]> d) (λ x y, x && negb y)); [done..| |by intros []|].
    - assert (0 ≤ b mod BPB < BPB) by (apply Z.mod_pos_bound; unfold BPB; lia).
      intros d bj Hd Hbj. apply bit_set_andn; [lia|done|]. rewrite Hd. by apply bit_byte_lt.
    - intros c. rewrite V3, V2. by rewrite !V1. }
  split_and!; [|exact Hused| |by exists d3].
  - split; simpl; [apply G|apply G| | | |].
    + intros c Hc. by apply T, (g_bmap_ok _ G).
    + intros c Hc. apply T in Hc. rewrite V3, V2. case_decide; [|rewrite V1; by apply (g_len _ G)].
      rewrite length_insert, V1. by apply (g_len _ G), (g_bmap_ok _ G).
    + intros c Hc Huc. change (set_dsk d3 _) with (set_dsk d3 s) in Huc. rewrite Hused in Huc by done.
      apply andb_false_iff in Huc as [Huc|Huc]; [destruct (g_free _ G c Hc Huc); split; [by apply T|done]|].
      apply negb_false_iff, bool_decide_eq_true in Huc as ->. split; [by apply T|done].
    + change (set_dsk d3 (set_dsk d2 (set_dsk d1 s))) with (set_dsk d3 s). rewrite Hused by apply (range0 _ G).
      rewrite (g_boot _ G), bool_decide_false by done. done.
  - intros c Hc. by rewrite V3, V2, decide_False, V1.
Qed.

(** At least [k] blocks are free. *)
Definition has_free (s : fstate D) (k : nat) : Prop :=
  ∃ L, NoDup L ∧ length L = k ∧ ∀ b, b ∈ L → data_range s b ∧ used s b = false.

Lemma has_free_S s k : has_free s (S k) → ∃ b, data_range s b ∧ used s b = false.
Proof using Type. intros ([|b L] & _ & HL & Hb); [done|]. exists b. apply Hb. left. Qed.

Lemma has_free_weaken s k : has_free s (S k) → has_free s k.
Proof using Type.
  intros ([|b L] & Hnd & HL & Hb); [done|]. exists L. apply NoDup_cons in Hnd as [_ ?].
  split_and!; [done|simpl in HL; lia|]. intros c Hc. apply Hb. by right.
Qed.

Lemma has_free_ext s d' k : (∀ c, view d' c = view (dsk s) c) → has_free s k → has_free (set_dsk d' s) k.
Proof using Type.
  intros Hv (L & ? & ? & HL). exists L. split_and!; [done..|]. intros b Hb. rewrite used_ext by done. by apply HL.
Qed.

Lemma has_free_alloc s s' r k :
  has_free s (S k) → sb s' = sb s → (∀ b, data_range s b → used s' b = used s b || bool_decide (b = r)) → has_free s' k.
Proof using All.
  intros (L & Hnd & HL & Hb) Hsb Hu. destruct (decide (r ∈ L)) as [(l1 & l2 & ->)%list_elem_of_split|Hr].
  - exists (l1 ++ l2). rewrite length_app in *. simpl in HL. pose proof (NoDup_mid_notin _ _ _ Hnd) as [N1 N2].
    split_and!; [|lia|].
    { rewrite <-Permutation_middle in Hnd. by apply NoDup_cons in Hnd as [_ ?]. }
    intros b Hin. destruct (Hb b ltac:(set_solver)) as [Hr Hf]. split; [unfold data_range; by rewrite Hsb|].
    rewrite Hu, Hf, bool_decide_false by first [done|intros ->; set_solver]. done.
  - destruct L as [|b0 L]; [done|]. exists L. apply NoDup_cons in Hnd as [_ Hnd]. split_and!; [done|simpl in HL; lia|].
    intros b Hin. destruct (Hb b ltac:(set_solver)) as [Hrg Hf]. split; [unfold data_range; by rewrite Hsb|].
    rewrite Hu, Hf, bool_decide_false by first [done|intros ->; set_solver]. done.
Qed.
End ops.

Close Scope Z_scope.
