(* ===== verification/FsMap.v ===== *)
(** * The block map of an inode ([bmap] of [src/xv6-public/fs.c])

    The direct, single, double and triple indirect blocks of an inode form a
    forest: a block is reached from one of the thirteen entries of
    [ip->addrs] through at most three indirect blocks.  [node] reads that
    forest; [bmap] follows one path in it and allocates what is missing. *)

From S2P Require Import Prelude.
From S2P Require Import Words.
From S2P Require Import Bio.
From S2P Require Import BlockStore.
From S2P Require Import Fs.
From S2P Require Import FsAlloc.

Open Scope Z_scope.

(** ** Paths *)

(** An entry of [ip->addrs] and the indices taken in the indirect blocks. *)
Abbreviation path := (nat * list nat)%type.

Definition levels (r : nat) : nat := r + 1 - NDIRECT.

Definition valid (q : path) : Prop :=
  (q.1 < NDIRECT + 3)%nat ∧ (length q.2 ≤ levels q.1)%nat ∧ Forall (λ k, (k < NINDIRECT)%nat) q.2.

(** A path down to a data block. *)
Definition leaf (q : path) : Prop := valid q ∧ length q.2 = levels q.1.

(** The path of the [bn]-th block of the file. *)
Definition path_of (bn : Z) : path :=
  if Z.ltb bn 10 then (Z.to_nat bn, [])
  else let bn := bn - 10 in
  if Z.ltb bn 128 then (10%nat, [Z.to_nat bn])
  else let bn := bn - 128 in
  if Z.ltb bn 16384 then (11%nat, [Z.to_nat (bn / 128); Z.to_nat (bn mod 128)])
  else let bn := bn - 16384 in
  (12%nat, [Z.to_nat (bn / 16384); Z.to_nat (bn mod 16384 / 128); Z.to_nat (bn mod 16384 mod 128)]).

Definition MAXBN : Z := 10 + 128 + 16384 + 2097152.

(** Linear arithmetic with divisions by constants. *)
Ltac dlia := zify; Z.to_euclidean_division_equations; lia.

Ltac split_ltb := repeat match goal with |- context [Z.ltb ?a ?b] => destruct (Z.ltb_spec a b) end.

Lemma path_of_leaf bn : 0 ≤ bn < MAXBN → leaf (path_of bn).
Proof.
  unfold MAXBN, path_of, leaf, valid. intros Hb.
  split_ltb; cbn [fst snd length]; (split; [split_and!|]); unfold levels, NDIRECT, NINDIRECT; try lia;
    rewrite ?Forall_cons, ?Forall_nil; split_and?; (done || dlia).
Qed.

Lemma path_of_inj b c : 0 ≤ b < MAXBN → 0 ≤ c < MAXBN → path_of b = path_of c → b = c.
Proof.
  unfold MAXBN, path_of. intros Hb Hc.
  split_ltb; intros [= E]; try discriminate; dlia.
Qed.

(** ** The forest *)

Definition follow (v : Z → block) (a : Z) (k : nat) : Z := if decide (a = 0) then 0 else ld32 (v a) (4 * k).
Definition lookup_path (v : Z → block) (addrs : list Z) (q : path) : Z := foldl (follow v) (nth q.1 addrs 0) q.2.

Lemma lookup_path_snoc v addrs r l k : lookup_path v addrs (r, l ++ [k]) = follow v (lookup_path v addrs (r, l)) k.
Proof. unfold lookup_path. simpl. by rewrite foldl_app. Qed.

Lemma valid_snoc r l k : valid (r, l ++ [k]) → valid (r, l) ∧ (k < NINDIRECT)%nat ∧ (length l < levels r)%nat.
Proof.
  intros (Hr & Hl & [Hf Hk]%Forall_app). cbn [fst snd] in *. rewrite length_app in Hl. cbn [length] in Hl. apply Forall_cons_1 in Hk as [Hk _].
  unfold valid. cbn [fst snd]. split_and!; (done || lia).
Qed.

Lemma ld32_zero o : ld32 zero_block o = 0.
Proof.
  assert (∀ i, byte_at zero_block i = 0) as E; [|unfold ld32; rewrite !E; done].
  intros i. unfold byte_at, zero_block. rewrite nth_lookup. destruct (decide (i < BSIZE)%nat).
  - by rewrite lookup_replicate_2.
  - rewrite lookup_ge_None_2; [done|]. rewrite length_replicate. lia.
Qed.

Section map.
Context {D : Type} {BO : BlockOps D} {BM : BlockModel D} {BL : BlockLaws D}.
Implicit Types (s : fstate D) (d : D) (H : list (nat * Z)).

Definition node (s : fstate D) (ip : nat) (q : path) : Z :=
  lookup_path (view (dsk s)) (i_addrs (ino s ip)) q.

(** A block that belongs to a file: in range, marked in use, not metadata. *)
Record file_block (s : fstate D) (b : Z) : Prop := {
  fb_range : data_range s b;
  fb_pos : b ≠ 0;
  fb_used : used s b = true;
  fb_ok : ok_block (dsk s) b;
  fb_data : ∀ c, data_range s c → b ≠ BBLOCK c (sb s)
}.

(** The forest of an inode reaches file blocks only, each by one path. *)
Record tree_ok (s : fstate D) (ip : nat) : Prop := {
  tr_dev : i_dev (ino s ip) = 1;
  tr_len : length (i_addrs (ino s ip)) = (NDIRECT + 3)%nat;
  tr_block : ∀ q, valid q → node s ip q ≠ 0 → file_block s (node s ip q);
  tr_inj : ∀ q q', valid q → valid q' → node s ip q ≠ 0 → node s ip q = node s ip q' → q = q'
}.

(** What an extension of the forest along [P] keeps. *)
Record grown (s s' : fstate D) (ip : nat) (P : path) : Prop := {
  gr_geo : geometry s';
  gr_tree : tree_ok s' ip;
  gr_keep : ∀ q, valid q → node s ip q ≠ 0 → node s' ip q = node s ip q;
  gr_only : ∀ q, valid q → node s' ip q ≠ node s ip q → q.1 = P.1 ∧ q.2 `prefix_of` P.2;
  gr_leaf : ∀ q, leaf q → node s' ip q ≠ 0 →
    view (dsk s') (node s' ip q) = if decide (node s ip q = 0) then zero_block else view (dsk s) (node s ip q);
  gr_frame : ∀ b, file_block s b → (∀ q, valid q → node s ip q ≠ b) → view (dsk s') b = view (dsk s) b;
  gr_used : ∀ b, data_range s b → used s b = true → used s' b = true;
  gr_fresh : ∀ q, valid q → node s ip q = 0 → node s' ip q ≠ 0 → used s (node s' ip q) = false;
  gr_sb : sb s' = sb s;
  gr_txn : same_txn (dsk s) (dsk s');
  gr_ino : ∀ j, ino s' j = if decide (j = ip) then
      mkInode (i_dev (ino s j)) (i_inum (ino s j)) (i_ref (ino s j)) (i_lock (ino s j)) (i_valid (ino s j)) (i_type (ino s j))
        (i_major (ino s j)) (i_minor (ino s j)) (i_nlink (ino s j)) (i_size (ino s j)) (i_addrs (ino s' ip))
    else ino s j;
  gr_who : f_pid s' = f_pid s ∧ f_tid s' = f_tid s ∧ cwd s' = cwd s
}.

Lemma gr_files s s' ip P b : grown s s' ip P → file_block s b → file_block s' b.
Proof using Type.
  intros A [B1 B2 B3 B4 B5]. split.
  - unfold data_range. by rewrite (gr_sb _ _ _ _ A).
  - done.
  - by apply (gr_used _ _ _ _ A).
  - by apply (gr_txn _ _ _ _ A).
  - intros c. unfold data_range. rewrite (gr_sb _ _ _ _ A). apply B5.
Qed.

Lemma grown_trans s1 s2 s3 ip P : grown s1 s2 ip P → grown s2 s3 ip P → grown s1 s3 ip P.
Proof using Type.
  intros A B. split.
  - apply B.
  - apply B.
  - intros q Hq Hn. rewrite (gr_keep _ _ _ _ B), (gr_keep _ _ _ _ A); try done. by rewrite (gr_keep _ _ _ _ A).
  - intros q Hq Hn. destruct (decide (node s2 ip q = node s1 ip q)) as [E|E]; [|by apply (gr_only _ _ _ _ A)].
    apply (gr_only _ _ _ _ B); [done|congruence].
  - intros q Hq Hn. rewrite (gr_leaf _ _ _ _ B) by done. destruct Hq as [Hv Hl]. destruct (decide (node s2 ip q = 0)) as [E|E].
    + rewrite decide_True; [done|]. destruct (decide (node s1 ip q = 0)) as [|Hne]; [done|]. rewrite (gr_keep _ _ _ _ A) in E; done.
    + by rewrite (gr_leaf _ _ _ _ A).
  - intros b Hb Hq. rewrite (gr_frame _ _ _ _ B), (gr_frame _ _ _ _ A); try done; [by eapply gr_files|].
    intros q Hv E. destruct (decide (node s1 ip q = 0)) as [Ez|Ez].
    + destruct Hb as [_ Hb0 Hu _ _]. rewrite <-E, (gr_fresh _ _ _ _ A) in Hu; [done..|]. by rewrite E.
    + apply (Hq q Hv). by rewrite <-(gr_keep _ _ _ _ A).
  - intros b Hb Hu. apply (gr_used _ _ _ _ B); [unfold data_range; by rewrite (gr_sb _ _ _ _ A)|by apply (gr_used _ _ _ _ A)].
  - intros q Hv E Hn. destruct (decide (node s2 ip q = 0)) as [E2|E2].
    + destruct (used s1 (node s3 ip q)) eqn:Hu; [|done]. rewrite <-(gr_fresh _ _ _ _ B q); [|done..].
      symmetry. apply (gr_used _ _ _ _ A); [|done]. unfold data_range. rewrite <-(gr_sb _ _ _ _ A), <-(gr_sb _ _ _ _ B).
      by apply (tr_block _ _ (gr_tree _ _ _ _ B)).
    + rewrite (gr_keep _ _ _ _ B) by done. by apply (gr_fresh _ _ _ _ A).
  - by rewrite (gr_sb _ _ _ _ B), (gr_sb _ _ _ _ A).
  - eapply same_txn_trans; [apply A|apply B].
  - intros j. rewrite (gr_ino _ _ _ _ B). case_decide; [|rewrite (gr_ino _ _ _ _ A); by rewrite decide_False].
    rewrite (gr_ino _ _ _ _ A) at 1 2 3 4 5 6 7 8 9 10. by rewrite !decide_True.
  - destruct (gr_who _ _ _ _ A) as (? & ? & ?), (gr_who _ _ _ _ B) as (? & ? & ?). split_and!; congruence.
Qed.

(** An inode that differs in its addresses only. *)
Definition same_but_addrs (p p' : inode) : Prop :=
  p' = mkInode (i_dev p) (i_inum p) (i_ref p) (i_lock p) (i_valid p) (i_type p) (i_major p) (i_minor p) (i_nlink p) (i_size p)
    (i_addrs p').

Lemma node_not_free s ip q x : tree_ok s ip → valid q → used s x = false → node s ip q ≠ 0 → node s ip q ≠ x.
Proof using Type. intros T Hq Hx Hn E. pose proof (fb_used _ _ (tr_block _ _ T q Hq Hn)). congruence. Qed.

(** Hanging the fresh block [x] at path [P]. *)
Section grow_one.
Context (s s1 s2 : fstate D) (ip : nat) (P : path) (x : Z).
Hypothesis G : geometry s.
Hypothesis T : tree_ok s ip.
Hypothesis A : allocated s s1 x.
Hypothesis HP : valid P.
Hypothesis G2 : geometry s2.
Hypothesis Hsb : sb s2 = sb s.
Hypothesis Htx : same_txn (dsk s) (dsk s2).
Hypothesis Hused : ∀ b, data_range s b → used s2 b = used s1 b.
Hypothesis Hlen : length (i_addrs (ino s2 ip)) = (NDIRECT + 3)%nat.
Hypothesis Hino : ∀ j, if decide (j = ip) then same_but_addrs (ino s ip) (ino s2 ip) else ino s2 j = ino s j.
Hypothesis Hwho : f_pid s2 = f_pid s ∧ f_tid s2 = f_tid s ∧ cwd s2 = cwd s.
Hypothesis Hzero : node s ip P = 0.
Hypothesis Hnode : ∀ q, valid q → node s2 ip q = if decide (q = P) then x else node s ip q.
Hypothesis Hview : ∀ c, (∀ Q, valid Q → ¬ leaf Q → node s ip Q ≠ 0 → node s ip Q ≠ c) → view (dsk s2) c = view (dsk s1) c.

#[local] Lemma x_pos : x ≠ 0.
Proof using A G. intros E. pose proof (al_free _ _ _ A) as Hf. rewrite E, (g_boot _ G) in Hf. done. Qed.

#[local] Lemma used_2 b : data_range s b → used s2 b = used s b || bool_decide (b = x).
Proof using A Hused. intros Hb. rewrite Hused by done. by apply (al_used _ _ _ A). Qed.

#[local] Lemma files_2 b : file_block s b → file_block s2 b.
Proof using A Hused Hsb Htx.
  intros [B1 B2 B3 B4 B5]. split; unfold data_range in *; rewrite ?Hsb; [done|done| |by apply Htx|done].
  by rewrite used_2, B3.
Qed.

#[local] Lemma x_file : file_block s2 x.
Proof using A G Hused Hsb Htx.
  destruct (g_free _ G x (al_range _ _ _ A) (al_free _ _ _ A)) as [Hok Hnb]. pose proof (al_range _ _ _ A) as Hr.
  split; [unfold data_range; by rewrite Hsb|exact x_pos| |by apply Htx|unfold data_range; by rewrite Hsb].
  rewrite used_2, bool_decide_true by done. by rewrite orb_true_r.
Qed.

#[local] Lemma view_file b : file_block s b → (∀ Q, valid Q → ¬ leaf Q → node s ip Q ≠ 0 → node s ip Q ≠ b) → view (dsk s2) b = view (dsk s) b.
Proof using A Hview.
  intros [B1 B2 B3 B4 B5] HQ. rewrite Hview by done. apply (al_view _ _ _ A); [|done].
  intros E. pose proof (al_free _ _ _ A) as Hf. rewrite <-E in Hf. congruence.
Qed.

Lemma grow_one P' : P.1 = P'.1 → P.2 `prefix_of` P'.2 → grown s s2 ip P'.
Proof using All.
  intros E1 E2. pose proof (al_free _ _ _ A) as Hfr. split; try done.
  - specialize (Hino ip). rewrite decide_True in Hino by done. split.
    + rewrite Hino. apply T.
    + done.
    + intros q Hq. rewrite Hnode by done. case_decide; [intros _; apply x_file|]. intros Hn. by apply files_2, (tr_block _ _ T).
    + intros q q' Hq Hq'. rewrite !Hnode by done. repeat case_decide; subst; try done.
      * intros _ E. destruct (node_not_free s ip q' x T Hq' Hfr); [|done]. rewrite <-E. apply x_pos.
      * intros Hn E. by destruct (node_not_free s ip q x T Hq Hfr Hn).
      * by apply (tr_inj _ _ T).
  - intros q Hq Hn. rewrite Hnode, decide_False; [done| |done]. by intros ->.
  - intros q Hq. rewrite Hnode by done. case_decide; [by subst|done].
  - intros q [Hq Hl]. rewrite Hnode by done. case_decide as Eq.
    + subst q. intros _. rewrite decide_True by done. rewrite Hview; [apply A|].
      intros Q HQ _ HQn. by apply (node_not_free s ip Q x).
    + intros Hn. rewrite decide_False by done. apply view_file; [by apply (tr_block _ _ T)|].
      intros Q HQ HQl HQn E. apply HQl. rewrite (tr_inj _ _ T Q q HQ Hq HQn E). done.
  - intros b Hb HQ. apply view_file; [done|]. intros Q HQv _ _. by apply HQ.
  - intros b Hb Hu. by rewrite used_2, Hu.
  - intros q Hq E. rewrite Hnode by done. case_decide; [by subst|done].
  - intros j. specialize (Hino j). case_decide; [by subst|done].
Qed.
End grow_one.

(** ** Following one step *)

Lemma node_ext s d' ip q : (∀ c, view d' c = view (dsk s) c) → node (set_dsk d' s) ip q = node s ip q.
Proof using Type.
  intros Hv. unfold node, lookup_path. destruct q as [r l]. simpl. change (ino (set_dsk d' s) ip) with (ino s ip).
  generalize (nth r (i_addrs (ino s ip)) 0). induction l as [|k l IH]; intros a; simpl; [done|]. rewrite IH. unfold follow. by rewrite Hv.
Qed.

Lemma file_block_ext s d' b : same_txn (dsk s) d' → (∀ c, view d' c = view (dsk s) c) → file_block s b → file_block (set_dsk d' s) b.
Proof using Type.
  intros Ht Hv [B1 B2 B3 B4 B5]. split; simpl; [done|done| |by apply Ht|done]. by rewrite used_ext.
Qed.

Lemma tree_ok_ext s d' ip : tree_ok s ip → same_txn (dsk s) d' → (∀ c, view d' c = view (dsk s) c) → tree_ok (set_dsk d' s) ip.
Proof using Type.
  intros [T1 T2 T3 T4] Ht Hv. split; [done|done| |].
  - intros q. rewrite node_ext by done. intros. apply file_block_ext; auto.
  - intros q q'. rewrite !node_ext by done. apply T4.
Qed.

Lemma grown_ext s d' ip P :
  geometry s → tree_ok s ip → same_txn (dsk s) d' → (∀ c, view d' c = view (dsk s) c) → grown s (set_dsk d' s) ip P.
Proof using Type.
  intros G T Ht Hv. split; try done.
  - by apply geometry_ext.
  - by apply tree_ok_ext.
  - intros q _ _. by apply node_ext.
  - intros q _. by rewrite node_ext.
  - intros q _. rewrite node_ext by done. intros Hn. rewrite decide_False by done. apply Hv.
  - intros b Hb. by rewrite used_ext.
  - intros q _. by rewrite node_ext.
  - intros j. case_decide; [|done]. subst j. change (ino (set_dsk d' s) ip) with (ino s ip). by destruct (ino s ip).
Qed.

Lemma ino_wi s ip f j : ino (set_icache (<[ip := f (ino s ip)]> (icache s)) s) j = if decide (j = ip) then f (ino s ip) else ino s j.
Proof using Type.
  unfold ino at 1. simpl. case_decide; [subst; by rewrite lookup_insert_eq|by rewrite lookup_insert_ne].
Qed.

(** The map after [ip->addrs[r]] was pointed to a fresh block. *)
Lemma node_root s s1 s2 ip r x :
  geometry s → tree_ok s ip → allocated s s1 x → (r < NDIRECT + 3)%nat → node s ip (r, []) = 0 →
  i_addrs (ino s2 ip) = <[r := x]> (i_addrs (ino s ip)) → dsk s2 = dsk s1 →
  ∀ q, valid q → node s2 ip q = if decide (q = (r, [])) then x else node s ip q.
Proof using Type.
  intros G T A Hr Hz Ha Hd [r' l]. induction l as [|k l IH] using rev_ind; intros Hv.
  - unfold node, lookup_path. simpl. rewrite Ha. rewrite !nth_lookup. destruct (decide (r' = r)) as [->|Hne].
    + rewrite decide_True, list_lookup_insert_eq; [done|by rewrite (tr_len _ _ T)|done].
    + rewrite decide_False, list_lookup_insert_ne by congruence. done.
  - destruct (valid_snoc _ _ _ Hv) as (Hv' & Hk & _). rewrite (decide_False (P := (r', l ++ [k]) = _)).
    2: { intros [= _ E]. by destruct l. }
    unfold node in *. rewrite !lookup_path_snoc, IH by done. rewrite Hd. case_decide as E.
    + injection E as -> ->. rewrite Hz. unfold follow at 2. rewrite decide_True by done. unfold follow.
      rewrite (al_zero _ _ _ A), ld32_zero. by case_decide.
    + fold (node s ip (r', l)). unfold follow. case_decide as E0; [done|].
      destruct (tr_block _ _ T (r', l) Hv' E0) as [B1 B2 B3 B4 B5].
      rewrite (al_view _ _ _ A); [done| |done]. intros Ex. rewrite Ex, (al_free _ _ _ A) in B3. done.
Qed.

(** The map after entry [k] of the indirect block at [(r, l)] was. *)
Lemma node_level s s1 s2 ip r l k x (a := node s ip (r, l)) :
  geometry s → tree_ok s ip → allocated s s1 x → is_u32 x → valid (r, l ++ [k]) → a ≠ 0 → node s ip (r, l ++ [k]) = 0 →
  i_addrs (ino s2 ip) = i_addrs (ino s ip) →
  (∀ c, view (dsk s2) c = if decide (c = a) then st32 (view (dsk s1) a) (4 * k) x else view (dsk s1) c) →
  ∀ q, valid q → node s2 ip q = if decide (q = (r, l ++ [k])) then x else node s ip q.
Proof using Type.
  intros G T A Hx HvP Ha Hz Haddr Hv2 [r' l']. destruct (valid_snoc _ _ _ HvP) as (HvA & Hk & _).
  destruct (tr_block _ _ T (r, l) HvA Ha) as [A1 A2 A3 A4 A5].
  assert (a ≠ x) as Hax by (intros E; fold a in A3; rewrite E, (al_free _ _ _ A) in A3; done).
  assert (view (dsk s1) a = view (dsk s) a) as V1a by by apply (al_view _ _ _ A).
  induction l' as [|k' l' IH] using rev_ind; intros Hv.
  - rewrite decide_False by (intros [= _ E]; by destruct l). unfold node, lookup_path. simpl. by rewrite Haddr.
  - destruct (valid_snoc _ _ _ Hv) as (Hv' & Hk' & _). specialize (IH Hv'). unfold node in IH |- *. rewrite !lookup_path_snoc, IH.
    fold (node s ip (r', l')) in *. set (b := node s ip (r', l')) in *. case_decide as E.
    + assert (b = 0) as -> by (unfold b; rewrite E; exact Hz).
      rewrite decide_False by (intros [= _ E']; injection E as _ ->; apply (f_equal length) in E'; rewrite !length_app in E'; simpl in E'; lia).
      unfold follow. rewrite (decide_True (P := 0 = 0)) by done. rewrite Hv2, (decide_False (P := x = a)) by congruence.
      rewrite (al_zero _ _ _ A), ld32_zero. by case_decide.
    + unfold follow. destruct (decide (b = 0)) as [E0|E0].
      { rewrite decide_False; [done|]. intros [= -> E']. apply app_inj_tail in E' as [-> ->]. by apply Ha. }
      rewrite Hv2. destruct (decide (b = a)) as [Eb|Eb].
      * assert ((r', l') = (r, l)) as [= -> ->] by (apply (tr_inj _ _ T); [done..|exact E0|exact Eb]).
        fold a in b. rewrite V1a. destruct (decide (k' = k)) as [->|Hne].
        -- rewrite decide_True by done. rewrite ld32_st32_eq; [by apply u32_small|]. rewrite (g_len _ G) by done.
           unfold NINDIRECT in Hk. unfold BSIZE. lia.
        -- rewrite decide_False by (intros [= E']; apply app_inj_tail in E' as [_ ?]; done). rewrite Eb.
           rewrite ld32_st32_ne; [done| |lia]. rewrite (g_len _ G) by done. unfold NINDIRECT in Hk. unfold BSIZE. lia.
      * destruct (tr_block _ _ T (r', l') Hv' E0) as [B1 B2 B3 B4 B5]. fold b in B1, B2, B3, B4, B5.
        rewrite decide_False. 2: { intros [= -> E']. apply app_inj_tail in E' as [-> ->]. by apply Eb. }
        rewrite (al_view _ _ _ A); [done| |done]. intros Ex. rewrite Ex, (al_free _ _ _ A) in B3. done.
Qed.

Lemma root_entry s ip r : tree_ok s ip → (r < NDIRECT + 3)%nat → i_addrs (ino s ip) !! r = Some (node s ip (r, [])).
Proof using Type.
  intros T Hr. unfold node, lookup_path. simpl. rewrite nth_lookup.
  destruct (i_addrs (ino s ip) !! r) eqn:E; [done|]. apply lookup_ge_None in E. rewrite (tr_len _ _ T) in E. lia.
Qed.

Lemma bmap_root_spec s ip r m k P :
  geometry s → tree_ok s ip → (r < NDIRECT + 3)%nat → P.1 = r →
  fits (dsk s) [] (4 + m) → in_txn (dsk s) → has_free s (S k) →
  wp (bmap_root ip r) (λ a s', a ≠ 0 ∧ node s' ip (r, []) = a ∧ grown s s' ip P ∧ fits (dsk s') [] (S m) ∧ has_free s' k) s.
Proof using BL.
  intros G T Hr HP Hf Ht Hfree. unfold bmap_root. apply wp_bind, wp_gets. unfold id.
  rewrite (tr_dev _ _ T), root_entry by done. destruct (Z.eqb_spec (node s ip (r, [])) 0) as [Hz|Hnz]; cycle 1.
  { apply wp_ret. split_and!; [done|done| |by eapply fits_weaken; [exact Hf|lia]|].
    - replace s with (set_dsk (dsk s) s) at 2 by by destruct s. by apply grown_ext.
    - by apply has_free_weaken. }
  apply wp_bind. wcall (balloc_spec s [] (S m) G Hf Ht); [by intros b Hb; inversion Hb|by eapply has_free_S|].
  intros x s1 (A & d1 & -> & F1 & T1). apply wp_bind. apply wp_modify, wp_ret.
  set (s2 := set_icache _ _). pose proof (al_range _ _ _ A) as Hxr.
  assert (∀ j, ino s2 j = if decide (j = ip) then set_i_addr r x (ino s ip) else ino s j) as Hino by (intros j; apply (ino_wi (set_dsk d1 s))).
  assert (i_addrs (ino s2 ip) = <[r := x]> (i_addrs (ino s ip))) as Ha by (rewrite Hino, decide_True; done).
  assert (valid (r, [])) as Hv by (split_and!; simpl; [done|lia|done]).
  pose proof (node_root s (set_dsk d1 s) s2 ip r x G T A Hr Hz Ha eq_refl) as Hnode.
  split_and!.
  - intros ->. pose proof (al_free _ _ _ A) as E. by rewrite (g_boot _ G) in E.
  - rewrite Hnode, decide_True by done. done.
  - apply (grow_one s (set_dsk d1 s) s2 ip (r, []) x); try done.
    + destruct (al_geo _ _ _ A). by split.
    + by rewrite Ha, length_insert, (tr_len _ _ T).
    + intros j. rewrite !Hino, (decide_True (P := ip = ip)) by done. by case_decide.
    + apply prefix_nil.
  - by eapply fits_weaken; [exact F1|lia].
  - eapply (has_free_alloc s s2 x k Hfree); [done|]. apply (al_used _ _ _ A).
Qed.

Lemma data_u32 s b : geometry s → data_range s b → is_u32 b.
Proof using Type. intros G [? ?]. destruct (g_size _ G). unfold is_u32, two32. lia. Qed.

(** The rest of a level: the buffer of the indirect block is held and its
    entry is empty. *)
Lemma bmap_alloc_spec s ip r l k i m j P (a := node s ip (r, l)) :
  geometry s → tree_ok s ip → valid (r, l ++ [k]) → a ≠ 0 → node s ip (r, l ++ [k]) = 0 →
  P.1 = r → (l ++ [k]) `prefix_of` P.2 →
  fits (dsk s) [(i, a)] (3 + m) → in_txn (dsk s) → has_free s (S j) →
  wp (x ← balloc 1; log_update i (λ d : block, st32 d (4 * k) x);; mret x) (λ x s', x ≠ 0 ∧ node s' ip (r, l ++ [k]) = x ∧
    grown s s' ip P ∧ fits (dsk s') [(i, a)] m ∧ has_free s' j) s.
Proof using BL.
  intros G T Hv Ha Hz HP1 HP2 Hf Ht Hfree. destruct (valid_snoc _ _ _ Hv) as (HvA & Hk & Hlen).
  destruct (tr_block _ _ T (r, l) HvA Ha) as [A1 A2 A3 A4 A5]. fold a in A1, A2, A3, A4, A5.
  apply wp_bind. wcall (balloc_spec s [(i, a)] m G Hf Ht); [|by eapply has_free_S|].
  { intros b Hb%list_elem_of_singleton. simpl in Hb. subst b. done. }
  intros x s1 (A & d1 & -> & F1 & T1). apply wp_bind.
  wcall (fs_log (set_dsk d1 s) _ m i a (λ d : block, st32 d (4 * k) x) F1); [by apply T1|by left|].
  intros [] s2 (d2 & -> & F2 & V2 & T2). apply wp_ret. cbn [dsk set_dsk] in *. change (set_dsk d2 (set_dsk d1 s)) with (set_dsk d2 s).
  pose proof (al_range _ _ _ A) as Hxr. pose proof (data_u32 s x G Hxr) as Hx32.
  pose proof (node_level s (set_dsk d1 s) (set_dsk d2 s) ip r l k x G T A Hx32 Hv Ha Hz eq_refl V2) as Hnode.
  assert (same_txn (dsk s) d2) as T12 by by eapply same_txn_trans.
  assert (∀ b, data_range s b → used (set_dsk d2 s) b = used (set_dsk d1 s) b) as Hu.
  { intros b Hb. unfold used. simpl. rewrite V2, decide_False by (intros E; by apply (A5 b)). done. }
  split_and!.
  - intros ->. pose proof (al_free _ _ _ A) as E. by rewrite (g_boot _ G) in E.
  - rewrite Hnode, decide_True by done. done.
  - apply (grow_one s (set_dsk d1 s) (set_dsk d2 s) ip (r, l ++ [k]) x); try done.
    + destruct (al_geo _ _ _ A) as [G1 G2 G3 G4 G5 G6]. split; try done.
      * intros b Hb. by apply T2, G3.
      * intros b Hb. apply T2 in Hb. simpl. rewrite V2. case_decide; [|by apply G4]. subst b. rewrite length_st32. by apply G4.
      * intros b Hb. rewrite Hu by done. intros Hub. destruct (G5 b Hb Hub). split; [by apply T2|done].
      * rewrite Hu by (by apply range0). done.
    + apply (tr_len _ _ T).
    + intros j0. case_decide; [|done]. unfold same_but_addrs. change (ino (set_dsk d2 s) ip) with (ino s ip). by destruct (ino s ip).
    + intros c Hc. simpl. rewrite V2, decide_False; [done|]. intros ->. apply (Hc (r, l)); [done| |done|done].
      intros [_ E]. cbn [fst snd] in E. lia.
  - done.
  - eapply (has_free_alloc s _ x j Hfree); [done|]. intros b Hb. rewrite Hu by done. by apply (al_used _ _ _ A).
Qed.

Lemma bmap_level_spec s ip r l k m j P (a := node s ip (r, l)) :
  geometry s → tree_ok s ip → valid (r, l ++ [k]) → a ≠ 0 → P.1 = r → (l ++ [k]) `prefix_of` P.2 →
  fits (dsk s) [] (4 + m) → in_txn (dsk s) → has_free s (S j) →
  wp (bmap_level ip a (Z.of_nat k)) (λ x s', x ≠ 0 ∧ node s' ip (r, l ++ [k]) = x ∧ grown s s' ip P ∧
    fits (dsk s') [] (S m) ∧ has_free s' j) s.
Proof using BL.
  intros G T Hv Ha HP1 HP2 Hf Ht Hfree. destruct (valid_snoc _ _ _ Hv) as (HvA & Hk & Hlen).
  destruct (tr_block _ _ T (r, l) HvA Ha) as [A1 A2 A3 A4 A5]. fold a in A1, A2, A3, A4, A5.
  unfold bmap_level. apply wp_bind, wp_gets. rewrite (tr_dev _ _ T). apply wp_bind.
  wcall (fs_read s [] (3 + m) a Hf A4); [simpl; set_solver|]. intros i s1 (d1 & -> & F1 & V1 & T1).
  pose proof (geometry_ext s d1 G T1 V1) as G1. pose proof (tree_ok_ext s d1 ip T T1 V1) as T1'.
  pose proof (grown_ext s d1 ip P G T T1 V1) as R1.
  apply wp_bind. eapply wp_eq; [eapply fs_data; [exact F1|left]|]. cbn [dsk set_dsk]. rewrite V1, Nat2Z.id.
  assert (node s ip (r, l ++ [k]) = ld32 (view (dsk s) a) (4 * k)) as En.
  { unfold node. rewrite lookup_path_snoc. fold (node s ip (r, l)). fold a. unfold follow. by rewrite decide_False. }
  rewrite <-En. apply wp_bind. destruct (Z.eqb_spec (node s ip (r, l ++ [k])) 0) as [Hz|Hnz].
  - assert (node (set_dsk d1 s) ip (r, l) = a) as Ea by by apply node_ext.
    eapply wp_mono; [apply (bmap_alloc_spec (set_dsk d1 s) ip r l k i m j P)|]; rewrite ?Ea; try done.
    { by rewrite node_ext. }
    { by apply T1. }
    { by apply has_free_ext. }
    intros x s2 (Hx & Hn & Hg & F2 & Hfr). apply wp_bind. wcall (fs_release s2 [] i a m F2).
    intros [] s3 (d3 & -> & F3 & V3 & T3). apply wp_ret. split_and!; [done| | |done|].
    + by rewrite node_ext.
    + eapply grown_trans; [exact R1|]. eapply grown_trans; [exact Hg|]. apply grown_ext; try done; apply Hg.
    + by apply has_free_ext.
  - apply wp_ret. apply wp_bind. wcall (fs_release (set_dsk d1 s) [] i a _ F1). intros [] s3 (d3 & -> & F3 & V3 & T3). apply wp_ret.
    cbn [dsk set_dsk] in *. change (set_dsk d3 (set_dsk d1 s)) with (set_dsk d3 s).
    assert (∀ c, view d3 c = view (dsk s) c) as V13 by (intros c; by rewrite V3, V1).
    split_and!; [done|by apply node_ext| |by eapply fits_weaken; [exact F3|lia]|].
    + apply grown_ext; [done..|by eapply same_txn_trans|done].
    + by apply has_free_ext, has_free_weaken.
Qed.

(** ** Following a whole path *)

Fixpoint walk (ip : nat) (a : Z) (ks : list nat) : M (fstate D) Z :=
  match ks with
  | [] => mret a
  | k :: ks => a ← bmap_level ip a (Z.of_nat k); walk ip a ks
  end.

(** [bmap] follows the path of its block number. *)
Lemma bmap_walk ip bn s : 0 ≤ bn < MAXBN →
  bmap ip bn s = (a ← bmap_root ip (path_of bn).1; walk ip a (path_of bn).2) s.
Proof using Type.
  unfold MAXBN, bmap, path_of, NDIRECT, NINDIRECT, NINDIRECT2, NINDIRECT3. intros Hb.
  change (Z.of_nat 10) with 10. change (Z.of_nat 128) with 128. split_ltb; try lia; cbn [fst snd walk].
  - by rewrite bind_ret_r.
  - apply bind_ext. intros a s1. rewrite bind_ret_r, Z2Nat.id by lia. done.
  - apply bind_ext. intros a s1. rewrite !Z2Nat.id by dlia. apply bind_ext. intros a' s2. by rewrite bind_ret_r.
  - apply bind_ext. intros a s1. rewrite !Z2Nat.id by dlia. apply bind_ext. intros a' s2.
    apply bind_ext. intros a'' s3. by rewrite bind_ret_r.
Qed.

Lemma walk_spec ks : ∀ s ip r l m j, 
  geometry s → tree_ok s ip → valid (r, l ++ ks) → node s ip (r, l) ≠ 0 →
  fits (dsk s) [] (S m + 3 * length ks) → in_txn (dsk s) → has_free s (length ks + j) →
  wp (walk ip (node s ip (r, l)) ks) (λ x s', x ≠ 0 ∧ node s' ip (r, l ++ ks) = x ∧ grown s s' ip (r, l ++ ks) ∧
    fits (dsk s') [] (S m) ∧ has_free s' j) s.
Proof using BL.
  induction ks as [|k ks IH]; intros s ip r l m j G T Hv Ha Hf Ht Hfree; cbn [walk length] in *.
  { apply wp_ret. rewrite app_nil_r in *. split_and!; try done.
    - replace s with (set_dsk (dsk s) s) at 2 by by destruct s. by apply grown_ext.
    - by eapply fits_weaken; [exact Hf|lia]. }
  assert (l ++ k :: ks = (l ++ [k]) ++ ks) as El by by rewrite <-app_assoc.
  assert (valid (r, l ++ [k])) as Hvk.
  { destruct Hv as (V1 & V2 & V3). cbn [fst snd] in *. rewrite El in V2, V3. rewrite length_app in V2. apply Forall_app in V3 as [V3 _].
    split_and!; cbn [fst snd]; (done || lia). }
  apply wp_bind. wcall (bmap_level_spec s ip r l k (m + 3 * length ks) (length ks + j) (r, l ++ k :: ks) G T Hvk Ha); try done.
  { cbn [snd]. rewrite El. by apply prefix_app_r. }
  { eapply fits_weaken; [exact Hf|lia]. }
  intros x s1 (Hx & Hn & Hg & F1 & Hfr). rewrite El in *. subst x.
  wcall (IH s1 ip r (l ++ [k]) m j (gr_geo _ _ _ _ Hg) (gr_tree _ _ _ _ Hg)); try done.
  { by apply (gr_txn _ _ _ _ Hg). }
  intros x s2 (Hx2 & Hn2 & Hg2 & F2 & Hfr2). split_and!; [done..| |done|done]. by eapply grown_trans.
Qed.

Lemma path_steps bn : (length (path_of bn).2 ≤ 3)%nat.
Proof using Type. unfold path_of. split_ltb; simpl; lia. Qed.

Lemma bmap_spec s ip bn m j :
  geometry s → tree_ok s ip → 0 ≤ bn < MAXBN →
  fits (dsk s) [] (S m + 12) → in_txn (dsk s) → has_free s (4 + j) →
  wp (bmap ip bn) (λ a s', a ≠ 0 ∧ node s' ip (path_of bn) = a ∧ grown s s' ip (path_of bn) ∧
    fits (dsk s') [] (S m) ∧ has_free s' j) s.
Proof using BL.
  intros G T Hbn Hf Ht Hfree. unfold wp. rewrite bmap_walk by done. pose proof (path_steps bn) as Hst.
  destruct (path_of_leaf bn Hbn) as [Hv _]. destruct (path_of bn) as [r ks]. cbn [fst snd] in *.
  change (wp (a ← bmap_root ip r; walk ip a ks) (λ a s', a ≠ 0 ∧ node s' ip (r, ks) = a ∧ grown s s' ip (r, ks) ∧
    fits (dsk s') [] (S m) ∧ has_free s' j) s).
  apply wp_bind. wcall (bmap_root_spec s ip r (m + 9) (3 + j) (r, ks) G T (proj1 Hv)); try done.
  { by eapply fits_weaken; [exact Hf|lia]. }
  intros a s1 (Ha & Hn & Hg & F1 & Hfr). subst a.
  wcall (walk_spec ks s1 ip r [] m (3 - length ks + j) (gr_geo _ _ _ _ Hg) (gr_tree _ _ _ _ Hg)); try done.
  { by eapply fits_weaken; [exact F1|lia]. }
  { by apply (gr_txn _ _ _ _ Hg). }
  { by replace (length ks + (3 - length ks + j))%nat with (3 + j)%nat by lia. }
  intros x s2 (Hx2 & Hn2 & Hg2 & F2 & Hfr2). split_and!; [done..| |done|]; [by eapply grown_trans|].
  clear -Hfr2. revert Hfr2. generalize (3 - length ks)%nat. induction n as [|n IH]; [done|]. intros Hh. by apply IH, has_free_weaken.
Qed.

Lemma node_up s ip r l l' : node s ip (r, l ++ l') ≠ 0 → node s ip (r, l) ≠ 0.
Proof using Type.
  induction l' as [|x l' IH] using rev_ind; [by rewrite app_nil_r|]. rewrite app_assoc. unfold node. rewrite lookup_path_snoc.
  unfold follow. case_decide; [done|]. intros _. by apply IH.
Qed.

(** Where the block is mapped already, [bmap] only reads. *)
Lemma walk_hit ks : ∀ s ip r l n,
  geometry s → tree_ok s ip → valid (r, l ++ ks) → node s ip (r, l ++ ks) ≠ 0 → fits (dsk s) [] (S n) →
  wp (walk ip (node s ip (r, l)) ks) (λ x s', x = node s ip (r, l ++ ks) ∧ ∃ d', s' = set_dsk d' s ∧ fits d' [] (S n) ∧
    (∀ c, view d' c = view (dsk s) c) ∧ same_txn (dsk s) d') s.
Proof using BL.
  induction ks as [|k ks IH]; intros s ip r l n G T Hv Ha Hf; cbn [walk].
  { apply wp_ret. rewrite app_nil_r in *. split; [done|]. exists (dsk s). split_and!; try done. by destruct s. }
  assert (l ++ k :: ks = (l ++ [k]) ++ ks) as El by by rewrite <-app_assoc. rewrite El in *.
  assert (node s ip (r, l) ≠ 0) as Hl by (apply (node_up s ip r l (k :: ks)); by rewrite El).
  assert (valid (r, l)) as Hvl.
  { destruct Hv as (V1 & V2 & V3). cbn [fst snd] in *. rewrite <-El in V2, V3. rewrite length_app in V2. apply Forall_app in V3 as [V3 _].
    split_and!; cbn [fst snd]; (done || lia). }
  apply wp_bind. unfold bmap_level. apply wp_bind, wp_gets. rewrite (tr_dev _ _ T). apply wp_bind.
  wcall (fs_read s [] n _ Hf (fb_ok _ _ (tr_block _ _ T (r, l) Hvl Hl))); [simpl; set_solver|].
  intros i s1 (d1 & -> & F1 & V1 & T1). apply wp_bind. eapply wp_eq; [eapply fs_data; [exact F1|left]|].
  cbn [dsk set_dsk]. rewrite V1, Nat2Z.id.
  assert (node s ip (r, l ++ [k]) = ld32 (view (dsk s) (node s ip (r, l))) (4 * k)) as En.
  { unfold node at 1. rewrite lookup_path_snoc. fold (node s ip (r, l)). unfold follow. by rewrite decide_False. }
  rewrite <-En. assert (node s ip (r, l ++ [k]) ≠ 0) as Hk by by apply (node_up s ip r (l ++ [k]) ks).
  rewrite (proj2 (Z.eqb_neq _ _)) by done. apply wp_bind, wp_ret, wp_bind. wcall (fs_release (set_dsk d1 s) [] i _ n F1).
  intros [] s2 (d2 & -> & F2 & V2 & T2). apply wp_ret. cbn [dsk set_dsk] in *. change (set_dsk d2 (set_dsk d1 s)) with (set_dsk d2 s).
  assert (∀ c, view d2 c = view (dsk s) c) as V12 by (intros c; by rewrite V2, V1).
  assert (same_txn (dsk s) d2) as T12 by by eapply same_txn_trans.
  rewrite <-(node_ext s d2 ip (r, l ++ [k])) by done.
  wcall (IH (set_dsk d2 s) ip r (l ++ [k]) n); try done; [by apply geometry_ext|by apply tree_ok_ext|by rewrite node_ext|].
  intros x s3 (-> & d3 & -> & F3 & V3 & T3). cbn [dsk set_dsk] in *. rewrite node_ext by done. split; [done|].
  exists d3. split_and!; [done|done|intros c; by rewrite V3|by eapply same_txn_trans].
Qed.

Lemma bmap_hit s ip bn n :
  geometry s → tree_ok s ip → 0 ≤ bn < MAXBN → node s ip (path_of bn) ≠ 0 → fits (dsk s) [] (S n) →
  wp (bmap ip bn) (λ a s', a = node s ip (path_of bn) ∧ ∃ d', s' = set_dsk d' s ∧ fits d' [] (S n) ∧
    (∀ c, view d' c = view (dsk s) c) ∧ same_txn (dsk s) d') s.
Proof using BL.
  intros G T Hbn Hn Hf. destruct (path_of_leaf bn Hbn) as [Hv _]. unfold wp. rewrite bmap_walk by done.
  destruct (path_of bn) as [r ks]. cbn [fst snd].
  change (wp (a ← bmap_root ip r; walk ip a ks) (λ a s', a = node s ip (r, ks) ∧ ∃ d', s' = set_dsk d' s ∧ fits d' [] (S n) ∧
    (∀ c, view d' c = view (dsk s) c) ∧ same_txn (dsk s) d') s).
  apply wp_bind. unfold bmap_root. apply wp_bind, wp_gets. unfold id. rewrite root_entry by (done || apply Hv).
  assert (node s ip (r, []) ≠ 0) as H0 by by apply (node_up s ip r [] ks).
  rewrite (proj2 (Z.eqb_neq _ _)) by done. apply wp_ret. by apply (walk_hit ks s ip r [] n).
Qed.
End map.

Close Scope Z_scope.
