(* ===== verification/FsFile.v ===== *)
(** * Reading and writing files ([readi], [writei] of [src/xv6-public/fs.c])

    The contents of a file as a function from offsets to bytes, which
    [readi] reads and [writei] updates. *)

From S2P Require Import Prelude.
From S2P Require Import Words.
From S2P Require Import Bio.
From S2P Require Import BlockStore.
From S2P Require Import Fs.
From S2P Require Import FsAlloc.
From S2P Require Import FsMap.

Open Scope Z_scope.

(** ** Pieces of a block *)

Lemma take_drop_bytes (d : block) o m :
  (o + m ≤ length d)%nat → take m (drop o d) = (λ k, byte_at d (o + k)) <$> seq 0 m.
Proof.
  intros Hl. apply list_eq. intros k. rewrite list_lookup_fmap. destruct (decide (k < m)%nat) as [Hk|Hk].
  - rewrite lookup_take_lt, lookup_drop, lookup_seq_lt by done. simpl. unfold byte_at. rewrite nth_lookup.
    destruct (d !! (o + k)%nat) eqn:E; [done|]. apply lookup_ge_None in E. lia.
  - rewrite lookup_take_ge, lookup_seq_ge by lia. done.
Qed.

Lemma length_splice o bytes d : (o + length bytes ≤ length d)%nat → length (splice o bytes d) = length d.
Proof. intros. unfold splice. rewrite !length_app, length_take, length_drop. lia. Qed.

Lemma byte_at_splice o bytes d k : (o + length bytes ≤ length d)%nat →
  byte_at (splice o bytes d) k = if decide (o ≤ k < o + length bytes)%nat then byte_at bytes (k - o) else byte_at d k.
Proof.
  intros Hl. unfold byte_at, splice. rewrite !nth_lookup. f_equal.
  destruct (decide (k < o)%nat).
  - rewrite decide_False, lookup_app_l, lookup_take_lt by (rewrite ?length_take; lia). done.
  - rewrite lookup_app_r by (rewrite length_take; lia). rewrite length_take, Nat.min_l by lia. case_decide.
    + rewrite lookup_app_l by lia. done.
    + rewrite lookup_app_r, lookup_drop by lia. do 2 f_equal. lia.
Qed.

(** ** File contents *)

Section file.
Context {D : Type} {BO : BlockOps D} {BM : BlockModel D} {BL : BlockLaws D}.
Implicit Types (s : fstate D) (d : D).

Definition MAXOFF : Z := MAXBN * 512.

(** The block of an offset, and its byte; what is not mapped reads as zero. *)
Definition block_at (s : fstate D) (ip : nat) (o : Z) : Z := node s ip (path_of (o / 512)).
Definition file_at (s : fstate D) (ip : nat) (o : Z) : Z :=
  if decide (block_at s ip o = 0) then 0 else byte_at (view (dsk s) (block_at s ip o)) (Z.to_nat (o mod 512)).
Definition contents (s : fstate D) (ip : nat) (off : Z) (n : nat) : list Z :=
  (λ k, file_at s ip (off + Z.of_nat k)) <$> seq 0 n.

(** No holes below the size. *)
Definition dense (s : fstate D) (ip : nat) : Prop :=
  0 ≤ i_size (ino s ip) ≤ MAXOFF ∧ ∀ o, 0 ≤ o < i_size (ino s ip) → block_at s ip o ≠ 0.

Lemma bn_range o : 0 ≤ o < MAXOFF → 0 ≤ o / 512 < MAXBN.
Proof using Type. unfold MAXOFF. intros. dlia. Qed.

Lemma contents_app s ip off a b : contents s ip off (a + b) = contents s ip off a ++ contents s ip (off + Z.of_nat a) b.
Proof using Type.
  unfold contents. rewrite seq_app, fmap_app. f_equal.
  replace (seq (0 + a) b) with (Nat.add a <$> seq 0 b) by (rewrite fmap_add_seq; f_equal; lia). rewrite <-list_fmap_compose.
  apply list_fmap_ext. intros i k _. simpl. f_equal. lia.
Qed.

Lemma file_at_ext s d' ip o : (∀ c, view d' c = view (dsk s) c) → file_at (set_dsk d' s) ip o = file_at s ip o.
Proof using Type. intros Hv. unfold file_at, block_at. by rewrite node_ext, Hv. Qed.

(** Mapping a new block does not change the contents. *)
Lemma file_at_grown s s' ip P o : grown s s' ip P → 0 ≤ o < MAXOFF → file_at s' ip o = file_at s ip o.
Proof using Type.
  intros Hg Ho. unfold file_at, block_at. pose proof (path_of_leaf _ (bn_range o Ho)) as Hl.
  destruct (decide (node s ip (path_of (o / 512)) = 0)) as [E|E].
  - case_decide as E'; [done|]. rewrite (gr_leaf _ _ _ _ Hg) by done. rewrite decide_True by done.
    unfold byte_at, zero_block. rewrite nth_lookup, lookup_replicate_2; [done|]. unfold BSIZE. dlia.
  - rewrite (gr_keep _ _ _ _ Hg) by (done || apply Hl). rewrite decide_False by done. f_equal.
    rewrite <-(gr_keep _ _ _ _ Hg) at 1 by (done || apply Hl). rewrite (gr_leaf _ _ _ _ Hg), decide_False; [done|done|done|].
    rewrite (gr_keep _ _ _ _ Hg); (done || apply Hl).
Qed.

(** One block's worth of a file. *)
Lemma contents_block s ip o m :
  geometry s → tree_ok s ip → 0 ≤ o < MAXOFF → block_at s ip o ≠ 0 → (Z.to_nat (o mod 512) + m ≤ 512)%nat →
  take m (drop (Z.to_nat (o mod 512)) (view (dsk s) (block_at s ip o))) = contents s ip o m.
Proof using Type.
  intros G T Ho Hb Hm. pose proof (path_of_leaf _ (bn_range o Ho)) as [Hv _].
  rewrite take_drop_bytes.
  2: { rewrite (g_len _ G); [unfold BSIZE; lia|]. apply (tr_block _ _ T); done. }
  unfold contents. apply list_fmap_ext. intros i k Hk. apply lookup_seq in Hk as [-> Hk]. simpl.
  unfold file_at, block_at. assert ((o + Z.of_nat i) / 512 = o / 512) as -> by dlia. fold (block_at s ip o).
  rewrite decide_False by done. f_equal. dlia.
Qed.

Lemma readi_spec dev_read s ip off n k (m := Z.min n (i_size (ino s ip) - off)) :
  geometry s → tree_ok s ip → dense s ip → i_type (ino s ip) ≠ T_DEV →
  0 ≤ off ≤ i_size (ino s ip) → 0 ≤ n → off + n < two32 → fits (dsk s) [] (S k) →
  wp (readi dev_read ip off n) (λ r s', r = (m, contents s ip off (Z.to_nat m)) ∧ ∃ d', s' = set_dsk d' s ∧ fits d' [] (S k) ∧
    (∀ c, view d' c = view (dsk s) c) ∧ same_txn (dsk s) d') s.
Proof using BL.
  intros G T [Hsz Hd] Hty Hoff Hn Hov Hf. unfold readi. apply wp_bind, wp_gets. unfold id.
  rewrite (proj2 (Z.eqb_neq _ _)) by done. rewrite u32_small by (split; lia).
  destruct (Z.ltb_spec (i_size (ino s ip)) off); [lia|]. destruct (Z.ltb_spec (off + n) off); [lia|]. cbn [orb].
  assert ((if i_size (ino s ip) <? off + n then i_size (ino s ip) - off else n) = m) as ->.
  { unfold m. destruct (Z.ltb_spec (i_size (ino s ip)) (off + n)); lia. }
  assert (0 ≤ m ∧ off + m ≤ i_size (ino s ip)) as [Hm0 Hm1] by (unfold m; lia). clearbody m.
  apply wp_bind. change (Z.of_nat BSIZE) with 512.
  eapply wp_mono; [apply (wp_loop (λ c '(tot, dst) s', ∃ d', s' = set_dsk d' s ∧ fits d' [] (S k) ∧ (∀ c, view d' c = view (dsk s) c) ∧
      same_txn (dsk s) d' ∧ 0 ≤ tot ≤ m ∧ c = Z.to_nat (m - tot) ∧ dst = contents s ip off (Z.to_nat tot)))
    with (Q := λ dst s', dst = contents s ip off (Z.to_nat m) ∧ ∃ d', s' = set_dsk d' s ∧ fits d' [] (S k) ∧
      (∀ c, view d' c = view (dsk s) c) ∧ same_txn (dsk s) d') (n := Z.to_nat m)| ].
  - intros c [tot dst] s' (d1 & -> & F1 & V1 & T1 & Ht & -> & ->). destruct (Z.ltb_spec tot m) as [Hlt|Hge]; cycle 1.
    { apply wp_ret. split; [by replace m with tot by lia|]. by exists d1. }
    set (o := off + tot). assert (0 ≤ o < i_size (ino s ip)) as Ho by (unfold o; lia).
    assert (geometry (set_dsk d1 s)) as G1 by by apply geometry_ext.
    assert (tree_ok (set_dsk d1 s) ip) as T1' by by apply tree_ok_ext.
    assert (0 ≤ o < MAXOFF) as Hom by lia.
    pose proof (path_of_leaf _ (bn_range o Hom)) as [Hv _].
    assert (node (set_dsk d1 s) ip (path_of (o / 512)) = block_at s ip o) as En by (by rewrite node_ext).
    apply wp_bind. wcall (bmap_hit (set_dsk d1 s) ip (o / 512) k G1 T1' (bn_range o Hom)); [rewrite En; by apply Hd|exact F1|].
    rewrite En. intros a s2 (-> & d2 & -> & F2 & V2 & T2). cbn [dsk set_dsk] in *. change (set_dsk d2 (set_dsk d1 s)) with (set_dsk d2 s).
    apply wp_bind, wp_gets. change (i_dev (ino (set_dsk d2 s) ip)) with (i_dev (ino s ip)). rewrite (tr_dev _ _ T).
    assert (ok_block (dsk s) (block_at s ip o)) as Hok by (apply (tr_block _ _ T); [done|by apply Hd]).
    apply wp_bind. wcall (fs_read (set_dsk d2 s) [] k (block_at s ip o) F2); [by apply T2, T1|simpl; set_solver|].
    intros i s3 (d3 & -> & F3 & V3 & T3). cbn [dsk set_dsk] in *. apply wp_bind. eapply wp_eq; [eapply fs_data; [exact F3|left]|].
    apply wp_bind. wcall (fs_release (set_dsk d3 (set_dsk d2 s)) [] i _ k F3). intros [] s4 (d4 & -> & F4 & V4 & T4). apply wp_ret.
    cbn [dsk set_dsk] in *. set (mm := Z.min (m - tot) (512 - o mod 512)).
    assert (0 < mm ≤ m - tot ∧ o mod 512 + mm ≤ 512) as [Hmm1 Hmm2] by (unfold mm; dlia). clearbody mm.
    exists (Z.to_nat (m - (tot + mm))). split; [lia|]. exists d4. split_and!; try done; try lia.
    + intros c. by rewrite V4, V3, V2, V1.
    + do 3 (eapply same_txn_trans; [done|]). done.
    + rewrite V3, V2, V1. rewrite contents_block by (done || (by apply Hd) || dlia).
      replace (Z.to_nat (tot + mm)) with (Z.to_nat tot + Z.to_nat mm)%nat by lia. rewrite contents_app.
      unfold o. by rewrite Z2Nat.id by lia.
  - lia.
  - exists (dsk s). split_and!; try done; try lia. by destruct s.
  - intros dst s' (-> & d' & -> & F' & V' & T'). apply wp_ret. split; [done|]. by exists d'.
Qed.

(** ** Changing a block that is not part of the map *)

Section store.
Context (s : fstate D) (d' : D) (ip : nat) (a : Z) (v : block).
Hypothesis G : geometry s.
Hypothesis T : tree_ok s ip.
Hypothesis Ht : same_txn (dsk s) d'.
Hypothesis Ha : ∀ c, data_range s c → a ≠ BBLOCK c (sb s).
Hypothesis Hin : ∀ Q, valid Q → ¬ leaf Q → node s ip Q ≠ 0 → node s ip Q ≠ a.
Hypothesis Hlv : length v = BSIZE.
Hypothesis Hv : ∀ c, view d' c = if decide (c = a) then v else view (dsk s) c.

Lemma store_used c : data_range s c → used (set_dsk d' s) c = used s c.
Proof using Ha Hv. intros Hc. unfold used. simpl. rewrite Hv, decide_False; [done|]. intros E. by apply (Ha c). Qed.

Lemma store_geometry : geometry (set_dsk d' s).
Proof using G Ht Ha Hlv Hv.
  destruct G as [G1 G2 G3 G4 G5 G6]. split; simpl; try done.
  - intros b Hb. by apply Ht, G3.
  - intros b Hb. apply Ht in Hb. rewrite Hv. case_decide; [done|by apply G4].
  - intros b Hb. rewrite store_used by done. intros Hu. destruct (G5 b Hb Hu). split; [by apply Ht|done].
  - rewrite store_used; [done|by apply range0].
Qed.

Lemma store_node q : valid q → node (set_dsk d' s) ip q = node s ip q.
Proof using Hin Hlv Hv.
  destruct q as [r l]. induction l as [|k l IH] using rev_ind; intros Hq; [done|].
  destruct (valid_snoc _ _ _ Hq) as (Hq' & _ & Hlen). unfold node. rewrite !lookup_path_snoc.
  fold (node (set_dsk d' s) ip (r, l)) (node s ip (r, l)). rewrite IH by done. unfold follow. case_decide; [done|].
  simpl. rewrite Hv, decide_False; [done|]. apply Hin; [done| |done]. intros [_ E]. cbn [fst snd] in E. lia.
Qed.

Lemma store_tree : tree_ok (set_dsk d' s) ip.
Proof using All.
  destruct T as [T1 T2 T3 T4]. split; [done|done| |].
  - intros q Hq. rewrite store_node by done. intros Hn. destruct (T3 q Hq Hn). split; try done; [by rewrite store_used|by apply Ht].
  - intros q q' Hq Hq'. rewrite !store_node by done. by apply T4.
Qed.

Lemma store_has_free k : has_free s k → has_free (set_dsk d' s) k.
Proof using Ha Hv.
  intros (L & ? & ? & HL). exists L. split_and!; [done..|]. intros b Hb. destruct (HL b Hb). by rewrite store_used.
Qed.

Lemma store_file_at o : 0 ≤ o < MAXOFF → file_at (set_dsk d' s) ip o =
  if decide (block_at s ip o = a ∧ a ≠ 0) then byte_at v (Z.to_nat (o mod 512)) else file_at s ip o.
Proof using Hin Hlv Hv.
  intros Ho. pose proof (path_of_leaf _ (bn_range o Ho)) as [Hq _]. unfold file_at, block_at. rewrite store_node by done. simpl.
  rewrite Hv. destruct (decide (node s ip (path_of (o / 512)) = 0)) as [E|E].
  - rewrite decide_False; [done|]. intros [E1 E2]. congruence.
  - destruct (decide (node s ip (path_of (o / 512)) = a)) as [E'|E'].
    + rewrite decide_True; [done|]. split; congruence.
    + rewrite decide_False; [done|]. by intros [? _].
Qed.
End store.

(** The inode's own block is metadata. *)
Record imeta (s : fstate D) (ip : nat) : Prop := {
  im_ok : ok_block (dsk s) (IBLOCK (i_inum (ino s ip)) (sb s));
  im_used : data_range s (IBLOCK (i_inum (ino s ip)) (sb s)) → used s (IBLOCK (i_inum (ino s ip)) (sb s)) = true;
  im_bmap : ∀ c, data_range s c → IBLOCK (i_inum (ino s ip)) (sb s) ≠ BBLOCK c (sb s);
  im_tree : ∀ q, valid q → node s ip q ≠ 0 → node s ip q ≠ IBLOCK (i_inum (ino s ip)) (sb s)
}.

Lemma imeta_grown s s' ip P : imeta s ip → grown s s' ip P → imeta s' ip.
Proof using Type.
  intros [M1 M2 M3 M4] Hg. pose proof (gr_ino _ _ _ _ Hg ip) as Ei. rewrite decide_True in Ei by done.
  apply (f_equal i_inum) in Ei. simpl in Ei.
  split; rewrite Ei, (gr_sb _ _ _ _ Hg).
  - by apply (gr_txn _ _ _ _ Hg).
  - unfold data_range. rewrite (gr_sb _ _ _ _ Hg). intros Hr. by apply (gr_used _ _ _ _ Hg), M2.
  - unfold data_range. rewrite (gr_sb _ _ _ _ Hg). exact M3.
  - intros q Hq Hn. destruct (decide (node s ip q = 0)) as [E|E]; [|rewrite (gr_keep _ _ _ _ Hg) by done; by apply M4].
    intros E'. pose proof (gr_fresh _ _ _ _ Hg q Hq E Hn) as Hfr. rewrite E' in Hfr. rewrite M2 in Hfr; [done|].
    pose proof (fb_range _ _ (tr_block _ _ (gr_tree _ _ _ _ Hg) q Hq Hn)) as Hr. rewrite E' in Hr.
    unfold data_range in *. by rewrite (gr_sb _ _ _ _ Hg) in Hr.
Qed.

(** [iupdate] rewrites its entry and nothing else. *)
Lemma length_store_dinode p o (d : block) : length (store_dinode p o d) = length d.
Proof using Type. unfold store_dinode, st16. by rewrite length_st32s, length_st32, !length_insert. Qed.

Lemma iupdate_spec s ip n :
  fits (dsk s) [] (S (S n)) → in_txn (dsk s) → i_dev (ino s ip) = 1 → ok_block (dsk s) (IBLOCK (i_inum (ino s ip)) (sb s)) →
  wp (iupdate ip) (λ _ s', ∃ d', s' = set_dsk d' s ∧ fits d' [] (S n) ∧ (∀ c, view d' c =
      if decide (c = IBLOCK (i_inum (ino s ip)) (sb s))
      then store_dinode (ino s ip) (dinode_off (i_inum (ino s ip))) (view (dsk s) c) else view (dsk s) c) ∧ same_txn (dsk s) d') s.
Proof using BL.
  intros Hf Ht Hd Hok. unfold iupdate. apply wp_bind, wp_gets, wp_bind, wp_gets. unfold id. rewrite Hd.
  wcall (fs_edit s [] n _ _ Hf Ht Hok); [simpl; set_solver|]. intros [] s' (d' & -> & F & V & T). exists d'. split_and!; try done.
  intros c. rewrite V. case_decide; [by subst|done].
Qed.

(** Everything but the disk and the cache entry [i] is kept. *)
Definition same_but (s s' : fstate D) (i : nat) : Prop :=
  sb s' = sb s ∧ f_pid s' = f_pid s ∧ f_tid s' = f_tid s ∧ cwd s' = cwd s ∧ ∀ j, j ≠ i → ino s' j = ino s j.

Lemma same_but_trans s1 s2 s3 i : same_but s1 s2 i → same_but s2 s3 i → same_but s1 s3 i.
Proof using Type.
  intros (A1 & A2 & A3 & A4 & A5) (B1 & B2 & B3 & B4 & B5). split_and!; try congruence. intros j Hj. by rewrite B5, A5.
Qed.

Lemma same_but_wi s i f : same_but s (set_icache (<[i := f (ino s i)]> (icache s)) s) i.
Proof using Type. split_and!; try done. intros j Hj. by rewrite (ino_wi s i f), decide_False. Qed.

(** [ilock] of an entry that is not valid reads it from the disk. *)
Lemma ilock_loads s i n (q := ino s i) (lk := set_i_lock (mkSleeplock 1 (f_pid s) (f_tid s)) q)
  (p := load_dinode (dinode_off (i_inum q)) (view (dsk s) (IBLOCK (i_inum q) (sb s))) lk) :
  fits (dsk s) [] (S n) → ok_block (dsk s) (IBLOCK (i_inum q) (sb s)) → i_type p ≠ 0 →
  i_dev q = 1 → i_valid q = 0 → 1 ≤ i_ref q → sl_locked (i_lock q) = 0 →
  wp (ilock (Some i)) (λ _ s', ino s' i = set_i_valid 1 p ∧ same_but s s' i ∧ fits (dsk s') [] (S n) ∧
    (∀ c, view (dsk s') c = view (dsk s) c) ∧ same_txn (dsk s) (dsk s')) s.
Proof using BL.
  intros Hf Hok Hty Hqd Hqv Hqr Hql.
  unfold ilock. apply wp_bind, wp_gets. fold q. destruct (Z.ltb_spec (i_ref q) 1); [lia|].
  apply wp_bind. unfold lock_inode. apply wp_bind, wp_gets. fold q. rewrite Hql. cbn [Z.eqb negb].
  apply wp_bind, wp_gets, wp_bind, wp_gets, wp_modify. set (s2 := set_icache _ _).
  assert (ino s2 i = lk) as E2 by (unfold s2; rewrite (ino_wi s i (set_i_lock _)); by rewrite decide_True).
  apply wp_bind, wp_gets. unfold id. rewrite E2. unfold lk at 1 2 3 4. cbn [i_valid set_i_lock i_inum i_dev]. rewrite Hqv, Hqd. cbn [Z.eqb when].
  apply wp_bind, wp_gets, wp_bind. wcall (fs_read s2 [] n _ Hf Hok); [simpl; set_solver|].
  intros k s3 (d3 & -> & F3 & V3 & T3). apply wp_bind. eapply wp_eq; [eapply fs_data; [exact F3|left]|].
  cbn [dsk set_dsk]. rewrite V3. cbn [dsk s2 set_icache set_dsk].
  apply wp_bind, wp_modify. set (s4 := set_icache _ _).
  assert (ino s4 i = p) as E4.
  { unfold s4. rewrite (ino_wi (set_dsk d3 s2) i (load_dinode _ _)), decide_True by done. change (ino (set_dsk d3 s2) i) with (ino s2 i). by rewrite E2. }
  apply wp_bind. wcall (fs_release s4 [] k _ n F3). intros [] s5 (d5 & -> & F5 & V5 & T5). apply wp_bind, wp_modify.
  set (s6 := set_icache _ _). assert (ino s6 i = set_i_valid 1 p) as E6
    by (unfold s6; rewrite (ino_wi (set_dsk d5 s4) i (set_i_valid 1)); rewrite decide_True by done; by rewrite <-E4).
  apply wp_bind, wp_gets. rewrite E6. cbn [i_type set_i_valid].
  rewrite (proj2 (Z.eqb_neq _ _)) by done. apply wp_ret. split_and!; [done| |done| |].
  - split_and!; try done. intros j Hj. unfold s6. rewrite (ino_wi (set_dsk d5 s4) i (set_i_valid 1)), decide_False by done. change (ino (set_dsk d5 s4) j) with (ino s4 j). unfold s4. rewrite (ino_wi (set_dsk d3 s2) i (load_dinode _ _)), decide_False by done.
    change (ino (set_dsk d3 s2) j) with (ino s2 j). unfold s2. by rewrite (ino_wi s i (set_i_lock _)), decide_False.
  - intros c. cbn [dsk s6 set_icache set_dsk]. rewrite V5. cbn [dsk s4 set_icache set_dsk]. by rewrite V3.
  - eapply same_txn_trans; [exact T3|exact T5].
Qed.

(** ** Writing *)

(** What a write of [src] at [off] leaves, [s] being the state before. *)
Record written (s s' : fstate D) (ip : nat) (off : Z) (src : list Z) : Prop := {
  wn_geo : geometry s';
  wn_tree : tree_ok s' ip;
  wn_meta : imeta s' ip;
  wn_file : ∀ o, 0 ≤ o < MAXOFF → file_at s' ip o =
    if decide (off ≤ o < off + Z.of_nat (length src)) then byte_at src (Z.to_nat (o - off)) else file_at s ip o;
  wn_mapped : ∀ o, off ≤ o < off + Z.of_nat (length src) → block_at s' ip o ≠ 0;
  wn_keep : ∀ q, valid q → node s ip q ≠ 0 → node s' ip q = node s ip q;
  wn_inode : same_but_addrs (ino s ip) (ino s' ip);
  wn_others : ∀ j, j ≠ ip → ino s' j = ino s j;
  wn_sb : sb s' = sb s;
  wn_txn : same_txn (dsk s) (dsk s')
}.

Lemma written_nil s ip off : geometry s → tree_ok s ip → imeta s ip → written s s ip off [].
Proof using Type.
  intros G T M. split; try done.
  - intros o _. rewrite decide_False; [done|]. simpl. lia.
  - intros o Ho. simpl in Ho. lia.
  - unfold same_but_addrs. by destruct (ino s ip).
Qed.

(** One round of the loop: [bytes] go to one block at [o]. *)
Lemma write_block_spec s ip o bytes k j (a := o mod 512) :
  geometry s → tree_ok s ip → imeta s ip → 0 ≤ o < MAXOFF → (Z.to_nat a + length bytes ≤ 512)%nat → (0 < length bytes)%nat →
  fits (dsk s) [] (S k + 13) → in_txn (dsk s) → has_free s (4 + j) →
  wp (addr ← bmap ip (o / 512); dev ← ri ip i_dev; bp ← on_d (blk_read dev addr);
      log_update bp (splice (Z.to_nat a) bytes);; on_d (blk_release bp))
    (λ _ s', written s s' ip o bytes ∧ fits (dsk s') [] (S k) ∧ has_free s' j) s.
Proof using BL.
  intros G T M Ho Hlen Hpos Hf Ht Hfree. pose proof (path_of_leaf _ (bn_range o Ho)) as [Hq Hql].
  apply wp_bind. wcall (bmap_spec s ip (o / 512) (S k) j G T (bn_range o Ho)); [by eapply fits_weaken; [exact Hf|lia]|done..|].
  intros x s1 (Hx & Hn & Hg & F1 & Hfr). subst x. fold (block_at s1 ip o) in *.
  pose proof (gr_tree _ _ _ _ Hg) as T1. pose proof (gr_geo _ _ _ _ Hg) as G1.
  destruct (tr_block _ _ T1 _ Hq Hx) as [B1 B2 B3 B4 B5]. fold (block_at s1 ip o) in *.
  apply wp_bind, wp_gets. rewrite (tr_dev _ _ T1).
  wcall (fs_edit s1 [] k (block_at s1 ip o) (splice (Z.to_nat a) bytes) F1); [by apply (gr_txn _ _ _ _ Hg)|done|simpl; set_solver|].
  intros [] s2 (d2 & -> & F2 & V2 & T2).
  set (v := splice (Z.to_nat a) bytes (view (dsk s1) (block_at s1 ip o))) in *.
  assert (length (view (dsk s1) (block_at s1 ip o)) = 512%nat) as Hl by by apply (g_len _ G1).
  assert (length v = BSIZE) as Hlv by (unfold v; by rewrite length_splice by lia).
  assert (∀ Q, valid Q → ¬ leaf Q → node s1 ip Q ≠ 0 → node s1 ip Q ≠ block_at s1 ip o) as Hin.
  { intros Q HQ HQl HQn E. apply HQl. rewrite (tr_inj _ _ T1 Q _ HQ Hq HQn E). done. }
  pose proof (store_used s1 d2 _ v B5 V2) as Hsu. pose proof (store_node s1 d2 ip _ v Hin Hlv V2) as Hsn.
  split_and!; [split|done|by eapply store_has_free].
  - by eapply store_geometry.
  - by eapply store_tree.
  - destruct (imeta_grown _ _ _ _ M Hg) as [M1 M2 M3 M4]. split; simpl; [by apply T2| |done|].
    + intros Hr. rewrite Hsu by done. by apply M2.
    + intros q Hvq. rewrite Hsn by done. by apply M4.
  - intros o' Ho'. rewrite (store_file_at s1 d2 ip _ v Hin Hlv V2) by done. rewrite <-(file_at_grown s s1 ip _ o' Hg Ho').
    destruct (decide (block_at s1 ip o' = block_at s1 ip o)) as [E|E].
    + assert (o' / 512 = o / 512) as Ed.
      { apply path_of_inj; [by apply bn_range..|]. pose proof (path_of_leaf _ (bn_range o' Ho')) as [Hq' _].
        apply (tr_inj _ _ T1); [done|done|change (block_at s1 ip o' ≠ 0); by rewrite E|exact E]. }
      rewrite decide_True by done. unfold v. rewrite byte_at_splice by lia. fold a. destruct (decide (o ≤ o' < _)) as [Hr|Hr].
      * rewrite decide_True by dlia. f_equal. dlia.
      * rewrite decide_False by dlia. unfold file_at. by rewrite decide_False, E by (by rewrite E).
    + rewrite decide_False by (by intros [? _]). rewrite decide_False; [done|]. intros Hr. apply E. unfold block_at. f_equal. f_equal. dlia.
  - intros o' Ho'. unfold block_at. assert (o' / 512 = o / 512) as -> by dlia. by rewrite Hsn.
  - intros q Hvq Hnq. rewrite Hsn by done. by apply (gr_keep _ _ _ _ Hg).
  - pose proof (gr_ino _ _ _ _ Hg ip) as Ei. by rewrite decide_True in Ei.
  - intros j' Hj'. pose proof (gr_ino _ _ _ _ Hg j') as Ei. by rewrite decide_False in Ei.
  - apply (gr_sb _ _ _ _ Hg).
  - eapply same_txn_trans; [apply Hg|exact T2].
Qed.

Lemma written_app s1 s2 s3 ip off l1 l2 :
  written s1 s2 ip off l1 → written s2 s3 ip (off + Z.of_nat (length l1)) l2 → 0 ≤ off → off + Z.of_nat (length (l1 ++ l2)) ≤ MAXOFF →
  written s1 s3 ip off (l1 ++ l2).
Proof using Type.
  intros A B Hoff Hmax. rewrite length_app in Hmax. split.
  - apply B.
  - apply B.
  - apply B.
  - intros o Ho. rewrite (wn_file _ _ _ _ _ B), (wn_file _ _ _ _ _ A) by done. rewrite length_app. unfold byte_at.
    repeat case_decide; try lia; try done.
    + rewrite app_nth2 by lia. f_equal. lia.
    + rewrite app_nth1 by lia. done.
  - intros o. rewrite length_app. intros Ho. destruct (decide (o < off + Z.of_nat (length l1))) as [Hlt|Hge].
    + unfold block_at. rewrite (wn_keep _ _ _ _ _ B); [apply (wn_mapped _ _ _ _ _ A); lia| |apply (wn_mapped _ _ _ _ _ A); lia].
      apply path_of_leaf, bn_range. lia.
    + apply (wn_mapped _ _ _ _ _ B). lia.
  - intros q Hq Hn. rewrite (wn_keep _ _ _ _ _ B), (wn_keep _ _ _ _ _ A); try done. by rewrite (wn_keep _ _ _ _ _ A).
  - pose proof (wn_inode _ _ _ _ _ A) as E1. pose proof (wn_inode _ _ _ _ _ B) as E2. unfold same_but_addrs in *.
    rewrite E2 at 1. rewrite E1. done.
  - intros j Hj. by rewrite (wn_others _ _ _ _ _ B), (wn_others _ _ _ _ _ A).
  - by rewrite (wn_sb _ _ _ _ _ B), (wn_sb _ _ _ _ _ A).
  - eapply same_txn_trans; [apply A|apply B].
Qed.

(** The blocks between two offsets. *)
Definition blocks_between (o e : Z) : nat := if Z.ltb o e then Z.to_nat ((e - 1) / 512 - o / 512 + 1) else 0.

Lemma blocks_between_step o e m : 0 ≤ o < e → m = Z.min (e - o) (512 - o mod 512) →
  blocks_between o e = S (blocks_between (o + m) e).
Proof using Type.
  intros Ho ->. unfold blocks_between. destruct (Z.ltb_spec o e); [|lia]. destruct (Z.ltb_spec (o + Z.min (e - o) (512 - o mod 512)) e).
  - assert (Z.min (e - o) (512 - o mod 512) = 512 - o mod 512) as E by lia. rewrite E in *.
    replace ((o + (512 - o mod 512)) / 512) with (o / 512 + 1) by dlia. dlia.
  - dlia.
Qed.

(** The loop of [writei]. *)
Lemma write_loop_spec s ip (src : list Z) off k j (n := Z.of_nat (length src)) :
  geometry s → tree_ok s ip → imeta s ip → 0 ≤ off → off + n ≤ MAXOFF → in_txn (dsk s) →
  fits (dsk s) [] (S k + 13 * blocks_between off (off + n)) → has_free s (4 * blocks_between off (off + n) + j) →
  wp (loop (S (Z.to_nat n)) (λ tot,
      if Z.ltb tot n then
        let off := off + tot in
        addr ← bmap ip (off / Z.of_nat BSIZE);
        dev ← ri ip i_dev;
        bp ← on_d (blk_read dev addr);
        let o := off mod Z.of_nat BSIZE in
        let m := Z.min (n - tot) (Z.of_nat BSIZE - o) in
        let bytes := take (Z.to_nat m) (drop (Z.to_nat tot) src) in
        log_update bp (splice (Z.to_nat o) bytes);;
        on_d (blk_release bp);;
        mret (inl (tot + m))
      else mret (inr (off + tot))) 0)
    (λ r s', r = off + n ∧ written s s' ip off src ∧ fits (dsk s') [] (S k) ∧ has_free s' j) s.
Proof using BL.
  intros G T M Hoff Hmax Ht Hf Hfree. change (Z.of_nat BSIZE) with 512.
  apply (wp_loop (λ c tot s', 0 ≤ tot ≤ n ∧ c = Z.to_nat (n - tot) ∧ written s s' ip off (take (Z.to_nat tot) src) ∧
      fits (dsk s') [] (S k + 13 * blocks_between (off + tot) (off + n)) ∧
      has_free s' (4 * blocks_between (off + tot) (off + n) + j))) with (n := Z.to_nat n).
  - intros c tot s1 (Htot & -> & W & F1 & Hfr). destruct (Z.ltb_spec tot n) as [Hlt|Hge]; cycle 1.
    { apply wp_ret. assert (tot = n) as -> by lia. rewrite take_ge in W by lia. split_and!; [done|done| |].
      - eapply fits_weaken; [exact F1|lia].
      - revert Hfr. unfold blocks_between. by rewrite Z.ltb_irrefl. }
    cbv zeta. set (o := off + tot) in *. set (m := Z.min (n - tot) (512 - o mod 512)).
    assert (0 < m ≤ n - tot ∧ o mod 512 + m ≤ 512) as [Hm1 Hm2] by (unfold m; dlia).
    set (bytes := take (Z.to_nat m) (drop (Z.to_nat tot) src)).
    assert (Z.of_nat (length bytes) = m) as Hlb by (unfold bytes; rewrite length_take, length_drop; lia).
    assert (blocks_between o (off + n) = S (blocks_between (o + m) (off + n))) as Enb.
    { apply blocks_between_step; [unfold o; lia|]. unfold m, o. f_equal. lia. }
    rewrite Enb in F1, Hfr. clearbody m.
    set (kk := (k + 13 * blocks_between (o + m) (off + n))%nat). set (jj := (4 * blocks_between (o + m) (off + n) + j)%nat).
    assert (wp (addr ← bmap ip (o / 512); dev ← ri ip i_dev; bp ← on_d (blk_read dev addr);
      log_update bp (splice (Z.to_nat (o mod 512)) bytes);; on_d (blk_release bp))
      (λ _ s', written s1 s' ip o bytes ∧ fits (dsk s') [] (S kk) ∧ has_free s' jj) s1) as Hw.
    { apply write_block_spec; try apply W; try (unfold o; lia); try dlia.
      - eapply fits_weaken; [exact F1|unfold kk; lia].
      - exact Ht.
      - by replace (4 + jj)%nat with (4 * S (blocks_between (o + m) (off + n)) + j)%nat by (unfold jj; lia). }
    apply wp_bind_inv in Hw. apply wp_bind. eapply wp_mono; [exact Hw|]. clear Hw. intros addr s2 Hw.
    apply wp_bind_inv in Hw. apply wp_bind. eapply wp_mono; [exact Hw|]. clear Hw. intros dev s3 Hw.
    apply wp_bind_inv in Hw. apply wp_bind. eapply wp_mono; [exact Hw|]. clear Hw. intros bp s4 Hw.
    apply wp_bind_inv in Hw. apply wp_bind. eapply wp_mono; [exact Hw|]. clear Hw. intros [] s5 Hw.
    apply wp_bind. eapply wp_mono; [exact Hw|]. clear Hw. intros [] s6 (W6 & F6 & Hfr6). apply wp_ret.
    exists (Z.to_nat (n - (tot + m))). split; [lia|]. unfold o in *. rewrite Z.add_assoc. split_and!; try done; try lia.
    replace (take (Z.to_nat (tot + m)) src) with (take (Z.to_nat tot) src ++ bytes).
    + assert (Z.of_nat (length (take (Z.to_nat tot) src)) = tot) as Hlt' by (rewrite length_take; lia).
      eapply written_app; [exact W|by rewrite Hlt'|done|]. rewrite length_app. lia.
    + unfold bytes. rewrite take_take_drop. f_equal. lia.
  - lia.
  - rewrite Z.add_0_r. split_and!; try done; try lia. by apply written_nil.
Qed.

(** Changing the size of an inode does not touch the map. *)
Lemma node_resize s ip z q : node (set_icache (<[ip := set_i_size z (ino s ip)]> (icache s)) s) ip q = node s ip q.
Proof using Type. unfold node. by rewrite (ino_wi s ip (set_i_size z)), decide_True. Qed.

Lemma tree_ok_resize s ip z : tree_ok s ip → tree_ok (set_icache (<[ip := set_i_size z (ino s ip)]> (icache s)) s) ip.
Proof using Type.
  intros [T1 T2 T3 T4]. split; rewrite ?(ino_wi s ip (set_i_size z)), ?decide_True by done; try done.
  - intros q Hq. rewrite node_resize. intros Hn. by destruct (T3 q Hq Hn).
  - intros q q' Hq Hq'. rewrite !node_resize. by apply T4.
Qed.

(** What [writei] promises. *)
Record file_written (s s' : fstate D) (ip : nat) (off : Z) (src : list Z) : Prop := {
  fw_geo : geometry s';
  fw_tree : tree_ok s' ip;
  fw_file : ∀ o, 0 ≤ o < MAXOFF → file_at s' ip o =
    if decide (off ≤ o < off + Z.of_nat (length src)) then byte_at src (Z.to_nat (o - off)) else file_at s ip o;
  fw_dense : dense s' ip;
  fw_size : i_size (ino s' ip) = Z.max (i_size (ino s ip)) (off + Z.of_nat (length src));
  fw_type : i_type (ino s' ip) = i_type (ino s ip);
  fw_txn : same_txn (dsk s) (dsk s');
  fw_cache : ∀ j, i_ref (ino s' j) = i_ref (ino s j) ∧ i_dev (ino s' j) = i_dev (ino s j) ∧ i_inum (ino s' j) = i_inum (ino s j)
}.

Lemma written_dense s s' ip off src z :
  written s s' ip off src → dense s ip → 0 ≤ off ≤ i_size (ino s ip) → z = Z.max (i_size (ino s ip)) (off + Z.of_nat (length src)) →
  ∀ o, 0 ≤ o < z → block_at s' ip o ≠ 0.
Proof using Type.
  intros W [Hz Hd] Hoff -> o Ho. destruct (decide (o < i_size (ino s ip))) as [Hlt|Hge].
  - unfold block_at. rewrite (wn_keep _ _ _ _ _ W); [apply Hd; lia| |apply Hd; lia]. apply path_of_leaf, bn_range. lia.
  - apply (wn_mapped _ _ _ _ _ W). lia.
Qed.

Lemma writei_spec dev_write s ip (src : list Z) off k j (n := Z.of_nat (length src)) :
  geometry s → tree_ok s ip → imeta s ip → dense s ip → i_type (ino s ip) ≠ T_DEV → 0 ≤ off ≤ i_size (ino s ip) →
  off + n ≤ MAXFILE * 512 → in_txn (dsk s) →
  fits (dsk s) [] (2 + k + 13 * blocks_between off (off + n)) → has_free s (4 * blocks_between off (off + n) + j) →
  wp (writei dev_write ip src off n) (λ r s', r = n ∧ file_written s s' ip off src ∧ fits (dsk s') [] (S k)) s.
Proof using BL.
  intros G T M Hd Hty Hoff Hmax Ht Hf Hfree. assert (MAXFILE = 36000) as EM by done. rewrite EM in Hmax.
  assert (off + n ≤ MAXOFF) as Hmo by (unfold MAXOFF, MAXBN; lia).
  unfold writei. apply wp_bind, wp_gets. unfold id. rewrite (proj2 (Z.eqb_neq _ _)) by done.
  rewrite u32_small by (unfold is_u32, two32; lia).
  destruct (Z.ltb_spec (i_size (ino s ip)) off); [lia|]. destruct (Z.ltb_spec (off + n) off); [lia|]. cbn [orb].
  rewrite EM. destruct (Z.ltb_spec (36000 * Z.of_nat BSIZE) (off + n)) as [Hbig|_]; [unfold BSIZE in Hbig; lia|].
  apply wp_bind. wcall (write_loop_spec s ip src off (S k) j G T M); try done; [lia|].
  intros e s1 (-> & W & F1 & _). fold n.
  pose proof (wn_inode _ _ _ _ _ W) as Ei. unfold same_but_addrs in Ei.
  assert (i_size (ino s1 ip) = i_size (ino s ip)) as Es by by rewrite Ei.
  assert (i_type (ino s1 ip) = i_type (ino s ip)) as Ey by by rewrite Ei.
  apply wp_bind, wp_gets. rewrite Es. apply wp_bind, wp_when.
  - intros [Hn0 Hgrow]%andb_true_iff. apply Z.ltb_lt in Hn0, Hgrow. apply wp_bind, wp_modify.
    set (s2 := set_icache _ _).
    assert (ino s2 ip = set_i_size (off + n) (ino s1 ip)) as E2 by (unfold s2; rewrite (ino_wi s1 ip (set_i_size (off + n))); by rewrite decide_True).
    pose proof (tree_ok_resize s1 ip (off + n) (wn_tree _ _ _ _ _ W)) as T2. fold s2 in T2.
    destruct (wn_meta _ _ _ _ _ W) as [M1 M2 M3 M4].
    wcall (iupdate_spec s2 ip k); [exact F1|by apply (wn_txn _ _ _ _ _ W)|apply T2|by rewrite E2|].
    intros [] s3 (d3 & -> & F3 & V3 & T3). rewrite E2 in V3. cbn [i_inum set_i_size sb s2 set_icache dsk] in V3.
    set (a := IBLOCK (i_inum (ino s1 ip)) (sb s1)) in *.
    assert (length (store_dinode (set_i_size (off + n) (ino s1 ip)) (dinode_off (i_inum (ino s1 ip))) (view (dsk s1) a)) = BSIZE) as Hlv
      by (rewrite length_store_dinode; by apply (g_len _ (wn_geo _ _ _ _ _ W))).
    set (v := store_dinode _ _ _) in Hlv.
    assert (∀ c, view d3 c = if decide (c = a) then v else view (dsk s2) c) as V3' by (intros c; rewrite V3; case_decide; [by subst|done]).
    assert (geometry s2) as G2 by (destruct (wn_geo _ _ _ _ _ W); by split).
    assert (∀ Q, valid Q → ¬ leaf Q → node s2 ip Q ≠ 0 → node s2 ip Q ≠ a) as Hin.
    { intros Q HQ _. unfold s2. rewrite node_resize. by apply M4. }
    apply wp_ret. split; [done|]. split; [|done]. split.
    + by apply (store_geometry s2 d3 a v).
    + by apply (store_tree s2 d3 ip a v).
    + intros o Ho. rewrite (store_file_at s2 d3 ip a v Hin Hlv V3') by done. rewrite <-(wn_file _ _ _ _ _ W) by done.
      assert (block_at s2 ip o = block_at s1 ip o) as Eb by apply node_resize.
      rewrite decide_False; [unfold file_at; by rewrite Eb|]. rewrite Eb. intros [E E0]. apply (M4 (path_of (o / 512))); try done.
      * apply path_of_leaf, bn_range, Ho.
      * unfold block_at in E. by rewrite E.
    + assert (i_size (ino (set_dsk d3 s2) ip) = off + n) as E3 by (change (ino (set_dsk d3 s2) ip) with (ino s2 ip); by rewrite E2).
      split; rewrite E3; [lia|]. intros o Ho. unfold block_at. rewrite (store_node s2 d3 ip a v Hin Hlv V3').
      * unfold s2. rewrite node_resize. eapply written_dense; try done. fold n. lia.
      * apply path_of_leaf, bn_range. lia.
    + change (ino (set_dsk d3 s2) ip) with (ino s2 ip). rewrite E2. simpl. fold n. lia.
    + change (ino (set_dsk d3 s2) ip) with (ino s2 ip). by rewrite E2.
    + eapply same_txn_trans; [apply W|exact T3].
    + intros i. change (ino (set_dsk d3 s2) i) with (ino s2 i). unfold s2. rewrite (ino_wi s1 ip (set_i_size (off + n))). case_decide as E; [subst i; simpl; by rewrite Ei|]. by rewrite (wn_others _ _ _ _ _ W).
  - intros Hno. apply wp_ret. split; [done|].
    assert (off + n ≤ i_size (ino s ip)) as Hle.
    { apply andb_false_iff in Hno as [Hx|Hx]; apply Z.ltb_ge in Hx; lia. }
    split; [|by eapply fits_weaken; [exact F1|lia]]. split; try apply W.
    + split; rewrite Es; [apply Hd|]. intros o Ho. eapply written_dense; try done. fold n. lia.
    + rewrite Es. fold n. lia.
    + done.
    + intros i. destruct (decide (i = ip)) as [->|E]; [by rewrite Ei|]. by rewrite (wn_others _ _ _ _ _ W).
Qed.
End file.

Close Scope Z_scope.
