(* ===== verification/FsInode.v ===== *)
(** * Inodes on disk ([iupdate], [ilock] of [src/xv6-public/fs.c])

    The sixty-four bytes of an on-disk inode hold exactly what the cached
    inode holds, and writing one entry leaves its neighbours alone. *)

From S2P Require Import Prelude.
From S2P Require Import Words.
From S2P Require Import Bio.
From S2P Require Import BlockStore.
From S2P Require Import Fs.

Open Scope Z_scope.

Definition is_s16 (z : Z) : Prop := -32768 ≤ z < 32768.

(** The fields fit the types of [struct dinode]. *)
Record dinode_fits (p : inode) : Prop := {
  df_type : is_s16 (i_type p);
  df_major : is_s16 (i_major p);
  df_minor : is_s16 (i_minor p);
  df_nlink : is_s16 (i_nlink p);
  df_size : is_u32 (i_size p);
  df_addrs : length (i_addrs p) = (NDIRECT + 3)%nat ∧ Forall is_u32 (i_addrs p)
}.

Lemma s16_mod z : is_s16 z → s16 (z mod 65536) = z.
Proof. unfold is_s16, s16. intros Hz. rewrite Zplus_mod_idemp_l, Z.mod_small; lia. Qed.

(** The cached inode [q] with the on-disk fields of [p]. *)
Definition with_fields (p q : inode) : inode :=
  mkInode (i_dev q) (i_inum q) (i_ref q) (i_lock q) (i_valid q)
    (i_type p) (i_major p) (i_minor p) (i_nlink p) (i_size p) (i_addrs p).

Lemma store_dinode_out p o d j :
  length (i_addrs p) = (NDIRECT + 3)%nat → (o + 64 ≤ length d)%nat → (j < o ∨ o + 64 ≤ j)%nat →
  byte_at (store_dinode p o d) j = byte_at d j.
Proof.
  intros Ha Hl Hj. unfold store_dinode. unfold NDIRECT in Ha.
  rewrite byte_at_st32s_ne, byte_at_st32, !byte_at_st16 by (rewrite ?length_st32, ?length_st16; lia).
  by repeat (case_decide; try lia).
Qed.

Lemma load_store_dinode p q o d :
  dinode_fits p → (o + 64 ≤ length d)%nat → load_dinode o (store_dinode p o d) q = with_fields p q.
Proof.
  intros [H1 H2 H3 H4 H5 [Ha Hf]] Hl. unfold NDIRECT in Ha.
  assert (∀ j, (j < o + 12)%nat → byte_at (store_dinode p o d) j =
    byte_at (st32 (st16 (st16 (st16 (st16 d o (i_type p)) (o + 2) (i_major p)) (o + 4) (i_minor p)) (o + 6) (i_nlink p)) (o + 8) (i_size p)) j) as Hlow.
  { intros j Hj. unfold store_dinode. apply byte_at_st32s_ne; [rewrite length_st32, !length_st16; lia|lia]. }
  assert (∀ j v, (j = o ∧ v = i_type p ∨ j = o + 2 ∧ v = i_major p ∨ j = o + 4 ∧ v = i_minor p ∨ j = o + 6 ∧ v = i_nlink p)%nat →
    is_s16 v → s16 (ld16 (store_dinode p o d) j) = v) as H16.
  { intros j v Hj Hv. rewrite <-(s16_mod v Hv). f_equal. unfold ld16. rewrite !Hlow by lia.
    rewrite !byte_at_st32, !byte_at_st16 by (rewrite ?length_st16; lia).
    change 65536 with (256 * 256). rewrite Z.rem_mul_r by lia.
    repeat (case_decide; try lia); f_equal; f_equal; lia || (destruct Hj as [[??]|[[??]|[[??]|[??]]]]; subst; lia || done). }
  unfold load_dinode, with_fields. f_equal; try (apply H16; [tauto|done]).
  - rewrite (ld32_ext (st32 (st16 (st16 (st16 (st16 d o (i_type p)) (o + 2) (i_major p)) (o + 4) (i_minor p)) (o + 6) (i_nlink p)) (o + 8) (i_size p))).
    + rewrite ld32_st32_eq by (rewrite !length_st16; lia). by apply u32_small.
    + intros k Hk. apply Hlow. lia.
  - apply list_eq. intros k. rewrite list_lookup_fmap. destruct (decide (k < 13)%nat) as [Hk|Hk].
    + rewrite lookup_seq_lt by done. cbn [fmap option_fmap option_map Nat.add]. destruct (lookup_lt_is_Some_2 (i_addrs p) k) as [v Hv]; [lia|].
      rewrite Hv. f_equal. unfold store_dinode. erewrite ld32_st32s; [|rewrite length_st32, !length_st16; lia|exact Hv].
      apply u32_small. by eapply Forall_lookup_1.
    + rewrite lookup_seq_ge by (unfold NDIRECT; lia). symmetry. apply lookup_ge_None. lia.
Qed.

(** Another entry of the block. *)
Lemma load_dinode_out p o o' d z :
  length (i_addrs p) = (NDIRECT + 3)%nat → (o + 64 ≤ length d)%nat → (o' + 64 ≤ o ∨ o + 64 ≤ o')%nat →
  load_dinode o' (store_dinode p o d) z = load_dinode o' d z.
Proof.
  intros Ha Hl Hne. assert (∀ j, (o' ≤ j < o' + 64)%nat → byte_at (store_dinode p o d) j = byte_at d j) as Hb.
  { intros j Hj. apply store_dinode_out; [done|done|lia]. }
  unfold load_dinode. f_equal; try (f_equal; apply ld16_ext; apply Hb; lia).
  - apply ld32_ext. intros k Hk. apply Hb. lia.
  - apply list_fmap_ext. intros i k Hk. apply lookup_seq in Hk as [-> Hk]. unfold NDIRECT in Hk. apply ld32_ext. intros k Hk'. apply Hb. lia.
Qed.

Close Scope Z_scope.
