(* ===== verification/FsDir.v ===== *)
(** * Directories ([iget], [namecmp], [dirlookup], [dirlink] of
    [src/xv6-public/fs.c])

    A directory as the list of its entries, which [dirlookup] searches and
    [dirlink] extends, and the inode cache as the set of the inodes in use. *)

From S2P Require Import Prelude.
From S2P Require Import Words.
From S2P Require Import Strings.
From S2P Require Import Bio.
From S2P Require Import BlockStore.
From S2P Require Import Fs.
From S2P Require Import FsAlloc.
From S2P Require Import FsMap.
From S2P Require Import FsFile.

Open Scope Z_scope.

Section dir.
Context {D : Type} {BO : BlockOps D} {BM : BlockModel D} {BL : BlockLaws D}.
Implicit Types (s : fstate D) (d : D).

(** ** The inode cache *)

(** Entry [i] holds inode [inum] of [dev]. *)
Definition cached (s : fstate D) (dev inum : Z) (i : nat) : Prop :=
  (i < NINODE)%nat ∧ 0 < i_ref (ino s i) ∧ i_dev (ino s i) = dev ∧ i_inum (ino s i) = inum.
#[global] Instance cached_dec s dev inum i : Decision (cached s dev inum i).
Proof. unfold cached. apply _. Defined.

(** No inode is in the cache twice. *)
Definition icache_unique (s : fstate D) : Prop := ∀ dev inum i j, cached s dev inum i → cached s dev inum j → i = j.

(** [iget] has room: the inode is there, or an entry is free. *)
Definition has_slot (s : fstate D) (dev inum : Z) : Prop :=
  ∃ i, (i < NINODE)%nat ∧ (cached s dev inum i ∨ i_ref (ino s i) = 0).

(** The entry [i] after [iget]. *)
Definition got (s : fstate D) (dev inum : Z) (i : nat) : inode :=
  let p := ino s i in
  if decide (cached s dev inum i) then set_i_ref (i_ref p + 1) p
  else mkInode dev inum 1 (i_lock p) 0 (i_type p) (i_major p) (i_minor p) (i_nlink p) (i_size p) (i_addrs p).

Definition is_got (s s' : fstate D) (dev inum : Z) (i : nat) : Prop :=
  s' = set_icache (<[i := got s dev inum i]> (icache s)) s ∧ (i < NINODE)%nat ∧
  (cached s dev inum i ∨ (∀ j, ¬ cached s dev inum j) ∧ i_ref (ino s i) = 0).

Lemma iget_spec s dev inum : has_slot s dev inum → wp (iget dev inum) (λ i s', is_got s s' dev inum i) s.
Proof using Type.
  intros (i0 & Hi0 & Hslot). unfold iget. apply wp_bind.
  eapply wp_mono; [eapply (wp_loop (λ n '(i, empty) s1, s1 = s ∧ n = (NINODE - i)%nat ∧ (i ≤ NINODE)%nat ∧ (∀ j, (j < i)%nat → ¬ cached s dev inum j) ∧
      match empty with None => ∀ j, (j < i)%nat → i_ref (ino s j) ≠ 0 | Some e => (e < NINODE)%nat ∧ i_ref (ino s e) = 0 end)) with (n := NINODE)
    (Q := λ r s', match r with
      | inl i => is_got s s' dev inum i
      | inr e => s' = s ∧ (∀ j, ¬ cached s dev inum j) ∧ match e with None => False | Some e => (e < NINODE)%nat ∧ i_ref (ino s e) = 0 end
      end)|].
  - intros n [i empty] s1 (-> & -> & Hi & Hno & He). destruct (Nat.ltb_spec i NINODE) as [Hlt|Hge].
    + apply wp_bind, wp_gets. unfold id. set (p := ino s i). destruct (Z.ltb 0 (i_ref p) && Z.eqb (i_dev p) dev && Z.eqb (i_inum p) inum) eqn:Et.
      * apply andb_true_iff in Et as [[E1%Z.ltb_lt E2%Z.eqb_eq]%andb_true_iff E3%Z.eqb_eq]. assert (cached s dev inum i) as Hc by done.
        apply wp_bind, wp_modify, wp_ret. split; [|by split; [|left]]. unfold got. by rewrite decide_True.
      * apply wp_ret. exists (NINODE - S i)%nat. split; [lia|]. split_and!; [done|done|lia| |].
        -- intros j Hj Hc. destruct (decide (j = i)) as [->|]; [|by apply (Hno j); [lia|]]. destruct Hc as (_ & H1 & H2 & H3). fold p in H1, H2, H3.
           rewrite (proj2 (Z.ltb_lt _ _) H1), (proj2 (Z.eqb_eq _ _) H2), (proj2 (Z.eqb_eq _ _) H3) in Et. done.
        -- destruct empty as [e|]; [done|]. destruct (Z.eqb_spec (i_ref p) 0) as [E|E]; [by split|]. intros j Hj. destruct (decide (j = i)) as [->|]; [done|]. apply He. lia.
    + apply wp_ret. split; [done|]. split; [intros j Hc; apply (Hno j); [destruct Hc; lia|done]|]. destruct empty as [e|]; [done|].
      destruct Hslot as [Hc|Hr]; [by apply (Hno i0); [lia|]|by apply (He i0); [lia|]].
  - lia.
  - split_and!; [done|lia|lia|intros j Hj; lia|intros j Hj; lia].
  - intros [i|[e|]] s1; [intros H; by apply wp_ret| |by intros (_ & _ & [])]. intros (-> & Hno & He & Hr). apply wp_bind, wp_modify, wp_ret.
    split; [|split; [done|by right]]. unfold got. by rewrite decide_False.
Qed.

(** What [iget] promises: a counted entry for the inode, no other entry
    changed, no inode twice. *)
Lemma is_got_ino s s' dev inum i : is_got s s' dev inum i → ∀ j, ino s' j = if decide (j = i) then got s dev inum i else ino s j.
Proof using Type. intros [-> _] j. unfold ino. simpl. case_decide as E; [subst; by rewrite lookup_insert_eq|by rewrite lookup_insert_ne]. Qed.

Lemma is_got_cached s s' dev inum i : is_got s s' dev inum i → cached s' dev inum i.
Proof using Type.
  intros G. pose proof (is_got_ino _ _ _ _ _ G i) as E. rewrite decide_True in E by done. destruct G as (_ & Hi & Hc). unfold cached. rewrite E. unfold got. case_decide as Hd; simpl; [|split_and!; done || lia].
  destruct Hd as (_ & H1 & H2 & H3). split_and!; done || lia.
Qed.

Lemma is_got_unique s s' dev inum i : is_got s s' dev inum i → icache_unique s → icache_unique s'.
Proof using Type.
  intros G U. pose proof (is_got_ino _ _ _ _ _ G) as E. destruct G as (_ & Hi & Hc).
  assert (∀ dv n j, cached s' dv n j → j = i ∧ dv = dev ∧ n = inum ∨ j ≠ i ∧ cached s dv n j) as Hold.
  { intros dv n j (H0 & H1 & H2 & H3). rewrite E in H1, H2, H3. destruct (decide (j = i)) as [->|Hne]; [left|right; by split]. unfold got in H1, H2, H3.
    destruct (decide (cached s dev inum i)) as [(_ & _ & K1 & K2)|]; simpl in *; by subst. }
  assert (∀ j, j ≠ i → ¬ cached s dev inum j) as Hno by (intros j Hne Hj; destruct Hc as [Hc|[Hc _]]; [by apply Hne, (U dev inum)|by apply (Hc j)]).
  intros dv n j k Hj Hk. destruct (Hold _ _ _ Hj) as [(-> & -> & ->)|[Hji Hj']], (Hold _ _ _ Hk) as [(-> & Ed & En)|[Hki Hk']]; [done|by destruct (Hno k)|subst; by destruct (Hno j)|by eapply U].
Qed.

(** Giving up a locked inode that has links. *)
Lemma iunlockput_spec s i (p := ino s i) :
  i_lock p = mkSleeplock 1 (f_pid s) (f_tid s) → 1 ≤ i_ref p → i_nlink p ≠ 0 →
  wp (iunlockput i) (λ _ s', dsk s' = dsk s ∧ same_but s s' i ∧ i_ref (ino s' i) = i_ref p - 1) s.
Proof using Type.
  intros Hl Hr Hn. unfold iunlockput, iunlock, holding_inode. apply wp_bind, wp_bind, wp_bind, wp_gets, wp_bind, wp_gets, wp_bind, wp_gets, wp_ret, wp_bind, wp_gets. fold p. rewrite Hl. cbn [sl_locked sl_pid sl_tid]. rewrite !Z.eqb_refl. cbn [Z.eqb negb andb orb].
  destruct (Z.ltb_spec (i_ref p) 1); [lia|]. apply wp_modify. set (s1 := set_icache _ s).
  assert (∀ j, ino s1 j = if decide (j = i) then set_i_lock (mkSleeplock 0 0 (sl_tid (i_lock p))) p else ino s j) as E1 by (intros j; apply (ino_wi s i (λ p, set_i_lock (mkSleeplock 0 0 (sl_tid (i_lock p))) p))).
  unfold iput, lock_inode. apply wp_bind, wp_bind, wp_gets. rewrite E1, decide_True by done. cbn [i_lock set_i_lock sl_locked Z.eqb negb]. apply wp_bind, wp_gets, wp_bind, wp_gets, wp_modify. set (s2 := set_icache _ s1).
  assert (∀ j, ino s2 j = if decide (j = i) then set_i_lock (mkSleeplock 1 (f_pid s1) (f_tid s1)) (ino s1 i) else ino s1 j) as E2 by (intros j; apply (ino_wi s1 i (set_i_lock _))).
  apply wp_bind, wp_gets. unfold id. rewrite E2, decide_True by done. rewrite E1, decide_True by done. cbn [i_nlink i_valid set_i_lock]. rewrite (proj2 (Z.eqb_neq (i_nlink p) 0)), andb_false_r by done. cbn [when].
  apply wp_bind, wp_ret, wp_bind, wp_modify. set (s3 := set_icache _ s2).
  assert (∀ j, ino s3 j = if decide (j = i) then set_i_lock (mkSleeplock 0 0 (sl_tid (i_lock (ino s2 i)))) (ino s2 i) else ino s2 j) as E3 by (intros j; apply (ino_wi s2 i (λ p, set_i_lock (mkSleeplock 0 0 (sl_tid (i_lock p))) p))).
  apply wp_modify. set (s4 := set_icache _ s3).
  assert (∀ j, ino s4 j = if decide (j = i) then set_i_ref (i_ref (ino s3 i) - 1) (ino s3 i) else ino s3 j) as E4 by (intros j; apply (ino_wi s3 i (λ p, set_i_ref (i_ref p - 1) p))).
  split_and!; [done| |].
  - split_and!; try done. intros j Hj. by rewrite E4, decide_False, E3, decide_False, E2, decide_False, E1, decide_False.
  - rewrite E4, decide_True by done. cbn [i_ref set_i_ref]. rewrite E3, decide_True by done. cbn [i_ref set_i_lock]. rewrite E2, decide_True by done. cbn [i_ref set_i_lock]. by rewrite E1, decide_True.
Qed.

(** ** Entries *)

(** A directory entry: the inode number and the name, up to its end. *)
Definition entry_of (b : list Z) : Z * list Z := (de_inum b, take DIRSIZ (cstr (de_name b))).
Definition entry_at (s : fstate D) (dp : nat) (k : nat) : Z * list Z := entry_of (contents s dp (16 * Z.of_nat k) 16).
Definition nentries (s : fstate D) (dp : nat) : nat := Z.to_nat (i_size (ino s dp) / 16).
Definition dir_entries (s : fstate D) (dp : nat) : list (Z * list Z) := entry_at s dp <$> seq 0 (nentries s dp).

(** The entry is in use and has the name. *)
Definition names (name : list Z) (e : Z * list Z) : Prop := e.1 ≠ 0 ∧ e.2 = take DIRSIZ (cstr name).
#[global] Instance names_dec name e : Decision (names name e).
Proof. unfold names. apply _. Defined.
Definition unused (e : Z * list Z) : Prop := e.1 = 0.
#[global] Instance unused_dec e : Decision (unused e).
Proof. unfold unused. apply _. Defined.

Record is_dir (s : fstate D) (dp : nat) : Prop := {
  id_geo : geometry s;
  id_tree : tree_ok s dp;
  id_dense : dense s dp;
  id_type : i_type (ino s dp) = T_DIR;
  id_size : i_size (ino s dp) mod 16 = 0
}.

Lemma namecmp_spec s name t Q : cstr_in DIRSIZ name → length t = DIRSIZ →
  (∀ c, (c = 0 ↔ take DIRSIZ (cstr name) = take DIRSIZ (cstr t)) → Q c s) → wp (namecmp name t) Q s.
Proof using Type.
  intros Hn Ht HQ. unfold namecmp. set (m := write_bytes _ t _).
  destruct (strncmp_run DIRSIZ m 0 (Z.of_nat (length name)) name t) as (r & Hr & Hr0); [| |done|right; lia|].
  - intros i x Hx. pose proof (lookup_lt_Some _ _ _ Hx). unfold m. rewrite write_bytes_lookup, decide_False by lia. by apply write_bytes_at.
  - apply write_bytes_at.
  - rewrite Hr. by apply wp_ret, HQ.
Qed.

Lemma length_contents s dp off n : length (contents s dp off n) = n.
Proof using Type. unfold contents. by rewrite length_fmap, length_seq. Qed.

Lemma contents_same s d' dp off n : (∀ c, view d' c = view (dsk s) c) → contents (set_dsk d' s) dp off n = contents s dp off n.
Proof using Type. intros V. unfold contents. apply list_fmap_ext. intros i k _. by apply file_at_ext. Qed.

(** Directories are read one entry at a time. *)
Lemma read_entry dev_read s dp k n : is_dir s dp → (k < nentries s dp)%nat → fits (dsk s) [] (S n) →
  wp (readi dev_read dp (16 * Z.of_nat k) 16) (λ r s', r = (16, contents s dp (16 * Z.of_nat k) 16) ∧
    ∃ d', s' = set_dsk d' s ∧ fits d' [] (S n) ∧ (∀ c, view d' c = view (dsk s) c) ∧ same_txn (dsk s) d') s.
Proof using BL.
  intros [G T Dn Ty Sz] Hk Hf. unfold nentries in Hk. pose proof Dn as [Hr _]. unfold MAXOFF, MAXBN in Hr.
  assert (16 * Z.of_nat k + 16 ≤ i_size (ino s dp)) as Hle by (clear -Hk Sz Hr; dlia).
  assert (T_DIR ≠ T_DEV) as Ht by done. wcall (readi_spec dev_read s dp (16 * Z.of_nat k) 16 n G T Dn); [by rewrite Ty|lia|lia|unfold two32; lia|exact Hf|].
  intros r s' (-> & H). split; [|exact H]. by rewrite Z.min_l by lia.
Qed.

Lemma is_dir_same s d' dp : is_dir s dp → (∀ c, view d' c = view (dsk s) c) → same_txn (dsk s) d' → is_dir (set_dsk d' s) dp.
Proof using Type.
  intros [G T [D1 D2] Ty Sz] V X. split; [by apply geometry_ext|by apply tree_ok_ext| |done|done]. split; [done|]. intros o Ho. unfold block_at. rewrite node_ext by done. by apply D2.
Qed.

Lemma imeta_same s d' dp : imeta s dp → (∀ c, view d' c = view (dsk s) c) → same_txn (dsk s) d' → imeta (set_dsk d' s) dp.
Proof using Type.
  intros [M1 M2 M3 M4] V X. split; [by apply X| |done|].
  - intros Hr. rewrite used_ext by done. by apply M2.
  - intros q Hq. rewrite node_ext by done. by apply M4.
Qed.

(** The search, which both loops are: [stop] is where it ends. *)
Definition no_match (P : Z * list Z → Prop) (s : fstate D) (dp : nat) (k : nat) : Prop := ∀ j, (j < k)%nat → ¬ P (entry_at s dp j).

Lemma no_match_S P s dp k : no_match P s dp k → ¬ P (entry_at s dp k) → no_match P s dp (S k).
Proof using Type. intros H Hk j Hj. destruct (decide (j = k)) as [->|]; [done|]. apply H. lia. Qed.

Lemma find_at (P : Z * list Z → Prop) `{!∀ e, Decision (P e)} s dp k : no_match P s dp k → (k < nentries s dp)%nat → P (entry_at s dp k) →
  list_find P (dir_entries s dp) = Some (k, entry_at s dp k).
Proof using Type.
  intros Hno Hk HP. apply list_find_Some. unfold dir_entries. split_and!; [by rewrite list_lookup_fmap, lookup_seq_lt by done|done|].
  intros j y Hy Hj. rewrite list_lookup_fmap, lookup_seq_lt in Hy by lia. simpl in Hy. injection Hy as <-. by apply Hno.
Qed.

Lemma find_none (P : Z * list Z → Prop) `{!∀ e, Decision (P e)} s dp : no_match P s dp (nentries s dp) → list_find P (dir_entries s dp) = None.
Proof using Type.
  intros Hno. apply list_find_None, Forall_forall. intros e (k & -> & Hk%elem_of_seq)%list_elem_of_fmap. apply Hno. lia.
Qed.

Lemma dirlookup_spec dev_read s dp name n : is_dir s dp → cstr_in DIRSIZ name → fits (dsk s) [] (S n) → (∀ inum, has_slot s 1 inum) →
  wp (dirlookup dev_read dp name) (λ r s', ∃ d1, fits d1 [] (S n) ∧ (∀ c, view d1 c = view (dsk s) c) ∧ same_txn (dsk s) d1 ∧
    match list_find (names name) (dir_entries s dp) with
    | None => r = None ∧ s' = set_dsk d1 s
    | Some (k, e) => ∃ i, r = Some (i, 16 * Z.of_nat k) ∧ is_got (set_dsk d1 s) s' 1 e.1 i
    end) s.
Proof using BL.
  intros Hd Hn Hf Hslot. unfold dirlookup. apply wp_bind, wp_gets. unfold id. rewrite (id_type _ _ Hd), Z.eqb_refl. cbn [negb].
  assert (0 ≤ i_size (ino s dp)) as Hsz by apply (id_dense _ _ Hd). pose proof (id_size _ _ Hd) as Hm.
  eapply (wp_loop (λ m off s1, ∃ k d1, off = 16 * Z.of_nat k ∧ m = (nentries s dp + 1 - k)%nat ∧ (k ≤ nentries s dp)%nat ∧ s1 = set_dsk d1 s ∧ no_match (names name) s dp k ∧
      fits d1 [] (S n) ∧ (∀ c, view d1 c = view (dsk s) c) ∧ same_txn (dsk s) d1)) with (n := (nentries s dp + 1)%nat).
  - intros m off s1 (k & d1 & -> & -> & Hk & -> & Hno & F1 & V1 & T1). apply wp_bind, wp_gets. change (ino (set_dsk d1 s) dp) with (ino s dp).
    destruct (Z.ltb_spec (16 * Z.of_nat k) (i_size (ino s dp))) as [Hlt|Hge].
    + assert (k < nentries s dp)%nat as Hk' by (unfold nentries; clear -Hlt Hm; dlia). pose proof (is_dir_same _ _ _ Hd V1 T1) as Hd1.
      apply wp_bind. wcall (read_entry dev_read (set_dsk d1 s) dp k n Hd1 Hk' F1). intros r s2 (-> & d2 & -> & F2 & V2 & T2). rewrite (contents_same s d1) by done. cbn [fst snd]. rewrite Z.eqb_refl. cbn [negb].
      set (b := contents s dp (16 * Z.of_nat k) 16). assert (length (de_name b) = DIRSIZ) as Hl by (unfold de_name; rewrite length_take, length_drop; unfold b; by rewrite length_contents).
      assert (∀ c, view d2 c = view (dsk s) c) as V3 by (intros c; by rewrite V2). pose proof (same_txn_trans _ _ _ T1 T2) as T3. change (set_dsk d2 (set_dsk d1 s)) with (set_dsk d2 s).
      assert (¬ names name (entry_at s dp k) → ∃ m' : nat, (m' < nentries s dp + 1 - k)%nat ∧ ∃ k' d3, 16 * Z.of_nat k + 16 = 16 * Z.of_nat k' ∧ m' = (nentries s dp + 1 - k')%nat ∧ (k' ≤ nentries s dp)%nat ∧
        set_dsk d2 s = set_dsk d3 s ∧ no_match (names name) s dp k' ∧ fits d3 [] (S n) ∧ (∀ c, view d3 c = view (dsk s) c) ∧ same_txn (dsk s) d3) as Hnext.
      { intros Hne. exists (nentries s dp + 1 - S k)%nat. split; [lia|]. exists (S k), d2. split_and!; try done; try lia. by apply no_match_S. }
      destruct (Z.eqb_spec (de_inum b) 0) as [E0|E0]; [apply wp_ret, Hnext; by intros [Hx _]|].
      apply wp_bind, (namecmp_spec _ _ _ _ Hn Hl). intros c Hc. destruct (Z.eqb_spec c 0) as [Ec|Ec].
      * apply Hc in Ec. assert (names name (entry_at s dp k)) as Hnm by (split; [exact E0|exact (eq_sym Ec)]).
        apply wp_bind, wp_gets. change (ino (set_dsk d2 s) dp) with (ino s dp). rewrite (tr_dev _ _ (id_tree _ _ Hd)). apply wp_bind. wcall (iget_spec (set_dsk d2 s) 1 (de_inum b) (Hslot _)). intros i s3 G3. apply wp_ret.
        exists d2. split_and!; [done..|]. rewrite (find_at _ s dp k Hno Hk' Hnm). exists i. done.
      * apply wp_ret, Hnext. intros [_ Hx]. apply Ec, Hc. exact (eq_sym Hx).
    + apply wp_ret. exists d1. split_and!; [done..|]. rewrite find_none; [done|]. replace (nentries s dp) with k; [done|]. unfold nentries in *. clear -Hge Hk Hm Hsz. dlia.
  - unfold nentries. clear -Hsz. lia.
  - exists 0%nat, (dsk s). split_and!; [done|lia|lia|by destruct s|intros j Hj; lia|done|done|done].
Qed.

(** ** A new entry *)

(** It takes the first entry that is not used, or comes behind the last. *)
Definition add_entry (e : Z * list Z) (es : list (Z * list Z)) : list (Z * list Z) :=
  match list_find unused es with Some (k, _) => <[k := e]> es | None => es ++ [e] end.

Definition dirent_bytes (inum : Z) (name : list Z) : list Z := [u16 inum mod 256; u16 inum / 256] ++ strncpy_bytes DIRSIZ name.

Lemma entry_dirent inum name : entry_of (dirent_bytes inum name) = (u16 inum, take DIRSIZ (cstr name)).
Proof using Type.
  unfold entry_of, dirent_bytes. f_equal.
  - unfold de_inum, ld16, byte_at. simpl. unfold u16. clear. dlia.
  - unfold de_name. cbn [app drop]. rewrite (take_ge (strncpy_bytes DIRSIZ name)) by (by rewrite length_strncpy_bytes). rewrite cstr_strncpy_bytes, take_take. by rewrite Nat.min_id.
Qed.

(** The unused entry that [dirlink] looks for. *)
Lemma dirlink_scan dev_read s dp n : is_dir s dp → fits (dsk s) [] (S n) →
  wp (loop (Z.to_nat (i_size (ino s dp) / 16) + 2) (λ off,
        size ← ri dp i_size;
        if Z.ltb off size then
          r ← readi dev_read dp off 16;
          if negb (Z.eqb r.1 16) then panic "dirlink read"
          else if Z.eqb (de_inum r.2) 0 then mret (inr off)
          else mret (inl (off + 16))
        else mret (inr off)) 0)
    (λ off s', ∃ k d1, off = 16 * Z.of_nat k ∧ s' = set_dsk d1 s ∧ (k ≤ nentries s dp)%nat ∧ no_match unused s dp k ∧ ((k < nentries s dp)%nat → unused (entry_at s dp k)) ∧
      fits d1 [] (S n) ∧ (∀ c, view d1 c = view (dsk s) c) ∧ same_txn (dsk s) d1) s.
Proof using BL.
  intros Hd Hf. assert (0 ≤ i_size (ino s dp)) as Hsz by apply (id_dense _ _ Hd). pose proof (id_size _ _ Hd) as Hm.
  eapply (wp_loop (λ m off s1, ∃ k d1, off = 16 * Z.of_nat k ∧ m = (nentries s dp + 1 - k)%nat ∧ (k ≤ nentries s dp)%nat ∧ s1 = set_dsk d1 s ∧ no_match unused s dp k ∧
      fits d1 [] (S n) ∧ (∀ c, view d1 c = view (dsk s) c) ∧ same_txn (dsk s) d1)) with (n := (nentries s dp + 1)%nat).
  - intros m off s1 (k & d1 & -> & -> & Hk & -> & Hno & F1 & V1 & T1). apply wp_bind, wp_gets. change (ino (set_dsk d1 s) dp) with (ino s dp).
    destruct (Z.ltb_spec (16 * Z.of_nat k) (i_size (ino s dp))) as [Hlt|Hge].
    + assert (k < nentries s dp)%nat as Hk' by (unfold nentries; clear -Hlt Hm; dlia). pose proof (is_dir_same _ _ _ Hd V1 T1) as Hd1.
      apply wp_bind. wcall (read_entry dev_read (set_dsk d1 s) dp k n Hd1 Hk' F1). intros r s2 (-> & d2 & -> & F2 & V2 & T2). rewrite (contents_same s d1) by done. cbn [fst snd]. rewrite Z.eqb_refl. cbn [negb].
      assert (∀ c, view d2 c = view (dsk s) c) as V3 by (intros c; by rewrite V2). pose proof (same_txn_trans _ _ _ T1 T2) as T3. change (set_dsk d2 (set_dsk d1 s)) with (set_dsk d2 s).
      destruct (Z.eqb_spec (de_inum (contents s dp (16 * Z.of_nat k) 16)) 0) as [E0|E0]; apply wp_ret.
      * exists k, d2. split_and!; done.
      * exists (nentries s dp + 1 - S k)%nat. split; [lia|]. exists (S k), d2. split_and!; try done; try lia. by apply no_match_S.
    + apply wp_ret. exists k, d1. split_and!; try done. intros Hlt. unfold nentries in Hlt. clear -Hge Hlt Hm Hsz. dlia.
  - unfold nentries. clear -Hsz. lia.
  - exists 0%nat, (dsk s). split_and!; [done|lia|lia|by destruct s|intros j Hj; lia|done|done|done].
Qed.

(** The entries after the write. *)
Lemma written_entries s s' dp k e bytes : is_dir s dp → file_written s s' dp (16 * Z.of_nat k) bytes → length bytes = 16%nat → entry_of bytes = e →
  (k ≤ nentries s dp)%nat → no_match unused s dp k → ((k < nentries s dp)%nat → unused (entry_at s dp k)) → i_size (ino s dp) + 16 ≤ MAXOFF →
  is_dir s' dp ∧ dir_entries s' dp = add_entry e (dir_entries s dp).
Proof using Type.
  intros Hd W Hl He Hk Hno Hun Hmax. pose proof (id_size _ _ Hd) as Hm. pose proof (id_dense _ _ Hd) as [Hsz _]. pose proof (fw_size _ _ _ _ _ W) as Es. rewrite Hl in Es. change (Z.of_nat 16) with 16 in Es.
  assert (i_size (ino s dp) = 16 * Z.of_nat (nentries s dp)) as Hn by (unfold nentries; clear -Hm Hsz; dlia). rewrite Hn in Es, Hmax.
  assert (nentries s' dp = Nat.max (nentries s dp) (S k)) as Hn' by (unfold nentries at 1; rewrite Es; clear; dlia).
  assert (∀ j, (j < nentries s' dp)%nat → entry_at s' dp j = if decide (j = k) then e else entry_at s dp j) as Hat.
  { intros j Hj. unfold entry_at. assert (∀ i, (i < 16)%nat → file_at s' dp (16 * Z.of_nat j + Z.of_nat i) = if decide (j = k) then byte_at bytes i else file_at s dp (16 * Z.of_nat j + Z.of_nat i)) as Hb.
    { intros i Hi. rewrite (fw_file _ _ _ _ _ W) by lia. rewrite Hl. case_decide as E1; case_decide as E2; try lia. f_equal. lia. }
    case_decide as E.
    - rewrite <-He. f_equal. apply list_eq. intros i. unfold contents. rewrite list_lookup_fmap. destruct (decide (i < 16)%nat) as [Hi|Hi].
      + rewrite lookup_seq_lt by done. cbn [fmap option_fmap option_map Nat.add]. rewrite Hb by done. unfold byte_at. rewrite nth_lookup. destruct (lookup_lt_is_Some_2 bytes i ltac:(lia)) as [x Hx]. by rewrite Hx.
      + rewrite lookup_seq_ge by lia. symmetry. apply lookup_ge_None. lia.
    - f_equal. unfold contents. apply list_fmap_ext. intros i x Hx. apply lookup_seq in Hx as [-> Hx]. apply Hb. lia. }
  split.
  - split; [apply W|apply W|apply W|by rewrite (fw_type _ _ _ _ _ W), (id_type _ _ Hd)|]. rewrite Es. clear. dlia.
  - unfold add_entry. apply list_eq. intros j. unfold dir_entries at 1. rewrite list_lookup_fmap.
    destruct (decide (k = nentries s dp)) as [Ek|Ek].
    + rewrite find_none by (by rewrite <-Ek). assert (length (dir_entries s dp) = nentries s dp) as Hle by (unfold dir_entries; by rewrite length_fmap, length_seq).
      destruct (decide (j < nentries s' dp)%nat) as [Hj|Hj].
      * rewrite lookup_seq_lt by done. cbn [fmap option_fmap option_map Nat.add]. rewrite Hat by done. case_decide as E.
        -- rewrite lookup_app_r by lia. by replace (j - length (dir_entries s dp))%nat with 0%nat by lia.
        -- rewrite lookup_app_l by lia. unfold dir_entries. by rewrite list_lookup_fmap, lookup_seq_lt by lia.
      * rewrite lookup_seq_ge by lia. symmetry. apply lookup_ge_None. rewrite length_app, Hle. simpl. lia.
    + rewrite (find_at unused s dp k Hno) by (lia || (apply Hun; lia)). destruct (decide (j < nentries s' dp)%nat) as [Hj|Hj].
      * rewrite lookup_seq_lt by done. cbn [fmap option_fmap option_map Nat.add]. rewrite Hat by done. case_decide as E.
        -- subst j. rewrite list_lookup_insert_eq; [done|]. unfold dir_entries. rewrite length_fmap, length_seq. lia.
        -- rewrite list_lookup_insert_ne by done. unfold dir_entries. by rewrite list_lookup_fmap, lookup_seq_lt by lia.
      * rewrite lookup_seq_ge by lia. symmetry. apply lookup_ge_None. rewrite length_insert. unfold dir_entries. rewrite length_fmap, length_seq. lia.
Qed.
End dir.

Close Scope Z_scope.
