(* ===== verification/FsSample.v ===== *)
(** * A small formatted disk

    The state the file system theorems are run on: a disk of which the
    bitmap marks the first fifty blocks in use, booted with the log of
    [mkfs], inside a transaction, with one empty file in the inode cache. *)

From S2P Require Import Prelude.
From S2P Require Import ListH.
From S2P Require Import Words.
From S2P Require Import Bio.
From S2P Require Import Log.
From S2P Require Import BlockStore.
From S2P Require Import Fs.
From S2P Require Import FsAlloc.
From S2P Require Import FsMap.
From S2P Require Import FsFile.

Open Scope Z_scope.

(** Blocks 0 to 49 in use. *)
Definition sample_bitmap : block := replicate 6 255 ++ [3] ++ replicate 505 0.

Definition sample_disk : gmap Z block := {[ 40 := sample_bitmap ]}.

Definition sample_boot : lstate := mkL (mkB ∅ ∅ sample_disk 1000 [] 1 1) log0.

Definition start_op : LM bool := reboot 2 30;; begin_op.

Definition sample_sb : superblock := mkSb 200 150 32 30 2 33 40.

Definition sample_ino : inode := mkInode 1 1 1 (mkSleeplock 1 1 1) 1 T_FILE 0 0 1 0 (replicate (NDIRECT + 3) 0).

Definition sample_fs (S : lstate) : fstate lstate := mkF S {[ 0%nat := sample_ino ]} sample_sb 1 1 0.

(** A transaction was opened on the disk [d] of [size] blocks. *)
Record started_on (d : gmap Z block) (size : Z) (S : lstate) : Prop := {
  sd_fits : fits S [] 29;
  sd_txn : in_txn S;
  sd_view : ∀ b, 32 ≤ b → view S b = dk d b;
  sd_len : ∀ b, length (view S b) = BSIZE;
  sd_ok : ∀ b, ok_block S b ↔ 0 ≤ b < size ∧ (b < 2 ∨ 32 ≤ b);
  sd_low : ∀ b, b < 2 → view S b = dk d b
}.
#[global] Arguments sd_fits {_ _} _ _.
#[global] Arguments sd_txn {_ _} _ _.
#[global] Arguments sd_view {_ _} _ _ _ _.
#[global] Arguments sd_len {_ _} _ _ _.
#[global] Arguments sd_ok {_ _} _ _ _.
#[global] Arguments sd_low {_ _} _ _ _ _.

Definition power_on (d : gmap Z block) (size : Z) : lstate := mkL (mkB ∅ ∅ d size [] 1 1) log0.

(** A disk whose log is empty starts as it is. *)
Lemma start_op_disk d size : 32 ≤ size < 2147483648 → dk d 2 = zero_block → (∀ b, length (dk d b) = BSIZE) →
  wp start_op (λ r S, r = true ∧ started_on d size S) (power_on d size).
Proof.
  intros Hsz H2' Hlen. unfold start_op, reboot. apply wp_bind, wp_bind, wp_zoom. wcall (binit_spec (bs (power_on d size))).
  { intros i Hi. unfold bf. simpl. by rewrite lookup_empty. }
  intros [] s (I & Hb & HD & HT & HZ).
  assert (disk_at s 2 = replicate BSIZE 0) as H2 by (unfold disk_at; rewrite HD; exact H2').
  wcall (initlog_spec (set_bs s (power_on d size)) _ 2 30 [] I (boot_clean s Hb)); rewrite ?HZ; try done.
  all: try (simpl; by rewrite H2).
  all: try (simpl; rewrite ?HZ; simpl; unfold LOGSIZE; lia).
  all: try (apply NoDup_nil_2 || by intros b ?%elem_of_nil).
  intros [] S ([lru L] & [bl El] & Hw). unfold begin_op. apply wp_bind, wp_gets. rewrite El. simpl.
  apply wp_bind, wp_modify, wp_ret. split; [done|]. set (S' := upd_lg _ S).
  assert (lg S' = set_l_outstanding 1 (lg S)) as El' by done.
  assert (log_inv S' [] lru []) as L' by (destruct L; by split).
  assert (∀ b, bview (bs S') b = disk_at (bs S') b) as Hcl.
  { intros b. apply (clean_view _ [] lru); [apply L'| |by intros i ?%elem_of_nil]. rewrite (li_dirty _ _ _ _ L'). apply not_elem_of_nil. }
  assert (disk (bs S') = <[2 := header (disk_at s 2) []]> d) as Hdk.
  { change (disk (bs S')) with (disk (bs S)). rewrite (wr_disk _ _ _ Hw). simpl. by rewrite HD. }
  assert (∀ b, view S' b = dk (disk (bs S')) b) as Hv by (intros b; apply Hcl).
  assert (∀ b, b ≠ 2 → view S' b = dk d b) as Hv' by (intros b Hne; rewrite Hv, Hdk; unfold dk; by rewrite lookup_insert_ne).
  split.
  - split; [|by intros i b ?%elem_of_nil]. exists lru, []. split; [exact L'|]. rewrite El'. rewrite El. simpl. unfold LOGSIZE. lia.
  - simpl. lia.
  - intros b Hb'. apply Hv'. lia.
  - intros b. destruct (decide (b = 2)) as [->|]; [|by rewrite Hv'].
    rewrite Hv, Hdk. unfold dk. rewrite lookup_insert_eq. rewrite H2. vm_compute. reflexivity.
  - intros b. simpl. unfold log_ok_block, home. rewrite El', El. simpl.
    assert (disksize (bs S) = size) as -> by (by rewrite (wr_size _ _ _ Hw)). unfold is_s32. lia.
  - intros b Hb'. apply Hv'. lia.
Qed.

Abbreviation started := (started_on sample_disk 1000).

Lemma sample_len b : length (dk sample_disk b) = BSIZE.
Proof.
  unfold dk, sample_disk. destruct (decide (b = 40)) as [->|]; [by rewrite lookup_singleton_eq|].
  rewrite lookup_singleton_ne by done. apply length_replicate.
Qed.

Lemma start_op_runs : wp start_op (λ r S, r = true ∧ started S) sample_boot.
Proof. apply start_op_disk; [lia|reflexivity|apply sample_len]. Qed.

(** ** The file system on it *)

Section sample.
Context (S : lstate) (HS : started S).

Lemma sample_used b : 0 ≤ b < 200 → used (sample_fs S) b = bool_decide (b < 50).
Proof using HS.
  intros Hb. unfold used. cbn [dsk sb sample_fs]. unfold BBLOCK. simpl sb_bmapstart. rewrite (Z.div_small b) by (unfold BPB; lia).
  change (u32 (0 + 40)) with 40. rewrite (sd_view _ HS) by lia. rewrite Z.mod_small by (unfold BPB; lia).
  change (dk sample_disk 40) with sample_bitmap.
  assert (forallb (λ k, Bool.eqb (bit_set sample_bitmap (Z.of_nat k)) (bool_decide (Z.of_nat k < 50))) (seq 0 200) = true) as Hall
    by (vm_compute; reflexivity).
  rewrite forallb_forall in Hall. specialize (Hall (Z.to_nat b)). rewrite Z2Nat.id in Hall by lia.
  apply Bool.eqb_prop, Hall, in_seq. lia.
Qed.

Lemma sample_geometry : geometry (sample_fs S).
Proof using HS.
  assert (∀ c, 0 ≤ c < 200 → BBLOCK c sample_sb = 40) as HB.
  { intros c Hc. unfold BBLOCK. by rewrite Z.div_small by (unfold BPB; lia). }
  split.
  - simpl. lia.
  - simpl. unfold two32, BPB. change (200 / 4096) with 0. lia.
  - intros b Hb. simpl. rewrite HB by done. apply (sd_ok _ HS). lia.
  - intros b _. apply (sd_len _ HS).
  - intros b Hb Hu. rewrite sample_used in Hu by done. apply bool_decide_eq_false in Hu. destruct Hb as [Hb1 Hb2]. simpl in Hb2. split.
    + apply (sd_ok _ HS). lia.
    + intros c Hc. simpl. rewrite HB by done. lia.
  - rewrite sample_used by lia. done.
Qed.

Lemma sample_node q : valid q → node (sample_fs S) 0 q = 0.
Proof using Type.
  destruct q as [r l]. intros [Hr _]. unfold node, lookup_path. cbn [fst snd] in *.
  assert (nth r (i_addrs (ino (sample_fs S) 0)) 0 = 0) as ->.
  { change (i_addrs (ino (sample_fs S) 0)) with (replicate (NDIRECT + 3) 0). rewrite nth_lookup. by rewrite lookup_replicate_2. }
  induction l as [|k l IH] using rev_ind; [done|]. rewrite foldl_app, IH. done.
Qed.

Lemma sample_tree : tree_ok (sample_fs S) 0.
Proof using Type. split; [done|done| |]; intros q; [|intros q']; intros Hq; [|intros Hq']; by rewrite sample_node. Qed.

Lemma sample_imeta : imeta (sample_fs S) 0.
Proof using HS.
  assert (IBLOCK (i_inum (ino (sample_fs S) 0)) (sb (sample_fs S)) = 33) as E by done. split; rewrite ?E.
  - apply (sd_ok _ HS). lia.
  - intros Hr. by rewrite sample_used.
  - intros c Hc. unfold BBLOCK. simpl. destruct Hc as [Hc1 Hc2]. simpl in Hc2. rewrite Z.div_small by (unfold BPB; lia). done.
  - intros q Hq. by rewrite sample_node.
Qed.

Lemma sample_dense : dense (sample_fs S) 0.
Proof using Type. split; change (i_size (ino (sample_fs S) 0)) with 0; [unfold MAXOFF, MAXBN; lia|]. intros o Ho. lia. Qed.

Lemma sample_free k : (k ≤ 100)%nat → has_free (sample_fs S) k.
Proof using HS.
  intros Hk. exists (seqZ 50 (Z.of_nat k)). split_and!; [apply NoDup_seqZ|rewrite length_seqZ; lia|].
  intros b Hb%elem_of_seqZ. split; [split; simpl; lia|]. rewrite sample_used by lia. apply bool_decide_eq_false. lia.
Qed.
End sample.

Close Scope Z_scope.
