(* ===== verification/FsTheorems.v ===== *)
(** * The file system on the log

    The properties of [src/xv6-public/fs.c]: allocation, the block map of an
    inode, file contents, inodes on disk and path names.  They hold for every
    [BlockLaws]; the witnesses run them on the buffer cache and the log. *)

From S2P Require Import Prelude.
From S2P Require Import Words.
From S2P Require Import Bio.
From S2P Require Import Log.
From S2P Require Import BlockStore.
From S2P Require Import Fs.
From S2P Require Import FsAlloc.
From S2P Require Import FsMap.
From S2P Require Import FsFile.
From S2P Require Import FsInode.
From S2P Require Import FsSample.

Open Scope Z_scope.

Section theorems.
Context {D : Type} {BO : BlockOps D} {BM : BlockModel D} {BL : BlockLaws D}.
Implicit Types (s : fstate D).

(** C26: [balloc] returns the first block that the bitmap marks free, with
    the block zeroed and marked in use and no other bit of the bitmap
    changed; outside the bitmap and the new block nothing changes, and the
    layout of the disk is kept.  It needs one free block and room for two
    more blocks in the transaction. *)
Theorem balloc_takes_first_free s H n :
  geometry s → fits (dsk s) H (S (S (S n))) → in_txn (dsk s) → held_ok s H →
  (∃ b, data_range s b ∧ used s b = false) →
  wp (balloc 1) (λ r s', data_range s r ∧ used s r = false ∧ (∀ b, 0 ≤ b < r → used s b = true) ∧
    (∀ b, data_range s b → used s' b = used s b || bool_decide (b = r)) ∧
    view (dsk s') r = zero_block ∧
    (∀ c, c ≠ r → (∀ b, data_range s b → c ≠ BBLOCK b (sb s)) → view (dsk s') c = view (dsk s) c) ∧
    geometry s' ∧ fits (dsk s') H (S n)) s.
Proof using BL.
  intros G Hf Ht Hh Hex. wcall (balloc_spec s H n G Hf Ht Hh Hex). intros r s' ([A1 A2 A3 A4 A5 A6 A7] & d' & -> & F & _). done.
Qed.

(** C10: [bmap] implements the map from block numbers of a file to disk
    blocks.  For every block number up to the triple indirect blocks it
    returns the block the inode maps it to, allocating the missing blocks of
    the path.  Every mapping the inode had is kept, no other block number
    gets one, the contents of the file do not change (new blocks are zero),
    blocks of other files do not change, and the forest of the inode still
    reaches distinct file blocks only. *)
Theorem bmap_extends_map s ip bn m j :
  geometry s → tree_ok s ip → 0 ≤ bn < MAXBN →
  fits (dsk s) [] (S m + 12) → in_txn (dsk s) → has_free s (4 + j) →
  wp (bmap ip bn) (λ a s', a ≠ 0 ∧ node s' ip (path_of bn) = a ∧
    (∀ c, 0 ≤ c < MAXBN → node s ip (path_of c) ≠ 0 → node s' ip (path_of c) = node s ip (path_of c)) ∧
    (∀ c, 0 ≤ c < MAXBN → c ≠ bn → node s' ip (path_of c) = node s ip (path_of c)) ∧
    (∀ o, 0 ≤ o < MAXOFF → file_at s' ip o = file_at s ip o) ∧
    (∀ b, file_block s b → (∀ q, valid q → node s ip q ≠ b) → view (dsk s') b = view (dsk s) b) ∧
    geometry s' ∧ tree_ok s' ip ∧ has_free s' j) s.
Proof using BL.
  intros G T Hbn Hf Ht Hfree. wcall (bmap_spec s ip bn m j G T Hbn Hf Ht Hfree).
  intros a s' (Ha & Hn & Hg & F & Hfr). split_and!; try done; try apply Hg.
  - intros c Hc. apply (gr_keep _ _ _ _ Hg). by apply path_of_leaf.
  - intros c Hc Hne. destruct (decide (node s' ip (path_of c) = node s ip (path_of c))) as [|Hd]; [done|].
    destruct (path_of_leaf c Hc) as [Hv Hl], (path_of_leaf bn Hbn) as [_ Hl'].
    destruct (gr_only _ _ _ _ Hg _ Hv Hd) as [E1 E2]. destruct Hne. apply path_of_inj; [done..|].
    destruct (path_of c) as [r l], (path_of bn) as [r' l']. cbn [fst snd] in *. subst r'.
    f_equal. apply prefix_length_eq; [done|lia].
  - intros o. by apply (file_at_grown _ _ _ _ _ Hg).
Qed.

(** C2: what [writei] stores is what [readi] returns.  Writing [src] at an
    offset within a file without holes returns its length; a following
    [readi] of the same range returns exactly [src], every other offset of
    the file keeps its byte, and the size becomes the end of the write if
    that is larger. *)
Theorem writei_readi_roundtrip dev_write dev_read s ip (src : list Z) off k j (n := Z.of_nat (length src)) :
  geometry s → tree_ok s ip → imeta s ip → dense s ip → i_type (ino s ip) ≠ T_DEV → 0 ≤ off ≤ i_size (ino s ip) →
  off + n ≤ MAXFILE * 512 → in_txn (dsk s) →
  fits (dsk s) [] (2 + k + 13 * blocks_between off (off + n)) → has_free s (4 * blocks_between off (off + n) + j) →
  wp (w ← writei dev_write ip src off n; r ← readi dev_read ip off n; mret (w, r)) (λ '(w, r) s',
    w = n ∧ r = (n, src) ∧ i_size (ino s' ip) = Z.max (i_size (ino s ip)) (off + n) ∧ dense s' ip ∧
    ∀ o, 0 ≤ o < MAXOFF → ¬ (off ≤ o < off + n) → file_at s' ip o = file_at s ip o) s.
Proof using BL.
  intros G T M Hd Hty Hoff Hmax Ht Hf Hfree. apply wp_bind. wcall (writei_spec dev_write s ip src off k j G T M Hd Hty Hoff Hmax Ht Hf Hfree).
  intros w s1 (-> & W & F1). fold n. apply wp_bind. pose proof (fw_size _ _ _ _ _ W) as Es. fold n in Es.
  assert (MAXFILE = 36000) as EM by done. rewrite EM in Hmax.
  wcall (readi_spec dev_read s1 ip off n k (fw_geo _ _ _ _ _ W) (fw_tree _ _ _ _ _ W) (fw_dense _ _ _ _ _ W)).
  - by rewrite (fw_type _ _ _ _ _ W).
  - lia.
  - lia.
  - unfold two32. lia.
  - exact F1.
  - assert (Z.min n (i_size (ino s1 ip) - off) = n) as -> by lia.
    intros r s2 (-> & d2 & -> & F2 & V2 & T2). apply wp_ret. split_and!; [done| |exact Es| |].
    + f_equal. unfold contents. apply list_eq. intros i. assert (Z.to_nat n = length src) as -> by lia. rewrite list_lookup_fmap.
      destruct (decide (i < length src)%nat) as [Hi|Hi].
      * rewrite lookup_seq_lt by done. simpl. rewrite (fw_file _ _ _ _ _ W) by (unfold MAXOFF, MAXBN; lia).
        rewrite decide_True by lia. unfold byte_at. rewrite nth_lookup. replace (Z.to_nat (off + Z.of_nat i - off)) with i by lia.
        destruct (lookup_lt_is_Some_2 src i Hi) as [v Hv]. by rewrite Hv.
      * rewrite lookup_seq_ge by lia. symmetry. apply lookup_ge_None. lia.
    + destruct (fw_dense _ _ _ _ _ W) as [D1 D2]. split; [exact D1|]. intros o Ho. unfold block_at. rewrite node_ext by done. by apply D2.
    + intros o Ho Hout. rewrite file_at_ext, (fw_file _ _ _ _ _ W) by done. by rewrite decide_False.
Qed.

(** [iupdate] and [ilock] agree on the format of inodes: after
    [iupdate] of a cached inode whose fields fit their types, [ilock] of a
    cache entry that was recycled for the same inode loads exactly those
    fields, and every other inode of the block reads as before. *)
Theorem iupdate_ilock_roundtrip s ip i2 n (p := ino s ip) (q := ino s i2) :
  fits (dsk s) [] (S (S n)) → in_txn (dsk s) → i_dev p = 1 → ok_block (dsk s) (IBLOCK (i_inum p) (sb s)) →
  length (view (dsk s) (IBLOCK (i_inum p) (sb s))) = BSIZE → dinode_fits p → i_type p ≠ 0 →
  i_dev q = 1 → i_inum q = i_inum p → i_valid q = 0 → 1 ≤ i_ref q → sl_locked (i_lock q) = 0 →
  wp (iupdate ip;; ilock (Some i2)) (λ _ s',
    ino s' i2 = with_fields p (set_i_valid 1 (set_i_lock (mkSleeplock 1 (f_pid s) (f_tid s)) q)) ∧
    ∀ inum z, 0 ≤ inum → IBLOCK inum (sb s) = IBLOCK (i_inum p) (sb s) → inum mod IPB ≠ i_inum p mod IPB →
      load_dinode (dinode_off inum) (view (dsk s') (IBLOCK inum (sb s))) z =
      load_dinode (dinode_off inum) (view (dsk s) (IBLOCK inum (sb s))) z) s.
Proof using BL.
  intros Hf Ht Hd Hok Hl Hfit Hty Hqd Hqi Hqv Hqr Hql. set (o := dinode_off (i_inum p)) in *.
  assert (∀ i, 0 ≤ i mod IPB < 8) as Hipb by (intros i; apply Z.mod_pos_bound; unfold IPB; lia).
  assert (o + 64 ≤ BSIZE)%nat as Ho by (unfold o, dinode_off, BSIZE; pose proof (Hipb (i_inum p)); lia).
  apply wp_bind. wcall (iupdate_spec s ip n Hf Ht Hd Hok). intros [] s1 (d1 & -> & F1 & V1 & T1). fold p o in V1.
  assert (∀ x, load_dinode o (view d1 (IBLOCK (i_inum p) (sb s))) x = with_fields p x) as Hld.
  { intros x. rewrite V1, decide_True by done. apply load_store_dinode; [done|]. rewrite <-Hl in Ho. exact Ho. }
  wcall (ilock_loads (set_dsk d1 s) i2 n F1); cbn [dsk sb set_dsk]; change (ino (set_dsk d1 s) i2) with q; rewrite ?Hqi; fold o; rewrite ?Hld; try done; [by apply T1|].
  intros [] s' (E & _ & _ & V & _). split; [done|].
  intros inum z Hi Eb Hne. rewrite V. cbn [dsk set_dsk]. rewrite V1, decide_True by done. rewrite Eb. apply load_dinode_out; [apply Hfit|by rewrite Hl|].
  unfold o, dinode_off. pose proof (Hipb inum). pose proof (Hipb (i_inum p)). lia.
Qed.
End theorems.

(** ** Path names *)

(** The elements of a path: the pieces between slashes that are not empty. *)
Fixpoint pieces (path : list Z) : list (list Z) :=
  match path with
  | [] => [[]]
  | c :: p =>
      if Z.eqb c SLASH then [] :: pieces p
      else match pieces p with e :: l => (c :: e) :: l | [] => [[c]] end
  end.
Definition components (path : list Z) : list (list Z) := filter (λ e, e ≠ []) (pieces path).

Lemma components_slash p : components (SLASH :: p) = components p.
Proof. done. Qed.

Lemma components_skip p : components (skip_slashes p) = components p.
Proof.
  induction p as [|c p IH]; [done|]. cbn [skip_slashes]. destruct (Z.eqb_spec c SLASH) as [->|]; [by rewrite components_slash|done].
Qed.

Lemma skip_slashes_head p : match skip_slashes p with c :: _ => c ≠ SLASH | [] => True end.
Proof. induction p as [|c p IH]; [done|]. cbn [skip_slashes]. by destruct (Z.eqb_spec c SLASH). Qed.

Lemma skip_slashes_len p : (length (skip_slashes p) ≤ length p)%nat.
Proof. induction p as [|c p IH]; [done|]. cbn [skip_slashes]. destruct (Z.eqb c SLASH); simpl in *; lia. Qed.

Lemma span_elem_spec p e r : span_elem p = (e, r) →
  p = e ++ r ∧ SLASH ∉ e ∧ match r with c :: _ => c = SLASH | [] => True end.
Proof.
  revert e r. induction p as [|c p IH]; intros e r; cbn [span_elem]; [by intros [= <- <-]; set_solver|].
  destruct (Z.eqb_spec c SLASH) as [->|Hc]; [intros [= <- <-]; set_solver|].
  destruct (span_elem p) as [e' r']. intros [= <- <-]. destruct (IH _ _ eq_refl) as (-> & He & Hr). set_solver.
Qed.

Lemma pieces_app e r : SLASH ∉ e → match r with c :: _ => c = SLASH | [] => True end →
  pieces (e ++ r) = e :: tail (pieces r).
Proof.
  intros He Hr. induction e as [|c e IH]; simpl.
  - destruct r as [|c r]; [done|]. subst c. done.
  - apply not_elem_of_cons in He as [Hc He]. rewrite IH by done. by rewrite (proj2 (Z.eqb_neq c SLASH)).
Qed.

(** [skipelem] cuts a path into its elements, the non-empty pieces
    between slashes.  It returns null exactly when no element is left.
    Otherwise it returns the path behind the first element, shorter and
    without leading slashes, and leaves in [name] the first element cut to
    [DIRSIZ] characters, as a string; so repeating it, as [namex] does,
    goes through the elements one by one and comes to an end. *)
Theorem skipelem_next_component path name :
  0 ∉ path → length name = DIRSIZ →
  match skipelem path name with
  | None => components path = []
  | Some (rest, name') =>
      ∃ e, components path = e :: components rest ∧ Strings.cstr name' = take DIRSIZ e ∧ length name' = DIRSIZ ∧
        (length rest < length path)%nat ∧ skip_slashes rest = rest ∧ 0 ∉ rest
  end.
Proof.
  intros H0 Hn. unfold skipelem. pose proof (skip_slashes_head path) as Hh. pose proof (skip_slashes_len path) as Hlen.
  rewrite <-(components_skip path). assert (0 ∉ skip_slashes path) as H0'.
  { clear -H0. induction path as [|c p IH]; [done|]. cbn [skip_slashes]. destruct (Z.eqb c SLASH); [apply IH; set_solver|done]. }
  destruct (skip_slashes path) as [|c p] eqn:Esk; [done|]. destruct (span_elem (c :: p)) as [e r] eqn:Es.
  destruct (span_elem_spec _ _ _ Es) as (Ep & He & Hr). rewrite Ep in *. clear Es.
  assert (e ≠ []) as Hne. { intros ->. simpl in Ep. subst r. simpl in Hr. done. }
  exists e. apply not_elem_of_app in H0' as [He0 Hr0]. split_and!.
  - unfold components at 1. rewrite pieces_app by done. rewrite filter_cons_True by done. f_equal. rewrite components_skip.
    destruct r as [|c' r]; [done|]. by subst c'.
  - assert (∀ l x, 0 ∉ l → Strings.cstr (l ++ 0 :: x) = l) as Hc.
    { intros l x. induction l as [|y l IHl]; intros Hl; [done|]. apply not_elem_of_cons in Hl as [Hy Hl]. simpl.
      rewrite (proj2 (Z.eqb_neq _ _)) by done. by rewrite IHl. }
    assert (∀ l, 0 ∉ l → Strings.cstr l = l) as Hc'.
    { intros l. induction l as [|y l IHl]; intros Hl; [done|]. apply not_elem_of_cons in Hl as [Hy Hl]. simpl.
      rewrite (proj2 (Z.eqb_neq _ _)) by done. by rewrite IHl. }
    destruct (Nat.leb_spec DIRSIZ (length e)).
    + apply Hc'. intros (i & Hi & _)%elem_of_take. by eapply He0, list_elem_of_lookup_2.
    + rewrite take_ge by lia. by apply Hc.
  - destruct (Nat.leb_spec DIRSIZ (length e)); [rewrite length_take; lia|]. rewrite !length_app, length_drop. cbn [length]. lia.
  - pose proof (skip_slashes_len r). rewrite length_app in Hlen. destruct e; [done|]. simpl in Hlen. lia.
  - clear. induction r as [|c r IH]; [done|]. cbn [skip_slashes]. destruct (Z.eqb_spec c SLASH) as [->|Hc]; [done|].
    cbn [skip_slashes]. by rewrite (proj2 (Z.eqb_neq _ _)).
  - clear -Hr0. induction r as [|c r IH]; [done|]. cbn [skip_slashes]. destruct (Z.eqb c SLASH); [apply IH; set_solver|done].
Qed.

(** ** The theorems on a booted disk *)

Lemma balloc_takes_first_free_witness :
  wp start_op (λ _ S, wp (balloc 1) (λ r s', r = 50 ∧ view (dsk s') 50 = zero_block) (sample_fs S)) sample_boot.
Proof.
  wcall start_op_runs. intros r S [_ HS]. pose proof (sample_geometry S HS) as G.
  wcall (balloc_takes_first_free (sample_fs S) [] 26 G (sd_fits _ HS) (sd_txn _ HS)).
  - by intros b ?%elem_of_nil.
  - apply has_free_S with (k := 0%nat). apply sample_free; [done|lia].
  - intros b s' (Hr & Hf & Hfirst & _ & Hz & _). rewrite sample_used in Hf by done. apply bool_decide_eq_false in Hf.
    assert (b = 50) as ->; [|done]. destruct (decide (50 < b)); [|lia]. specialize (Hfirst 50 ltac:(lia)).
    rewrite sample_used in Hfirst by (done || lia). done.
Defined.

Lemma bmap_extends_map_witness :
  wp start_op (λ _ S, wp (bmap 0 20000) (λ a s', node s' 0 (path_of 20000) = a ∧ a ≠ 0) (sample_fs S)) sample_boot.
Proof.
  wcall start_op_runs. intros r S [_ HS].
  wcall (bmap_extends_map (sample_fs S) 0 20000 16 0 (sample_geometry S HS) (sample_tree S)).
  - unfold MAXBN. lia.
  - apply (sd_fits _ HS).
  - apply (sd_txn _ HS).
  - apply sample_free; [done|lia].
  - intros a s' (? & ? & _). done.
Defined.

Lemma writei_readi_roundtrip_witness :
  wp start_op (λ _ S, wp (w ← writei (λ _, None) 0 (replicate 600 7) 0 600; r ← readi (λ _, None) 0 0 600; mret (w, r))
    (λ '(w, r) s', w = 600 ∧ r = (600, replicate 600 7) ∧ i_size (ino s' 0) = 600) (sample_fs S)) sample_boot.
Proof.
  wcall start_op_runs. intros r S [_ HS].
  wcall (writei_readi_roundtrip (λ _, None) (λ _, None) (sample_fs S) 0 (replicate 600 7) 0 1 0 (sample_geometry S HS)
    (sample_tree S) (sample_imeta S HS) (sample_dense S)).
  - done.
  - done.
  - done.
  - apply (sd_txn _ HS).
  - apply (sd_fits _ HS).
  - apply sample_free; [done|vm_compute; lia].
  - intros [w r'] s' (? & ? & Hs & _). done.
Defined.

Lemma skipelem_next_component_witness :
  skipelem [47; 47; 97; 47; 47; 98; 98] (replicate 14 0) = Some ([98; 98], 97 :: replicate 13 0) ∧
  ∃ e, components [47; 47; 97; 47; 47; 98; 98] = e :: components [98; 98].
Proof.
  assert (0 ∉ [47; 47; 97; 47; 47; 98; 98]) as H0 by set_solver.
  assert (skipelem [47; 47; 97; 47; 47; 98; 98] (replicate 14 0) = Some ([98; 98], 97 :: replicate 13 0)) as E by reflexivity.
  split; [exact E|].
  pose proof (skipelem_next_component [47; 47; 97; 47; 47; 98; 98] (replicate 14 0) H0 eq_refl) as H.
  rewrite E in H. destruct H as (e & H & _). by exists e.
Defined.

(** A second cache entry for the same inode, not read yet. *)
Lemma iupdate_ilock_roundtrip_witness :
  wp start_op (λ _ S, wp (iupdate 0;; ilock (Some 1%nat)) (λ _ s', i_type (ino s' 1) = T_FILE)
    (set_icache (<[1%nat := mkInode 1 1 1 (mkSleeplock 0 0 0) 0 0 0 0 0 0 []]> (icache (sample_fs S))) (sample_fs S))) sample_boot.
Proof.
  wcall start_op_runs. intros r S [_ HS].
  set (s := set_icache _ _). assert (ino s 0 = sample_ino) as E0 by done.
  assert (ino s 1 = mkInode 1 1 1 (mkSleeplock 0 0 0) 0 0 0 0 0 0 []) as E1 by done.
  wcall (iupdate_ilock_roundtrip s 0 1 27); rewrite ?E0, ?E1; try done.
  - apply (sd_fits _ HS).
  - apply (sd_txn _ HS).
  - apply (sd_ok _ HS). vm_compute. intuition congruence.
  - apply (sd_len _ HS).
  - split; [unfold is_s16, sample_ino, T_FILE; simpl; lia..|unfold is_u32, two32; simpl; lia|]. split; [done|]. apply Forall_replicate.
    unfold is_u32, two32. lia.
  - intros [] s' [E _]. rewrite E. done.
Defined.

Close Scope Z_scope.
