(* ===== verification/FsDirTheorems.v ===== *)
(** * Directories: what is linked is found ([src/xv6-public/fs.c])

    [dirlink] and [dirlookup] on the entries of a directory. *)

From S2P Require Import Prelude.
From S2P Require Import Words.
From S2P Require Import Strings.
From S2P Require Import Bio.
From S2P Require Import Log.
From S2P Require Import BlockStore.
From S2P Require Import Fs.
From S2P Require Import FsAlloc.
From S2P Require Import FsMap.
From S2P Require Import FsFile.
From S2P Require Import FsDir.
From S2P Require Import FsSample.

Open Scope Z_scope.

Section theorems.
Context {D : Type} {BO : BlockOps D} {BM : BlockModel D} {BL : BlockLaws D}.
Implicit Types (s : fstate D).

(** Adding an entry under a new name does not hide another entry. *)
Lemma find_add_same name e es : names name e → list_find (names name) es = None → ∃ k, list_find (names name) (add_entry e es) = Some (k, e).
Proof using Type.
  intros He Hno. apply list_find_None in Hno. unfold add_entry. destruct (list_find unused es) as [[k x]|] eqn:Ef.
  - apply list_find_Some in Ef as (Hk & _ & _). exists k. apply list_find_Some. split_and!; [apply list_lookup_insert_eq; by eapply lookup_lt_Some|done|].
    intros j y Hy Hj. rewrite list_lookup_insert_ne in Hy by lia. exact (Forall_lookup_1 _ _ _ _ Hno Hy).
  - exists (length es). apply list_find_Some. split_and!; [by rewrite lookup_app_r, Nat.sub_diag|done|].
    intros j y Hy Hj. rewrite lookup_app_l in Hy by done. exact (Forall_lookup_1 _ _ _ _ Hno Hy).
Qed.

Lemma has_slot_refs s s' dev inum : (∀ j, i_ref (ino s' j) = i_ref (ino s j) ∧ i_dev (ino s' j) = i_dev (ino s j) ∧ i_inum (ino s' j) = i_inum (ino s j)) →
  has_slot s dev inum → has_slot s' dev inum.
Proof using Type.
  intros E (i & Hi & H). exists i. split; [done|]. destruct (E i) as (E1 & E2 & E3). unfold cached. rewrite E1, E2, E3. exact H.
Qed.

(** C11: Directories are searched and extended by name.  In a directory that
    has no entry of a name, [dirlink] of that name returns 0 and leaves the
    entries it found with the new one in the first place that was free, or
    behind the last; after it, [dirlookup] of the name returns the linked
    inode, and [dirlookup] of any name returns the first entry that is in use
    and has the name, at its offset, as a counted entry of the inode cache,
    or null when there is none.  Names count up to [DIRSIZ] characters. *)
Theorem dirlink_then_dirlookup dev_read dev_write s dp name inum k j (e := (u16 inum, take DIRSIZ (cstr name))) :
  is_dir s dp → imeta s dp → cstr_in DIRSIZ name → u16 inum ≠ 0 → list_find (names name) (dir_entries s dp) = None →
  i_size (ino s dp) + 16 ≤ MAXFILE * 512 → in_txn (dsk s) → fits (dsk s) [] (2 + k + 13) → has_free s (4 + j) → (∀ n, has_slot s 1 n) →
  (∃ q, list_find (names name) (add_entry e (dir_entries s dp)) = Some (q, e)) ∧
  wp (dirlink dev_read dev_write dp name inum) (λ r s1, r = 0 ∧ is_dir s1 dp ∧ dir_entries s1 dp = add_entry e (dir_entries s dp) ∧
    ∀ name', cstr_in DIRSIZ name' → wp (dirlookup dev_read dp name') (λ l s2,
      match list_find (names name') (add_entry e (dir_entries s dp)) with
      | None => l = None
      | Some (q, e') => ∃ i, l = Some (i, 16 * Z.of_nat q) ∧ cached s2 1 e'.1 i ∧ (icache_unique s1 → icache_unique s2)
      end) s1) s.
Proof using BL.
  intros Hd Hm Hn Hi Hno Hmax Ht Hf Hfree Hslot. split; [by apply find_add_same|].
  unfold dirlink. apply wp_bind. wcall (dirlookup_spec dev_read s dp name (1 + k + 13) Hd Hn Hf Hslot). intros r s1 (d1 & F1 & V1 & T1 & Hr). rewrite Hno in Hr. destruct Hr as [-> ->].
  pose proof (is_dir_same _ _ _ Hd V1 T1) as Hd1. apply wp_bind, wp_gets. unfold id. apply wp_bind. wcall (dirlink_scan dev_read (set_dsk d1 s) dp (1 + k + 13) Hd1 F1).
  intros off s2 (q & d2 & -> & -> & Hq & Hnq & Huq & F2 & V2 & T2). change (set_dsk d2 (set_dsk d1 s)) with (set_dsk d2 s).
  assert (∀ c, view d2 c = view (dsk s) c) as V3 by (intros c; by rewrite V2). pose proof (same_txn_trans _ _ _ T1 T2) as T3. pose proof (is_dir_same _ _ _ Hd V3 T3) as Hd2.
  assert (∀ i, entry_at (set_dsk d2 s) dp i = entry_at (set_dsk d1 s) dp i) as Ee by (intros i; unfold entry_at; by rewrite !contents_same).
  assert (dir_entries (set_dsk d2 s) dp = dir_entries s dp) as Ed by (unfold dir_entries; apply list_fmap_ext; intros i x _; unfold entry_at; by rewrite contents_same).
  pose proof (id_dense _ _ Hd) as [Hsz _]. pose proof (id_size _ _ Hd) as H16. change (nentries (set_dsk d1 s) dp) with (nentries s dp) in *.
  assert (MAXFILE = 36000) as EM by reflexivity. rewrite EM in Hmax. assert (16 * Z.of_nat q ≤ i_size (ino s dp)) as Hoff by (unfold nentries in Hq; clear -Hq Hsz; dlia).
  change (([u16 inum mod 256; u16 inum / 256] ++ strncpy_bytes DIRSIZ name)) with (dirent_bytes inum name).
  assert (length (dirent_bytes inum name) = 16%nat) as Hl by (unfold dirent_bytes; rewrite length_app, length_strncpy_bytes; reflexivity).
  assert (blocks_between (16 * Z.of_nat q) (16 * Z.of_nat q + 16) = 1%nat) as Hbb by (unfold blocks_between; rewrite (proj2 (Z.ltb_lt _ _)) by lia; clear; dlia).
  assert (T_DIR ≠ T_DEV) as Ht0 by done. pose proof (writei_spec dev_write (set_dsk d2 s) dp (dirent_bytes inum name) (16 * Z.of_nat q) k j (id_geo _ _ Hd2) (id_tree _ _ Hd2) (imeta_same _ _ _ Hm V3 T3) (id_dense _ _ Hd2)) as HW.
  rewrite Hl in HW. change (Z.of_nat 16) with 16 in HW. rewrite Hbb, (id_type _ _ Hd2), EM in HW.
  apply wp_bind. wcall HW; clear HW; [done|change (ino (set_dsk d2 s) dp) with (ino s dp); lia|lia|by apply T3|exact F2|by apply has_free_ext|].
  intros w s3 (-> & W & F3). cbn [Z.eqb Pos.eqb negb]. apply wp_ret.
  destruct (written_entries _ s3 dp q e (dirent_bytes inum name) Hd2 W Hl (entry_dirent _ _)) as [Hd3 Ed3].
  { done. } { intros i Hi'. rewrite Ee. by apply Hnq. } { rewrite Ee. exact Huq. } { change (ino (set_dsk d2 s) dp) with (ino s dp). unfold MAXOFF, MAXBN. lia. }
  rewrite Ed in Ed3. split_and!; [done|done|done|]. intros name' Hn'. wcall (dirlookup_spec dev_read s3 dp name' k Hd3 Hn' F3).
  { intros x. eapply has_slot_refs; [|apply (Hslot x)]. intros i. apply (fw_cache _ _ _ _ _ W). }
  intros l s4 (d4 & _ & _ & _ & Hl4). rewrite Ed3 in Hl4. destruct (list_find (names name') (add_entry e (dir_entries s dp))) as [[q' e']|]; [|by destruct Hl4].
  destruct Hl4 as (i & -> & G). exists i. split_and!; [done|by eapply is_got_cached|]. intros U. eapply is_got_unique; [exact G|exact U].
Qed.
End theorems.

(** ** A directory on the booted disk *)

Definition sample_dir (S : lstate) : fstate lstate := set_icache {[ 0%nat := set_i_type T_DIR sample_ino ]} (sample_fs S).

Lemma sample_is_dir S : started S → is_dir (sample_dir S) 0 ∧ imeta (sample_dir S) 0.
Proof.
  intros HS. assert (∀ q, valid q → node (sample_dir S) 0 q = 0) as Hn by (intros q Hq; change (node (sample_dir S) 0 q) with (node (sample_fs S) 0 q); by apply sample_node). split.
  - split; [destruct (sample_geometry S HS); by split| | |done|done].
    { split; [done|done| |]; intros q; [|intros q']; intros Hq; [|intros Hq']; by rewrite Hn. }
    split; change (i_size (ino (sample_dir S) 0)) with 0; [unfold MAXOFF, MAXBN; lia|]. intros o Ho. lia.
  - destruct (sample_imeta S HS) as [M1 M2 M3 M4]. split; [exact M1|exact M2|exact M3|]. intros q Hq. by rewrite Hn.
Qed.

Lemma dirlink_then_dirlookup_witness :
  wp start_op (λ _ S, wp (dirlink (λ _, None) (λ _, None) 0 [97; 98; 0] 7) (λ r s1, r = 0 ∧ dir_entries s1 0 = [(7, [97; 98])] ∧
    wp (dirlookup (λ _, None) 0 [97; 98; 0]) (λ l s2, ∃ i, l = Some (i, 0) ∧ cached s2 1 7 i) s1) (sample_dir S)) sample_boot.
Proof.
  wcall start_op_runs. intros r S [_ HS]. destruct (sample_is_dir S HS) as [Hd Hm].
  assert (cstr_in DIRSIZ [97; 98; 0]) as Hn by (left; do 2 right; left). assert (dir_entries (sample_dir S) 0 = []) as Ee by reflexivity.
  assert (∀ n, has_slot (sample_dir S) 1 n) as Hslot by (intros n; exists 1%nat; split; [unfold NINODE; lia|by right]).
  assert (has_free (sample_dir S) (4 + 0)) as Hfree by (apply (sample_free S HS 4); lia).
  destruct (dirlink_then_dirlookup (λ _, None) (λ _, None) (sample_dir S) 0 [97; 98; 0] 7 14 0 Hd Hm Hn) as [_ H]; try done.
  { apply (sd_txn _ HS). } { apply (sd_fits _ HS). }
  eapply wp_mono; [exact H|]. intros r1 s1 (-> & _ & E1 & H1). split; [done|]. split; [rewrite E1, Ee; reflexivity|].
  eapply wp_mono; [exact (H1 [97; 98; 0] Hn)|]. intros l s2. rewrite Ee. simpl. intros (i & -> & Hc & _). by exists i.
Defined.

Close Scope Z_scope.
