(* ===== verification/Mkfs.v ===== *)
(** * Making the file system image ([src/xv6-public/mkfs.c])

    The image is its sectors, the ones written so far; reading another one
    fails, which ends the program, as a failed [assert] does.  Structures are
    kept as values: [xint] and [xshort], the order of the bytes on disk, are
    in [store_dinode], [sb_block] and [dirent].  A file of the command line
    is its name and the pieces that [read] returns. *)

From S2P Require Import Prelude.
From S2P Require Import Words.
From S2P Require Import Strings.
From S2P Require Import Bio.
From S2P Require Import BlockStore.
From S2P Require Import Fs.

Open Scope Z_scope.

Definition NINODES : Z := 200.
Definition nbitmap : Z := FSSIZE / (512 * 8) + 1.
Definition ninodeblocks : Z := NINODES / IPB + 1.
Definition nlog : Z := 30.
Definition nmeta : Z := 2 + nlog + ninodeblocks + nbitmap.
Definition nblocks : Z := FSSIZE - nmeta.
Definition mk_sb : superblock := mkSb FSSIZE nblocks NINODES nlog 2 (2 + nlog) (2 + nlog + ninodeblocks).

Record mkfs := mkMk {
  m_img : gmap Z block;        (* the sectors of fsfd *)
  m_freeinode : Z;
  m_freeblock : Z
}.
Definition mkfs0 : mkfs := mkMk ∅ 1 0.
Definition set_img (v : gmap Z block) (s : mkfs) : mkfs := mkMk v (m_freeinode s) (m_freeblock s).
Definition set_freeinode (v : Z) (s : mkfs) : mkfs := mkMk (m_img s) v (m_freeblock s).
Definition set_freeblock (v : Z) (s : mkfs) : mkfs := mkMk (m_img s) (m_freeinode s) v.

Abbreviation KM := (M mkfs).

Definition wsect (sec : Z) (buf : block) : KM unit := modify (λ s, set_img (<[sec := buf]> (m_img s)) s).
Definition rsect (sec : Z) : KM block :=
  d ← gets (λ s, m_img s !! sec);
  match d with Some d => mret d | None => panic "read" end.

Definition winode (inum : Z) (ip : inode) : KM unit :=
  let bn := IBLOCK inum mk_sb in
  buf ← rsect bn;
  wsect bn (store_dinode ip (dinode_off inum) buf).
Definition rinode (inum : Z) : KM inode :=
  let bn := IBLOCK inum mk_sb in
  buf ← rsect bn;
  mret (load_dinode (dinode_off inum) buf inode0).

(** [freeblock++]. *)
Definition next_block : KM Z :=
  b ← gets m_freeblock;
  modify (set_freeblock (u32 (b + 1)));;
  mret b.

Definition mk_ialloc (type : Z) : KM Z :=
  inum ← gets m_freeinode;
  modify (set_freeinode (u32 (inum + 1)));;
  winode inum (set_i_size 0 (set_i_nlink 1 (set_i_type type inode0)));;
  mret inum.

Definition mk_balloc (used : Z) : KM unit :=
  if Z.leb (512 * 8) used then panic "assert"
  else
    let buf := foldl (λ buf i, let i := Z.of_nat i in
      <[bit_byte i := Z.lor (byte_at buf (bit_byte i)) (bit_mask i)]> buf) zero_block (seq 0 (Z.to_nat used)) in
    wsect (sb_bmapstart mk_sb) buf.

(** The block of the file that [fbn] numbers, made when there is none. *)
Definition block_of (din : inode) (fbn : Z) : KM (inode * Z) :=
  if Z.ltb fbn (Z.of_nat NDIRECT) then
    din ← (if Z.eqb (nth (Z.to_nat fbn) (i_addrs din) 0) 0 then
             b ← next_block;
             mret (set_i_addr (Z.to_nat fbn) b din)
           else mret din);
    mret (din, nth (Z.to_nat fbn) (i_addrs din) 0)
  else
    din ← (if Z.eqb (nth NDIRECT (i_addrs din) 0) 0 then
             b ← next_block;
             mret (set_i_addr NDIRECT b din)
           else mret din);
    let ind := nth NDIRECT (i_addrs din) 0 in
    let k := Z.to_nat (fbn - Z.of_nat NDIRECT) in
    indirect ← rsect ind;
    if (NINDIRECT <=? k)%nat then fail OutOfBounds
    else if Z.eqb (ld32 indirect (4 * k)) 0 then
      b ← next_block;
      wsect ind (st32 indirect (4 * k) b);;
      mret (din, b)
    else mret (din, ld32 indirect (4 * k)).

Definition iappend (inum : Z) (xp : list Z) : KM unit :=
  din ← rinode inum;
  r ← loop (S (length xp)) (λ '(din, off, p),
    match p with
    | [] => mret (inr (din, off))
    | _ =>
        let fbn := off / 512 in
        if Z.leb MAXFILE fbn then panic "assert"
        else
          b ← block_of din fbn;
          let '(din, x) := b in
          let n1 := Nat.min (length p) (Z.to_nat ((fbn + 1) * 512 - off)) in
          buf ← rsect x;
          wsect x (splice (Z.to_nat (off - fbn * 512)) (take n1 p) buf);;
          mret (inl (din, u32 (off + Z.of_nat n1), drop n1 p))
    end) (din, i_size din, xp);
  let '(din, off) := r in
  winode inum (set_i_size off din).

(** [struct dirent], its name padded with zeroes. *)
Definition dirent (inum : Z) (name : list Z) : list Z :=
  [inum mod 256; inum / 256 mod 256] ++ strncpy_bytes DIRSIZ (name ++ [0]).

Definition sb_block : block :=
  st32s zero_block 0 [sb_size mk_sb; sb_nblocks mk_sb; sb_ninodes mk_sb; sb_nlog mk_sb; sb_logstart mk_sb; sb_inodestart mk_sb; sb_bmapstart mk_sb].

(** The name without the underscore that the binaries have. *)
Definition skip_underscore (name : list Z) : list Z :=
  match name with c :: rest => if Z.eqb c 95 then rest else name | [] => [] end.

Definition add_file (rootino : Z) (name : list Z) (reads : list (list Z)) : KM unit :=
  if bool_decide (47 ∈ name) then panic "assert"
  else
    inum ← mk_ialloc T_FILE;
    iappend rootino (dirent inum (skip_underscore name));;
    for_each reads (iappend inum).

Definition round_root (rootino : Z) : KM unit :=
  din ← rinode rootino;
  let off := i_size din in
  let off := u32 ((off / 512 + 1) * 512) in
  winode rootino (set_i_size off din).

Definition mkfs_main (files : list (list Z * list (list Z))) : KM unit :=
  modify (set_freeblock nmeta);;
  for_each (seq 0 (Z.to_nat FSSIZE)) (λ i, wsect (Z.of_nat i) zero_block);;
  wsect 1 sb_block;;
  rootino ← mk_ialloc T_DIR;
  (if negb (Z.eqb rootino ROOTINO) then panic "assert" else mret tt);;
  iappend rootino (dirent rootino [46]);;
  iappend rootino (dirent rootino [46; 46]);;
  for_each files (λ '(name, reads), add_file rootino name reads);;
  round_root rootino;;
  used ← gets m_freeblock;
  mk_balloc used.

Close Scope Z_scope.
