(* ===== verification/MkfsImage.v ===== *)
(** * What [mkfs] builds ([src/xv6-public/mkfs.c])

    What stands on the image while [mkfs] builds it: every block behind the
    metadata belongs to one place of one file, the blocks of a file hold its
    bytes, and the inodes on the image say so.  [frep] is that for one file,
    [mk_ok] for the image during [iappend], [img] between the steps and
    [image] at the end; [main_spec] is the result. *)

From S2P Require Import Prelude.
From S2P Require Import Words.
From S2P Require Import Strings.
From S2P Require Import Bio.
From S2P Require Import Log.
From S2P Require Import BlockStore.
From S2P Require Import Fs.
From S2P Require Import FsAlloc.
From S2P Require Import FsMap.
From S2P Require Import FsFile.
From S2P Require Import FsInode.
From S2P Require Import Mkfs.

Open Scope Z_scope.

(** ** One file *)

(** The block of the image with number [bn] in the file, 0 when there is none. *)
Definition leafb (v : Z → block) (d : inode) (bn : Z) : Z :=
  if Z.ltb bn 10 then nth (Z.to_nat bn) (i_addrs d) 0 else follow v (nth 10 (i_addrs d) 0) (Z.to_nat (bn - 10)).

(** The inode [d] has [nb] blocks, which are its own and hold [c]. *)
Record frep (v : Z → block) (own : gmap Z (Z * path)) (inum : Z) (d : inode) (nb : Z) (c : list Z) : Prop := {
  fr_fits : dinode_fits d;
  fr_base : with_fields d inode0 = d;
  fr_top : nth 11 (i_addrs d) 0 = 0 ∧ nth 12 (i_addrs d) 0 = 0;
  fr_nb : 0 ≤ nb ≤ 138 ∧ Z.of_nat (length c) ≤ 512 * nb;
  fr_leaf : ∀ bn, 0 ≤ bn < nb → own !! leafb v d bn = Some (inum, path_of bn);
  fr_none : ∀ bn, nb ≤ bn < 138 → leafb v d bn = 0;
  fr_ind : if decide (nb ≤ 10) then nth 10 (i_addrs d) 0 = 0 else own !! nth 10 (i_addrs d) 0 = Some (inum, (10%nat, []));
  fr_bytes : ∀ o, 0 ≤ o < 512 * nb → byte_at (v (leafb v d (o / 512))) (Z.to_nat (o mod 512)) = nth (Z.to_nat o) c 0
}.

(** Only the blocks of the file matter. *)
Lemma leafb_ext v v' d bn : v' (nth 10 (i_addrs d) 0) = v (nth 10 (i_addrs d) 0) → leafb v' d bn = leafb v d bn.
Proof. intros E. unfold leafb, follow. by rewrite E. Qed.

Lemma frep_frame v v' own own' inum d nb c : frep v own inum d nb c → (∀ b x, own !! b = Some x → own' !! b = Some x) →
  (∀ b q, own !! b = Some (inum, q) → v' b = v b) → frep v' own' inum d nb c.
Proof.
  intros [F B T N L Z I Y] Hown Hv. assert (∀ bn, leafb v' d bn = leafb v d bn) as El.
  { intros bn. destruct (decide (nb ≤ 10)) as [Hn|Hn]; [|by apply leafb_ext, (Hv _ (10%nat, []))]. unfold leafb, follow. by rewrite I. }
  split; [done..| | | |].
  - intros bn Hb. rewrite El. by apply Hown, L.
  - intros bn Hb. rewrite El. by apply Z.
  - case_decide; [done|]. by apply Hown.
  - intros o Ho. rewrite El. rewrite <-Y by done. f_equal. eapply Hv, L. dlia.
Qed.

Lemma frep_ext v v' own inum d nb c : (∀ b, v' b = v b) → frep v own inum d nb c → frep v' own inum d nb c.
Proof. intros Hv F. eapply frep_frame; [exact F|done|]. intros b q _. apply Hv. Qed.

(** Data written to one of the blocks of the file. *)
Lemma frep_write v own inum d nb c bn (o : nat) (p : list Z) :
  frep v own inum d nb c → 0 ≤ bn < nb → (o + length p ≤ 512)%nat → length (v (leafb v d bn)) = BSIZE →
  Z.of_nat (length c) = 512 * bn + Z.of_nat o →
  let v' := λ b, if decide (b = leafb v d bn) then splice o p (v b) else v b in frep v' own inum d nb (c ++ p).
Proof.
  intros [F B T [N1 N2] L Z I Y] Hbn Ho Hlen Hc v'.
  assert (nth 10 (i_addrs d) 0 ≠ leafb v d bn ∨ nb ≤ 10) as Hi.
  { destruct (decide (nb ≤ 10)); [by right|]. left. intros E. rewrite E, L in I by done. injection I as I. unfold path_of in I. revert I. split_ltb; [intros [= E']; lia|done|lia..]. }
  assert (∀ k, leafb v' d k = leafb v d k) as El.
  { intros k. destruct Hi as [Hi|Hi]; [apply leafb_ext; unfold v'; by rewrite decide_False|]. rewrite decide_True in I by done. unfold leafb, follow. by rewrite I. }
  split; [done..| | | |done|].
  - split; [lia|]. rewrite length_app. lia.
  - intros k Hk. rewrite El. by apply L.
  - intros k Hk. rewrite El. by apply Z.
  - intros k Hk. rewrite El. assert (0 ≤ k / 512 < nb) as Hkn by dlia. clear I. unfold v'. case_decide as E.
    + assert (k / 512 = bn) as Ek. { pose proof (L _ Hkn) as H1. pose proof (L _ Hbn) as H2. rewrite E, H2 in H1. injection H1 as H1. apply path_of_inj; [unfold MAXBN; lia..|done]. }
      rewrite E, byte_at_splice by (rewrite Hlen; unfold BSIZE; lia). unfold byte_at. case_decide as E2.
      * rewrite app_nth2 by dlia. f_equal. dlia.
      * pose proof (Y k Hk) as Yk. rewrite E in Yk. unfold byte_at in Yk. rewrite Yk. destruct (decide (Z.to_nat k < length c)%nat) as [Hlt|Hge]; [by rewrite app_nth1|].
        rewrite (nth_overflow c) by lia. rewrite app_nth2 by lia. rewrite nth_overflow; [done|]. dlia.
    + rewrite Y by done. assert (k / 512 ≠ bn) as Hne by (intros <-; done). destruct (decide (Z.to_nat k < length c)%nat) as [Hlt|Hge]; [by rewrite app_nth1|].
      rewrite (nth_overflow c) by lia. rewrite app_nth2 by lia. rewrite nth_overflow; [done|]. dlia.
Qed.

(** ** New blocks *)

Lemma nth_put (l : list Z) i j x : (i < length l)%nat → nth j (<[i := x]> l) 0 = if decide (j = i) then x else nth j l 0.
Proof.
  intros Hi. rewrite !nth_lookup. case_decide as E; [subst; by rewrite list_lookup_insert_eq|]. by rewrite list_lookup_insert_ne.
Qed.

Lemma zero_byte i : byte_at zero_block i = 0.
Proof. unfold byte_at, zero_block. rewrite nth_lookup. destruct (decide (i < BSIZE)%nat); [by rewrite lookup_replicate_2|]. rewrite lookup_ge_None_2; [done|]. rewrite length_replicate. lia. Qed.

Section newblock.
Context (v : Z → block) (own : gmap Z (Z * path)) (inum : Z) (d : inode) (nb : Z) (c : list Z) (H : frep v own inum d nb c).

Lemma frep_addrs : length (i_addrs d) = 13%nat.
Proof using H. apply (df_addrs _ (fr_fits _ _ _ _ _ _ H)). Qed.

Lemma set_addr_fits k b : is_u32 b → dinode_fits (set_i_addr k b d).
Proof using H. intros Hb. destruct (fr_fits _ _ _ _ _ _ H) as [? ? ? ? ? [? ?]]. split; try done. simpl. rewrite length_insert. split; [done|]. by apply Forall_insert. Qed.

Lemma set_addr_base k b : with_fields (set_i_addr k b d) inode0 = set_i_addr k b d.
Proof using H. pose proof (fr_base _ _ _ _ _ _ H) as E. revert E. generalize d. intros []. unfold with_fields, set_i_addr. simpl. by intros [= -> -> -> -> ->]. Qed.

(** Bytes of a file whose new last block is zero. *)
Lemma new_bytes v' d' : (∀ bn, 0 ≤ bn < nb → leafb v' d' bn = leafb v d bn ∧ v' (leafb v d bn) = v (leafb v d bn)) → v' (leafb v' d' nb) = zero_block →
  ∀ o, 0 ≤ o < 512 * (nb + 1) → byte_at (v' (leafb v' d' (o / 512))) (Z.to_nat (o mod 512)) = nth (Z.to_nat o) c 0.
Proof using H.
  intros Hold Hnew o Ho. destruct (fr_nb _ _ _ _ _ _ H) as [_ Hc]. destruct (decide (o / 512 = nb)) as [E|E].
  - rewrite E, Hnew, zero_byte. rewrite nth_overflow; [done|]. dlia.
  - destruct (Hold (o / 512)) as [-> ->]; [dlia|]. apply (fr_bytes _ _ _ _ _ _ H). dlia.
Qed.

Lemma frep_new_direct b : nb < 10 → own !! b = None → v b = zero_block → is_u32 b → b ≠ 0 →
  frep v (<[b := (inum, path_of nb)]> own) inum (set_i_addr (Z.to_nat nb) b d) (nb + 1) c.
Proof using H.
  intros Hnb Hfr Hz Hu Hb0. pose proof frep_addrs as Hal. destruct (fr_nb _ _ _ _ _ _ H) as [N1 N2]. pose proof (fr_ind _ _ _ _ _ _ H) as I. rewrite decide_True in I by lia.
  set (d' := set_i_addr (Z.to_nat nb) b d). assert (∀ j, nth j (i_addrs d') 0 = if decide (j = Z.to_nat nb) then b else nth j (i_addrs d) 0) as Hn by (intros j; apply nth_put; lia).
  assert (∀ bn, 0 ≤ bn < 138 → leafb v d' bn = if decide (bn = nb) then b else leafb v d bn) as El.
  { intros bn Hbn. unfold leafb, follow. rewrite !Hn. rewrite (decide_False (P := 10%nat = _)) by lia. rewrite I.
    destruct (Z.ltb_spec bn 10); [|rewrite (decide_False (P := bn = nb)) by lia; done]. destruct (decide (bn = nb)) as [->|]; [by rewrite decide_True|]. by rewrite decide_False by lia. }
  split.
  - by apply set_addr_fits.
  - apply set_addr_base.
  - rewrite !Hn, !decide_False by lia. apply (fr_top _ _ _ _ _ _ H).
  - lia.
  - intros bn Hbn. rewrite El by lia. case_decide as E; [subst; by rewrite lookup_insert_eq|].
    pose proof (fr_leaf _ _ _ _ _ _ H bn ltac:(lia)) as Hl. rewrite lookup_insert_ne; [done|]. intros E'. rewrite <-E', Hfr in Hl. done.
  - intros bn Hbn. rewrite El by lia. rewrite decide_False by lia. apply (fr_none _ _ _ _ _ _ H). lia.
  - rewrite decide_True by lia. rewrite Hn, decide_False by lia. done.
  - apply new_bytes.
    + intros bn Hbn. split; [|done]. rewrite El by lia. by rewrite decide_False by lia.
    + rewrite El by lia. by rewrite decide_True.
Qed.

(** A block entered into the indirect block [a]. *)
Lemma frep_new_leaf v' d' a b own1 : 10 ≤ nb < 138 → i_addrs d' = (if decide (nb = 10) then <[10%nat := a]> (i_addrs d) else i_addrs d) → dinode_fits d' → with_fields d' inode0 = d' →
  (if decide (nb = 10) then own !! a = None ∧ own1 = <[a := (inum, (10%nat, []))]> own ∧ v a = zero_block else a = nth 10 (i_addrs d) 0 ∧ own1 = own) →
  a ≠ 0 → own1 !! b = None → v b = zero_block → is_u32 b → length (v a) = BSIZE →
  (∀ x, v' x = if decide (x = a) then st32 (v a) (4 * Z.to_nat (nb - 10)) b else v x) →
  frep v' (<[b := (inum, path_of nb)]> own1) inum d' (nb + 1) c.
Proof using H.
  intros Hnb Ed Hf Hw Ha Ha0 Hfr Hz Hu Hla Hv. pose proof frep_addrs as Hal. destruct (fr_nb _ _ _ _ _ _ H) as [N1 N2]. pose proof (fr_ind _ _ _ _ _ _ H) as I.
  assert (∀ j, nth j (i_addrs d') 0 = if decide (j = 10%nat) then a else nth j (i_addrs d) 0) as Hn.
  { intros j. rewrite Ed. destruct (decide (nb = 10)); [apply nth_put; lia|]. destruct (decide (j = 10%nat)) as [->|]; [by rewrite (proj1 Ha)|done]. }
  assert (∀ x y, own !! x = Some y → own1 !! x = Some y) as Hm.
  { intros x y Hx. destruct (decide (nb = 10)) as [_|_]; [|by destruct Ha as [_ ->]]. destruct Ha as (Ha & -> & _). rewrite lookup_insert_ne; [done|]. intros <-. by rewrite Ha in Hx. }
  assert (own1 !! a = Some (inum, (10%nat, []))) as Hoa.
  { destruct (decide (nb = 10)) as [_|Hne]; [destruct Ha as (_ & -> & _); by rewrite lookup_insert_eq|]. destruct Ha as [-> ->]. by rewrite decide_False in I by lia. }
  assert (a ≠ b) as Hab by (intros ->; by rewrite Hfr in Hoa).
  assert (∀ bn, 0 ≤ bn < nb → leafb v d bn ≠ a) as Hla'.
  { intros bn Hbn E. pose proof (Hm _ _ (fr_leaf _ _ _ _ _ _ H bn Hbn)) as Hl. rewrite E, Hoa in Hl. injection Hl as Hl. revert Hl. unfold path_of. split_ltb; [intros [= E']; lia|done|lia..]. }
  assert (∀ k, (k < 128)%nat → ld32 (v a) (4 * k) = if decide (nb = 10) then 0 else follow v (nth 10 (i_addrs d) 0) k) as Hold.
  { intros k Hk. destruct (decide (nb = 10)) as [_|_]; [destruct Ha as (_ & _ & ->); apply ld32_zero|]. destruct Ha as [<- _]. unfold follow. by rewrite decide_False. }
  assert (∀ bn, 0 ≤ bn < 138 → leafb v' d' bn = if decide (bn = nb) then b else leafb v d bn) as El.
  { intros bn Hbn. unfold leafb. rewrite !Hn. destruct (Z.ltb_spec bn 10).
    - rewrite !decide_False by lia. done.
    - rewrite decide_True by done. unfold follow at 1. rewrite decide_False by done. rewrite Hv, decide_True by done.
      destruct (decide (bn = nb)) as [->|Hne].
      + rewrite ld32_st32_eq by (rewrite Hla; unfold BSIZE; lia). by apply u32_small.
      + rewrite ld32_st32_ne by (rewrite ?Hla; unfold BSIZE; lia). rewrite Hold by lia. destruct (decide (nb = 10)) as [E10|]; [|done].
        rewrite decide_True in I by lia. by rewrite I. }
  split; [done|done| |lia| | | |].
  - rewrite !Hn, !decide_False by lia. apply (fr_top _ _ _ _ _ _ H).
  - intros bn Hbn. rewrite El by lia. destruct (decide (bn = nb)) as [->|E]; [by rewrite lookup_insert_eq|].
    pose proof (Hm _ _ (fr_leaf _ _ _ _ _ _ H bn ltac:(lia))) as Hl. rewrite lookup_insert_ne; [done|]. intros E'. rewrite <-E', Hfr in Hl. done.
  - intros bn Hbn. rewrite El by lia. rewrite decide_False by lia. apply (fr_none _ _ _ _ _ _ H). lia.
  - rewrite decide_False by lia. rewrite Hn, decide_True by done. rewrite lookup_insert_ne by done. done.
  - apply new_bytes.
    + intros bn Hbn. rewrite El by lia. rewrite decide_False by lia. split; [done|]. rewrite Hv. by rewrite decide_False by by apply Hla'.
    + rewrite El by lia. rewrite decide_True by done. rewrite Hv. by rewrite decide_False.
Qed.
End newblock.

(** ** The image *)

Definition vw (s : mkfs) : Z → block := dk (m_img s).

(** The blocks that [nb] blocks of contents take, and those of all files. *)
Definition need (nb : Z) : Z := nb + if decide (10 < nb) then 1 else 0.
Definition total (fs : list (Z * list Z)) : Z := foldr (λ f n, need f.1 + n) 0 fs.

Lemma total_insert fs i f f' : fs !! i = Some f → total (<[i := f']> fs) = total fs - need f.1 + need f'.1.
Proof.
  revert i. induction fs as [|g fs IH]; intros [|i] Hi; simplify_eq/=; [lia|]. rewrite (IH i Hi). lia.
Qed.
Lemma total_app fs gs : total (fs ++ gs) = total fs + total gs.
Proof. induction fs as [|g fs IH]; simpl; [done|]. rewrite IH. lia. Qed.

Definition set_addrs (a : list Z) (p : inode) : inode :=
  mkInode (i_dev p) (i_inum p) (i_ref p) (i_lock p) (i_valid p) (i_type p) (i_major p) (i_minor p) (i_nlink p) (i_size p) a.
Lemma set_addrs_id p : p = set_addrs (i_addrs p) p.
Proof. by destruct p. Qed.

(** The files [fs], number of blocks and contents; [dn] are their inodes. *)
Record mk_ok (s : mkfs) (own : gmap Z (Z * path)) (fs : list (Z * list Z)) (dn : nat → inode) : Prop := {
  mo_dom : ∀ b, 0 ≤ b < FSSIZE → is_Some (m_img s !! b);
  mo_len : ∀ b, length (vw s b) = BSIZE;
  mo_fb : m_freeblock s = nmeta + total fs;
  mo_fi : m_freeinode s = Z.of_nat (length fs) + 1;
  mo_own : ∀ b, is_Some (own !! b) ↔ nmeta ≤ b < m_freeblock s;
  mo_zero : ∀ b, m_freeblock s ≤ b < FSSIZE → vw s b = zero_block;
  mo_files : ∀ i f, fs !! i = Some f → frep (vw s) own (Z.of_nat i + 1) (dn i) f.1 f.2
}.
Lemma meta_val : nmeta = 68.
Proof. reflexivity. Qed.
Definition kept (s s' : mkfs) : Prop := ∀ b, b < nmeta → vw s' b = vw s b.
Definition upd (dn : nat → inode) (i : nat) (d : inode) (j : nat) : inode := if decide (j = i) then d else dn j.

Lemma vw_insert s sec buf b : vw (set_img (<[sec := buf]> (m_img s)) s) b = if decide (b = sec) then buf else vw s b.
Proof. unfold vw, dk. simpl. case_decide as E; [subst; by rewrite lookup_insert_eq|by rewrite lookup_insert_ne]. Qed.

Lemma wp_rsect s b Q : is_Some (m_img s !! b) → Q (vw s b) s → wp (rsect b) Q s.
Proof.
  intros [d Hd] HQ. unfold rsect. wstep. wstep. rewrite Hd. apply wp_ret. unfold vw, dk in HQ. by rewrite Hd in HQ.
Qed.

Lemma mk_ok_ext s own fs dn dn' : mk_ok s own fs dn → (∀ j, dn' j = dn j) → mk_ok s own fs dn'.
Proof. intros O E. destruct O. split; try done. intros j f Hj. rewrite E. auto. Qed.

Lemma total_nonneg s own fs dn : mk_ok s own fs dn → 0 ≤ total fs.
Proof.
  intros O. assert (∀ l, (∀ f, f ∈ l → 0 ≤ f.1) → 0 ≤ total l) as Ht.
  { induction l as [|f l IH]; intros Hl; simpl; [done|]. pose proof (Hl f ltac:(left)). pose proof (IH ltac:(intros g Hg; apply Hl; by right)). unfold need. case_decide; lia. }
  apply Ht. intros f [j Hj]%list_elem_of_lookup. apply (fr_nb _ _ _ _ _ _ (mo_files _ _ _ _ O j f Hj)).
Qed.

(** A change that concerns one file. *)
Lemma mk_ok_step s own fs dn i f f' d' s' own' :
  mk_ok s own fs dn → fs !! i = Some f → frep (vw s') own' (Z.of_nat i + 1) d' f'.1 f'.2 → (∀ b x, own !! b = Some x → own' !! b = Some x) →
  (∀ b, vw s' b ≠ vw s b → ∃ q, own' !! b = Some (Z.of_nat i + 1, q)) → (∀ b, is_Some (own' !! b) ↔ nmeta ≤ b < m_freeblock s') →
  m_freeblock s ≤ m_freeblock s' → m_freeblock s' = m_freeblock s - need f.1 + need f'.1 → m_freeinode s' = m_freeinode s →
  (∀ b, is_Some (m_img s !! b) → is_Some (m_img s' !! b)) → (∀ b, length (vw s' b) = BSIZE) →
  mk_ok s' own' (<[i := f']> fs) (upd dn i d') ∧ kept s s'.
Proof.
  intros O Hi Hf Hm Hv Hown Hle Hfb Hfi Hdom Hlen.
  assert (∀ b, (∀ q, own' !! b ≠ Some (Z.of_nat i + 1, q)) → vw s' b = vw s b) as Hsame.
  { intros b Hb. destruct (decide (vw s' b = vw s b)) as [|Hne]; [done|]. destruct (Hv b Hne) as [q Hq]. by apply Hb in Hq. }
  assert (∀ b, ¬ (nmeta ≤ b < m_freeblock s') → vw s' b = vw s b) as Hout by (intros b Hb; apply Hsame; intros q Hq; apply Hb, Hown; by exists (Z.of_nat i + 1, q)).
  split; [|intros b Hb; apply Hout; lia]. split.
  - intros b Hb. by apply Hdom, (mo_dom _ _ _ _ O).
  - done.
  - rewrite (total_insert _ _ _ _ Hi), Hfb, (mo_fb _ _ _ _ O). lia.
  - by rewrite length_insert, Hfi, (mo_fi _ _ _ _ O).
  - done.
  - intros b Hb. rewrite Hout by lia. apply (mo_zero _ _ _ _ O). lia.
  - intros j g. unfold upd. case_decide as E.
    + subst j. rewrite list_lookup_insert_eq by by eapply lookup_lt_Some. by intros [= <-].
    + rewrite list_lookup_insert_ne by done. intros Hj. eapply frep_frame; [by apply (mo_files _ _ _ _ O)|done|].
      intros b q Hb. apply Hsame. intros q' Hq'. apply Hm in Hb. rewrite Hb in Hq'. injection Hq' as Hq' _. lia.
Qed.

(** ** [iappend] *)

Section append.
Context (s : mkfs) (own : gmap Z (Z * path)) (fs : list (Z * list Z)) (dn : nat → inode) (i : nat) (nb : Z) (c : list Z).
Context (O : mk_ok s own fs dn) (Hi : fs !! i = Some (nb, c)).
Abbreviation inum := (Z.of_nat i + 1).

Lemma app_frep : frep (vw s) own inum (dn i) nb c.
Proof using O Hi. apply (mo_files _ _ _ _ O i _ Hi). Qed.
Lemma own_range b x : own !! b = Some x → nmeta ≤ b < m_freeblock s ∧ b ≠ 0.
Proof using O. intros Hb. assert (nmeta ≤ b < m_freeblock s) as H by (apply (mo_own _ _ _ _ O); by eexists). split; [done|]. rewrite meta_val in H. lia. Qed.
Lemma fresh_own b : m_freeblock s ≤ b → own !! b = None.
Proof using O. intros Hb. apply eq_None_not_Some. intros H%(mo_own _ _ _ _ O). lia. Qed.

(** The next block, entered into [own]. *)
Lemma own_next (q : Z * path) (own' : gmap Z (Z * path)) : (∀ b, is_Some (own' !! b) ↔ nmeta ≤ b < m_freeblock s) → nmeta ≤ m_freeblock s →
  ∀ b, is_Some (<[m_freeblock s := q]> own' !! b) ↔ nmeta ≤ b < m_freeblock s + 1.
Proof using Type.
  intros H Hm b. destruct (decide (b = m_freeblock s)) as [->|Hne].
  - rewrite lookup_insert_eq. split; [lia|by eexists].
  - rewrite lookup_insert_ne by done. rewrite H. lia.
Qed.

Lemma need_next : 0 ≤ nb → need (nb + 1) = need nb + 1 + if decide (nb = 10) then 1 else 0.
Proof using Type. unfold need. repeat case_decide; lia. Qed.

(** What [block_of] leaves: only addresses of the inode change. *)
Definition has_block (fbn : Z) (r : inode * Z) (s' : mkfs) : Prop :=
  ∃ own', mk_ok s' own' (<[i := (Z.max nb (fbn + 1), c)]> fs) (upd dn i r.1) ∧ kept s s' ∧ (∃ a, r.1 = set_addrs a (dn i)) ∧ r.2 = leafb (vw s') r.1 fbn.

Lemma fb_bounds : nmeta ≤ m_freeblock s.
Proof using O. rewrite (mo_fb _ _ _ _ O). pose proof (total_nonneg _ _ _ _ O). lia. Qed.

Lemma block_same fbn : 0 ≤ fbn < nb → has_block fbn (dn i, leafb (vw s) (dn i) fbn) s.
Proof using O Hi.
  intros Hf. pose proof app_frep as F. exists own. rewrite Z.max_l by lia. split_and!; [|done|eexists; apply set_addrs_id|done].
  eapply (mk_ok_step s own fs dn i (nb, c) (nb, c) (dn i) s own); try done; try lia; apply O.
Qed.

Lemma block_direct_new : nb < 10 → m_freeblock s < FSSIZE → let b := m_freeblock s in
  has_block nb (set_i_addr (Z.to_nat nb) b (dn i), b) (set_freeblock (u32 (b + 1)) s).
Proof using O Hi.
  intros Hn Hb b. pose proof app_frep as F. pose proof fb_bounds as Hm. rewrite meta_val in Hm. unfold FSSIZE in Hb. destruct (fr_nb _ _ _ _ _ _ F) as [[N1 N2] N3].
  assert (u32 (b + 1) = b + 1) as -> by (apply u32_small; unfold is_u32, two32, b; lia).
  pose proof (frep_new_direct _ _ _ _ _ _ F b Hn (fresh_own b ltac:(unfold b; lia)) (mo_zero _ _ _ _ O b ltac:(unfold b, FSSIZE; lia)) ltac:(unfold is_u32, two32, b; lia) ltac:(unfold b; lia)) as F'.
  exists (<[b := (inum, path_of nb)]> own). rewrite Z.max_r by lia.
  destruct (mk_ok_step s own fs dn i (nb, c) (nb + 1, c) (set_i_addr (Z.to_nat nb) b (dn i)) (set_freeblock (b + 1) s) (<[b := (inum, path_of nb)]> own) O Hi F') as [O' K]; simpl; try done.
  - intros x y Hx. rewrite lookup_insert_ne; [done|]. intros <-. by rewrite fresh_own in Hx by (unfold b; lia).
  - apply own_next; [apply O|rewrite meta_val; lia].
  - unfold b. lia.
  - rewrite need_next, decide_False by lia. unfold b. lia.
  - apply O.
  - split_and!; [done|done|by eexists|]. simpl. unfold leafb. rewrite (proj2 (Z.ltb_lt _ _)) by done. simpl. rewrite nth_put by (rewrite (frep_addrs _ _ _ _ _ _ F); lia). by rewrite decide_True.
Qed.

(** The indirect block, and the block entered into it. *)
Definition ind_a : Z := if decide (nb = 10) then m_freeblock s else nth 10 (i_addrs (dn i)) 0.
Definition ind_d : inode := if decide (nb = 10) then set_i_addr 10 (m_freeblock s) (dn i) else dn i.
Definition ind_x : Z := m_freeblock s + if decide (nb = 10) then 1 else 0.
Definition ind_s : mkfs := set_img (<[ind_a := st32 (vw s ind_a) (4 * Z.to_nat (nb - 10)) ind_x]> (m_img s)) (set_freeblock (ind_x + 1) s).

Lemma block_leaf_new : 10 ≤ nb < 138 → m_freeblock s + 2 ≤ FSSIZE → has_block nb (ind_d, ind_x) ind_s.
Proof using O Hi.
  intros Hn Hb. pose proof app_frep as F. pose proof fb_bounds as Hm. rewrite meta_val in Hm. unfold FSSIZE in Hb. destruct (fr_nb _ _ _ _ _ _ F) as [[N1 N2] N3].
  set (own1 := if decide (nb = 10) then <[ind_a := (inum, (10%nat, []))]> own else own).
  assert (∀ b y, own !! b = Some y → own1 !! b = Some y) as Hm1.
  { intros b y Hy. unfold own1, ind_a. case_decide; [|done]. rewrite lookup_insert_ne; [done|]. intros <-. by rewrite fresh_own in Hy by lia. }
  assert (own1 !! ind_a = Some (inum, (10%nat, []))) as Ha1.
  { unfold own1, ind_a. pose proof (fr_ind _ _ _ _ _ _ F) as I. destruct (decide (nb = 10)); [by rewrite lookup_insert_eq|]. by rewrite decide_False in I by lia. }
  assert (∀ b, is_Some (own1 !! b) ↔ nmeta ≤ b < ind_x) as Ho1.
  { unfold own1, ind_a, ind_x. case_decide; [apply own_next; [apply O|rewrite meta_val; lia]|]. rewrite Z.add_0_r. apply O. }
  assert (own1 !! ind_x = None) as Hx1 by (apply eq_None_not_Some; rewrite Ho1; lia).
  assert (68 ≤ ind_a < ind_x) as Har by (apply Ho1; by rewrite Ha1).
  assert (m_freeblock s ≤ ind_x < 40000) as Hxr by (unfold ind_x; case_decide; lia).
  assert (∀ x, vw ind_s x = if decide (x = ind_a) then st32 (vw s ind_a) (4 * Z.to_nat (nb - 10)) ind_x else vw s x) as Hv by (intros x; unfold ind_s; by rewrite (vw_insert (set_freeblock (ind_x + 1) s))).
  assert (frep (vw ind_s) (<[ind_x := (inum, path_of nb)]> own1) inum ind_d (nb + 1) c) as F'.
  { apply (frep_new_leaf _ _ _ _ _ _ F _ _ ind_a); try done; try lia.
    - unfold ind_d, ind_a. by case_decide.
    - unfold ind_d. case_decide; [eapply set_addr_fits; [done|unfold is_u32, two32; lia]|apply F].
    - unfold ind_d. case_decide; [by eapply set_addr_base|apply F].
    - unfold own1, ind_a. case_decide; [|done]. split_and!; [apply fresh_own; lia|done|]. apply (mo_zero _ _ _ _ O). unfold FSSIZE. lia.
    - apply (mo_zero _ _ _ _ O). unfold FSSIZE. lia.
    - unfold is_u32, two32. lia.
    - apply O. }
  exists (<[ind_x := (inum, path_of nb)]> own1). rewrite Z.max_r by lia.
  destruct (mk_ok_step s own fs dn i (nb, c) (nb + 1, c) ind_d ind_s (<[ind_x := (inum, path_of nb)]> own1) O Hi F') as [O' K]; simpl; try done.
  - intros b y Hy%Hm1. rewrite lookup_insert_ne; [done|]. intros <-. by rewrite Hx1 in Hy.
  - intros b Hb'. rewrite Hv in Hb'. case_decide as E; [subst b|done]. exists (10%nat, []). by rewrite lookup_insert_ne by lia.
  - intros b. destruct (decide (b = ind_x)) as [->|Hne]; [rewrite lookup_insert_eq; split; [rewrite meta_val; lia|by eexists]|]. rewrite lookup_insert_ne by done. rewrite Ho1. lia.
  - lia.
  - rewrite need_next by lia. unfold ind_x. case_decide; lia.
  - intros b Hb'. destruct (decide (b = ind_a)) as [->|]; [by rewrite lookup_insert_eq; eexists|]. by rewrite lookup_insert_ne.
  - intros b. rewrite Hv. case_decide; [rewrite length_st32|]; apply O.
  - split_and!; [done|done|unfold ind_d; case_decide; eexists; [done|apply set_addrs_id]|]. simpl. pose proof (fr_leaf _ _ _ _ _ _ F' nb ltac:(lia)) as Hl.
    destruct (decide (leafb (vw ind_s) ind_d nb = ind_x)) as [|Hne]; [done|]. exfalso. rewrite lookup_insert_ne in Hl by done.
    unfold leafb in Hne. rewrite (proj2 (Z.ltb_ge _ _)) in Hne by lia. apply Hne. unfold follow.
    assert (nth 10 (i_addrs ind_d) 0 = ind_a) as -> by (unfold ind_d, ind_a; case_decide; [simpl; by rewrite nth_put by (rewrite (frep_addrs _ _ _ _ _ _ F); lia)|done]).
    rewrite decide_False by lia. rewrite Hv, decide_True by done. rewrite ld32_st32_eq by (rewrite (mo_len _ _ _ _ O); unfold BSIZE; lia). apply u32_small. unfold is_u32, two32. lia.
Qed.

Lemma sector_there b x : own !! b = Some x → m_freeblock s ≤ FSSIZE → is_Some (m_img s !! b).
Proof using O. intros Hb Hf. apply (mo_dom _ _ _ _ O). apply own_range in Hb. rewrite meta_val in Hb. lia. Qed.

Lemma block_of_old fbn : 0 ≤ fbn < nb → m_freeblock s ≤ FSSIZE → wp (block_of (dn i) fbn) (has_block fbn) s.
Proof using O Hi.
  intros Hf Hb. pose proof app_frep as F. destruct (fr_nb _ _ _ _ _ _ F) as [[N1 N2] N3]. pose proof (block_same fbn Hf) as HB.
  pose proof (fr_leaf _ _ _ _ _ _ F fbn Hf) as Hl. destruct (own_range _ _ Hl) as [_ Hl0]. unfold leafb in Hl0, HB. unfold block_of, NDIRECT. change (Z.of_nat 10) with 10.
  destruct (Z.ltb_spec fbn 10).
  - rewrite (proj2 (Z.eqb_neq _ _)) by done. by repeat wstep.
  - pose proof (fr_ind _ _ _ _ _ _ F) as I. rewrite decide_False in I by lia. destruct (own_range _ _ I) as [_ I0]. unfold follow in Hl0, HB. rewrite decide_False in Hl0, HB by done.
    rewrite (proj2 (Z.eqb_neq _ _)) by done. repeat wstep. apply wp_rsect; [by eapply sector_there|].
    rewrite (proj2 (Nat.leb_gt _ _)) by (unfold NINDIRECT; lia). rewrite (proj2 (Z.eqb_neq _ _)) by done. by apply wp_ret.
Qed.

Lemma block_of_new : nb < 138 → m_freeblock s + 2 ≤ FSSIZE → wp (block_of (dn i) nb) (has_block nb) s.
Proof using O Hi.
  intros Hn Hb. pose proof app_frep as F. destruct (fr_nb _ _ _ _ _ _ F) as [[N1 N2] N3]. pose proof fb_bounds as Hm. rewrite meta_val in Hm.
  pose proof (fr_none _ _ _ _ _ _ F nb ltac:(lia)) as Hl. pose proof (fr_ind _ _ _ _ _ _ F) as I. pose proof (frep_addrs _ _ _ _ _ _ F) as Hal. unfold leafb in Hl. unfold block_of, NDIRECT, next_block. change (Z.of_nat 10) with 10.
  destruct (Z.ltb_spec nb 10) as [Hlt|Hge].
  - rewrite Hl. simpl. repeat wstep. pose proof (block_direct_new Hlt ltac:(lia)) as HB. simpl in HB. simpl. rewrite nth_put by lia. by rewrite decide_True.
  - pose proof (block_leaf_new ltac:(lia) Hb) as HB. unfold ind_s, ind_d, ind_x, ind_a in HB. unfold FSSIZE in Hb.
    destruct (decide (nb = 10)) as [E|E].
    + rewrite decide_True in I by lia. rewrite I, Z.eqb_refl. repeat wstep. cbn [i_addrs set_i_addr]. rewrite nth_put by lia. rewrite decide_True by done. apply wp_rsect; [apply (mo_dom _ _ _ _ O); unfold FSSIZE; simpl; lia|].
      rewrite (proj2 (Nat.leb_gt _ _)) by (unfold NINDIRECT; lia). change (vw (set_freeblock (u32 (m_freeblock s + 1)) s) (m_freeblock s)) with (vw s (m_freeblock s)).
      rewrite (mo_zero _ _ _ _ O) in HB |- * by (unfold FSSIZE; lia). rewrite ld32_zero, Z.eqb_refl. repeat wstep. cbn [m_freeblock set_freeblock] in *. rewrite !u32_small by (unfold is_u32, two32; lia). exact HB.
    + rewrite decide_False in I by lia. destruct (own_range _ _ I) as [_ I0]. unfold follow in Hl. rewrite decide_False in Hl by done.
      rewrite (proj2 (Z.eqb_neq _ _)) by done. repeat wstep. apply wp_rsect; [eapply sector_there; [done|unfold FSSIZE; lia]|].
      rewrite (proj2 (Nat.leb_gt _ _)) by (unfold NINDIRECT; lia). rewrite Hl, Z.eqb_refl. repeat wstep. rewrite !Z.add_0_r in HB. rewrite u32_small by (unfold is_u32, two32; lia). exact HB.
Qed.

Lemma block_of_spec fbn : 0 ≤ fbn ≤ nb → fbn < 138 → m_freeblock s + 2 ≤ FSSIZE → wp (block_of (dn i) fbn) (has_block fbn) s.
Proof using O Hi.
  intros Hf Hn Hb. destruct (decide (fbn = nb)) as [->|]; [by apply block_of_new|]. apply block_of_old; lia.
Qed.

(** Bytes written to the end of the file. *)
Lemma data_write bn (o : nat) (p : list Z) : 0 ≤ bn < nb → (o + length p ≤ 512)%nat → Z.of_nat (length c) = 512 * bn + Z.of_nat o → m_freeblock s ≤ FSSIZE →
  let x := leafb (vw s) (dn i) bn in let s' := set_img (<[x := splice o p (vw s x)]> (m_img s)) s in
  is_Some (m_img s !! x) ∧ mk_ok s' own (<[i := (nb, c ++ p)]> fs) (upd dn i (dn i)) ∧ kept s s'.
Proof using O Hi.
  intros Hbn Ho Hc Hf x s'. pose proof app_frep as F. pose proof (fr_leaf _ _ _ _ _ _ F bn Hbn) as Hx. fold x in Hx. split; [by eapply sector_there|].
  pose proof (mo_len _ _ _ _ O x) as Hl. pose proof (frep_write _ _ _ _ _ _ bn o p F Hbn Ho Hl Hc) as F'. fold x in F'. simpl in F'.
  assert (∀ b, vw s' b = if decide (b = x) then splice o p (vw s b) else vw s b) as Hv by (intros b; unfold s'; rewrite vw_insert; case_decide; by subst).
  apply (mk_ok_step s own fs dn i (nb, c) (nb, c ++ p) (dn i) s' own); simpl; try done; try lia.
  - eapply frep_ext; [exact Hv|exact F'].
  - intros b Hb. rewrite Hv in Hb. case_decide; [subst b|done]. by eexists.
  - apply O.
  - intros b Hb. destruct (decide (b = x)) as [->|]; [by rewrite lookup_insert_eq; eexists|]. by rewrite lookup_insert_ne.
  - intros b. rewrite Hv. case_decide; [|apply O]. subst. rewrite length_splice; [apply O|]. rewrite Hl. unfold BSIZE. lia.
Qed.
End append.

(** A file has as many blocks as its bytes take. *)
Definition nblk (c : list Z) : Z := (Z.of_nat (length c) + 511) / 512.
Definition fblocks (c : list Z) : Z * list Z := (nblk c, c).

Lemma need_mono a b : a ≤ b → need a ≤ need b.
Proof. unfold need. repeat case_decide; lia. Qed.
Lemma nblk_app c p : nblk c ≤ nblk (c ++ p).
Proof. unfold nblk. rewrite length_app. dlia. Qed.
Lemma upd_eq dn i d : upd dn i d i = d.
Proof. unfold upd. by rewrite decide_True. Qed.
Lemma upd_upd dn i d d' j : upd dn i d' j = upd (upd dn i d) i d' j.
Proof. unfold upd. by case_decide. Qed.

(** The number of the block that an append reaches. *)
Lemma append_bn c n1 m : (0 < n1)%nat → n1 = Nat.min m (Z.to_nat ((Z.of_nat (length c) / 512 + 1) * 512 - Z.of_nat (length c))) →
  (Z.of_nat (length c) + Z.of_nat n1 + 511) / 512 = Z.of_nat (length c) / 512 + 1 ∧ Z.max (nblk c) (Z.of_nat (length c) / 512 + 1) = Z.of_nat (length c) / 512 + 1 ∧
  0 ≤ Z.of_nat (length c) / 512 ≤ nblk c ∧ (Z.to_nat (Z.of_nat (length c) mod 512) + n1 ≤ 512)%nat.
Proof. unfold nblk. intros. split_and!; dlia. Qed.

Section iappend.
Context (s0 : mkfs) (fs : list (Z * list Z)) (dn : nat → inode) (i : nat) (c0 xp : list Z).
Context (Hi : fs !! i = Some (fblocks c0)) (Hlen : Z.of_nat (length (c0 ++ xp)) ≤ 138 * 512) (Hroom : nmeta + total (<[i := fblocks (c0 ++ xp)]> fs) + 2 ≤ FSSIZE).

(** What holds while [iappend] runs: it has written [c] and [p] is left. *)
Definition appending (n : nat) (a : inode * Z * list Z) (s : mkfs) : Prop :=
  let '(din, off, p) := a in ∃ c own, n = length p ∧ mk_ok s own (<[i := fblocks c]> fs) (upd dn i din) ∧ kept s0 s ∧
    off = Z.of_nat (length c) ∧ c ++ p = c0 ++ xp ∧ ∃ ad, din = set_addrs ad (dn i).

Lemma room_for c p nb : c ++ p = c0 ++ xp → nb ≤ nblk (c ++ p) → ∀ s own d, mk_ok s own (<[i := (nb, c)]> fs) d → m_freeblock s + 2 ≤ FSSIZE.
Proof using Hi Hroom.
  intros E Hn s own d O. rewrite (mo_fb _ _ _ _ O). pose proof Hroom as Hr. rewrite (total_insert _ _ _ _ Hi) in Hr. rewrite (total_insert _ _ _ _ Hi). simpl in *. rewrite <-E in Hr. pose proof (need_mono _ _ Hn). lia.
Qed.

Lemma appending_step n din off p s : appending n (din, off, p) s → p ≠ [] →
  let fbn := off / 512 in let n1 := Nat.min (length p) (Z.to_nat ((fbn + 1) * 512 - off)) in
  0 ≤ fbn < 138 ∧
  wp (b ← block_of din fbn; let '(din, x) := b in buf ← rsect x; wsect x (splice (Z.to_nat (off - fbn * 512)) (take n1 p) buf);; mret (inl (B := inode * Z) (din, u32 (off + Z.of_nat n1), drop n1 p)))
    (λ r s', match r with inl a' => ∃ m, (m < n)%nat ∧ appending m a' s' | inr _ => False end) s.
Proof using Hi Hlen Hroom.
  intros (c & own & -> & O & K & -> & Ec & ad & Ed) Hp fbn n1.
  assert (0 < length p)%nat as Hp0 by (destruct p; [done|simpl; lia]). assert (0 < n1)%nat as Hn1 by (unfold n1, fbn; dlia).
  destruct (append_bn c n1 (length p) Hn1 eq_refl) as (E1 & E2 & E3 & E4). fold fbn in E1, E2, E3.
  assert (Z.of_nat (length c) + Z.of_nat (length p) ≤ 138 * 512) as Hcl by (rewrite <-Ec, length_app in Hlen; lia).
  assert (fbn < 138) as Hf by (unfold fbn; dlia). split; [lia|].
  assert (length (take n1 p) = n1) as Htl by (rewrite length_take; lia).
  assert (fbn + 1 = nblk (c ++ take n1 p)) as Enb by (unfold nblk; rewrite length_app, Htl; lia).
  assert (fbn + 1 ≤ nblk (c ++ p)) as Hnb by (rewrite Enb; rewrite <-(take_drop n1 p) at 2; rewrite app_assoc; apply nblk_app).
  set (fs1 := <[i := fblocks c]> fs) in *. assert (fs1 !! i = Some (nblk c, c)) as Hi1 by (unfold fs1; rewrite list_lookup_insert_eq; [done|by eapply lookup_lt_Some]).
  assert (m_freeblock s + 2 ≤ FSSIZE) as Hb1 by (eapply (room_for c p (nblk c)); [done|apply nblk_app|exact O]).
  apply wp_bind. pose proof (block_of_spec s own fs1 (upd dn i din) i (nblk c) c O Hi1 fbn E3 Hf Hb1) as HB. rewrite upd_eq in HB. wcall HB.
  intros [d1 x] s1 (own1 & O1 & K1 & [ad1 Ed1] & Ex). simpl in Ex, Ed1, O1. rewrite E2 in O1. unfold fs1 in O1. rewrite list_insert_insert_eq in O1.
  apply mk_ok_ext with (dn' := upd dn i d1) in O1; [|intros j; apply upd_upd].
  assert (m_freeblock s1 + 2 ≤ FSSIZE) as Hb2 by (eapply (room_for c p (fbn + 1)); [done|done|exact O1]).
  destruct (data_write s1 own1 _ (upd dn i d1) i (fbn + 1) c O1 ltac:(apply list_lookup_insert_eq; by eapply lookup_lt_Some) fbn (Z.to_nat (Z.of_nat (length c) mod 512)) (take n1 p)) as (Hx & O2 & K2).
  { lia. } { lia. } { unfold fbn. dlia. } { lia. }
  rewrite upd_eq in Hx, O2, K2. rewrite <-Ex in Hx, O2, K2. replace (Z.to_nat (Z.of_nat (length c) - fbn * 512)) with (Z.to_nat (Z.of_nat (length c) mod 512)) by (unfold fbn; f_equal; dlia).
  apply wp_bind, wp_rsect; [done|]. repeat wstep. exists (length (drop n1 p)). split; [rewrite length_drop; lia|].
  exists (c ++ take n1 p), own1. split_and!.
  - done.
  - rewrite list_insert_insert_eq in O2. rewrite Enb in O2. eapply mk_ok_ext; [exact O2|]. intros j. apply upd_upd.
  - intros b Hb. rewrite K2, K1, K; done.
  - rewrite length_app, Htl. rewrite u32_small; [lia|]. unfold is_u32, two32. lia.
  - by rewrite <-app_assoc, take_drop.
  - rewrite upd_eq in Ed1. exists ad1. by rewrite Ed1, Ed.
Qed.
End iappend.

(** ** Inodes in the image *)

Definition dino (s : mkfs) (k : Z) : inode := load_dinode (dinode_off k) (vw s (IBLOCK k mk_sb)) inode0.

(** The image has its sectors. *)
Definition full (s : mkfs) : Prop := (∀ b, 0 ≤ b < FSSIZE → is_Some (m_img s !! b)) ∧ ∀ b, length (vw s b) = BSIZE.

Lemma IBLOCK_val k : 0 ≤ k < 208 → IBLOCK k mk_sb = k / 8 + 32 ∧ 32 ≤ k / 8 + 32 < 58.
Proof. intros Hk. unfold IBLOCK. change (sb_inodestart mk_sb) with 32. unfold IPB. rewrite u32_small; [|unfold is_u32, two32]; dlia. Qed.

Lemma rinode_spec s k Q : full s → 0 ≤ k < 208 → Q (dino s k) s → wp (rinode k) Q s.
Proof.
  intros [F _] Hk HQ. unfold rinode. apply wp_bind, wp_rsect; [apply F; destruct (IBLOCK_val k Hk) as [-> ?]; unfold FSSIZE; lia|]. by apply wp_ret.
Qed.

Lemma winode_spec s k d : full s → 0 ≤ k < 208 → dinode_fits d → with_fields d inode0 = d →
  wp (winode k d) (λ _ s', full s' ∧ m_freeblock s' = m_freeblock s ∧ m_freeinode s' = m_freeinode s ∧
    (∀ j, 0 ≤ j < 208 → dino s' j = if decide (j = k) then d else dino s j) ∧ ∀ b, ¬ (32 ≤ b < 58) → vw s' b = vw s b) s.
Proof.
  intros [F L] Hk Hd Hw. destruct (IBLOCK_val k Hk) as [Ek Rk]. unfold winode. apply wp_bind, wp_rsect; [apply F; rewrite Ek; unfold FSSIZE; lia|]. apply wp_modify.
  pose proof (L (IBLOCK k mk_sb)) as Lk. unfold BSIZE in Lk.
  assert (dinode_off k + 64 ≤ 512)%nat as Ho by (unfold dinode_off, IPB; dlia). split_and!.
  - split.
    + intros b Hb. simpl. destruct (decide (b = IBLOCK k mk_sb)) as [->|]; [by rewrite lookup_insert_eq; eexists|]. rewrite lookup_insert_ne by done. by apply F.
    + intros b. rewrite vw_insert. case_decide; [|apply L]. unfold store_dinode, st16. rewrite length_st32s, length_st32, !length_insert. apply L.
  - done.
  - done.
  - intros j Hj. unfold dino. rewrite vw_insert. destruct (IBLOCK_val j Hj) as [Ej Rj]. destruct (decide (j = k)) as [->|Hne].
    + rewrite decide_True by done. rewrite load_store_dinode; [done|done|]. by rewrite Lk.
    + case_decide as E; [|done]. rewrite load_dinode_out; [by rewrite <-E|apply Hd|by rewrite Lk|]. rewrite Ej, Ek in E. unfold dinode_off, IPB. dlia.
  - intros b Hb. rewrite vw_insert, decide_False; [done|]. lia.
Qed.

(** Metadata and inodes may change as long as the inodes keep their blocks. *)
Lemma mk_ok_meta s s' own fs dn dn' : mk_ok s own fs dn → full s' → m_freeblock s' = m_freeblock s → m_freeinode s' = m_freeinode s →
  (∀ b, nmeta ≤ b → vw s' b = vw s b) →
  (∀ j f, fs !! j = Some f → i_addrs (dn' j) = i_addrs (dn j) ∧ dinode_fits (dn' j) ∧ with_fields (dn' j) inode0 = dn' j) → mk_ok s' own fs dn'.
Proof.
  intros O [F L] Hb Hn Hv Hd. split; rewrite ?Hb, ?Hn; try apply O; try done.
  - intros b Hr. rewrite Hv; [by apply O|]. pose proof (total_nonneg _ _ _ _ O). rewrite (mo_fb _ _ _ _ O) in *. lia.
  - intros j f Hj. destruct (Hd j f Hj) as (E & ? & ?). destruct (mo_files _ _ _ _ O j f Hj) as [_ _ T N Lf Z I Y].
    assert (∀ bn, leafb (vw s') (dn' j) bn = leafb (vw s) (dn j) bn) as El.
    { intros bn. unfold leafb. rewrite E. destruct (Z.ltb bn 10); [done|]. unfold follow. destruct (decide (nth 10 (i_addrs (dn j)) 0 = 0)); [done|]. rewrite Hv; [done|].
      case_decide; [done|]. assert (nmeta ≤ nth 10 (i_addrs (dn j)) 0 < m_freeblock s) by (apply O; by eexists). lia. }
    split; [done|done|by rewrite E|done| | |by rewrite E|].
    + intros bn Hbn. rewrite El. by apply Lf.
    + intros bn Hbn. rewrite El. by apply Z.
    + intros o Ho. rewrite El. rewrite Hv; [by apply Y|]. assert (nmeta ≤ leafb (vw s) (dn j) (o / 512) < m_freeblock s); [|lia]. apply O. eexists. apply Lf. dlia.
Qed.

(** The image of the files [fl], the type and the contents of each, in the
    order of their inodes. *)
Definition fdata (fl : list (Z * list Z)) : list (Z * list Z) := (λ f, fblocks f.2) <$> fl.
Record img (s : mkfs) (fl : list (Z * list Z)) : Prop := {
  mi_ok : ∃ own, mk_ok s own (fdata fl) (λ j, dino s (Z.of_nat j + 1));
  mi_meta : ∀ j f, fl !! j = Some f → let d := dino s (Z.of_nat j + 1) in i_type d = f.1 ∧ i_nlink d = 1 ∧ i_size d = Z.of_nat (length f.2);
  mi_free : ∀ k, Z.of_nat (length fl) < k < 208 → i_type (dino s k) = 0;
  mi_head : ∀ b, b < 32 → vw s b = if decide (b = 1) then sb_block else zero_block;
  mi_bmap : ∀ b, 58 ≤ b < 68 → vw s b = zero_block
}.

Lemma fdata_lookup fl i f : fl !! i = Some f → fdata fl !! i = Some (fblocks f.2).
Proof. intros Hi. unfold fdata. by rewrite list_lookup_fmap, Hi. Qed.
Lemma fdata_insert fl i f : fdata (<[i := f]> fl) = <[i := fblocks f.2]> (fdata fl).
Proof. unfold fdata. by rewrite list_fmap_insert. Qed.

Lemma ok_full s own fs dn : mk_ok s own fs dn → full s.
Proof. intros O. split; apply O. Qed.

Lemma dino_kept s s' k : kept s s' → 0 ≤ k < 208 → dino s' k = dino s k.
Proof. intros K Hk. unfold dino. rewrite K; [done|]. destruct (IBLOCK_val k Hk) as [-> ?]. rewrite meta_val. lia. Qed.

Lemma resize_ok d z : dinode_fits d → with_fields d inode0 = d → is_u32 z → dinode_fits (set_i_size z d) ∧ with_fields (set_i_size z d) inode0 = set_i_size z d.
Proof.
  intros [] E Hz. split; [by split|]. revert E. generalize d. intros []. unfold with_fields, set_i_size. simpl. by intros [= -> -> -> -> ->].
Qed.

(** The metadata after one inode was written. *)
Lemma winode_img s s2 (fl fl' : list (Z * list Z)) i d ty c : (∀ j f, fl !! j = Some f → let d := dino s (Z.of_nat j + 1) in i_type d = f.1 ∧ i_nlink d = 1 ∧ i_size d = Z.of_nat (length f.2)) →
  (∀ k, Z.of_nat (length fl) < k < 208 → i_type (dino s k) = 0) → (length fl < 208)%nat → (length fl' < 208)%nat → (length fl ≤ length fl')%nat →
  (∀ j, fl' !! j = if decide (j = i) then Some (ty, c) else fl !! j) → i_type d = ty → i_nlink d = 1 → i_size d = Z.of_nat (length c) →
  (∀ j, 0 ≤ j < 208 → dino s2 j = if decide (j = Z.of_nat i + 1) then d else dino s j) →
  (∀ j f, fl' !! j = Some f → let d := dino s2 (Z.of_nat j + 1) in i_type d = f.1 ∧ i_nlink d = 1 ∧ i_size d = Z.of_nat (length f.2)) ∧
  (∀ k, Z.of_nat (length fl') < k < 208 → i_type (dino s2 k) = 0).
Proof.
  intros Hm Hf Hl Hl' Hle Hfl Ht Hn Hz Hd. split.
  - intros j f Hj. pose proof (lookup_lt_Some _ _ _ Hj) as Hlt. rewrite Hfl in Hj. cbv zeta. rewrite Hd by lia. case_decide as E.
    + subst j. rewrite decide_True by done. injection Hj as <-. simpl. by subst.
    + rewrite decide_False by lia. by apply Hm.
  - intros k Hk. rewrite Hd by lia. rewrite decide_False; [apply Hf; lia|]. intros ->. assert (i < length fl')%nat; [|lia]. apply lookup_lt_is_Some_1. rewrite Hfl, decide_True by done. by eexists.
Qed.

Lemma iappend_spec s fl i ty c xp : img s fl → fl !! i = Some (ty, c) → (length fl < 208)%nat → Z.of_nat (length (c ++ xp)) ≤ 138 * 512 →
  nmeta + total (fdata (<[i := (ty, c ++ xp)]> fl)) + 2 ≤ FSSIZE → wp (iappend (Z.of_nat i + 1) xp) (λ _ s', img s' (<[i := (ty, c ++ xp)]> fl)) s.
Proof.
  intros [[own O] Hm Hf Hhd Hbm] Hi Hl Hlen Hroom. pose proof (fdata_lookup _ _ _ Hi) as Hi'. simpl in Hi'. rewrite fdata_insert in Hroom. simpl in Hroom.
  pose proof (lookup_lt_Some _ _ _ Hi) as Hlt. destruct (Hm _ _ Hi) as (M1 & M2 & M3). cbn [fst snd] in M1, M2, M3. set (dn := λ j, dino s (Z.of_nat j + 1)) in *.
  unfold iappend. apply wp_bind, rinode_spec; [by eapply ok_full|lia|]. apply wp_bind.
  eapply wp_mono; [eapply (wp_loop (appending s (fdata fl) dn i c xp)) with (n := length xp) (Q := λ r s', appending s (fdata fl) dn i c xp 0 (r.1, r.2, []) s'); [|lia|]|].
  - intros n [[din off] p] s1 Ha. destruct p as [|x p].
    { apply wp_ret. destruct Ha as (c1 & own1 & -> & Ha). by exists c1, own1. }
    destruct (appending_step s (fdata fl) dn i c xp Hi' Hlen Hroom n din off (x :: p) s1 Ha ltac:(done)) as [Hr Hs]. cbv beta iota zeta. assert (MAXFILE = 36000) as -> by reflexivity. rewrite (proj2 (Z.leb_gt 36000 _)) by lia.
    eapply wp_mono; [exact Hs|]. by intros [[[? ?] ?]|] s2.
  - rewrite M3. exists c, own. split_and!; [done| |done|done|done|eexists; apply set_addrs_id]. rewrite list_insert_id by done. eapply mk_ok_ext; [exact O|]. intros j. unfold upd. by case_decide; subst.
  - intros [din off] s1 (c1 & own1 & _ & O1 & K1 & Eo & Ec & ad & Ed). rewrite app_nil_r in Ec. subst c1. cbn [fst snd] in Ed, Eo, O1. subst off.
    pose proof (mo_files _ _ _ _ O1 i _ ltac:(apply list_lookup_insert_eq; by eapply lookup_lt_Some)) as F1. rewrite upd_eq in F1.
    destruct (resize_ok din (Z.of_nat (length (c ++ xp))) (fr_fits _ _ _ _ _ _ F1) (fr_base _ _ _ _ _ _ F1)) as [R1 R2]; [unfold is_u32, two32; lia|].
    wcall (winode_spec s1 (Z.of_nat i + 1) _ (ok_full _ _ _ _ O1) ltac:(lia) R1 R2). intros [] s2 (F2 & Hb2 & Hn2 & Hd2 & Hv2).
    assert (∀ j, 0 ≤ j < 208 → dino s2 j = if decide (j = Z.of_nat i + 1) then set_i_size (Z.of_nat (length (c ++ xp))) din else dino s j) as Hd3.
    { intros j Hj. rewrite Hd2 by done. case_decide; [done|]. by apply dino_kept. }
    destruct (winode_img s s2 fl (<[i := (ty, c ++ xp)]> fl) i (set_i_size (Z.of_nat (length (c ++ xp))) din) ty (c ++ xp) Hm Hf Hl) as [A1 A2]; try done; rewrite ?length_insert; try done.
    { intros j. case_decide; [subst; by apply list_lookup_insert_eq|by apply list_lookup_insert_ne]. }
    { rewrite Ed. apply M1. } { rewrite Ed. apply M2. }
    split; [|done|done| |].
    + exists own1. rewrite fdata_insert. eapply mk_ok_meta; [exact O1|done..| |].
      * intros b Hb. apply Hv2. rewrite meta_val in Hb. lia.
      * intros j f Hj. pose proof (mo_files _ _ _ _ O1 j f Hj) as Fj. pose proof (lookup_lt_Some _ _ _ Hj) as Hjl. unfold fdata in Hjl. rewrite length_insert, length_fmap in Hjl. rewrite Hd3 by lia.
        unfold upd in Fj |- *. destruct (decide (j = i)) as [->|Hne]; [by rewrite decide_True|]. rewrite decide_False by lia. split_and!; [done|apply Fj|apply Fj].
    + intros b Hb. rewrite Hv2 by lia. rewrite K1 by (rewrite meta_val; lia). by apply Hhd.
    + intros b Hb. rewrite Hv2 by lia. rewrite K1 by (rewrite meta_val; lia). by apply Hbm.
Qed.

(** ** [ialloc] *)

Definition new_inode (ty : Z) : inode := set_i_size 0 (set_i_nlink 1 (set_i_type ty inode0)).

Lemma new_inode_ok ty : is_s16 ty → dinode_fits (new_inode ty) ∧ with_fields (new_inode ty) inode0 = new_inode ty.
Proof.
  intros Ht. split; [|done]. unfold is_s16 in *. split; unfold is_s16, is_u32, two32; simpl; try lia; try done. split; [done|]. repeat constructor; done.
Qed.

Lemma frep_empty v own inum ty : is_s16 ty → frep v own inum (new_inode ty) 0 [].
Proof.
  intros Ht. destruct (new_inode_ok ty Ht) as [H1 H2]. assert (∀ j, nth j (i_addrs (new_inode ty)) 0 = 0) as Hz by (intros j; do 13 (destruct j as [|j]; [done|]); by destruct j).
  split; [done|done|by rewrite !Hz|split; simpl; lia|lia| |by rewrite decide_True by lia|lia].
  intros bn Hb. unfold leafb. rewrite !Hz. case_match; [done|]. unfold follow. by rewrite decide_True.
Qed.

Lemma mk_ok_snoc s own fs dn ty : mk_ok s own fs dn → is_s16 ty →
  mk_ok (set_freeinode (m_freeinode s + 1) s) own (fs ++ [fblocks []]) (upd dn (length fs) (new_inode ty)).
Proof.
  intros O Ht. destruct O as [O1 O2 O3 O4 O5 O6 O7]. split; try done.
  - rewrite total_app. change (total [fblocks []]) with 0. cbn [m_freeblock set_freeinode]. lia.
  - rewrite length_app. simpl. lia.
  - intros i f Hi. unfold upd. apply lookup_app_Some in Hi as [Hi|[Hge Hi]].
    + rewrite decide_False by (apply lookup_lt_Some in Hi; lia). by apply O7.
    + apply list_lookup_singleton_Some in Hi as [Hi <-]. rewrite decide_True by lia. by apply frep_empty.
Qed.

Lemma mk_ialloc_spec s fl ty : img s fl → (length fl < 207)%nat → is_s16 ty →
  wp (mk_ialloc ty) (λ k s', k = Z.of_nat (length fl) + 1 ∧ img s' (fl ++ [(ty, [])])) s.
Proof.
  intros [[own O] Hm Hf Hhd Hbm] Hl Ht. pose proof (mo_fi _ _ _ _ O) as Hfi. unfold fdata in Hfi. rewrite length_fmap in Hfi.
  unfold mk_ialloc. do 4 wstep. rewrite u32_small by (unfold is_u32, two32; lia). rewrite Hfi. set (s1 := set_freeinode (Z.of_nat (length fl) + 1 + 1) s).
  pose proof (mk_ok_snoc s own _ _ ty O Ht) as O1. rewrite Hfi in O1. fold s1 in O1. destruct (new_inode_ok ty Ht) as [W1 W2].
  apply wp_bind. wcall (winode_spec s1 (Z.of_nat (length fl) + 1) (new_inode ty) (ok_full _ _ _ _ O1) ltac:(lia) W1 W2). intros [] s2 (F2 & Hb2 & Hn2 & Hd2 & Hv2). apply wp_ret. split; [done|].
  assert (∀ j, 0 ≤ j < 208 → dino s2 j = if decide (j = Z.of_nat (length fl) + 1) then new_inode ty else dino s j) as Hd3 by done.
  destruct (winode_img s s2 fl (fl ++ [(ty, [])]) (length fl) (new_inode ty) ty [] Hm Hf) as [A1 A2]; try done; rewrite ?length_app; simpl; try lia.
  { intros j. case_decide as E; [subst; by rewrite lookup_app_r, Nat.sub_diag by lia|]. destruct (decide (j < length fl)%nat); [by rewrite lookup_app_l|].
    rewrite lookup_app_r, lookup_ge_None_2, lookup_ge_None_2 by (simpl; lia). done. }
  split; [|done|done|intros b Hb; rewrite Hv2 by lia; by apply Hhd|intros b Hb; rewrite Hv2 by lia; by apply Hbm].
  exists own. unfold fdata in *. rewrite fmap_app. eapply mk_ok_meta; [exact O1|done..| |].
  - intros b Hb. apply Hv2. rewrite meta_val in Hb. lia.
  - intros j f Hj. pose proof (mo_files _ _ _ _ O1 j f Hj) as Fj. pose proof (lookup_lt_Some _ _ _ Hj) as Hjl. rewrite length_app, length_fmap in Hjl. simpl in Hjl. rewrite Hd3 by lia.
    rewrite length_fmap in Fj |- *. unfold upd in Fj |- *. destruct (decide (j = length fl)) as [->|Hne]; [by rewrite decide_True|]. rewrite decide_False by lia. split_and!; [done|apply Fj|apply Fj].
Qed.

(** ** [main] *)

Lemma blank_spec n s : wp (for_each (seq 0 n) (λ i, wsect (Z.of_nat i) zero_block))
  (λ _ s', (∀ b, 0 ≤ b < Z.of_nat n → is_Some (m_img s' !! b)) ∧ (∀ b, vw s b = zero_block → vw s' b = zero_block) ∧ m_freeinode s' = m_freeinode s ∧ m_freeblock s' = m_freeblock s) s.
Proof.
  apply (wp_for_seq (λ k s', (∀ b, 0 ≤ b < Z.of_nat k → is_Some (m_img s' !! b)) ∧ (∀ b, vw s b = zero_block → vw s' b = zero_block) ∧ m_freeinode s' = m_freeinode s ∧ m_freeblock s' = m_freeblock s)).
  - split_and!; try done. lia.
  - intros k s1 Hk (I1 & I2 & I3 & I4). apply wp_modify. split_and!; [| |done|done].
    + intros b Hb. simpl. destruct (decide (b = Z.of_nat k)) as [->|]; [by rewrite lookup_insert_eq; eexists|]. rewrite lookup_insert_ne by done. apply I1. lia.
    + intros b Hb. rewrite vw_insert. case_decide; [done|]. by apply I2.
Qed.

Lemma blank_img s : (∀ b, 0 ≤ b < FSSIZE → is_Some (m_img s !! b)) → (∀ b, vw s b = zero_block) → m_freeinode s = 1 → m_freeblock s = nmeta →
  img (set_img (<[1 := sb_block]> (m_img s)) s) [].
Proof.
  intros Hd Hz Hi Hb. set (s1 := set_img (<[1 := sb_block]> (m_img s)) s).
  assert (∀ b, vw s1 b = if decide (b = 1) then sb_block else zero_block) as Hv by (intros b; unfold s1; rewrite vw_insert; case_decide; [done|apply Hz]).
  split.
  - exists ∅. split.
    + intros b Hr. simpl. destruct (decide (b = 1)) as [->|]; [by rewrite lookup_insert_eq; eexists|]. rewrite lookup_insert_ne by done. by apply Hd.
    + intros b. rewrite Hv. case_decide; [|apply length_zero_block]. unfold sb_block. rewrite length_st32s. apply length_zero_block.
    + simpl. lia.
    + simpl. lia.
    + intros b. rewrite lookup_empty. split; [by intros []|]. simpl. lia.
    + intros b Hr. simpl in Hr. rewrite Hb, meta_val in Hr. rewrite Hv, decide_False by lia. done.
    + intros i f Hf. done.
  - intros j f Hf. done.
  - intros k Hk. simpl in Hk. unfold dino. destruct (IBLOCK_val k ltac:(lia)) as [-> ?]. rewrite Hv, decide_False by lia. unfold load_dinode. cbn [i_type]. unfold ld16. rewrite !zero_byte. reflexivity.
  - intros b _. apply Hv.
  - intros b Hr. rewrite Hv, decide_False by lia. done.
Qed.

(** What the files of the command line become. *)
Definition root_bytes (files : list (list Z * list (list Z))) : list Z :=
  dirent 1 [46] ++ dirent 1 [46; 46] ++ concat (imap (λ k f, dirent (Z.of_nat k + 2) (skip_underscore f.1)) files).
Definition image_files (files : list (list Z * list (list Z))) : list (Z * list Z) :=
  (T_DIR, root_bytes files) :: ((λ f, (T_FILE, concat f.2)) <$> files).

Lemma length_dirent k n : length (dirent k n) = 16%nat.
Proof. unfold dirent. rewrite length_app, length_strncpy_bytes. done. Qed.
Lemma root_bytes_snoc files f : root_bytes (files ++ [f]) = root_bytes files ++ dirent (Z.of_nat (length files) + 2) (skip_underscore f.1).
Proof. unfold root_bytes. rewrite imap_app, concat_app, !app_assoc. f_equal. cbn [imap concat]. rewrite app_nil_r. unfold compose. by rewrite Nat.add_0_r. Qed.
Lemma length_root_bytes files : length (root_bytes files) = (16 * (2 + length files))%nat.
Proof.
  induction files as [|f files IH] using rev_ind; [reflexivity|]. rewrite root_bytes_snoc, !length_app, length_dirent, IH. simpl. lia.
Qed.
Lemma root_bytes_prefix files more : ∃ l, root_bytes (files ++ more) = root_bytes files ++ l.
Proof.
  induction more as [|f more IH] using rev_ind; [exists []; by rewrite !app_nil_r|]. destruct IH as [l IH]. rewrite app_assoc, root_bytes_snoc, IH. eexists. by rewrite <-app_assoc.
Qed.

(** What [mkfs] can hold: names without a slash, files of at most 138 blocks
    and a bitmap of one block. *)
Record fits_image (files : list (list Z * list (list Z))) : Prop := {
  fi_files : ∀ f, f ∈ files → 47 ∉ f.1 ∧ Z.of_nat (length (concat f.2)) ≤ 138 * 512;
  fi_inodes : (length files ≤ 198)%nat;
  fi_blocks : nmeta + total (fdata (image_files files)) < 4096
}.

Abbreviation plain := (λ f : list Z * list (list Z), (T_FILE, concat f.2)).

Lemma total_fdata_nonneg fl : 0 ≤ total (fdata fl).
Proof. induction fl as [|f fl IH]; simpl; [done|]. unfold need, nblk. case_decide; dlia. Qed.

Lemma total_fdata_cons f fl : total (fdata (f :: fl)) = need (nblk f.2) + total (fdata fl).
Proof. reflexivity. Qed.
Lemma total_fdata_app fl gl : total (fdata (fl ++ gl)) = total (fdata fl) + total (fdata gl).
Proof. unfold fdata. by rewrite fmap_app, total_app. Qed.

Section adding.
Context (files : list (list Z * list (list Z))) (Hfit : fits_image files).

Lemma adding_room did name reads rest r l c l' : files = did ++ (name, reads) :: rest → root_bytes files = r ++ l → concat reads = c ++ l' →
  nmeta + total (fdata ((T_DIR, r) :: (plain <$> did) ++ [(T_FILE, c)])) + 2 ≤ FSSIZE ∧ Z.of_nat (length r) ≤ 138 * 512 ∧ Z.of_nat (length c) ≤ 138 * 512.
Proof using Hfit.
  intros E Hr Hc. pose proof (fi_blocks _ Hfit) as Hb. pose proof (fi_inodes _ Hfit) as Hn. pose proof (length_root_bytes files) as Hl. rewrite Hr, length_app in Hl.
  destruct (fi_files _ Hfit (name, reads)) as [_ Hs]; [rewrite E; apply elem_of_app; right; left|]. simpl in Hs. rewrite Hc, length_app in Hs.
  split; [|split; lia]. unfold image_files in Hb. rewrite Hr, E in Hb.
  rewrite fmap_app, fmap_cons, !total_fdata_cons, !total_fdata_app, !total_fdata_cons in Hb. rewrite total_fdata_cons, total_fdata_app, total_fdata_cons. cbn [fst snd] in *. rewrite Hc in Hb.
  pose proof (total_fdata_nonneg (plain <$> rest)). pose proof (need_mono _ _ (nblk_app r l)). pose proof (need_mono _ _ (nblk_app c l')). change (total (fdata [])) with 0. unfold FSSIZE. lia.
Qed.

Lemma add_file_spec s did name reads rest : files = did ++ (name, reads) :: rest → img s (image_files did) →
  wp (add_file 1 name reads) (λ _ s', img s' (image_files (did ++ [(name, reads)]))) s.
Proof using Hfit.
  intros E I. destruct (fi_files _ Hfit (name, reads)) as [Hs _]; [rewrite E; apply elem_of_app; right; left|]. simpl in Hs. pose proof (fi_inodes _ Hfit) as Hn. rewrite E, length_app in Hn. simpl in Hn.
  assert (length (image_files did) = S (length did)) as Hil by (simpl; by rewrite length_fmap).
  destruct (root_bytes_prefix (did ++ [(name, reads)]) rest) as [l Hl]. rewrite root_bytes_snoc, <-app_assoc in Hl. cbn [app fst snd] in Hl. rewrite <-E in Hl. set (de := dirent (Z.of_nat (length did) + 2) (skip_underscore name)) in *.
  unfold add_file. rewrite bool_decide_eq_false_2 by done.
  apply wp_bind. wcall (mk_ialloc_spec s _ T_FILE I ltac:(lia) ltac:(unfold is_s16, T_FILE; lia)). intros k s1 [-> I1]. rewrite Hil.
  replace (Z.of_nat (S (length did)) + 1) with (Z.of_nat (length did) + 2) by lia. fold de.
  destruct (adding_room did name reads rest _ l [] (concat reads) E Hl eq_refl) as (R1 & R2 & _).
  apply wp_bind. wcall (iappend_spec s1 _ 0 T_DIR (root_bytes did) de I1 eq_refl).
  { rewrite length_app, Hil. simpl. lia. } { done. } { exact R1. }
  intros [] s2 I2. assert (root_bytes did ++ de = root_bytes (did ++ [(name, reads)])) as Hr by by rewrite root_bytes_snoc. rewrite Hr in I2, Hl.
  set (r := root_bytes (did ++ [(name, reads)])) in *. simpl in I2.
  assert (∀ c, (T_DIR, r) :: (plain <$> did) ++ [(T_FILE, c)] = <[S (length did) := (T_FILE, c)]> ((T_DIR, r) :: (plain <$> did) ++ [(T_FILE, [])])) as Hins.
  { intros c. simpl. f_equal. replace (length did) with (length (plain <$> did) + 0)%nat by (rewrite length_fmap; lia). by rewrite insert_app_r. }
  eapply wp_mono; [apply (wp_for_each (λ done s', img s' ((T_DIR, r) :: (plain <$> did) ++ [(T_FILE, concat done)])))|].
  - exact I2.
  - intros done x more s3 Em I3. rewrite concat_app. simpl concat. rewrite app_nil_r.
    assert (concat reads = (concat done ++ x) ++ concat more) as Ec by (rewrite Em, concat_app; simpl; by rewrite <-app_assoc).
    destruct (adding_room did name reads rest r l _ _ E Hl Ec) as (R3 & _ & R4).
    rewrite (Hins (concat done ++ x)). rewrite (Hins (concat done)) in I3.
    replace (Z.of_nat (length did) + 2) with (Z.of_nat (S (length did)) + 1) by lia.
    rewrite <-(list_insert_insert_eq _ _ _ (T_FILE, concat done)). apply (iappend_spec s3 _ (S (length did)) T_FILE (concat done) x I3).
    + apply list_lookup_insert_eq. simpl. rewrite length_app, length_fmap. simpl. lia.
    + rewrite length_insert. simpl. rewrite length_app, length_fmap. simpl. lia.
    + done.
    + rewrite list_insert_insert_eq, <-Hins. exact R3.
  - intros [] s4 I4. unfold image_files. rewrite fmap_app. exact I4.
Qed.
End adding.

(** The finished image: the size of the root is rounded up, and the bitmap
    marks what is in use. *)
Record image (s : mkfs) (fl : list (Z * list Z)) : Prop := {
  ig_ok : ∃ own, mk_ok s own (fdata fl) (λ j, dino s (Z.of_nat j + 1));
  ig_meta : ∀ j f, fl !! j = Some f → let d := dino s (Z.of_nat j + 1) in i_type d = f.1 ∧ i_nlink d = 1 ∧
    i_size d = if decide (j = 0%nat) then (Z.of_nat (length f.2) / 512 + 1) * 512 else Z.of_nat (length f.2);
  ig_free : ∀ k, Z.of_nat (length fl) < k < 208 → i_type (dino s k) = 0;
  ig_head : ∀ b, b < 32 → vw s b = if decide (b = 1) then sb_block else zero_block;
  ig_used : ∀ b, 0 ≤ b < 4096 → bit_set (vw s 58) b = bool_decide (b < m_freeblock s);
  ig_bmap : ∀ b, 59 ≤ b < 68 → vw s b = zero_block
}.

(** The bits that [balloc] sets. *)
Lemma used_bits n : (n ≤ 4096)%nat →
  let B := foldl (λ buf i, let i := Z.of_nat i in <[bit_byte i := Z.lor (byte_at buf (bit_byte i)) (bit_mask i)]> buf) zero_block (seq 0 n) in
  length B = BSIZE ∧ ∀ b, 0 ≤ b < 4096 → bit_set B b = bool_decide (b < Z.of_nat n).
Proof.
  induction n as [|n IH]; intros Hn.
  - split; [apply length_zero_block|]. intros b Hb. cbn [seq foldl]. unfold bit_set. rewrite zero_byte, Z.bits_0. symmetry. apply bool_decide_eq_false_2. lia.
  - cbv zeta in IH |- *. destruct IH as [L IH]; [lia|]. rewrite seq_S, foldl_app. cbn [foldl]. split; [by rewrite length_insert|].
    intros b Hb. rewrite bit_set_or, IH; [|lia..|rewrite L; unfold bit_byte, BSIZE; dlia].
    repeat case_bool_decide; try done; lia.
Qed.

Lemma finish_spec s fl ty r rest : img s fl → fl = (ty, r) :: rest → (length fl < 208)%nat → Z.of_nat (length r) ≤ 138 * 512 → nmeta + total (fdata fl) < 4096 →
  wp (round_root 1;; used ← gets m_freeblock; mk_balloc used) (λ _ s', image s' fl) s.
Proof.
  intros [[own O] Hm Hf Hhd Hbm] Efl Hl Hr Hb. assert (fl !! 0%nat = Some (ty, r)) as H0 by by rewrite Efl. destruct (Hm _ _ H0) as (M1 & M2 & M3). change (Z.of_nat 0 + 1) with 1 in *. cbn [fst snd] in *.
  pose proof (mo_files _ _ _ _ O 0%nat _ (fdata_lookup _ _ _ H0)) as F0. change (Z.of_nat 0 + 1) with 1 in F0.
  apply wp_bind. unfold round_root. apply wp_bind, rinode_spec; [by eapply ok_full|lia|]. rewrite M3. set (z := (Z.of_nat (length r) / 512 + 1) * 512).
  assert (0 ≤ z ≤ 139 * 512) as Hz by (unfold z; dlia). rewrite u32_small by (unfold is_u32, two32; lia).
  destruct (resize_ok (dino s 1) z (fr_fits _ _ _ _ _ _ F0) (fr_base _ _ _ _ _ _ F0)) as [R1 R2]; [unfold is_u32, two32; lia|].
  wcall (winode_spec s 1 _ (ok_full _ _ _ _ O) ltac:(lia) R1 R2). intros [] s1 (F1 & Hb1 & Hn1 & Hd1 & Hv1). repeat wstep.
  pose proof (mo_fb _ _ _ _ O) as Hfb. pose proof (total_fdata_nonneg fl) as Ht. rewrite meta_val in *.
  assert (m_freeblock s1 < 4096) as Hu by lia. unfold mk_balloc. change (512 * 8) with 4096. rewrite (proj2 (Z.leb_gt 4096 _)) by done. change (sb_bmapstart mk_sb) with 58. cbv zeta. apply wp_modify.
  destruct (used_bits (Z.to_nat (m_freeblock s1)) ltac:(lia)) as [Lb Hbits]. cbv zeta in Lb, Hbits. set (B := foldl _ _ _) in *. set (s2 := set_img _ s1).
  assert (∀ b, vw s2 b = if decide (b = 58) then B else vw s1 b) as Hv2 by (intros b; apply vw_insert).
  assert (∀ k, 0 ≤ k < 208 → dino s2 k = if decide (k = 1) then set_i_size z (dino s 1) else dino s k) as Hd2.
  { intros k Hk. rewrite <-Hd1 by done. unfold dino. rewrite Hv2, decide_False; [done|]. destruct (IBLOCK_val k Hk) as [-> ?]. lia. }
  assert (full s2) as F2.
  { destruct F1 as [F1 L1]. split; [|intros b; rewrite Hv2; case_decide; [done|apply L1]]. intros b Hr'. simpl. destruct (decide (b = 58)) as [->|]; [by rewrite lookup_insert_eq; eexists|]. rewrite lookup_insert_ne by done. by apply F1. }
  split.
  - exists own. eapply mk_ok_meta; [exact O|done|done|done| |].
    + intros b Hr'. rewrite meta_val in Hr'. rewrite Hv2, decide_False by lia. apply Hv1. lia.
    + intros j f Hj. pose proof (mo_files _ _ _ _ O j f Hj) as Fj. pose proof (lookup_lt_Some _ _ _ Hj) as Hjl. unfold fdata in Hjl. rewrite length_fmap in Hjl. rewrite Hd2 by lia. case_decide as E; [|split_and!; [done|apply Fj|apply Fj]].
      assert (j = 0%nat) as -> by lia. done.
  - intros j f Hj. pose proof (lookup_lt_Some _ _ _ Hj) as Hjl. cbv zeta. rewrite Hd2 by lia. destruct (decide (j = 0%nat)) as [->|Hne].
    + rewrite decide_True by done. rewrite H0 in Hj. injection Hj as <-. done.
    + rewrite decide_False by lia. by apply Hm.
  - intros k Hk. rewrite Hd2 by lia. rewrite decide_False; [by apply Hf|]. rewrite Efl in Hk. simpl in Hk. lia.
  - intros b Hr'. rewrite Hv2, (decide_False (P := b = 58)) by lia. rewrite Hv1 by lia. by apply Hhd.
  - intros b Hr'. rewrite Hv2, decide_True by done. rewrite Hbits by done. apply bool_decide_ext. change (m_freeblock s2) with (m_freeblock s1). lia.
  - intros b Hr'. rewrite Hv2, decide_False by lia. rewrite Hv1 by lia. apply Hbm. lia.
Qed.

Lemma main_spec files : fits_image files → wp (mkfs_main files) (λ _ s, image s (image_files files)) mkfs0.
Proof.
  intros Hfit. pose proof (fi_inodes _ Hfit) as Hn. unfold mkfs_main. wstep. wstep. apply wp_bind. wcall blank_spec. intros [] s1 (D1 & Z1 & I1 & B1). rewrite Z2Nat.id in D1 by (unfold FSSIZE; lia).
  assert (img (set_img (<[1 := sb_block]> (m_img s1)) s1) []) as I by (apply blank_img; [done| |done|done]; intros b; apply Z1; reflexivity).
  apply wp_bind. unfold wsect at 1. apply wp_modify. apply wp_bind. wcall (mk_ialloc_spec _ [] T_DIR I ltac:(simpl; lia) ltac:(unfold is_s16, T_DIR; lia)).
  intros k s2 [-> I2]. change (Z.of_nat (length []) + 1) with 1. change (negb (Z.eqb 1 ROOTINO)) with false. cbv iota. apply wp_bind, wp_ret.
  apply wp_bind. wcall (iappend_spec s2 _ 0 T_DIR [] (dirent 1 [46]) I2 eq_refl); [simpl; lia|simpl; lia|vm_compute; done|]. intros [] s3 I3.
  apply wp_bind. wcall (iappend_spec s3 _ 0 T_DIR (dirent 1 [46]) (dirent 1 [46; 46]) I3 eq_refl); [simpl; lia|simpl; lia|vm_compute; done|]. intros [] s4 I4.
  apply wp_bind. eapply wp_mono; [apply (wp_for_each (λ did s', img s' (image_files did)))|].
  - exact I4.
  - intros did [name reads] rest s5 E I5. by eapply add_file_spec.
  - intros [] s5 I5. eapply finish_spec; [exact I5|reflexivity| | |apply Hfit].
    + simpl. rewrite length_fmap. lia.
    + rewrite length_root_bytes. lia.
Qed.

Close Scope Z_scope.
