(* ===== verification/MkfsTheorems.v ===== *)
(** * The image that [mkfs] makes is a file system ([src/xv6-public/mkfs.c])

    A file system that runs on the image, as [Fs] does on any implementation
    of [BlockLaws], finds the geometry and the forests it relies on, and
    [ilock] and [readi] return the files that were put on the image. *)

From S2P Require Import Prelude.
From S2P Require Import Words.
From S2P Require Import Strings.
From S2P Require Import Bio.
From S2P Require Import Log.
From S2P Require Import BlockStore.
From S2P Require Import Fs.
From S2P Require Import FsAlloc.
From S2P Require Import FsMap.
From S2P Require Import FsFile.
From S2P Require Import FsInode.
From S2P Require Import FsSample.
From S2P Require Import Mkfs.
From S2P Require Import MkfsImage.

Open Scope Z_scope.

Section mounted.
Context {D : Type} {BO : BlockOps D} {BM : BlockModel D} {BL : BlockLaws D}.
Implicit Types (s : fstate D).

(** The state of a file system whose disk is the image [m]; the blocks of
    the log are not its own. *)
Record on_image (m : mkfs) (s : fstate D) : Prop := {
  oi_sb : sb s = decode_sb (vw m 1);
  oi_ok : ∀ b, ok_block (dsk s) b ↔ 0 ≤ b < FSSIZE ∧ ¬ (sb_logstart mk_sb ≤ b < sb_logstart mk_sb + sb_nlog mk_sb);
  oi_view : ∀ b, ok_block (dsk s) b → view (dsk s) b = vw m b
}.

(** The cache entry [ip] holds inode [inum]. *)
Record holds_inode (s : fstate D) (ip : nat) (inum : Z) : Prop := {
  hi_dev : i_dev (ino s ip) = 1;
  hi_inum : i_inum (ino s ip) = inum;
  hi_load : ino s ip = load_dinode (dinode_off inum) (view (dsk s) (IBLOCK inum (sb s))) (ino s ip)
}.

Lemma on_image_ext m s s' : on_image m s → sb s' = sb s → (∀ c, view (dsk s') c = view (dsk s) c) → same_txn (dsk s) (dsk s') → on_image m s'.
Proof using Type.
  intros [S1 S2 S3] E V [T _]. split; [by rewrite E|intros b; by rewrite T|]. intros b Hb. rewrite V. by apply S3, T.
Qed.

Context (m : mkfs) (fl : list (Z * list Z)) (I : image m fl) (Hlen : (length fl < 208)%nat) (Hblocks : nmeta + total (fdata fl) < 4096).

Lemma decode_mk_sb : decode_sb (vw m 1) = mk_sb.
Proof using I. rewrite (ig_head _ _ I 1 eq_refl). vm_compute. reflexivity. Qed.

Section state.
Context (s : fstate D) (S : on_image m s).

Lemma mt_sb : sb s = mk_sb.
Proof using S I. rewrite (oi_sb _ _ S). apply decode_mk_sb. Qed.
Lemma mt_ok b : ok_block (dsk s) b ↔ 0 ≤ b < 40000 ∧ ¬ (2 ≤ b < 32).
Proof using S. apply (oi_ok _ _ S). Qed.

Lemma mt_free : 68 ≤ m_freeblock m < 4096.
Proof using I Hblocks. clear Hlen. destruct (ig_ok _ _ I) as [own O]. rewrite (mo_fb _ _ _ _ O). pose proof (total_fdata_nonneg fl). rewrite meta_val in *. lia. Qed.

Lemma mt_BBLOCK b : 0 ≤ b < 40000 → BBLOCK b (sb s) = b / 4096 + 58 ∧ 58 ≤ b / 4096 + 58 < 68.
Proof using S I. clear Hlen Hblocks. intros Hb. rewrite mt_sb. unfold BBLOCK. change (sb_bmapstart mk_sb) with 58. unfold BPB. rewrite u32_small; [dlia|]. unfold is_u32, two32. dlia. Qed.

Lemma mt_used b : 0 ≤ b < 40000 → used s b = bool_decide (b < m_freeblock m).
Proof using S I Hblocks.
  clear Hlen.  intros Hb. pose proof mt_free. unfold used. destruct (mt_BBLOCK b Hb) as [-> Hr]. rewrite (oi_view _ _ S) by (apply mt_ok; lia). unfold BPB.
  destruct (decide (b < 4096)) as [Hlt|Hge].
  - rewrite Z.div_small, Z.mod_small by lia. apply (ig_used _ _ I). lia.
  - rewrite (ig_bmap _ _ I) by dlia. unfold bit_set. rewrite zero_byte, Z.bits_0. symmetry. apply bool_decide_eq_false_2. lia.
Qed.

Lemma mt_geometry : geometry s.
Proof using S I Hblocks.
  clear Hlen.  pose proof mt_free. destruct (ig_ok _ _ I) as [own O]. split; unfold data_range; rewrite ?mt_sb.
  - simpl. unfold FSSIZE. lia.
  - change (sb_bmapstart mk_sb) with 58. change (sb_size mk_sb) with 40000. unfold BPB, two32. split; [lia|]. dlia.
  - intros b Hb. rewrite <-mt_sb. destruct (mt_BBLOCK b Hb) as [-> ?]. apply mt_ok. lia.
  - intros b Hb. rewrite (oi_view _ _ S) by done. apply O.
  - intros b Hb Hu. rewrite mt_used in Hu by done. apply bool_decide_eq_false in Hu. split; [apply mt_ok; change (sb_size mk_sb) with 40000 in Hb; lia|].
    intros c Hc. rewrite <-mt_sb. destruct (mt_BBLOCK c Hc) as [-> ?]. lia.
  - rewrite mt_used by lia. apply bool_decide_eq_true_2. lia.
Qed.

(** ** One file *)

Section file.
Context (j : nat) (f : Z * list Z) (Hj : fl !! j = Some f) (ip : nat) (Hip : holds_inode s ip (Z.of_nat j + 1)).

Lemma mt_iblock : IBLOCK (Z.of_nat j + 1) (sb s) = (Z.of_nat j + 1) / 8 + 32 ∧ 32 ≤ (Z.of_nat j + 1) / 8 + 32 < 58.
Proof using S I Hj Hlen. clear Hblocks. rewrite mt_sb. apply IBLOCK_val. pose proof (lookup_lt_Some _ _ _ Hj). lia. Qed.

Lemma mt_inode : i_addrs (ino s ip) = i_addrs (dino m (Z.of_nat j + 1)) ∧ i_size (ino s ip) = i_size (dino m (Z.of_nat j + 1)) ∧ i_type (ino s ip) = f.1 ∧ i_nlink (ino s ip) = 1.
Proof using S I Hj Hip Hlen.
  clear Hblocks. destruct (ig_meta _ _ I _ _ Hj) as (M1 & M2 & _). pose proof (hi_load _ _ _ Hip) as E. rewrite (oi_view _ _ S) in E by (destruct mt_iblock as [-> ?]; apply mt_ok; lia). rewrite mt_sb in E.
  split_and!; rewrite E; done.
Qed.

(** The block with number [bn] in the file. *)
Lemma mt_leaf o : 0 ≤ o < 138 * 512 → block_at s ip o = leafb (vw m) (dino m (Z.of_nat j + 1)) (o / 512).
Proof using S I Hj Hip Hlen Hblocks.
  intros Ho. destruct (ig_ok _ _ I) as [own O]. pose proof (mo_files _ _ _ _ O j _ (fdata_lookup _ _ _ Hj)) as F. simpl in F. pose proof mt_free.
  unfold block_at, node, lookup_path. rewrite (proj1 mt_inode). unfold leafb, path_of. assert (0 ≤ o / 512 < 138) as Hb by dlia. generalize dependent (o / 512). intros bn Hb.
  destruct (Z.ltb_spec bn 10); [done|]. cbv zeta. destruct (Z.ltb_spec (bn - 10) 128); [|lia]. cbn [fst snd foldl]. unfold follow. case_decide as E; [done|].
  pose proof (fr_ind _ _ _ _ _ _ F) as Hi. destruct (decide (nblk f.2 ≤ 10)) as [|_]; [done|]. f_equal. apply (oi_view _ _ S), mt_ok.
  assert (nmeta ≤ nth 10 (i_addrs (dino m (Z.of_nat j + 1))) 0 < m_freeblock m) as Hr by (apply O; by eexists). rewrite meta_val in Hr. lia.
Qed.

(** Every node of the forest is a block of the file, in its place. *)
Lemma mt_node own q : mk_ok m own (fdata fl) (λ j, dino m (Z.of_nat j + 1)) → valid q → node s ip q ≠ 0 → own !! node s ip q = Some (Z.of_nat j + 1, q).
Proof using S I Hj Hip Hlen Hblocks.
  intros O Hq Hn. pose proof (mo_files _ _ _ _ O j _ (fdata_lookup _ _ _ Hj)) as F. simpl in F. set (d := dino m (Z.of_nat j + 1)) in *. pose proof mt_free as Hfb.
  destruct q as [r l]. destruct Hq as (Hr & Hl & Hk). unfold node, lookup_path in *. cbn [fst snd] in *. rewrite (proj1 mt_inode) in *. fold d in Hn |- *. unfold NDIRECT in Hr.
  assert (∀ b, own !! b = Some (Z.of_nat j + 1, (10%nat, [])) → view (dsk s) b = vw m b) as Hv.
  { intros b Hb. apply (oi_view _ _ S), mt_ok. assert (nmeta ≤ b < m_freeblock m) as Hr' by (apply O; by eexists). rewrite meta_val in Hr'. lia. }
  assert (∀ bn, 0 ≤ bn < 138 → leafb (vw m) d bn ≠ 0 → own !! leafb (vw m) d bn = Some (Z.of_nat j + 1, path_of bn)) as Hlf.
  { intros bn Hbn H0. destruct (decide (bn < nblk f.2)); [apply (fr_leaf _ _ _ _ _ _ F); lia|]. destruct H0. apply (fr_none _ _ _ _ _ _ F). lia. }
  unfold levels, NDIRECT in Hl. destruct (decide (r < 10)%nat) as [Hlt|Hge].
  - assert (l = []) as -> by (destruct l; [done|simpl in Hl; lia]). simpl in *. specialize (Hlf (Z.of_nat r) ltac:(lia)). unfold leafb, path_of in Hlf. rewrite (proj2 (Z.ltb_lt _ _)), Nat2Z.id in Hlf by lia. by apply Hlf.
  - destruct (fr_top _ _ _ _ _ _ F) as [T1 T2]. assert (∀ l', foldl (follow (view (dsk s))) 0 l' = 0) as Hz by (induction l' as [|k l' IH]; [done|exact IH]).
    destruct (decide (r = 10%nat)) as [->|Hne]; [|by assert (r = 11 ∨ r = 12)%nat as [-> | ->] by lia; rewrite ?T1, ?T2, Hz in Hn].
    pose proof (fr_ind _ _ _ _ _ _ F) as Hi. destruct (decide (nblk f.2 ≤ 10)); [by rewrite Hi, Hz in Hn|].
    destruct l as [|k [|]]; [exact Hi| |simpl in Hl; lia]. apply Forall_cons_1 in Hk as [Hk _]. unfold NINDIRECT in Hk. cbn [foldl] in Hn |- *.
    assert (follow (view (dsk s)) (nth 10 (i_addrs d) 0) k = leafb (vw m) d (10 + Z.of_nat k)) as E.
    { unfold leafb. rewrite (proj2 (Z.ltb_ge _ _)) by lia. replace (Z.to_nat (10 + Z.of_nat k - 10)) with k by lia. unfold follow. case_decide; [done|]. by rewrite Hv. }
    rewrite E in Hn |- *. rewrite Hlf by (done || lia). do 2 f_equal. unfold path_of. rewrite (proj2 (Z.ltb_ge _ _)) by lia. replace (10 + Z.of_nat k - 10) with (Z.of_nat k) by lia. rewrite (proj2 (Z.ltb_lt _ _)) by lia. by rewrite Nat2Z.id.
Qed.

Lemma mt_tree : tree_ok s ip.
Proof using S I Hj Hip Hlen Hblocks.
  destruct (ig_ok _ _ I) as [own O]. pose proof mt_free as Hfb. pose proof (lookup_lt_Some _ _ _ Hj) as Hjl. split.
  - apply Hip.
  - rewrite (proj1 mt_inode). apply (df_addrs _ (fr_fits _ _ _ _ _ _ (mo_files _ _ _ _ O j _ (fdata_lookup _ _ _ Hj)))).
  - intros q Hq Hn. pose proof (mt_node own q O Hq Hn) as Ho. assert (68 ≤ node s ip q < m_freeblock m) as Hr by (apply O; by eexists). split.
    + unfold data_range. rewrite mt_sb. simpl. unfold FSSIZE. lia.
    + done.
    + rewrite mt_used by lia. apply bool_decide_eq_true_2. lia.
    + apply mt_ok. lia.
    + unfold data_range. rewrite mt_sb. intros c Hc. rewrite <-mt_sb. destruct (mt_BBLOCK c Hc) as [-> ?]. lia.
  - intros q q' Hq Hq' Hn E. pose proof (mt_node own q O Hq Hn) as H1. pose proof (mt_node own q' O Hq' ltac:(by rewrite <-E)) as H2. rewrite <-E, H1 in H2. by injection H2.
Qed.

Lemma mt_imeta : imeta s ip.
Proof using S I Hj Hip Hlen Hblocks.
  destruct (ig_ok _ _ I) as [own O]. pose proof mt_free as Hfb. destruct mt_iblock as [E R]. split; rewrite (hi_inum _ _ _ Hip), E.
  - apply mt_ok. lia.
  - intros _. rewrite mt_used by lia. apply bool_decide_eq_true_2. lia.
  - unfold data_range. rewrite mt_sb. intros c Hc. rewrite <-mt_sb. destruct (mt_BBLOCK c Hc) as [-> ?]. lia.
  - intros q Hq Hn. pose proof (mt_node own q O Hq Hn) as Ho. assert (68 ≤ node s ip q < m_freeblock m) by (apply O; by eexists). lia.
Qed.

(** The blocks of the file, and its bytes. *)
Lemma mt_block o : 0 ≤ o < 138 * 512 → block_at s ip o ≠ 0 ↔ o < 512 * nblk f.2.
Proof using S I Hj Hip Hlen Hblocks.
  intros Ho. destruct (ig_ok _ _ I) as [own O]. pose proof (mo_files _ _ _ _ O j _ (fdata_lookup _ _ _ Hj)) as F. simpl in F.
  destruct (path_of_leaf (o / 512)) as [Hv Hl]; [unfold MAXBN; dlia|]. rewrite mt_leaf by done. split; intros H.
  - destruct (decide (o < 512 * nblk f.2)); [done|]. destruct H. apply (fr_none _ _ _ _ _ _ F). dlia.
  - intros E. pose proof (fr_leaf _ _ _ _ _ _ F (o / 512) ltac:(dlia)) as H1. rewrite E in H1. assert (nmeta ≤ 0 < m_freeblock m) as Hr by (apply O; by eexists). rewrite meta_val in Hr. lia.
Qed.

Lemma mt_file_at o : 0 ≤ o < 138 * 512 → file_at s ip o = nth (Z.to_nat o) f.2 0.
Proof using S I Hj Hip Hlen Hblocks.
  intros Ho. destruct (ig_ok _ _ I) as [own O]. pose proof (mo_files _ _ _ _ O j _ (fdata_lookup _ _ _ Hj)) as F. simpl in F. pose proof mt_free.
  pose proof (mt_block o Ho) as Hb. unfold file_at. destruct (decide (block_at s ip o = 0)) as [E|E].
  - rewrite nth_overflow; [done|]. destruct (decide (o < 512 * nblk f.2)) as [Hlt|Hge]; [by apply Hb in Hlt|]. unfold nblk in Hge. dlia.
  - apply Hb in E. rewrite mt_leaf by done. rewrite <-(fr_bytes _ _ _ _ _ _ F) by lia. f_equal. apply (oi_view _ _ S), mt_ok.
    assert (nmeta ≤ leafb (vw m) (dino m (Z.of_nat j + 1)) (o / 512) < m_freeblock m) as Hr by (apply O; eexists; apply (fr_leaf _ _ _ _ _ _ F); dlia). rewrite meta_val in Hr. lia.
Qed.

Lemma mt_contents off n : 0 ≤ off → off + Z.of_nat n ≤ Z.of_nat (length f.2) → Z.of_nat (length f.2) ≤ 138 * 512 → contents s ip off n = take n (drop (Z.to_nat off) f.2).
Proof using S I Hj Hip Hlen Hblocks.
  intros Ho Hn Hl. apply list_eq. intros i. unfold contents. rewrite list_lookup_fmap. destruct (decide (i < n)%nat) as [Hi|Hi].
  - rewrite lookup_seq_lt by done. cbn [fmap option_fmap option_map Nat.add]. rewrite mt_file_at by lia. rewrite lookup_take_lt, lookup_drop by done.
    destruct (lookup_lt_is_Some_2 f.2 (Z.to_nat off + i)%nat) as [x Hx]; [lia|]. rewrite Hx. f_equal. rewrite nth_lookup. by replace (Z.to_nat (off + Z.of_nat i)) with (Z.to_nat off + i)%nat by lia; rewrite Hx.
  - rewrite lookup_seq_ge by lia. rewrite lookup_take_ge by lia. done.
Qed.

Lemma mt_dense : j ≠ 0%nat → Z.of_nat (length f.2) ≤ 138 * 512 → i_size (ino s ip) = Z.of_nat (length f.2) ∧ dense s ip.
Proof using S I Hj Hip Hlen Hblocks.
  intros Hj0 Hl. destruct (ig_meta _ _ I _ _ Hj) as (_ & _ & M3). rewrite decide_False in M3 by done. destruct mt_inode as (_ & E & _). rewrite M3 in E.
  split; [done|]. split; rewrite E; [unfold MAXOFF, MAXBN; lia|]. intros o Ho. apply mt_block; [lia|]. unfold nblk. dlia.
Qed.
End file.
End state.

(** A cache entry for inode [inum] as [iget] leaves it. *)
Record idle_entry (s : fstate D) (ip : nat) (inum : Z) : Prop := {
  ie_dev : i_dev (ino s ip) = 1;
  ie_inum : i_inum (ino s ip) = inum;
  ie_valid : i_valid (ino s ip) = 0;
  ie_ref : 1 ≤ i_ref (ino s ip);
  ie_lock : sl_locked (i_lock (ino s ip)) = 0
}.

Lemma mt_ilock s j f ip r : on_image m s → fl !! j = Some f → f.1 ≠ 0 → idle_entry s ip (Z.of_nat j + 1) → fits (dsk s) [] (S r) →
  wp (ilock (Some ip)) (λ _ s', on_image m s' ∧ holds_inode s' ip (Z.of_nat j + 1) ∧ fits (dsk s') [] (S r) ∧ same_but s s' ip ∧
    i_ref (ino s' ip) = i_ref (ino s ip) ∧ i_lock (ino s' ip) = mkSleeplock 1 (f_pid s) (f_tid s)) s.
Proof using I Hlen Hblocks BL.
  intros Hs Hj Ht [E1 E2 E3 E4 E5] Hf. destruct (mt_iblock s Hs j f Hj) as [Eb Rb]. wcall (ilock_loads s ip r Hf); try done; rewrite ?E2.
  - rewrite Eb. apply (mt_ok s Hs). lia.
  - rewrite (oi_view _ _ Hs) by (rewrite Eb; apply (mt_ok s Hs); lia). rewrite (mt_sb s Hs). destruct (ig_meta _ _ I _ _ Hj) as (M1 & _). unfold dino in M1. cbv zeta in M1. simpl in M1 |- *. by rewrite M1.
  - intros [] s' (E & Hsb & F & V & T). pose proof (proj1 Hsb) as Esb. split_and!; [by eapply on_image_ext| |done|done|by rewrite E|by rewrite E]. split; rewrite ?E; [done|done|]. rewrite V, Esb. done.
Qed.
End mounted.

(** ** The claims *)

Section claims.
Context {D : Type} {BO : BlockOps D} {BM : BlockModel D} {BL : BlockLaws D}.

Lemma image_bounds files : fits_image files → (length (image_files files) < 208)%nat ∧ nmeta + total (fdata (image_files files)) < 4096.
Proof using Type. intros [_ H1 H2]. split; [|done]. simpl. rewrite length_fmap. lia. Qed.

Lemma image_file files k f : files !! k = Some f → image_files files !! (1 + k)%nat = Some (T_FILE, concat f.2).
Proof using Type. intros Hk. simpl. by rewrite list_lookup_fmap, Hk. Qed.

(** Reading a file whose cache entry is idle. *)
Lemma read_image_file files m dev_read (s : fstate D) ip k f off n r (size := Z.of_nat (length (concat f.2))) :
  fits_image files → image m (image_files files) →
  on_image m s → files !! k = Some f → idle_entry s ip (Z.of_nat k + 2) → fits (dsk s) [] (S r) → 0 ≤ off ≤ size → 0 ≤ n → off + n < two32 →
  wp (ilock (Some ip);; readi dev_read ip off n) (λ r s',
    r = (Z.min n (size - off), take (Z.to_nat n) (drop (Z.to_nat off) (concat f.2))) ∧
    i_type (ino s' ip) = T_FILE ∧ i_nlink (ino s' ip) = 1 ∧ i_size (ino s' ip) = size ∧
    geometry s' ∧ tree_ok s' ip ∧ imeta s' ip ∧ dense s' ip) s.
Proof using BL.
  intros Hfit I Hs Hk He Hf Hoff Hn Hov. destruct (image_bounds files Hfit) as [Hl Hb].
  pose proof (image_file files k f Hk) as Hj. destruct (fi_files _ Hfit f ltac:(by eapply list_elem_of_lookup_2)) as [_ Hsz].
  replace (Z.of_nat k + 2) with (Z.of_nat (1 + k) + 1) in He by lia. assert (T_FILE ≠ 0) as Ht0 by done. apply wp_bind. wcall (mt_ilock m _ I Hl Hb s (1 + k) (T_FILE, concat f.2) ip r Hs Hj Ht0 He Hf).
  intros [] s1 (H1 & Hip & F1 & _). assert (1 + k ≠ 0)%nat as Hk0 by done. destruct (mt_dense m _ I Hl Hb s1 H1 _ _ Hj ip Hip Hk0 Hsz) as [Esz Hd]. simpl in Esz. fold size in Esz. destruct (mt_inode m _ I Hl s1 H1 _ _ Hj ip Hip) as (_ & _ & Et & En).
  wcall (readi_spec dev_read s1 ip off n r (mt_geometry m _ I Hb s1 H1) (mt_tree m _ I Hl Hb s1 H1 _ _ Hj ip Hip) Hd).
  { by rewrite Et. } { rewrite Esz. exact Hoff. } { exact Hn. } { exact Hov. } { exact F1. } rewrite Esz.
  intros v s2 (-> & d2 & -> & _ & V2 & T2). assert (on_image m (set_dsk d2 s1)) as H2 by by eapply on_image_ext.
  assert (holds_inode (set_dsk d2 s1) ip (Z.of_nat (1 + k) + 1)) as Hip2 by (destruct Hip as [? ? Hld]; split; [done|done|]; simpl; rewrite V2; exact Hld).
  split_and!; [|done|done|done|by eapply mt_geometry|by eapply mt_tree|by eapply mt_imeta|]; [|by eapply (mt_dense m _ I Hl Hb)].
  f_equal. rewrite (mt_contents m _ I Hl Hb s1 H1 _ _ Hj ip Hip) by (cbn [snd]; unfold size in *; lia). cbn [snd]. unfold size in *. apply list_eq. intros i.
  destruct (decide (i < Z.to_nat (Z.min n (Z.of_nat (length (concat f.2)) - off)))%nat); [by rewrite !lookup_take_lt by lia|]. rewrite lookup_take_ge by lia. symmetry. destruct (decide (i < Z.to_nat n)%nat); [|by rewrite lookup_take_ge by lia].
  rewrite lookup_take_lt, lookup_drop by done. apply lookup_ge_None. lia.
Qed.

(** C4: What [mkfs] puts on the image is what the kernel reads.  For files
    whose names have no slash, that have at most 138 blocks each and that fit
    the inodes and one block of bitmap, [mkfs] succeeds; its superblock
    decodes to the layout it used; and on a file system whose disk is the
    image, [ilock] of the inode of the k-th file followed by [readi] returns
    the bytes of that file at every offset, with the type, link count and
    size that [mkfs] gave it.  The layout, the block map, the place of the
    inode and the absence of holes that the operations of the file system
    rely on hold there. *)
Theorem mkfs_files_read_back files :
  fits_image files →
  ∃ m, mkfs_main files mkfs0 = Ok (tt, m) ∧ decode_sb (vw m 1) = mk_sb ∧
  ∀ dev_read (s : fstate D) ip k f off n r, let size := Z.of_nat (length (concat f.2)) in
    on_image m s → files !! k = Some f → idle_entry s ip (Z.of_nat k + 2) → fits (dsk s) [] (S r) → 0 ≤ off ≤ size → 0 ≤ n → off + n < two32 →
    wp (ilock (Some ip);; readi dev_read ip off n) (λ r s',
      r = (Z.min n (size - off), take (Z.to_nat n) (drop (Z.to_nat off) (concat f.2))) ∧
      i_type (ino s' ip) = T_FILE ∧ i_nlink (ino s' ip) = 1 ∧ i_size (ino s' ip) = size ∧
      geometry s' ∧ tree_ok s' ip ∧ imeta s' ip ∧ dense s' ip) s.
Proof using BL.
  intros Hfit. destruct (proj1 (wp_ok _ _ _) (main_spec files Hfit)) as ([] & m & Hm & I).
  exists m. split; [done|]. split; [by eapply decode_mk_sb|]. intros dev_read s ip k f off n r size. by apply read_image_file.
Qed.

(** The blocks of a directory of [2 + k] entries. *)
Lemma root_arith k : (Z.of_nat (16 * (2 + k)) / 512 + 1) * 512 = 512 * ((2 + Z.of_nat k) / 32 + 1).
Proof using Type. dlia. Qed.
Lemma root_arith_max k : (k ≤ 198)%nat → 512 ≤ 512 * ((2 + Z.of_nat k) / 32 + 1) ≤ 512 * 8.
Proof using Type. intros. dlia. Qed.
Lemma root_arith_blocks k : (Z.of_nat (16 * (2 + k)) + 511) / 512 = (2 + Z.of_nat k + 31) / 32.
Proof using Type. dlia. Qed.
Lemma root_arith_dense k : (2 + Z.of_nat k) mod 32 = 0 ↔ (2 + Z.of_nat k + 31) / 32 < (2 + Z.of_nat k) / 32 + 1.
Proof using Type. dlia. Qed.

End claims.

(** ** The image booted *)

(** A machine whose disk is the image, with one cache entry. *)
Definition image_fs (m : mkfs) (inum : Z) (S : lstate) : fstate lstate :=
  mkF S {[ 0%nat := mkInode 1 inum 1 (mkSleeplock 0 0 0) 0 0 0 0 0 0 [] ]} (decode_sb (vw m 1)) 1 1 0.

Lemma boot_image m fl inum : image m fl → wp start_op (λ _ S, on_image m (image_fs m inum S) ∧ fits (dsk (image_fs m inum S)) [] 29 ∧ in_txn S) (power_on (m_img m) FSSIZE).
Proof.
  intros I. destruct (ig_ok _ _ I) as [own O]. eapply wp_mono; [apply start_op_disk|].
  - unfold FSSIZE. lia.
  - apply (ig_head _ _ I 2). lia.
  - apply O.
  - intros r S [_ HS]. split_and!; [|apply (sd_fits _ HS)|apply (sd_txn _ HS)]. split; [done| |].
    + intros b. simpl dsk. rewrite (sd_ok _ HS). change (sb_logstart mk_sb) with 2. change (sb_nlog mk_sb) with 30. lia.
    + intros b Hb. simpl dsk in *. apply (sd_ok _ HS) in Hb as [_ [Hb|Hb]]; [by apply (sd_low _ HS)|by apply (sd_view _ HS)].
Qed.

Definition sample_files : list (list Z * list (list Z)) := [([95; 97], [replicate 512 7; replicate 88 8]); ([98], [])].

Lemma sample_files_fit : fits_image sample_files.
Proof.
  split.
  - assert (Forall (λ f : list Z * list (list Z), 47 ∉ f.1 ∧ Z.of_nat (length (concat f.2)) ≤ 138 * 512) sample_files) as H.
    { unfold sample_files. repeat (apply Forall_cons; split; [split; [cbn [fst]; set_solver|by vm_compute]|]). apply Forall_nil_2. }
    intros f. revert f. by apply Forall_forall.
  - simpl. lia.
  - vm_compute. done.
Qed.

Lemma mkfs_files_read_back_witness :
  ∃ m, mkfs_main sample_files mkfs0 = Ok (tt, m) ∧
  wp start_op (λ _ S, wp (ilock (Some 0%nat);; readi (λ _, None) 0 510 200) (λ r s', r = (90, [7; 7] ++ replicate 88 8)) (image_fs m 2 S)) (power_on (m_img m) FSSIZE).
Proof.
  assert (0 ≤ 510 ≤ Z.of_nat (length (concat [replicate 512 7; replicate 88 8]))) as Ho by (vm_compute; done).
  assert (0 ≤ 200) as Hn by lia. assert (510 + 200 < two32) as Hov by (unfold two32; lia).
  destruct (mkfs_files_read_back (D := lstate) sample_files sample_files_fit) as (m & Hm & _ & H). exists m. split; [exact Hm|].
  destruct (proj1 (wp_ok _ _ _) (main_spec sample_files sample_files_fit)) as ([] & m' & Hm' & I). rewrite Hm in Hm'. injection Hm' as <-.
  wcall (boot_image m _ 2 I). intros _ S (Hs & Hf & _).
  assert (sample_files !! 0%nat = Some ([95; 97], [replicate 512 7; replicate 88 8])) as Hk by reflexivity.
  assert (idle_entry (image_fs m 2 S) 0 (Z.of_nat 0 + 2)) as He by (split; reflexivity || (simpl; lia)).
  eapply wp_mono; [exact (H (λ _, None) (image_fs m 2 S) 0%nat 0%nat _ 510 200 28%nat Hs Hk He Hf Ho Hn Hov)|].
  intros r s' (-> & _). vm_compute. reflexivity.
Defined.


Close Scope Z_scope.
