(* ===== verification/MkfsPath.v ===== *)
(** * From [mkfs] to a file by its name ([src/xv6-public/mkfs.c], [fs.c])

    The root directory of the image as the kernel sees it, and the way of
    [namei] through it: the composition of [mkfs], the inode cache, the
    directory search and [readi]. *)

From S2P Require Import Prelude.
From S2P Require Import Words.
From S2P Require Import Strings.
From S2P Require Import Bio.
From S2P Require Import Log.
From S2P Require Import BlockStore.
From S2P Require Import Fs.
From S2P Require Import FsAlloc.
From S2P Require Import FsMap.
From S2P Require Import FsFile.
From S2P Require Import FsInode.
From S2P Require Import FsDir.
From S2P Require Import FsSample.
From S2P Require Import FsTheorems.
From S2P Require Import Mkfs.
From S2P Require Import MkfsImage.
From S2P Require Import MkfsTheorems.

Open Scope Z_scope.

(** ** The entries of the root *)

(** The name under which a file is found. *)
Definition fname (f : list Z * list (list Z)) : list Z := take DIRSIZ (cstr (skip_underscore f.1 ++ [0])).

Definition dirents (files : list (list Z * list (list Z))) : list (list Z) :=
  [dirent 1 [46]; dirent 1 [46; 46]] ++ imap (λ k f, dirent (Z.of_nat k + 2) (skip_underscore f.1)) files.

Lemma root_dirents files : root_bytes files = concat (dirents files).
Proof. reflexivity. Qed.

Lemma dirent_is_bytes inum name : 0 ≤ inum < 65536 → dirent inum name = dirent_bytes inum (name ++ [0]).
Proof.
  intros Hi. unfold dirent, dirent_bytes, u16. rewrite (Z.mod_small inum 65536) by done. rewrite (Z.mod_small (inum / 256) 256) by dlia. done.
Qed.

Lemma nth_concat16 (l : list (list Z)) k i : Forall (λ b, length b = 16%nat) l → (i < 16)%nat →
  nth (16 * k + i) (concat l) 0 = nth i (nth k l []) 0.
Proof.
  intros Hl Hi. revert k. induction Hl as [|b l Hb Hl IH]; intros k; [destruct k; by destruct (16 * _ + i)%nat, i|]. cbn [concat]. destruct k as [|k].
  - rewrite app_nth1 by lia. by rewrite Nat.mul_0_r.
  - rewrite app_nth2 by lia. replace (16 * S k + i - length b)%nat with (16 * k + i)%nat by lia. apply IH.
Qed.

Lemma dirents_16 files : Forall (λ b, length b = 16%nat) (dirents files).
Proof.
  apply Forall_forall. unfold dirents. intros b [Hb|Hb]%elem_of_app.
  - apply elem_of_cons in Hb as [->|Hb]; [apply length_dirent|]. apply list_elem_of_singleton in Hb as ->. apply length_dirent.
  - apply list_elem_of_lookup in Hb as [k Hk]. rewrite list_lookup_imap in Hk. apply fmap_Some in Hk as (f & _ & ->). apply length_dirent.
Qed.

Section path.
Context {D : Type} {BO : BlockOps D} {BM : BlockModel D} {BL : BlockLaws D}.
Implicit Types (s : fstate D).
Context (files : list (list Z * list (list Z))) (Hfit : fits_image files) (Hroom : (2 + Z.of_nat (length files)) mod 32 ≠ 0).
Context (m : mkfs) (I : image m (image_files files)).

Section root.
Context (s : fstate D) (Hs : on_image m s) (rp : nat) (Hip : holds_inode s rp (Z.of_nat 0 + 1)).

Lemma root_facts : i_type (ino s rp) = T_DIR ∧ i_nlink (ino s rp) = 1 ∧ i_size (ino s rp) = 512 * ((2 + Z.of_nat (length files)) / 32 + 1) ∧ is_dir s rp.
Proof using Hfit Hroom I Hs Hip.
  destruct (image_bounds files Hfit) as [Hl Hb]. assert (image_files files !! 0%nat = Some (T_DIR, root_bytes files)) as Hj by reflexivity.
  destruct (mt_inode m _ I Hl s Hs _ _ Hj rp Hip) as (_ & Es & Et & En). destruct (ig_meta _ _ I _ _ Hj) as (_ & _ & M3). cbn [snd] in M3. rewrite length_root_bytes in M3. rewrite decide_True in M3 by done. rewrite M3 in Es.
  rewrite root_arith in Es. pose proof (root_arith_max _ (fi_inodes _ Hfit)) as Hmax. split_and!; [exact Et|exact En|exact Es|].
  split; [exact (mt_geometry m _ I Hb s Hs)|exact (mt_tree m _ I Hl Hb s Hs _ _ Hj rp Hip)| |exact Et|].
  - split; rewrite Es; [unfold MAXOFF, MAXBN; lia|]. intros o Ho. apply (mt_block m _ I Hl Hb s Hs _ _ Hj rp Hip); [lia|]. cbn [snd]. unfold nblk. rewrite length_root_bytes, root_arith_blocks.
    pose proof (root_arith_dense (length files)) as Ha. rewrite Ha in Hroom. lia.
  - rewrite Es. clear. dlia.
Qed.

Lemma root_entry_at k b : dirents files !! k = Some b → entry_at s rp k = entry_of b ∧ (k < nentries s rp)%nat.
Proof using Hfit Hroom I Hs Hip.
  intros Hk. destruct (image_bounds files Hfit) as [Hl Hb]. assert (image_files files !! 0%nat = Some (T_DIR, root_bytes files)) as Hj by reflexivity.
  destruct root_facts as (_ & _ & Es & _). pose proof (root_arith_max _ (fi_inodes _ Hfit)) as Hmax. pose proof (lookup_lt_Some _ _ _ Hk) as Hlt. unfold dirents in Hlt. rewrite length_app, length_imap in Hlt. cbn [length] in Hlt. pose proof (fi_inodes _ Hfit) as H198.
  assert (length b = 16%nat) as H16 by (exact (Forall_lookup_1 _ _ _ _ (dirents_16 files) Hk)). split.
  - unfold entry_at. f_equal. apply list_eq. intros i. unfold contents. rewrite list_lookup_fmap. destruct (decide (i < 16)%nat) as [Hi|Hi].
    + rewrite lookup_seq_lt by done. cbn [fmap option_fmap option_map Nat.add]. rewrite (mt_file_at m _ I Hl Hb s Hs _ _ Hj rp Hip) by lia. cbn [snd].
      replace (Z.to_nat (16 * Z.of_nat k + Z.of_nat i)) with (16 * k + i)%nat by lia. rewrite root_dirents, nth_concat16 by (done || apply dirents_16).
      rewrite (nth_lookup_Some _ _ _ _ Hk). rewrite nth_lookup. destruct (lookup_lt_is_Some_2 b i ltac:(lia)) as [x Hx]. by rewrite Hx.
    + rewrite lookup_seq_ge by lia. symmetry. apply lookup_ge_None. lia.
  - unfold nentries. rewrite Es. clear -Hlt. dlia.
Qed.

(** The file is found under its name, unless an earlier entry has it. *)
Lemma root_find k f name : files !! k = Some f → take DIRSIZ (cstr name) = fname f → fname f ≠ [46] → fname f ≠ [46; 46] →
  (∀ j g, (j < k)%nat → files !! j = Some g → fname g ≠ fname f) →
  list_find (names name) (dir_entries s rp) = Some ((2 + k)%nat, (Z.of_nat k + 2, fname f)).
Proof using Hfit Hroom I Hs Hip.
  intros Hk Hn Hd1 Hd2 Hj. pose proof (fi_inodes _ Hfit) as H198. pose proof (lookup_lt_Some _ _ _ Hk) as Hlt.
  assert (∀ j g, files !! j = Some g → entry_at s rp (2 + j) = (Z.of_nat j + 2, fname g) ∧ (2 + j < nentries s rp)%nat) as Hat.
  { intros j g Hg. pose proof (lookup_lt_Some _ _ _ Hg). destruct (root_entry_at (2 + j) (dirent (Z.of_nat j + 2) (skip_underscore g.1))) as [E ?]; [unfold dirents; rewrite lookup_app_r by (cbn [length]; lia); cbn [length]; replace (2 + j - 2)%nat with j by lia; by rewrite list_lookup_imap, Hg|].
    split; [|done]. rewrite E, dirent_is_bytes, entry_dirent by lia. unfold fname, u16. by rewrite Z.mod_small by lia. }
  destruct (Hat k f Hk) as [Ek Hnk]. rewrite <-Ek. apply find_at; [|done|rewrite Ek; split; [cbn [fst]; lia|done]].
  intros j Hjk [_ Hx]. rewrite Hn in Hx. destruct j as [|[|j]].
  - rewrite (proj1 (root_entry_at 0 (dirent 1 [46]) eq_refl)) in Hx. by apply Hd1.
  - rewrite (proj1 (root_entry_at 1 (dirent 1 [46; 46]) eq_refl)) in Hx. by apply Hd2.
  - destruct (lookup_lt_is_Some_2 files j ltac:(lia)) as [g Hg]. change (S (S j)) with (2 + j)%nat in Hx. rewrite (proj1 (Hat j g Hg)) in Hx. apply (Hj j g ltac:(lia) Hg). exact Hx.
Qed.
End root.

(** ** Path names of one element *)

Lemma one_component x : x ≠ [] → SLASH ∉ x → components (SLASH :: x) = [x].
Proof using Type.
  intros Hx Hs. rewrite components_slash. unfold components. rewrite <-(app_nil_r x) at 1. rewrite pieces_app by done. cbn [tail pieces]. by rewrite filter_cons_True by done.
Qed.

Lemma skipelem_one x nm : x ≠ [] → SLASH ∉ x → 0 ∉ x → length nm = DIRSIZ →
  ∃ rest nm', skipelem (SLASH :: x) nm = Some (rest, nm') ∧ cstr nm' = take DIRSIZ x ∧ length nm' = DIRSIZ ∧ skipelem rest nm' = None.
Proof using Type.
  intros Hx Hs H0 Hl. pose proof (skipelem_next_component (SLASH :: x) nm) as H. rewrite (one_component x Hx Hs) in H.
  specialize (H ltac:(apply not_elem_of_cons; split; [done|exact H0]) Hl). destruct (skipelem (SLASH :: x) nm) as [[rest nm']|]; [|done].
  destruct H as (e & [= <- Hr] & Hc & Hl' & _ & _ & Hr0). exists rest, nm'. split_and!; try done.
  pose proof (skipelem_next_component rest nm' Hr0 Hl') as H'. destruct (skipelem rest nm') as [[r' n']|]; [|done]. destruct H' as (e' & E' & _). by rewrite <-Hr in E'.
Qed.

(** A cache in which nothing is in use. *)
Definition cache_empty (s : fstate D) : Prop := ∀ i, i_ref (ino s i) = 0 ∧ sl_locked (i_lock (ino s i)) = 0.

Lemma got_fresh s s' inum i : is_got s s' 1 inum i → (∀ j, ¬ cached s 1 inum j) →
  same_but s s' i ∧ dsk s' = dsk s ∧ ino s' i = mkInode 1 inum 1 (i_lock (ino s i)) 0 (i_type (ino s i)) (i_major (ino s i)) (i_minor (ino s i)) (i_nlink (ino s i)) (i_size (ino s i)) (i_addrs (ino s i)).
Proof using Type.
  intros G Hno. pose proof (is_got_ino _ _ _ _ _ G) as E. destruct G as (-> & _ & _). unfold same_but. split_and!; try done; [intros j Hj; by rewrite E, decide_False|].
  rewrite E, decide_True by done. unfold got. by rewrite decide_False by apply Hno.
Qed.

Lemma on_image_keep s s' i : on_image m s → dsk s' = dsk s → same_but s s' i → on_image m s'.
Proof using Type.
  intros [S1 S2 S3] Ed Hb. split; [by rewrite (proj1 Hb)|by rewrite Ed|by rewrite Ed].
Qed.

(** [namei] finds the file in the root directory. *)
Lemma namei_file dev_read s k f x nm r :
  files !! k = Some f → x ≠ [] → SLASH ∉ x → 0 ∉ x → take DIRSIZ x = fname f → fname f ≠ [46] → fname f ≠ [46; 46] →
  (∀ j g, (j < k)%nat → files !! j = Some g → fname g ≠ fname f) →
  on_image m s → cache_empty s → fits (dsk s) [] (S r) → length nm = DIRSIZ →
  wp (namei dev_read (SLASH :: x) nm) (λ o s', ∃ ip, o = Some ip ∧ on_image m s' ∧ idle_entry s' ip (Z.of_nat k + 2) ∧ fits (dsk s') [] (S r)) s.
Proof using Hfit Hroom I BL.
  intros Hk Hx Hs H0 Hn Hd1 Hd2 Hdis Hon Hce Hf Hl. destruct (image_bounds files Hfit) as [Hlen Hb].
  destruct (skipelem_one x nm Hx Hs H0 Hl) as (rest & nm' & Esk & Ec & Hl' & Esk2). pose proof (fi_inodes _ Hfit) as H198. pose proof (lookup_lt_Some _ _ _ Hk) as Hkl.
  assert (∀ inum j, ¬ cached s 1 inum j) as Hno by (intros inum j (_ & Hr & _); rewrite (proj1 (Hce j)) in Hr; lia).
  unfold namei. apply wp_bind. unfold namex. cbn [length]. rewrite Z.eqb_refl. apply wp_bind.
  wcall (iget_spec s ROOTDEV ROOTINO); [exists 0%nat; split; [unfold NINODE; lia|right; apply Hce]|]. intros rp s1 G1. change ROOTDEV with 1 in G1. change ROOTINO with 1 in G1.
  destruct (got_fresh _ _ _ _ G1 (Hno 1)) as (K1 & Ed1 & Ei1). pose proof (on_image_keep _ _ _ Hon Ed1 K1) as Hon1.
  assert (idle_entry s1 rp (Z.of_nat 0 + 1)) as Hie by (split; rewrite Ei1; try done; apply Hce).
  cbn [loop]. apply wp_bind. rewrite Esk. assert (image_files files !! 0%nat = Some (T_DIR, root_bytes files)) as Hj by reflexivity. assert (T_DIR ≠ 0) as Ht0 by done.
  apply wp_bind. wcall (mt_ilock m _ I Hlen Hb s1 0 _ rp r Hon1 Hj Ht0 Hie); [by rewrite Ed1|]. intros [] s2 (Hon2 & Hip2 & F2 & K2 & Er2 & El2).
  destruct (root_facts s2 Hon2 rp Hip2) as (Ety & Enl & _ & Hdir). apply wp_bind, wp_gets. rewrite Ety, Z.eqb_refl. cbn [negb andb].
  assert (∀ j, j ≠ rp → ino s2 j = ino s j) as Hoth by (intros j Hne; destruct K2 as (_ & _ & _ & _ & K2), K1 as (_ & _ & _ & _ & K1); by rewrite K2, K1).
  assert (i_inum (ino s2 rp) = 1) as Einum by (apply (hi_inum _ _ _ Hip2)).
  assert (∀ inum, has_slot s2 1 inum) as Hslot.
  { intros inum. exists (if decide (rp = 0%nat) then 1%nat else 0%nat). split; [case_decide; unfold NINODE; lia|]. right. rewrite Hoth by (case_decide; lia). apply Hce. }
  assert (cstr_in DIRSIZ nm') as Hcn by (right; lia). apply wp_bind. wcall (dirlookup_spec dev_read s2 rp nm' r Hdir Hcn F2 Hslot). intros l s3 (d3 & F3 & V3 & T3 & Hl3).
  rewrite (root_find s2 Hon2 rp Hip2 k f nm' Hk) in Hl3; [|by rewrite Ec, take_take, Nat.min_id|done..]. destruct Hl3 as (ip & -> & G3). cbn [fst] in G3.
  assert (∀ j, ¬ cached (set_dsk d3 s2) 1 (Z.of_nat k + 2) j) as Hno3.
  { intros j (_ & Hr & _ & Hin). change (ino (set_dsk d3 s2) j) with (ino s2 j) in Hr, Hin. destruct (decide (j = rp)) as [->|Hne]; [lia|]. rewrite Hoth, (proj1 (Hce j)) in Hr by done. lia. }
  destruct (got_fresh _ _ _ _ G3 Hno3) as (K3 & Ed3 & Ei3). assert (on_image m (set_dsk d3 s2)) as Hon3 by (by eapply on_image_ext). pose proof (on_image_keep _ _ _ Hon3 Ed3 K3) as Hon4.
  assert (ip ≠ rp) as Hne.
  { destruct G3 as (_ & _ & [Hc|[_ Hr]]); [by apply Hno3 in Hc|]. intros ->. change (ino (set_dsk d3 s2) rp) with (ino s2 rp) in Hr. rewrite Er2, Ei1 in Hr. done. }
  assert (ino s3 rp = ino s2 rp) as Erp by (destruct K3 as (_ & _ & _ & _ & K3); by rewrite K3).
  assert (f_pid s3 = f_pid s1 ∧ f_tid s3 = f_tid s1) as [Ep3 Et3] by (destruct K3 as (_ & -> & -> & _), K2 as (_ & ? & ? & _); done).
  assert (idle_entry s3 ip (Z.of_nat k + 2)) as Hi3.
  { split; rewrite Ei3; try done. change (ino (set_dsk d3 s2) ip) with (ino s2 ip). cbn [i_lock]. rewrite Hoth by done. apply Hce. }
  apply wp_bind. wcall (iunlockput_spec s3 rp); rewrite Erp; [by rewrite El2, Ep3, Et3|rewrite Er2, Ei1; simpl; lia|by rewrite Enl|]. intros [] s4 (Ed4 & K4 & _).
  apply wp_ret. cbn [loop]. apply wp_bind. rewrite Esk2. apply wp_ret, wp_ret, wp_ret. exists ip. split; [done|]. split_and!; [by eapply on_image_keep| |by rewrite Ed4, Ed3].
  destruct K4 as (_ & _ & _ & _ & K4). destruct Hi3. by split; rewrite K4.
Qed.
End path.

Section claim.
Context {D : Type} {BO : BlockOps D} {BM : BlockModel D} {BL : BlockLaws D}.

(** C5: From the image to the file by its name.  On a file system that was
    started on the image [mkfs] made, whose inode cache is empty, [namei] of
    a slash and the name of the k-th file (its name without the leading
    underscore, up to [DIRSIZ] characters) gives an inode, and [ilock] and
    [readi] of it return the bytes of that file at every offset.  The name
    must not be that of an earlier file, and the root directory must have its
    last block, which it has unless the entries fill their blocks. *)
Theorem mkfs_path_reads_file files k f x :
  fits_image files → (2 + Z.of_nat (length files)) mod 32 ≠ 0 → files !! k = Some f →
  x ≠ [] → SLASH ∉ x → 0 ∉ x → take DIRSIZ x = fname f → fname f ≠ [46] → fname f ≠ [46; 46] →
  (∀ j g, (j < k)%nat → files !! j = Some g → fname g ≠ fname f) →
  ∃ m, mkfs_main files mkfs0 = Ok (tt, m) ∧
  ∀ dev_read (s : fstate D) nm off n r, let size := Z.of_nat (length (concat f.2)) in
    on_image m s → cache_empty s → fits (dsk s) [] (S r) → length nm = DIRSIZ → 0 ≤ off ≤ size → 0 ≤ n → off + n < two32 →
    wp (o ← namei dev_read (SLASH :: x) nm;
        match o with
        | Some ip => ilock (Some ip);; readi dev_read ip off n
        | None => mret (-1, [])
        end)
      (λ r _, r = (Z.min n (size - off), take (Z.to_nat n) (drop (Z.to_nat off) (concat f.2)))) s.
Proof using BL.
  intros Hfit Hroom Hk Hx Hs H0 Hn Hd1 Hd2 Hdis. destruct (proj1 (wp_ok _ _ _) (main_spec files Hfit)) as ([] & m & Hm & I).
  exists m. split; [exact Hm|]. intros dev_read s nm off n r size Hon Hce Hf Hl Hoff Hn0 Hov. apply wp_bind.
  wcall (namei_file files Hfit Hroom m I dev_read s k f x nm r Hk Hx Hs H0 Hn Hd1 Hd2 Hdis Hon Hce Hf Hl). intros o s1 (ip & -> & Hon1 & Hie & F1).
  wcall (read_image_file files m dev_read s1 ip k f off n r Hfit I Hon1 Hk Hie F1 Hoff Hn0 Hov). intros v s2 (-> & _). reflexivity.
Qed.
End claim.

(** The second file of the sample, read by its name on the booted image. *)
Lemma mkfs_path_reads_file_witness :
  ∃ m, mkfs_main sample_files mkfs0 = Ok (tt, m) ∧
  wp start_op (λ _ S, wp (o ← namei (λ _, None) [47; 97] (replicate 14 1); match o with Some ip => ilock (Some ip);; readi (λ _, None) ip 510 200 | None => mret (-1, []) end)
    (λ r _, r = (90, [7; 7] ++ replicate 88 8)) (mkF S ∅ (decode_sb (vw m 1)) 1 1 0)) (power_on (m_img m) FSSIZE).
Proof.
  assert (0 ≤ 510 ≤ Z.of_nat (length (concat [replicate 512 7; replicate 88 8]))) as Ho by (vm_compute; done).
  assert (0 ≤ 200) as Hn by lia. assert (510 + 200 < two32) as Hov by (unfold two32; lia).
  destruct (mkfs_path_reads_file (D := lstate) sample_files 0 ([95; 97], [replicate 512 7; replicate 88 8]) [97] sample_files_fit) as (m & Hm & H); [done|reflexivity|done| | |reflexivity|done|done|intros j g Hj; lia|].
  { intros Hx%list_elem_of_singleton. done. } { intros Hx%list_elem_of_singleton. done. }
  exists m. split; [exact Hm|]. destruct (proj1 (wp_ok _ _ _) (main_spec sample_files sample_files_fit)) as ([] & m' & Hm' & I). rewrite Hm in Hm'. injection Hm' as <-.
  wcall (boot_image m _ 2 I). intros _ S ([S1 S2 S3] & Hf & _). set (s := mkF S ∅ _ 1 1 0).
  assert (on_image m s) as Hs by (split; [reflexivity|exact S2|exact S3]). assert (cache_empty s) as Hce by (intros i; split; reflexivity).
  eapply wp_mono; [exact (H (λ _, None) s (replicate 14 1) 510 200 28%nat Hs Hce Hf eq_refl Ho Hn Hov)|]. intros v s' ->. vm_compute. reflexivity.
Defined.

Close Scope Z_scope.
