(* ===== verification/Ide.v ===== *)
(** * The disk driver ([src/xv6-public/ide.c])

    The queue of requests, linked through [b->qnext], and the commands given
    to the controller.  The ports are an interface ([IdePorts]); a section
    under [idelock] is one step, and [iderw] is split where it sleeps:
    [iderw_start] up to the loop, [iderw_done] the condition of the loop. *)

From S2P Require Import Prelude.
From S2P Require Import ListH.
From S2P Require Import Bio.

Open Scope Z_scope.

Definition SECTOR_SIZE : Z := 512.
Definition IDE_BSY : Z := 128.
Definition IDE_DRDY : Z := 64.
Definition IDE_DF : Z := 32.
Definition IDE_ERR : Z := 1.
Definition IDE_CMD_READ : Z := 32.
Definition IDE_CMD_WRITE : Z := 48.
Definition IDE_CMD_RDMUL : Z := 196.
Definition IDE_CMD_WRMUL : Z := 197.
Definition IRQ_IDE : Z := 14.

(** The instructions that reach the controller; [polls] bounds how often the
    status is read before the disk is ready. *)
Class IdePorts (D : Type) := {
  inb : Z → M D Z;
  outb : Z → Z → M D unit;
  outsl : Z → block → M D unit;
  insl : Z → M D block;
  ioapicenable : Z → Z → M D unit;
  polls : nat
}.

Record ide (D : Type) := mkIde {
  id_bs : bstate;                     (* the buffers *)
  idequeue : option nat;
  qnext : gmap nat (option nat);      (* b->qnext *)
  havedisk1 : Z;
  id_wakes : list nat;                (* the buffers woken up on *)
  id_hw : D
}.
#[global] Arguments mkIde {_} _ _ _ _ _ _.
#[global] Arguments id_bs {_} _.
#[global] Arguments idequeue {_} _.
#[global] Arguments qnext {_} _.
#[global] Arguments havedisk1 {_} _.
#[global] Arguments id_wakes {_} _.
#[global] Arguments id_hw {_} _.

Section ide.
Context {D : Type} {P : IdePorts D}.
Abbreviation IM := (M (ide D)).

Definition set_id_bs (v : bstate) (s : ide D) : ide D := mkIde v (idequeue s) (qnext s) (havedisk1 s) (id_wakes s) (id_hw s).
Definition set_idequeue (v : option nat) (s : ide D) : ide D := mkIde (id_bs s) v (qnext s) (havedisk1 s) (id_wakes s) (id_hw s).
Definition set_qnext (v : gmap nat (option nat)) (s : ide D) : ide D := mkIde (id_bs s) (idequeue s) v (havedisk1 s) (id_wakes s) (id_hw s).
Definition set_havedisk1 (v : Z) (s : ide D) : ide D := mkIde (id_bs s) (idequeue s) (qnext s) v (id_wakes s) (id_hw s).
Definition set_id_wakes (v : list nat) (s : ide D) : ide D := mkIde (id_bs s) (idequeue s) (qnext s) (havedisk1 s) v (id_hw s).
Definition set_id_hw (v : D) (s : ide D) : ide D := mkIde (id_bs s) (idequeue s) (qnext s) (havedisk1 s) (id_wakes s) v.

Definition on_bs {A} : BM A → IM A := zoom id_bs set_id_bs.
Definition hw {A} : M D A → IM A := zoom id_hw set_id_hw.
Definition next_of (s : ide D) (i : nat) : option nat := default None (qnext s !! i).

Definition idewait (checkerr : bool) : IM Z :=
  r ← loop polls (λ _ : unit,
    r ← hw (inb 503);
    if negb (Z.eqb (Z.land r (Z.lor IDE_BSY IDE_DRDY)) IDE_DRDY) then mret (inl tt)
    else mret (inr r)) tt;
  if checkerr && negb (Z.eqb (Z.land r (Z.lor IDE_DF IDE_ERR)) 0) then mret (-1)
  else mret 0.

Definition ideinit (ncpu : Z) : IM unit :=
  hw (ioapicenable IRQ_IDE (ncpu - 1));;
  idewait false;;
  hw (outb 502 (Z.lor 224 (Z.shiftl 1 4)));;
  loop 1001 (λ i : nat,
    if (i <? 1000)%nat then
      r ← hw (inb 503);
      if negb (Z.eqb r 0) then
        modify (set_havedisk1 1);;
        mret (inr tt)
      else mret (inl (S i))
    else mret (inr tt)) 0%nat;;
  hw (outb 502 (Z.lor 224 (Z.shiftl 0 4))).

Definition idestart (b : option nat) : IM unit :=
  match b with
  | None => panic "idestart"
  | Some b =>
      blockno ← on_bs (rb b b_blockno);
      if Z.leb FSSIZE blockno then panic "incorrect blockno"
      else
        let sector_per_block := Z.of_nat BSIZE / SECTOR_SIZE in
        let sector := blockno * sector_per_block in
        let read_cmd := if Z.eqb sector_per_block 1 then IDE_CMD_READ else IDE_CMD_RDMUL in
        let write_cmd := if Z.eqb sector_per_block 1 then IDE_CMD_WRITE else IDE_CMD_WRMUL in
        if Z.ltb 7 sector_per_block then panic "idestart"
        else
          idewait false;;
          hw (outb 1014 0);;
          hw (outb 498 sector_per_block);;
          hw (outb 499 (Z.land sector 255));;
          hw (outb 500 (Z.land (Z.shiftr sector 8) 255));;
          hw (outb 501 (Z.land (Z.shiftr sector 16) 255));;
          dev ← on_bs (rb b b_dev);
          hw (outb 502 (Z.lor (Z.lor 224 (Z.shiftl (Z.land dev 1) 4)) (Z.land (Z.shiftr sector 24) 15)));;
          fl ← on_bs (rb b b_flags);
          if negb (Z.eqb (Z.land fl B_DIRTY) 0) then
            hw (outb 503 write_cmd);;
            d ← on_bs (rb b b_data);
            hw (outsl 496 d)
          else
            hw (outb 503 read_cmd)
  end.

(** The end of the handler: the buffer is done, the next one starts. *)
Definition ide_finish (b : nat) : IM unit :=
  fl ← on_bs (rb b b_flags);
  on_bs (wb b (set_b_flags (Z.lor fl B_VALID)));;
  fl ← on_bs (rb b b_flags);
  on_bs (wb b (set_b_flags (Z.land fl (Z.lnot B_DIRTY))));;
  modify (λ s, set_id_wakes (id_wakes s ++ [b]) s);;
  q ← gets idequeue;
  match q with
  | Some _ => idestart q
  | None => mret tt
  end.

Definition ideintr : IM unit :=
  q ← gets idequeue;
  match q with
  | None => mret tt
  | Some b =>
      n ← gets (λ s, next_of s b);
      modify (set_idequeue n);;
      fl ← on_bs (rb b b_flags);
      (if Z.eqb (Z.land fl B_DIRTY) 0 then
         r ← idewait true;
         if Z.leb 0 r then
           d ← hw (insl 496);
           on_bs (wb b (set_b_data d))
         else mret tt
       else mret tt);;
      ide_finish b
  end.

(** [pp]: the address of [idequeue] or of the [qnext] of a buffer. *)
Inductive qloc := QHead | QNext (b : nat).
Definition ld_q (pp : qloc) : IM (option nat) :=
  match pp with QHead => gets idequeue | QNext b => gets (λ s, next_of s b) end.
Definition st_q (pp : qloc) (v : option nat) : IM unit :=
  match pp with QHead => modify (set_idequeue v) | QNext b => modify (λ s, set_qnext (<[b := v]> (qnext s)) s) end.

Definition iderw_start (b : nat) : IM unit :=
  h ← on_bs (holdingsleep b);
  if negb h then panic "iderw: buf not locked"
  else
    fl ← on_bs (rb b b_flags);
    if Z.eqb (Z.land fl (Z.lor B_VALID B_DIRTY)) B_VALID then panic "iderw: nothing to do"
    else
      dev ← on_bs (rb b b_dev);
      have ← gets havedisk1;
      if negb (Z.eqb dev 0) && Z.eqb have 0 then panic "iderw: ide disk 1 not present"
      else
        st_q (QNext b) None;;
        pp ← loop (S (S NBUF)) (λ pp,
          x ← ld_q pp;
          match x with
          | Some y => mret (inl (QNext y))
          | None => mret (inr pp)
          end) QHead;
        st_q pp (Some b);;
        q ← gets idequeue;
        if bool_decide (q = Some b) then idestart (Some b) else mret tt.

Definition iderw_done (b : nat) : IM bool :=
  fl ← on_bs (rb b b_flags);
  mret (Z.eqb (Z.land fl (Z.lor B_VALID B_DIRTY)) B_VALID).
End ide.

Close Scope Z_scope.
