(* ===== verification/IdeTheorems.v ===== *)
(** * The disk driver serves a queue ([src/xv6-public/ide.c])

    What is assumed of the controller ([IdeLaws]: the task file registers,
    the read and write commands in PIO mode and the status register), the
    abstract driver, a queue of buffers served one by one, and the proof
    that [ide.c] implements it. *)

From S2P Require Import Prelude.
From S2P Require Import ListH.
From S2P Require Import Bio.
From S2P Require Import Ide.

Open Scope Z_scope.

(** ** The controller *)

Inductive command := Idle | Reading (drive lba : Z) | Writing (drive lba : Z).

(** The drive and the sector that the registers select. *)
Definition drive_of (r : Z → Z) : Z := Z.land (Z.shiftr (r 502) 4) 1.
Definition lba_of (r : Z → Z) : Z := r 499 + 256 * r 500 + 65536 * r 501 + 16777216 * Z.land (r 502) 15.

(** The data of a write goes to the controller as the driver sends it, after
    the command and without looking at the status; whether the block then has
    it depends on whether the command failed. *)
Class IdeLaws (D : Type) `{!IdePorts D} := {
  sectors : D → Z → Z → block;
  reg : D → Z → Z;
  cmd : D → command;
  failed : D → bool;               (* the command in progress failed *)
  busy : D → nat;                  (* status reads until the disk is ready *)
  busy_polls d : (busy d < polls)%nat;
  inb_spec d : wp (inb 503) (λ r d',
    sectors d' = sectors d ∧ reg d' = reg d ∧ cmd d' = cmd d ∧ failed d' = failed d ∧ busy d' = Nat.pred (busy d) ∧
    (Z.land r (Z.lor IDE_BSY IDE_DRDY) = IDE_DRDY ↔ busy d = 0%nat) ∧
    (busy d = 0%nat → Z.land r (Z.lor IDE_DF IDE_ERR) = 0 ↔ failed d = false)) d;
  outb_reg d p v : p ∈ [498; 499; 500; 501; 502; 1014] → busy d = 0%nat → wp (outb p v) (λ _ d',
    sectors d' = sectors d ∧ (∀ p', reg d' p' = if decide (p' = p) then v else reg d p') ∧ busy d' = 0%nat) d;
  outb_read d : busy d = 0%nat → reg d 498 = 1 → wp (outb 503 IDE_CMD_READ) (λ _ d',
    sectors d' = sectors d ∧ cmd d' = Reading (drive_of (reg d)) (lba_of (reg d))) d;
  outb_write d : busy d = 0%nat → reg d 498 = 1 → wp (outb 503 IDE_CMD_WRITE) (λ _ d',
    sectors d' = sectors d ∧ cmd d' = Writing (drive_of (reg d)) (lba_of (reg d))) d;
  outsl_spec d dr lba v : cmd d = Writing dr lba → length v = BSIZE → wp (outsl 496 v) (λ _ d',
    (∀ a b, ¬ (a = dr ∧ b = lba) → sectors d' a b = sectors d a b) ∧ length (sectors d' dr lba) = BSIZE ∧
    (failed d' = false → sectors d' dr lba = v)) d;
  insl_spec d dr lba : cmd d = Reading dr lba → busy d = 0%nat → failed d = false → wp (insl 496) (λ v d',
    v = sectors d dr lba ∧ sectors d' = sectors d) d
}.

(** What [idestart] puts into the registers selects the block. *)
Lemma lba_roundtrip n dev r : 0 ≤ n < 16777216 → dev = 0 ∨ dev = 1 →
  r 499 = Z.land n 255 → r 500 = Z.land (Z.shiftr n 8) 255 → r 501 = Z.land (Z.shiftr n 16) 255 →
  r 502 = Z.lor (Z.lor 224 (Z.shiftl (Z.land dev 1) 4)) (Z.land (Z.shiftr n 24) 15) → lba_of r = n ∧ drive_of r = dev.
Proof.
  unfold lba_of, drive_of. intros Hn Hd -> -> -> ->. assert (Z.shiftr n 24 = 0) as -> by (rewrite Z.shiftr_div_pow2 by lia; apply Z.div_small; lia).
  rewrite Z.land_0_l, Z.lor_0_r. change 255 with (Z.ones 8). rewrite !Z.land_ones, !Z.shiftr_div_pow2 by lia.
  destruct Hd as [-> | ->].
  - change (Z.lor 224 (Z.shiftl (Z.land 0 1) 4)) with 224. change (Z.land (224 / 2 ^ 4) 1) with 0. change (Z.land 224 15) with 0. split; [|done]. change (2 ^ 8) with 256. change (2 ^ 16) with 65536. Z.to_euclidean_division_equations. lia.
  - change (Z.lor 224 (Z.shiftl (Z.land 1 1) 4)) with 240. change (Z.land (240 / 2 ^ 4) 1) with 1. change (Z.land 240 15) with 0. split; [|done]. change (2 ^ 8) with 256. change (2 ^ 16) with 65536. Z.to_euclidean_division_equations. lia.
Qed.

(** ** The abstract driver *)

(** The blocks of the drives, the buffers, and those waiting, oldest first. *)
Record iq := mkIq { q_disk : Z → Z → block; q_buf : nat → buf; q_list : list nat }.

Definition is_dirty (b : buf) : bool := negb (Z.eqb (Z.land (b_flags b) B_DIRTY) 0).
Definition wr_sector (f : Z → Z → block) (dr n : Z) (v : block) (a b : Z) : block := if decide (a = dr ∧ b = n) then v else f a b.
Definition q_put (f : nat → buf) (i : nat) (b : buf) (j : nat) : buf := if decide (j = i) then b else f j.
Definition served (b : buf) : buf := set_b_flags (Z.land (Z.lor (b_flags b) B_VALID) (Z.lnot B_DIRTY)) b.

(** Serving the oldest request.  It succeeds ([None]), or the disk reports an
    error: then a read leaves the buffer as it is, and a write leaves some
    block [v] on the disk. *)
Definition q_intr (err : option block) (a : iq) : iq :=
  match q_list a with
  | [] => a
  | i :: q =>
      let b := q_buf a i in
      if is_dirty b then mkIq (wr_sector (q_disk a) (b_dev b) (b_blockno b) (default (b_data b) err)) (q_put (q_buf a) i (served b)) q
      else mkIq (q_disk a) (q_put (q_buf a) i (served (if err is Some _ then b else set_b_data (q_disk a (b_dev b) (b_blockno b)) b))) q
  end.
Definition q_submit (i : nat) (a : iq) : iq := mkIq (q_disk a) (q_buf a) (q_list a ++ [i]).

Section driver.
Context {D : Type} {P : IdePorts D} {L : IdeLaws D}.
Implicit Types (s : ide D) (d : D).

Lemma idewait_spec ce s : wp (idewait ce) (λ r s', r = (if ce && failed (id_hw s) then -1 else 0) ∧
  ∃ d', s' = set_id_hw d' s ∧ sectors d' = sectors (id_hw s) ∧ reg d' = reg (id_hw s) ∧ cmd d' = cmd (id_hw s) ∧ failed d' = failed (id_hw s) ∧ busy d' = 0%nat) s.
Proof using L.
  unfold idewait. apply wp_bind.
  eapply wp_mono; [eapply (wp_loop (λ n _ s1, ∃ d1, s1 = set_id_hw d1 s ∧ n = busy d1 ∧ sectors d1 = sectors (id_hw s) ∧ reg d1 = reg (id_hw s) ∧ cmd d1 = cmd (id_hw s) ∧ failed d1 = failed (id_hw s))) with (n := busy (id_hw s))
    (Q := λ r s1, (Z.land r (Z.lor IDE_DF IDE_ERR) = 0 ↔ failed (id_hw s) = false) ∧ ∃ d1, s1 = set_id_hw d1 s ∧ sectors d1 = sectors (id_hw s) ∧ reg d1 = reg (id_hw s) ∧ cmd d1 = cmd (id_hw s) ∧ failed d1 = failed (id_hw s) ∧ busy d1 = 0%nat)|].
  - intros n [] s1 (d1 & -> & -> & E1 & E2 & E3 & E4). apply wp_bind. unfold hw. apply wp_zoom. simpl id_hw. wcall (inb_spec d1). intros r d2 (F1 & F2 & F3 & F4 & F5 & F6 & F7).
    destruct (decide (busy d1 = 0%nat)) as [E|E].
    + rewrite (proj2 F6 E), Z.eqb_refl. apply wp_ret. split; [rewrite <-E4; by apply F7|]. exists d2. split_and!; [done|congruence..|]. rewrite F5, E. done.
    + rewrite (proj2 (Z.eqb_neq _ _)) by (by intros ?%F6). apply wp_ret. exists (busy d2). split; [lia|]. exists d2. split_and!; congruence || done.
  - apply busy_polls.
  - exists (id_hw s). destruct s. done.
  - intros r s1 (Hr & d1 & -> & E1 & E2 & E3 & E4 & E5). destruct ce; simpl; [|apply wp_ret; split; [done|]; by exists d1].
    destruct (Z.eqb_spec (Z.land r (Z.lor IDE_DF IDE_ERR)) 0) as [E|E].
    + apply Hr in E. apply wp_ret. split; [by rewrite E|]. by exists d1.
    + assert (failed (id_hw s) = true) as Ef by (destruct (failed (id_hw s)) eqn:Ef; [done|by destruct E; apply Hr]). apply wp_ret. split; [by rewrite Ef|]. by exists d1.
Qed.

(** The request is with the controller: a write has reached the disk, unless
    the command failed. *)
Definition started (disk : Z → Z → block) (b : buf) (d : D) : Prop :=
  if is_dirty b then
    (∀ x y, ¬ (x = b_dev b ∧ y = b_blockno b) → sectors d x y = disk x y) ∧ length (sectors d (b_dev b) (b_blockno b)) = BSIZE ∧
    (failed d = false → sectors d (b_dev b) (b_blockno b) = b_data b)
  else cmd d = Reading (b_dev b) (b_blockno b) ∧ ∀ x y, sectors d x y = disk x y.

(** A buffer that can be queued. *)
Record request (b : buf) : Prop := {
  rq_block : 0 ≤ b_blockno b < FSSIZE;
  rq_dev : b_dev b = 0 ∨ b_dev b = 1;
  rq_data : length (b_data b) = BSIZE
}.

Lemma wp_outb s p v (Q : unit → ide D → Prop) : p ∈ [498; 499; 500; 501; 502; 1014] → busy (id_hw s) = 0%nat →
  (∀ d', sectors d' = sectors (id_hw s) → (∀ p', reg d' p' = if decide (p' = p) then v else reg (id_hw s) p') → busy d' = 0%nat → Q tt (set_id_hw d' s)) → wp (hw (outb p v)) Q s.
Proof using L. intros Hp Hb HQ. unfold hw. apply wp_zoom. wcall (outb_reg (id_hw s) p v Hp Hb). intros [] d' (E1 & E2 & E3). by apply HQ. Qed.

Lemma idestart_spec s i (b := bf (id_bs s) i) : request b →
  wp (idestart (Some i)) (λ _ s', ∃ d', s' = set_id_hw d' s ∧ started (sectors (id_hw s)) b d') s.
Proof using L.
  intros [H1 H2 H3]. unfold idestart. apply wp_bind, wp_zoom, wp_gets. fold b. rewrite (proj2 (Z.leb_gt _ _)) by lia.
  change (Z.of_nat BSIZE / SECTOR_SIZE) with 1. cbn [Z.eqb Z.ltb Pos.eqb Z.compare Pos.compare Pos.compare_cont]. rewrite Z.mul_1_r.
  replace (set_id_bs (id_bs s) s) with s by (by destruct s). apply wp_bind. wcall idewait_spec. intros r s1 (_ & d1 & -> & E1 & _ & _ & _ & E2).
  apply wp_bind, wp_outb; [set_solver|done|]. intros d2 F1 R1 B1. simpl in F1, R1, B1.
  apply wp_bind, wp_outb; [set_solver|done|]. intros d3 F2 R2 B2. simpl in F2, R2, B2.
  apply wp_bind, wp_outb; [set_solver|done|]. intros d4 F3 R3 B3. simpl in F3, R3, B3.
  apply wp_bind, wp_outb; [set_solver|done|]. intros d5 F4 R4 B4. simpl in F4, R4, B4.
  apply wp_bind, wp_outb; [set_solver|done|]. intros d6 F5 R5 B5. simpl in F5, R5, B5.
  apply wp_bind, wp_zoom, wp_gets. simpl bf. fold b.
  apply wp_bind, wp_outb; [set_solver|done|]. intros d7 F6 R6 B6. simpl in F6, R6, B6.
  assert (lba_of (reg d7) = b_blockno b ∧ drive_of (reg d7) = b_dev b) as [El Ed].
  { apply lba_roundtrip; [unfold FSSIZE in H1; lia|done|..]; rewrite ?R6, ?R5, ?R4, ?R3, ?R2, ?R1; reflexivity. }
  assert (reg d7 498 = 1) as En by (rewrite R6, R5, R4, R3, R2; reflexivity).
  assert (sectors d7 = sectors (id_hw s)) as Es by congruence.
  apply wp_bind, wp_zoom, wp_gets. simpl bf. fold b. unfold started. fold (is_dirty b). destruct (is_dirty b) eqn:Hd.
  - apply wp_bind. unfold hw. apply wp_zoom. simpl id_hw. wcall (outb_write d7 B6 En). intros [] d8 (G1 & G2). rewrite El, Ed in G2.
    apply wp_bind, wp_zoom, wp_gets. simpl bf. fold b. apply wp_zoom. simpl id_hw. wcall (outsl_spec d8 _ _ (b_data b) G2 H3). intros [] d9 (G3 & G4 & G5). exists d9. split; [by destruct s|].
    split_and!; [|done|done]. intros x y Hxy. by rewrite G3, G1, Es by done.
  - unfold hw. apply wp_zoom. simpl id_hw. wcall (outb_read d7 B6 En). intros [] d8 (G1 & G2). rewrite El, Ed in G2. exists d8. split; [by destruct s|]. split; [done|]. intros x y. by rewrite G1, Es.
Qed.

(** ** The queue in memory *)

Fixpoint linked (nx : nat → option nat) (h : option nat) (q : list nat) : Prop :=
  match q with
  | [] => h = None
  | i :: q => h = Some i ∧ linked nx (nx i) q
  end.

Lemma queue_ext nx nx' h q : (∀ i, i ∈ q → nx' i = nx i) → linked nx h q → linked nx' h q.
Proof using Type.
  revert h. induction q as [|i q IH]; intros h E; [done|]. intros [-> H]. split; [done|]. rewrite E by left. apply IH; [|done]. intros j Hj. apply E. by right.
Qed.

(** The location that holds the null pointer at the end of the queue. *)
Definition tail_loc (pp : qloc) (q : list nat) : qloc := match last q with Some j => QNext j | None => pp end.
Definition loc_val (s : ide D) (pp : qloc) : option nat := match pp with QHead => idequeue s | QNext b => next_of s b end.
Definition loc_put (s : ide D) (pp : qloc) (v : option nat) : ide D := match pp with QHead => set_idequeue v s | QNext b => set_qnext (<[b := v]> (qnext s)) s end.

Lemma wp_ld_q s pp Q : Q (loc_val s pp) s → wp (ld_q pp) Q s.
Proof using Type. by destruct pp; intros H; apply wp_gets. Qed.
Lemma wp_st_q s pp v Q : Q tt (loc_put s pp v) → wp (st_q pp v) Q s.
Proof using Type. by destruct pp; intros H; apply wp_modify. Qed.

Lemma tail_walk s q pp fuel Q : (length q < fuel)%nat → linked (next_of s) (loc_val s pp) q → Q (tail_loc pp q) s →
  wp (loop fuel (λ pp, x ← ld_q pp; match x with Some y => mret (inl (QNext y)) | None => mret (inr pp) end) pp) Q s.
Proof using Type.
  revert pp fuel. induction q as [|i q IH]; intros pp [|fuel] Hf Hl HQ; simpl in Hf; [lia| |lia|]; cbn [loop]; apply wp_bind, wp_bind, wp_ld_q.
  - simpl in Hl. rewrite Hl. by apply wp_ret, wp_ret.
  - destruct Hl as [-> Hl]. apply wp_ret. apply IH; [lia|done|]. unfold tail_loc in *. rewrite last_cons in HQ. by destruct (last q).
Qed.

Lemma next_put s b v i : next_of (set_qnext (<[b := v]> (qnext s)) s) i = if decide (i = b) then v else next_of s i.
Proof using Type. unfold next_of. simpl. case_decide as E; [subst; by rewrite lookup_insert_eq|by rewrite lookup_insert_ne]. Qed.

(** Appending [i] at the end. *)
Lemma linked_snoc s pp q i : linked (next_of s) (loc_val s pp) q → NoDup q → i ∉ q → next_of s i = None →
  (match pp with QNext j => j ∉ q ∧ j ≠ i | QHead => True end) → let s' := loc_put s (tail_loc pp q) (Some i) in linked (next_of s') (loc_val s' pp) (q ++ [i]).
Proof using Type.
  revert pp. induction q as [|j q IH]; intros pp Hl Hd Hi Hn Hp s'.
  - assert (loc_val s' pp = Some i ∧ next_of s' i = None) as [E1 E2]; [|done]. unfold s', tail_loc. simpl. destruct pp as [|k]; simpl; [done|]. rewrite !next_put. rewrite decide_True by done. rewrite decide_False by (intros ->; by destruct Hp). done.
  - destruct Hl as [Hj Hl]. apply NoDup_cons in Hd as [Hjq Hd]. apply not_elem_of_cons in Hi as [Hij Hi].
    specialize (IH (QNext j) Hl Hd Hi Hn (conj Hjq (not_eq_sym Hij))). assert (tail_loc (QNext j) q = tail_loc pp (j :: q)) as Et by (unfold tail_loc; rewrite last_cons; by destruct (last q)).
    rewrite Et in IH. fold s' in IH. split; [|exact IH]. rewrite <-Hj. unfold s'. rewrite <-Et. unfold tail_loc. destruct pp as [|k].
    + by destruct (last q).
    + destruct Hp as [Hp1 Hp2]. apply not_elem_of_cons in Hp1 as [Hp1 Hp3]. destruct (last q) as [x|] eqn:El; simpl; rewrite next_put, decide_False; [done| |done|done].
      intros ->. apply Hp3. by apply last_Some_elem_of in El.
Qed.

(** ** The driver implements the queue *)

Record ide_sim (s : ide D) (a : iq) : Prop := {
  is_buf : ∀ i, bf (id_bs s) i = q_buf a i;
  is_link : linked (next_of s) (idequeue s) (q_list a);
  is_nodup : NoDup (q_list a);
  is_req : ∀ i, i ∈ q_list a → (i < NBUF)%nat ∧ request (q_buf a i);
  is_hw : match q_list a with
          | [] => ∀ x y, sectors (id_hw s) x y = q_disk a x y
          | i :: _ => started (q_disk a) (q_buf a i) (id_hw s)
          end
}.

(** A call of [iderw] that does not panic, by the thread that holds the
    lock of the buffer; it waits until the request was served. *)
Record may_submit (s : ide D) (a : iq) (i : nat) : Prop := {
  ms_lock : b_lock (q_buf a i) = mkSleeplock 1 (me_pid (id_bs s)) (me_tid (id_bs s));
  ms_work : Z.land (b_flags (q_buf a i)) (Z.lor B_VALID B_DIRTY) ≠ B_VALID;
  ms_disk : b_dev (q_buf a i) = 0 ∨ havedisk1 s ≠ 0;
  ms_req : (i < NBUF)%nat ∧ request (q_buf a i);
  ms_new : i ∉ q_list a
}.

Lemma started_ext disk disk' b d : (∀ x y, disk' x y = disk x y) → started disk b d → started disk' b d.
Proof using Type.
  intros E. unfold started. destruct (is_dirty b); [intros (H1 & H2 & H3); split_and!; [|done|done]; intros x y Hxy; by rewrite H1, E|]. intros [H1 H2]. split; [done|]. intros x y. by rewrite H2, E.
Qed.

Lemma queue_short s a : ide_sim s a → (length (q_list a) ≤ NBUF)%nat.
Proof using Type.
  intros R. rewrite <-(length_seq NBUF 0). apply submseteq_length, NoDup_submseteq; [apply R|]. intros i Hi. apply elem_of_seq. destruct (is_req _ _ R i Hi). lia.
Qed.

(** What [iderw] and the handler leave alone. *)
Definition same_rest (s s' : ide D) : Prop :=
  havedisk1 s' = havedisk1 s ∧ me_pid (id_bs s') = me_pid (id_bs s) ∧ me_tid (id_bs s') = me_tid (id_bs s).

Lemma iderw_start_sim s a i : ide_sim s a → may_submit s a i →
  wp (iderw_start i) (λ _ s', ide_sim s' (q_submit i a) ∧ id_wakes s' = id_wakes s ∧ same_rest s s') s.
Proof using L.
  intros R [M1 M2 M3 M4 M5]. pose proof (queue_short _ _ R) as Hlen. pose proof R as [R1 R2 R3 R4 R5]. unfold iderw_start.
  assert (∀ A (f : buf → A), on_bs (rb i f) s = Ok (f (q_buf a i), s)) as Hrb by (intros A f; unfold on_bs, zoom, rb, gets; rewrite R1; by destruct s).
  apply wp_bind. eapply wp_eq; [unfold on_bs, zoom; rewrite holdingsleep_run by (by rewrite R1); reflexivity|]. replace (set_id_bs (id_bs s) s) with s by (by destruct s). cbn [negb].
  apply wp_bind. eapply wp_eq; [apply Hrb|]. rewrite (proj2 (Z.eqb_neq _ _)) by done. apply wp_bind. eapply wp_eq; [apply Hrb|]. apply wp_bind, wp_gets.
  assert (negb (b_dev (q_buf a i) =? 0) && (havedisk1 s =? 0) = false) as -> by (destruct M3 as [-> | M3]; [done|]; rewrite (proj2 (Z.eqb_neq (havedisk1 s) 0)) by done; apply andb_false_r).
  apply wp_bind, wp_st_q. set (s1 := loc_put s (QNext i) None).
  assert (∀ j, next_of s1 j = if decide (j = i) then None else next_of s j) as Hn1 by (intros j; apply next_put).
  assert (linked (next_of s1) (loc_val s1 QHead) (q_list a)) as Hl1 by (eapply queue_ext; [|exact R2]; intros j Hj; rewrite Hn1; apply decide_False; by intros ->).
  apply wp_bind. eapply tail_walk; [|exact Hl1|]; [lia|]. apply wp_bind, wp_st_q. set (s2 := loc_put s1 _ _).
  assert (linked (next_of s2) (idequeue s2) (q_list a ++ [i])) as Hl2.
  { apply (linked_snoc s1 QHead (q_list a) i Hl1 R3 M5); [|done]. rewrite Hn1. by apply decide_True. }
  assert (id_bs s2 = id_bs s ∧ id_hw s2 = id_hw s ∧ id_wakes s2 = id_wakes s ∧ havedisk1 s2 = havedisk1 s) as (E1 & E2 & E3 & E4) by (unfold s2, s1, tail_loc; by destruct (last (q_list a))). clearbody s2.
  assert (NoDup (q_list a ++ [i]) ∧ (∀ j, j ∈ q_list a ++ [i] → (j < NBUF)%nat ∧ request (q_buf a j))) as [Hd2 Hr2].
  { split; [apply NoDup_app; split_and!; [done|intros x Hx ->%list_elem_of_singleton; done|apply NoDup_singleton]|]. intros j [Hj|Hj%list_elem_of_singleton]%elem_of_app; [by apply R4|by subst]. }
  apply wp_bind, wp_gets. destruct (q_list a) as [|j q] eqn:Eq.
  - simpl in Hl2. destruct Hl2 as [Hh Hn]. rewrite bool_decide_eq_true_2 by done. assert (bf (id_bs s2) i = q_buf a i) as Eb by (rewrite E1; apply R1).
    wcall (idestart_spec s2 i ltac:(rewrite Eb; apply M4)). intros [] s3 (d3 & -> & Hst). rewrite Eb, E2 in Hst. split; [|split; [done|by unfold same_rest; simpl; rewrite E1, E4]]. split; simpl; rewrite ?Eq; simpl; try done.
    + intros k. rewrite E1. apply R1.
    + eapply started_ext; [|exact Hst]. intros x y. by rewrite R5.
  - destruct Hl2 as [Hh Hn]. rewrite bool_decide_eq_false_2 by (rewrite Hh; intros [= ->]; apply M5; left). apply wp_ret. split; [|split; [done|by unfold same_rest; rewrite E1, E4]]. split; simpl; rewrite ?Eq; simpl; try done.
    + intros k. rewrite E1. apply R1.
    + by rewrite E2.
Qed.

(** The handler once the data is there: [b] is the buffer it serves. *)
Lemma ide_finish_sim s a i q b disk : q_list a = i :: q → NoDup (i :: q) → (∀ j, j ∈ q → (j < NBUF)%nat ∧ request (q_buf a j)) →
  (∀ j, bf (id_bs s) j = q_put (q_buf a) i b j) → linked (next_of s) (idequeue s) q → (∀ x y, sectors (id_hw s) x y = disk x y) →
  wp (ide_finish i) (λ _ s', ide_sim s' (mkIq disk (q_put (q_buf a) i (served b)) q) ∧ id_wakes s' = id_wakes s ++ [i] ∧ same_rest s s') s.
Proof using L.
  intros Eq [Hi Hd]%NoDup_cons Hr Hb Hl Hs. unfold ide_finish.
  apply wp_bind, wp_zoom, wp_gets. rewrite Hb. unfold q_put at 1. rewrite decide_True by done. apply wp_bind, wp_zoom, wp_modify.
  apply wp_bind, wp_zoom, wp_gets. cbn [id_bs set_id_bs]. rewrite bf_upd, decide_True by done. apply wp_bind, wp_zoom, wp_modify. apply wp_bind, wp_modify. cbn [id_bs set_id_bs].
  set (B := upd_buf i _ (upd_buf i _ _)).
  assert (∀ j, bf B j = q_put (q_buf a) i (served b) j) as HB.
  { intros j. unfold B. rewrite !bf_upd. unfold q_put. destruct (decide (i = j)) as [->|Hne].
    - rewrite !decide_True by done. rewrite Hb. unfold q_put. by rewrite decide_True.
    - rewrite decide_False by done. rewrite Hb. unfold q_put. by rewrite !decide_False by done. }
  match goal with |- wp _ _ ?x => set (s2 := x) end.
  assert (id_bs s2 = B ∧ id_hw s2 = id_hw s ∧ id_wakes s2 = id_wakes s ++ [i] ∧ idequeue s2 = idequeue s ∧ (∀ j, next_of s2 j = next_of s j) ∧ same_rest s s2) as (E1 & E2 & E3 & E4 & E5 & E6) by done. clearbody s2.
  assert (∀ j, j ∈ q → q_put (q_buf a) i (served b) j = q_buf a j) as Hq by (intros j Hj; unfold q_put; apply decide_False; by intros ->).
  assert (linked (next_of s2) (idequeue s2) q) as Hl2 by (rewrite E4; eapply queue_ext; [|exact Hl]; intros k _; apply E5).
  apply wp_bind, wp_gets. destruct q as [|j q].
  - simpl in Hl2. rewrite Hl2. apply wp_ret. split; [|done]. split; simpl; [by rewrite E1|done|apply NoDup_nil_2|by intros k ?%elem_of_nil|by rewrite E2].
  - pose proof Hl2 as [Hh Hn]. rewrite Hh. assert (bf (id_bs s2) j = q_buf a j) as Ej by (rewrite E1, HB; apply Hq; left).
    wcall (idestart_spec s2 j ltac:(rewrite Ej; apply Hr; left)). intros [] s3 (d3 & -> & Hst). rewrite Ej, E2 in Hst. split; [|done]. split; simpl; [by rewrite E1|by split|done| |].
    + intros k Hk. rewrite Hq by done. by apply Hr.
    + rewrite Hq by left. eapply started_ext; [|exact Hst]. intros x y. by rewrite Hs.
Qed.

(** What becomes of the oldest request, by what the controller reports. *)
Definition outcome (d : D) (a : iq) : option block :=
  if failed d then
    Some (match q_list a with
          | i :: _ => if is_dirty (q_buf a i) then sectors d (b_dev (q_buf a i)) (b_blockno (q_buf a i)) else replicate BSIZE 0
          | [] => replicate BSIZE 0
          end)
  else None.

Lemma outcome_size s a v : ide_sim s a → outcome (id_hw s) a = Some v → length v = BSIZE.
Proof using Type.
  intros R. unfold outcome. destruct (failed (id_hw s)); [|done]. intros [= <-]. pose proof (is_hw _ _ R) as H.
  destruct (q_list a) as [|i q]; [done|]. unfold started in H. destruct (is_dirty (q_buf a i)); [apply H|done].
Qed.

Lemma ideintr_sim s a : ide_sim s a →
  wp ideintr (λ _ s', ide_sim s' (q_intr (outcome (id_hw s) a) a) ∧ id_wakes s' = id_wakes s ++ take 1 (q_list a) ∧ same_rest s s') s.
Proof using L.
  intros R. pose proof R as [R1 R2 R3 R4 R5]. unfold ideintr. apply wp_bind, wp_gets. unfold q_intr, outcome. destruct (q_list a) as [|i q] eqn:Eq.
  { simpl in R2. rewrite R2. apply wp_ret. split; [done|]. by rewrite app_nil_r. }
  destruct R2 as [Hh Hl]. rewrite Hh. apply wp_bind, wp_gets, wp_bind, wp_modify. set (s1 := set_idequeue _ s).
  assert (∀ j, j ∈ q → (j < NBUF)%nat ∧ request (q_buf a j)) as Hr by (intros j Hj; apply R4; by right).
  apply wp_bind, wp_zoom, wp_gets. cbn [id_bs s1 set_idequeue]. rewrite R1. replace (set_id_bs (id_bs s) s1) with s1 by (by destruct s).
  unfold started in R5. unfold is_dirty in R5 |- *. destruct (Z.eqb_spec (Z.land (b_flags (q_buf a i)) B_DIRTY) 0) as [Ed|Ed]; cbn [negb] in R5 |- *.
  - destruct R5 as [Hc Hs]. apply wp_bind, wp_bind. wcall (idewait_spec true s1). intros r s2 (-> & d2 & -> & E1 & _ & E3 & E4 & E5). change (id_hw s1) with (id_hw s) in *. cbn [andb].
    destruct (failed (id_hw s)) eqn:Ef.
    + cbn [Z.leb Z.compare]. apply wp_ret. wcall (ide_finish_sim (set_id_hw d2 s1) a i q (q_buf a i) (q_disk a) Eq R3 Hr); try done.
      * intros j. unfold q_put. case_decide; [by subst|]; apply R1.
      * intros x y. simpl. by rewrite E1.
    + cbn [Z.leb Z.compare]. apply wp_bind. unfold hw. apply wp_zoom. cbn [id_hw set_id_hw]. wcall (insl_spec d2 (b_dev (q_buf a i)) (b_blockno (q_buf a i)) ltac:(by rewrite E3) E5 ltac:(by rewrite E4)). intros v d3 (-> & E6). rewrite E1, Hs. apply wp_zoom, wp_modify.
      wcall (ide_finish_sim (set_id_bs (upd_buf i (set_b_data (q_disk a (b_dev (q_buf a i)) (b_blockno (q_buf a i)))) (id_bs s)) (set_id_hw d3 s1)) a i q (set_b_data (q_disk a (b_dev (q_buf a i)) (b_blockno (q_buf a i))) (q_buf a i)) (q_disk a) Eq R3 Hr); try done.
      * intros j. simpl. rewrite bf_upd. unfold q_put. destruct (decide (i = j)) as [->|]; [by rewrite decide_True, R1|by rewrite decide_False, R1].
      * intros x y. simpl. by rewrite E6, E1.
  - apply wp_bind, wp_ret. wcall (ide_finish_sim s1 a i q (q_buf a i)
      (wr_sector (q_disk a) (b_dev (q_buf a i)) (b_blockno (q_buf a i)) (sectors (id_hw s) (b_dev (q_buf a i)) (b_blockno (q_buf a i)))) Eq R3 Hr); try done.
    + intros j. unfold q_put. case_decide; [by subst|]; apply R1.
    + intros x y. change (id_hw s1) with (id_hw s). unfold wr_sector. case_decide as E; [by destruct E as [-> ->]|]. by apply R5.
    + intros [] s' H. destruct (failed (id_hw s)) eqn:Ef; [exact H|]. simpl. rewrite <-(proj2 (proj2 R5) eq_refl). exact H.
Qed.

(** ** Threads and interrupts *)

(** A thread calls [iderw], or the disk interrupts. *)
Inductive ide_event := Submit (pid tid : Z) (i : nat) | Interrupt.

(** [myproc()] becomes another thread. *)
Definition become (pid tid : Z) (b : bstate) : bstate := mkB (bufs b) (blinks b) (disk b) (disksize b) (dtrace b) pid tid.
Definition ide_step (e : ide_event) : M (ide D) unit :=
  match e with
  | Submit pid tid i => on_bs (modify (become pid tid));; iderw_start i
  | Interrupt => ideintr
  end.

Record can_submit (have pid tid : Z) (a : iq) (i : nat) : Prop := {
  cs_lock : b_lock (q_buf a i) = mkSleeplock 1 pid tid;
  cs_work : Z.land (b_flags (q_buf a i)) (Z.lor B_VALID B_DIRTY) ≠ B_VALID;
  cs_disk : b_dev (q_buf a i) = 0 ∨ have ≠ 0;
  cs_req : (i < NBUF)%nat ∧ request (q_buf a i);
  cs_new : i ∉ q_list a
}.

(** Every call is by the holder of the buffer, for a buffer that needs it,
    whatever the disk reports. *)
Fixpoint legal (have : Z) (evs : list ide_event) (a : iq) : Prop :=
  match evs with
  | [] => True
  | Submit pid tid i :: evs => can_submit have pid tid a i ∧ legal have evs (q_submit i a)
  | Interrupt :: evs => ∀ err, (∀ v, err = Some v → length v = BSIZE) → legal have evs (q_intr err a)
  end.

(** The events one after the other, and for each interrupt whether the
    controller says that the command it ends has failed. *)
Fixpoint ide_run (evs : list ide_event) : M (ide D) (list bool) :=
  match evs with
  | [] => mret []
  | Submit pid tid i :: evs => ide_step (Submit pid tid i);; ide_run evs
  | Interrupt :: evs =>
      f ← gets (λ s, failed (id_hw s));
      ide_step Interrupt;;
      fs ← ide_run evs;
      mret (f :: fs)
  end.

(** The abstract driver, where the requests fail that [errs] says. *)
Inductive q_run : list ide_event → list bool → iq → list nat → iq → Prop :=
  | q_run_nil a : q_run [] [] a [] a
  | q_run_submit pid tid i evs errs a w a' : q_run evs errs (q_submit i a) w a' → q_run (Submit pid tid i :: evs) errs a w a'
  | q_run_intr err evs errs a w a' : q_run evs errs (q_intr err a) w a' →
      q_run (Interrupt :: evs) (bool_decide (is_Some err) :: errs) a (take 1 (q_list a) ++ w) a'.

Definition submitted (evs : list ide_event) : list nat := omap (λ e, match e with Submit _ _ i => Some i | Interrupt => None end) evs.

Lemma q_intr_list err a : q_list (q_intr err a) = drop 1 (q_list a).
Proof using Type. unfold q_intr. destruct (q_list a) as [|i q] eqn:E; [done|]. by destruct (is_dirty _). Qed.

(** First come, first served. *)
Lemma q_run_fifo evs errs a w a' : q_run evs errs a w a' → w ++ q_list a' = q_list a ++ submitted evs.
Proof using Type.
  induction 1 as [a|pid tid i evs errs a w a' H IH|err evs errs a w a' H IH].
  - by rewrite app_nil_r.
  - rewrite IH. simpl. by rewrite <-app_assoc.
  - rewrite <-app_assoc, IH, q_intr_list, app_assoc, take_drop. done.
Qed.

Lemma ide_run_sim evs s a : ide_sim s a → legal (havedisk1 s) evs a →
  wp (ide_run evs) (λ errs s', ∃ w a', q_run evs errs a w a' ∧ ide_sim s' a' ∧ id_wakes s' = id_wakes s ++ w) s.
Proof using L.
  revert s a. induction evs as [|e evs IH]; intros s a R Hl; cbn [ide_run].
  - apply wp_ret. exists [], a. split_and!; [constructor|done|by rewrite app_nil_r].
  - destruct e as [pid tid i|]; cbn [ide_step].
    + apply wp_bind. destruct Hl as [[C1 C2 C3 C4 C5] Hl]. apply wp_bind, wp_zoom, wp_modify. set (s1 := set_id_bs (become pid tid (id_bs s)) s).
      assert (ide_sim s1 a) as R1 by (destruct R; by split). assert (may_submit s1 a i) as M1 by (by split).
      wcall (iderw_start_sim s1 a i R1 M1). intros [] s2 (R2 & W2 & K2). wcall (IH s2 _ R2); [rewrite (proj1 K2); exact Hl|]. intros errs s3 (w & a' & Q & R3 & W3). exists w, a'. split_and!; [by constructor|done|by rewrite W3, W2].
    + apply wp_bind, wp_gets, wp_bind. wcall (ideintr_sim s a R). intros [] s2 (R2 & W2 & K2). apply wp_bind.
      wcall (IH s2 _ R2); [rewrite (proj1 K2); apply Hl; intros v; by apply outcome_size|]. intros errs s3 (w & a' & Q & R3 & W3). apply wp_ret. eexists _, a'.
      split_and!; [|done|by rewrite W3, W2, <-app_assoc]. replace (failed (id_hw s)) with (bool_decide (is_Some (outcome (id_hw s) a))); [by constructor|].
      unfold outcome. by destruct (failed (id_hw s)).
Qed.

(** C21: The disk driver implements a queue of requests.  Whatever calls of
    [iderw] by the holders of buffers and whatever interrupts come, in any
    order, the driver does not fault and its state stands for the abstract
    driver's, whose requests fail exactly when the controller reports so at
    the interrupt that ends them: an interrupt serves the oldest request and
    wakes up on its buffer, a write puts the data of the buffer into the block
    that the buffer names and no other, a read fills the buffer from its
    block, and the buffer becomes valid and clean; after an error too, when
    the buffer of a read keeps its bytes and the block of a write may have
    any.  The requests are served in the order of the calls. *)
Theorem ide_serves_queue evs s a :
  ide_sim s a → legal (havedisk1 s) evs a →
  wp (ide_run evs) (λ errs s', ∃ w a', q_run evs errs a w a' ∧ ide_sim s' a' ∧
    id_wakes s' = id_wakes s ++ w ∧ w ++ q_list a' = q_list a ++ submitted evs) s.
Proof using L.
  intros R Hl. wcall (ide_run_sim evs s a R Hl). intros errs s' (w & a' & Q & R' & W). exists w, a'. split_and!; [done..|by eapply q_run_fifo].
Qed.

(** ** The memory disk *)

Lemma clear_dirty f : Z.land f B_DIRTY = 0 → Z.land f (Z.lnot B_DIRTY) = f.
Proof using Type. intros H. pose proof (Z.lor_ldiff_and f B_DIRTY) as E. rewrite H, Z.lor_0_r, Z.ldiff_land in E. done. Qed.
Lemma served_flags f : Z.land (Z.lor f B_VALID) (Z.lnot B_DIRTY) = Z.lor (Z.land f (Z.lnot B_DIRTY)) B_VALID.
Proof using Type. by rewrite Z.land_lor_distr_l. Qed.
Lemma valid_flags f : Z.land (Z.land (Z.lor f B_VALID) (Z.lnot B_DIRTY)) (Z.lor B_VALID B_DIRTY) = B_VALID.
Proof using Type.
  rewrite <-Z.land_assoc. change (Z.land (Z.lnot B_DIRTY) (Z.lor B_VALID B_DIRTY)) with 2. rewrite Z.land_lor_distr_l. change (Z.land B_VALID 2) with 2.
  apply Z.bits_inj'. intros n Hn. rewrite Z.lor_spec, Z.land_spec. change B_VALID with 2. destruct (Z.testbit 2 n); [by rewrite orb_true_r|by rewrite andb_false_r].
Qed.

(** [iderw] of the memory disk on a buffer of disk 1. *)
Lemma memide_run B i (b := bf B i) :
  b_lock b = mkSleeplock 1 (me_pid B) (me_tid B) → Z.land (b_flags b) (Z.lor B_VALID B_DIRTY) ≠ B_VALID → b_dev b = 1 → b_blockno b < disksize B →
  ∃ B', Bio.iderw i B = Ok (tt, B') ∧
    (∀ j, bf B' j = q_put (bf B) i (served (if is_dirty b then b else set_b_data (disk_at B (b_blockno b)) b)) j) ∧
    ∀ n, disk_at B' n = if is_dirty b && bool_decide (n = b_blockno b) then b_data b else disk_at B n.
Proof using Type.
  intros Hl Hf Hd Hb. unfold Bio.iderw. rewrite (bind_ok _ _ _ _ _ (holdingsleep_run _ _ Hl)). cbn [negb].
  unfold rb, gets, mbind, M_bind. fold b. rewrite (proj2 (Z.eqb_neq _ _)) by done. cbv iota beta. fold b. rewrite Hd. cbn [Z.eqb negb Pos.eqb]. fold b. rewrite (proj2 (Z.leb_gt _ _)) by done. unfold is_dirty.
  destruct (Z.eqb_spec (Z.land (b_flags b) B_DIRTY) 0) as [E|E]; cbn [negb]; unfold wb, modify.
  - eexists. split; [reflexivity|]. split; [|done]. intros j. rewrite !bf_upd. unfold q_put. destruct (decide (i = j)) as [->|Hne].
    + rewrite !decide_True by done. fold b. unfold served. simpl. by rewrite served_flags, clear_dirty.
    + by rewrite !decide_False by done.
  - eexists. split; [reflexivity|]. split.
    + intros j. rewrite bf_upd. unfold q_put. destruct (decide (i = j)) as [->|Hne].
      * rewrite decide_True by done. change (bf (put_disk ?x ?y ?s) j) with (bf s j). rewrite bf_upd, decide_True by done. fold b. unfold served. simpl. by rewrite served_flags.
      * rewrite decide_False by done. change (bf (put_disk ?x ?y ?s) j) with (bf s j). by rewrite bf_upd, decide_False.
    + intros n. unfold disk_at. simpl. rewrite bf_upd, decide_True by done. fold b. case_bool_decide as En; [subst n; by rewrite lookup_insert_eq|by rewrite lookup_insert_ne].
Qed.

(** C29: The disk driver does what the memory disk does.  When no request is
    queued, [iderw] of a buffer of disk 1 and the interrupt that follows
    leave the same buffers and the same blocks as [iderw] of [memide.c] on a
    disk with the same contents, and the loop of [iderw] ends; so what is
    proved of the buffer cache and the log on the memory disk holds on the
    real one, as long as the disk reports no errors. *)
Theorem ide_agrees_with_memide s a i B :
  ide_sim s a → q_list a = [] → may_submit s a i → b_dev (q_buf a i) = 1 → (∀ d : D, failed d = false) →
  (∀ j, bf B j = q_buf a j) → me_pid B = me_pid (id_bs s) → me_tid B = me_tid (id_bs s) → disksize B = FSSIZE →
  (∀ n, 0 ≤ n < FSSIZE → disk_at B n = q_disk a 1 n) →
  ∃ B', Bio.iderw i B = Ok (tt, B') ∧
    wp (iderw_start i;; ideintr;; iderw_done i) (λ r s', r = true ∧ idequeue s' = None ∧
      (∀ j, bf (id_bs s') j = bf B' j) ∧ ∀ n, 0 ≤ n < FSSIZE → sectors (id_hw s') 1 n = disk_at B' n) s.
Proof using L.
  intros R Hq M Hd Hno Hbf Hp Ht Hz Hdk. pose proof (ms_req _ _ _ M) as [_ [Q1 Q2 Q3]].
  destruct (memide_run B i) as (B' & HB & Hb' & Hd'); rewrite ?Hbf, ?Hp, ?Ht, ?Hz; [apply M|apply M|done|lia|]. rewrite Hbf in Hb', Hd'.
  exists B'. split; [done|]. apply wp_bind. wcall (iderw_start_sim s a i R M). intros [] s1 (R1 & _ & _).
  apply wp_bind. wcall (ideintr_sim s1 _ R1). intros [] s2 (R2 & _ & _). unfold outcome in R2. rewrite Hno in R2. unfold q_intr, q_submit in R2. cbn [q_list q_buf q_disk] in R2. rewrite Hq in R2. cbn [app] in R2.
  assert (∃ b, (∀ j, bf (id_bs s2) j = q_put (q_buf a) i (served b) j) ∧ b = (if is_dirty (q_buf a i) then q_buf a i else set_b_data (q_disk a 1 (b_blockno (q_buf a i))) (q_buf a i)) ∧
    idequeue s2 = None ∧ ∀ n, sectors (id_hw s2) 1 n = if is_dirty (q_buf a i) && bool_decide (n = b_blockno (q_buf a i)) then b_data (q_buf a i) else q_disk a 1 n) as (b & Eb & -> & En & Es).
  { rewrite Hd in R2. destruct (is_dirty (q_buf a i)); destruct R2 as [S1 S2 _ _ S5]; (eexists; split_and!; [exact S1|done|exact S2|]); intros n; rewrite S5; simpl; [|done].
    unfold wr_sector. case_bool_decide; [by rewrite decide_True|by rewrite decide_False by tauto]. }
  apply wp_bind, wp_zoom, wp_gets, wp_ret. rewrite Eb. unfold q_put at 1. rewrite decide_True by done. split_and!.
  - apply Z.eqb_eq. destruct (is_dirty (q_buf a i)); apply valid_flags.
  - exact En.
  - intros j. rewrite Eb, Hb'. unfold q_put. case_decide; [|by rewrite Hbf]. destruct (is_dirty (q_buf a i)); [done|]. by rewrite Hdk.
  - intros n Hn. rewrite Es, Hd'. destruct (_ && _); [done|]. by rewrite Hdk.
Qed.
End driver.

(** ** A controller *)

(** One with the behaviour that is assumed: after a command it is busy for
    one status read, and commands do not fail. *)
Record ctl := mkCtl { c_sectors : gmap (Z * Z) block; c_regs : gmap Z Z; c_cmd : command; c_busy : bool }.
Definition c_reg (d : ctl) (p : Z) : Z := default 0 (c_regs d !! p).
Definition c_sector (d : ctl) (x y : Z) : block := default (replicate BSIZE 0) (c_sectors d !! (x, y)).

#[global] Instance ctl_ports : IdePorts ctl := {
  inb _ d := Ok (if c_busy d then IDE_BSY else IDE_DRDY, mkCtl (c_sectors d) (c_regs d) (c_cmd d) false);
  outb p v d :=
    if Z.eqb p 503 then
      let c := if Z.eqb v IDE_CMD_READ then Reading (drive_of (c_reg d)) (lba_of (c_reg d)) else Writing (drive_of (c_reg d)) (lba_of (c_reg d)) in
      Ok (tt, mkCtl (c_sectors d) (c_regs d) c true)
    else Ok (tt, mkCtl (c_sectors d) (<[p := v]> (c_regs d)) (c_cmd d) (c_busy d));
  outsl _ v d := Ok (tt, mkCtl (match c_cmd d with Writing x y => <[(x, y) := v]> (c_sectors d) | _ => c_sectors d end) (c_regs d) Idle (c_busy d));
  insl _ d := Ok (match c_cmd d with Reading x y => c_sector d x y | _ => [] end, mkCtl (c_sectors d) (c_regs d) Idle (c_busy d));
  ioapicenable _ _ := mret tt;
  polls := 2
}.

#[global] Instance ctl_laws : IdeLaws ctl.
Proof.
  refine {| sectors := c_sector; reg := c_reg; cmd := c_cmd; failed := λ _, false; busy := λ d, if c_busy d then 1%nat else 0%nat |}.
  - intros d. simpl. destruct (c_busy d); lia.
  - intros d. unfold wp. simpl. split_and!; try done; destruct (c_busy d); done.
  - intros d p v Hp Hb. unfold wp. simpl. rewrite (proj2 (Z.eqb_neq p 503)) by (intros ->; set_solver). split_and!; [done| |done].
    intros p'. unfold c_reg. simpl. case_decide as E; [subst; by rewrite lookup_insert_eq|by rewrite lookup_insert_ne].
  - intros d Hb H1. done.
  - intros d Hb H1. done.
  - intros d x y v Hc Hl. unfold wp. simpl. rewrite Hc. unfold c_sector. simpl. rewrite lookup_insert_eq. split_and!; [|done|done].
    intros a b Hab. rewrite lookup_insert_ne; [done|]. intros [= -> ->]. by apply Hab.
  - intros d x y Hc _ _. unfold wp. simpl. rewrite Hc. done.
Defined.

(** Two buffers: one to read block 7, one to write block 9. *)
Definition ide_bufs : gmap nat buf :=
  {[ 0%nat := mkBuf 0 1 7 (mkSleeplock 1 1 1) 1 (replicate BSIZE 0); 1%nat := mkBuf 4 1 9 (mkSleeplock 1 1 2) 1 (replicate BSIZE 5) ]}.
Definition ide_sectors : gmap (Z * Z) block := {[ (1, 7) := replicate BSIZE 3 ]}.
Definition ide_sample : ide ctl := mkIde (mkB ide_bufs ∅ ∅ FSSIZE [] 1 1) None ∅ 1 [] (mkCtl ide_sectors ∅ Idle false).
Definition ide_spec : iq := mkIq (c_sector (id_hw ide_sample)) (bf (id_bs ide_sample)) [].

Lemma ide_sample_sim : ide_sim ide_sample ide_spec.
Proof. split; try done. - apply NoDup_nil_2. - by intros i ?%elem_of_nil. Qed.

Lemma ide_sample_requests i : i = 0%nat ∨ i = 1%nat → (i < NBUF)%nat ∧ request (q_buf ide_spec i).
Proof. intros [-> | ->]; (split; [unfold NBUF; lia|split; [by vm_compute|by right|done]]). Qed.

Lemma ide_serves_queue_witness :
  let evs := [Submit 1 1 0; Submit 1 2 1; Interrupt; Interrupt] in
  wp (ide_run evs) (λ errs s', errs = [false; false] ∧ (∃ w a', q_run evs errs ide_spec w a' ∧ ide_sim s' a' ∧ id_wakes s' ++ q_list a' = [0; 1]%nat) ∧
    b_data (bf (id_bs s') 0) = replicate BSIZE 3) ide_sample.
Proof.
  intros evs. assert (legal (havedisk1 ide_sample) evs ide_spec) as Hl.
  { split; [|split; [|done]].
    + split; [done|done|by right|apply ide_sample_requests; by left|apply not_elem_of_nil].
    + split; [done|done|by right|apply ide_sample_requests; by right|by intros ?%list_elem_of_singleton]. }
  assert (match ide_run evs ide_sample with
    | Ok (errs, s') => errs = [false; false] ∧ b_data (bf (id_bs s') 0) = replicate BSIZE 3
    | Err _ => False end) as H by (vm_compute; split; reflexivity).
  pose proof (ide_serves_queue evs ide_sample ide_spec ide_sample_sim Hl) as T.
  assert (submitted evs = [0; 1]%nat) as Es by reflexivity. clearbody evs. unfold wp in *. revert H T.
  generalize (ide_run evs ide_sample). intros [[errs s']|e]; [|by intros []]. intros [H1 H2] (w & a' & Q & R & W & F).
  split; [exact H1|]. split; [|exact H2]. exists w, a'. split; [exact Q|]. split; [exact R|]. rewrite W. rewrite Es in F. exact F.
Defined.

Lemma ide_agrees_with_memide_witness :
  ∃ B', Bio.iderw 1 (mkB ide_bufs ∅ {[ 7 := replicate BSIZE 3 ]} FSSIZE [] 1 2) = Ok (tt, B') ∧
  wp (iderw_start 1;; ideintr;; iderw_done 1) (λ r s', r = true ∧ ∀ n, 0 ≤ n < FSSIZE → sectors (id_hw s') 1 n = disk_at B' n) (set_id_bs (become 1 2 (id_bs ide_sample)) ide_sample).
Proof.
  set (s := set_id_bs _ _). assert (ide_sim s ide_spec) as R by (split; try done; [apply NoDup_nil_2|by intros i ?%elem_of_nil]).
  assert (may_submit s ide_spec 1) as M by (split; [done|done|by right|apply ide_sample_requests; by right|apply not_elem_of_nil]).
  destruct (ide_agrees_with_memide s ide_spec 1 (mkB ide_bufs ∅ {[ 7 := replicate BSIZE 3 ]} FSSIZE [] 1 2) R eq_refl M eq_refl (λ _, eq_refl)) as (B' & HB & H); [intros j; unfold bf; cbn [bufs ide_spec q_buf id_bs ide_sample]; reflexivity|reflexivity..| |].
  { intros n Hn. unfold disk_at. simpl. unfold c_sector, ide_sectors. simpl. destruct (decide (n = 7)) as [->|]; [by rewrite !lookup_singleton_eq|]. rewrite !lookup_singleton_ne by congruence. done. }
  exists B'. split; [exact HB|]. eapply wp_mono; [exact H|]. intros r s' (? & _ & _ & ?). split; assumption.
Defined.

Close Scope Z_scope.
