(* ===== verification/Pipe.v ===== *)
(** * Pipes ([src/xv6-public/pipe.c])

    A pipe with its two byte counters, which are [uint]s and wrap around.
    [pipewrite] and [piperead] run under the pipe's lock from one sleep to
    the next, so a call is a sequence of rounds: a round ends with a result
    or goes to sleep, remembering how far it came.  [p_wakes] records the
    [wakeup] calls, oldest first. *)

From S2P Require Import Prelude.

Open Scope Z_scope.

Definition PIPESIZE : nat := 512.

(** The channels: [&p->nread] and [&p->nwrite]. *)
Inductive pchan := Cnread | Cnwrite.

Record pipe := mkPipe {
  p_data : list Z;
  p_nread : Z;
  p_nwrite : Z;
  p_readopen : Z;
  p_writeopen : Z;
  p_wakes : list pchan
}.

Definition set_p_data (v : list Z) (p : pipe) : pipe :=
  mkPipe v (p_nread p) (p_nwrite p) (p_readopen p) (p_writeopen p) (p_wakes p).
Definition set_p_nread (v : Z) (p : pipe) : pipe :=
  mkPipe (p_data p) v (p_nwrite p) (p_readopen p) (p_writeopen p) (p_wakes p).
Definition set_p_nwrite (v : Z) (p : pipe) : pipe :=
  mkPipe (p_data p) (p_nread p) v (p_readopen p) (p_writeopen p) (p_wakes p).
Definition set_p_readopen (v : Z) (p : pipe) : pipe :=
  mkPipe (p_data p) (p_nread p) (p_nwrite p) v (p_writeopen p) (p_wakes p).
Definition set_p_writeopen (v : Z) (p : pipe) : pipe :=
  mkPipe (p_data p) (p_nread p) (p_nwrite p) (p_readopen p) v (p_wakes p).
Definition add_wake (c : pchan) (p : pipe) : pipe :=
  mkPipe (p_data p) (p_nread p) (p_nwrite p) (p_readopen p) (p_writeopen p) (p_wakes p ++ [c]).

Abbreviation PM := (M pipe).

Definition pwakeup (c : pchan) : PM unit := modify (add_wake c).

(** How a round ends: with the return value, or asleep on a channel. *)
Inductive pround (A : Type) := PDone (a : A) | PSleep (c : pchan) (i : nat).
Arguments PDone {A} a.
Arguments PSleep {A} c i.

(** What [pipealloc] makes of a fresh page. *)
Definition pipe_init (page : list Z) : pipe := mkPipe page 0 0 1 1 [].

(** [true]: the pipe is freed. *)
Definition pipeclose (writable : bool) : PM bool :=
  (if writable then
     modify (set_p_writeopen 0);;
     pwakeup Cnread
   else
     modify (set_p_readopen 0);;
     pwakeup Cnwrite);;
  p ← gets id;
  mret (Z.eqb (p_readopen p) 0 && Z.eqb (p_writeopen p) 0).

(** [p->data[p->nwrite++ % PIPESIZE] = c]. *)
Definition put_byte (c : Z) : PM unit :=
  p ← gets id;
  modify (set_p_data (<[Z.to_nat (p_nwrite p mod Z.of_nat PIPESIZE) := c]> (p_data p)));;
  modify (set_p_nwrite (u32 (p_nwrite p + 1))).

(** A round of [pipewrite] from byte [i] on; [killed] is [myproc()->killed]. *)
Definition pipewrite (killed : bool) (addr : list Z) (i : nat) : PM (pround Z) :=
  loop (S (length addr - i)) (λ i,
    match addr !! i with
    | None =>
        pwakeup Cnread;;
        mret (inr (PDone (Z.of_nat (length addr))))
    | Some c =>
        p ← gets id;
        if Z.eqb (p_nwrite p) (u32 (p_nread p + Z.of_nat PIPESIZE)) then
          if Z.eqb (p_readopen p) 0 || killed then mret (inr (PDone (-1)))
          else
            pwakeup Cnread;;
            mret (inr (PSleep Cnwrite i))
        else
          put_byte c;;
          mret (inl (S i))
    end) i.

(** The copying loop of [piperead]: the bytes stored at [addr]. *)
Definition piperead_copy (n : nat) : PM (list Z) :=
  loop (S n) (λ '(i, dst),
    if (i <? n)%nat then
      p ← gets id;
      if Z.eqb (p_nread p) (p_nwrite p) then mret (inr dst)
      else
        let c := nth (Z.to_nat (p_nread p mod Z.of_nat PIPESIZE)) (p_data p) 0 in
        modify (set_p_nread (u32 (p_nread p + 1)));;
        mret (inl (S i, dst ++ [c]))
    else mret (inr dst)) (0%nat, []).

(** A round of [piperead]: the return value with the bytes read. *)
Definition piperead (killed : bool) (n : nat) : PM (pround (Z * list Z)) :=
  p ← gets id;
  if Z.eqb (p_nread p) (p_nwrite p) && negb (Z.eqb (p_writeopen p) 0) then
    if killed then mret (PDone (-1, []))
    else mret (PSleep Cnread 0)
  else
    dst ← piperead_copy n;
    pwakeup Cnwrite;;
    mret (PDone (Z.of_nat (length dst), dst)).

(** ** The bytes in the pipe *)

Record pipe_ok (p : pipe) : Prop := {
  po_len : (PIPESIZE ≤ length (p_data p))%nat;
  po_nread : is_u32 (p_nread p);
  po_nwrite : is_u32 (p_nwrite p);
  po_fill : u32 (p_nwrite p - p_nread p) ≤ Z.of_nat PIPESIZE
}.

Definition fill (p : pipe) : nat := Z.to_nat (u32 (p_nwrite p - p_nread p)).
Definition slot_of (z : Z) : nat := Z.to_nat (z mod 512).
(** The abstract pipe: a queue of bytes. *)
Definition pending (p : pipe) : list Z :=
  (λ k, nth (slot_of (p_nread p + Z.of_nat k)) (p_data p) 0) <$> seq 0 (fill p).

Lemma slot_u32 z : slot_of (u32 z) = slot_of z.
Proof. unfold slot_of, u32, two32. f_equal. change 4294967296 with (512 * 8388608). rewrite Z.rem_mul_r by lia.
  rewrite Z.mul_comm, Z.mod_add by lia. by rewrite Z.mod_mod by lia. Qed.

Lemma slot_lt z : (slot_of z < PIPESIZE)%nat.
Proof. unfold slot_of, PIPESIZE. pose proof (Z.mod_pos_bound z 512 ltac:(lia)). lia. Qed.

(** Full and empty as the code tests them. *)
Lemma full_iff p : pipe_ok p → p_nwrite p = u32 (p_nread p + 512) ↔ fill p = PIPESIZE.
Proof.
  intros [_ [R1 R2] [W1 W2] F]. unfold fill, PIPESIZE in *. unfold u32, two32 in *.
  split; intros Hx; zify; Z.to_euclidean_division_equations; lia.
Qed.

Lemma empty_iff p : pipe_ok p → p_nread p = p_nwrite p ↔ fill p = 0%nat.
Proof.
  intros [_ [R1 R2] [W1 W2] F]. unfold fill, PIPESIZE in *. unfold u32, two32 in *.
  split; intros Hx; zify; Z.to_euclidean_division_equations; lia.
Qed.

Lemma length_pending p : length (pending p) = fill p.
Proof. unfold pending. by rewrite length_fmap, length_seq. Qed.

Lemma nth_insert (l : list Z) i j v : (i < length l)%nat → nth j (<[i := v]> l) 0 = if decide (j = i) then v else nth j l 0.
Proof.
  intros Hi. rewrite !nth_lookup. case_decide; [subst; by rewrite list_lookup_insert_eq|by rewrite list_lookup_insert_ne].
Qed.

(** A slot that holds a pending byte is not the one that is written next. *)
Lemma slot_apart p k : pipe_ok p → (k < fill p < PIPESIZE)%nat → slot_of (p_nread p + Z.of_nat k) ≠ slot_of (p_nwrite p).
Proof.
  intros [_ [R1 R2] [W1 W2] F] Hk E. unfold slot_of in E.
  assert ((p_nread p + Z.of_nat k) mod 512 = p_nwrite p mod 512) as E'.
  { apply Z2Nat.inj in E; [done|apply Z.mod_pos_bound; lia..]. }
  clear E. unfold fill, PIPESIZE, u32, two32 in *. zify. Z.to_euclidean_division_equations. lia.
Qed.

Lemma put_byte_spec p c :
  pipe_ok p → (fill p < PIPESIZE)%nat →
  wp (put_byte c) (λ _ p', pipe_ok p' ∧ pending p' = pending p ++ [c] ∧ p_readopen p' = p_readopen p ∧
    p_writeopen p' = p_writeopen p ∧ p_wakes p' = p_wakes p) p.
Proof.
  intros O Hf. unfold put_byte. apply wp_bind, wp_gets, wp_bind, wp_modify, wp_modify. unfold id.
  change (Z.to_nat (p_nwrite p mod Z.of_nat PIPESIZE)) with (slot_of (p_nwrite p)).
  set (p' := set_p_nwrite _ _). pose proof O as [L [R1 R2] [W1 W2] F].
  assert (fill p' = S (fill p)) as Ef.
  { unfold fill, p', PIPESIZE, u32, two32 in *. simpl. zify. Z.to_euclidean_division_equations. lia. }
  split_and!; try done.
  - split; simpl.
    + by rewrite length_insert.
    + done.
    + apply u32_range.
    + fold (fill p'). assert (Z.of_nat (fill p') ≤ Z.of_nat PIPESIZE) as Hle by lia. unfold fill in Hle. simpl in Hle.
      rewrite Z2Nat.id in Hle by apply u32_range. exact Hle.
  - unfold pending. rewrite Ef, seq_S, fmap_app. cbn [p' set_p_nwrite set_p_data p_nread p_data]. f_equal.
    + apply list_fmap_ext. intros i k Hk. apply lookup_seq in Hk as [-> Hk]. simpl.
      rewrite nth_insert by (pose proof (slot_lt (p_nwrite p)); lia). rewrite decide_False; [done|]. apply slot_apart; [done|lia].
    + simpl. f_equal. rewrite nth_insert by (pose proof (slot_lt (p_nwrite p)); lia). rewrite decide_True; [done|].
      rewrite <-(slot_u32 (p_nread p + _)). f_equal. unfold fill, PIPESIZE, u32, two32 in *. zify. Z.to_euclidean_division_equations. lia.
Qed.

(** Taking the first byte out. *)
Lemma get_byte_spec p :
  pipe_ok p → (0 < fill p)%nat →
  let p' := set_p_nread (u32 (p_nread p + 1)) p in
  pipe_ok p' ∧ pending p = nth (slot_of (p_nread p)) (p_data p) 0 :: pending p'.
Proof.
  intros O Hf p'. pose proof O as [L [R1 R2] [W1 W2] F].
  assert (fill p = S (fill p')) as Ef.
  { unfold fill, p', PIPESIZE, u32, two32 in *. simpl. zify. Z.to_euclidean_division_equations. lia. }
  split.
  - split; simpl; [done|apply u32_range|done|]. assert (Z.of_nat (fill p') ≤ Z.of_nat PIPESIZE) as Hle.
    { assert (fill p ≤ PIPESIZE)%nat; [|lia]. unfold fill, PIPESIZE in *. lia. }
    unfold fill in Hle. simpl in Hle. rewrite Z2Nat.id in Hle by apply u32_range. exact Hle.
  - unfold pending. rewrite Ef. cbn [seq fmap list_fmap]. f_equal; [by rewrite Z.add_0_r|].
    replace (seq 1 (fill p')) with (S <$> seq 0 (fill p')) by apply fmap_S_seq. rewrite <-list_fmap_compose.
    apply list_fmap_ext. intros i k _. cbn [compose p' set_p_nread p_nread p_data].
    rewrite <-(slot_u32 (u32 _ + _)), <-(slot_u32 (p_nread p + _)). f_equal. f_equal.
    unfold u32. rewrite Zplus_mod_idemp_l. f_equal. lia.
Qed.

(** ** Rounds *)

Lemma pipewrite_spec p killed addr i :
  pipe_ok p → (i ≤ length addr)%nat →
  wp (pipewrite killed addr i) (λ r p', pipe_ok p' ∧ p_readopen p' = p_readopen p ∧ p_writeopen p' = p_writeopen p ∧
    ∃ k, (i ≤ k ≤ length addr)%nat ∧ pending p' = pending p ++ take (k - i) (drop i addr) ∧
    match r with
    | PDone r => r = Z.of_nat (length addr) ∧ k = length addr ∧ p_wakes p' = p_wakes p ++ [Cnread] ∨
        r = -1 ∧ fill p' = PIPESIZE ∧ (p_readopen p = 0 ∨ killed = true)
    | PSleep c j => c = Cnwrite ∧ j = k ∧ (k < length addr)%nat ∧ fill p' = PIPESIZE ∧ p_readopen p ≠ 0 ∧
        p_wakes p' = p_wakes p ++ [Cnread]
    end) p.
Proof.
  intros O Hi. unfold pipewrite.
  apply (wp_loop (λ c k p', (i ≤ k ≤ length addr)%nat ∧ c = (length addr - k)%nat ∧ pipe_ok p' ∧ p_readopen p' = p_readopen p ∧
    p_writeopen p' = p_writeopen p ∧ p_wakes p' = p_wakes p ∧ pending p' = pending p ++ take (k - i) (drop i addr)))
    with (n := (length addr - i)%nat); [|lia|].
  - intros c k p1 (Hk & -> & O1 & E1 & E2 & E3 & E4). destruct (addr !! k) as [x|] eqn:Hx.
    + pose proof (lookup_lt_Some _ _ _ Hx) as Hlt. apply wp_bind, wp_gets. unfold id.
      destruct (Z.eqb_spec (p_nwrite p1) (u32 (p_nread p1 + Z.of_nat PIPESIZE))) as [Hfull|Hnf].
      * apply full_iff in Hfull; [|done]. destruct (Z.eqb_spec (p_readopen p1) 0) as [Ho|Ho]; cbn [orb].
        { apply wp_ret. split_and!; [done..|]. exists k. split_and!; [lia..|done|]. right. rewrite <-E1. tauto. }
        destruct killed; [apply wp_ret|apply wp_bind, wp_modify, wp_ret].
        { split_and!; [done..|]. exists k. split_and!; [lia..|done|]. right. tauto. }
        split; [by destruct O1|]. split_and!; [done..|]. exists k. split_and!; try done; try lia; try congruence. simpl. by rewrite E3.
      * apply wp_bind. wcall (put_byte_spec p1 x O1).
        { destruct (decide (fill p1 = PIPESIZE)) as [E|E]; [apply full_iff in E; done|].
          destruct O1 as [_ _ _ F]. unfold fill, PIPESIZE in *. lia. }
        intros [] p2 (O2 & P2 & R2 & W2 & K2). apply wp_ret. exists (length addr - S k)%nat. split; [lia|].
        split_and!; try done; try lia; try congruence. rewrite P2, E4, <-app_assoc. f_equal.
        replace (S k - i)%nat with (S (k - i)) by lia. erewrite take_S_r; [done|]. rewrite lookup_drop. by replace (i + (k - i))%nat with k by lia.
    + apply lookup_ge_None in Hx. apply wp_bind, wp_modify, wp_ret. split; [by destruct O1|]. split_and!; [done..|].
      exists k. split_and!; [lia..|done|]. left. split_and!; [done|lia|]. simpl. by rewrite E3.
  - rewrite Nat.sub_diag. split_and!; try done. simpl. by rewrite app_nil_r.
Qed.

Lemma piperead_copy_spec p n :
  pipe_ok p →
  wp (piperead_copy n) (λ dst p', pipe_ok p' ∧ pending p = dst ++ pending p' ∧ (length dst ≤ n)%nat ∧
    (length dst = n ∨ pending p' = []) ∧ p_readopen p' = p_readopen p ∧ p_writeopen p' = p_writeopen p ∧ p_wakes p' = p_wakes p) p.
Proof.
  intros O. unfold piperead_copy.
  apply (wp_loop (λ c '(i, dst) p', (i ≤ n)%nat ∧ c = (n - i)%nat ∧ length dst = i ∧ pipe_ok p' ∧ pending p = dst ++ pending p' ∧
    p_readopen p' = p_readopen p ∧ p_writeopen p' = p_writeopen p ∧ p_wakes p' = p_wakes p)) with (n := n); [|lia|].
  - intros c [i dst] p1 (Hi & -> & Hl & O1 & E1 & E2 & E3 & E4). destruct (Nat.ltb_spec i n).
    + apply wp_bind, wp_gets. unfold id. destruct (Z.eqb_spec (p_nread p1) (p_nwrite p1)) as [Em|Hne].
      * apply empty_iff in Em; [|done]. apply wp_ret. split_and!; try done; [lia|]. right.
        apply nil_length_inv. by rewrite length_pending.
      * apply wp_bind, wp_modify, wp_ret. destruct (get_byte_spec p1 O1) as [O2 P2].
        { destruct (decide (fill p1 = 0)%nat) as [E|]; [apply empty_iff in E; done|lia]. }
        exists (n - S i)%nat. split; [lia|]. split_and!; try done; try lia.
        -- rewrite length_app. simpl. lia.
        -- rewrite E1, P2, <-app_assoc. done.
    + apply wp_ret. split_and!; try done; [lia|left; lia].
  - split_and!; try done; lia.
Qed.

Lemma piperead_spec p killed n :
  pipe_ok p →
  wp (piperead killed n) (λ r p', pipe_ok p' ∧ p_readopen p' = p_readopen p ∧ p_writeopen p' = p_writeopen p ∧
    match r with
    | PDone (r, dst) => (r = -1 ∧ dst = [] ∧ killed = true ∧ p' = p) ∨
        (r = Z.of_nat (length dst) ∧ pending p = dst ++ pending p' ∧ (length dst ≤ n)%nat ∧
         (length dst = n ∨ pending p' = []) ∧ p_wakes p' = p_wakes p ++ [Cnwrite])
    | PSleep c _ => c = Cnread ∧ p' = p ∧ pending p = [] ∧ p_writeopen p ≠ 0
    end) p.
Proof.
  intros O. unfold piperead. apply wp_bind, wp_gets. unfold id.
  destruct (Z.eqb_spec (p_nread p) (p_nwrite p)) as [Em|Hne]; destruct (Z.eqb_spec (p_writeopen p) 0) as [Ho|Ho]; cbn [andb negb].
  2: { destruct killed; apply wp_ret; split_and!; try done; [by left|]. apply empty_iff in Em; [|done].
       apply nil_length_inv. by rewrite length_pending. }
  all: apply wp_bind; wcall (piperead_copy_spec p n O); intros dst p1 (O1 & E1 & H1 & H2 & R1 & W1 & K1).
  all: apply wp_bind, wp_modify, wp_ret; split; [by destruct O1|]; split_and!; try done.
  all: right; split_and!; try done; simpl; by rewrite K1.
Qed.

(** ** Runs

    Any number of readers and writers, each call cut into rounds, in any
    order; [sent] are the bytes accepted and [recv] the bytes handed out. *)
Inductive pipe_run (page : list Z) : pipe → list Z → list Z → Prop :=
| run_start : pipe_run page (pipe_init page) [] []
| run_write p sent recv killed addr i r p' :
    pipe_run page p sent recv → (i ≤ length addr)%nat → pipewrite killed addr i p = Ok (r, p') →
    pipe_run page p' (sent ++ take (fill p' - fill p) (drop i addr)) recv
| run_read p sent recv killed n r dst p' :
    pipe_run page p sent recv → piperead killed n p = Ok (PDone (r, dst), p') →
    pipe_run page p' sent (recv ++ dst)
| run_close p sent recv w r p' :
    pipe_run page p sent recv → pipeclose w p = Ok (r, p') → pipe_run page p' sent recv.

(** C20: a pipe is a queue of bytes.  However the rounds of concurrent
    [pipewrite] and [piperead] calls are interleaved, and although the byte
    counters wrap around, the bytes read so far followed by the bytes in the
    pipe are the bytes written so far, in order, and at most [PIPESIZE] of
    them are in the pipe. *)
Theorem pipe_is_fifo page p sent recv :
  (PIPESIZE ≤ length page)%nat → pipe_run page p sent recv →
  sent = recv ++ pending p ∧ (length (pending p) ≤ PIPESIZE)%nat.
Proof.
  intros Hpage Hrun. enough (pipe_ok p ∧ sent = recv ++ pending p) as [O ->].
  { split; [done|]. rewrite length_pending. destruct O as [_ _ _ F]. unfold fill, PIPESIZE in *. lia. }
  induction Hrun as [|p sent recv killed addr i r p' _ [O ->] Hi Hw|p sent recv killed n r dst p' _ [O ->] Hr|p sent recv w r p' _ [O ->] Hc].
  - split; [|done]. split; simpl; try done; unfold is_u32, two32; lia.
  - pose proof (pipewrite_spec p killed addr i O Hi) as Hs. unfold wp in Hs. rewrite Hw in Hs.
    destruct Hs as (O' & _ & _ & k & Hk & Hp & _). split; [done|]. rewrite Hp, <-app_assoc. do 2 f_equal. f_equal.
    rewrite <-!length_pending, Hp, length_app, length_take, length_drop. lia.
  - pose proof (piperead_spec p killed n O) as Hs. unfold wp in Hs. rewrite Hr in Hs.
    destruct Hs as (O' & _ & _ & [(_ & -> & _ & ->)|(_ & -> & _)]); (split; [done|]); [by rewrite app_nil_r|by rewrite <-app_assoc].
  - destruct w; injection Hc as <- <-; (split; [by destruct O|done]).
Qed.

(** A run whose counters are about to wrap is reached by enough traffic; a
    short run: two writes and a read. *)
Lemma pipe_is_fifo_witness :
  ∃ p recv, pipe_run (replicate 4096 1) p [10; 11; 12] recv ∧ recv = [10; 11] ∧ [10; 11; 12] = recv ++ pending p.
Proof.
  pose (page := replicate 4096 1).
  destruct (pipewrite false [10; 11; 12] 0 (pipe_init page)) as [[r1 p1]|] eqn:E1; [|vm_compute in E1; done].
  destruct (piperead false 2 p1) as [[[[r2 dst]|c j] p2]|] eqn:E2.
  - assert (pipe_run page p2 [10; 11; 12] dst) as Hrun.
    { apply (run_read page p1 [10; 11; 12] [] false 2 r2 dst p2); [|exact E2].
      pose proof (run_write page _ [] [] false [10; 11; 12] 0 r1 p1 (run_start page) ltac:(simpl; lia) E1) as Hw.
      assert (fill p1 - fill (pipe_init page) = 3)%nat as E3; [|by rewrite E3 in Hw].
      clear -E1. vm_compute in E1. injection E1 as <- <-. vm_compute. reflexivity. }
    exists p2, dst. split; [exact Hrun|]. split.
    + clear -E1 E2. vm_compute in E1. injection E1 as <- <-. vm_compute in E2. by injection E2 as <- <- <-.
    + apply (pipe_is_fifo page p2 [10; 11; 12] dst); [|exact Hrun]. unfold page, PIPESIZE. rewrite length_replicate. lia.
  - exfalso. clear -E1 E2. vm_compute in E1. injection E1 as <- <-. vm_compute in E2. done.
  - exfalso. clear -E1 E2. vm_compute in E1. injection E1 as <- <-. vm_compute in E2. done.
Defined.

Close Scope Z_scope.
