(* ===== verification/Kalloc.v ===== *)
(** * Physical pages ([src/xv6-public/kalloc.c])

    Kernel memory as a map from page addresses to the 4096 bytes of the
    page, and the free list that runs through the first word of the free
    pages.  The sections under [kmem.lock] are single steps. *)

From S2P Require Import Prelude.
From S2P Require Import Words.

Open Scope Z_scope.

(** [mmu.h], [memlayout.h]. *)
Definition PGSIZE : Z := 4096.
Definition KERNBASE : Z := 2147483648.
Definition PHYSTOP : Z := 234881024.
Definition V2P (a : Z) : Z := u32 (a - KERNBASE).
Definition P2V (a : Z) : Z := u32 (a + KERNBASE).
Definition PGROUNDUP (sz : Z) : Z := Z.land (u32 (sz + PGSIZE - 1)) (Z.lnot (PGSIZE - 1)).
Definition PGROUNDDOWN (a : Z) : Z := Z.land a (Z.lnot (PGSIZE - 1)).

Abbreviation page := (list Z).

Record kmem := mkKmem {
  k_use_lock : Z;
  k_freelist : Z;            (* 0 is the null pointer *)
  k_pages : gmap Z page
}.

Definition set_use_lock (v : Z) (k : kmem) : kmem := mkKmem v (k_freelist k) (k_pages k).
Definition set_freelist (v : Z) (k : kmem) : kmem := mkKmem (k_use_lock k) v (k_pages k).
Definition set_page (a : Z) (v : page) (k : kmem) : kmem := mkKmem (k_use_lock k) (k_freelist k) (<[a := v]> (k_pages k)).

Abbreviation AM := (M kmem).

(** A page of memory that exists. *)
Definition ld_page (a : Z) : AM page :=
  k ← gets id;
  match k_pages k !! a with Some v => mret v | None => fail WildPtr end.
Definition st_page (a : Z) (v : page) : AM unit :=
  ld_page a;;
  modify (set_page a v).

(** [memset(v, c, PGSIZE)]. *)
Definition fill_page (c : Z) : page := replicate (Z.to_nat PGSIZE) c.

Section kalloc.
(** The first address after the kernel, a symbol of the linker script. *)
Context (kend : Z).

Definition kfree (v : Z) : AM unit :=
  if negb (Z.eqb (v mod PGSIZE) 0) || Z.ltb v kend || Z.leb PHYSTOP (V2P v) then panic "kfree"
  else
    st_page v (fill_page 1);;
    next ← gets k_freelist;
    d ← ld_page v;
    st_page v (st32 d 0 next);;
    modify (set_freelist v).

Definition kalloc : AM Z :=
  r ← gets k_freelist;
  (if negb (Z.eqb r 0) then
     d ← ld_page r;
     modify (set_freelist (ld32 d 0))
   else mret tt);;
  mret r.

Definition freerange (vstart vend : Z) : AM unit :=
  loop (Z.to_nat ((vend - vstart) / PGSIZE) + 2) (λ p,
    if Z.leb (p + PGSIZE) vend then kfree p;; mret (inl (p + PGSIZE)) else mret (inr tt)) (PGROUNDUP vstart).

Definition kinit1 (vstart vend : Z) : AM unit :=
  modify (set_use_lock 0);;
  freerange vstart vend.

Definition kinit2 (vstart vend : Z) : AM unit :=
  freerange vstart vend;;
  modify (set_use_lock 1).

(** ** The free list *)

(** A page that [kfree] accepts. *)
Record good_page (a : Z) : Prop := {
  gp_align : a mod PGSIZE = 0;
  gp_low : kend ≤ a;
  gp_high : KERNBASE ≤ a < KERNBASE + PHYSTOP
}.

Fixpoint chain (pg : gmap Z page) (r : Z) (l : list Z) : Prop :=
  match l with
  | [] => r = 0
  | a :: l => r = a ∧ ∃ d, pg !! a = Some d ∧ length d = 4096%nat ∧ chain pg (ld32 d 0) l
  end.

Record kinv (k : kmem) (free : list Z) : Prop := {
  ki_chain : chain (k_pages k) (k_freelist k) free;
  ki_nodup : NoDup free;
  ki_good : ∀ a, a ∈ free → good_page a
}.

Lemma good_u32 a : good_page a → is_u32 a ∧ a ≠ 0.
Proof using Type. intros [_ _ H]. unfold KERNBASE, PHYSTOP, is_u32, two32 in *. lia. Qed.

Lemma chain_insert pg r l a v : chain pg r l → a ∉ l → chain (<[a := v]> pg) r l.
Proof using Type.
  revert r. induction l as [|b l IH]; intros r Hc Ha; simpl in *; [done|].
  apply not_elem_of_cons in Ha as [Hab Ha]. destruct Hc as (-> & d & Hd & Hl & Hc). split; [done|].
  exists d. split_and!; [by rewrite lookup_insert_ne|done|by apply IH].
Qed.

Lemma kfree_spec k free a :
  kinv k free → good_page a → a ∉ free → is_Some (k_pages k !! a) →
  wp (kfree a) (λ _ k', kinv k' (a :: free) ∧ (∀ b, b ≠ a → k_pages k' !! b = k_pages k !! b) ∧ dom (k_pages k') = dom (k_pages k) ∧
    k_use_lock k' = k_use_lock k) k.
Proof using Type.
  intros [C N G] Ha Hnot [d0 Hd0]. pose proof (good_u32 a Ha) as [Hu Hnz]. destruct Ha as [A1 A2 A3].
  unfold kfree. rewrite A1. simpl. destruct (Z.ltb_spec a kend); [lia|]. cbn [orb].
  assert (V2P a = a - KERNBASE) as -> by (apply u32_small; unfold is_u32, two32, KERNBASE, PHYSTOP in *; lia).
  destruct (Z.leb_spec PHYSTOP (a - KERNBASE)); [lia|].
  unfold st_page, ld_page. apply wp_bind, wp_bind, wp_bind, wp_gets. unfold id. rewrite Hd0. apply wp_ret, wp_modify.
  apply wp_bind, wp_gets. apply wp_bind, wp_bind, wp_gets. cbn [k_pages set_page k_freelist]. rewrite lookup_insert_eq. apply wp_ret.
  apply wp_bind, wp_bind, wp_bind, wp_gets. cbn [k_pages set_page]. rewrite lookup_insert_eq. apply wp_ret, wp_modify, wp_modify.
  split_and!.
  - split; cbn [k_pages set_page set_freelist k_freelist].
    + split; [done|]. eexists. split; [by rewrite lookup_insert_eq|]. split; [by rewrite length_st32|].
      assert (is_u32 (k_freelist k)) as Hr.
      { destruct free as [|b l]; simpl in C; [rewrite C; unfold is_u32, two32; lia|]. destruct C as [-> _]. apply good_u32, G. left. }
      rewrite ld32_st32_eq by (unfold fill_page; rewrite length_replicate; unfold PGSIZE; lia).
      rewrite (Z.mod_small (k_freelist k) two32) by exact Hr. rewrite insert_insert_eq. by apply chain_insert.
    + constructor; done.
    + intros b [->|Hb]%elem_of_cons; [by split|by apply G].
  - intros b Hb. simpl. by rewrite !lookup_insert_ne.
  - simpl. rewrite !dom_insert_L. apply elem_of_dom_2 in Hd0. set_solver.
  - done.
Qed.

Lemma kalloc_spec k free :
  kinv k free →
  wp kalloc (λ r k', match free with
    | [] => r = 0 ∧ k' = k
    | a :: l => r = a ∧ kinv k' l ∧ k_pages k' = k_pages k
    end) k.
Proof using Type.
  intros [C N G]. unfold kalloc. apply wp_bind, wp_gets. destruct free as [|a l]; simpl in C.
  - rewrite C. apply wp_bind, wp_ret, wp_ret. done.
  - destruct C as (-> & d & Hd & Hl & C). destruct (good_u32 a (G a ltac:(left))) as [_ Hnz].
    rewrite (proj2 (Z.eqb_neq _ _)) by done. cbn [negb]. apply wp_bind, wp_bind. unfold ld_page. apply wp_bind, wp_gets. unfold id. rewrite Hd.
    apply wp_ret, wp_modify, wp_ret. split; [done|]. split; [|done]. apply NoDup_cons in N as [_ N]. split; try done. intros b Hb. apply G. by right.
Qed.

(** *** [freerange] *)

(** The page addresses from [p] up to [vend]. *)
Definition pages_from (p vend : Z) : list Z := (λ k, p + PGSIZE * Z.of_nat k) <$> seq 0 (Z.to_nat ((vend - p) / PGSIZE)).

Lemma pages_from_stop p vend : vend < p + PGSIZE → pages_from p vend = [].
Proof using Type.
  intros H. unfold pages_from. replace (Z.to_nat ((vend - p) / PGSIZE)) with 0%nat; [done|].
  unfold PGSIZE in *. zify. Z.to_euclidean_division_equations. lia.
Qed.

Lemma pages_from_step p vend : p + PGSIZE ≤ vend → pages_from p vend = p :: pages_from (p + PGSIZE) vend.
Proof using Type.
  intros H. unfold pages_from. replace (Z.to_nat ((vend - p) / PGSIZE)) with (S (Z.to_nat ((vend - (p + PGSIZE)) / PGSIZE))).
  - cbn [seq fmap list_fmap]. f_equal; [lia|]. rewrite <-fmap_S_seq, <-list_fmap_compose. apply list_fmap_ext. intros i k _.
    cbn [compose]. lia.
  - unfold PGSIZE in *. zify. Z.to_euclidean_division_equations. lia.
Qed.

Lemma elem_pages_from p vend a : a ∈ pages_from p vend → p ≤ a ∧ a + PGSIZE ≤ vend ∧ (a - p) mod PGSIZE = 0.
Proof using Type.
  intros (k & -> & Hk%elem_of_seq)%list_elem_of_fmap. split_and!; [unfold PGSIZE; lia| |].
  - unfold PGSIZE in *. zify. Z.to_euclidean_division_equations. lia.
  - replace (p + PGSIZE * Z.of_nat k - p) with (Z.of_nat k * PGSIZE) by lia. apply Z.mod_mul. unfold PGSIZE. lia.
Qed.

Lemma freerange_spec vstart vend k free :
  kinv k free → 0 ≤ vstart → vstart + PGSIZE ≤ two32 →
  (∀ a, a ∈ pages_from (PGROUNDUP vstart) vend → good_page a ∧ a ∉ free ∧ is_Some (k_pages k !! a)) →
  vstart ≤ PGROUNDUP vstart →
  wp (freerange vstart vend) (λ _ k', kinv k' (reverse (pages_from (PGROUNDUP vstart) vend) ++ free)) k.
Proof using Type.
  intros I H0 H1 Hok Hup. unfold freerange. set (p0 := PGROUNDUP vstart) in *.
  apply (wp_loop (λ n p k', ∃ done, n = length (pages_from p vend) ∧ pages_from p0 vend = done ++ pages_from p vend ∧
    kinv k' (reverse done ++ free) ∧ dom (k_pages k') = dom (k_pages k))) with (n := length (pages_from p0 vend)).
  - intros n p k1 (dn & -> & E & I1 & Hdom). destruct (Z.leb_spec (p + PGSIZE) vend) as [Hle|Hgt].
    + assert (NoDup (pages_from p0 vend)) as Hnd.
      { unfold pages_from. apply NoDup_fmap_2_strong, NoDup_seq. intros x y _ _ E'. unfold PGSIZE in E'. lia. }
      rewrite (pages_from_step p) in * by done. apply wp_bind.
      assert (p ∈ pages_from p0 vend) as Hp by (rewrite E; set_solver). destruct (Hok p Hp) as (Hg & Hf & Hs).
      wcall (kfree_spec k1 _ p I1 Hg).
      * rewrite E in Hnd. apply NoDup_app in Hnd as (_ & Hd & _). intros [Hin|Hin]%elem_of_app; [|done].
        rewrite elem_of_reverse in Hin. apply (Hd p Hin). left.
      * rewrite <-elem_of_dom, Hdom. by rewrite elem_of_dom.
      * intros [] k2 (I2 & _ & Hdom2 & _). apply wp_ret. eexists. split; [|exists (dn ++ [p]); split_and!; [done| | |]].
        -- simpl. lia.
        -- by rewrite <-app_assoc.
        -- by rewrite reverse_snoc.
        -- by rewrite Hdom2.
    + apply wp_ret. rewrite (pages_from_stop p) in E by lia. rewrite app_nil_r in E. by rewrite E.
  - unfold pages_from. rewrite length_fmap, length_seq. unfold PGSIZE in *. zify. Z.to_euclidean_division_equations. lia.
  - exists []. done.
Qed.

(** ** Clients

    Calls of [kalloc] and [kfree] in any order, by clients that free only
    pages they were given and write only to those. *)
Inductive krun (k0 : kmem) : kmem → list Z → Prop :=
| kr_start : krun k0 k0 []
| kr_alloc k owned r k' : krun k0 k owned → kalloc k = Ok (r, k') → krun k0 k' (if Z.eqb r 0 then owned else r :: owned)
| kr_free k l1 a l2 k' : krun k0 k (l1 ++ a :: l2) → kfree a k = Ok (tt, k') → krun k0 k' (l1 ++ l2)
| kr_write k owned a d k' : krun k0 k owned → a ∈ owned → length d = Z.to_nat PGSIZE → st_page a d k = Ok (tt, k') → krun k0 k' owned.

(** C19: the page allocator neither loses nor shares pages.  From a free
    list of distinct pages, whatever sequence of [kalloc] and [kfree] calls
    the clients make and whatever they write to their pages, the pages they
    own and the pages on the free list together are exactly the initial
    pages, each once; in particular no two [kalloc]s return the same page
    unless it was freed in between, and [kalloc] fails only when every page
    is in use. *)
Theorem kalloc_conserves_pages k0 free0 k owned :
  kinv k0 free0 → krun k0 k owned →
  ∃ free, kinv k free ∧ owned ++ free ≡ₚ free0 ∧ NoDup owned ∧
    wp kalloc (λ r _, r = 0 ↔ free = []) k.
Proof using Type.
  intros I0 Hrun.
  assert (∃ free, kinv k free ∧ owned ++ free ≡ₚ free0 ∧ ∀ a, a ∈ owned → is_Some (k_pages k !! a)) as (free & I & P & _).
  { induction Hrun as [|k owned r k' Hrun (free & I & P & X) Hk|k l1 a l2 k' Hrun (free & I & P & X) Hk|k owned a d k' Hrun (free & I & P & X) Ha Hd Hk].
    - exists free0. split_and!; [done|done|by intros a ?%elem_of_nil].
    - pose proof (kalloc_spec k free I) as Hs. unfold wp in Hs. rewrite Hk in Hs. destruct free as [|a l].
      + destruct Hs as [-> ->]. by exists [].
      + destruct Hs as (-> & I' & Hp). destruct (good_u32 a (ki_good _ _ I a ltac:(left))) as [_ Hnz].
        rewrite (proj2 (Z.eqb_neq _ _)) by done. exists l. split_and!; [done| |].
        * rewrite <-P. simpl. by rewrite Permutation_middle.
        * intros b [->|Hb]%elem_of_cons; rewrite Hp; [|by apply X]. pose proof (ki_chain _ _ I) as (_ & d & -> & _). done.
    - assert (a ∈ free0) as Ha by (rewrite <-P; set_solver).
      assert (NoDup ((l1 ++ a :: l2) ++ free)) as Hnd by (rewrite P; apply I0).
      assert (a ∉ free) as Hf by (intros Hf; apply NoDup_app in Hnd as (_ & Hd & _); apply (Hd a); [set_solver|done]).
      pose proof (kfree_spec k free a I (ki_good _ _ I0 a Ha) Hf (X a ltac:(set_solver))) as Hs. unfold wp in Hs. rewrite Hk in Hs.
      destruct Hs as (I' & Hp & Hdom & _). exists (a :: free). split_and!; [done| |].
      + rewrite <-P, <-!app_assoc. simpl. by rewrite (Permutation_middle l2 free a).
      + intros b Hb. rewrite <-elem_of_dom, Hdom, elem_of_dom. apply X. set_solver.
    - assert (NoDup (owned ++ free)) as Hnd by (rewrite P; apply I0). apply NoDup_app in Hnd as (_ & Hdis & _).
      unfold st_page in Hk. destruct (X a Ha) as [d0 Hd0].
      assert (ld_page a k = Ok (d0, k)) as El.
      { unfold ld_page. rewrite (bind_ok _ _ k k k) by done. unfold id. by rewrite Hd0. }
      rewrite (bind_ok _ _ _ _ _ El) in Hk. injection Hk as <-.
      exists free. destruct I as [C N G]. split_and!; [split; try done|done|].
      + simpl. apply chain_insert; [done|]. by apply Hdis.
      + intros b Hb. simpl. rewrite lookup_insert_is_Some. destruct (decide (a = b)); [by left|right]. split; [done|by apply X]. }
  exists free. split_and!; [done|done| |].
  - assert (NoDup (owned ++ free)) as Hnd by (rewrite P; apply I0). by apply NoDup_app in Hnd as [? _].
  - wcall (kalloc_spec k free I). intros r k'. destruct free as [|a l]; [by intros [-> _]|]. intros (-> & _).
    destruct (good_u32 a (ki_good _ _ I a ltac:(left))). split; intros; done.
Qed.
End kalloc.

(** ** Three pages *)

Definition three_pages : kmem :=
  mkKmem 0 0 (<[2151677952 := fill_page 0]> (<[2151682048 := fill_page 0]> {[2151686144 := fill_page 0]})).

Lemma kalloc_conserves_pages_witness :
  ∃ k0 k, kinit1 2151677952 2151677952 2151690240 three_pages = Ok (tt, k0) ∧ krun 2151677952 k0 k [2151686144] ∧
  ∃ free, [2151686144] ++ free ≡ₚ [2151686144; 2151682048; 2151677952].
Proof.
  set (g := 2151677952).
  assert (kinv g three_pages []) as I by (split; [done|constructor|by intros a ?%elem_of_nil]).
  assert (wp (kinit1 g g 2151690240) (λ _ k', kinv g k' [2151686144; 2151682048; 2151677952]) three_pages) as Hw.
  { unfold kinit1. apply wp_bind, wp_modify.
    eapply wp_mono; [apply (freerange_spec g g 2151690240 _ []); [done|unfold g; lia|unfold g, PGSIZE, two32; lia| |unfold g; vm_compute; done]|].
    - intros a Ha. assert (a ∈ [2151677952; 2151682048; 2151686144]) as Ha' by exact Ha.
      rewrite !elem_of_cons, elem_of_nil in Ha'. split_and!; [|by intros ?%elem_of_nil|].
      + destruct Ha' as [->|[->|[->|[]]]]; (split; [done|unfold g; lia|unfold KERNBASE, PHYSTOP; lia]).
      + destruct Ha' as [->|[->|[->|[]]]]; by eexists.
    - intros [] k' Hk'. exact Hk'. }
  unfold wp in Hw. destruct (kinit1 g g 2151690240 three_pages) as [[[] k0]|] eqn:E0; [|done].
  pose proof (kalloc_spec g k0 _ Hw) as Ha. unfold wp in Ha. destruct (kalloc k0) as [[r k1]|] eqn:E1; [|done].
  destruct Ha as (-> & I1 & _).
  assert (krun g k0 k1 [2151686144]) as Hrun by exact (kr_alloc g k0 k0 [] _ k1 (kr_start g k0) E1).
  exists k0, k1. split; [done|]. split; [exact Hrun|].
  destruct (kalloc_conserves_pages g k0 _ k1 [2151686144] Hw Hrun) as (free & _ & P & _). by exists free.
Defined.

Close Scope Z_scope.
