(* ===== verification/Vm.v ===== *)
(** * Page tables ([src/xv6-public/vm.c])

    Two-level page tables in the memory of [Kalloc]: a directory page of
    1024 entries, each of which may point to a page of 1024 page table
    entries.  Pointers to entries are kernel addresses; 0 is null. *)

From S2P Require Import Prelude.
From S2P Require Import Words.
From S2P Require Import Kalloc.

Open Scope Z_scope.

(** [mmu.h], [memlayout.h], [param.h]. *)
Definition PTE_P : Z := 1.
Definition PTE_W : Z := 2.
Definition PTE_U : Z := 4.
Definition NPDENTRIES : nat := 1024.
Definition PDX (va : Z) : Z := Z.land (Z.shiftr va 22) 1023.
Definition PTX (va : Z) : Z := Z.land (Z.shiftr va 12) 1023.
Definition PGADDR (d t o : Z) : Z := u32 (Z.lor (Z.lor (Z.shiftl d 22) (Z.shiftl t 12)) o).
Definition PTE_ADDR (pte : Z) : Z := Z.land pte (Z.lnot 4095).
Definition PTE_FLAGS (pte : Z) : Z := Z.land pte 4095.
Definition EXTMEM : Z := 1048576.
Definition DEVSPACE : Z := 4261412864.
Definition KERNLINK : Z := KERNBASE + EXTMEM.
Definition USTACKSIZE : Z := 4096.

(** Words of a page. *)
Definition ld_word (a : Z) : AM Z :=
  d ← ld_page (PGROUNDDOWN a);
  mret (ld32 d (Z.to_nat (a mod PGSIZE))).
Definition st_word (a v : Z) : AM unit :=
  d ← ld_page (PGROUNDDOWN a);
  st_page (PGROUNDDOWN a) (st32 d (Z.to_nat (a mod PGSIZE)) v).

Definition present (e : Z) : bool := negb (Z.eqb (Z.land e PTE_P) 0).

Section vm.
(** Symbols of the linker script: the end of the kernel and its data. *)
Context (kend kdata : Z).

Definition walkpgdir (pgdir va : Z) (alloc : bool) : AM Z :=
  let pde := pgdir + 4 * PDX va in
  e ← ld_word pde;
  if present e then mret (P2V (PTE_ADDR e) + 4 * PTX va)
  else if negb alloc then mret 0
  else
    pgtab ← kalloc;
    if Z.eqb pgtab 0 then mret 0
    else
      st_page pgtab (fill_page 0);;
      st_word pde (Z.lor (Z.lor (Z.lor (V2P pgtab) PTE_P) PTE_W) PTE_U);;
      mret (pgtab + 4 * PTX va).

Definition mappages (pgdir va size pa perm : Z) : AM Z :=
  let last := PGROUNDDOWN (u32 (va + size - 1)) in
  loop (Z.to_nat (size / PGSIZE) + 2) (λ '(a, pa),
    pte ← walkpgdir pgdir a true;
    if Z.eqb pte 0 then mret (inr (-1))
    else
      e ← ld_word pte;
      if present e then panic "remap"
      else
        st_word pte (Z.lor (Z.lor pa perm) PTE_P);;
        if Z.eqb a last then mret (inr 0)
        else mret (inl (u32 (a + PGSIZE), u32 (pa + PGSIZE)))) (PGROUNDDOWN va, pa).

Definition deallocuvm (pgdir oldsz newsz : Z) : AM Z :=
  if Z.leb oldsz newsz then mret oldsz
  else
    loop (Z.to_nat ((oldsz - newsz) / PGSIZE) + 2) (λ a,
      if Z.ltb a oldsz then
        pte ← walkpgdir pgdir a false;
        if Z.eqb pte 0 then mret (inl (u32 (u32 (PGADDR (PDX a + 1) 0 0 - PGSIZE) + PGSIZE)))
        else
          e ← ld_word pte;
          (if present e then
             let pa := PTE_ADDR e in
             if Z.eqb pa 0 then panic "kfree"
             else
               kfree kend (P2V pa);;
               st_word pte 0
           else mret tt);;
          mret (inl (u32 (a + PGSIZE)))
      else mret (inr newsz)) (PGROUNDUP newsz).

Definition allocuvm (pgdir oldsz newsz : Z) : AM Z :=
  if Z.leb KERNBASE newsz then mret 0
  else if Z.ltb newsz oldsz then mret oldsz
  else
    loop (Z.to_nat ((newsz - oldsz) / PGSIZE) + 2) (λ a,
      if Z.ltb a newsz then
        mem ← kalloc;
        if Z.eqb mem 0 then
          deallocuvm pgdir newsz oldsz;;
          mret (inr 0)
        else
          st_page mem (fill_page 0);;
          r ← mappages pgdir a PGSIZE (V2P mem) (Z.lor PTE_W PTE_U);
          if Z.ltb r 0 then
            deallocuvm pgdir newsz oldsz;;
            kfree kend mem;;
            mret (inr 0)
          else mret (inl (u32 (a + PGSIZE)))
      else mret (inr newsz)) (PGROUNDUP oldsz).

Definition freevm (pgdir : Z) : AM unit :=
  if Z.eqb pgdir 0 then panic "freevm: no pgdir"
  else
    deallocuvm pgdir KERNBASE 0;;
    for_each (seq 0 NPDENTRIES) (λ i,
      e ← ld_word (pgdir + 4 * Z.of_nat i);
      when (present e) (kfree kend (P2V (PTE_ADDR e))));;
    kfree kend pgdir.

(** [kmap]: virtual address, physical start and end, permissions. *)
Definition kmap : list (Z * Z * Z * Z) :=
  [(KERNBASE, 0, EXTMEM, PTE_W);
   (KERNLINK, V2P KERNLINK, V2P kdata, 0);
   (kdata, V2P kdata, PHYSTOP, PTE_W);
   (DEVSPACE, DEVSPACE, 0, PTE_W)].

Definition setupkvm : AM Z :=
  pgdir ← kalloc;
  if Z.eqb pgdir 0 then mret 0
  else
    st_page pgdir (fill_page 0);;
    if Z.ltb DEVSPACE (P2V PHYSTOP) then panic "PHYSTOP too high"
    else
      loop 5 (λ ks,
        match ks with
        | [] => mret (inr pgdir)
        | (virt, phys_start, phys_end, perm) :: ks =>
            r ← mappages pgdir virt (u32 (phys_end - phys_start)) phys_start perm;
            if Z.ltb r 0 then
              freevm pgdir;;
              mret (inr 0)
            else mret (inl ks)
        end) kmap.

(** [init] are the bytes of the initial program. *)
Definition inituvm (pgdir : Z) (init : list Z) : AM unit :=
  if Z.leb PGSIZE (Z.of_nat (length init)) then panic "inituvm: more than a page"
  else
    mem ← kalloc;
    st_page mem (fill_page 0);;
    mappages pgdir 0 PGSIZE (V2P mem) (Z.lor PTE_W PTE_U);;
    d ← ld_page mem;
    st_page mem (init ++ drop (length init) d).

(** [readi off n] reads from the inode: the return value and the bytes.
    The inode and the memory are parts of a larger state. *)
Definition loaduvm {S} (mem : ∀ {A}, AM A → M S A) (readi : Z → Z → M S (Z * list Z)) (pgdir addr offset sz : Z) : M S Z :=
  if negb (Z.eqb (addr mod PGSIZE) 0) then panic "loaduvm: addr must be page aligned"
  else
    loop (Z.to_nat (sz / PGSIZE) + 2) (λ i,
      if Z.ltb i sz then
        pte ← mem (walkpgdir pgdir (u32 (addr + i)) false);
        if Z.eqb pte 0 then panic "loaduvm: address should exist"
        else
          e ← mem (ld_word pte);
          let pa := PTE_ADDR e in
          let n := if Z.ltb (sz - i) PGSIZE then sz - i else PGSIZE in
          r ← readi (u32 (offset + i)) n;
          d ← mem (ld_page (P2V pa));
          mem (st_page (P2V pa) (snd r ++ drop (length (snd r)) d));;
          if negb (Z.eqb (fst r) n) then mret (inr (-1)) else mret (inl (i + PGSIZE))
      else mret (inr 0)) 0.

Definition clearpteu (pgdir uva : Z) : AM unit :=
  pte ← walkpgdir pgdir uva false;
  if Z.eqb pte 0 then panic "clearpteu"
  else
    e ← ld_word pte;
    st_word pte (Z.land e (Z.lnot PTE_U)).

(** One page of the parent copied into the child: [true] on success. *)
Definition copy_page (msg1 msg2 : string) (from to va : Z) : AM bool :=
  pte ← walkpgdir from va false;
  if Z.eqb pte 0 then panic msg1
  else
    e ← ld_word pte;
    if negb (present e) then panic msg2
    else
      mem ← kalloc;
      if Z.eqb mem 0 then mret false
      else
        d ← ld_page (P2V (PTE_ADDR e));
        st_page mem d;;
        r ← mappages to va PGSIZE (V2P mem) (PTE_FLAGS e);
        if Z.ltb r 0 then
          kfree kend mem;;
          mret false
        else mret true.

(** A thread is its page directory and its [ustack]. *)
Definition __routine_copy_ustack (th : Z * Z) (pgdir : Z) : AM bool :=
  let '(thdir, ustack) := th in
  loop 4 (λ i,
    if Z.ltb i (u32 (ustack + USTACKSIZE)) then
      ok ← copy_page "__routine_copy_ustack: pte should exist" "__routine_copy_ustack: page not present" thdir pgdir i;
      if ok : bool then mret (inl (u32 (i + PGSIZE))) else mret (inr true)
    else mret (inr false)) (u32 (PGROUNDDOWN ustack - PGSIZE)).

(** [sz] and [pgdir] of the process, and its threads in the order in which
    [threads_apply1] visits them. *)
Definition copyuvm (sz pgdir : Z) (threads : list (Z * Z)) : AM Z :=
  d ← setupkvm;
  if Z.eqb d 0 then mret 0
  else
    ok ← loop (Z.to_nat (sz / PGSIZE) + 2) (λ i,
      if Z.ltb i sz then
        ok ← copy_page "copyuvm: pte should exist" "copyuvm: page not present" pgdir d i;
        if ok : bool then mret (inl (u32 (i + PGSIZE))) else mret (inr false)
      else mret (inr true)) 0;
    ok ← (if ok : bool then
            loop (S (length threads)) (λ ths,
              match ths with
              | [] => mret (inr true)
              | th :: ths => bad ← __routine_copy_ustack th d; if bad : bool then mret (inr false) else mret (inl ths)
              end) threads
          else mret false);
    if ok : bool then mret d
    else
      freevm d;;
      mret 0.

Definition uva2ka (pgdir uva : Z) : AM Z :=
  pte ← walkpgdir pgdir uva false;
  if Z.eqb pte 0 then fail NullDeref
  else
    e ← ld_word pte;
    if negb (present e) then mret 0
    else if Z.eqb (Z.land e PTE_U) 0 then mret 0
    else mret (P2V (PTE_ADDR e)).

(** [buf] are the [len] bytes to copy. *)
Definition copyout (pgdir va : Z) (buf : list Z) : AM Z :=
  loop (S (length buf)) (λ '(va, buf),
    match buf with
    | [] => mret (inr 0)
    | _ =>
        let va0 := PGROUNDDOWN va in
        pa0 ← uva2ka pgdir va0;
        if Z.eqb pa0 0 then mret (inr (-1))
        else
          let o := Z.to_nat (va - va0) in
          let n := Nat.min (Z.to_nat PGSIZE - o) (length buf) in
          d ← ld_page pa0;
          st_page pa0 (take o d ++ take n buf ++ drop (o + n) d);;
          mret (inl (u32 (va0 + PGSIZE), drop n buf))
    end) (va, buf).

Definition allocustack (pgdir ustack : Z) : AM Z :=
  let sb := PGROUNDDOWN ustack in
  r ← allocuvm pgdir (u32 (sb - PGSIZE)) (u32 (ustack + USTACKSIZE));
  if Z.eqb r 0 then mret 0
  else
    clearpteu pgdir (u32 (sb - PGSIZE));;
    mret ustack.

Definition deallocustack (pgdir ustack : Z) : AM Z :=
  deallocuvm pgdir (u32 (ustack + USTACKSIZE)) (u32 (PGROUNDDOWN ustack - PGSIZE)).
End vm.

Close Scope Z_scope.
