(* ===== verification/VmMap.v ===== *)
(** * What a page table maps ([walkpgdir], [mappages] of [src/xv6-public/vm.c])

    The entry [pte_of] of an address, the invariant [pt_ok] of the tables, and
    what the two routines do to them. *)

From S2P Require Import Prelude.
From S2P Require Import Words.
From S2P Require Import Kalloc.
From S2P Require Import Vm.

Open Scope Z_scope.

(** ** Address arithmetic *)

Lemma land_lnot_4095 x : Z.land x (Z.lnot 4095) = 4096 * (x / 4096).
Proof.
  change 4095 with (Z.ones 12). change (Z.land x (Z.lnot (Z.ones 12))) with (Z.ldiff x (Z.ones 12)).
  rewrite Z.ldiff_ones_r by lia. rewrite Z.shiftl_mul_pow2, Z.shiftr_div_pow2 by lia. change (2 ^ 12) with 4096. lia.
Qed.

Lemma PGROUNDDOWN_val a : PGROUNDDOWN a = 4096 * (a / 4096).
Proof. unfold PGROUNDDOWN, PGSIZE. apply land_lnot_4095. Qed.
Lemma PTE_ADDR_val a : PTE_ADDR a = 4096 * (a / 4096).
Proof. apply land_lnot_4095. Qed.
Lemma land_1023 x : Z.land x 1023 = x mod 1024.
Proof. change 1023 with (Z.ones 10). by rewrite Z.land_ones by lia. Qed.
Lemma PDX_val va : PDX va = (va / 4194304) mod 1024.
Proof. unfold PDX. rewrite land_1023, Z.shiftr_div_pow2 by lia. done. Qed.
Lemma PTX_val va : PTX va = (va / 4096) mod 1024.
Proof. unfold PTX. rewrite land_1023, Z.shiftr_div_pow2 by lia. done. Qed.

(** Adding flags to an aligned address. *)
Lemma lor_aligned a f : a mod 4096 = 0 → 0 ≤ f < 4096 → Z.lor a f = a + f.
Proof.
  intros Ha Hf. rewrite <-Z.add_lor_land. replace (Z.land a f) with 0; [lia|]. symmetry. apply Z.bits_inj'. intros n Hn.
  rewrite Z.land_spec, Z.bits_0. destruct (decide (n < 12)).
  - replace a with (a / 4096 * 2 ^ 12) by (change (2 ^ 12) with 4096; pose proof (Z.div_mod a 4096); lia).
    by rewrite Z.mul_pow2_bits_low by lia.
  - replace f with (f mod 2 ^ 12) by (apply Z.mod_small; lia). rewrite Z.mod_pow2_bits_high by lia. apply andb_false_r.
Qed.

Lemma present_odd e : present e = Z.odd e.
Proof.
  unfold present, PTE_P. change 1 with (Z.ones 1). rewrite Z.land_ones by lia. change (2 ^ 1) with 2.
  rewrite Zmod_odd. by destruct (Z.odd e).
Qed.

(** Two pages are the same iff directory and table index agree. *)
Lemma same_page va va' : is_u32 va → is_u32 va' → PDX va = PDX va' → PTX va = PTX va' → va / 4096 = va' / 4096.
Proof. unfold is_u32, two32. rewrite !PDX_val, !PTX_val. intros. zify. Z.to_euclidean_division_equations. lia. Qed.

Lemma PDX_range va : 0 ≤ PDX va < 1024.
Proof. rewrite PDX_val. apply Z.mod_pos_bound. lia. Qed.
Lemma PTX_range va : 0 ≤ PTX va < 1024.
Proof. rewrite PTX_val. apply Z.mod_pos_bound. lia. Qed.

(** ** Words of pages *)

Definition wd (pg : gmap Z page) (t : Z) (i : Z) : Z := ld32 (default [] (pg !! t)) (Z.to_nat (4 * i)).

(** A whole page that exists. *)
Definition has_page (pg : gmap Z page) (a : Z) : Prop := ∃ d, pg !! a = Some d ∧ length d = 4096%nat.

Lemma entry_page t i : t mod 4096 = 0 → 0 ≤ i < 1024 → PGROUNDDOWN (t + 4 * i) = t ∧ (t + 4 * i) mod PGSIZE = 4 * i.
Proof. intros Ht Hi. rewrite PGROUNDDOWN_val. unfold PGSIZE. zify. Z.to_euclidean_division_equations. lia. Qed.

Lemma ld_page_run k a d : k_pages k !! a = Some d → ld_page a k = Ok (d, k).
Proof. intros Hd. unfold ld_page. rewrite (bind_ok _ _ k k k) by done. unfold id. by rewrite Hd. Qed.

Lemma st_page_run k a v : is_Some (k_pages k !! a) → st_page a v k = Ok (tt, set_page a v k).
Proof. intros [d Hd]. unfold st_page. by rewrite (bind_ok _ _ _ _ _ (ld_page_run k a d Hd)). Qed.

Lemma ld_word_run k t i : t mod 4096 = 0 → 0 ≤ i < 1024 → has_page (k_pages k) t →
  ld_word (t + 4 * i) k = Ok (wd (k_pages k) t i, k).
Proof.
  intros Ht Hi (d & Hd & _). destruct (entry_page t i Ht Hi) as [E1 E2]. unfold ld_word. rewrite E1, E2.
  rewrite (bind_ok _ _ _ _ _ (ld_page_run k t d Hd)). unfold wd. by rewrite Hd.
Qed.

Definition put_word (t i v : Z) (k : kmem) : kmem :=
  set_page t (st32 (default [] (k_pages k !! t)) (Z.to_nat (4 * i)) v) k.

Lemma st_word_run k t i v : t mod 4096 = 0 → 0 ≤ i < 1024 → has_page (k_pages k) t →
  st_word (t + 4 * i) v k = Ok (tt, put_word t i v k).
Proof.
  intros Ht Hi (d & Hd & _). destruct (entry_page t i Ht Hi) as [E1 E2]. unfold st_word. rewrite E1, E2.
  rewrite (bind_ok _ _ _ _ _ (ld_page_run k t d Hd)), st_page_run by done. unfold put_word. by rewrite Hd.
Qed.

Lemma wd_put k t i v t' i' : 0 ≤ i < 1024 → 0 ≤ i' < 1024 → has_page (k_pages k) t →
  wd (k_pages (put_word t i v k)) t' i' = if decide (t' = t ∧ i' = i) then v mod two32 else wd (k_pages k) t' i'.
Proof.
  intros Hi Hi' (d & Hd & Hl). unfold wd, put_word. simpl. rewrite Hd. simpl. destruct (decide (t' = t)) as [->|Ht].
  - rewrite lookup_insert_eq, Hd. simpl default. destruct (decide (i' = i)) as [->|Hne].
    + rewrite decide_True by done. apply ld32_st32_eq. lia.
    + rewrite decide_False by (intros [_ ?]; done). apply ld32_st32_ne; lia.
  - rewrite lookup_insert_ne by done. rewrite decide_False by (intros [? _]; done). done.
Qed.

Lemma has_page_put k t i v a : has_page (k_pages k) t → has_page (k_pages k) a → has_page (k_pages (put_word t i v k)) a.
Proof.
  intros (d & Hd & Hl) (d' & Hd' & Hl'). unfold has_page, put_word. simpl. rewrite Hd. simpl. destruct (decide (t = a)) as [->|].
  - rewrite lookup_insert_eq. eexists. split; [done|]. by rewrite length_st32.
  - rewrite lookup_insert_ne by done. by exists d'.
Qed.

(** ** Page tables *)

Definition table (pg : gmap Z page) (pgdir i : Z) : Z := P2V (PTE_ADDR (wd pg pgdir i)).
Definition mapped_dir (pg : gmap Z page) (pgdir i : Z) : bool := present (wd pg pgdir i).

(** The page table entry of an address, 0 when its table does not exist. *)
Definition pte_of (pg : gmap Z page) (pgdir va : Z) : Z :=
  if mapped_dir pg pgdir (PDX va) then wd pg (table pg pgdir (PDX va)) (PTX va) else 0.

Section tables.
Context (kend : Z).

(** The tables of [pgdir] are pages of their own, and not free. *)
Record pt_ok (pg : gmap Z page) (pgdir : Z) (free : list Z) : Prop := {
  pt_dir : good_page kend pgdir ∧ has_page pg pgdir ∧ pgdir ∉ free;
  pt_tab : ∀ i, 0 ≤ i < 1024 → mapped_dir pg pgdir i = true →
    good_page kend (table pg pgdir i) ∧ has_page pg (table pg pgdir i) ∧ table pg pgdir i ∉ free ∧ table pg pgdir i ≠ pgdir;
  pt_inj : ∀ i j, 0 ≤ i < 1024 → 0 ≤ j < 1024 → mapped_dir pg pgdir i = true → mapped_dir pg pgdir j = true →
    table pg pgdir i = table pg pgdir j → i = j
}.

Lemma good_align a : good_page kend a → a mod 4096 = 0.
Proof using Type. intros [H _ _]. exact H. Qed.

Lemma P2V_V2P a : good_page kend a → P2V (V2P a) = a ∧ V2P a mod 4096 = 0 ∧ 0 ≤ V2P a < PHYSTOP.
Proof using Type.
  intros [H1 H2 H3]. unfold P2V, V2P, KERNBASE, PHYSTOP, PGSIZE in *.
  rewrite (u32_small (a - 2147483648)) by (unfold is_u32, two32; lia).
  split_and!; [rewrite u32_small; unfold is_u32, two32; lia| |lia|lia].
  zify. Z.to_euclidean_division_equations. lia.
Qed.

(** The entry that [walkpgdir] puts into the directory. *)
Lemma new_pde t : good_page kend t →
  let e := Z.lor (Z.lor (Z.lor (V2P t) PTE_P) PTE_W) PTE_U in
  present (e mod two32) = true ∧ P2V (PTE_ADDR (e mod two32)) = t.
Proof using Type.
  intros Ht e. destruct (P2V_V2P t Ht) as (E & Hal & Hr). assert (e = V2P t + 7) as ->.
  { unfold e, PTE_P, PTE_W, PTE_U. rewrite <-!Z.lor_assoc. change (Z.lor 1 (Z.lor 2 4)) with 7. apply lor_aligned; [done|lia]. }
  unfold PHYSTOP in Hr. rewrite Z.mod_small by (unfold two32; lia). split.
  - rewrite present_odd, Z.odd_add. change (Z.odd 7) with true.
    assert (Z.odd (V2P t) = false) as ->; [|done]. rewrite <-Z.negb_even. apply negb_false_iff.
    apply Z.even_spec. exists (V2P t / 2). zify. Z.to_euclidean_division_equations. lia.
  - rewrite PTE_ADDR_val. rewrite <-E at 2. f_equal. zify. Z.to_euclidean_division_equations. lia.
Qed.

Lemma kinv_put k free t i v : kinv kend k free → t ∉ free → kinv kend (put_word t i v k) free.
Proof using Type. intros [C N G] Ht. split; try done. unfold put_word. simpl. by apply chain_insert. Qed.

Lemma kinv_set_page k free t d : kinv kend k free → t ∉ free → kinv kend (set_page t d k) free.
Proof using Type. intros [C N G] Ht. split; try done. simpl. by apply chain_insert. Qed.

Lemma wd_other pg t' d t i : t ≠ t' → wd (<[t' := d]> pg) t i = wd pg t i.
Proof using Type. intros H. unfold wd. by rewrite lookup_insert_ne. Qed.

Lemma wd_zero pg t i : 0 ≤ i < 1024 → wd (<[t := fill_page 0]> pg) t i = 0.
Proof using Type.
  intros Hi. unfold wd. rewrite lookup_insert_eq. simpl default. unfold fill_page, ld32, byte_at. rewrite !nth_lookup.
  rewrite !lookup_replicate_2 by (unfold PGSIZE; lia). done.
Qed.

(** Adding a table at directory index [x]: a zeroed page [t] that was free. *)
Section add_table.
Context (k : kmem) (pgdir t : Z) (free : list Z) (x : Z).
Hypothesis Hx : 0 ≤ x < 1024.
Hypothesis O : pt_ok (k_pages k) pgdir (t :: free).
Hypothesis Hnd : NoDup (t :: free).
Hypothesis Ht : good_page kend t.
Hypothesis Hp : is_Some (k_pages k !! t).
Hypothesis Habs : mapped_dir (k_pages k) pgdir x = false.
Let e := Z.lor (Z.lor (Z.lor (V2P t) PTE_P) PTE_W) PTE_U.
Let k' := put_word pgdir x e (set_page t (fill_page 0) k).

#[local] Lemma t_not_dir : pgdir ≠ t.
Proof using O. destruct (pt_dir _ _ _ O) as (_ & _ & H). intros E. apply H. rewrite E. left. Qed.

#[local] Lemma dir_page : has_page (k_pages (set_page t (fill_page 0) k)) pgdir.
Proof using O. destruct (pt_dir _ _ _ O) as (_ & (d & Hd & Hl) & H). exists d. split; [|done]. simpl. rewrite lookup_insert_ne; [done|].
  intros E. apply H. rewrite E. left. Qed.

#[local] Lemma wd_dir i : 0 ≤ i < 1024 → wd (k_pages k') pgdir i = if decide (i = x) then e mod two32 else wd (k_pages k) pgdir i.
Proof using Hx O.
  intros Hi. unfold k'. rewrite wd_put by (done || apply dir_page). simpl. pose proof t_not_dir. rewrite wd_other by done.
  destruct (decide (i = x)) as [E|E]; [by rewrite decide_True|]. rewrite decide_False; [done|]. by intros [_ ?].
Qed.

#[local] Lemma wd_tab a i : a ≠ pgdir → a ≠ t → 0 ≤ i < 1024 → wd (k_pages k') a i = wd (k_pages k) a i.
Proof using Hx O.
  intros Ha Hat Hi. unfold k'. rewrite wd_put by (done || apply dir_page). rewrite decide_False by (intros [? _]; done). simpl. by apply wd_other.
Qed.

#[local] Lemma has_tab a : has_page (k_pages k) a → has_page (k_pages k') a.
Proof using Hx O.
  intros (d & Hd & Hl). apply has_page_put; [apply dir_page|]. simpl. destruct (decide (t = a)) as [E|E].
  - exists (fill_page 0). rewrite <-E. split; [apply lookup_insert_eq|]. unfold fill_page. by rewrite length_replicate.
  - exists d. split; [|done]. by rewrite lookup_insert_ne.
Qed.

#[local] Lemma dir_old i : 0 ≤ i < 1024 → i ≠ x → mapped_dir (k_pages k') pgdir i = mapped_dir (k_pages k) pgdir i ∧
  table (k_pages k') pgdir i = table (k_pages k) pgdir i.
Proof using Hx O. intros Hi Hne. unfold mapped_dir, table. by rewrite !wd_dir, !decide_False by done. Qed.

#[local] Lemma dir_new : mapped_dir (k_pages k') pgdir x = true ∧ table (k_pages k') pgdir x = t.
Proof using Hx O Ht. unfold mapped_dir, table. rewrite !wd_dir, !decide_True by done. apply (new_pde t Ht). Qed.

Lemma add_table_ok : pt_ok (k_pages k') pgdir free ∧ mapped_dir (k_pages k') pgdir x = true ∧
  ∀ va, pte_of (k_pages k') pgdir va = pte_of (k_pages k) pgdir va.
Proof using All.
  destruct dir_new as [Hn1 Hn2]. pose proof t_not_dir as Htd. apply NoDup_cons in Hnd as [Htf Hnd'].
  destruct (pt_dir _ _ _ O) as (Hg & Hpg & Hnf). split_and!; [split|done|].
  - split_and!; [done|by apply has_tab|]. intros H. apply Hnf. by right.
  - intros i Hi. destruct (decide (i = x)) as [->|Hne].
    + intros _. rewrite Hn2. split_and!; [done| |done|done]. destruct Hp as [d0 Hd0].
      apply has_page_put; [apply dir_page|]. simpl. exists (fill_page 0). split; [apply lookup_insert_eq|]. unfold fill_page. by rewrite length_replicate.
    + destruct (dir_old i Hi Hne) as [-> ->]. intros Hm. destruct (pt_tab _ _ _ O i Hi Hm) as (T1 & T2 & T3 & T4).
      split_and!; [done|by apply has_tab| |done]. intros H. apply T3. by right.
  - intros i j Hi Hj. destruct (decide (i = x)) as [->|Hni], (decide (j = x)) as [->|Hnj]; try done.
    + destruct (dir_old j Hj Hnj) as [-> ->]. rewrite Hn2. intros _ Hm E. destruct (pt_tab _ _ _ O j Hj Hm) as (_ & _ & T3 & _).
      destruct T3. rewrite <-E. left.
    + destruct (dir_old i Hi Hni) as [-> ->]. rewrite Hn2. intros Hm _ E. destruct (pt_tab _ _ _ O i Hi Hm) as (_ & _ & T3 & _).
      destruct T3. rewrite E. left.
    + destruct (dir_old i Hi Hni) as [-> ->], (dir_old j Hj Hnj) as [-> ->]. by apply (pt_inj _ _ _ O).
  - intros va. unfold pte_of. pose proof (PDX_range va) as Hi. destruct (decide (PDX va = x)) as [->|Hne].
    + rewrite Hn1, Hn2, Habs. unfold k'. rewrite wd_put by (apply PTX_range || done || apply dir_page).
      rewrite decide_False by (intros [? _]; done). simpl. apply wd_zero, PTX_range.
    + destruct (dir_old _ Hi Hne) as [-> ->]. destruct (mapped_dir (k_pages k) pgdir (PDX va)) eqn:Hm; [|done].
      destruct (pt_tab _ _ _ O _ Hi Hm) as (_ & _ & T3 & T4). apply wd_tab; [done| |apply PTX_range]. intros E. apply T3. rewrite E. left.
Qed.
End add_table.

(** What may change while tables are added: pages that were free, the
    directory, and the tables. *)
Record grown_tables (pg pg' : gmap Z page) (pgdir : Z) (free : list Z) : Prop := {
  gt_keep : ∀ a, a ∉ free → a ≠ pgdir → (∀ i, 0 ≤ i < 1024 → mapped_dir pg pgdir i = true → a ≠ table pg pgdir i) → pg' !! a = pg !! a;
  gt_tabs : ∀ i, 0 ≤ i < 1024 → mapped_dir pg' pgdir i = true →
    (mapped_dir pg pgdir i = true ∧ table pg' pgdir i = table pg pgdir i) ∨ table pg' pgdir i ∈ free
}.

Lemma grown_tables_trans pg1 pg2 pg3 pgdir free free' :
  grown_tables pg1 pg2 pgdir free → grown_tables pg2 pg3 pgdir free' → free' `suffix_of` free → grown_tables pg1 pg3 pgdir free.
Proof using Type.
  intros [A1 A2] [B1 B2] [l ->]. split.
  - intros a Ha Hd Ht. rewrite B1, A1; [done..| |done|]; [intros H; apply Ha; apply elem_of_app; by right|].
    intros i Hi Hm. destruct (A2 i Hi Hm) as [[H1 ->]|H]; [by apply Ht|]. by intros ->.
  - intros i Hi Hm. destruct (B2 i Hi Hm) as [[H1 ->]|H]; [|right; apply elem_of_app; by right].
    destruct (A2 i Hi H1) as [[H2 ->]|H]; [by left|by right].
Qed.

Lemma grown_tables_refl pg pgdir free : grown_tables pg pg pgdir free.
Proof using Type. split; [done|]. intros i Hi Hm. by left. Qed.

Lemma walkpgdir_spec k free pgdir va :
  kinv kend k free → pt_ok (k_pages k) pgdir free →
  wp (walkpgdir pgdir va true) (λ r k',
    (r = 0 ∧ free = [] ∧ k' = k) ∨
    (∃ free', r = table (k_pages k') pgdir (PDX va) + 4 * PTX va ∧ r ≠ 0 ∧ kinv kend k' free' ∧ pt_ok (k_pages k') pgdir free' ∧
      mapped_dir (k_pages k') pgdir (PDX va) = true ∧ (∀ va', pte_of (k_pages k') pgdir va' = pte_of (k_pages k) pgdir va') ∧
      free' `suffix_of` free ∧ grown_tables (k_pages k) (k_pages k') pgdir free)) k.
Proof using Type.
  intros I O. destruct (pt_dir _ _ _ O) as (Hg & Hpg & Hnf). pose proof (PDX_range va) as Hx.
  unfold walkpgdir. apply wp_bind. eapply wp_eq; [apply ld_word_run; [by apply good_align|done|done]|].
  change (present (wd (k_pages k) pgdir (PDX va))) with (mapped_dir (k_pages k) pgdir (PDX va)).
  destruct (mapped_dir (k_pages k) pgdir (PDX va)) eqn:Hm.
  - apply wp_ret. right. exists free. split_and!; try done; [|apply grown_tables_refl]. destruct (pt_tab _ _ _ O _ Hx Hm) as ([_ _ Hh] & _).
    pose proof (PTX_range va). fold (table (k_pages k) pgdir (PDX va)). unfold KERNBASE in Hh. lia.
  - cbn [negb]. apply wp_bind. wcall (kalloc_spec kend k free I). intros r k1. destruct free as [|t l].
    { intros [-> ->]. simpl. apply wp_ret. by left. }
    intros (-> & I1 & Hp1). pose proof (ki_good _ _ _ I t ltac:(left)) as Hgt. destruct (good_u32 kend t Hgt) as [_ Hnz].
    rewrite (proj2 (Z.eqb_neq _ _)) by done. pose proof (ki_chain _ _ _ I) as (_ & d & Hd & _ & _). rewrite <-Hp1 in Hd, O, Hm.
    assert (t ∉ l) as Htl. { pose proof (ki_nodup _ _ _ I) as Hn. by apply NoDup_cons in Hn as [? _]. }
    apply wp_bind. eapply wp_eq; [by apply st_page_run|]. apply wp_bind.
    eapply wp_eq; [apply st_word_run; [by apply good_align|done|by apply (dir_page k1 pgdir t l)]|]. apply wp_ret. right. exists l.
    destruct (add_table_ok k1 pgdir t l (PDX va) Hx O (ki_nodup _ _ _ I) Hgt (mk_is_Some _ _ Hd) Hm) as (O' & Hm' & Hpte).
    destruct (dir_new k1 pgdir t l (PDX va) Hx O Hgt) as [_ Htb]. split_and!; try done.
    + by rewrite Htb.
    + destruct Hgt as [_ _ Hh]. pose proof (PTX_range va). unfold KERNBASE in Hh. lia.
    + apply kinv_put; [by apply kinv_set_page|]. intros H. apply Hnf. by right.
    + intros va'. rewrite Hpte. by rewrite Hp1.
    + by exists [t].
    + rewrite <-Hp1. split.
      * intros a Ha Hd' _. unfold put_word. simpl. rewrite !lookup_insert_ne; [done| |done]. intros ->. apply Ha. left.
      * intros i Hi Hmi. destruct (decide (i = PDX va)) as [->|Hne]; [right; rewrite Htb; left|].
        destruct (dir_old k1 pgdir t l (PDX va) Hx O i Hi Hne) as [E1 E2]. rewrite E1 in Hmi. by left.
Qed.

(** Writing the entry of a page. *)
Lemma set_pte_ok k pgdir free va v :
  pt_ok (k_pages k) pgdir free → mapped_dir (k_pages k) pgdir (PDX va) = true → is_u32 va →
  let t := table (k_pages k) pgdir (PDX va) in
  let k' := put_word t (PTX va) v k in
  pt_ok (k_pages k') pgdir free ∧ ∀ va', is_u32 va' →
    pte_of (k_pages k') pgdir va' = if decide (va' / 4096 = va / 4096) then v mod two32 else pte_of (k_pages k) pgdir va'.
Proof using Type.
  intros O Hm Hva t k'. pose proof (PDX_range va) as Hx. pose proof (PTX_range va) as Hy.
  destruct (pt_tab _ _ _ O _ Hx Hm) as (T1 & T2 & T3 & T4). fold t in T1, T2, T3, T4.
  assert (∀ i, 0 ≤ i < 1024 → wd (k_pages k') pgdir i = wd (k_pages k) pgdir i) as Hdir.
  { intros i Hi. unfold k'. rewrite wd_put by done. rewrite decide_False; [done|]. by intros [? _]. }
  assert (∀ i, 0 ≤ i < 1024 → mapped_dir (k_pages k') pgdir i = mapped_dir (k_pages k) pgdir i) as Hmd
    by (intros i Hi; unfold mapped_dir; by rewrite Hdir).
  assert (∀ i, 0 ≤ i < 1024 → table (k_pages k') pgdir i = table (k_pages k) pgdir i) as Htb
    by (intros i Hi; unfold table; by rewrite Hdir).
  split.
  - split.
    + destruct (pt_dir _ _ _ O) as (? & ? & ?). split_and!; [done|by apply has_page_put|done].
    + intros i Hi. rewrite Hmd, Htb by done. intros Hmi. destruct (pt_tab _ _ _ O i Hi Hmi) as (? & ? & ? & ?).
      split_and!; [done|by apply has_page_put|done|done].
    + intros i j Hi Hj. rewrite !Hmd, !Htb by done. by apply (pt_inj _ _ _ O).
  - intros va' Hva'. pose proof (PDX_range va') as Hx'. unfold pte_of. rewrite Hmd, Htb by done.
    destruct (mapped_dir (k_pages k) pgdir (PDX va')) eqn:Hm'.
    + unfold k'. rewrite wd_put by (done || apply PTX_range). destruct (decide (va' / 4096 = va / 4096)) as [E|E].
      * assert (PDX va' = PDX va ∧ PTX va' = PTX va) as [-> ->]; [|by rewrite decide_True].
        rewrite !PDX_val, !PTX_val, E. split; [|done]. zify. Z.to_euclidean_division_equations. lia.
      * rewrite decide_False; [done|]. intros [E1 E2]. apply (pt_inj _ _ _ O) in E1; [|done..]. by apply E, same_page.
    + rewrite decide_False; [done|]. intros E. assert (PDX va' = PDX va) as E'; [|congruence].
      rewrite !PDX_val. zify. Z.to_euclidean_division_equations. lia.
Qed.

Lemma set_pte_grown k pgdir free va v :
  pt_ok (k_pages k) pgdir free → mapped_dir (k_pages k) pgdir (PDX va) = true →
  grown_tables (k_pages k) (k_pages (put_word (table (k_pages k) pgdir (PDX va)) (PTX va) v k)) pgdir free.
Proof using Type.
  intros O Hm. pose proof (PDX_range va) as Hx. destruct (pt_tab _ _ _ O _ Hx Hm) as (T1 & T2 & T3 & T4). split.
  - intros a Ha Hd Ht. unfold put_word. simpl. rewrite lookup_insert_ne; [done|]. intros E. by apply (Ht (PDX va)).
  - intros i Hi. remember (put_word (table (k_pages k) pgdir (PDX va)) (PTX va) v k) as k' eqn:Ek.
    assert (wd (k_pages k') pgdir i = wd (k_pages k) pgdir i) as E.
    { rewrite Ek, wd_put by (done || apply PTX_range). rewrite decide_False; [done|]. by intros [? _]. }
    unfold mapped_dir, table. rewrite E. intros Hmi. by left.
Qed.

(** ** [mappages] *)

(** The entry made for the page [p] of a range starting at page [first]. *)
Definition range_pte (first pa perm p : Z) : Z := Z.lor (Z.lor (pa + 4096 * (p - first)) perm) PTE_P.

Lemma range_pte_u32 first pa perm p : pa mod 4096 = 0 → 0 ≤ perm < 4096 → 0 ≤ pa + 4096 * (p - first) → pa + 4096 * (p - first) + 4096 ≤ two32 →
  is_u32 (range_pte first pa perm p).
Proof using Type.
  intros Ha Hp H0 H1. unfold range_pte. rewrite <-Z.lor_assoc.
  assert (0 ≤ Z.lor perm PTE_P < 4096) as Hl.
  { split; [apply Z.lor_nonneg; unfold PTE_P; lia|]. change 4096 with (2 ^ 12). destruct (decide (Z.lor perm PTE_P = 0)) as [->|Hnz]; [lia|].
    apply Z.log2_lt_pow2; [assert (0 ≤ Z.lor perm PTE_P) by (apply Z.lor_nonneg; unfold PTE_P; lia); lia|].
    rewrite Z.log2_lor by (unfold PTE_P; lia). apply Z.max_lub_lt; [|unfold PTE_P; simpl; lia].
    destruct (decide (perm = 0)) as [->|]; [simpl; lia|]. apply Z.log2_lt_pow2; lia. }
  rewrite lor_aligned; [unfold is_u32; lia| |done].
  rewrite Z.mul_comm, Z.mod_add by lia. done.
Qed.

Section mappages.
Context (k : kmem) (free : list Z) (pgdir va size pa perm : Z).
Let first := va / 4096.
Let np := (va + size - 1) / 4096 - first + 1.
Hypothesis I : kinv kend k free.
Hypothesis O : pt_ok (k_pages k) pgdir free.
Hypothesis Hva : 0 ≤ va ∧ 0 < size ∧ va + size ≤ two32.
Hypothesis Hpa : pa mod 4096 = 0 ∧ 0 ≤ pa ∧ pa + 4096 * np ≤ two32.
Hypothesis Hperm : 0 ≤ perm < 4096.
Hypothesis Hfresh : ∀ va', first ≤ va' / 4096 < first + np → present (pte_of (k_pages k) pgdir va') = false.

(** After the first [j] pages of the range. *)
Record mapped_upto (j : Z) (k' : kmem) : Prop := {
  mu_free : ∃ free', kinv kend k' free' ∧ pt_ok (k_pages k') pgdir free' ∧ free' `suffix_of` free;
  mu_pte : ∀ va', is_u32 va' → pte_of (k_pages k') pgdir va' =
    if decide (first ≤ va' / 4096 < first + j) then range_pte first pa perm (va' / 4096) else pte_of (k_pages k) pgdir va';
  mu_grown : grown_tables (k_pages k) (k_pages k') pgdir free
}.

Lemma mappages_spec :
  wp (mappages pgdir va size pa perm) (λ r k', r = 0 ∧ mapped_upto np k' ∨
    r = -1 ∧ ∃ j, 0 ≤ j < np ∧ mapped_upto j k' ∧ wp kalloc (λ a _, a = 0) k') k.
Proof using All.
  unfold mappages. assert (PGROUNDDOWN (u32 (va + size - 1)) = 4096 * (first + np - 1)) as ->.
  { rewrite u32_small by (unfold is_u32; lia). rewrite PGROUNDDOWN_val. unfold np. lia. }
  rewrite PGROUNDDOWN_val. fold first.
  assert (0 ≤ first ∧ 0 < np ∧ 4096 * (first + np) ≤ two32 ∧ np ≤ size / 4096 + 2) as (Hf0 & Hnp & Hend & Hfuel).
  { unfold np, first, two32 in *. split_and!; zify; Z.to_euclidean_division_equations; lia. }
  apply (wp_loop (λ n '(a, q) k', ∃ j, n = Z.to_nat (np - j - 1) ∧ 0 ≤ j < np ∧ a = 4096 * (first + j) ∧ q = pa + 4096 * j ∧ mapped_upto j k'))
    with (n := Z.to_nat (np - 1)).
  - intros n [a q] k1 (j & -> & Hj & -> & -> & [(f1 & I1 & O1 & S1) M1 R1]). set (a := 4096 * (first + j)).
    assert (is_u32 a) as Ha by (unfold is_u32, a; lia).
    assert (a / 4096 = first + j) as Ea by (unfold a; rewrite Z.mul_comm; by rewrite Z.div_mul by lia).
    apply wp_bind. wcall (walkpgdir_spec k1 f1 pgdir a I1 O1). intros pte k2 [(-> & -> & ->)|(f2 & -> & Hnz & I2 & O2 & Hm2 & M2 & S2 & R2)].
    { simpl. apply wp_ret. right. split; [done|]. exists j. split; [lia|]. split; [by split; [exists []|..]|].
      wcall (kalloc_spec kend k1 [] I1). by intros r k' [-> _]. }
    rewrite (proj2 (Z.eqb_neq _ _)) by done. pose proof (PDX_range a) as Hx. pose proof (PTX_range a) as Hy.
    destruct (pt_tab _ _ _ O2 _ Hx Hm2) as (T1 & T2 & T3 & _).
    apply wp_bind. eapply wp_eq; [apply ld_word_run; [by apply good_align|done|done]|].
    assert (wd (k_pages k2) (table (k_pages k2) pgdir (PDX a)) (PTX a) = pte_of (k_pages k) pgdir a) as Ew.
    { transitivity (pte_of (k_pages k2) pgdir a); [unfold pte_of; by rewrite Hm2|]. rewrite M2, M1 by done. rewrite Ea, decide_False by lia. done. }
    rewrite Ew, Hfresh by lia. apply wp_bind. eapply wp_eq; [apply st_word_run; [by apply good_align|done|done]|].
    set (v := Z.lor (Z.lor (pa + 4096 * j) perm) PTE_P).
    assert (v = range_pte first pa perm (first + j)) as Ev by (unfold v, range_pte; do 3 f_equal; lia).
    assert (is_u32 v) as Hv by (rewrite Ev; apply range_pte_u32; [apply Hpa|done|lia|lia]).
    destruct (set_pte_ok k2 pgdir f2 a v O2 Hm2 Ha) as [O3 M3]. set (k3 := put_word _ _ v k2) in *.
    assert (mapped_upto (j + 1) k3) as MU.
    { split.
      - exists f2. split_and!; [by apply kinv_put|done|by trans f1].
      - intros va' Hva'. rewrite M3 by done. rewrite Ea. destruct (decide (va' / 4096 = first + j)) as [E|E].
        + rewrite decide_True by lia. rewrite (Z.mod_small v two32) by exact Hv. by rewrite Ev, E.
        + rewrite M2, M1 by done. repeat case_decide; try lia; done.
      - eapply grown_tables_trans; [exact R1| |exact S1]. eapply grown_tables_trans; [exact R2| |exact S2]. by apply set_pte_grown. }
    unfold a. destruct (Z.eqb_spec (4096 * (first + j)) (4096 * (first + np - 1))) as [Elast|Hnl].
    + apply wp_ret. left. split; [done|]. by replace np with (j + 1) by lia.
    + apply wp_ret. exists (Z.to_nat (np - (j + 1) - 1)). split; [lia|]. exists (j + 1). split_and!; try done; try lia; unfold PGSIZE.
      * rewrite u32_small by (unfold is_u32; lia). lia.
      * rewrite u32_small by (unfold is_u32; lia). lia.
  - unfold PGSIZE. assert (0 ≤ size / 4096) by (apply Z.div_pos; lia). lia.
  - exists 0. split_and!; try lia. split; [by exists free| |apply grown_tables_refl]. intros va' _. rewrite decide_False by lia. done.
Qed.
End mappages.
End tables.

Close Scope Z_scope.
