(* ===== verification/VmUser.v ===== *)
(** * User memory ([allocuvm], [deallocuvm] of [src/xv6-public/vm.c])

    The user part of an address space: which pages below [KERNBASE] are
    present, and that each has a physical page of its own. *)

From S2P Require Import Prelude.
From S2P Require Import Words.
From S2P Require Import Kalloc.
From S2P Require Import Vm.
From S2P Require Import VmMap.

Open Scope Z_scope.

Definition frame (pg : gmap Z page) (pgdir va : Z) : Z := P2V (PTE_ADDR (pte_of pg pgdir va)).
Definition up (pg : gmap Z page) (pgdir va : Z) : bool := present (pte_of pg pgdir va).
Definition user (va : Z) : Prop := 0 ≤ va < KERNBASE.

Lemma user_u32 va : user va → is_u32 va.
Proof. unfold user, is_u32, KERNBASE, two32. lia. Qed.

Lemma suffix_elem (l l' : list Z) x : l `suffix_of` l' → x ∈ l → x ∈ l'.
Proof. intros [m ->] H. apply elem_of_app. by right. Qed.

Section user.
Context (kend : Z) (Hkend : KERNBASE < kend).

(** [a] is neither the directory nor a table. *)
Definition no_table (pg : gmap Z page) (pgdir a : Z) : Prop :=
  a ≠ pgdir ∧ ∀ i, 0 ≤ i < 1024 → mapped_dir pg pgdir i = true → a ≠ table pg pgdir i.

(** The pages of the user part are pages of their own. *)
Record as_ok (pg : gmap Z page) (pgdir : Z) (free : list Z) : Prop := {
  as_pt : pt_ok kend pg pgdir free;
  as_user : ∀ va, user va → up pg pgdir va = true →
    good_page kend (frame pg pgdir va) ∧ has_page pg (frame pg pgdir va) ∧ frame pg pgdir va ∉ free ∧ no_table pg pgdir (frame pg pgdir va);
  as_inj : ∀ va va', user va → user va' → up pg pgdir va = true → up pg pgdir va' = true →
    frame pg pgdir va = frame pg pgdir va' → va / 4096 = va' / 4096
}.

(** Changing pages outside the tables. *)
Lemma tables_ext pg pg' pgdir free free' :
  pt_ok kend pg pgdir free → pg' !! pgdir = pg !! pgdir →
  (∀ i, 0 ≤ i < 1024 → mapped_dir pg pgdir i = true → pg' !! table pg pgdir i = pg !! table pg pgdir i) →
  (∀ a, a ∈ free' → a ∈ free ∨ no_table pg pgdir a) →
  pt_ok kend pg' pgdir free' ∧ (∀ va, pte_of pg' pgdir va = pte_of pg pgdir va) ∧
  ∀ i, mapped_dir pg' pgdir i = mapped_dir pg pgdir i ∧ table pg' pgdir i = table pg pgdir i.
Proof using Type.
  intros O Hd Ht Hf. assert (∀ i, wd pg' pgdir i = wd pg pgdir i) as Hw by (intros i; unfold wd; by rewrite Hd).
  assert (∀ i, mapped_dir pg' pgdir i = mapped_dir pg pgdir i ∧ table pg' pgdir i = table pg pgdir i) as Hmt
    by (intros i; unfold mapped_dir, table; by rewrite !Hw).
  split_and!; [split| |done].
  - destruct (pt_dir _ _ _ _ O) as (D1 & (d & D2 & D3) & D4). split_and!; [done|exists d; by rewrite Hd|].
    intros Hin. destruct (Hf _ Hin) as [|[? _]]; done.
  - intros i Hi. destruct (Hmt i) as [-> ->]. intros Hm. destruct (pt_tab _ _ _ _ O i Hi Hm) as (T1 & (d & T2 & T2') & T3 & T4).
    split_and!; [done|exists d; by rewrite Ht| |done]. intros Hin. destruct (Hf _ Hin) as [|[_ Hn]]; [done|]. by apply (Hn i).
  - intros i j Hi Hj. destruct (Hmt i) as [-> ->], (Hmt j) as [-> ->]. by apply (pt_inj _ _ _ _ O).
  - intros va. unfold pte_of. destruct (Hmt (PDX va)) as [-> ->]. destruct (mapped_dir pg pgdir (PDX va)) eqn:Hm; [|done].
    unfold wd. rewrite Ht; [done|apply PDX_range|done].
Qed.

(** [walkpgdir] without allocation only looks. *)
Lemma walk_look k free pgdir va :
  pt_ok kend (k_pages k) pgdir free →
  walkpgdir pgdir va false k = Ok (if mapped_dir (k_pages k) pgdir (PDX va) then table (k_pages k) pgdir (PDX va) + 4 * PTX va else 0, k).
Proof using Type.
  intros O. destruct (pt_dir _ _ _ _ O) as (Hg & Hpg & _). unfold walkpgdir.
  rewrite (bind_ok _ _ _ _ _ (ld_word_run k pgdir (PDX va) (good_align _ _ Hg) (PDX_range va) Hpg)).
  unfold mapped_dir. by destruct (present (wd (k_pages k) pgdir (PDX va))).
Qed.

(** *** Freeing a page *)

Lemma present_zero : present (0 mod two32) = false.
Proof using Type. done. Qed.

Lemma unmap_one k free pgdir a :
  kinv kend k free → as_ok (k_pages k) pgdir free → user a → up (k_pages k) pgdir a = true →
  let t := table (k_pages k) pgdir (PDX a) in
  wp (kfree kend (frame (k_pages k) pgdir a);; st_word (t + 4 * PTX a) 0) (λ _ k',
    kinv kend k' (frame (k_pages k) pgdir a :: free) ∧ as_ok (k_pages k') pgdir (frame (k_pages k) pgdir a :: free) ∧
    (∀ va, is_u32 va → pte_of (k_pages k') pgdir va = if decide (va / 4096 = a / 4096) then 0 else pte_of (k_pages k) pgdir va) ∧
    (∀ b, b ≠ frame (k_pages k) pgdir a → no_table (k_pages k) pgdir b → k_pages k' !! b = k_pages k !! b) ∧
    (∀ b, no_table (k_pages k) pgdir b → no_table (k_pages k') pgdir b) ∧
    (∀ i, 0 ≤ i < 1024 → mapped_dir (k_pages k') pgdir i = mapped_dir (k_pages k) pgdir i ∧ table (k_pages k') pgdir i = table (k_pages k) pgdir i)) k.
Proof using Type.
  intros I A Ha Hup t. destruct (as_user _ _ _ A a Ha Hup) as (F1 & F2 & F3 & F4). set (f := frame (k_pages k) pgdir a) in *.
  pose proof (as_pt _ _ _ A) as O. apply wp_bind. wcall (kfree_spec kend k free f I F1 F3).
  { destruct F2 as (d & -> & _). done. }
  intros [] k1 (I1 & Hp1 & Hdom & _).
  destruct (tables_ext (k_pages k) (k_pages k1) pgdir free (f :: free) O) as (O1 & Hpte & Hmt).
  { apply Hp1. intros E. by apply (proj1 F4). }
  { intros i Hi Hm. apply Hp1. intros E. by apply (proj2 F4 i Hi Hm). }
  { intros b [->|Hb]%elem_of_cons; [by right|by left]. }
  assert (mapped_dir (k_pages k1) pgdir (PDX a) = true) as Hm1.
  { destruct (Hmt (PDX a)) as [-> _]. unfold up, pte_of in Hup. by destruct (mapped_dir (k_pages k) pgdir (PDX a)). }
  assert (table (k_pages k1) pgdir (PDX a) = t) as Et by apply Hmt.
  pose proof (PDX_range a) as Hx. pose proof (PTX_range a) as Hy. destruct (pt_tab _ _ _ _ O1 _ Hx Hm1) as (T1 & T2 & T3 & T4).
  rewrite Et in T1, T2, T3, T4.
  eapply wp_eq; [apply st_word_run; [by eapply good_align|done|done]|].
  destruct (set_pte_ok kend k1 pgdir (f :: free) a 0 O1 Hm1 (user_u32 a Ha)) as [O2 M2].
  pose proof (set_pte_grown kend k1 pgdir (f :: free) a 0 O1 Hm1) as R2. rewrite Et in O2, M2, R2. set (k2 := put_word _ _ _ _) in *.
  assert (∀ va, is_u32 va → pte_of (k_pages k2) pgdir va = if decide (va / 4096 = a / 4096) then 0 else pte_of (k_pages k) pgdir va) as Hp2.
  { intros va Hva. rewrite M2, Hpte by done. done. }
  assert (∀ b, b ≠ f → no_table (k_pages k) pgdir b → k_pages k2 !! b = k_pages k !! b) as Hk2.
  { intros b Hb [N1 N2]. rewrite <-Hp1 by done. unfold k2, put_word. simpl. rewrite lookup_insert_ne; [done|].
    intros E. apply (N2 (PDX a) Hx); [by rewrite <-(proj1 (Hmt _))|]. done. }
  assert (∀ va, user va → up (k_pages k2) pgdir va = true →
    va / 4096 ≠ a / 4096 ∧ up (k_pages k) pgdir va = true ∧ frame (k_pages k2) pgdir va = frame (k_pages k) pgdir va) as Hold.
  { intros va Hva. unfold up, frame. rewrite Hp2 by by apply user_u32. case_decide; [done|]. done. }
  assert (∀ b, no_table (k_pages k) pgdir b → no_table (k_pages k2) pgdir b) as Hnt.
  { intros b [N1 N2]. split; [done|]. intros i Hi Hm. destruct (gt_tabs _ _ _ _ R2 i Hi Hm) as [[H1 ->]|Hin].
    - destruct (Hmt i) as [E1 ->]. apply N2; [done|]. by rewrite <-E1.
    - destruct (pt_tab _ _ _ _ O2 i Hi Hm) as (_ & _ & H3 & _). done. }
  assert (∀ i, 0 ≤ i < 1024 → mapped_dir (k_pages k2) pgdir i = mapped_dir (k_pages k) pgdir i ∧ table (k_pages k2) pgdir i = table (k_pages k) pgdir i) as Hmd.
  { intros i Hi. destruct (Hmt i) as [<- <-]. assert (wd (k_pages k2) pgdir i = wd (k_pages k1) pgdir i) as E; [|unfold mapped_dir, table; by rewrite E].
    unfold k2. rewrite wd_put by done. rewrite decide_False; [done|]. by intros [? _]. }
  split_and!; [by apply kinv_put| |exact Hp2|exact Hk2|exact Hnt|exact Hmd]. split; [done| |].
  - intros va Hva Hu. destruct (Hold va Hva Hu) as (Hne & Hu' & ->). destruct (as_user _ _ _ A va Hva Hu') as (U1 & U2 & U3 & U4).
    assert (frame (k_pages k) pgdir va ≠ f) as Hff by (intros E; by apply Hne, (as_inj _ _ _ A)).
    split_and!; [done| | |].
    + destruct U2 as (d & Hd & Hl). exists d. split; [|done]. by rewrite Hk2.
    + by apply not_elem_of_cons.
    + by apply Hnt.
  - intros va va' Hva Hva' Hu Hu'. destruct (Hold va Hva Hu) as (_ & H1 & ->), (Hold va' Hva' Hu') as (_ & H2 & ->). by apply (as_inj _ _ _ A).
Qed.

(** Addresses of a page share their entry. *)
Lemma pte_same_page pg pgdir va va' : va / 4096 = va' / 4096 → pte_of pg pgdir va = pte_of pg pgdir va'.
Proof using Type.
  intros E. unfold pte_of. assert (PDX va = PDX va' ∧ PTX va = PTX va') as [-> ->]; [|done].
  rewrite !PDX_val, !PTX_val, E. split; [|done]. zify; Z.to_euclidean_division_equations; lia.
Qed.

(** *** [deallocuvm] *)

(** The pages whose first byte lies in [lo, hi). *)
Definition in_range (lo hi va : Z) : Prop := lo ≤ 4096 * (va / 4096) < hi.
#[local] Instance in_range_dec lo hi va : Decision (in_range lo hi va).
Proof using Type. unfold in_range. apply _. Defined.

Lemma PGROUNDUP_val a : 0 ≤ a ≤ KERNBASE → PGROUNDUP a = 4096 * ((a + 4095) / 4096).
Proof using Type.
  intros Ha. unfold PGROUNDUP, PGSIZE. rewrite u32_small by (unfold is_u32, two32, KERNBASE in *; lia).
  replace (a + 4096 - 1) with (a + 4095) by lia. apply land_lnot_4095.
Qed.

Lemma skip_table a : user a → u32 (u32 (PGADDR (PDX a + 1) 0 0 - PGSIZE) + PGSIZE) = 4194304 * (a / 4194304 + 1).
Proof using Type.
  unfold user, KERNBASE. intros Ha. assert (PDX a = a / 4194304) as E.
  { rewrite PDX_val. apply Z.mod_small. zify. Z.to_euclidean_division_equations. lia. }
  unfold PGADDR. rewrite E, Z.shiftl_0_l, !Z.lor_0_r, Z.shiftl_mul_pow2 by lia. change (2 ^ 22) with 4194304. unfold PGSIZE.
  assert (0 ≤ a / 4194304 < 512) by (zify; Z.to_euclidean_division_equations; lia).
  rewrite (u32_small ((a / 4194304 + 1) * 4194304)) by (unfold is_u32, two32; lia).
  rewrite (u32_small (_ - 4096)) by (unfold is_u32, two32; lia). rewrite u32_small by (unfold is_u32, two32; lia). lia.
Qed.

(** What removing the pages in a range leaves. *)
Record unmapped (k k' : kmem) (pgdir lo hi : Z) (free : list Z) : Prop := {
  um_free : ∃ l, kinv kend k' (l ++ free) ∧ as_ok (k_pages k') pgdir (l ++ free) ∧
    ∀ b, b ∈ l ↔ ∃ va, user va ∧ in_range lo hi va ∧ up (k_pages k) pgdir va = true ∧ frame (k_pages k) pgdir va = b;
  um_gone : ∀ va, user va → in_range lo hi va → up (k_pages k') pgdir va = false;
  um_keep : ∀ va, is_u32 va → ¬ in_range lo hi va → pte_of (k_pages k') pgdir va = pte_of (k_pages k) pgdir va;
  um_data : ∀ b, no_table (k_pages k) pgdir b →
    (∀ va, user va → in_range lo hi va → up (k_pages k) pgdir va = true → frame (k_pages k) pgdir va ≠ b) →
    k_pages k' !! b = k_pages k !! b;
  um_tabs : ∀ b, no_table (k_pages k) pgdir b → no_table (k_pages k') pgdir b;
  um_dirs : ∀ i, 0 ≤ i < 1024 → mapped_dir (k_pages k') pgdir i = mapped_dir (k_pages k) pgdir i ∧ table (k_pages k') pgdir i = table (k_pages k) pgdir i
}.

Lemma unmapped_refl k pgdir lo free :
  kinv kend k free → as_ok (k_pages k) pgdir free → unmapped k k pgdir lo lo free.
Proof using Type.
  intros I A. split; try done.
  - exists []. split_and!; [done|done|]. intros b. split; [by intros ?%elem_of_nil|]. intros (va & _ & [? ?] & _). lia.
  - intros va _ [? ?]. lia.
Qed.

(** Going on past pages that are not present. *)
Lemma unmapped_skip k k' pgdir lo hi hi' free :
  unmapped k k' pgdir lo hi free → hi ≤ hi' →
  (∀ va, user va → hi ≤ 4096 * (va / 4096) < hi' → up (k_pages k') pgdir va = false) → unmapped k k' pgdir lo hi' free.
Proof using Type.
  intros [(l & U1 & U2 & U3) G K Dt Tb Td] Hle Habs. split; try done.
  - exists l. split_and!; [done|done|]. intros b. rewrite U3. split; intros (va & Hva & Hr & Hu & E); exists va; (split_and!; [done| |done|done]).
    + unfold in_range in *. lia.
    + destruct (decide (in_range lo hi va)) as [|Hn]; [done|]. exfalso. assert (up (k_pages k') pgdir va = false) as Hf by (apply Habs; [done|]; unfold in_range in *; lia).
      revert Hf. unfold up in *. rewrite K by (done || by apply user_u32). congruence.
  - intros va Hva Hr. destruct (decide (in_range lo hi va)) as [|Hn]; [by apply G|]. apply Habs; [done|]. unfold in_range in *. lia.
  - intros va Hva Hn. apply K; [done|]. unfold in_range in *. lia.
  - intros b Hb Hf. apply Dt; [done|]. intros va Hva [? ?]. apply Hf; [done|]. split; lia.
Qed.

Lemma deallocuvm_spec k free pgdir old new :
  kinv kend k free → as_ok (k_pages k) pgdir free → 0 ≤ new < old → old ≤ KERNBASE →
  wp (deallocuvm kend pgdir old new) (λ r k', r = new ∧ unmapped k k' pgdir (PGROUNDUP new) old free) k.
Proof using Hkend.
  intros I A Hn Ho. unfold deallocuvm. destruct (Z.leb_spec old new); [lia|].
  assert (PGROUNDUP new = 4096 * ((new + 4095) / 4096)) as Elo by (apply PGROUNDUP_val; unfold KERNBASE in *; lia).
  set (lo := PGROUNDUP new) in *. clearbody lo.
  assert (new ≤ lo < new + 4096) as Hlo by (rewrite Elo; zify; Z.to_euclidean_division_equations; lia).
  apply (wp_loop (λ n a k', n = Z.to_nat ((old - a + 4095) / 4096) ∧ a mod 4096 = 0 ∧ lo ≤ a ≤ KERNBASE + 4194304 ∧
    unmapped k k' pgdir lo (Z.max lo (Z.min a old)) free)) with (n := Z.to_nat ((old - lo + 4095) / 4096)).
  - intros n a k1 (-> & Hal & Hla & U). destruct (Z.ltb_spec a old) as [Hlt|Hge].
    2: { apply wp_ret. split; [done|]. destruct (decide (lo ≤ old)); [by replace (Z.max lo (Z.min a old)) with old in U by lia|].
         replace (Z.max lo (Z.min a old)) with lo in U by lia. destruct U as [(l & U1 & U2 & U3) G K Dt Tb Td].
         split; [|intros va _ [? ?]; lia| | |done|done].
         - exists l. split_and!; [done|done|]. intros b. rewrite U3. split; intros (va & _ & [? ?] & _); lia.
         - intros va Hva _. apply K; [done|]. unfold in_range. lia.
         - intros b Hb _. apply Dt; [done|]. intros va _ [? ?]. lia. }
    replace (Z.max lo (Z.min a old)) with a in U by lia.
    pose proof U as [(l & I1 & A1 & L1) G K Dt Tb Td]. pose proof (as_pt _ _ _ A1) as O1.
    assert (user a) as Hua by (unfold user, KERNBASE in *; lia).
    apply wp_bind. eapply wp_eq; [by eapply walk_look|].
    destruct (mapped_dir (k_pages k1) pgdir (PDX a)) eqn:Hm; cycle 1.
    { simpl. apply wp_ret. rewrite skip_table by done. eexists. split; [|split; [done|]; split_and!].
      - assert (a < 4194304 * (a / 4194304 + 1)) by (zify; Z.to_euclidean_division_equations; lia).
        zify; Z.to_euclidean_division_equations; lia.
      - zify; Z.to_euclidean_division_equations; lia.
      - zify; Z.to_euclidean_division_equations; lia.
      - unfold KERNBASE in *. zify; Z.to_euclidean_division_equations; lia.
      - eapply unmapped_skip; [exact U|zify; Z.to_euclidean_division_equations; lia|]. intros va Hva Hr.
        unfold up, pte_of. assert (PDX va = PDX a) as ->; [|by rewrite Hm]. rewrite !PDX_val.
        unfold user, KERNBASE in *. zify; Z.to_euclidean_division_equations; lia. }
    pose proof (PDX_range a) as Hx. pose proof (PTX_range a) as Hy. destruct (pt_tab _ _ _ _ O1 _ Hx Hm) as (T1 & T2 & T3 & T4).
    assert (table (k_pages k1) pgdir (PDX a) + 4 * PTX a ≠ 0) as Hnz by (destruct T1 as [_ _ Hh]; unfold KERNBASE in Hh; lia).
    rewrite (proj2 (Z.eqb_neq _ _)) by done. apply wp_bind.
    eapply wp_eq; [apply ld_word_run; [by eapply good_align|done|done]|].
    assert (wd (k_pages k1) (table (k_pages k1) pgdir (PDX a)) (PTX a) = pte_of (k_pages k1) pgdir a) as Ew by (unfold pte_of; by rewrite Hm).
    rewrite Ew. assert (u32 (a + PGSIZE) = a + 4096) as Ea by (apply u32_small; unfold is_u32, two32, KERNBASE, PGSIZE in *; lia).
    assert (∀ va, 4096 * (va / 4096) = a ↔ va / 4096 = a / 4096) as Hpg by (intros va; zify; Z.to_euclidean_division_equations; lia).
    apply wp_bind. destruct (present (pte_of (k_pages k1) pgdir a)) eqn:Hp.
    + destruct (as_user _ _ _ A1 a Hua Hp) as (F1 & _). assert (PTE_ADDR (pte_of (k_pages k1) pgdir a) ≠ 0) as Hpz.
      { intros E. unfold frame in F1. rewrite E in F1. destruct F1 as [_ F _]. unfold P2V in F. simpl in F. unfold KERNBASE in *. rewrite u32_small in F by (unfold is_u32, two32; lia). lia. }
      rewrite (proj2 (Z.eqb_neq _ _)) by done.
      wcall (unmap_one k1 (l ++ free) pgdir a I1 A1 Hua Hp). intros [] k2 (I2 & A2 & P2 & D2 & N2 & M2). apply wp_ret. rewrite Ea.
      eexists. split; [|split; [done|]; split_and!; [| lia| |]].
      * zify; Z.to_euclidean_division_equations; lia.
      * zify; Z.to_euclidean_division_equations; lia.
      * unfold KERNBASE in *. lia.
      * assert (frame (k_pages k1) pgdir a = frame (k_pages k) pgdir a ∧ up (k_pages k) pgdir a = true) as [Ef Eu].
        { unfold frame, up in *. rewrite <-K; [done|by apply user_u32|]. intros [? ?]. assert (4096 * (a / 4096) = a) by by apply Hpg. lia. }
        assert (in_range lo (Z.max lo (Z.min (a + 4096) old)) a) as Hra by (split; [|]; assert (4096 * (a / 4096) = a) by (by apply Hpg); lia).
        split.
        -- exists (frame (k_pages k1) pgdir a :: l). split_and!; [done|done|]. intros b. rewrite elem_of_cons, L1. split.
           ++ intros [->|(va & ? & [? ?] & ? & ?)]; [by exists a|]. exists va. split_and!; try done. split; lia.
           ++ intros (va & Hva & Hr & Hu & <-). destruct (decide (va / 4096 = a / 4096)) as [E|E].
              ** left. rewrite Ef. unfold frame. by rewrite (pte_same_page _ _ va a E).
              ** right. exists va. split_and!; try done. rewrite <-Hpg in E. unfold in_range in *.
                 assert (4096 * (va / 4096) < a ∨ a + 4096 ≤ 4096 * (va / 4096)) by (zify; Z.to_euclidean_division_equations; lia). lia.
        -- intros va Hva Hr. unfold up. rewrite P2 by by apply user_u32. case_decide as E; [done|]. apply G; [done|].
           rewrite <-Hpg in E. unfold in_range in *. assert (4096 * (va / 4096) < a ∨ a + 4096 ≤ 4096 * (va / 4096)) by (zify; Z.to_euclidean_division_equations; lia). lia.
        -- intros va Hva Hr. rewrite P2 by done. case_decide as E.
           ++ apply Hpg in E. destruct Hr. unfold in_range in *. rewrite E. assert (4096 * (a / 4096) = a) as E' by by apply Hpg. rewrite E' in Hra. exact Hra.
           ++ apply K; [done|]. intros [? ?]. apply Hr. split; lia.
        -- intros b Hb Hf. rewrite D2; [|rewrite Ef; intros ->; by apply (Hf a)|by apply Tb].
           apply Dt; [done|]. intros va Hva [? ?]. apply Hf; [done|]. split; lia.
        -- intros b Hb. by apply N2, Tb.
        -- intros i Hi. destruct (M2 i Hi) as [-> ->]. by apply Td.
    + apply wp_ret, wp_ret. rewrite Ea. eexists. split; [|split; [done|]; split_and!; [| lia| |]].
      * zify; Z.to_euclidean_division_equations; lia.
      * zify; Z.to_euclidean_division_equations; lia.
      * unfold KERNBASE in *. lia.
      * eapply unmapped_skip; [exact U|lia|]. intros va Hva Hr.
        assert (va / 4096 = a / 4096) as E by (zify; Z.to_euclidean_division_equations; lia).
        unfold up. by rewrite (pte_same_page _ _ _ _ E).
  - unfold PGSIZE. zify; Z.to_euclidean_division_equations; lia.
  - split_and!; try done; try (unfold KERNBASE in *; lia).
    + rewrite Elo, Z.mul_comm. apply Z.mod_mul. lia.
    + destruct (decide (lo ≤ old)).
      * replace (Z.max lo (Z.min lo old)) with lo by lia. by apply unmapped_refl.
      * replace (Z.max lo (Z.min lo old)) with lo by lia. by apply unmapped_refl.
Qed.

(** *** [allocuvm] *)

Lemma user_pte mem : good_page kend mem → let e := Z.lor (Z.lor (V2P mem) (Z.lor PTE_W PTE_U)) PTE_P in
  present e = true ∧ P2V (PTE_ADDR e) = mem ∧ PTE_FLAGS e = 7.
Proof using Type.
  intros Hg e. destruct (P2V_V2P kend mem Hg) as (E & Hal & Hr). assert (e = V2P mem + 7) as ->.
  { unfold e, PTE_P, PTE_W, PTE_U. rewrite <-Z.lor_assoc. change (Z.lor (Z.lor 2 4) 1) with 7. apply lor_aligned; [done|lia]. }
  split_and!.
  - rewrite present_odd, Z.odd_add. change (Z.odd 7) with true.
    assert (Z.odd (V2P mem) = false) as ->; [|done]. rewrite <-Z.negb_even. apply negb_false_iff, Z.even_spec.
    exists (V2P mem / 2). zify. Z.to_euclidean_division_equations. lia.
  - rewrite PTE_ADDR_val. rewrite <-E at 2. f_equal. zify. Z.to_euclidean_division_equations. lia.
  - unfold PTE_FLAGS. change 4095 with (Z.ones 12). rewrite Z.land_ones by lia. change (2 ^ 12) with 4096.
    zify. Z.to_euclidean_division_equations. lia.
Qed.

Section map_user_page.
Context (k : kmem) (pgdir a mem : Z) (f : list Z).
Hypothesis I : kinv kend k f.
Hypothesis A : as_ok (k_pages k) pgdir (mem :: f).
Hypothesis Hmem : good_page kend mem ∧ has_page (k_pages k) mem ∧ mem ∉ f.
Hypothesis Ha : a mod 4096 = 0 ∧ user a.
Hypothesis Habs : up (k_pages k) pgdir a = false.

#[local] Lemma mem_no_table : no_table (k_pages k) pgdir mem.
Proof using A.
  pose proof (as_pt _ _ _ A) as O. split.
  - destruct (pt_dir _ _ _ _ O) as (_ & _ & H). intros E. apply H. rewrite <-E. left.
  - intros i Hi Hm E. destruct (pt_tab _ _ _ _ O i Hi Hm) as (_ & _ & H & _). apply H. rewrite <-E. left.
Qed.

#[local] Lemma A_weak : as_ok (k_pages k) pgdir f.
Proof using A Hmem.
  destruct A as [O U J]. split; [|intros va Hva Hu; destruct (U va Hva Hu) as (U1 & U2 & U3 & U4); split_and!; try done; intros H; apply U3; by right|done].
  destruct O as [O1 O2 O3]. split; [|intros i Hi Hm; destruct (O2 i Hi Hm) as (T1 & T2 & T3 & T4); split_and!; try done; intros H; apply T3; by right|done].
  destruct O1 as (O4 & O5 & O6). split_and!; try done. intros H. apply O6. by right.
Qed.

#[local] Lemma same_page_pte va : user va → va / 4096 = a / 4096 → pte_of (k_pages k) pgdir va = pte_of (k_pages k) pgdir a.
Proof using Ha.
  intros Hva E. unfold pte_of. assert (PDX va = PDX a ∧ PTX va = PTX a) as [-> ->]; [|done].
  rewrite !PDX_val, !PTX_val, E. split; [|done]. zify; Z.to_euclidean_division_equations; lia.
Qed.

Lemma map_user_page :
  wp (mappages pgdir a PGSIZE (V2P mem) (Z.lor PTE_W PTE_U)) (λ r k', ∃ f', kinv kend k' f' ∧ f' `suffix_of` f ∧ as_ok (k_pages k') pgdir f' ∧
    (∀ b, b ∉ f → no_table (k_pages k) pgdir b → k_pages k' !! b = k_pages k !! b ∧ no_table (k_pages k') pgdir b) ∧
    (r = 0 ∧ (∀ va, is_u32 va → pte_of (k_pages k') pgdir va =
        if decide (va / 4096 = a / 4096) then Z.lor (Z.lor (V2P mem) (Z.lor PTE_W PTE_U)) PTE_P else pte_of (k_pages k) pgdir va) ∨
     r = -1 ∧ ∀ va, is_u32 va → pte_of (k_pages k') pgdir va = pte_of (k_pages k) pgdir va)) k.
Proof using All.
  destruct Hmem as (Hg & Hpm & Hnf), Ha as [Hal Hua]. destruct (P2V_V2P kend mem Hg) as (EV & HV & HVr).
  pose proof A_weak as A'. pose proof mem_no_table as Hmt. pose proof (user_u32 a Hua) as Ha32.
  assert ((a + PGSIZE - 1) / 4096 - a / 4096 + 1 = 1) as Enp by (unfold PGSIZE; zify; Z.to_euclidean_division_equations; lia).
  wcall (mappages_spec kend k f pgdir a PGSIZE (V2P mem) (Z.lor PTE_W PTE_U) I (as_pt _ _ _ A')).
  - unfold user, KERNBASE, two32, PGSIZE in *. lia.
  - rewrite Enp. unfold PHYSTOP, two32 in *. lia.
  - change (Z.lor PTE_W PTE_U) with 6. lia.
  - rewrite Enp. intros va' Hva'. assert (va' / 4096 = a / 4096) as E by lia. unfold up in Habs. rewrite <-Habs. f_equal.
    apply same_page_pte; [|done]. unfold user, KERNBASE in *. zify; Z.to_euclidean_division_equations; lia.
  - intros r k'. rewrite Enp. intros Hr.
    assert (∃ j, 0 ≤ j ≤ 1 ∧ mapped_upto kend k f pgdir a (V2P mem) (Z.lor PTE_W PTE_U) j k' ∧ (r = 0 ∧ j = 1 ∨ r = -1 ∧ j = 0)) as (j & Hj & MU & Hrj).
    { destruct Hr as [[-> MU]|(-> & j & Hj & MU & _)]; [exists 1|exists j]; split_and!; try done; try lia. }
    clear Hr. destruct MU as [(f' & I' & O' & S') M' R'].
    assert (∀ va, is_u32 va → pte_of (k_pages k') pgdir va = if decide (va / 4096 = a / 4096 ∧ j = 1)
      then Z.lor (Z.lor (V2P mem) (Z.lor PTE_W PTE_U)) PTE_P else pte_of (k_pages k) pgdir va) as Hpte.
    { intros va Hva. rewrite M' by done. destruct (decide (va / 4096 = a / 4096 ∧ j = 1)) as [[E ->]|E].
      - rewrite decide_True by lia. unfold range_pte. do 3 f_equal. lia.
      - rewrite decide_False; [done|]. intros H. apply E. lia. }
    assert (∀ b, b ∉ f → no_table (k_pages k) pgdir b → k_pages k' !! b = k_pages k !! b ∧ no_table (k_pages k') pgdir b) as Hk.
    { intros b Hb [N1 N2]. split; [by apply (gt_keep _ _ _ _ R')|]. split; [done|]. intros i Hi Hm.
      destruct (gt_tabs _ _ _ _ R' i Hi Hm) as [[H1 ->]|Hin]; [by apply N2|]. by intros ->. }
    exists f'. split_and!; try done.
    + destruct (user_pte mem Hg) as (P1 & P2 & _). split; [done| |].
      * intros va Hva. unfold up, frame. rewrite Hpte by by apply user_u32.
        destruct (decide (va / 4096 = a / 4096 ∧ j = 1)) as [E|E].
        -- intros _. rewrite P2. destruct (Hk mem Hnf Hmt) as [K1 K2]. split_and!; [done| |by intros H; eapply Hnf, suffix_elem|done].
           destruct Hpm as (d & Hd & Hl). exists d. by rewrite K1.
        -- fold (up (k_pages k) pgdir va) (frame (k_pages k) pgdir va). intros Hu. destruct (as_user _ _ _ A va Hva Hu) as (U1 & (d & U2 & U2') & U3 & U4). apply not_elem_of_cons in U3 as [_ U3].
           destruct (Hk _ U3 U4) as [K1 K2]. split_and!; [done|exists d; by rewrite K1|by intros H; eapply U3, suffix_elem|done].
      * intros va va' Hva Hva'. unfold up, frame. rewrite !Hpte by by apply user_u32.
        destruct (decide (va / 4096 = a / 4096 ∧ j = 1)), (decide (va' / 4096 = a / 4096 ∧ j = 1)); rewrite ?P2; try lia.
        -- intros _ Hu E. destruct (as_user _ _ _ A va' Hva' Hu) as (_ & _ & U3 & _). apply not_elem_of_cons in U3 as [U3 _]. by destruct U3.
        -- intros Hu _ E. destruct (as_user _ _ _ A va Hva Hu) as (_ & _ & U3 & _). apply not_elem_of_cons in U3 as [U3 _]. by destruct U3.
        -- by apply (as_inj _ _ _ A).
    + destruct Hrj as [[-> ->]|[-> ->]]; [left|right]; (split; [done|]); intros va Hva; rewrite Hpte by done.
      * destruct (decide (va / 4096 = a / 4096)); [by rewrite decide_True|rewrite decide_False; [done|]]. by intros [? _].
      * rewrite decide_False; [done|]. by intros [_ ?].
Qed.
End map_user_page.
End user.

Close Scope Z_scope.
