(* ===== verification/VmAlloc.v ===== *)
(** * Growing an address space ([allocuvm] of [src/xv6-public/vm.c])

    The loop of [allocuvm] over the pages of the new range, and its two
    failure paths: no memory for the page, no memory for a page table. *)

From S2P Require Import Prelude.
From S2P Require Import Words.
From S2P Require Import Kalloc.
From S2P Require Import Vm.
From S2P Require Import VmMap.
From S2P Require Import VmUser.

Open Scope Z_scope.

Section alloc.
Context (kend : Z) (Hkend : KERNBASE < kend).

(** Pages of the free list are neither tables nor frames. *)
Lemma free_no_table pg pgdir free b : as_ok kend pg pgdir free → b ∈ free → no_table pg pgdir b.
Proof using Type.
  intros A Hb. pose proof (as_pt _ _ _ _ A) as O. split.
  - destruct (pt_dir _ _ _ _ O) as (_ & _ & H). intros E. apply H. by rewrite <-E.
  - intros i Hi Hm E. destruct (pt_tab _ _ _ _ O i Hi Hm) as (_ & _ & H & _). apply H. by rewrite <-E.
Qed.

Lemma free_no_frame pg pgdir free b va : as_ok kend pg pgdir free → b ∈ free → user va → up pg pgdir va = true → frame pg pgdir va ≠ b.
Proof using Type. intros A Hb Hva Hu E. destruct (as_user _ _ _ _ A va Hva Hu) as (_ & _ & H & _). apply H. by rewrite E. Qed.

(** Writing or freeing a page that the address space does not use. *)
Lemma as_ok_other pg pg' pgdir free free' b :
  as_ok kend pg pgdir free → no_table pg pgdir b → (∀ va, user va → up pg pgdir va = true → frame pg pgdir va ≠ b) →
  (∀ c, c ≠ b → pg' !! c = pg !! c) → (∀ c, c ∈ free' → c ∈ free ∨ c = b) →
  as_ok kend pg' pgdir free' ∧ (∀ va, pte_of pg' pgdir va = pte_of pg pgdir va) ∧ ∀ c, no_table pg pgdir c → no_table pg' pgdir c.
Proof using Type.
  intros A [B1 B2] Hb Hpg Hf.
  destruct (tables_ext kend pg pg' pgdir free free' (as_pt _ _ _ _ A)) as (O & P & T).
  { apply Hpg. by intros <-. }
  { intros i Hi Hm. apply Hpg. intros E. by apply (B2 i Hi Hm). }
  { intros c Hc. destruct (Hf c Hc) as [|E]; [by left|]. right. by rewrite E. }
  assert (∀ c, no_table pg pgdir c → no_table pg' pgdir c) as N.
  { intros c [N1 N2]. split; [done|]. intros i Hi. destruct (T i) as [-> ->]. by apply N2. }
  split_and!; [split; [done| |]|done|done].
  - intros va Hva. unfold up, frame. rewrite P. fold (up pg pgdir va) (frame pg pgdir va). intros Hu.
    destruct (as_user _ _ _ _ A va Hva Hu) as (U1 & (d & U2 & U2') & U3 & U4). split_and!; [done| | |by apply N].
    + exists d. split; [|done]. rewrite Hpg; [done|]. by apply Hb.
    + intros Hin. destruct (Hf _ Hin) as [|E]; [done|]. by apply (Hb va).
  - intros va va' Hva Hva'. unfold up, frame. rewrite !P. by apply (as_inj _ _ _ _ A).
Qed.

Section allocuvm.
Context (k0 : kmem) (f0 : list Z) (pgdir lo new : Z).
Hypothesis Hnew : new < KERNBASE.
Hypothesis Habs : ∀ va, user va → in_range lo new va → up (k_pages k0) pgdir va = false.

(** The pages from [lo] up to [a] have been added. *)
Record alloced (a : Z) (k : kmem) (f : list Z) : Prop := {
  al_kinv : kinv kend k f;
  al_as : as_ok kend (k_pages k) pgdir f;
  al_free : f `suffix_of` f0;
  al_new : ∀ va, user va → in_range lo a va → up (k_pages k) pgdir va = true ∧ PTE_FLAGS (pte_of (k_pages k) pgdir va) = 7 ∧
    frame (k_pages k) pgdir va ∈ f0 ∧ k_pages k !! frame (k_pages k) pgdir va = Some (fill_page 0);
  al_keep : ∀ va, is_u32 va → ¬ in_range lo a va → pte_of (k_pages k) pgdir va = pte_of (k_pages k0) pgdir va;
  al_data : ∀ b, b ∉ f0 → no_table (k_pages k0) pgdir b → k_pages k !! b = k_pages k0 !! b ∧ no_table (k_pages k) pgdir b
}.

(** A zeroed page that the address space does not use yet. *)
Lemma alloced_zero a k f mem k1 :
  alloced a k (mem :: f) → kinv kend k1 f → k_pages k1 = k_pages k →
  let k2 := set_page mem (fill_page 0) k1 in
  kinv kend k2 f ∧ as_ok kend (k_pages k2) pgdir (mem :: f) ∧ (∀ va, pte_of (k_pages k2) pgdir va = pte_of (k_pages k) pgdir va) ∧
  (good_page kend mem ∧ has_page (k_pages k2) mem ∧ mem ∉ f) ∧ (∀ b, b ≠ mem → k_pages k2 !! b = k_pages k !! b) ∧
  k_pages k2 !! mem = Some (fill_page 0) ∧ ∀ b, no_table (k_pages k) pgdir b → no_table (k_pages k2) pgdir b.
Proof using Type.
  intros [I A S N K D] I1 E k2. destruct (proj1 (NoDup_cons _ _) (ki_nodup _ _ _ I)) as [Hnf _].
  assert (∀ b, b ≠ mem → k_pages k2 !! b = k_pages k !! b) as Hne.
  { intros b Hb. simpl. rewrite lookup_insert_ne by done. by rewrite E. }
  assert (k_pages k2 !! mem = Some (fill_page 0)) as Heq by (simpl; by rewrite lookup_insert_eq).
  destruct (as_ok_other (k_pages k) (k_pages k2) pgdir (mem :: f) (mem :: f) mem A) as (A2 & P2 & N2); try done.
  { eapply free_no_table; [exact A|left]. }
  { intros va Hva Hu. eapply free_no_frame; [exact A|left|done|done]. }
  { intros c Hc. by left. }
  split_and!; try done.
  - by apply kinv_set_page.
  - apply (ki_good _ _ _ I). left.
  - exists (fill_page 0). split; [done|]. unfold fill_page. by rewrite length_replicate.
Qed.

(** One page more, or a failed attempt. *)
Lemma alloced_step (ok : bool) a k f mem k2 f3 k3 :
  a mod 4096 = 0 → lo ≤ a → user a → alloced a k (mem :: f) →
  (∀ va, pte_of (k_pages k2) pgdir va = pte_of (k_pages k) pgdir va) →
  (∀ b, b ≠ mem → k_pages k2 !! b = k_pages k !! b) → k_pages k2 !! mem = Some (fill_page 0) → as_ok kend (k_pages k2) pgdir (mem :: f) →
  (∀ b, no_table (k_pages k) pgdir b → no_table (k_pages k2) pgdir b) →
  kinv kend k3 f3 → f3 `suffix_of` f → as_ok kend (k_pages k3) pgdir f3 →
  (∀ b, b ∉ f → no_table (k_pages k2) pgdir b → k_pages k3 !! b = k_pages k2 !! b ∧ no_table (k_pages k3) pgdir b) →
  (∀ va, is_u32 va → pte_of (k_pages k3) pgdir va =
    if decide (ok ∧ va / 4096 = a / 4096) then Z.lor (Z.lor (V2P mem) (Z.lor PTE_W PTE_U)) PTE_P else pte_of (k_pages k2) pgdir va) →
  alloced (if ok then a + 4096 else a) k3 f3.
Proof using Type.
  intros Hal Hla Hua [I A S N K D] P2 H2 M2 A2 T2 I3 S3 A3 D3 P3.
  destruct (proj1 (NoDup_cons _ _) (ki_nodup _ _ _ I)) as [Hnf _]. assert (mem ∈ f0) as Hmf0 by (eapply suffix_elem; [exact S|left]).
  assert (good_page kend mem) as Hg by (apply (ki_good _ _ _ I); left). destruct (user_pte kend mem Hg) as (Q1 & Q2 & Q3).
  assert (∀ va, 4096 * (va / 4096) = a ↔ va / 4096 = a / 4096) as Hpg by (intros va; zify; Z.to_euclidean_division_equations; lia).
  split; try done.
  - transitivity f; [done|]. etransitivity; [|exact S]. by exists [mem].
  - intros va Hva Hr. unfold up, frame. rewrite !P3 by by apply user_u32. destruct (decide (ok ∧ va / 4096 = a / 4096)) as [E|E].
    + rewrite Q2. split_and!; [done|done|done|]. destruct (D3 mem Hnf) as [-> _]; [|done]. eapply free_no_table; [exact A2|left].
    + rewrite P2. fold (up (k_pages k) pgdir va) (frame (k_pages k) pgdir va). destruct (N va Hva) as (N1 & N2 & N3 & N4).
      { rewrite <-Hpg in E. unfold in_range in *. destruct ok; [|done]. assert (4096 * (va / 4096) ≠ a) as E' by (intros H; by apply E).
        clear -E' Hr Hal. zify; Z.to_euclidean_division_equations; lia. }
      destruct (as_user _ _ _ _ A va Hva N1) as (_ & _ & U3 & U4). apply not_elem_of_cons in U3 as [U3 U3'].
      split_and!; try done. destruct (D3 _ U3' (T2 _ U4)) as [-> _]. by rewrite H2.
  - intros va Hva Hr. rewrite P3 by done. destruct (decide (ok ∧ va / 4096 = a / 4096)) as [[Eok E]|E].
    + destruct Hr. apply Hpg in E. unfold in_range. destruct ok; [lia|done].
    + rewrite P2. apply K; [done|]. unfold in_range in *. destruct ok; lia.
  - intros b Hb Hnt. destruct (D b Hb Hnt) as [E1 E2]. assert (b ≠ mem) as Hbm by (intros E; apply Hb; by rewrite E).
    destruct (D3 b) as [E3 E4]; [intros H; apply Hb; eapply suffix_elem; [exact S|by right]|by apply T2|].
    split; [|done]. rewrite E3, H2 by done. done.
Qed.

(** The range is empty again. *)
Record rolled_back (k : kmem) : Prop := {
  rb_ok : ∃ f, kinv kend k f ∧ as_ok kend (k_pages k) pgdir f;
  rb_gone : ∀ va, user va → in_range lo new va → up (k_pages k) pgdir va = false;
  rb_keep : ∀ va, is_u32 va → ¬ in_range lo new va → pte_of (k_pages k) pgdir va = pte_of (k_pages k0) pgdir va;
  rb_data : ∀ b, b ∉ f0 → no_table (k_pages k0) pgdir b → k_pages k !! b = k_pages k0 !! b
}.

Lemma undo_alloc a k f k' : lo ≤ a → alloced a k f → unmapped kend k k' pgdir lo new f → a ≤ new → rolled_back k'.
Proof using Habs.
  intros Hla [I A S N K D] [(l & I' & A' & L) G K' D' _ _] Ha. split.
  - by exists (l ++ f).
  - done.
  - intros va Hva Hn. rewrite K' by done. apply K; [done|]. unfold in_range in *. lia.
  - intros b Hb Hnb. destruct (D b Hb Hnb) as [<- Hnt]. apply D'; [done|]. intros va Hva Hr Hu E.
    destruct (decide (in_range lo a va)) as [Hin|Hout].
    + destruct (N va Hva Hin) as (_ & _ & H & _). by rewrite E in H.
    + revert Hu. unfold up. rewrite K by (done || by apply user_u32). fold (up (k_pages k0) pgdir va). by rewrite Habs.
Qed.

Lemma rolled_back_free k k' l f mem :
  kinv kend k' (l ++ f) → as_ok kend (k_pages k') pgdir (l ++ f) → rolled_back k' →
  good_page kend mem → is_Some (k_pages k' !! mem) → mem ∈ f0 → mem ∉ l ++ f → no_table (k_pages k') pgdir mem →
  (∀ va, is_u32 va → ¬ in_range lo new va → pte_of (k_pages k') pgdir va = pte_of (k_pages k) pgdir va) →
  (∀ va, user va → up (k_pages k) pgdir va = true → frame (k_pages k) pgdir va ≠ mem) →
  wp (kfree kend mem) (λ _, rolled_back) k'.
Proof using Type.
  intros I A [_ G K D] Hg Hs Hm Hn Ht P Hfr. wcall (kfree_spec kend k' (l ++ f) mem I Hg Hn Hs). intros _ k4 (I4 & H4 & _).
  destruct (as_ok_other (k_pages k') (k_pages k4) pgdir (l ++ f) (mem :: l ++ f) mem A Ht) as (A4 & P4 & _); [|done| |].
  { intros va Hva Hu. destruct (decide (in_range lo new va)) as [Hr|Hr]; [rewrite G in Hu; done|].
    revert Hu. unfold up, frame. rewrite P by (done || by apply user_u32). by apply Hfr. }
  { intros c [->|Hc]%elem_of_cons; [by right|by left]. }
  split.
  - by exists (mem :: l ++ f).
  - intros va Hva Hr. unfold up. rewrite P4. by apply G.
  - intros va Hva Hr. rewrite P4. by apply K.
  - intros b Hb Hnt. rewrite H4 by (intros E; apply Hb; by rewrite E). by apply D.
Qed.

Lemma kinv_head k f mem : kinv kend k (mem :: f) → is_Some (k_pages k !! mem).
Proof using Type. intros [[_ (d & Hd & _)] _ _]. by exists d. Qed.

Lemma map_or_undo old a k f mem k2 :
  a mod 4096 = 0 → lo ≤ a → user a → a < new → 0 ≤ old < new ∧ PGROUNDUP old = lo → alloced a k (mem :: f) →
  kinv kend k2 f → as_ok kend (k_pages k2) pgdir (mem :: f) → (∀ va, pte_of (k_pages k2) pgdir va = pte_of (k_pages k) pgdir va) →
  good_page kend mem ∧ has_page (k_pages k2) mem ∧ mem ∉ f → (∀ b, b ≠ mem → k_pages k2 !! b = k_pages k !! b) →
  k_pages k2 !! mem = Some (fill_page 0) → (∀ b, no_table (k_pages k) pgdir b → no_table (k_pages k2) pgdir b) →
  wp (r ← mappages pgdir a PGSIZE (V2P mem) (Z.lor PTE_W PTE_U);
      if Z.ltb r 0 then
        deallocuvm kend pgdir new old;;
        kfree kend mem;;
        mret (inr 0)
      else mret (inl (u32 (a + PGSIZE))))
    (λ r k', match r with
      | inl a' => a' = a + 4096 ∧ ∃ f', alloced a' k' f'
      | inr r => r = 0 ∧ rolled_back k'
      end) k2.
Proof using Hkend Hnew Habs.
  intros Hal Hla Hua Hlt [Hold Er] AL I2 A2 P2 M2 H2 H2' T2. apply wp_bind.
  assert (up (k_pages k2) pgdir a = false) as Hup.
  { unfold up. rewrite P2, (al_keep _ _ _ AL); [|by apply user_u32|unfold in_range; zify; Z.to_euclidean_division_equations; lia].
    apply Habs; [done|]. unfold in_range. zify; Z.to_euclidean_division_equations; lia. }
  wcall (map_user_page kend Hkend k2 pgdir a mem f I2 A2 M2 (conj Hal Hua) Hup). intros r k3 (f3 & I3 & S3 & A3 & D3 & Hr).
  assert (∃ ok : bool, r = (if ok then 0 else -1) ∧ ∀ va, is_u32 va → pte_of (k_pages k3) pgdir va =
    if decide (ok ∧ va / 4096 = a / 4096) then Z.lor (Z.lor (V2P mem) (Z.lor PTE_W PTE_U)) PTE_P else pte_of (k_pages k2) pgdir va) as (ok & -> & P3).
  { destruct Hr as [[-> P]|[-> P]]; [exists true|exists false]; (split; [done|]); intros va Hva; rewrite P by done.
    - destruct (decide (va / 4096 = a / 4096)); [by rewrite decide_True|rewrite decide_False; [done|]]. by intros [_ ?].
    - rewrite decide_False; [done|]. by intros [? _]. }
  pose proof (alloced_step ok a k f mem k2 f3 k3 Hal Hla Hua AL P2 H2 H2' A2 T2 I3 S3 A3 D3 P3) as AL3. destruct ok; simpl.
  { apply wp_ret. rewrite u32_small by (unfold user, KERNBASE, is_u32, two32, PGSIZE in *; lia). unfold PGSIZE. eauto. }
  apply wp_bind. wcall (deallocuvm_spec kend Hkend k3 f3 pgdir new old I3 A3); [lia|lia|].
  intros _ k4 [_ U]. rewrite Er in U. assert (rolled_back k4) as R by (by eapply undo_alloc; [..|exact AL3|exact U|lia]).
  pose proof U as [(l & I4 & A4 & L4) G4 K4 D4 T4 _]. destruct M2 as (Hg & Hpm & Hnf).
  assert (∀ va, is_u32 va → pte_of (k_pages k3) pgdir va = pte_of (k_pages k2) pgdir va) as P3'.
  { intros va Hva. rewrite P3 by done. rewrite decide_False; [done|]. by intros [? _]. }
  assert (∀ va, user va → up (k_pages k3) pgdir va = true → frame (k_pages k3) pgdir va ≠ mem) as Hfr.
  { intros va Hva. unfold up, frame. rewrite P3' by by apply user_u32. intros Hu. eapply free_no_frame; [exact A2|left|done|done]. }
  destruct (D3 mem Hnf) as [E3 N3]; [eapply free_no_table; [exact A2|left]|].
  apply wp_bind. eapply wp_mono; [eapply (rolled_back_free k3 k4 l f3 mem); try done|].
  - rewrite D4; [by rewrite E3, H2'|done|]. intros va Hva _ Hu. by apply Hfr.
  - eapply suffix_elem; [exact (al_free _ _ _ AL)|left].
  - intros [Hin|Hin]%elem_of_app; [|by eapply Hnf, suffix_elem]. destruct (proj1 (L4 mem) Hin) as (va & Hva & _ & Hu & E). by apply (Hfr va).
  - by apply T4.
  - intros [] k5 R5. by apply wp_ret.
Qed.
End allocuvm.

Lemma allocuvm_spec k f pgdir old new :
  kinv kend k f → as_ok kend (k_pages k) pgdir f → 0 ≤ old ≤ new → new < KERNBASE →
  (∀ va, user va → in_range (PGROUNDUP old) new va → up (k_pages k) pgdir va = false) →
  wp (allocuvm kend pgdir old new) (λ r k', r = new ∧ (∃ f', alloced k f pgdir (PGROUNDUP old) new k' f') ∨
    r = 0 ∧ old < new ∧ rolled_back k f pgdir (PGROUNDUP old) new k') k.
Proof using Hkend.
  intros I A Ho Hn Habs. unfold allocuvm. destruct (Z.leb_spec KERNBASE new); [lia|]. destruct (Z.ltb_spec new old); [lia|].
  assert (PGROUNDUP old = 4096 * ((old + 4095) / 4096)) as Elo by (apply PGROUNDUP_val; unfold KERNBASE in *; lia).
  set (lo := PGROUNDUP old) in *. clearbody lo.
  assert (old ≤ lo < old + 4096 ∧ lo mod 4096 = 0) as [Hlo Hlal] by (rewrite Elo; zify; Z.to_euclidean_division_equations; lia).
  apply (wp_loop (λ n a k', n = Z.to_nat ((new - a + 4095) / 4096) ∧ a mod 4096 = 0 ∧ lo ≤ a ∧ a < KERNBASE + 4096 ∧
    (a < new + 4096 ∨ a = lo) ∧ ∃ f', alloced k f pgdir lo a k' f')) with (n := Z.to_nat ((new - lo + 4095) / 4096)).
  - intros n a k1 (-> & Hal & Hla & Hak & Han & f1 & AL). destruct (Z.ltb_spec a new) as [Hlt|Hge].
    2: { apply wp_ret. left. split; [done|]. exists f1. destruct AL as [B1 B2 B3 B4 B5 B6]. split; try done.
         - intros va Hva Hr. apply B4; [done|]. unfold in_range in *. lia.
         - intros va Hva Hr. apply B5; [done|]. unfold in_range in *. zify; Z.to_euclidean_division_equations; lia. }
    assert (user a ∧ 0 ≤ old < new) as [Hua Hon] by (unfold user; lia).
    assert (PGROUNDUP old = lo) as Er by (rewrite PGROUNDUP_val by (unfold KERNBASE in *; lia); done).
    apply wp_bind. wcall (kalloc_spec kend k1 f1 (al_kinv _ _ _ _ _ _ _ AL)). intros mem k2. destruct f1 as [|m f2].
    { intros [-> ->]. simpl. apply wp_bind.
      wcall (deallocuvm_spec kend Hkend k1 [] pgdir new old (al_kinv _ _ _ _ _ _ _ AL) (al_as _ _ _ _ _ _ _ AL)); [lia|lia|].
      intros r k3 [_ U]. rewrite Er in U. apply wp_ret. right. split_and!; [done|lia|]. by eapply undo_alloc; [..|exact AL|exact U|lia]. }
    intros (-> & I2 & E2). pose proof (alloced_zero k f pgdir lo a k1 f2 m k2 AL I2 E2) as Z.
    set (k3 := set_page m (fill_page 0) k2) in *. destruct Z as (I3 & A3 & P3 & M3 & H3 & H3' & T3).
    pose proof (good_u32 kend m (proj1 M3)) as [_ Hnz]. rewrite (proj2 (Z.eqb_neq _ _)) by done. apply wp_bind.
    eapply wp_eq; [apply st_page_run; rewrite E2; by eapply kinv_head, al_kinv|]. fold k3.
    wcall (map_or_undo k f pgdir lo new Hn Habs old a k1 f2 m k3 Hal Hla Hua Hlt (conj Hon Er) AL I3 A3 P3 M3 H3 H3' T3).
    intros [a'|r] k4; [|by intros [-> R]; right; split_and!; [done|lia|exact R]]. intros (-> & f' & AL'). eexists. split; [|split; [done|]; split_and!].
    + zify; Z.to_euclidean_division_equations; lia.
    + zify; Z.to_euclidean_division_equations; lia.
    + lia.
    + lia.
    + lia.
    + by exists f'.
  - unfold PGSIZE. zify; Z.to_euclidean_division_equations; lia.
  - split_and!; try done; try lia. exists f. split; try done; unfold in_range; intros; lia.
Qed.
End alloc.

Close Scope Z_scope.
