(* ===== verification/VmTheorems.v ===== *)
(** * Theorems on virtual memory ([src/xv6-public/vm.c])

    Mapping a range of pages and growing the user part of an address space,
    with the failure paths of both. *)

From S2P Require Import Prelude.
From S2P Require Import Words.
From S2P Require Import Kalloc.
From S2P Require Import Vm.
From S2P Require Import VmMap.
From S2P Require Import VmUser.
From S2P Require Import VmAlloc.

Open Scope Z_scope.

(** What a walk finds is the entry of the address. *)
Lemma walk_load kend k free pgdir va :
  pt_ok kend (k_pages k) pgdir free → present (pte_of (k_pages k) pgdir va) = true →
  wp (p ← walkpgdir pgdir va false; e ← ld_word p; mret (p, e)) (λ '(p, e) k', p ≠ 0 ∧ e = pte_of (k_pages k) pgdir va ∧ k' = k) k.
Proof.
  intros O Hp. assert (mapped_dir (k_pages k) pgdir (PDX va) = true) as Hm.
  { unfold pte_of in Hp. by destruct (mapped_dir (k_pages k) pgdir (PDX va)). }
  destruct (pt_tab _ _ _ _ O _ (PDX_range va) Hm) as (T1 & T2 & _). pose proof (PTX_range va) as Hx.
  apply wp_bind. eapply wp_eq; [by eapply walk_look|]. rewrite Hm. apply wp_bind.
  eapply wp_eq; [apply ld_word_run; [by eapply good_align|done|done]|]. apply wp_ret. split_and!; [| |done].
  - destruct T1 as [_ _ H]. unfold KERNBASE in H. lia.
  - unfold pte_of. by rewrite Hm.
Qed.

(** [mappages] on a range of pages with no mapping either maps it or
    reports that there is no memory.  On return 0 every address of the range
    is found by [walkpgdir] and its entry holds the physical page at the same
    distance from [pa], the permissions and the present bit; on return -1
    the allocator is empty and a prefix of the range is mapped.  In both
    cases every other address keeps its entry, the tables stay pages of
    their own outside the free list, and only tables were taken from it. *)
Theorem mappages_maps_range kend k free pgdir va size pa perm :
  let first := va / 4096 in let np := (va + size - 1) / 4096 - first + 1 in
  kinv kend k free → pt_ok kend (k_pages k) pgdir free →
  0 ≤ va ∧ 0 < size ∧ va + size ≤ two32 → pa mod 4096 = 0 ∧ 0 ≤ pa ∧ pa + 4096 * np ≤ two32 → 0 ≤ perm < 4096 →
  (∀ va', first ≤ va' / 4096 < first + np → present (pte_of (k_pages k) pgdir va') = false) →
  wp (mappages pgdir va size pa perm) (λ r k', ∃ j, 0 ≤ j ≤ np ∧
    (r = 0 ∧ j = np ∨ r = -1 ∧ j < np ∧ wp kalloc (λ a _, a = 0) k') ∧
    (∀ va', is_u32 va' → first ≤ va' / 4096 < first + j →
      wp (p ← walkpgdir pgdir va' false; e ← ld_word p; mret (p, e)) (λ '(p, e) _,
        p ≠ 0 ∧ e = Z.lor (Z.lor (pa + 4096 * (va' / 4096 - first)) perm) PTE_P) k') ∧
    (∀ va', is_u32 va' → ¬ first ≤ va' / 4096 < first + j → pte_of (k_pages k') pgdir va' = pte_of (k_pages k) pgdir va') ∧
    ∃ free', kinv kend k' free' ∧ pt_ok kend (k_pages k') pgdir free' ∧ free' `suffix_of` free) k.
Proof.
  intros first np I O Hva Hpa Hperm Hfresh. wcall (mappages_spec kend k free pgdir va size pa perm I O Hva Hpa Hperm Hfresh).
  fold first. fold np. intros r k' Hr.
  assert (∃ j, 0 ≤ j ≤ np ∧ mapped_upto kend k free pgdir va pa perm j k' ∧
    (r = 0 ∧ j = np ∨ r = -1 ∧ j < np ∧ wp kalloc (λ a _, a = 0) k')) as (j & Hj & [(f' & I' & O' & S') M R] & Hres).
  { assert (0 ≤ np) by (unfold np, first; zify; Z.to_euclidean_division_equations; lia).
    destruct Hr as [[-> MU]|(-> & j & Hj & MU & Hk)]; [exists np; split; [lia|]; split; [done|by left]|].
    exists j. split; [lia|]. split; [done|]. right. split_and!; [done|lia|done]. }
  exists j. split_and!; [lia|lia|exact Hres| | |by exists f'].
  - intros va' Hva' Hin. specialize (M va' Hva'). fold first in M. rewrite decide_True in M by done.
    wcall (walk_load kend k' f' pgdir va' O').
    + rewrite M. unfold range_pte, present. rewrite Z.land_lor_distr_l. unfold PTE_P. rewrite Z.land_diag.
      apply negb_true_iff, Z.eqb_neq. intros E. apply Z.lor_eq_0_iff in E as [_ E]. done.
    + intros [p e] k2 (Hp & -> & _). split; [done|]. by rewrite M.
  - intros va' Hva' Hout. rewrite M by done. by rewrite decide_False.
Qed.

(** C7: Growing the user part of an address space from [old] to [new]
    bytes, over a range with no mapping, is all or nothing.  [allocuvm]
    returns [new] with every page of the range present, writable, accessible
    to the user and zeroed, in a page taken from the free list that no other
    user address, table or free list entry shares; or, when memory runs out
    in the middle, it returns 0 and no page of the range is present.
    In both cases the entries of all other addresses and the contents of
    all pages in use are unchanged. *)
Theorem allocuvm_all_or_nothing kend k free pgdir old new :
  KERNBASE < kend → kinv kend k free → as_ok kend (k_pages k) pgdir free → 0 ≤ old ≤ new → new < KERNBASE →
  (∀ va, user va → in_range (PGROUNDUP old) new va → up (k_pages k) pgdir va = false) →
  wp (allocuvm kend pgdir old new) (λ r k',
    (r = new ∧ (∀ va, user va → in_range (PGROUNDUP old) new va →
        up (k_pages k') pgdir va = true ∧ PTE_FLAGS (pte_of (k_pages k') pgdir va) = Z.lor (Z.lor PTE_P PTE_W) PTE_U ∧
        frame (k_pages k') pgdir va ∈ free ∧ k_pages k' !! frame (k_pages k') pgdir va = Some (fill_page 0)) ∨
     r = 0 ∧ old < new ∧ ∀ va, user va → in_range (PGROUNDUP old) new va → up (k_pages k') pgdir va = false) ∧
    (∃ free', kinv kend k' free' ∧ as_ok kend (k_pages k') pgdir free') ∧
    (∀ va, is_u32 va → ¬ in_range (PGROUNDUP old) new va → pte_of (k_pages k') pgdir va = pte_of (k_pages k) pgdir va) ∧
    (∀ b, b ∉ free → no_table (k_pages k) pgdir b → k_pages k' !! b = k_pages k !! b)) k.
Proof.
  intros Hk I A Ho Hn Habs. wcall (allocuvm_spec kend Hk k free pgdir old new I A Ho Hn Habs). intros r k' [(-> & f' & [I' A' S N K D])|(-> & Hlt & [(f' & I' & A') G K D])].
  - split_and!; [left|by exists f'|done|intros b Hb Hnt; by apply D]. split; [done|]. intros va Hva Hr. exact (N va Hva Hr).
  - split_and!; [by right|by exists f'|done|done].
Qed.

(** ** A fresh directory *)

Lemma fresh_as_ok kend pg pgdir free :
  pg !! pgdir = Some (fill_page 0) → good_page kend pgdir → pgdir ∉ free →
  as_ok kend pg pgdir free ∧ ∀ va, pte_of pg pgdir va = 0.
Proof.
  intros Hd Hg Hn. assert (∀ i, 0 ≤ i < 1024 → mapped_dir pg pgdir i = false) as Hm.
  { intros i Hi. unfold mapped_dir. rewrite <-(insert_id pg pgdir _ Hd), wd_zero by done. done. }
  assert (∀ va, pte_of pg pgdir va = 0) as Hp by (intros va; unfold pte_of; by rewrite Hm by apply PDX_range).
  split; [split; [split| |]|done].
  - split_and!; [done| |done]. exists (fill_page 0). split; [done|]. unfold fill_page. by rewrite length_replicate.
  - intros i Hi H. by rewrite Hm in H.
  - intros i j Hi Hj H. by rewrite Hm in H.
  - intros va _. unfold up. by rewrite Hp.
  - intros va va' _ _. unfold up. by rewrite Hp.
Qed.

(** A directory and two free pages: room for one page and its table. *)
Definition two_free : kmem :=
  mkKmem 1 2151682048 (<[2151677952 := fill_page 0]> (<[2151682048 := st32 (fill_page 0) 0 2151686144]> {[2151686144 := fill_page 0]})).

Lemma two_free_ok : kinv 2151677952 two_free [2151682048; 2151686144] ∧ as_ok 2151677952 (k_pages two_free) 2151677952 [2151682048; 2151686144] ∧
  ∀ va, pte_of (k_pages two_free) 2151677952 va = 0.
Proof.
  assert (∀ a, a ∈ [2151677952; 2151682048; 2151686144] → good_page 2151677952 a) as Hg.
  { intros a Ha. rewrite !elem_of_cons, elem_of_nil in Ha. destruct Ha as [->|[->|[->|[]]]]; (split; [done|lia|unfold KERNBASE, PHYSTOP; lia]). }
  split.
  - split; [|apply (bool_decide_unpack _); vm_compute; exact Logic.I|intros a Ha; apply Hg; by right].
    simpl. split; [done|]. eexists. split; [reflexivity|]. split; [done|]. split; [vm_compute; reflexivity|]. eexists. split; [reflexivity|]. split; [done|]. vm_compute. reflexivity.
  - apply fresh_as_ok; [reflexivity|apply Hg; left|by rewrite !elem_of_cons, elem_of_nil; intros [H|[H|[]]]].
Qed.

Lemma mappages_maps_range_witness :
  kinv 2151677952 two_free [2151682048; 2151686144] ∧
  wp (mappages 2151677952 8192 4096 4194304 6) (λ r k', r = 0 ∨ r = -1) two_free.
Proof.
  destruct two_free_ok as (I & A & Hz). split; [done|].
  eapply wp_mono; [apply (mappages_maps_range 2151677952 two_free [2151682048; 2151686144] 2151677952 8192 4096 4194304 6 I (as_pt _ _ _ _ A))|].
  - unfold two32. lia.
  - unfold two32. split; [done|]. vm_compute. split; intros H; discriminate H.
  - lia.
  - intros va' _. by rewrite Hz.
  - intros r k' (j & _ & [[-> _]|[-> _]] & _); auto.
Defined.

Lemma allocuvm_all_or_nothing_witness :
  as_ok 2151677952 (k_pages two_free) 2151677952 [2151682048; 2151686144] ∧
  wp (allocuvm 2151677952 2151677952 0 5000) (λ r k', r = 0 ∨ r = 5000) two_free.
Proof.
  destruct two_free_ok as (I & A & Hz). split; [done|].
  eapply wp_mono; [apply (allocuvm_all_or_nothing 2151677952 two_free [2151682048; 2151686144] 2151677952 0 5000)|]; try done.
  - intros va _ _. unfold up. by rewrite Hz.
  - intros r k' ([[-> _]|[-> _]] & _); auto.
Defined.

Close Scope Z_scope.
