(* ===== verification/VmFree.v ===== *)
(** * Giving an address space back ([freevm] of [src/xv6-public/vm.c]) *)

From S2P Require Import Prelude.
From S2P Require Import Words.
From S2P Require Import Kalloc.
From S2P Require Import Vm.
From S2P Require Import VmMap.
From S2P Require Import VmUser.
From S2P Require Import VmAlloc.
From S2P Require Import VmTheorems.

Open Scope Z_scope.

(** The pages of an address space: its directory, its tables and the pages
    its user part maps. *)
Definition table_page (pg : gmap Z page) (pgdir n b : Z) : Prop := ∃ i, 0 ≤ i < n ∧ mapped_dir pg pgdir i = true ∧ b = table pg pgdir i.
Definition user_page (pg : gmap Z page) (pgdir b : Z) : Prop := ∃ va, user va ∧ up pg pgdir va = true ∧ frame pg pgdir va = b.
Definition owned (pg : gmap Z page) (pgdir b : Z) : Prop := b = pgdir ∨ table_page pg pgdir 1024 b ∨ user_page pg pgdir b.

Section free.
Context (kend : Z) (Hkend : KERNBASE < kend).

(** The tables with an index below [n] are free, the others as in [k0]. *)
Definition tables_freed (k0 : kmem) (pgdir : Z) (free : list Z) (n : nat) (k : kmem) : Prop :=
  ∃ l, kinv kend k (l ++ free) ∧ (∀ b, b ∈ l ↔ table_page (k_pages k0) pgdir (Z.of_nat n) b) ∧ ∀ b, b ∉ l → k_pages k !! b = k_pages k0 !! b.

Lemma table_page_S pg pgdir n b : table_page pg pgdir (Z.of_nat (S n)) b ↔
  table_page pg pgdir (Z.of_nat n) b ∨ (mapped_dir pg pgdir (Z.of_nat n) = true ∧ b = table pg pgdir (Z.of_nat n)).
Proof using Type.
  split.
  - intros (i & Hi & Hm & ->). destruct (decide (i = Z.of_nat n)) as [->|]; [by right|]. left. exists i. split_and!; [lia|lia|done|done].
  - intros [(i & Hi & Hm & ->)|[Hm ->]]; [exists i|exists (Z.of_nat n)]; (split_and!; [lia|lia|done|done]).
Qed.

Lemma free_table k0 pgdir free n k : pt_ok kend (k_pages k0) pgdir free → (n < 1024)%nat → tables_freed k0 pgdir free n k →
  wp (e ← ld_word (pgdir + 4 * Z.of_nat n); when (present e) (kfree kend (P2V (PTE_ADDR e)))) (λ _, tables_freed k0 pgdir free (S n)) k.
Proof using Type.
  intros O Hn (l & I & Hl & Hk). destruct (pt_dir _ _ _ _ O) as (Dg & (d & Dd & Dl) & Dn).
  assert (pgdir ∉ l) as Hnd by (intros (i & Hi & Hm & E)%Hl; destruct (pt_tab _ _ _ _ O i ltac:(lia) Hm) as (_ & _ & _ & T4); congruence).
  wstep. eapply wp_eq; [apply ld_word_run; [by eapply good_align|lia|exists d; by rewrite Hk]|].
  assert (wd (k_pages k) pgdir (Z.of_nat n) = wd (k_pages k0) pgdir (Z.of_nat n)) as -> by (unfold wd; by rewrite Hk).
  change (present (wd (k_pages k0) pgdir (Z.of_nat n))) with (mapped_dir (k_pages k0) pgdir (Z.of_nat n)). fold (table (k_pages k0) pgdir (Z.of_nat n)).
  destruct (mapped_dir (k_pages k0) pgdir (Z.of_nat n)) eqn:Hm; simpl.
  - destruct (pt_tab _ _ _ _ O (Z.of_nat n) ltac:(lia) Hm) as (T1 & (t & T2 & T2') & T3 & T4). set (b0 := table (k_pages k0) pgdir (Z.of_nat n)) in *.
    assert (b0 ∉ l) as Hb0 by (intros (i & Hi & Hmi & E)%Hl; apply (pt_inj _ _ _ _ O) in E; [lia|lia|lia|done|done]).
    wcall (kfree_spec kend k (l ++ free) b0 I T1); [by apply not_elem_of_app|rewrite Hk by done; by exists t|].
    intros [] k1 (I1 & H1 & _). exists (b0 :: l). split_and!; [done| |].
    + intros b. rewrite table_page_S, <-Hl, elem_of_cons. unfold b0. naive_solver.
    + intros b [Hb Hbl]%not_elem_of_cons. rewrite H1 by done. by apply Hk.
  - wstep. exists l. split_and!; [done| |done]. intros b. rewrite table_page_S, <-Hl. rewrite Hm. naive_solver.
Qed.

Lemma freevm_spec k free pgdir : kinv kend k free → as_ok kend (k_pages k) pgdir free →
  wp (freevm kend pgdir) (λ _ k', ∃ l, kinv kend k' (l ++ free) ∧ (∀ b, b ∈ l ↔ owned (k_pages k) pgdir b) ∧
    ∀ b, b ∉ l → k_pages k' !! b = k_pages k !! b) k.
Proof using Hkend.
  intros I A. unfold freevm. destruct (pt_dir _ _ _ _ (as_pt _ _ _ _ A)) as (Dg & _). destruct (good_u32 _ _ Dg) as [_ Hnz].
  rewrite (proj2 (Z.eqb_neq _ _)) by done. wstep.
  wcall (deallocuvm_spec kend Hkend k free pgdir KERNBASE 0 I A); [unfold KERNBASE; lia|lia|]. intros r k1 [_ [(l0 & I1 & A1 & L0) G K Dt Tb Td]].
  pose proof (as_pt _ _ _ _ A1) as O1. change (PGROUNDUP 0) with 0 in *.
  assert (∀ b, table_page (k_pages k1) pgdir 1024 b ↔ table_page (k_pages k) pgdir 1024 b) as Ht.
  { intros b. split; intros (i & Hi & Hm & ->); exists i; destruct (Td i Hi) as [E1 E2]; split_and!; congruence || lia. }
  assert (∀ b, b ∈ l0 ↔ user_page (k_pages k) pgdir b) as Hu.
  { intros b. rewrite L0. split; intros (va & Hva & H); exists va; [naive_solver|]. split; [done|]. split; [|done].
    unfold in_range, user, KERNBASE in *. zify; Z.to_euclidean_division_equations; lia. }
  wstep. eapply wp_mono; [eapply (wp_for_seq (tables_freed k1 pgdir (l0 ++ free)))|].
  - exists []. split_and!; [done| |done]. intros b. split; [by intros ?%elem_of_nil|]. intros (i & Hi & _). lia.
  - intros i k2 Hi. apply free_table; [done|]. unfold NPDENTRIES in Hi. lia.
  - intros [] k2 (l & I2 & Hl & Hk). change (Z.of_nat NPDENTRIES) with 1024 in Hl. destruct (pt_dir _ _ _ _ O1) as (_ & (d & Dd & _) & Dn).
    assert (pgdir ∉ l) as Hnd by (intros (i & Hi & Hm & E)%Hl; destruct (pt_tab _ _ _ _ O1 i Hi Hm) as (_ & _ & _ & T4); congruence).
    wcall (kfree_spec kend k2 (l ++ l0 ++ free) pgdir I2 Dg); [by apply not_elem_of_app|rewrite Hk by done; by exists d|].
    intros [] k3 (I3 & H3 & _). exists (pgdir :: l ++ l0). split_and!; [by rewrite <-app_comm_cons, <-app_assoc| |].
    + intros b. unfold owned. rewrite elem_of_cons, elem_of_app, Hl, Ht, Hu. done.
    + intros b [Hb [Hb1 Hb2]%not_elem_of_app]%not_elem_of_cons. rewrite H3, Hk by done. rewrite Hl, Ht in Hb1. rewrite Hu in Hb2. apply Dt.
      * split; [done|]. intros i Hi Hm E. apply Hb1. by exists i.
      * intros va Hva _ Hup E. apply Hb2. by exists va.
Qed.

(** C16: [freevm] gives everything back.  Starting from an address space that
    is well formed, it ends without a fault, and the free list has grown by
    exactly the pages of the address space, each once: the directory, every
    page table, those of the kernel's part included, and every page of the
    user part.  No other page changes, so the kernel's own memory, which the
    tables also map, is untouched. *)
Theorem freevm_releases_everything k free pgdir : kinv kend k free → as_ok kend (k_pages k) pgdir free →
  wp (freevm kend pgdir) (λ _ k', ∃ l, kinv kend k' (l ++ free) ∧ NoDup (l ++ free) ∧ (∀ b, b ∈ l ↔ owned (k_pages k) pgdir b) ∧
    ∀ b, ¬ owned (k_pages k) pgdir b → k_pages k' !! b = k_pages k !! b) k.
Proof using Hkend.
  intros I A. wcall (freevm_spec k free pgdir I A). intros _ k' (l & I' & Hl & Hk). exists l. split_and!; [done|by eapply ki_nodup|done|].
  intros b Hb. apply Hk. by rewrite Hl.
Qed.
End free.

(** A page is mapped and everything given back: the directory is free. *)
Lemma freevm_releases_everything_witness :
  wp (allocuvm 2151677952 2151677952 0 4096;; freevm 2151677952 2151677952) (λ _ k', ∃ l, kinv 2151677952 k' l ∧ 2151677952 ∈ l) two_free.
Proof.
  destruct two_free_ok as (I & A & Hz). wstep.
  eapply wp_mono; [apply (allocuvm_spec 2151677952 ltac:(unfold KERNBASE; lia) two_free [2151682048; 2151686144] 2151677952 0 4096 I A)|].
  - lia.
  - unfold KERNBASE. lia.
  - intros va _ _. unfold up. by rewrite Hz.
  - intros r k' H. assert (∃ f, kinv 2151677952 k' f ∧ as_ok 2151677952 (k_pages k') 2151677952 f) as (f & I' & A').
    { destruct H as [(_ & f & [I' A' _ _ _ _])|(_ & _ & [(f & I' & A') _ _ _])]; by exists f. }
    eapply wp_mono; [apply (freevm_releases_everything 2151677952 ltac:(unfold KERNBASE; lia) k' f 2151677952 I' A')|].
    intros _ k2 (l & I2 & _ & Hl & _). exists (l ++ f). split; [done|]. apply elem_of_app. left. apply Hl. by left.
Defined.

Close Scope Z_scope.
