(* ===== verification/VmCopy.v ===== *)
(** * User memory through a page table ([uva2ka], [copyout], [clearpteu] and
    [allocustack] of [src/xv6-public/vm.c])

    What the bytes of the user part of an address space are, and how storing
    through its page table changes them. *)

From S2P Require Import Prelude.
From S2P Require Import Words.
From S2P Require Import Kalloc.
From S2P Require Import Vm.
From S2P Require Import VmMap.
From S2P Require Import VmUser.
From S2P Require Import VmAlloc.

Open Scope Z_scope.

(** The byte at a user address. *)
Definition ubyte (pg : gmap Z page) (pgdir va : Z) : option Z := pg !! frame pg pgdir va ≫= λ d, d !! Z.to_nat (va mod 4096).
(** A page that [uva2ka] gives out. *)
Definition uopen (pg : gmap Z page) (pgdir va : Z) : bool :=
  up pg pgdir va && negb (Z.eqb (Z.land (pte_of pg pgdir va) PTE_U) 0).

Section copy.
Context (kend : Z).

Lemma up_table pg pgdir va : up pg pgdir va = true → mapped_dir pg pgdir (PDX va) = true.
Proof using Type. unfold up, pte_of. by destruct (mapped_dir pg pgdir (PDX va)). Qed.
Lemma uopen_up pg pgdir va : uopen pg pgdir va = true → up pg pgdir va = true.
Proof using Type. unfold uopen. by intros [? _]%andb_true_iff. Qed.

Lemma uva2ka_run k free pgdir va : pt_ok kend (k_pages k) pgdir free → mapped_dir (k_pages k) pgdir (PDX va) = true →
  uva2ka pgdir va k = Ok (if uopen (k_pages k) pgdir va then frame (k_pages k) pgdir va else 0, k).
Proof using Type.
  intros O Hm. destruct (pt_tab _ _ _ _ O _ (PDX_range va) Hm) as (T1 & T2 & _). pose proof (PTX_range va) as Hx. unfold uva2ka.
  rewrite (bind_ok _ _ _ _ _ (walk_look kend k free pgdir va O)), Hm. rewrite (proj2 (Z.eqb_neq _ _)) by (destruct T1 as [_ _ H]; unfold KERNBASE in H; lia).
  rewrite (bind_ok _ _ _ _ _ (ld_word_run k _ (PTX va) (good_align _ _ T1) Hx T2)).
  assert (wd (k_pages k) (table (k_pages k) pgdir (PDX va)) (PTX va) = pte_of (k_pages k) pgdir va) as -> by (unfold pte_of; by rewrite Hm).
  unfold uopen, up, frame. destruct (present (pte_of (k_pages k) pgdir va)); simpl; [|done]. by destruct (Z.eqb (Z.land _ PTE_U) 0).
Qed.

(** Storing a page of the user part. *)
Lemma write_user k free pgdir va d' : kinv kend k free → as_ok kend (k_pages k) pgdir free → user va → up (k_pages k) pgdir va = true → length d' = 4096%nat →
  let k' := set_page (frame (k_pages k) pgdir va) d' k in
  kinv kend k' free ∧ as_ok kend (k_pages k') pgdir free ∧ (∀ a, pte_of (k_pages k') pgdir a = pte_of (k_pages k) pgdir a) ∧
  ∀ a, user a → up (k_pages k) pgdir a = true →
    ubyte (k_pages k') pgdir a = if decide (a / 4096 = va / 4096) then d' !! Z.to_nat (a mod 4096) else ubyte (k_pages k) pgdir a.
Proof using Type.
  intros I A Hva Hup Hl k'. destruct (as_user _ _ _ _ A va Hva Hup) as (F1 & F2 & F3 & F4). set (f := frame (k_pages k) pgdir va) in *.
  destruct (tables_ext kend (k_pages k) (k_pages k') pgdir free free (as_pt _ _ _ _ A)) as (O' & P & T).
  { simpl. rewrite lookup_insert_ne; [done|]. apply F4. }
  { intros i Hi Hm. simpl. rewrite lookup_insert_ne; [done|]. by apply F4. }
  { intros a Ha. by left. }
  assert (∀ a, frame (k_pages k') pgdir a = frame (k_pages k) pgdir a ∧ up (k_pages k') pgdir a = up (k_pages k) pgdir a) as Hf
    by (intros a; unfold frame, up; by rewrite !P).
  split_and!; [by apply kinv_set_page|split; [done| |]|done|].
  - intros a Ha. destruct (Hf a) as [-> ->]. intros Hu. destruct (as_user _ _ _ _ A a Ha Hu) as (G1 & (d & G2 & G2') & G3 & G4 & G5).
    split_and!; [done| |done|split; [done|]].
    + simpl. unfold has_page. destruct (decide (f = frame (k_pages k) pgdir a)) as [<-|]; [exists d'; by rewrite lookup_insert_eq|exists d; by rewrite lookup_insert_ne].
    + intros i Hi. destruct (T i) as [-> ->]. by apply G5.
  - intros a b Ha Hb. destruct (Hf a) as [-> ->], (Hf b) as [-> ->]. by apply (as_inj _ _ _ _ A).
  - intros a Ha Hu. unfold ubyte. destruct (Hf a) as [-> _]. simpl. case_decide as E.
    + assert (frame (k_pages k) pgdir a = f) as -> by (unfold f, frame; by rewrite (pte_same_page _ _ _ _ E)). by rewrite lookup_insert_eq.
    + rewrite lookup_insert_ne; [done|]. intros E'. apply E. symmetry. by apply (as_inj _ _ _ _ A).
Qed.

(** The page [d] with [l] stored at [o]. *)
Lemma patch_lookup (d l : page) (o j : nat) : (o + length l ≤ length d)%nat →
  (take o d ++ l ++ drop (o + length l) d) !! j = if decide (o ≤ j < o + length l)%nat then l !! (j - o)%nat else d !! j.
Proof using Type.
  intros Hl. assert (length (take o d) = o) as Ht by (rewrite length_take; lia). case_decide as E.
  - rewrite lookup_app_r, Ht by lia. rewrite lookup_app_l by lia. done.
  - destruct (decide (j < o)%nat).
    + rewrite lookup_app_l by lia. by rewrite lookup_take_lt.
    + rewrite lookup_app_r, Ht by lia. rewrite lookup_app_r by lia. rewrite lookup_drop. f_equal. lia.
Qed.

(** [buf] has been stored at [va], and nothing else changed. *)
Record stored (k : kmem) (free : list Z) (pgdir va : Z) (buf : list Z) (k' : kmem) : Prop := {
  sd_kinv : kinv kend k' free;
  sd_as : as_ok kend (k_pages k') pgdir free;
  sd_pte : ∀ a, pte_of (k_pages k') pgdir a = pte_of (k_pages k) pgdir a;
  sd_bytes : ∀ a, user a → up (k_pages k) pgdir a = true →
    ubyte (k_pages k') pgdir a = if decide (va ≤ a < va + Z.of_nat (length buf)) then buf !! Z.to_nat (a - va) else ubyte (k_pages k) pgdir a
}.

Lemma stored_nil k free pgdir va : kinv kend k free → as_ok kend (k_pages k) pgdir free → stored k free pgdir va [] k.
Proof using Type. intros I A. split; try done. intros a _ _. rewrite decide_False; [done|simpl; lia]. Qed.

Lemma stored_more k free pgdir va pre k1 a n rest : stored k free pgdir va pre k1 → a = va + Z.of_nat (length pre) → user a → up (k_pages k) pgdir a = true →
  (1 ≤ n ≤ length rest)%nat → (Z.to_nat (a mod 4096) + n ≤ 4096)%nat →
  ∃ d, k_pages k1 !! frame (k_pages k1) pgdir a = Some d ∧
    stored k free pgdir va (pre ++ take n rest) (set_page (frame (k_pages k1) pgdir a) (take (Z.to_nat (a mod 4096)) d ++ take n rest ++ drop (Z.to_nat (a mod 4096) + n) d) k1).
Proof using Type.
  intros [I A P B] Ea Hua Hup Hn Ho. assert (up (k_pages k1) pgdir a = true) as Hup1 by (unfold up; by rewrite P).
  destruct (as_user _ _ _ _ A a Hua Hup1) as (_ & (d & Hd & Hdl) & _). exists d. split; [done|].
  assert (length (take n rest) = n) as Hlt by (rewrite length_take; lia). set (o := Z.to_nat (a mod 4096)) in *.
  assert (0 ≤ a mod 4096 < 4096) as Hmod by (apply Z.mod_pos_bound; lia).
  pose proof (patch_lookup d (take n rest) o) as PL. rewrite Hlt in PL. set (d' := take o d ++ take n rest ++ drop (o + n) d) in *.
  assert (length d' = 4096%nat) as Hd' by (unfold d'; rewrite !length_app, length_drop, length_take, Hlt; lia).
  destruct (write_user k1 free pgdir a d' I A Hua Hup1 Hd') as (I' & A' & P' & B'). split; [done|done|intros x; by rewrite P'|].
  intros x Hx Hux. rewrite B' by (done || (unfold up; by rewrite P)). rewrite length_app, Hlt. case_decide as E.
  - rewrite PL by lia. assert (x = a - Z.of_nat o + x mod 4096) as Ex by (unfold o; zify; Z.to_euclidean_division_equations; lia).
    assert (0 ≤ x mod 4096 < 4096) as Hxm by (apply Z.mod_pos_bound; lia). case_decide as E1.
    + rewrite decide_True by lia. rewrite lookup_app_r by lia. f_equal. lia.
    + pose proof (B x Hx Hux) as Bx. unfold ubyte in Bx at 1. unfold frame in Bx. rewrite (pte_same_page _ _ _ _ E) in Bx. fold (frame (k_pages k1) pgdir a) in Bx. rewrite Hd in Bx. simpl in Bx.
      rewrite Bx. repeat case_decide; try lia; [|done]. rewrite lookup_app_l by lia. done.
  - rewrite B by done. assert (x < a - Z.of_nat o ∨ a - Z.of_nat o + 4096 ≤ x) as Hox by (unfold o; zify; Z.to_euclidean_division_equations; lia).
    repeat case_decide; try lia; [|done]. rewrite lookup_app_l by lia. done.
Qed.

Lemma copyout_spec k free pgdir va buf : kinv kend k free → as_ok kend (k_pages k) pgdir free → 0 ≤ va → va + Z.of_nat (length buf) ≤ KERNBASE →
  (∀ a, va ≤ a < va + Z.of_nat (length buf) → uopen (k_pages k) pgdir a = true) →
  wp (copyout pgdir va buf) (λ r k', r = 0 ∧ stored k free pgdir va buf k') k.
Proof using Type.
  intros I A Hva Hlim Hopen. unfold copyout.
  apply (wp_loop (λ n '(a, rest) k', n = length rest ∧ ∃ pre, buf = pre ++ rest ∧ (rest = [] ∨ a = va + Z.of_nat (length pre)) ∧ stored k free pgdir va pre k')) with (n := length buf).
  - intros n [a rest] k1 (-> & pre & Eb & Ha & S1). destruct rest as [|c rest']; [wstep; rewrite app_nil_r in Eb; by subst|]. cbv beta iota zeta. set (rest := c :: rest') in *.
    destruct Ha as [|Ea]; [done|]. assert (length buf = length pre + length rest)%nat as Hlb by (rewrite Eb; apply length_app).
    assert (1 ≤ length rest)%nat as Hr1 by (simpl; lia). assert (user a) as Hua by (unfold user; lia).
    pose proof (Hopen a ltac:(lia)) as Hop. pose proof (uopen_up _ _ _ Hop) as Hup. rewrite PGROUNDDOWN_val. set (va0 := 4096 * (a / 4096)).
    assert (va0 / 4096 = a / 4096) as Ev by (unfold va0; rewrite Z.mul_comm; by rewrite Z.div_mul).
    assert (uopen (k_pages k1) pgdir va0 = true ∧ frame (k_pages k1) pgdir va0 = frame (k_pages k1) pgdir a) as [Ho Hf].
    { unfold uopen, up, frame in *. rewrite (pte_same_page _ _ _ _ Ev), (sd_pte _ _ _ _ _ _ S1). done. }
    wstep. eapply wp_eq; [eapply (uva2ka_run k1 free); [apply (sd_as _ _ _ _ _ _ S1)|by apply up_table, uopen_up]|]. rewrite Ho, Hf.
    assert (up (k_pages k1) pgdir a = true) as Hup1 by (unfold up; by rewrite (sd_pte _ _ _ _ _ _ S1)).
    destruct (as_user _ _ _ _ (sd_as _ _ _ _ _ _ S1) a Hua Hup1) as (G1 & _). destruct (good_u32 _ _ G1) as [_ Hnz]. rewrite (proj2 (Z.eqb_neq _ _)) by done.
    assert (a - va0 = a mod 4096) as -> by (unfold va0; zify; Z.to_euclidean_division_equations; lia).
    change (Z.to_nat PGSIZE) with 4096%nat. set (n := Nat.min (4096 - Z.to_nat (a mod 4096)) (length rest)).
    assert (0 ≤ a mod 4096 < 4096) as Hmod by (apply Z.mod_pos_bound; lia).
    destruct (stored_more k free pgdir va pre k1 a n rest S1 Ea Hua Hup ltac:(lia) ltac:(lia)) as (d & Hd & S2).
    wstep. eapply wp_eq; [by apply ld_page_run|]. wstep. eapply wp_eq; [apply st_page_run; by exists d|]. wstep.
    exists (length (drop n rest)). split; [rewrite length_drop; lia|]. split; [done|]. exists (pre ++ take n rest). split_and!; [|destruct (decide (n = length rest)) as [En|En]|done].
    + by rewrite <-app_assoc, take_drop.
    + left. by rewrite En, drop_all.
    + right. rewrite length_app, length_take, Nat.min_l by lia. rewrite u32_small; [unfold PGSIZE, va0; zify; Z.to_euclidean_division_equations; lia|].
      unfold is_u32, two32, PGSIZE, va0, KERNBASE in *. zify; Z.to_euclidean_division_equations; lia.
  - lia.
  - split; [done|]. exists []. split_and!; [done|right; simpl; lia|by apply stored_nil].
Qed.

(** The page of [va] is closed to the user: nothing is copied. *)
Lemma copyout_refused k free pgdir va buf : pt_ok kend (k_pages k) pgdir free → mapped_dir (k_pages k) pgdir (PDX va) = true → uopen (k_pages k) pgdir va = false →
  buf ≠ [] → wp (copyout pgdir va buf) (λ r k', r = -1 ∧ k' = k) k.
Proof using Type.
  intros O Hm Hc Hb. unfold copyout. destruct buf as [|c buf]; [done|].
  apply (wp_loop (λ _ st k', st = (va, c :: buf) ∧ k' = k)) with (n := 0%nat); [|lia|done]. intros n st k' [-> ->]. cbv beta iota zeta. rewrite PGROUNDDOWN_val. set (va0 := 4096 * (va / 4096)).
  assert (va0 / 4096 = va / 4096) as Ev by (unfold va0; rewrite Z.mul_comm; by rewrite Z.div_mul).
  assert (PDX va0 = PDX va) as Ep by (rewrite !PDX_val; unfold va0; zify; Z.to_euclidean_division_equations; lia).
  wstep. eapply wp_eq; [apply (uva2ka_run k free); [done|by rewrite Ep]|].
  assert (uopen (k_pages k) pgdir va0 = false) as ->; [unfold uopen, up in *; by rewrite (pte_same_page _ _ _ _ Ev)|]. by wsteps.
Qed.

(** ** Changing the flags of a page *)

Lemma reflag_ok k free pgdir va v : kinv kend k free → as_ok kend (k_pages k) pgdir free → user va → up (k_pages k) pgdir va = true →
  present (v mod two32) = true → P2V (PTE_ADDR (v mod two32)) = frame (k_pages k) pgdir va →
  let k' := put_word (table (k_pages k) pgdir (PDX va)) (PTX va) v k in
  kinv kend k' free ∧ as_ok kend (k_pages k') pgdir free ∧
  (∀ a, is_u32 a → pte_of (k_pages k') pgdir a = if decide (a / 4096 = va / 4096) then v mod two32 else pte_of (k_pages k) pgdir a) ∧
  (∀ a, user a → up (k_pages k) pgdir a = true → ubyte (k_pages k') pgdir a = ubyte (k_pages k) pgdir a).
Proof using Type.
  intros I A Hva Hup Hp Hfr k'. pose proof (as_pt _ _ _ _ A) as O. pose proof (up_table _ _ _ Hup) as Hm. pose proof (PDX_range va) as Hx. pose proof (PTX_range va) as Hy.
  destruct (pt_tab _ _ _ _ O _ Hx Hm) as (T1 & T2 & T3 & T4). destruct (set_pte_ok kend k pgdir free va v O Hm (user_u32 va Hva)) as [O' P']. fold k' in O', P'.
  set (t := table (k_pages k) pgdir (PDX va)) in *.
  assert (∀ a, user a → up (k_pages k') pgdir a = up (k_pages k) pgdir a ∧ frame (k_pages k') pgdir a = frame (k_pages k) pgdir a) as Hf.
  { intros a Ha. unfold up, frame. rewrite P' by by apply user_u32. case_decide as E; [|done]. rewrite (pte_same_page _ _ a va E).
    fold (up (k_pages k) pgdir va) (frame (k_pages k) pgdir va). by rewrite Hup. }
  assert (∀ i, 0 ≤ i < 1024 → wd (k_pages k') pgdir i = wd (k_pages k) pgdir i) as Hw.
  { intros i Hi. unfold k'. rewrite wd_put by done. rewrite decide_False; [done|]. by intros [? _]. }
  assert (∀ b, b ≠ t → k_pages k' !! b = k_pages k !! b) as Hk' by (intros b Hb; unfold k', put_word; simpl; by rewrite lookup_insert_ne).
  assert (∀ a, user a → up (k_pages k) pgdir a = true → frame (k_pages k) pgdir a ≠ t) as Hft by (intros a Ha Hu; by apply (as_user _ _ _ _ A a Ha Hu)).
  split_and!; [by apply kinv_put|split; [done| |]|exact P'|].
  - intros a Ha. destruct (Hf a Ha) as [-> ->]. intros Hu. destruct (as_user _ _ _ _ A a Ha Hu) as (G1 & (d & G2 & G2') & G3 & G4 & G5).
    split_and!; [done|exists d; rewrite Hk'; [done|by apply Hft]|done|split; [done|]]. intros i Hi. unfold mapped_dir, table. rewrite Hw by done. by apply G5.
  - intros a b Ha Hb. destruct (Hf a Ha) as [-> ->], (Hf b Hb) as [-> ->]. by apply (as_inj _ _ _ _ A).
  - intros a Ha Hu. unfold ubyte. destruct (Hf a Ha) as [_ ->]. rewrite Hk'; [done|by apply Hft].
Qed.

Lemma clear_u e : let v := Z.land e (Z.lnot PTE_U) in
  present (v mod two32) = present e ∧ P2V (PTE_ADDR (v mod two32)) = P2V (PTE_ADDR e) ∧ Z.land (v mod two32) PTE_U = 0.
Proof using Type.
  intros v. assert (two32 = 2 ^ 32) as E32 by done. split_and!.
  - rewrite !present_odd, <-!Z.bit0_odd, E32, Z.mod_pow2_bits_low by lia. unfold v. rewrite Z.land_spec, Z.lnot_spec by lia. by rewrite andb_true_r.
  - assert (v / 4096 = e / 4096) as Ev.
    { change 4096 with (2 ^ 12). rewrite <-!Z.shiftr_div_pow2 by lia. unfold v. rewrite Z.shiftr_land. change (Z.shiftr (Z.lnot PTE_U) 12) with (-1). by rewrite Z.land_m1_r. }
    rewrite !PTE_ADDR_val, <-Ev. unfold P2V, u32. rewrite (Z.div_mod v two32) at 2 by done. unfold two32 in *.
    replace (4096 * ((4294967296 * (v / 4294967296) + v mod 4294967296) / 4096) + KERNBASE) with (4096 * (v mod 4294967296 / 4096) + KERNBASE + v / 4294967296 * 4294967296); [by rewrite Z.mod_add|].
    zify; Z.to_euclidean_division_equations; lia.
  - apply Z.bits_inj'. intros n Hn. rewrite Z.land_spec, Z.bits_0. unfold PTE_U. destruct (decide (n = 2)) as [->|Hne].
    + rewrite E32, Z.mod_pow2_bits_low by lia. unfold v. rewrite Z.land_spec, Z.lnot_spec by lia. unfold PTE_U. change (Z.testbit 4 2) with true. by rewrite andb_false_r.
    + change 4 with (2 ^ 2). rewrite Z.pow2_bits_false by lia. by rewrite andb_false_r.
Qed.

Lemma clearpteu_spec k free pgdir va : kinv kend k free → as_ok kend (k_pages k) pgdir free → user va → up (k_pages k) pgdir va = true →
  wp (clearpteu pgdir va) (λ _ k', kinv kend k' free ∧ as_ok kend (k_pages k') pgdir free ∧
    (∀ a, is_u32 a → a / 4096 ≠ va / 4096 → pte_of (k_pages k') pgdir a = pte_of (k_pages k) pgdir a) ∧
    (∀ a, user a → up (k_pages k') pgdir a = up (k_pages k) pgdir a ∧ (a / 4096 = va / 4096 → uopen (k_pages k') pgdir a = false)) ∧
    (∀ a, user a → up (k_pages k) pgdir a = true → ubyte (k_pages k') pgdir a = ubyte (k_pages k) pgdir a)) k.
Proof using Type.
  intros I A Hva Hup. pose proof (as_pt _ _ _ _ A) as O. pose proof (up_table _ _ _ Hup) as Hm. pose proof (PTX_range va) as Hy.
  destruct (pt_tab _ _ _ _ O _ (PDX_range va) Hm) as (T1 & T2 & _). unfold clearpteu. wstep. eapply wp_eq; [by eapply walk_look|]. rewrite Hm.
  rewrite (proj2 (Z.eqb_neq _ _)) by (destruct T1 as [_ _ H]; unfold KERNBASE in H; lia). wstep.
  eapply wp_eq; [apply ld_word_run; [by eapply good_align|done|done]|]. eapply wp_eq; [apply st_word_run; [by eapply good_align|done|done]|].
  assert (wd (k_pages k) (table (k_pages k) pgdir (PDX va)) (PTX va) = pte_of (k_pages k) pgdir va) as -> by (unfold pte_of; by rewrite Hm).
  destruct (clear_u (pte_of (k_pages k) pgdir va)) as (C1 & C2 & C3). set (v := Z.land _ _) in *.
  destruct (reflag_ok k free pgdir va v I A Hva Hup) as (I' & A' & P' & B'); [by rewrite C1|done|]. split_and!; [done|done| | |done].
  - intros a Ha Hne. rewrite P' by done. by rewrite decide_False.
  - intros a Ha. unfold uopen, up. rewrite P' by by apply user_u32. case_decide as E.
    + split; [by rewrite C1, (pte_same_page _ _ _ _ E)|]. intros _. rewrite C3. by rewrite andb_false_r.
    + done.
Qed.

(** ** The stack of a thread *)

Lemma flags_open pg pgdir va : up pg pgdir va = true → PTE_FLAGS (pte_of pg pgdir va) = 7 → uopen pg pgdir va = true.
Proof using Type.
  intros Hu Hf. unfold uopen. rewrite Hu. simpl. apply negb_true_iff, Z.eqb_neq. intros E. unfold PTE_FLAGS, PTE_U in *.
  assert (Z.land (Z.land (pte_of pg pgdir va) 4095) 4 = 0) as E' by (rewrite <-Z.land_assoc; exact E). by rewrite Hf in E'.
Qed.

(** A stack page at [us] with a page below it that the user cannot touch. *)
Record has_stack (k : kmem) (pgdir us : Z) (k' : kmem) (f : list Z) : Prop := {
  hs_kinv : kinv kend k' f;
  hs_as : as_ok kend (k_pages k') pgdir f;
  hs_open : ∀ a, us ≤ a < us + 4096 → uopen (k_pages k') pgdir a = true;
  hs_guard : ∀ a, us - 4096 ≤ a < us → up (k_pages k') pgdir a = true ∧ uopen (k_pages k') pgdir a = false;
  hs_pte : ∀ a, is_u32 a → ¬ (us - 4096 ≤ a < us + 4096) → pte_of (k_pages k') pgdir a = pte_of (k_pages k) pgdir a;
  hs_bytes : ∀ a, user a → up (k_pages k) pgdir a = true → ubyte (k_pages k') pgdir a = ubyte (k_pages k) pgdir a
}.

Lemma allocustack_spec k free pgdir us : KERNBASE < kend → kinv kend k free → as_ok kend (k_pages k) pgdir free →
  us mod 4096 = 0 → 4096 ≤ us → us + 4096 < KERNBASE → (∀ a, us - 4096 ≤ a < us + 4096 → up (k_pages k) pgdir a = false) →
  wp (allocustack kend pgdir us) (λ r k', ∃ f, (r = 0 ∧ kinv kend k' f ∧ as_ok kend (k_pages k') pgdir f) ∨ (r = us ∧ has_stack k pgdir us k' f)) k.
Proof using Type.
  intros Hk I A Hal Hlo Hhi Habs. unfold allocustack. rewrite PGROUNDDOWN_val. replace (4096 * (us / 4096)) with us by (zify; Z.to_euclidean_division_equations; lia).
  unfold PGSIZE, USTACKSIZE. rewrite !u32_small by (unfold is_u32, two32, KERNBASE in *; lia).
  assert (PGROUNDUP (us - 4096) = us - 4096) as Er by (rewrite PGROUNDUP_val by (unfold KERNBASE in *; lia); zify; Z.to_euclidean_division_equations; lia).
  assert (∀ a, in_range (us - 4096) (us + 4096) a ↔ us - 4096 ≤ a < us + 4096) as Hir by (intros a; unfold in_range; zify; Z.to_euclidean_division_equations; lia).
  wstep. wcall (allocuvm_spec kend Hk k free pgdir (us - 4096) (us + 4096) I A); [lia|lia|rewrite Er; intros va Hva Hr; by apply Habs, Hir|].
  rewrite Er. intros r k1 [(-> & f & [I1 A1 S1 N1 K1 D1])|(-> & _ & [(f & I1 & A1) _ _ _])]; [|simpl; wstep; exists f; by left].
  rewrite (proj2 (Z.eqb_neq _ _)) by lia. assert (∀ a, us - 4096 ≤ a < us + 4096 → up (k_pages k1) pgdir a = true ∧ PTE_FLAGS (pte_of (k_pages k1) pgdir a) = 7) as Hnew.
  { intros a Ha. destruct (N1 a) as (? & ? & _); [unfold user; lia|by apply Hir|done]. }
  wstep. wcall (clearpteu_spec k1 f pgdir (us - 4096) I1 A1); [unfold user; lia|apply Hnew; lia|].
  intros [] k2 (I2 & A2 & P2 & U2 & B2). wstep. exists f. right. split; [done|].
  assert (∀ a, user a → up (k_pages k) pgdir a = true → ¬ (us - 4096 ≤ a < us + 4096)) as Hold by (intros a Ha Hu Hr; rewrite Habs in Hu; done).
  split; [done|done| | | |].
  - intros a Ha. assert (a / 4096 ≠ (us - 4096) / 4096) as Hne by (zify; Z.to_euclidean_division_equations; lia).
    unfold uopen, up. rewrite P2 by (done || unfold is_u32, two32, KERNBASE in *; lia). destruct (Hnew a ltac:(lia)). by apply flags_open.
  - intros a Ha. destruct (U2 a ltac:(unfold user; lia)) as [-> Hc]. split; [apply Hnew; lia|]. apply Hc. zify; Z.to_euclidean_division_equations; lia.
  - intros a Ha Hn. rewrite P2, K1; [done|done|by rewrite Hir|done|]. zify; Z.to_euclidean_division_equations; lia.
  - intros a Ha Hu. assert (up (k_pages k1) pgdir a = true) as Hu1 by (unfold up; rewrite K1; [done|by apply user_u32|rewrite Hir; by apply Hold]).
    rewrite B2 by done. unfold ubyte, frame. rewrite K1 by (by apply user_u32 || (rewrite Hir; by apply Hold)). fold (frame (k_pages k) pgdir a).
    destruct (as_user _ _ _ _ A a Ha Hu) as (_ & _ & F3 & F4). by destruct (D1 _ F3 F4) as [-> _].
Qed.
End copy.

Close Scope Z_scope.
