(* ===== verification/ProcTheorems.v ===== *)
(** * The pool of process table entries ([pinit], [allocproc] of
    [src/xv6-public/proc.c])

    Booting establishes the run-state invariant and puts every entry into
    the pool of free ones; [allocproc] takes an entry out of the pool, or
    leaves the pool as it was when there is no entry or no kernel stack. *)

From S2P Require Import Prelude.
From S2P Require Import ListH.
From S2P Require Import Spinlock.
From S2P Require Import Kstate.
From S2P Require Import ThreadCore.
From S2P Require Import Mlfq.
From S2P Require Import Sched.
From S2P Require Import SchedInv.
From S2P Require Import Sample.
From S2P Require Import Words.
From S2P Require Import Kalloc.
From S2P Require Import VmTheorems.
From S2P Require Import Proc.

Open Scope Z_scope.

Section proc.
Context {E : Type} `{!Hw E, !KMem E, !KFile E}.
Implicit Types s : kstate E.

(** The free entries, in the order of [ptable.free]. *)
Record pool (s : kstate E) (F : list nat) : Prop := {
  po_list : dlist (links s) NFree (NProc Ffree <$> F);
  po_count : nproc s = Z.of_nat (length F);
  po_unused : ∀ p, p ∈ F → (p < NPROC)%nat ∧ p_state (pr s p) = UNUSED
}.

(** ** One entry under construction *)

Abbreviation at_proc p x s := (upd_proc p (λ _, x) s).

Lemma at_proc_pr p x s : pr (at_proc p x s) p = x.
Proof using Type. apply pr_upd_eq. Qed.

Lemma at_proc_twice p x y s : at_proc p y (at_proc p x s) = at_proc p y s.
Proof using Type. unfold upd_proc, set_procs. simpl. by rewrite insert_insert_eq. Qed.

Lemma wr_at p f x (Q : unit → kstate E → Prop) s : Q tt (at_proc p (f x) s) → wp (wr p f) Q (at_proc p x s).
Proof using Type. intros H. apply wp_wr. unfold upd_proc at 1. rewrite at_proc_pr. fold (at_proc p (f x) (at_proc p x s)). by rewrite at_proc_twice. Qed.

Lemma rd_at {A} p (f : proc → A) x (Q : A → kstate E → Prop) s : Q (f x) (at_proc p x s) → wp (rd p f) Q (at_proc p x s).
Proof using Type. intros H. apply wp_rd. by rewrite at_proc_pr. Qed.

Lemma kword_at x a i : 0 ≤ i < 1024 → a = p_kstack x + 4 * i → kword x a = Some (Z.to_nat i).
Proof using Type.
  intros Hi ->. unfold kword, KSTACKSIZE. replace (p_kstack x + 4 * i - p_kstack x) with (i * 4) by lia.
  rewrite (proj2 (Z.leb_le _ _)), (proj2 (Z.ltb_lt _ _)), Z.mod_mul, Z.div_mul by lia. done.
Qed.

Lemma st_kstk_at p i v x a (Q : unit → kstate E → Prop) s : 0 ≤ i < 1024 → a = p_kstack x + 4 * i →
  Q tt (at_proc p (set_p_kstk (<[Z.to_nat i := v]> (p_kstk x)) x) s) → wp (st_kstk p a v) Q (at_proc p x s).
Proof using Type.
  intros Hi Ha H. unfold st_kstk. apply wp_bind, wp_gets. rewrite at_proc_pr, (kword_at x a i) by done. by apply wr_at.
Qed.

(** A process that starts in [forkret] and returns to [trapret]. *)
Record ready_to_run (x : proc) : Prop := {
  rr_state : p_state x = EMBRYO;
  rr_stack : p_kstack x ≠ 0;
  rr_tf : p_tf x = p_kstack x + KSTACKSIZE - 4 * Z.of_nat TF_WORDS;
  rr_context : p_context x = p_tf x - 4 - 4 * Z.of_nat CONTEXT_WORDS;
  rr_eip : kword x (at_word (p_context x) CTX_EIP) ≫= (λ i, p_kstk x !! i) = Some forkret_addr;
  rr_ret : kword x (p_tf x - 4) ≫= (λ i, p_kstk x !! i) = Some trapret
}.

Lemma init_kstack_spec p x s :
  p_state x = EMBRYO → p_kstack x ≠ 0 → length (p_kstk x) = 1024%nat →
  wp (init_kstack p) (λ _ s', ∃ y, s' = at_proc p y s ∧ ready_to_run y) (at_proc p x s).
Proof using Type.
  intros Hst Hk Hl. unfold init_kstack. apply wp_bind, rd_at, wp_bind, wr_at, wp_bind.
  change (Z.of_nat TF_WORDS) with 19. change (Z.of_nat CONTEXT_WORDS) with 5. change KSTACKSIZE with 4096.
  apply (st_kstk_at p 1004); [lia|simpl; lia|]. apply wp_bind, wr_at, wp_bind. unfold CONTEXT_WORDS. cbn [seq for_each].
  do 5 (apply wp_bind; unfold at_word;
    match goal with |- wp (st_kstk _ (_ + 4 * Z.of_nat ?i) _) _ _ => apply (st_kstk_at p (999 + Z.of_nat i)); [lia|simpl; lia|] end).
  apply wp_ret. unfold CTX_EIP. apply (st_kstk_at p 1003); [lia|simpl; lia|]. eexists. split; [reflexivity|].
  split; cbn [p_state p_kstack p_tf p_context p_kstk set_p_kstk set_p_context set_p_tf]; try done.
  - rewrite (kword_at _ _ 1003) by (unfold at_word, CTX_EIP; simpl; lia). simpl. rewrite list_lookup_insert_eq; [done|]. rewrite !length_insert. lia.
  - rewrite (kword_at _ _ 1004) by (simpl; lia). simpl. rewrite !list_lookup_insert_ne by lia. rewrite list_lookup_insert_eq; [done|]. lia.
Qed.

(** ** [allocproc] *)

(** What [proc.c] relies on when it takes a page of a sound memory: only the
    memory changes, it stays sound, and a page has 1024 words. *)
Class KAllocLaw (mem_ok : E → Prop) := kalloc_law : ∀ s, mem_ok (k_ext s) →
  wp kalloc (λ r s', ∃ e, s' = set_k_ext e s ∧ mem_ok e ∧ (r ≠ 0 → length (page_words r e) = 1024%nat)) s.

Lemma set_links_id s : set_links (links s) s = s.
Proof using Type. by destruct s. Qed.

Lemma pool_take s p F (h := links s) : pool s (p :: F) →
  wp (list_del (Some (NProc Ffree p))) (λ _ h', dlist h' NFree (NProc Ffree <$> F) ∧
    ∀ n, n ≠ NFree → (∀ q, n ≠ NProc Ffree q) → lh h' n = lh h n) h.
Proof using Type.
  intros [L _ _]. wcall (list_del_spec h NFree [] (NProc Ffree p) (NProc Ffree <$> F)); [exact L|].
  intros _ h' (L' & _ & _ & Fr). split; [exact L'|]. intros n H1 H2. apply Fr. simpl. rewrite !not_elem_of_cons. split_and!; [done|done|].
  intros (q & -> & _)%list_elem_of_fmap. by apply (H2 q).
Qed.

Lemma dlist_lh (h h' : gmap lnode (list_head lnode)) hd l : dlist h hd l → (∀ n, n ∈ hd :: l → lh h' n = lh h n) → dlist h' hd l.
Proof using Type.
  intros Hd Heq. apply (dlist_frame h h' hd l (filter (λ n, n ∉ hd :: l) (elements (dom h ∪ dom h')))); [|intros x Hx; rewrite list_elem_of_filter; tauto|done].
  intros n Hn. destruct (decide (n ∈ hd :: l)) as [Hin|Hin]; [by apply Heq|]. rewrite list_elem_of_filter, elem_of_elements in Hn.
  unfold lh. assert (n ∉ dom h ∪ dom h') as Hd' by tauto. apply not_elem_of_union in Hd' as [H1 H2].
  by rewrite (not_elem_of_dom_1 _ _ H1), (not_elem_of_dom_1 _ _ H2).
Qed.

(** C30: [allocproc] manages the pool of free entries.  It returns the first
    free entry, in state EMBRYO, with no children and a kernel stack on which
    the first context switch to it enters [forkret], which returns to
    [trapret]; or null when the pool is empty, or when there is no page for
    the stack, and then the entry is back at the front of the pool.  No
    other entry changes, and no list but the pool and the children of the
    entry. *)
Theorem allocproc_manages_pool mem_ok {KL : KAllocLaw mem_ok} s F :
  pool s F → mem_ok (k_ext s) →
  wp allocproc (λ r s', mem_ok (k_ext s') ∧
    match r with
    | Some p => ∃ F', F = p :: F' ∧ pool s' F' ∧ ready_to_run (pr s' p) ∧ dlist (links s') (NProc Fchildren p) []
    | None => pool s' F ∧ (F = [] → s' = s)
    end ∧
    (∀ q, hd_error F ≠ Some q → pr s' q = pr s q) ∧
    ∀ hd l, dlist (links s) hd l → (∀ n, n ∈ hd :: l → n ≠ NFree ∧ (∀ q, n ≠ NProc Ffree q) ∧ ∀ q, n ≠ NProc Fchildren q) → dlist (links s') hd l) s.
Proof using Type.
  intros P Hmem. unfold allocproc. apply wp_bind, wp_on_links. eapply wp_eq; [apply (list_empty_spec _ _ _ (po_list _ _ P))|].
  destruct F as [|p F]; simpl.
  { apply wp_ret. split_and!; [done|destruct P; by split|by destruct s|done|done]. }
  assert (∀ q, Some p ≠ Some q → p ≠ q) as Hpq by (intros q H E'; by rewrite E' in H).
  assert (NoDup (p :: F) ∧ length (p :: F) ≤ NPROC)%nat as [Hnd Hlen].
  { destruct (po_list _ _ P) as [[_ Hnd]%NoDup_cons _]. apply NoDup_fmap_1 in Hnd. split; [done|].
    apply NoDup_bounded; [done|]. intros q Hq. by apply (po_unused _ _ P). }
  apply NoDup_cons in Hnd as [HpF Hnd]. simpl in Hlen. pose proof (po_count _ _ P) as Hn. simpl length in Hn. unfold NPROC in Hlen.
  apply wp_bind. unfold list_first_entry. apply wp_bind, wp_on_links. unfold ld_next. apply wp_bind, wp_ret, wp_gets. rewrite !set_links_id.
  rewrite (dlist_next_first _ _ _ _ (po_list _ _ P)). apply wp_ret. apply wp_bind, wp_modify. apply wp_bind, wp_on_links. simpl.
  wcall (pool_take s p F P). intros _ h1 [L1 Fr1]. apply wp_bind, wp_wr.
  apply wp_bind, wp_on_links. wcall (list_head_init_spec h1 (NProc Fchildren p)). intros _ h2 [L2 Fr2].
  set (x1 := set_p_state EMBRYO (pr s p)). apply wp_bind.
  match goal with |- wp kalloc _ ?st => change st with (at_proc p x1 (set_links h2 (set_nproc (s32 (nproc s + -1)) s))) end.
  set (b0 := set_links h2 _). wcall (kalloc_law (at_proc p x1 b0)); [exact Hmem|]. intros k s3 (e & -> & Hme & Hk).
  change (set_k_ext e (at_proc p x1 b0)) with (at_proc p x1 (set_k_ext e b0)). set (b := set_k_ext e b0). apply wp_bind, wr_at.
  assert (dlist h2 NFree (NProc Ffree <$> F)) as L3.
  { eapply (dlist_frame h1 h2 _ _ _ Fr2); [|exact L1]. intros x Hx Hc. apply list_elem_of_singleton in Hc. subst x.
    apply elem_of_cons in Hx as [Hx|Hx]; [done|]. by apply list_elem_of_fmap in Hx as (q & ? & _). }
  assert (∀ n, n ≠ NFree → (∀ q, n ≠ NProc Ffree q) → (∀ q, n ≠ NProc Fchildren q) → lh h2 n = lh (links s) n) as Lh.
  { intros n H1 H2 H3. rewrite Fr2; [by apply Fr1|]. by apply not_elem_of_cons; split; [apply H3|apply not_elem_of_nil]. }
  assert (∀ y q, p ≠ q → pr (at_proc p y b) q = pr s q) as Hothers by (intros y q Hq; by rewrite pr_upd_ne).
  destruct (Z.eqb_spec k 0) as [->|Hk0].
  - apply wp_bind. unfold give_back. apply wp_bind, wr_at. set (x2 := set_p_state UNUSED _). apply wp_bind, wp_modify, wp_on_links.
    wcall (list_add_spec h2 NFree (NProc Ffree <$> F) (NProc Ffree p)); [exact L3| |].
    { apply not_elem_of_cons. split; [done|]. intros (q & [= ->] & Hq)%list_elem_of_fmap. done. }
    intros _ h3 [L4 Fr4]. apply wp_ret. split_and!; [exact Hme| |done| |].
    + split; [exact L4| |].
      * simpl. rewrite (s32_small (nproc s + -1)) by (unfold is_s32; lia). rewrite s32_small by (unfold is_s32; lia). lia.
      * intros q Hq. destruct (decide (p = q)) as [Eq|Eq].
        -- rewrite <-Eq. split; [by apply (po_unused _ _ P); left|]. change (p_state (pr (at_proc p x2 b) p) = UNUSED). by rewrite at_proc_pr.
        -- apply (po_unused _ _ P) in Hq as [Hq1 Hq2]. split; [done|]. change (p_state (pr (at_proc p x2 b) q) = UNUSED). by rewrite Hothers.
    + intros q Hq. change (pr (at_proc p x2 b) q = pr s q). by apply Hothers, Hpq.
    + intros hd l Hd Hn'. apply (dlist_lh (links s)); [done|]. intros n Hin. destruct (Hn' n Hin) as (H1 & H2 & H3). simpl.
      rewrite Fr4; [by apply Lh|]. rewrite !not_elem_of_cons. split_and!; [apply H2|done|]. intros (q & -> & _)%list_elem_of_fmap. by apply (H2 q).
  - apply wp_bind, wp_gets, wp_bind, wr_at, wp_bind. change (k_ext (at_proc p _ b)) with e.
    wcall (init_kstack_spec p (set_p_kstk (page_words k e) (set_p_kstack k x1)) b); [done|done|by apply Hk|].
    intros _ s4 (y & -> & R). apply wp_ret. split_and!; [exact Hme|..].
    + exists F. split_and!; [done| |by rewrite at_proc_pr|exact L2]. split; [exact L3| |].
      * simpl. rewrite s32_small by (unfold is_s32; lia). lia.
      * intros q Hq. rewrite Hothers by (intros Eq; by rewrite Eq in HpF). apply (po_unused _ _ P). by right.
    + intros q Hq. by apply Hothers, Hpq.
    + intros hd l Hd Hn'. apply (dlist_lh (links s)); [done|]. intros n Hin. destruct (Hn' n Hin) as (H1 & H2 & H3). by apply Lh.
Qed.

(** ** [pinit] *)

(** C31: booting establishes the invariants.  From a zeroed process table
    [pinit] makes the three queues, the list of running STRIDE threads and
    the sleep list empty, so that the run-state invariant holds of nothing;
    every entry of the table is in the pool of free entries, in order; the
    pins are at the heads of their queues and the MLFQ scheduler owns all
    100 tickets. *)
Theorem pinit_establishes s :
  procs s = ∅ → nproc s = Z.of_nat NPROC → length (mq_pin (k_mlfq s)) = QSIZE →
  wp pinit (λ _ s', sched_inv s' (λ _, []) [] ∧ pool s' (seq 0 NPROC) ∧ dlist (links s') NStrideRun [] ∧
    mq_tickets (k_mlfq s') = 100 ∧ ∀ l, (l < QSIZE)%nat → mq_pin (k_mlfq s') !! l = Some (Some (NQueue l))) s.
Proof using Type.
  intros Hp Hn Hpin. unfold pinit. apply wp_bind. unfold on_cpus. apply wp_zoom, wp_modify. set (s0 := set_k_cpus _ s).
  assert (procs s0 = ∅ ∧ nproc s0 = Z.of_nat NPROC ∧ length (mq_pin (k_mlfq s0)) = QSIZE) as (Hp0 & Hn0 & Hpin0) by done. clearbody s0. clear Hp Hn Hpin.
  apply wp_bind. eapply wp_mono.
  { apply (wp_for_seq (λ k s', procs s' = ∅ ∧ nproc s' = Z.of_nat NPROC ∧ length (mq_pin (k_mlfq s')) = QSIZE ∧
      ∀ l, (l < k)%nat → dlist (links s') (NQueue l) [] ∧ mq_pin (k_mlfq s') !! l = Some (Some (NQueue l))) _ QSIZE); [split_and!; [done|done|done|lia]|].
    intros k s1 Hk (H1 & H2 & H3 & H4). apply wp_bind, wp_on_links. wcall (list_head_init_spec (links s1) (NQueue k)). intros _ h [L Fr].
    eapply wp_eq; [by apply st_pin_run|]. split_and!; [done|done|simpl; by rewrite length_insert|]. intros l Hl. simpl.
    destruct (decide (l = k)) as [El|El]; [subst l; split; [done|]; apply list_lookup_insert_eq; lia|].
    destruct (H4 l ltac:(lia)) as [L' Hpl]. split; [|by rewrite list_lookup_insert_ne]. eapply dlist_frame; [exact Fr| |exact L'].
    intros y Hy%list_elem_of_singleton Hz%list_elem_of_singleton. subst y. congruence. }
  intros [] s1 (H1 & H2 & H3 & H4).
  assert (∀ h h' (x n : lnode), dlist h n [] → lframe [x] h h' → x ≠ n → dlist h' n []) as Hkeep.
  { intros h h' x n L Fr Hxn. eapply dlist_frame; [exact Fr| |exact L]. intros y Hy%list_elem_of_singleton Hz%list_elem_of_singleton. congruence. }
  apply wp_bind, wp_on_links. wcall (list_head_init_spec (links s1) NStrideRun). intros _ h1 [L1 F1]. apply wp_bind, wp_on_links. cbn [links set_links].
  wcall (list_head_init_spec h1 NSleep). intros _ h2 [L2 F2]. apply wp_bind, wp_on_links. cbn [links set_links].
  wcall (list_head_init_spec h2 NFree). intros _ h3 [L3 F3].
  match goal with |- wp _ _ ?st => set (s2 := st) end.
  set (heads := NStrideRun :: NSleep :: (NQueue <$> seq 0 QSIZE)).
  assert (∀ n, n ∈ heads → dlist (links s2) n []) as Hheads.
  { intros n Hn. simpl. unfold heads in Hn. rewrite !elem_of_cons in Hn. destruct Hn as [->|[->|(l & -> & Hl)%list_elem_of_fmap]].
    - eapply Hkeep; [eapply Hkeep; [exact L1|exact F2|done]|exact F3|done].
    - eapply Hkeep; [exact L2|exact F3|done].
    - apply elem_of_seq in Hl. eapply Hkeep; [eapply Hkeep; [eapply Hkeep; [apply H4; lia|exact F1|done]|exact F2|done]|exact F3|done]. }
  apply wp_bind. eapply wp_mono.
  { apply (wp_for_seq (λ k s', ∃ h, s' = set_links h s2 ∧ dlist h NFree (NProc Ffree <$> seq 0 k) ∧ ∀ n, n ∈ heads → dlist h n []) _ NPROC).
    - exists (links s2). split_and!; [by destruct s2|exact L3|done].
    - intros k s3 Hk (h & -> & L & Hh). apply wp_on_links. cbn [links set_links]. wcall (list_add_tail_spec h NFree (NProc Ffree <$> seq 0 k) (NProc Ffree k)); [exact L| |].
      { apply not_elem_of_cons. split; [done|]. intros (q & [= ->] & Hq%elem_of_seq)%list_elem_of_fmap. lia. }
      intros _ h' [L' F']. exists h'. split; [done|]. split.
      + change (1 + k)%nat with (S k). rewrite seq_S, fmap_app. exact L'.
      + intros n Hn. eapply dlist_frame; [exact F'| |by apply Hh]. intros y Hy%list_elem_of_singleton. subst y.
        rewrite !not_elem_of_cons. unfold heads in Hn. rewrite !elem_of_cons in Hn.
        assert (n ∉ NProc Ffree <$> seq 0 k) as Hnot by (intros (q & -> & _)%list_elem_of_fmap; destruct Hn as [|[|(l & ? & _)%list_elem_of_fmap]]; done).
        split_and!; [| |done]; intros ->; destruct Hn as [|[|(l & ? & _)%list_elem_of_fmap]]; done. }
  intros [] s3 (h & -> & L & Hh). apply wp_modify.
  assert (∀ q, pr (set_links h s2) q = proc0) as Hpr by (intros q; unfold pr; simpl; by rewrite H1, lookup_empty).
  assert (∀ l, (l < QSIZE)%nat → NQueue l ∈ heads) as HQ.
  { intros l Hl. unfold heads. rewrite !elem_of_cons. right. right. apply list_elem_of_fmap. exists l. split; [done|]. apply elem_of_seq. lia. }
  split_and!; [|split|apply Hh; left|done|intros l Hl; by apply H4].
  - split.
    + split; [intros l Hl; simpl; by apply Hh, HQ|]. intros l l' q _ _ Hq. by apply elem_of_nil in Hq.
    + split; [exact H3|]. intros l v Hv. simpl in Hv. assert (l < QSIZE)%nat as Hl by (rewrite <-H3; by eapply lookup_lt_Some).
      destruct (H4 l Hl) as [_ E4]. rewrite E4 in Hv. injection Hv as <-. by left.
    + simpl. apply Hh. right. left.
    + intros q [Hq|(l & _ & Hq)]; by apply elem_of_nil in Hq.
    + intros q Hq. by apply elem_of_nil in Hq.
    + intros l q _ Hq. by apply elem_of_nil in Hq.
    + intros q _ [Hq|(l & _ & Hq)]; by apply elem_of_nil in Hq.
  - exact L.
  - rewrite length_seq. exact H2.
  - intros q Hq%elem_of_seq. split; [lia|]. change (p_state (pr (set_links h s2) q) = UNUSED). by rewrite Hpr.
Qed.
End proc.

(** ** Over the page allocator *)

Section pages.
Context (kend : Z).

Definition page_ws (a : Z) (k : kmem) : list Z :=
  match k_pages k !! a with
  | Some d => (λ i, ld32 d (4 * i)) <$> seq 0 1024
  | None => []
  end.

(** The pages of [Kalloc], and no address spaces. *)
#[local] Instance page_mem : KMem kmem := {|
  kalloc := zoom k_ext set_k_ext Kalloc.kalloc;
  kfree a := zoom k_ext set_k_ext (Kalloc.kfree kend a);
  page_words := page_ws;
  setupkvm := fail NullDeref;
  inituvm _ := fail NullDeref;
  allocuvm _ _ _ := fail NullDeref;
  deallocuvm _ _ _ := fail NullDeref;
  copyuvm _ := fail NullDeref;
  freevm _ := fail NullDeref;
  allocustack _ _ := fail NullDeref;
  deallocustack _ _ := fail NullDeref;
  st_user _ _ := fail NullDeref;
  trapret := 4;
  forkret_addr := 8
|}.

(** [kalloc.c] keeps what [allocproc] relies on. *)
#[local] Instance page_law : KAllocLaw (λ k, ∃ free, kinv kend k free).
Proof using Type.
  intros s (free & I). apply wp_zoom. wcall (Kalloc.kalloc_spec kend (k_ext s) free I). intros r k. destruct free as [|a l].
  - intros [-> ->]. exists (k_ext s). split_and!; [done|by exists []|done].
  - intros (-> & I' & Ep). exists k. split_and!; [done|by exists l|]. intros _. simpl. unfold page_ws. rewrite Ep.
    pose proof (ki_chain _ _ _ I) as (_ & d & Hd & _). rewrite Hd. by rewrite length_fmap, length_seq.
Qed.
End pages.

(** ** On concrete states *)

Definition zeroed (k : kmem) : kstate kmem :=
  mkK ∅ ∅ (mkMlfq 0 0 0 (replicate QSIZE None)) (mkStride 0 []) 256 1 None sample_cpus k.

Lemma pinit_establishes_witness :
  wp pinit (λ _ s', sched_inv s' (λ _, []) [] ∧ mq_tickets (k_mlfq s') = 100) (zeroed two_free).
Proof.
  eapply wp_mono; [apply (pinit_establishes (zeroed two_free)); reflexivity|]. intros [] s' (I & _ & _ & T & _). done.
Defined.

(** Entries 5 and 9 are free. *)
Definition two_entries : kstate kmem :=
  mkK ∅ (list_to_map (ring_cells NFree [NProc Ffree 5; NProc Ffree 9])) (mkMlfq 100 0 0 (replicate QSIZE None)) (mkStride 0 []) 2 1 None
    sample_cpus two_free.

Lemma allocproc_manages_pool_witness :
  wp (allocproc (KMem0 := page_mem 2151677952)) (λ r s', match r with Some p => p = 5%nat | None => pool s' [5; 9]%nat end) two_entries.
Proof.
  eapply wp_mono; [apply (allocproc_manages_pool (KMem0 := page_mem 2151677952) _ (KL := page_law 2151677952) two_entries [5; 9]%nat)|].
  - split.
    + apply dlistb_ok. vm_compute. reflexivity.
    + reflexivity.
    + intros p Hp. unfold pr. simpl. rewrite lookup_empty. split; [|done]. rewrite !elem_of_cons, elem_of_nil in Hp. unfold NPROC. lia.
  - exists [2151682048; 2151686144]. apply two_free_ok.
  - intros [p|] s' (_ & H & _); [destruct H as (F' & [= <- _] & _); done|apply H].
Defined.

Close Scope Z_scope.
