(* ===== verification/Syscall.v ===== *)
(** * System calls: arguments and dispatch ([src/xv6-public/syscall.c])

    A user program puts the number of the call in [%eax] and the arguments
    on its stack.  The trap frame is on the kernel stack of the process, as
    in [Proc]; user memory is what the bytes of the current address space
    are, through [UMem].  Each routine that returns 0 or -1 and stores its
    result through a pointer returns the result or nothing. *)

From S2P Require Import Prelude.
From S2P Require Import Spinlock.
From S2P Require Import Kstate.
From S2P Require Import ThreadCore.
From S2P Require Import Mlfq.
From S2P Require Import Sched.
From S2P Require Import Proc.

Open Scope Z_scope.

(** The bytes that the current page table maps, the kernel's included. *)
Class UMem (E : Type) := { u_bytes : E → gmap Z Z }.

(** The names of [syscall.h]. *)
Inductive sysname :=
| SYS_fork | SYS_exit | SYS_wait | SYS_pipe | SYS_read | SYS_kill | SYS_exec | SYS_fstat
| SYS_chdir | SYS_dup | SYS_getpid | SYS_sbrk | SYS_sleep | SYS_uptime | SYS_open | SYS_write
| SYS_mknod | SYS_unlink | SYS_link | SYS_mkdir | SYS_close | SYS_yield | SYS_getlev
| SYS_set_cpu_share | SYS_thread_create | SYS_thread_exit | SYS_thread_join | SYS_gettid
| SYS_futex_wait | SYS_futex_wake | SYS_pread | SYS_pwrite.

#[global] Instance sysname_eq_dec : EqDecision sysname.
Proof. solve_decision. Defined.

(** The array [syscalls]: the numbers start at 1. *)
Definition syscalls : list (option sysname) :=
  [None; Some SYS_fork; Some SYS_exit; Some SYS_wait; Some SYS_pipe; Some SYS_read; Some SYS_kill;
   Some SYS_exec; Some SYS_fstat; Some SYS_chdir; Some SYS_dup; Some SYS_getpid; Some SYS_sbrk;
   Some SYS_sleep; Some SYS_uptime; Some SYS_open; Some SYS_write; Some SYS_mknod; Some SYS_unlink;
   Some SYS_link; Some SYS_mkdir; Some SYS_close; Some SYS_yield; Some SYS_getlev;
   Some SYS_set_cpu_share; Some SYS_thread_create; Some SYS_thread_exit; Some SYS_thread_join;
   Some SYS_gettid; Some SYS_futex_wait; Some SYS_futex_wake; Some SYS_pread; Some SYS_pwrite].

Section syscall.
  Context {E : Type} `{!UMem E}.
  Abbreviation KM := (M (kstate E)).

(** [*(char* )a] and [*(int* )a] at a user address. *)
Definition ld_user8 (a : Z) : KM Z :=
  b ← gets (λ s, u_bytes (k_ext s) !! a);
  match b with Some v => mret v | None => fail WildPtr end.
Definition ld_user (a : Z) : KM Z :=
  b0 ← ld_user8 a;
  b1 ← ld_user8 (u32 (a + 1));
  b2 ← ld_user8 (u32 (a + 2));
  b3 ← ld_user8 (u32 (a + 3));
  mret (s32 (b0 + 256 * b1 + 65536 * b2 + 16777216 * b3)).

(** [p->tf->f]. *)
Definition ld_tf (p f : nat) : KM Z := tf ← rd p p_tf; ld_kstk p (at_word tf f).

(** The two regions of a thread: [bound1] and [base2] of the routines below. *)
Definition bounds : KM (Z * Z) :=
  curproc ← on_cpus myproc;
  curproc ← deref curproc;
  m ← main_thread curproc;
  bound1 ← rd m p_sz;
  base2 ← rd curproc p_ustack;
  mret (bound1, base2).

Definition fetchint (addr : Z) : KM (option Z) :=
  b ← bounds;
  let '(bound1, base2) := b in
  let bound2 := u32 (base2 + USTACKSIZE) in
  if (Z.leb 0 addr && Z.leb (u32 (addr + 4)) bound1) || (Z.leb base2 addr && Z.leb (u32 (addr + 4)) bound2) then
    v ← ld_user addr;
    mret (Some v)
  else mret None.

(** The loop of [fetchstr] from [addr] to [ep]: the length of the string. *)
Definition scan_nul (addr ep : Z) : KM (option Z) :=
  loop (S (Z.to_nat (ep - addr))) (λ s,
    if Z.ltb s ep then
      c ← ld_user8 s;
      if Z.eqb c 0 then mret (inr (Some (s - addr))) else mret (inl (s + 1))
    else mret (inr None)) addr.

Definition fetchstr (addr : Z) : KM (option Z) :=
  b ← bounds;
  let '(bound1, base2) := b in
  let bound2 := u32 (base2 + USTACKSIZE) in
  if Z.leb 0 addr && Z.ltb addr bound1 then scan_nul addr bound1
  else if Z.leb base2 addr && Z.ltb addr bound2 then scan_nul addr bound2
  else mret None.

Definition argint (n : Z) : KM (option Z) :=
  p ← on_cpus myproc;
  p ← deref p;
  esp ← ld_tf p TF_ESP;
  fetchint (u32 (esp + 4 + 4 * n)).

(** The pointer. *)
Definition argptr (n size : Z) : KM (option Z) :=
  b ← bounds;
  let '(bound1, base2) := b in
  let bound2 := u32 (base2 + USTACKSIZE) in
  i ← argint n;
  match i with
  | None => mret None
  | Some i =>
      let i := u32 i in
      if Z.leb 0 size then
        if (Z.leb 0 i && Z.leb (u32 (i + size)) bound1) || (Z.leb base2 i && Z.leb (u32 (i + size)) bound2)
        then mret (Some i)
        else mret None
      else mret None
  end.

(** The pointer and the length of the string. *)
Definition argstr (n : Z) : KM (option (Z * Z)) :=
  addr ← argint n;
  match addr with
  | None => mret None
  | Some addr =>
      len ← fetchstr (u32 addr);
      mret ((λ l, (u32 addr, l)) <$> len)
  end.

(** [syscall]: [run] is the call that [syscalls[num]] points to.  A call
    that sleeps comes back to [syscall_return] with its value. *)
Definition syscall_return (v : Z) : KM unit :=
  p ← on_cpus myproc;
  p ← deref p;
  st_tf p TF_EAX (u32 v).

Definition syscall (run : sysname → KM (round Z)) : KM (round unit) :=
  p ← on_cpus myproc;
  p ← deref p;
  num ← ld_tf p TF_EAX;
  let num := s32 num in
  match (if Z.ltb 0 num && Z.ltb num (Z.of_nat (length syscalls)) then syscalls !! Z.to_nat num ≫= id else None) with
  | Some name =>
      r ← run name;
      match r with
      | Done v => st_tf p TF_EAX (u32 v);; mret (Done tt)
      | Sleeps sw => mret (Sleeps sw)
      end
  | None =>
      st_tf p TF_EAX (u32 (-1));;
      mret (Done tt)
  end.
End syscall.

Close Scope Z_scope.
