(* ===== verification/Sysproc.v ===== *)
(** * System calls on processes, futexes and traps ([src/xv6-public/sysproc.c],
    [src/xv6-public/futex.c], [src/xv6-public/trap.c])

    The system calls fetch their arguments and call the routines of [Sched],
    [Proc] and [Thread].  A call that waits is split at its sleep: the round
    up to it, and the round that goes on when the process is woken.  [trap]
    is split at the calls that switch to another process; the messages it
    prints are left out. *)

From S2P Require Import Prelude.
From S2P Require Import Spinlock.
From S2P Require Import Kstate.
From S2P Require Import ThreadCore.
From S2P Require Import Mlfq.
From S2P Require Import Sched.
From S2P Require Import Proc.
From S2P Require Import Thread.
From S2P Require Import Syscall.

Open Scope Z_scope.

(** The tick counter, and the address [&ticks] that sleepers wait on. *)
Class Clock (E : Type) := {
  ticks : E → Z;
  set_ticks : Z → E → E;
  ticks_chan : Z
}.

(** The device handlers that [trap] calls. *)
Class Devices (E : Type) := {
  lapiceoi : M (kstate E) unit;
  ideintr : M (kstate E) unit;
  kbdintr : M (kstate E) unit;
  uartintr : M (kstate E) unit
}.

Definition T_SYSCALL : Z := 64.
Definition T_IRQ0 : Z := 32.
Definition IRQ_TIMER : Z := 0.
Definition IRQ_KBD : Z := 1.
Definition IRQ_COM1 : Z := 4.
Definition IRQ_IDE : Z := 14.
Definition IRQ_SPURIOUS : Z := 31.
Definition DPL_USER : Z := 3.

Section sysproc.
  Context {E : Type} `{!Hw E, !KMem E, !KFile E, !UMem E, !Clock E, !Devices E}.
  Abbreviation KM := (M (kstate E)).

Definition curproc_ : KM nat := p ← on_cpus myproc; deref p.

(** Up to three integer arguments; the code gives up at the first that
    cannot be fetched. *)
Definition with_args1 (k : Z → KM (round Z)) : KM (round Z) :=
  a ← argint 0;
  match a with None => mret (Done (-1)) | Some a => k a end.
Definition with_args2 (k : Z → Z → KM (round Z)) : KM (round Z) :=
  with_args1 (λ a, b ← argint 1; match b with None => mret (Done (-1)) | Some b => k a b end).
Definition with_args3 (k : Z → Z → Z → KM (round Z)) : KM (round Z) :=
  with_args2 (λ a b, c ← argint 2; match c with None => mret (Done (-1)) | Some c => k a b c end).

Definition sys_fork : KM (round Z) := v ← fork; mret (Done v).
Definition sys_wait : KM (round Z) := wait.
Definition sys_kill : KM (round Z) := with_args1 (λ pid, v ← kill pid; mret (Done v)).
Definition sys_getpid : KM (round Z) := p ← curproc_; v ← rd p p_pid; mret (Done v).

Definition sys_sbrk : KM (round Z) :=
  with_args1 (λ n,
    p ← curproc_;
    m ← main_thread p;
    addr ← rd m p_sz;
    r ← growproc n;
    mret (Done (if Z.ltb r 0 then -1 else s32 addr))).

(** One turn of the loop of [sys_sleep], with [tickslock] held. *)
Definition sleep_turn (n ticks0 : Z) : KM (round Z) :=
  t ← gets (λ s, ticks (k_ext s));
  if Z.ltb (u32 (t - ticks0)) (u32 n) then
    p ← curproc_;
    killed ← rd p p_killed;
    if negb (Z.eqb killed 0) then
      on_cpus (release Lticks);;
      mret (Done (-1))
    else
      sw ← sleep (Caddr ticks_chan) (Some Lticks);
      mret (Sleeps sw)
  else
    on_cpus (release Lticks);;
    mret (Done 0).

Definition sys_sleep : KM (round Z) :=
  with_args1 (λ n,
    on_cpus (acquire Lticks);;
    ticks0 ← gets (λ s, ticks (k_ext s));
    sleep_turn n ticks0).
Definition sys_sleep_back (n ticks0 intena : Z) : KM (round Z) :=
  sleep_back Lticks intena;;
  sleep_turn n ticks0.

Definition sys_yield : KM (round Z) := sw ← yield; mret (Sleeps sw).

Definition sys_getlev : KM (round Z) :=
  p ← curproc_;
  ty ← rd p p_type;
  l ← rd p p_privlevel;
  mret (Done (if decide (ty = MLFQ) then l else -1)).

Definition sys_set_cpu_share : KM (round Z) := with_args1 (λ n, v ← set_cpu_share n; mret (Done v)).

Definition sys_uptime : KM (round Z) :=
  on_cpus (acquire Lticks);;
  xticks ← gets (λ s, ticks (k_ext s));
  on_cpus (release Lticks);;
  mret (Done (s32 xticks)).

Definition sys_thread_create : KM (round Z) :=
  with_args3 (λ thread start_routine arg,
    v ← thread_create (u32 thread) (u32 start_routine) arg;
    mret (Done v)).

(** A thread that is not a main thread does not come back. *)
Definition sys_thread_exit : KM (round Z) :=
  with_args1 (λ retval,
    sw ← thread_exit retval;
    mret (match sw with Some sw => Sleeps sw | None => Done 0 end)).

Definition sys_thread_join : KM (round Z) :=
  with_args2 (λ thread retval, thread_join thread (Some (u32 retval))).

Definition sys_gettid : KM (round Z) := p ← curproc_; v ← rd p p_tid; mret (Done v).

(** ** [futex.c] *)

Definition futex_wait (addr tid : Z) : KM (round Z) :=
  on_cpus (acquire Lfutex);;
  v ← ld_user addr;
  if Z.eqb v tid then
    th ← curproc_;
    t ← rd th p_tid;
    if Z.eqb tid t then
      sw ← sleep (Cproc th) (Some Lfutex);
      mret (Sleeps sw)
    else
      on_cpus (release Lfutex);;
      mret (Done (-1))
  else
    on_cpus (release Lfutex);;
    mret (Done 0).
Definition futex_wait_back (intena : Z) : KM (round Z) :=
  sleep_back Lfutex intena;;
  on_cpus (release Lfutex);;
  mret (Done 0).

Definition futex_wake (addr : Z) : KM (round Z) :=
  on_cpus (acquire Lfutex);;
  p ← curproc_;
  v ← ld_user addr;
  th ← get_thread p v;
  match th with
  | Some th =>
      wakeup (Cproc th);;
      on_cpus (release Lfutex);;
      mret (Done 0)
  | None =>
      on_cpus (release Lfutex);;
      mret (Done (-1))
  end.

Definition sys_futex_wait : KM (round Z) := with_args2 (λ addr val, futex_wait (u32 addr) val).
Definition sys_futex_wake : KM (round Z) := with_args1 (λ addr, futex_wake (u32 addr)).

(** ** [trap.c] *)

(** The words of the trap frame that [trap] looks at. *)
Record trapinfo := mkTrap { tf_trapno : Z; tf_cs : Z; tf_eip : Z; tf_eax : Z; tf_addr : Z }.

(** What [trap] does next: end the process, end the thread, run the system
    call, give up the CPU, or go on. *)
Inductive tnext := TExit | TThreadExit (v : Z) | TSyscall | TYield | TGo | TReturn.
#[global] Instance tnext_eq_dec : EqDecision tnext.
Proof. solve_decision. Defined.

Definition killed_user (tf : trapinfo) : KM bool :=
  p ← on_cpus myproc;
  match p with
  | None => mret false
  | Some p =>
      killed ← rd p p_killed;
      mret (negb (Z.eqb killed 0) && Z.eqb (Z.land (tf_cs tf) 3) DPL_USER)
  end.

(** Up to the end of the [switch]. *)
Definition trap_dispatch (tf : trapinfo) : KM tnext :=
  let no := tf_trapno tf in
  if Z.eqb no T_SYSCALL then
    p ← curproc_;
    killed ← rd p p_killed;
    if negb (Z.eqb killed 0) then mret TExit
    else
      wr p (set_p_tf (tf_addr tf));;
      mret TSyscall
  else if Z.eqb no (T_IRQ0 + IRQ_TIMER) then
    id ← on_cpus cpuid;
    (if Nat.eqb id 0 then
       on_cpus (acquire Lticks);;
       modify (λ s, set_k_ext (set_ticks (u32 (ticks (k_ext s) + 1)) (k_ext s)) s);;
       wakeup (Caddr ticks_chan);;
       on_cpus (release Lticks)
     else mret tt);;
    lapiceoi;;
    mret TGo
  else if Z.eqb no (T_IRQ0 + IRQ_IDE) then ideintr;; lapiceoi;; mret TGo
  else if Z.eqb no (T_IRQ0 + IRQ_IDE + 1) then mret TGo
  else if Z.eqb no (T_IRQ0 + IRQ_KBD) then kbdintr;; lapiceoi;; mret TGo
  else if Z.eqb no (T_IRQ0 + IRQ_COM1) then uartintr;; lapiceoi;; mret TGo
  else if Z.eqb no (T_IRQ0 + 7) || Z.eqb no (T_IRQ0 + IRQ_SPURIOUS) then lapiceoi;; mret TGo
  else
    p ← on_cpus myproc;
    match p with
    | None => panic "trap"
    | Some p =>
        if Z.eqb (Z.land (tf_cs tf) 3) 0 then panic "trap"
        else
          tid ← rd p p_tid;
          if Z.eqb (tf_eip tf) MAGICEXIT && Z.ltb 0 tid then mret (TThreadExit (tf_eax tf))
          else
            wr p (set_p_killed 1);;
            mret TGo
    end.

(** After the [switch]. *)
Definition trap_after (tf : trapinfo) : KM tnext :=
  k ← killed_user tf;
  if k : bool then mret TExit
  else
    p ← on_cpus myproc;
    match p with
    | None => mret TReturn
    | Some p =>
        st ← rd p p_state;
        if bool_decide (st = RUNNING) && Z.eqb (tf_trapno tf) (T_IRQ0 + IRQ_TIMER) then mret TYield else mret TReturn
    end.

(** After [yield], or with nothing to yield for. *)
Definition trap_last (tf : trapinfo) : KM tnext :=
  k ← killed_user tf;
  mret (if k : bool then TExit else TReturn).

(** When the system call has returned. *)
Definition trap_syscall_done : KM tnext :=
  p ← curproc_;
  killed ← rd p p_killed;
  mret (if Z.eqb killed 0 then TReturn else TExit).
End sysproc.

Close Scope Z_scope.
