(* ===== verification/SyscallTheorems.v ===== *)
(** * What argument fetching guarantees

    The regions of a thread are the memory of its process, below
    [main_thread(p)->sz], and its own user stack.  [argptr], [argint] and
    [fetchstr] accept exactly what lies in one of them, as long as the end
    of the range does not wrap around; when it does, the tests pass. *)

From S2P Require Import Prelude.
From S2P Require Import Spinlock.
From S2P Require Import Kstate.
From S2P Require Import ThreadCore.
From S2P Require Import Proc.
From S2P Require Import Syscall.

Open Scope Z_scope.

Section fetch.
  Context {E : Type} `{!UMem E}.
  Abbreviation KM := (M (kstate E)).
  Implicit Types s : kstate E.

(** Process [p] runs on the executing CPU. *)
Definition runs (p : nat) (k : cpus) : Prop := ∃ i c, at_cpu k i c ∧ cli_ok k c ∧ cpu_proc c = Some p.
(** [s'] is [s] but for the bookkeeping of interrupts. *)
Definition near (p : nat) (s s' : kstate E) : Prop := ∃ k, s' = set_k_cpus k s ∧ runs p k.

Lemma near_refl p s : runs p (k_cpus s) → near p s s.
Proof using Type. intros H. exists (k_cpus s). by destruct s. Qed.
Lemma near_runs p s s' : near p s s' → runs p (k_cpus s').
Proof using Type. by intros (k & -> & H). Qed.
Lemma near_pr p s s' q : near p s s' → pr s' q = pr s q.
Proof using Type. by intros (k & -> & _). Qed.
Lemma near_ext p s s' : near p s s' → k_ext s' = k_ext s.
Proof using Type. by intros (k & -> & _). Qed.
Lemma near_trans p s s1 s2 : near p s s1 → near p s1 s2 → near p s s2.
Proof using Type. intros (k1 & -> & _) (k2 & -> & H). by exists k2. Qed.

Lemma myproc_near p s : runs p (k_cpus s) → wp (on_cpus myproc) (λ r s', r = Some p ∧ near p s s') s.
Proof using Type.
  intros (i & c & Hat & Hok & Hp). eapply wp_eq; [apply zoom_ok; by apply (myproc_run _ i c)|].
  split; [done|]. exists (refreshed i (k_cpus s)). split; [done|].
  destruct Hat as [Ha Hc]. exists i, (if Z.eqb (ncli c) 0 then set_intena (if_bits (k_cpus s)) c else c). split_and!.
  - split; unfold refreshed, upd_cpu; simpl; [rewrite find_apic_alter; [done|by intros x; case_match]|].
    by rewrite list_lookup_alter_eq, Hc.
  - destruct Hok as [H1 H2]. by case_match.
  - by case_match.
Qed.

Lemma main_of_near p s s' q m : near p s s' → main_of s q m → main_of s' q m.
Proof using Type.
  intros Hn (n & Hle & Hc). exists n. split; [done|]. induction Hc as [m Hm|n th th' m Hm Hne Hc IH].
  - constructor. by rewrite (near_pr _ _ _ _ Hn).
  - econstructor; [by rewrite (near_pr _ _ _ _ Hn)|done|apply IH; lia].
Qed.

Lemma main_thread_near s q m : main_of s q m → wp (main_thread q) (λ r s', r = m ∧ s' = s) s.
Proof using Type. intros H. by eapply wp_eq; [by apply main_thread_run|]. Qed.

(** ** The view of a thread *)

(** The [int] at [a]. *)
Definition int_at (b : gmap Z Z) (a : Z) : option Z :=
  b0 ← b !! a;
  b1 ← b !! u32 (a + 1);
  b2 ← b !! u32 (a + 2);
  b3 ← b !! u32 (a + 3);
  Some (s32 (b0 + 256 * b1 + 65536 * b2 + 16777216 * b3)).

(** Thread [p] of the process with main thread [m] runs and entered the
    kernel with its stack pointer at [esp]. *)
Record thread_view (s : kstate E) (p m : nat) (esp : Z) : Prop := {
  tv_runs : runs p (k_cpus s);
  tv_main : main_of s p m;
  tv_sz : 0 ≤ p_sz (pr s m) < two32;
  tv_stack : 0 ≤ p_ustack (pr s p) ∧ p_ustack (pr s p) + USTACKSIZE < two32;
  tv_esp : is_u32 esp ∧ (kword (pr s p) (at_word (p_tf (pr s p)) TF_ESP) ≫= λ i, p_kstk (pr s p) !! i) = Some esp
}.

(** The bytes [a], ..., [a + n - 1] are the user's. *)
Definition user_range (s : kstate E) (p m : nat) (a n : Z) : Prop :=
  (0 ≤ a ∧ a + n ≤ p_sz (pr s m)) ∨ (p_ustack (pr s p) ≤ a ∧ a + n ≤ p_ustack (pr s p) + USTACKSIZE).
#[global] Instance user_range_dec s p m a n : Decision (user_range s p m a n).
Proof using Type. apply _. Defined.

Definition arg_addr (esp n : Z) : Z := u32 (esp + 4 + 4 * n).

Lemma view_near s s' p m esp : near p s s' → thread_view s p m esp → thread_view s' p m esp.
Proof using Type.
  intros Hn [H1 H2 H3 H4 H5]. split; [by eapply near_runs|by eapply main_of_near| | |];
    by rewrite ?(near_pr _ _ _ _ Hn).
Qed.
Lemma range_near s s' p m a n : near p s s' → user_range s' p m a n ↔ user_range s p m a n.
Proof using Type. intros Hn. unfold user_range. by rewrite !(near_pr _ _ _ _ Hn). Qed.

Lemma bounds_view s p m esp : thread_view s p m esp →
  wp bounds (λ r s', r = (p_sz (pr s m), p_ustack (pr s p)) ∧ near p s s') s.
Proof using Type.
  intros H. unfold bounds. wstep. wcall myproc_near; [apply H|]. intros r s1 [-> Hn]. wsteps.
  wcall main_thread_near; [by eapply main_of_near; [|apply H]|]. intros r s2 [-> ->]. unfold rd. wsteps.
  by rewrite !(near_pr _ _ _ _ Hn).
Qed.

Lemma ld_user_view s a v : int_at (u_bytes (k_ext s)) a = Some v → ld_user a s = Ok (v, s).
Proof using Type.
  unfold int_at, ld_user, ld_user8. intros H. unfold mbind, M_bind, gets. simpl.
  destruct (u_bytes (k_ext s) !! a) as [b0|]; [|done]. simpl in *. destruct (_ !! u32 (a + 1)) as [b1|]; [|done]. simpl in *.
  destruct (_ !! u32 (a + 2)) as [b2|]; [|done]. simpl in *. destruct (_ !! u32 (a + 3)) as [b3|]; [|done]. by injection H as <-.
Qed.

(** The test of the routines, when the end does not wrap. *)
Lemma range_test s p m esp a n : thread_view s p m esp → 0 ≤ a → 0 ≤ n → a + n < two32 →
  (Z.leb 0 a && Z.leb (u32 (a + n)) (p_sz (pr s m))) || (Z.leb (p_ustack (pr s p)) a && Z.leb (u32 (a + n)) (u32 (p_ustack (pr s p) + USTACKSIZE)))
  = bool_decide (user_range s p m a n).
Proof using Type.
  intros [_ _ H3 [H4 H4'] _] Ha Hn Hlt. rewrite !u32_small by (unfold is_u32, USTACKSIZE in *; lia).
  apply eq_true_iff_eq. rewrite bool_decide_eq_true. unfold user_range. rewrite orb_true_iff, !andb_true_iff, !Z.leb_le. tauto.
Qed.

Lemma fetchint_view s p m esp a v : thread_view s p m esp → 0 ≤ a → a + 4 < two32 →
  (user_range s p m a 4 → int_at (u_bytes (k_ext s)) a = Some v) →
  wp (fetchint a) (λ r s', near p s s' ∧ r = if decide (user_range s p m a 4) then Some v else None) s.
Proof using Type.
  intros H Ha Hlt Hv. unfold fetchint. wstep. wcall bounds_view; [done|]. intros r s1 [-> Hn]. cbv beta iota zeta.
  rewrite (range_test s p m esp) by (done || lia). case_bool_decide as Hr.
  - wstep. eapply wp_eq; [apply ld_user_view; rewrite (near_ext _ _ _ Hn); by apply Hv|]. wstep. by rewrite decide_True.
  - wstep. by rewrite decide_False.
Qed.

Lemma argint_view s p m esp n v : thread_view s p m esp → arg_addr esp n + 4 < two32 →
  (user_range s p m (arg_addr esp n) 4 → int_at (u_bytes (k_ext s)) (arg_addr esp n) = Some v) →
  wp (argint n) (λ r s', near p s s' ∧ r = if decide (user_range s p m (arg_addr esp n) 4) then Some v else None) s.
Proof using Type.
  intros H Hlt Hv. unfold argint. wstep. wcall myproc_near; [apply H|]. intros r s1 [-> Hn]. wsteps.
  pose proof (view_near _ _ _ _ _ Hn H) as H1. unfold ld_tf, ld_kstk, rd. wsteps.
  destruct (tv_esp _ _ _ _ H1) as [_ Hesp]. rewrite Hesp. wsteps.
  wcall (fetchint_view s1 p m esp (arg_addr esp n) v); [done|apply u32_range|done|rewrite (range_near _ _ _ _ _ _ Hn), (near_ext _ _ _ Hn); done|].
  intros r s2 [Hn2 ->]. split; [by eapply near_trans|]. apply decide_ext. by apply range_near.
Qed.

(** C14: [argptr] hands out only the user's memory, and all of it.  For an
    argument slot that can be read and a pointer whose range does not run
    past the end of the address space, [argptr] returns the pointer exactly
    when the slot, and the whole range, lie in the process memory or in the
    thread's own stack, for sizes that are not negative; otherwise it
    returns -1. *)
Theorem argptr_confines s p m esp n size v :
  thread_view s p m esp → arg_addr esp n + 4 < two32 →
  (user_range s p m (arg_addr esp n) 4 → int_at (u_bytes (k_ext s)) (arg_addr esp n) = Some v) →
  u32 v + size < two32 →
  wp (argptr n size) (λ r s', near p s s' ∧
    r = if decide (user_range s p m (arg_addr esp n) 4 ∧ 0 ≤ size ∧ user_range s p m (u32 v) size) then Some (u32 v) else None) s.
Proof using Type.
  intros H Hlt Hv Hsz. unfold argptr. wstep. wcall bounds_view; [done|]. intros r s1 [-> Hn]. cbv beta iota zeta. wstep.
  pose proof (view_near _ _ _ _ _ Hn H) as H1.
  wcall (argint_view s1 p m esp n v); [done|done|rewrite (range_near _ _ _ _ _ _ Hn), (near_ext _ _ _ Hn); done|].
  intros r s2 [Hn2 ->]. pose proof (near_trans _ _ _ _ Hn Hn2) as Hn'.
  rewrite (decide_ext _ (user_range s p m (arg_addr esp n) 4)) by by apply range_near.
  destruct (decide (user_range s p m (arg_addr esp n) 4)) as [Hu|Hu]; [|wstep; rewrite decide_False; [done|tauto]].
  destruct (Z.leb_spec 0 size) as [H0|H0]; [|wstep; rewrite decide_False; [done|lia]].
  rewrite (range_test s p m esp) by (done || apply u32_range || lia).
  case_bool_decide; wstep; [rewrite decide_True|rewrite decide_False]; tauto.
Qed.

(** The bound checks wrap around.  Every address of the upper half of
    the address space, where the kernel is mapped, passes [argptr] with the
    size that runs exactly to its end: [(uint)i + size] is 0, which is below
    every bound.  [read] with such arguments stores what it reads into the
    kernel. *)
Theorem argptr_admits_kernel s p m esp n a :
  thread_view s p m esp → arg_addr esp n + 4 < two32 → user_range s p m (arg_addr esp n) 4 →
  2147483648 < a < two32 → int_at (u_bytes (k_ext s)) (arg_addr esp n) = Some (s32 a) →
  wp (argptr n (two32 - a)) (λ r s', near p s s' ∧ r = Some a) s.
Proof using Type.
  intros H Hlt Hu Ha Hv. unfold argptr. wstep. wcall bounds_view; [done|]. intros r s1 [-> Hn]. cbv beta iota zeta. wstep.
  pose proof (view_near _ _ _ _ _ Hn H) as H1.
  wcall (argint_view s1 p m esp n (s32 a)); [done|done|by rewrite (near_ext _ _ _ Hn)|].
  intros r s2 [Hn2 ->]. rewrite decide_True by by apply (range_near _ _ _ _ _ _ Hn).
  assert (u32 (s32 a) = a) as ->.
  { unfold u32, s32. rewrite Zminus_mod_idemp_l. rewrite Z.mod_small; lia. }
  rewrite (proj2 (Z.leb_le 0 (two32 - a))) by lia. replace (a + (two32 - a)) with two32 by lia.
  change (u32 two32) with 0. rewrite (proj2 (Z.leb_le 0 a)), (proj2 (Z.leb_le 0 (p_sz (pr s m)))) by (unfold two32 in *; destruct H; lia).
  simpl. wstep. split; [by eapply near_trans|done].
Qed.

(** ** Strings *)

(** The string at [a] has length [l] and ends before [e]. *)
Definition string_at (b : gmap Z Z) (a e l : Z) : Prop :=
  0 ≤ l ∧ a + l < e ∧ b !! (a + l) = Some 0 ∧ ∀ j, a ≤ j < a + l → b !! j ≠ Some 0.

Lemma scan_nul_spec s a e : (∀ j, a ≤ j < e → is_Some (u_bytes (k_ext s) !! j)) →
  wp (scan_nul a e) (λ r s', s' = s ∧ match r with
    | Some l => string_at (u_bytes (k_ext s)) a e l
    | None => ∀ j, a ≤ j < e → u_bytes (k_ext s) !! j ≠ Some 0
    end) s.
Proof using Type.
  intros Hm. unfold scan_nul.
  eapply (wp_loop (λ n x s', s' = s ∧ n = Z.to_nat (e - x) ∧ a ≤ x ∧ ∀ j, a ≤ j < x → u_bytes (k_ext s) !! j ≠ Some 0));
    [|apply Nat.lt_succ_diag_r|split_and!; [done..|intros; lia]].
  intros n x s' (-> & -> & Hx & Hj). destruct (Z.ltb_spec x e) as [Hlt|Hge].
  - destruct (Hm x ltac:(lia)) as [c Hc]. unfold ld_user8. wsteps. rewrite Hc. wstep. destruct (Z.eqb_spec c 0) as [->|Hc0]; wstep.
    + split; [done|]. unfold string_at. replace (a + (x - a)) with x by lia. split_and!; [lia|done|done|done].
    + exists (Z.to_nat (e - (x + 1))). split; [lia|]. split_and!; [done|done|lia|].
      intros j Hj'. destruct (decide (j = x)) as [->|]; [congruence|]. apply Hj. lia.
  - wstep. split; [done|]. intros j Hj'. apply Hj. lia.
Qed.

(** [fetchstr] accepts exactly the strings that end inside the region
    they start in.  It returns the length of the string at [addr] when its
    NUL comes before the end of the process memory, or of the thread's
    stack, that [addr] lies in; a string that runs out of the region, or
    starts outside both, gives -1. *)
Theorem fetchstr_finds_string s p m esp addr (e := if decide (addr < p_sz (pr s m)) then p_sz (pr s m) else p_ustack (pr s p) + USTACKSIZE) :
  thread_view s p m esp → is_u32 addr →
  (user_range s p m addr 1 → ∀ j, addr ≤ j < e → is_Some (u_bytes (k_ext s) !! j)) →
  wp (fetchstr addr) (λ r s', near p s s' ∧
    match r with
    | Some l => user_range s p m addr 1 ∧ string_at (u_bytes (k_ext s)) addr e l
    | None => user_range s p m addr 1 → ∀ j, addr ≤ j < e → u_bytes (k_ext s) !! j ≠ Some 0
    end) s.
Proof using Type.
  intros H Ha Hm. unfold fetchstr. wstep. wcall bounds_view; [done|]. intros r s1 [-> Hn]. cbv beta iota zeta.
  pose proof (tv_stack _ _ _ _ H) as [Hs1 Hs2]. rewrite u32_small by (unfold is_u32, USTACKSIZE in *; lia).
  assert (∀ b, user_range s p m addr 1 → b = e → wp (scan_nul addr b) (λ r s', near p s s' ∧
    match r with
    | Some l => user_range s p m addr 1 ∧ string_at (u_bytes (k_ext s)) addr e l
    | None => user_range s p m addr 1 → ∀ j, addr ≤ j < e → u_bytes (k_ext s) !! j ≠ Some 0
    end) s1) as Hscan.
  { intros b Hu ->. wcall scan_nul_spec; [rewrite (near_ext _ _ _ Hn); by apply Hm|].
    intros r s2 [-> Hr]. rewrite (near_ext _ _ _ Hn) in Hr. split; [done|]. by destruct r. }
  rewrite (proj2 (Z.leb_le 0 addr)) by apply Ha. simpl. unfold is_u32 in Ha. destruct (Z.ltb_spec addr (p_sz (pr s m))) as [Hlt|Hge].
  - apply Hscan; [left; lia|]. unfold e. by rewrite decide_True.
  - destruct (Z.leb_spec (p_ustack (pr s p)) addr) as [H1|H1]; simpl; [destruct (Z.ltb_spec addr (p_ustack (pr s p) + USTACKSIZE)) as [H2|H2]|].
    + apply Hscan; [right; lia|]. unfold e. rewrite decide_False by lia. done.
    + wstep. split; [done|]. intros [?|?]; lia.
    + wstep. split; [done|]. intros [?|?]; lia.
Qed.
End fetch.

(** ** A concrete thread

    64 bytes of process memory and a stack at 4096; the stack pointer is
    8000, so the first argument is at 8004. *)

Module ArgSample.
#[global] Instance bytes_umem : UMem (gmap Z Z) := { u_bytes := id }.

Definition thread : proc :=
  set_p_thmain (Some 0%nat) (set_p_sz 64 (set_p_ustack 4096 (set_p_kstk (replicate 17 0 ++ [8000; 0]) proc0))).
Definition state (b : list (Z * Z)) : kstate (gmap Z Z) :=
  mkK {[0%nat := thread]} ∅ (mkMlfq 100 0 0 []) (mkStride 0 []) 254 2 None (mkCpus [mkCpu 0 0 0 (Some 0%nat)] 0 false ∅) (list_to_map b).

Lemma view b : thread_view (state b) 0 0 8000.
Proof.
  split; [|by exists 0%nat; split; [lia|constructor]|done..].
  by exists 0%nat, (mkCpu 0 0 0 (Some 0%nat)).
Qed.

(** The argument 4; the argument 0x80100000; the string "hi" at 58. *)
Definition small_arg : list (Z * Z) := [(8004, 4); (8005, 0); (8006, 0); (8007, 0)].
Definition kernel_arg : list (Z * Z) := [(8004, 0); (8005, 0); (8006, 16); (8007, 128)].
Definition hi : list (Z * Z) := [(58, 104); (59, 105); (60, 0); (61, 0); (62, 0); (63, 0)].
End ArgSample.

Lemma argptr_confines_witness : wp (argptr 0 10) (λ r s', r = Some 4) (ArgSample.state ArgSample.small_arg).
Proof.
  eapply wp_mono; [apply (argptr_confines (ArgSample.state ArgSample.small_arg) 0 0 8000 0 10 4)|].
  - apply ArgSample.view.
  - reflexivity.
  - intros _. vm_compute. reflexivity.
  - reflexivity.
  - intros r s' [_ ->]. reflexivity.
Defined.

Lemma argptr_admits_kernel_witness : wp (argptr 0 2146435072) (λ r s', r = Some 2148532224) (ArgSample.state ArgSample.kernel_arg).
Proof.
  eapply wp_mono; [apply (argptr_admits_kernel (ArgSample.state ArgSample.kernel_arg) 0 0 8000 0 2148532224)|].
  - apply ArgSample.view.
  - reflexivity.
  - right. split; vm_compute; discriminate.
  - done.
  - vm_compute. reflexivity.
  - intros r s' [_ ->]. reflexivity.
Defined.

Lemma fetchstr_finds_string_witness : wp (fetchstr 58) (λ r s', is_Some r) (ArgSample.state ArgSample.hi).
Proof.
  eapply wp_mono; [apply (fetchstr_finds_string (ArgSample.state ArgSample.hi) 0 0 8000 58)|].
  - apply ArgSample.view.
  - split; [lia|reflexivity].
  - intros _ j [H1 H2]. change (j < 64) in H2.
    assert (j = 58 ∨ j = 59 ∨ j = 60 ∨ j = 61 ∨ j = 62 ∨ j = 63) as Hj by lia.
    repeat destruct Hj as [-> | Hj]; try subst j; by eexists.
  - intros [l|] s' [_ Hr]; [by eexists|]. exfalso.
    apply (Hr ltac:(left; split; vm_compute; discriminate) 60); [split; [lia|reflexivity]|reflexivity].
Defined.

Close Scope Z_scope.
