(* ===== verification/Digits.v ===== *)
(** * Digits of a number

    The loop that both [printint]s, of [src/xv6-public/console.c] and of
    [src/xv6-public/printf.c], use to fill their buffer of 16 bytes, least
    significant digit first; it is executed in the monad of either.  What it
    writes, read back in its base, is the number, and the buffer is large
    enough for every [uint] in the bases the two use. *)

From S2P Require Import Prelude.

Open Scope Z_scope.

Definition digit_loop {S} (digits : list Z) (x base : Z) : M S (list Z) :=
  loop 17 (λ '(x, buf),
    if (16 <=? length buf)%nat then fail OutOfBounds
    else
      let buf := buf ++ [nth (Z.to_nat (x mod base)) digits 0] in
      let x := x / base in
      if negb (Z.eqb x 0) then mret (inl (x, buf)) else mret (inr buf)) (x, []).

(** The digits as numbers, least significant first. *)
Fixpoint number (base : Z) (ds : list Z) : Z :=
  match ds with [] => 0 | d :: ds => d + base * number base ds end.

Lemma number_app base ds es : number base (ds ++ es) = number base ds + base ^ Z.of_nat (length ds) * number base es.
Proof.
  induction ds as [|d ds IH]; [simpl; lia|]. simpl length. rewrite Nat2Z.inj_succ, Z.pow_succ_r by lia. simpl. rewrite IH. lia.
Qed.

(** [k] digits are enough for [x < base ^ k]. *)
Lemma digit_loop_spec {S} digits x base k (s : S) :
  2 ≤ base → (1 ≤ k ≤ 16)%nat → 0 ≤ x < base ^ Z.of_nat k →
  wp (digit_loop digits x base) (λ buf s', s' = s ∧ ∃ ds, buf = (λ d, nth (Z.to_nat d) digits 0) <$> ds ∧ ds ≠ [] ∧
    (length ds ≤ k)%nat ∧ Forall (λ d, 0 ≤ d < base) ds ∧ number base ds = x) s.
Proof.
  intros Hb Hk Hx. unfold digit_loop.
  apply (wp_loop (λ n '(y, buf) s', s' = s ∧ ∃ ds, buf = (λ d, nth (Z.to_nat d) digits 0) <$> ds ∧ (n + length ds = k)%nat ∧ (0 < n)%nat ∧
    Forall (λ d, 0 ≤ d < base) ds ∧ x = number base ds + base ^ Z.of_nat (length ds) * y ∧ 0 ≤ y < base ^ Z.of_nat n)) with (n := k); [|lia|].
  - intros n [y buf] s' (-> & ds & -> & Hn & Hn0 & Hds & Ex & Hy). rewrite length_fmap.
    destruct (Nat.leb_spec 16 (length ds)) as [Hge|Hlt]; [lia|].
    pose proof (Z.mod_pos_bound y base ltac:(lia)) as Hm. pose proof (Z.div_mod y base ltac:(lia)) as Hdm.
    assert (Forall (λ d, 0 ≤ d < base) (ds ++ [y mod base])) as Hds' by (apply Forall_app; split; [done|apply Forall_singleton; done]).
    assert (x = number base (ds ++ [y mod base]) + base ^ Z.of_nat (length (ds ++ [y mod base])) * (y / base)) as Ex'.
    { rewrite number_app, length_app. simpl. replace (Z.of_nat (length ds + 1)) with (Z.succ (Z.of_nat (length ds))) by lia.
      rewrite Z.pow_succ_r by lia. rewrite Ex. rewrite Hdm at 1. lia. }
    destruct (Z.eqb_spec (y / base) 0) as [E|E]; simpl; wstep.
    + split; [done|]. exists (ds ++ [y mod base]). rewrite fmap_app. split_and!; [done|by destruct ds|rewrite length_app; simpl; lia|done|].
      rewrite Ex', E. lia.
    + assert (base ≤ y) as Hge by (destruct (decide (y < base)); [rewrite Z.div_small in E by lia; done|lia]).
      assert (2 ≤ n)%nat as Hn2. { destruct n as [|[|n]]; [lia| |lia]. change (Z.of_nat 1) with 1 in Hy. rewrite Z.pow_1_r in Hy. lia. }
      exists (n - 1)%nat. split; [lia|]. split; [done|]. exists (ds ++ [y mod base]). rewrite fmap_app. split_and!; [done|rewrite length_app; simpl; lia|lia|done|done|apply Z.div_pos; lia|].
      apply Z.div_lt_upper_bound; [lia|]. replace (Z.of_nat n) with (Z.succ (Z.of_nat (n - 1))) in Hy by lia. rewrite Z.pow_succ_r in Hy by lia. lia.
  - split; [done|]. exists []. split_and!; try done; simpl; lia.
Qed.

Close Scope Z_scope.
