(* ===== verification/Console.v ===== *)
(** * The console and the keyboard ([src/xv6-public/console.c],
    [src/xv6-public/kbd.c], [src/xv6-public/kbd.h])

    The input ring with its line editing, the screen, formatted printing and
    the keyboard decoder.  The sections under [cons.lock] are single steps.
    The serial port is present and is the sequence of bytes sent to it, the
    screen is the CGA memory and the cursor kept in the controller.  A character that comes in
    is an [int]; the [getc] a caller passes is the list of the values it
    returns before a negative one.  [wakeup(&input.r)] is counted. *)

From S2P Require Import Prelude.
From S2P Require Import Digits.

Open Scope Z_scope.

Definition INPUT_BUF : nat := 128.
Definition BACKSPACE : Z := 256.
Definition CRTSIZE : nat := 2000.         (* 25 rows of 80 *)

Record input := mkInput {
  in_buf : list Z;                        (* char buf[INPUT_BUF], as bytes *)
  in_r : Z;                               (* read index *)
  in_w : Z;                               (* write index *)
  in_e : Z                                (* edit index *)
}.

Record cons := mkCons {
  c_in : input;
  c_crt : list Z;                         (* the CGA memory *)
  c_pos : Z;                              (* the cursor: col + 80*row *)
  c_uart : list Z;                        (* bytes sent to the serial port *)
  c_panicked : bool;
  c_wakeups : nat                         (* calls of wakeup(&input.r) *)
}.

Definition set_in (v : input) (s : cons) : cons := mkCons v (c_crt s) (c_pos s) (c_uart s) (c_panicked s) (c_wakeups s).
Definition set_crt (v : list Z) (s : cons) : cons := mkCons (c_in s) v (c_pos s) (c_uart s) (c_panicked s) (c_wakeups s).
Definition set_pos (v : Z) (s : cons) : cons := mkCons (c_in s) (c_crt s) v (c_uart s) (c_panicked s) (c_wakeups s).
Definition set_uart (v : list Z) (s : cons) : cons := mkCons (c_in s) (c_crt s) (c_pos s) v (c_panicked s) (c_wakeups s).
Definition add_wakeup (s : cons) : cons := mkCons (c_in s) (c_crt s) (c_pos s) (c_uart s) (c_panicked s) (S (c_wakeups s)).

Abbreviation CM := (M cons).

(** ** Output *)

Definition uartputc (c : Z) : CM unit := modify (λ s, set_uart (c_uart s ++ [c mod 256]) s).

(** [crt[pos] = v]. *)
Definition st_crt (pos v : Z) : CM unit :=
  if Z.leb 0 pos && Z.ltb pos (Z.of_nat CRTSIZE) then modify (λ s, set_crt (<[Z.to_nat pos := v]> (c_crt s)) s)
  else fail OutOfBounds.

(** The screen moves up one row; rows from the cursor's to row 23 are cleared. *)
Definition scroll (pos : Z) (crt : list Z) : list Z :=
  let crt := take (23 * 80) (drop 80 crt) ++ drop (23 * 80) crt in
  let n := (24 * 80 - Z.to_nat pos)%nat in
  take (Z.to_nat pos) crt ++ replicate n 0 ++ drop (Z.to_nat pos + n) crt.

Definition cgaputc (c : Z) : CM unit :=
  pos ← gets c_pos;
  pos ← (if Z.eqb c 10 then mret (pos + (80 - pos mod 80))
         else if Z.eqb c BACKSPACE then mret (if Z.ltb 0 pos then pos - 1 else pos)
         else st_crt pos (Z.lor (Z.land c 255) 1792);; mret (pos + 1));
  if Z.ltb pos 0 || Z.ltb (25 * 80) pos then panic "pos under/overflow"
  else
    pos ← (if Z.leb 24 (pos / 80) then
             let pos := pos - 80 in
             modify (λ s, set_crt (scroll pos (c_crt s)) s);;
             mret pos
           else mret pos);
    modify (set_pos pos);;
    st_crt pos (Z.lor 32 1792).

Definition consputc (c : Z) : CM unit :=
  panicked ← gets c_panicked;
  if panicked : bool then fail Spin
  else
    (if Z.eqb c BACKSPACE then uartputc 8;; uartputc 32;; uartputc 8 else uartputc c);;
    cgaputc c.

(** ** Formatted printing *)

(** "0123456789abcdef" *)
Definition digits : list Z := [48; 49; 50; 51; 52; 53; 54; 55; 56; 57; 97; 98; 99; 100; 101; 102].

Definition printint (xx base : Z) (sign : bool) : CM unit :=
  let neg := sign && Z.ltb xx 0 in
  let x := if neg then u32 (- xx) else u32 xx in
  buf ← digit_loop digits x base;
  buf ← (if neg then if (16 <=? length buf)%nat then fail OutOfBounds else mret (buf ++ [45]) else mret buf);
  for_each (reverse buf) consputc.

(** The arguments after [fmt] are words; [str] is what the string at an
    address is. *)
Definition cprintf_conv (str : Z → list Z) (c : Z) (argp : list Z) : CM (list Z) :=
  if Z.eqb c 100 then                                            (* d *)
    a ← deref (head argp); printint (s32 a) 10 true;; mret (tail argp)
  else if Z.eqb c 120 || Z.eqb c 112 then                        (* x, p *)
    a ← deref (head argp); printint (s32 a) 16 false;; mret (tail argp)
  else if Z.eqb c 115 then                                       (* s *)
    a ← deref (head argp);
    for_each (if Z.eqb a 0 then [40; 110; 117; 108; 108; 41] else str a) consputc;;
    mret (tail argp)
  else if Z.eqb c 37 then consputc 37;; mret argp
  else consputc 37;; consputc c;; mret argp.

Fixpoint cprintf (str : Z → list Z) (fmt : list Z) (argp : list Z) : CM unit :=
  match fmt with
  | [] => mret tt
  | c :: fmt =>
      if negb (Z.eqb c 37) then consputc c;; cprintf str fmt argp
      else match fmt with
           | [] => mret tt
           | c :: fmt => argp ← cprintf_conv str c argp; cprintf str fmt argp
           end
  end.

Definition consolewrite (buf : list Z) : CM Z :=
  for_each buf consputc;;
  mret (Z.of_nat (length buf)).

(** ** Input *)

(** [input.buf[i % INPUT_BUF]] as a [char]. *)
Definition slot (i : Z) : nat := Z.to_nat (i mod Z.of_nat INPUT_BUF).
Definition schar (b : Z) : Z := if Z.ltb b 128 then b else b - 256.
Definition in_at (s : cons) (i : Z) : Z := schar (nth (slot i) (in_buf (c_in s)) 0).

Definition upd_in (f : input → input) : CM unit := modify (λ s, set_in (f (c_in s)) s).
Definition put_in (i v : Z) (x : input) : input := mkInput (<[slot i := v mod 256]> (in_buf x)) (in_r x) (in_w x) (in_e x).
Definition set_r (v : Z) (x : input) : input := mkInput (in_buf x) v (in_w x) (in_e x).
Definition set_w (v : Z) (x : input) : input := mkInput (in_buf x) (in_r x) v (in_e x).
Definition set_e (v : Z) (x : input) : input := mkInput (in_buf x) (in_r x) (in_w x) v.

(** [while(input.e != input.w && input.buf[(input.e-1) % INPUT_BUF] != '\n')],
    with [each] after [input.e--]. *)
Definition back_to_start (each : CM unit) : CM unit :=
  loop (S INPUT_BUF) (λ _ : unit,
    i ← gets c_in;
    last ← gets (λ s, in_at s (u32 (in_e i - 1)));
    if negb (Z.eqb (in_e i) (in_w i)) && negb (Z.eqb last 10) then
      upd_in (set_e (u32 (in_e i - 1)));;
      each;;
      mret (inl tt)
    else mret (inr tt)) tt.

(** "\033[2J\033[1;1H" *)
Definition flushcode : list Z := [27; 91; 50; 74; 27; 91; 49; 59; 49; 72].

(** [C('L')]: clear both screens and write the current line again. *)
Definition redraw : CM unit :=
  for_each flushcode uartputc;;
  for_each (seq 0 25) (λ _, cgaputc 10);;
  modify (set_pos 0);;
  e ← gets (λ s, in_e (c_in s));
  upd_in (put_in e 0);;
  back_to_start (mret tt);;
  consputc 36;;
  consputc 32;;
  loop (S INPUT_BUF) (λ _ : unit,
    e ← gets (λ s, in_e (c_in s));
    c ← gets (λ s, in_at s e);
    if Z.eqb c 0 then mret (inr tt)
    else
      consputc c;;
      upd_in (set_e (u32 (e + 1)));;
      mret (inl tt)) tt.

(** [C(x)] of the letters used. *)
Definition ctrl_D : Z := 4.
Definition ctrl_H : Z := 8.
Definition ctrl_L : Z := 12.
Definition ctrl_P : Z := 16.
Definition ctrl_U : Z := 21.

(** One character: whether a process listing is asked for. *)
Definition cons_char (c : Z) : CM bool :=
  if Z.eqb c ctrl_P then mret true
  else if Z.eqb c ctrl_U then back_to_start (consputc BACKSPACE);; mret false
  else if Z.eqb c ctrl_H || Z.eqb c 127 then
    i ← gets c_in;
    when (negb (Z.eqb (in_e i) (in_w i))) (
      upd_in (set_e (u32 (in_e i - 1)));;
      consputc BACKSPACE);;
    mret false
  else if Z.eqb c ctrl_L then redraw;; mret false
  else
    i ← gets c_in;
    when (negb (Z.eqb c 0) && Z.ltb (u32 (in_e i - in_r i)) (Z.of_nat INPUT_BUF)) (
      let c := if Z.eqb c 13 then 10 else c in
      upd_in (put_in (in_e i) c);;
      upd_in (set_e (u32 (in_e i + 1)));;
      consputc c;;
      when (Z.eqb c 10 || Z.eqb c ctrl_D || Z.eqb (u32 (in_e i + 1)) (u32 (in_r i + Z.of_nat INPUT_BUF))) (
        upd_in (set_w (u32 (in_e i + 1)));;
        modify add_wakeup));;
    mret false.

(** The characters up to a negative one; the result is [doprocdump]. *)
Fixpoint consoleintr (getc : list Z) : CM bool :=
  match getc with
  | [] => mret false
  | c :: getc =>
      if Z.ltb c 0 then mret false
      else
        d ← cons_char c;
        ds ← consoleintr getc;
        mret (d || ds)
  end.

(** A round of [consoleread]: the result and the bytes stored, or what is
    left to read and the bytes so far when it goes to sleep. *)
Inductive cround := CDone (ret : Z) (bytes : list Z) | CSleep (n : Z) (bytes : list Z).

Definition consoleread (killed : bool) (target n : Z) (bytes : list Z) : CM cround :=
  loop (S (Z.to_nat n)) (λ '(n, bytes),
    if Z.ltb 0 n then
      i ← gets c_in;
      if Z.eqb (in_r i) (in_w i) then
        mret (inr (if killed : bool then CDone (-1) bytes else CSleep n bytes))
      else
        c ← gets (λ s, in_at s (in_r i));
        upd_in (set_r (u32 (in_r i + 1)));;
        if Z.eqb c ctrl_D then
          (when (Z.ltb n target) (upd_in (set_r (in_r i))));;
          mret (inr (CDone (target - n) bytes))
        else if Z.eqb c 10 then mret (inr (CDone (target - (n - 1)) (bytes ++ [c mod 256])))
        else mret (inl (n - 1, bytes ++ [c mod 256]))
    else mret (inr (CDone (target - n) bytes))) (n, bytes).

Close Scope Z_scope.
