(* ===== verification/ConsoleTheorems.v ===== *)
(** * What the console does

    The ring of the console is refined to an abstract line editor: the queue
    of characters handed over to readers and the line being edited.  The
    cursor never leaves the screen. *)

From S2P Require Import Prelude.
From S2P Require Import Console.

Open Scope Z_scope.

(** ** The screen *)

Record screen_ok (s : cons) : Prop := {
  sc_crt : length (c_crt s) = CRTSIZE;
  sc_pos : 0 ≤ c_pos s < 24 * 80
}.

(** Only the screen and the serial port differ. *)
Definition shown (s s' : cons) : Prop :=
  screen_ok s' ∧ c_in s' = c_in s ∧ c_panicked s' = c_panicked s ∧ c_wakeups s' = c_wakeups s.

Lemma shown_trans s1 s2 s3 : shown s1 s2 → shown s2 s3 → shown s1 s3.
Proof. intros (? & ? & ? & ?) (? & ? & ? & ?). split_and!; congruence || done. Qed.

Lemma screen_in x s : screen_ok s → screen_ok (set_in x s).
Proof. intros [H1 H2]. by split. Qed.

Lemma length_scroll pos crt : length crt = CRTSIZE → 0 ≤ pos ≤ 24 * 80 → length (scroll pos crt) = CRTSIZE.
Proof.
  unfold scroll, CRTSIZE. intros Hl Hp. rewrite !length_app, !length_take, !length_drop, length_replicate.
  rewrite !length_app, !length_take, !length_drop. lia.
Qed.

Lemma st_crt_ok pos v s : length (c_crt s) = CRTSIZE → 0 ≤ pos < Z.of_nat CRTSIZE →
  wp (st_crt pos v) (λ _ s', length (c_crt s') = CRTSIZE ∧ c_pos s' = c_pos s ∧ c_in s' = c_in s ∧ c_panicked s' = c_panicked s ∧ c_wakeups s' = c_wakeups s) s.
Proof.
  intros Hl Hp. unfold st_crt. rewrite (proj2 (Z.leb_le 0 pos)), (proj2 (Z.ltb_lt pos _)) by lia. simpl. wstep. simpl. by rewrite length_insert.
Qed.

Lemma cgaputc_ok c s : screen_ok s → wp (cgaputc c) (λ _ s', shown s s') s.
Proof.
  intros [Hl Hp]. unfold cgaputc. wstep. wstep. wstep.
  apply (wp_mono _ (λ pos s', (0 ≤ pos ≤ 24 * 80 ∧ length (c_crt s') = CRTSIZE ∧ c_in s' = c_in s ∧ c_panicked s' = c_panicked s ∧ c_wakeups s' = c_wakeups s))).
  { destruct (Z.eqb_spec c 10); [wstep|destruct (Z.eqb_spec c BACKSPACE); [wstep|]].
    - split_and!; try done; Z.to_euclidean_division_equations; lia.
    - destruct (Z.ltb_spec 0 (c_pos s)); split_and!; try done; lia.
    - wstep. wcall st_crt_ok; [done|unfold CRTSIZE; lia|]. intros [] s1 (H1 & H2 & H3 & H4 & H5). wstep. split_and!; try done; lia. }
  intros pos s1 ((P1 & P2) & L1 & E1 & E2 & E3).
  rewrite (proj2 (Z.ltb_ge pos 0)), (proj2 (Z.ltb_ge (25 * 80) pos)) by lia. simpl. wstep.
  apply (wp_mono _ (λ pos s', (0 ≤ pos < 24 * 80 ∧ length (c_crt s') = CRTSIZE ∧ c_in s' = c_in s ∧ c_panicked s' = c_panicked s ∧ c_wakeups s' = c_wakeups s))).
  { destruct (Z.leb_spec 24 (pos / 80)) as [H|H].
    - wsteps. simpl. split_and!; try done; [|Z.to_euclidean_division_equations; lia|].
      + Z.to_euclidean_division_equations; lia.
      + apply length_scroll; [done|]. Z.to_euclidean_division_equations; lia.
    - wstep. split_and!; try done. Z.to_euclidean_division_equations; lia. }
  intros pos' s2 ((P3 & P4) & L2 & F1 & F2 & F3). wsteps. wcall st_crt_ok; [done|unfold CRTSIZE; lia|].
  intros [] s3 (G1 & G2 & G3 & G4 & G5). simpl in *. split_and!; try congruence. split; [done|]. lia.
Qed.

Lemma uartputc_ok c s : screen_ok s → wp (uartputc c) (λ _ s', shown s s') s.
Proof. intros [H1 H2]. unfold uartputc. wstep. split; [by split|done]. Qed.

Lemma consputc_ok c s : screen_ok s → c_panicked s = false → wp (consputc c) (λ _ s', shown s s') s.
Proof.
  intros H Hp. unfold consputc. wsteps. rewrite Hp. wstep. apply (wp_mono _ (λ _ s', shown s s')).
  { destruct (Z.eqb_spec c BACKSPACE); [|by apply uartputc_ok].
    wstep. wcall uartputc_ok; [done|]. intros [] s1 S1. wstep. wcall uartputc_ok; [apply S1|]. intros [] s2 S2.
    wcall uartputc_ok; [apply S2|]. intros [] s3 S3. eauto using shown_trans. }
  intros [] s1 S1. wcall cgaputc_ok; [apply S1|]. intros [] s2 S2. eauto using shown_trans.
Qed.

Lemma for_each_shown {A} (l : list A) (f : A → CM unit) s :
  screen_ok s → c_panicked s = false → (∀ x s, screen_ok s → c_panicked s = false → wp (f x) (λ _ s', shown s s') s) →
  wp (for_each l f) (λ _ s', shown s s') s.
Proof.
  intros Hs Hp Hf. apply (wp_for_each (λ _ s', shown s s')); [done|].
  intros dn x rest s1 _ S1. wcall Hf; [apply S1|destruct S1 as (_ & _ & -> & _); done|]. intros [] s2 S2. by eapply shown_trans.
Qed.

(** ** The ring *)

Lemma slot_wrap z : slot (u32 z) = slot z.
Proof.
  unfold slot, INPUT_BUF, u32, two32. f_equal. change 4294967296 with (128 * 33554432). change (Z.of_nat 128) with 128. rewrite Z.rem_mul_r by lia.
  rewrite Z.mul_comm, Z.mod_add by lia. by rewrite Z.mod_mod by lia.
Qed.
Lemma ring_slot_in z : (slot z < INPUT_BUF)%nat.
Proof. unfold slot, INPUT_BUF. pose proof (Z.mod_pos_bound z 128 ltac:(lia)). lia. Qed.
Lemma slot_ne i j : i < j < i + 128 → slot i ≠ slot j.
Proof.
  intros H E. unfold slot, INPUT_BUF in E. change (Z.of_nat 128) with 128 in E. apply Z2Nat.inj in E; [|apply Z.mod_pos_bound; lia..].
  Z.to_euclidean_division_equations. lia.
Qed.
Lemma slot_last i : slot (i + 128) = slot i.
Proof. unfold slot, INPUT_BUF. f_equal. change (Z.of_nat 128) with 128. rewrite <-(Z.mul_1_l 128) at 1. by rewrite Z.mod_add by lia. Qed.

(** [q] is ready for readers and [l] is the line being edited. *)
Record holds (x : input) (q l : list Z) : Prop := {
  h_len : length (in_buf x) = INPUT_BUF;
  h_r : is_u32 (in_r x);
  h_w : in_w x = u32 (in_r x + Z.of_nat (length q));
  h_e : in_e x = u32 (in_r x + Z.of_nat (length q) + Z.of_nat (length l));
  h_room : (length q + length l ≤ INPUT_BUF)%nat;
  h_at : ∀ k b, (q ++ l) !! k = Some b → nth (slot (in_r x + Z.of_nat k)) (in_buf x) 0 = b
}.

(** A character of a line. *)
Definition plain (b : Z) : Prop := 0 < b < 256 ∧ b ≠ 10.

(** The console is in use: nothing has panicked, the cursor is on the
    screen, the ring holds [q] and [l], and a full ring has been handed over. *)
Record rep (s : cons) (q l : list Z) : Prop := {
  rp_panic : c_panicked s = false;
  rp_screen : screen_ok s;
  rp_holds : holds (c_in s) q l;
  rp_bytes : Forall (λ b, 0 ≤ b < 256) q;
  rp_plain : Forall plain l;
  rp_full : (length q + length l = INPUT_BUF)%nat → l = []
}.

Lemma rep_shown s s' q l : shown s s' → rep s q l → rep s' q l.
Proof. intros (H1 & H2 & H3 & _) [P _ H By Pl F]. split; try done; congruence. Qed.

Lemma e_is_w x q l : holds x q l → in_e x = in_w x ↔ l = [].
Proof.
  intros [_ [R1 R2] -> -> Hr _]. unfold u32, two32, INPUT_BUF in *. split.
  - intros H. apply nil_length_inv. Z.to_euclidean_division_equations. lia.
  - intros ->. f_equal. simpl. lia.
Qed.
Lemma r_is_w x q l : holds x q l → in_r x = in_w x ↔ q = [].
Proof.
  intros [_ [R1 R2] -> _ Hr _]. unfold u32, two32, INPUT_BUF in *. split.
  - intros H. apply nil_length_inv. Z.to_euclidean_division_equations. lia.
  - intros ->. simpl. rewrite Z.mod_small; lia.
Qed.
Lemma fill_is x q l : holds x q l → u32 (in_e x - in_r x) = Z.of_nat (length q + length l).
Proof.
  intros [_ [R1 R2] _ -> Hr _]. unfold u32, two32, INPUT_BUF in *. Z.to_euclidean_division_equations. lia.
Qed.

(** The last character of the line. *)
Lemma last_at x q l b : holds x q (l ++ [b]) → nth (slot (u32 (in_e x - 1))) (in_buf x) 0 = b.
Proof.
  intros [_ _ _ He _ Hat]. rewrite slot_wrap.
  assert (slot (in_e x - 1) = slot (in_r x + Z.of_nat (length q + length l))) as ->.
  { rewrite <-slot_wrap, He, length_app. simpl length. rewrite <-(slot_wrap (_ + _)). f_equal. unfold u32. rewrite Zminus_mod_idemp_l. f_equal. lia. }
  apply Hat. rewrite lookup_app_r by lia. rewrite lookup_app_r by lia. by replace (_ - _ - _)%nat with 0%nat by lia.
Qed.

Lemma holds_pop_last x q l b : holds x q (l ++ [b]) → holds (set_e (u32 (in_e x - 1)) x) q l.
Proof.
  intros [H1 H2 H3 H4 H5 H6]. rewrite length_app in *. simpl in *. split; simpl; try done; [|lia|].
  - rewrite H4. unfold u32. rewrite Zminus_mod_idemp_l. f_equal. lia.
  - intros k c Hk. apply H6. rewrite app_assoc. by apply lookup_app_l_Some.
Qed.

(** A free slot can be overwritten. *)
Lemma holds_put x q l v : holds x q l → (length q + length l < INPUT_BUF)%nat → holds (put_in (in_e x) v x) q l.
Proof.
  intros [H1 H2 H3 H4 H5 H6] Hlt. split; simpl; try done; [by rewrite length_insert|].
  intros k b Hk. rewrite nth_lookup. pose proof (lookup_lt_Some _ _ _ Hk) as Hk'. rewrite length_app in Hk'.
  rewrite list_lookup_insert_ne; [by rewrite <-nth_lookup; apply H6|]. rewrite H4, slot_wrap. unfold INPUT_BUF in *.
  intros E. symmetry in E. revert E. apply slot_ne. lia.
Qed.

Lemma holds_push x q l v : holds x q l → (length q + length l < INPUT_BUF)%nat → 0 ≤ v < 256 →
  holds (set_e (u32 (in_e x + 1)) (put_in (in_e x) v x)) q (l ++ [v]).
Proof.
  intros H Hlt Hv. destruct (holds_put _ _ _ v H Hlt) as [H1 H2 H3 H4 H5 H6]. simpl in *. split; simpl; try done.
  - rewrite H4. unfold u32. rewrite Zplus_mod_idemp_l. f_equal. rewrite length_app. simpl. lia.
  - rewrite length_app. simpl. lia.
  - intros k b Hk. rewrite app_assoc in Hk. apply lookup_app_Some in Hk as [Hk|[Hge Hk]]; [by apply H6|].
    rewrite length_app in *. destruct (k - _)%nat eqn:Ek; [|done]. injection Hk as <-.
    rewrite nth_lookup. rewrite H4, slot_wrap. replace (in_r x + Z.of_nat (length q) + Z.of_nat (length l)) with (in_r x + Z.of_nat k) by lia.
    rewrite list_lookup_insert_eq; [by rewrite Z.mod_small|]. rewrite length_insert in H1. rewrite H1. apply ring_slot_in.
Qed.

Lemma holds_commit x q l : holds x q l → holds (set_w (in_e x) x) (q ++ l) [].
Proof.
  intros [H1 H2 H3 H4 H5 H6]. split; simpl; try done.
  - rewrite H4, length_app. f_equal. lia.
  - rewrite H4, length_app. f_equal. lia.
  - rewrite length_app. lia.
  - by rewrite app_nil_r.
Qed.

Lemma holds_take x q l b : holds x (b :: q) l → nth (slot (in_r x)) (in_buf x) 0 = b ∧ holds (set_r (u32 (in_r x + 1)) x) q l.
Proof.
  intros [H1 H2 H3 H4 H5 H6]. simpl in *. split; [pose proof (H6 0%nat b eq_refl) as H; by rewrite Z.add_0_r in H|].
  split; simpl; try done.
  - apply u32_range.
  - rewrite H3. unfold u32. rewrite Zplus_mod_idemp_l. f_equal. lia.
  - rewrite H4. unfold u32. rewrite <-!Z.add_assoc, Zplus_mod_idemp_l. f_equal. lia.
  - lia.
  - intros k c Hk. rewrite <-(H6 (S k) c Hk). f_equal. rewrite <-slot_wrap, <-(slot_wrap (in_r x + Z.of_nat (S k))).
    f_equal. unfold u32. rewrite Zplus_mod_idemp_l. f_equal. lia.
Qed.

(** ** Line editing *)

Lemma schar_plain b : plain b → schar b ≠ 10 ∧ schar b ≠ 0.
Proof. intros [H1 H2]. unfold schar. destruct (Z.ltb_spec b 128); lia. Qed.

(** Nothing but the input ring and the screen changed. *)
Definition edited (s s' : cons) (x : input) : Prop :=
  screen_ok s' ∧ c_panicked s' = c_panicked s ∧ c_wakeups s' = c_wakeups s ∧ c_in s' = x.

Lemma shown_edited s s' : shown s s' → edited s s' (c_in s).
Proof. by intros (H1 & H2 & H3 & H4). Qed.

Lemma rep_edited s s' x q l q' l' : rep s q l → edited s s' x → holds x q' l' → Forall (λ b, 0 ≤ b < 256) q' → Forall plain l' →
  ((length q' + length l' = INPUT_BUF)%nat → l' = []) → rep s' q' l'.
Proof. intros [P _ _ _ _ _] (H1 & H2 & _ & H3) H By F Fu. split; [congruence|done|by rewrite H3|done..]. Qed.

(** Both loops that go back to the start of the line. *)
Lemma back_spec each s q l :
  (∀ s, screen_ok s → c_panicked s = false → wp each (λ _ s', shown s s') s) → rep s q l →
  wp (back_to_start each) (λ _ s', edited s s' (set_e (in_w (c_in s)) (c_in s))) s.
Proof.
  intros Heach R. unfold back_to_start. assert (length l < S INPUT_BUF)%nat as Hf by (destruct R as [_ _ [_ _ _ _ Hr _] _ _ _]; lia).
  eapply (wp_loop (λ n _ s', ∃ l', n = length l' ∧ (∃ l2, l = l' ++ l2) ∧ rep s' q l' ∧
    edited s s' (set_e (in_e (c_in s')) (c_in s)))); [|exact Hf|].
  - intros n [] s1 (l' & -> & [l2 ->] & R1 & D1). pose proof D1 as (S1 & P1 & W1 & C1). wsteps.
    destruct (decide (in_e (c_in s1) = in_w (c_in s1))) as [E|E].
    + rewrite (proj2 (Z.eqb_eq _ _) E). simpl. wstep. rewrite C1 in E. simpl in E. by rewrite E in D1.
    + rewrite (proj2 (Z.eqb_neq _ _) E). rewrite (e_is_w _ _ _ (rp_holds _ _ _ R1)) in E.
      destruct (exists_last E) as (l0 & b & ->). pose proof (rp_plain _ _ _ R1) as Hp. apply Forall_app in Hp as [Hp0 Hb]. inversion_clear Hb as [|? ? Hb' _].
      unfold in_at. rewrite (last_at _ _ _ _ (rp_holds _ _ _ R1)). rewrite (proj2 (Z.eqb_neq _ _)) by (by apply schar_plain). simpl.
      unfold upd_in. wsteps. wcall Heach; [by apply screen_in|simpl; rewrite P1; apply R|]. intros [] s2 (S2 & I2 & P2 & W2). wstep. simpl in *.
      exists (length l0). rewrite length_app. split; [simpl; lia|]. exists l0. split_and!; [done|exists ([b] ++ l2); by rewrite <-app_assoc| |].
      * apply (rep_edited s1 _ (set_e (u32 (in_e (c_in s1) - 1)) (c_in s1)) q (l0 ++ [b])); [done|by split_and!|by eapply holds_pop_last; apply R1|apply R1|done|].
        intros Hlen. destruct R1 as [_ _ [_ _ _ _ Hr _] _ _ _]. rewrite length_app in Hr. simpl in Hr. lia.
      * split_and!; [done|congruence|congruence|]. rewrite I2, C1. done.
  - exists l. split_and!; [done|exists []; by rewrite app_nil_r|done|]. split_and!; [apply R|done|done|]. by destruct (c_in s).
Qed.

(** The loop that writes the line again moves [input.e] to the NUL. *)
Lemma retype_spec s x q l l1 l2 :
  screen_ok s → c_panicked s = false → holds x q l → Forall plain l → l = l1 ++ l2 → nth (slot (in_e x)) (in_buf x) 0 = 0 →
  c_in s = set_e (u32 (in_r x + Z.of_nat (length q) + Z.of_nat (length l1))) x →
  wp (loop (S INPUT_BUF) (λ _ : unit,
    e ← gets (λ s, in_e (c_in s));
    c ← gets (λ s, in_at s e);
    if Z.eqb c 0 then mret (inr tt)
    else
      consputc c;;
      upd_in (set_e (u32 (e + 1)));;
      mret (inl tt)) tt) (λ _ s', edited s s' x) s.
Proof.
  intros Hs Hp H Hl El H0 Hc. pose proof H as [L R W Ee Ro At]. assert (length l2 < S INPUT_BUF)%nat as Hf by (subst l; rewrite length_app in Ro; lia).
  eapply (wp_loop (λ n _ s', ∃ l1 l2, n = length l2 ∧ l = l1 ++ l2 ∧
    edited s s' (set_e (u32 (in_r x + Z.of_nat (length q) + Z.of_nat (length l1))) x))); [|exact Hf|by exists l1, l2].
  clear l1 l2 El Hc Hf. intros n [] s1 (l1 & l2 & -> & El & S1 & P1 & W1 & C1). wsteps. rewrite C1. simpl. unfold in_at. rewrite C1. simpl. destruct l2 as [|b l2].
  - rewrite app_nil_r in El. subst l1. rewrite <-Ee, H0. simpl. wstep. split_and!; try done. rewrite C1, <-Ee. by destruct x.
  - rewrite slot_wrap. replace (in_r x + Z.of_nat (length q) + Z.of_nat (length l1)) with (in_r x + Z.of_nat (length q + length l1)) by lia.
    rewrite (At _ b) by (rewrite El, lookup_app_r, lookup_app_r by lia; by replace (_ - _ - _)%nat with 0%nat by lia).
    assert (plain b) as Hb by (subst l; apply Forall_app in Hl as [_ Hl]; by inversion Hl).
    rewrite (proj2 (Z.eqb_neq _ _)) by (by apply schar_plain). wstep. wcall consputc_ok; [done|congruence|].
    intros [] s2 (S2 & I2 & P2 & W2). unfold upd_in. wsteps. exists (length l2). split; [simpl; lia|]. exists (l1 ++ [b]), l2.
    split; [done|]. split; [by rewrite <-app_assoc|]. split_and!; simpl; [by apply screen_in|congruence|congruence|].
    rewrite I2, C1. unfold set_e. simpl. f_equal. rewrite length_app. simpl. unfold u32. rewrite Zplus_mod_idemp_l. f_equal. lia.
Qed.

(** The NUL of [C('L')] goes into a free slot, or, when the ring is full,
    over the first character that is to be read. *)
Definition nul_first (q : list Z) : list Z := if (INPUT_BUF <=? length q)%nat then 0 :: tail q else q.

Lemma holds_nul x q l : holds x q l → ((length q + length l = INPUT_BUF)%nat → l = []) →
  holds (put_in (in_e x) 0 x) (nul_first q) l ∧ length (nul_first q) = length q.
Proof.
  intros H Hf. pose proof (h_room _ _ _ H) as Hr. unfold nul_first. destruct (Nat.leb_spec INPUT_BUF (length q)) as [Hge|Hlt].
  - assert (l = []) as -> by (apply Hf; lia). assert (length q = INPUT_BUF) as Hq by (simpl in Hr; lia).
    destruct q as [|a q]; [done|]. split; [|done]. destruct H as [L Ru W Ee Ro At]. simpl in *. split; simpl; try done; [by rewrite length_insert|].
    assert (slot (in_e x) = slot (in_r x)) as Es.
    { rewrite Ee, slot_wrap. replace (_ + _ + 0) with (in_r x + 128) by (unfold INPUT_BUF in *; lia). apply slot_last. }
    intros k b Hk. rewrite nth_lookup, Es. destruct k as [|k]; simpl in Hk.
    + injection Hk as <-. rewrite Z.add_0_r, list_lookup_insert_eq; [done|]. rewrite L. apply ring_slot_in.
    + pose proof (lookup_lt_Some _ _ _ Hk) as Hk'. rewrite length_app in Hk'. simpl in Hk'. rewrite list_lookup_insert_ne; [by rewrite <-nth_lookup; apply At|].
      apply slot_ne. unfold INPUT_BUF in *. lia.
  - split; [|done]. apply holds_put; [done|]. destruct (decide (length q + length l = INPUT_BUF)%nat) as [E|]; [|lia]. rewrite (Hf E) in *. simpl in *. lia.
Qed.

Lemma nul_bytes q : Forall (λ b, 0 ≤ b < 256) q → Forall (λ b, 0 ≤ b < 256) (nul_first q).
Proof. intros H. unfold nul_first. destruct (_ <=? _)%nat; [|done]. constructor; [lia|]. by destruct H. Qed.

(** [C('L')]: afterwards the ring is as before, but for that NUL. *)
Lemma redraw_spec s q l : rep s q l →
  wp redraw (λ _ s', edited s s' (put_in (in_e (c_in s)) 0 (c_in s))) s.
Proof.
  intros R. pose proof R as [P S0 Hx By Pl Fu]. unfold redraw. wstep. wcall for_each_shown; [done|done|intros; by apply uartputc_ok|].
  intros [] s1 T1. wstep. wcall for_each_shown; [apply T1|destruct T1 as (_ & _ & -> & _); done|intros; by apply cgaputc_ok|].
  intros [] s2 T2. pose proof (shown_trans _ _ _ T1 T2) as ([C2 Q2] & I2 & P2 & W2). unfold upd_in. wsteps. simpl. rewrite I2.
  set (x := put_in (in_e (c_in s)) 0 (c_in s)) in *.
  assert (nth (slot (in_e x)) (in_buf x) 0 = 0) as Hz.
  { unfold x. simpl. rewrite nth_lookup, list_lookup_insert_eq; [done|]. rewrite (h_len _ _ _ Hx). apply ring_slot_in. }
  destruct (holds_nul _ _ _ Hx Fu) as [Hx' El]. fold x in Hx'. set (q' := nul_first q) in *. rewrite <-El in Fu.
  assert (rep (set_in x (set_pos 0 s2)) q' l) as R2 by (split; [by rewrite <-P, <-P2|apply screen_in; split; simpl; [done|lia]|done|by apply nul_bytes|done..]).
  wcall (back_spec (mret tt) (set_in x (set_pos 0 s2)) q' l); [by intros; wstep|done|]. intros [] s3 (S3 & P3 & W3 & C3). simpl in *.
  wstep. wcall consputc_ok; [done|congruence|]. intros [] s4 T4. wstep. wcall consputc_ok; [apply T4|destruct T4 as (_ & _ & -> & _); congruence|].
  intros [] s5 T5. destruct (shown_trans _ _ _ T4 T5) as (S5 & I5 & P5 & W5). wcall (retype_spec s5 x q' l [] l); try done.
  - congruence.
  - rewrite I5, C3. change (Z.of_nat (length [])) with 0. rewrite Z.add_0_r, <-(h_w _ _ _ Hx'). done.
  - intros [] s6 (S6 & P6 & W6 & C6). split_and!; [done|congruence|congruence|done].
Qed.

(** ** The abstract editor *)

(** What a character does to the queue and the line. *)
Definition edit (c : Z) (ql : list Z * list Z) : list Z * list Z :=
  let '(q, l) := ql in
  if decide (c = ctrl_P ∨ c = ctrl_L) then (q, l)
  else if decide (c = ctrl_U) then (q, [])
  else if decide (c = ctrl_H ∨ c = 127) then (q, removelast l)
  else if decide (c = 0 ∨ (INPUT_BUF ≤ length q + length l)%nat) then (q, l)
  else
    let c := if decide (c = 13) then 10 else c in
    if decide (c = 10 ∨ c = ctrl_D ∨ (S (length q + length l) = INPUT_BUF)%nat) then (q ++ l ++ [c], []) else (q, l ++ [c]).
Definition edits (cs : list Z) (ql : list Z * list Z) : list Z * list Z := foldl (λ ql c, edit c ql) ql cs.

(** No [C('L')] comes in while the ring is full. *)
Fixpoint calm (cs : list Z) (ql : list Z * list Z) : Prop :=
  match cs with
  | [] => True
  | c :: cs => (c = ctrl_L → (length ql.1 + length ql.2 < INPUT_BUF)%nat) ∧ calm cs (edit c ql)
  end.

Lemma insert_spec s q l c : rep s q l → 0 < c < 256 → c ≠ 13 → (length q + length l < INPUT_BUF)%nat →
  wp (upd_in (put_in (in_e (c_in s)) c);;
      upd_in (set_e (u32 (in_e (c_in s) + 1)));;
      consputc c;;
      when (Z.eqb c 10 || Z.eqb c ctrl_D || Z.eqb (u32 (in_e (c_in s) + 1)) (u32 (in_r (c_in s) + Z.of_nat INPUT_BUF))) (
        upd_in (set_w (u32 (in_e (c_in s) + 1)));;
        modify add_wakeup))
    (λ _ s', if decide (c = 10 ∨ c = ctrl_D ∨ (S (length q + length l) = INPUT_BUF)%nat) then rep s' (q ++ l ++ [c]) [] else rep s' q (l ++ [c])) s.
Proof.
  intros R Hc Hne Hlt. pose proof R as [P S0 Hx By Pl Fu]. unfold upd_in. wsteps.
  pose proof (holds_push _ _ _ c Hx Hlt ltac:(lia)) as Hp. set (x := set_e _ _) in *.
  assert (Z.eqb (u32 (in_e (c_in s) + 1)) (u32 (in_r (c_in s) + Z.of_nat INPUT_BUF)) = bool_decide (S (length q + length l) = INPUT_BUF)%nat) as ->.
  { destruct Hx as [_ [R1 R2] _ -> _ _]. apply eq_true_iff_eq. rewrite bool_decide_eq_true, Z.eqb_eq. unfold u32, two32, INPUT_BUF in *.
    Z.to_euclidean_division_equations. lia. }
  wcall consputc_ok; [do 2 apply screen_in; apply S0|apply P|]. intros [] s1 (S1 & I1 & P1 & W1). change (c_in s1 = x) in I1.
  assert (Z.eqb c 10 || Z.eqb c ctrl_D || bool_decide (S (length q + length l) = INPUT_BUF)%nat =
    bool_decide (c = 10 ∨ c = ctrl_D ∨ (S (length q + length l) = INPUT_BUF)%nat)) as ->.
  { apply eq_true_iff_eq. rewrite !orb_true_iff, !bool_decide_eq_true, !Z.eqb_eq. tauto. }
  case_bool_decide as Hd; simpl.
  - wsteps. rewrite decide_True by done. pose proof (holds_commit _ _ _ Hp) as Hk. split; simpl; [by rewrite P1|by destruct S1|by rewrite I1|apply Forall_app; split; [done|]; apply Forall_app; split; [|by repeat constructor; lia]; eapply Forall_impl; [exact Pl|]; intros b [Hb _]; lia|done|done].
  - wstep. rewrite decide_False by done. apply (rep_edited s _ x q l); [done|by split_and!|done|done|by apply Forall_app; split; [|repeat constructor; tauto]|].
    rewrite length_app. simpl. intros E. exfalso. apply Hd. right. right. lia.
Qed.

Lemma erase_spec s q l : rep s q l →
  wp (i ← gets c_in;
      when (negb (Z.eqb (in_e i) (in_w i))) (
        upd_in (set_e (u32 (in_e i - 1)));;
        consputc BACKSPACE);;
      mret false) (λ d s', d = false ∧ rep s' q (removelast l)) s.
Proof.
  intros R. pose proof R as [P S0 Hx By Pl Fu]. wstep. wstep. wstep. apply wp_when.
  - intros H%negb_true_iff%Z.eqb_neq. rewrite (e_is_w _ _ _ Hx) in H. destruct (exists_last H) as (l0 & b & ->).
    unfold upd_in. wsteps. wcall consputc_ok; [by apply screen_in|done|]. intros [] s1 T1. wstep. split; [done|]. rewrite removelast_last.
    apply Forall_app in Pl as [Pl _]. eapply rep_edited; [exact R|by apply shown_edited in T1|by eapply holds_pop_last|done|done|].
    intros Hlen. pose proof (h_room _ _ _ Hx) as Hr. rewrite length_app in Hr. simpl in Hr. lia.
  - intros H%negb_false_iff%Z.eqb_eq. apply (e_is_w _ _ _ Hx) in H as ->. by wstep.
Qed.

Lemma cons_char_spec s q l c : rep s q l → 0 ≤ c < 256 → (c = ctrl_L → (length q + length l < INPUT_BUF)%nat) →
  wp (cons_char c) (λ d s', d = Z.eqb c ctrl_P ∧ rep s' (edit c (q, l)).1 (edit c (q, l)).2) s.
Proof.
  intros R Hc HL. pose proof R as [P S0 Hx By Pl Fu]. unfold cons_char. unfold edit.
  destruct (Z.eqb_spec c ctrl_P) as [->|HP]; [by wstep|]. destruct (Z.eqb_spec c ctrl_U) as [->|HU].
  { rewrite decide_False by (unfold ctrl_U, ctrl_P, ctrl_L; lia). rewrite decide_True by done.
    wstep. wcall back_spec; [intros; by apply consputc_ok|done|]. intros [] s1 D1. wstep. split; [done|]. simpl.
    eapply rep_edited; [done|done| |done..]. destruct Hx as [L Ru W Ee Ro At]. split; simpl; try done; [rewrite W; f_equal; simpl; lia|lia|].
    intros k b Hk. apply At. rewrite app_nil_r in Hk. by apply lookup_app_l_Some. }
  destruct (decide (c = ctrl_H ∨ c = 127)) as [HH|HH].
  { rewrite (proj2 (orb_true_iff _ _)) by (rewrite !Z.eqb_eq; tauto). rewrite (decide_False (P := c = ctrl_P ∨ c = ctrl_L)) by (unfold ctrl_H, ctrl_P, ctrl_L in *; lia).
    rewrite decide_False by done. wcall erase_spec; [done|]. by intros d s1 [-> R1]. }
  rewrite (proj2 (orb_false_iff _ _)) by (rewrite !Z.eqb_neq; tauto).
  destruct (Z.eqb_spec c ctrl_L) as [->|HnL].
  { rewrite decide_True by tauto. wstep. wcall redraw_spec; [done|]. intros [] s1 D1. wstep. split; [done|].
    eapply rep_edited; [done|done|by apply holds_put; [|apply HL]|done..]. }
  rewrite !decide_False by tauto. wstep. wstep. wstep. apply wp_when; intros H; apply andb_true_iff in H || apply andb_false_iff in H.
  - destruct H as [H1%negb_true_iff%Z.eqb_neq H2%Z.ltb_lt]. rewrite (fill_is _ _ _ Hx) in H2.
    rewrite (decide_False (P := c = 0 ∨ _)) by (unfold INPUT_BUF in *; lia).
    set (c' := if Z.eqb c 13 then 10 else c).
    assert ((if decide (c = 13) then 10 else c) = c') as -> by (unfold c'; case_decide; destruct (Z.eqb_spec c 13); done).
    wcall (insert_spec s q l c'); [done|unfold c'; destruct (Z.eqb_spec c 13); lia..|lia|].
    intros [] s1 R1. wstep. split; [done|]. by case_decide.
  - wstep. split; [done|]. rewrite decide_True; [done|]. destruct H as [H%negb_false_iff%Z.eqb_eq|H%Z.ltb_ge]; [by left|].
    rewrite (fill_is _ _ _ Hx) in H. right. lia.
Qed.

(** ** Claims *)

Lemma consoleintr_spec cs s q l : rep s q l → Forall (λ c, 0 ≤ c < 256) cs → calm cs (q, l) →
  wp (consoleintr cs) (λ d s', d = existsb (Z.eqb ctrl_P) cs ∧ rep s' (edits cs (q, l)).1 (edits cs (q, l)).2) s.
Proof.
  revert s q l. induction cs as [|c cs IH]; intros s q l R Hc Hk; cbn [consoleintr existsb]; [by wstep|]. inversion_clear Hc as [|? ? H1 H2]. destruct Hk as [HL Hk].
  rewrite (proj2 (Z.ltb_ge c 0)) by lia. wstep. wcall cons_char_spec; [done|done|done|]. intros d s1 [-> R1]. wstep.
  destruct (edit c (q, l)) as [q1 l1] eqn:E1. wcall IH; [exact R1|done|done|]. intros d s2 [-> R2]. wstep. rewrite (Z.eqb_sym c). split; [done|]. change (edits (c :: cs) (q, l)) with (edits cs (edit c (q, l))). by rewrite E1.
Qed.

(** C25: the console is a line editor.  Whatever characters come in, the
    ring of [input] stands for the queue of characters handed over to
    readers and the line being edited, as the abstract editor says: a kill
    empties the line, a backspace takes its last character, a newline, an
    end-of-file mark or a full ring hands it over, and the handed-over
    characters never change; the indices may wrap around.  Nothing panics:
    the cursor stays on the screen.  The one exception is a redraw that
    comes in while the ring is full. *)
Theorem console_edits_lines cs s q l :
  rep s q l → Forall (λ c, 0 ≤ c < 256) cs → calm cs (q, l) →
  wp (consoleintr cs) (λ d s', d = existsb (Z.eqb ctrl_P) cs ∧ rep s' (edits cs (q, l)).1 (edits cs (q, l)).2) s.
Proof. apply consoleintr_spec. Qed.

(** A redraw of a full ring destroys input.  [C('L')] marks the end of
    the line with a NUL at [input.e], without a test for room: when the ring
    is full that is the slot of the first character waiting to be read. *)
Theorem console_redraw_overwrites s q :
  rep s q [] → length q = INPUT_BUF →
  wp (consoleintr [ctrl_L]) (λ _ s', rep s' (0 :: tail q) []) s.
Proof.
  intros R Hq. cbn [consoleintr]. change (Z.ltb ctrl_L 0) with false. cbv iota. wstep. unfold cons_char. simpl. wstep.
  wcall redraw_spec; [done|]. intros [] s1 D1. wsteps.
  destruct (holds_nul _ _ _ (rp_holds _ _ _ R) (rp_full _ _ _ R)) as [Hn El]. pose proof (nul_bytes q (rp_bytes _ _ _ R)) as Hb.
  assert (nul_first q = 0 :: tail q) as E by (unfold nul_first; by rewrite Hq, Nat.leb_refl). rewrite E in *.
  eapply rep_edited; [done|done|done|done|done|done].
Qed.

(** *** Reading *)

Lemma schar_mod b : 0 ≤ b < 256 → schar b mod 256 = b.
Proof. intros H. unfold schar. destruct (Z.ltb_spec b 128); [by rewrite Z.mod_small|]. rewrite <-(Z.mod_add _ 1) by lia. rewrite Z.mod_small; lia. Qed.
Lemma schar_small b c : 0 ≤ b < 256 → 0 ≤ c < 128 → schar b = c ↔ b = c.
Proof. intros H Hc. unfold schar. destruct (Z.ltb_spec b 128); lia. Qed.

(** Up to a newline. *)
Lemma consoleread_line s txt q l target n bytes killed :
  rep s (txt ++ 10 :: q) l → Forall (λ b, b ≠ 10 ∧ b ≠ ctrl_D) txt → Z.of_nat (length txt) < n →
  wp (consoleread killed target n bytes) (λ r s', r = CDone (target - n + Z.of_nat (length txt) + 1) (bytes ++ txt ++ [10]) ∧ rep s' q l) s.
Proof.
  intros R Ht Hn. unfold consoleread.
  apply (wp_loop (λ m '(k, bs) s', ∃ t1 t2, m = length t2 ∧ txt = t1 ++ t2 ∧ bs = bytes ++ t1 ∧ k = n - Z.of_nat (length t1) ∧ rep s' (t2 ++ 10 :: q) l)) with (n := length txt);
    [|lia|exists [], txt; split_and!; try done; [by rewrite app_nil_r|simpl; lia]].
  intros m [k bs] s1 (t1 & t2 & -> & -> & -> & -> & R1). rewrite length_app in Hn.
  rewrite (proj2 (Z.ltb_lt 0 _)) by lia. wstep. wstep. pose proof R1 as [P1 S1 H1 By1 Pl1 Fu1].
  destruct (decide (in_r (c_in s1) = in_w (c_in s1))) as [E|E]; [apply (r_is_w _ _ _ H1) in E; by destruct t2|].
  rewrite (proj2 (Z.eqb_neq _ _)) by done. wsteps. unfold upd_in. wsteps. simpl.
  assert (∀ b q', t2 ++ 10 :: q = b :: q' → in_at s1 (in_r (c_in s1)) = schar b ∧ 0 ≤ b < 256 ∧ rep (set_in (set_r (u32 (in_r (c_in s1) + 1)) (c_in s1)) s1) q' l) as Htake.
  { intros b q' Eq. rewrite Eq in H1, By1. destruct (holds_take _ _ _ _ H1) as [Hb H2]. inversion_clear By1 as [|? ? Hb' Hq']. split; [unfold in_at; by rewrite Hb|].
    split; [done|]. split; simpl; [done|by apply screen_in|done|done|done|]. intros Hlen. pose proof (h_room _ _ _ H1) as Hr. simpl in Hr. lia. }
  apply Forall_app in Ht as [_ Ht2]. destruct t2 as [|b t2].
  - destruct (Htake 10 q eq_refl) as (-> & _ & R2). simpl. wstep. rewrite app_nil_r, <-app_assoc. split; [|done]. f_equal. lia.
  - destruct (Htake b (t2 ++ 10 :: q) eq_refl) as (-> & Hb & R2). inversion_clear Ht2 as [|? ? [Hb1 Hb2] Ht3].
    rewrite (proj2 (Z.eqb_neq _ ctrl_D)) by (by rewrite schar_small by (done || unfold ctrl_D; lia)).
    rewrite (proj2 (Z.eqb_neq _ 10)) by (by rewrite schar_small by (done || lia)). wstep.
    exists (length t2). split; [simpl; lia|]. exists (t1 ++ [b]), t2. split_and!; [done|by rewrite <-app_assoc|by rewrite schar_mod, <-app_assoc|rewrite length_app; simpl; lia|done].
Qed.

(** A character that is not an editing key. *)
Definition typed (c : Z) : Prop :=
  0 < c < 256 ∧ c ≠ 10 ∧ c ≠ 13 ∧ c ≠ 127 ∧ c ≠ ctrl_D ∧ c ≠ ctrl_H ∧ c ≠ ctrl_L ∧ c ≠ ctrl_P ∧ c ≠ ctrl_U.

Lemma edit_typed c l : typed c → (length l < 127)%nat → edit c ([], l) = ([], l ++ [c]).
Proof.
  intros (H1 & H2 & H3 & H4 & H5 & H6 & H7 & H8 & H9) Hl. unfold edit. rewrite !decide_False by tauto.
  rewrite decide_False by (simpl; unfold INPUT_BUF; lia). rewrite (decide_False (P := c = 13)) by done. rewrite decide_False; [done|]. simpl. unfold INPUT_BUF. lia.
Qed.

Lemma edits_typed txt l : Forall typed txt → (length l + length txt < 128)%nat → edits txt ([], l) = ([], l ++ txt) ∧ calm txt ([], l).
Proof.
  revert l. induction txt as [|c txt IH]; intros l Ht Hl; [by rewrite app_nil_r|]. inversion_clear Ht as [|? ? H1 H2]. simpl in Hl.
  change (edits (c :: txt) ([], l)) with (edits txt (edit c ([], l))). cbn [calm]. rewrite edit_typed by (done || lia).
  destruct (IH (l ++ [c]) H2) as [-> Hc]; [rewrite length_app; simpl; lia|]. rewrite <-app_assoc. split; [done|].
  split; [|done]. intros ->. by destruct H1 as (_ & _ & _ & _ & _ & _ & H & _).
Qed.

Lemma edits_app a b ql : edits (a ++ b) ql = edits b (edits a ql).
Proof. apply foldl_app. Qed.
Lemma calm_app a b ql : calm a ql → calm b (edits a ql) → calm (a ++ b) ql.
Proof.
  revert ql. induction a as [|c a IH]; intros ql Ha Hb; [done|]. destruct Ha as [H1 H2]. split; [done|]. by apply IH.
Qed.

(** A line that is typed is what is read.  Text without editing keys,
    shorter than the ring and ended by the enter key, typed into an empty
    console, is returned whole by the next [consoleread] that asks for
    enough, as the text and a newline; nothing is left over. *)
Theorem console_delivers_line s txt enter n :
  rep s [] [] → Forall typed txt → enter = 10 ∨ enter = 13 → (length txt < 127)%nat → Z.of_nat (length txt) < n →
  wp (consoleintr (txt ++ [enter]);; consoleread false n n [])
     (λ r s', r = CDone (Z.of_nat (length txt) + 1) (txt ++ [10]) ∧ rep s' [] []) s.
Proof.
  intros R Ht He Hl Hn. destruct (edits_typed txt [] Ht) as [Ee Hc]; [simpl; lia|]. wstep. wcall consoleintr_spec; [done| | |].
  - apply Forall_app. split; [|by destruct He as [-> | ->]; repeat constructor]. eapply Forall_impl; [done|]. intros c [Hc' _]. lia.
  - apply calm_app; [done|]. rewrite Ee. split; [|done]. simpl. by destruct He as [-> | ->].
  - intros d s1 [_ R1]. assert (edits (txt ++ [enter]) ([], []) = (txt ++ [10], [])) as E.
    { rewrite edits_app, Ee. change (edits [enter] ([], [] ++ txt)) with (edit enter ([], txt)). unfold edit, ctrl_P, ctrl_L, ctrl_U, ctrl_H.
      rewrite !decide_False by lia. rewrite decide_False by (simpl; unfold INPUT_BUF; lia).
      destruct He as [-> | ->]; done. }
    rewrite E in R1. wcall (consoleread_line s1 txt [] [] n n []); [done| |done|].
    + eapply Forall_impl; [exact Ht|]. intros c (_ & H1 & _ & _ & H2 & _). done.
    + intros r s2 [-> R2]. split; [|done]. f_equal. lia.
Qed.

(** ** On a concrete console *)

Definition fresh_cons : cons := mkCons (mkInput (replicate INPUT_BUF 0) 4294967290 4294967290 4294967290) (replicate CRTSIZE 0) 1919 [] false 0.

Lemma fresh_rep : rep fresh_cons [] [].
Proof. split; try done; split; try done; unfold is_u32, two32; simpl; lia. Qed.

(** "ls", a backspace, "x", kill, "ok" and enter, with indices about to wrap. *)
Lemma console_edits_lines_witness :
  wp (consoleintr [108; 115; 8; 120; 21; 111; 107; 13]) (λ _ s', rep s' [111; 107; 10] []) fresh_cons.
Proof.
  eapply wp_mono; [apply (console_edits_lines [108; 115; 8; 120; 21; 111; 107; 13] fresh_cons [] [])|].
  - apply fresh_rep.
  - repeat constructor; lia.
  - by repeat split.
  - intros d s' [_ R]. exact R.
Defined.

Definition full_cons : cons := mkCons (mkInput (replicate INPUT_BUF 97) 5 133 133) (replicate CRTSIZE 0) 0 [] false 0.

Lemma full_rep : rep full_cons (replicate INPUT_BUF 97) [].
Proof.
  split; try done.
  - split; try done. intros k b Hk. rewrite app_nil_r in Hk. apply lookup_replicate in Hk as [-> Hk].
    rewrite nth_lookup. change (in_buf (c_in full_cons)) with (replicate INPUT_BUF 97). rewrite lookup_replicate_2; [done|]. apply ring_slot_in.
  - apply Forall_replicate. lia.
Qed.

Lemma console_redraw_overwrites_witness :
  wp (consoleintr [ctrl_L]) (λ _ s', rep s' (0 :: replicate 127 97) []) full_cons.
Proof. apply (console_redraw_overwrites full_cons (replicate INPUT_BUF 97)); [apply full_rep|reflexivity]. Defined.

Lemma console_delivers_line_witness :
  wp (consoleintr [108; 115; 13];; consoleread false 100 100 []) (λ r s', r = CDone 3 [108; 115; 10] ∧ rep s' [] []) fresh_cons.
Proof.
  apply (console_delivers_line fresh_cons [108; 115] 13 100); [apply fresh_rep| |by right|simpl; lia|simpl; lia].
  repeat constructor; vm_compute; discriminate.
Defined.

Close Scope Z_scope.
