(* ===== verification/Kbd.v ===== *)
(** * The keyboard ([src/xv6-public/kbd.c], [src/xv6-public/kbd.h])

    The decoder of scan codes as a state machine over the modifier keys, and
    [kbdintr], which feeds what it decodes to the console.  The tables are
    those of [kbd.h]; the scan codes waiting in the controller are a list.
    What the decoder should do is [key_event]: keys of a US keyboard go down
    and up, three of them lock, and a character is what the key shows under
    the modifiers that are down. *)

From Stdlib Require Import String Ascii.
From S2P Require Import Prelude.
From S2P Require Import Console.
From S2P Require Import ConsoleTheorems.

Open Scope Z_scope.

Definition SHIFT : Z := 1.
Definition CTL : Z := 2.
Definition ALT : Z := 4.
Definition CAPSLOCK : Z := 8.
Definition NUMLOCK : Z := 16.
Definition SCROLLLOCK : Z := 32.
Definition E0ESC : Z := 64.

(** A [uchar] array of 256 with the first elements and the designated ones
    given. *)
Definition table (l : list Z) (d : list (Z * Z)) : list Z :=
  (λ v, v mod 256) <$> foldl (λ t '(i, v), <[Z.to_nat i := v]> t) (l ++ replicate (256 - length l) 0) d.

Definition shiftcode : list Z :=
  table []
    [(29, 2); (42, 1); (54, 1); (56, 4); (157, 2); (184, 4)].

Definition togglecode : list Z :=
  table []
    [(58, 8); (69, 16); (70, 32)].

Definition normalmap : list Z :=
  table
    [0; 27; 49; 50; 51; 52; 53; 54; 55; 56; 57; 48; 45; 61; 8; 9;
     113; 119; 101; 114; 116; 121; 117; 105; 111; 112; 91; 93; 10; 0; 97; 115;
     100; 102; 103; 104; 106; 107; 108; 59; 39; 96; 0; 92; 122; 120; 99; 118;
     98; 110; 109; 44; 46; 47; 0; 42; 0; 32; 0; 0; 0; 0; 0; 0;
     0; 0; 0; 0; 0; 0; 0; 55; 56; 57; 45; 52; 53; 54; 43; 49;
     50; 51; 48; 46; 0; 0; 0; 0]
    [(156, 10); (181, 47); (200, 226); (208, 227); (201, 230); (209, 231); (203, 228); (205, 229); (151, 224); (207, 225); (210, 232); (211, 233)].

Definition shiftmap : list Z :=
  table
    [0; 27; 33; 64; 35; 36; 37; 94; 38; 42; 40; 41; 95; 43; 8; 9;
     81; 87; 69; 82; 84; 89; 85; 73; 79; 80; 123; 125; 10; 0; 65; 83;
     68; 70; 71; 72; 74; 75; 76; 58; 34; 126; 0; 124; 90; 88; 67; 86;
     66; 78; 77; 60; 62; 63; 0; 42; 0; 32; 0; 0; 0; 0; 0; 0;
     0; 0; 0; 0; 0; 0; 0; 55; 56; 57; 45; 52; 53; 54; 43; 49;
     50; 51; 48; 46; 0; 0; 0; 0]
    [(156, 10); (181, 47); (200, 226); (208, 227); (201, 230); (209, 231); (203, 228); (205, 229); (151, 224); (207, 225); (210, 232); (211, 233)].

Definition ctlmap : list Z :=
  table
    [0; 0; 0; 0; 0; 0; 0; 0; 0; 0; 0; 0; 0; 0; 0; 0;
     17; 23; 5; 18; 20; 25; 21; 9; 15; 16; 0; 0; 13; 0; 1; 19;
     4; 6; 7; 8; 10; 11; 12; 0; 0; 0; 0; 28; 26; 24; 3; 22;
     2; 14; 13; 0; 0; -17; 0; 0]
    [(156, 13); (181, -17); (200, 226); (208, 227); (201, 230); (209, 231); (203, 228); (205, 229); (151, 224); (207, 225); (210, 232); (211, 233)].

(** [t[i]]. *)
Definition at_table (t : list Z) (i : Z) : M Z Z :=
  match t !! Z.to_nat i with Some v => mret v | None => fail OutOfBounds end.

(** The state is [shift]; [data] is the scan code, [None] when there is none. *)
Definition kbdgetc (data : option Z) : M Z Z :=
  match data with
  | None => mret (-1)
  | Some data =>
      shift ← gets id;
      if Z.eqb data 224 then modify (λ s, Z.lor s E0ESC);; mret 0
      else if negb (Z.eqb (Z.land data 128) 0) then
        let data := if negb (Z.eqb (Z.land shift E0ESC) 0) then data else Z.land data 127 in
        c ← at_table shiftcode data;
        modify (λ s, Z.land s (Z.lnot (Z.lor c E0ESC)));;
        mret 0
      else
        let esc := negb (Z.eqb (Z.land shift E0ESC) 0) in
        let data := if esc then Z.lor data 128 else data in
        let shift := if esc then Z.land shift (Z.lnot E0ESC) else shift in
        sc ← at_table shiftcode data;
        tc ← at_table togglecode data;
        let shift := Z.lxor (Z.lor shift sc) tc in
        modify (λ _, shift);;
        map ← match [normalmap; shiftmap; ctlmap; ctlmap] !! Z.to_nat (Z.land shift (Z.lor CTL SHIFT)) with
              | Some m => mret m
              | None => fail OutOfBounds
              end;
        c ← at_table map data;
        if negb (Z.eqb (Z.land shift CAPSLOCK) 0) then
          if Z.leb 97 c && Z.leb c 122 then mret (c + (65 - 97))
          else if Z.leb 65 c && Z.leb c 90 then mret (c + (97 - 65))
          else mret c
        else mret c
  end.

(** The characters [kbdgetc] returns until the controller is empty. *)
Fixpoint kbd_chars (codes : list Z) : M Z (list Z) :=
  match codes with
  | [] => c ← kbdgetc None; mret [c]
  | d :: codes =>
      c ← kbdgetc (Some d);
      cs ← kbd_chars codes;
      mret (c :: cs)
  end.

Definition kbdintr (codes : list Z) : M (Z * cons) bool :=
  cs ← zoom fst (λ sh s, (sh, s.2)) (kbd_chars codes);
  zoom snd (λ c s, (s.1, c)) (consoleintr cs).

(** ** What the keys mean *)

(** A key: its position, on the main block or with the prefix E0. *)
Record keyboard := mkKb { kb_shift : bool; kb_ctl : bool; kb_alt : bool; kb_caps : bool; kb_num : bool; kb_scroll : bool; kb_e0 : bool }.

Definition is_shift (ext : bool) (k : Z) : bool := negb ext && (Z.eqb k 42 || Z.eqb k 54).
Definition is_ctl (ext : bool) (k : Z) : bool := Z.eqb k 29.
Definition is_alt (ext : bool) (k : Z) : bool := Z.eqb k 56.
Definition is_lock (n : Z) (ext : bool) (k : Z) : bool := negb ext && Z.eqb k n.

(** A key goes down: a modifier counts as held, a lock changes over. *)
Definition press (ext : bool) (k : Z) (b : keyboard) : keyboard :=
  mkKb (kb_shift b || is_shift ext k) (kb_ctl b || is_ctl ext k) (kb_alt b || is_alt ext k)
    (xorb (kb_caps b) (is_lock 58 ext k)) (xorb (kb_num b) (is_lock 69 ext k)) (xorb (kb_scroll b) (is_lock 70 ext k)) false.
Definition release (ext : bool) (k : Z) (b : keyboard) : keyboard :=
  mkKb (kb_shift b && negb (is_shift ext k)) (kb_ctl b && negb (is_ctl ext k)) (kb_alt b && negb (is_alt ext k))
    (kb_caps b) (kb_num b) (kb_scroll b) false.

(** What the keys show, row by row from a position on: without and with
    shift. *)
Definition rows : list (Z * string * string) :=
  [(2, "1234567890-=", "!@#$%^&*()_+"); (16, "qwertyuiop[]", "QWERTYUIOP{}"); (30, "asdfghjkl;", "ASDFGHJKL:");
   (41, "`", "~"); (43, "\zxcvbnm,./", "|ZXCVBNM<>?"); (55, "*", "*"); (57, " ", " "); (71, "789-456+1230.", "789-456+1230.")]%string.
Definition others : list (Z * Z * Z) := [(1, 27, 27); (14, 8, 8); (15, 9, 9); (28, 10, 10); (40, 39, 34)].
(** Behind the prefix: enter and slash of the keypad, and the cursor keys. *)
Definition extended : list (Z * Z) :=
  [(28, 10); (53, 47); (23, 224); (79, 225); (72, 226); (80, 227); (75, 228); (77, 229); (73, 230); (81, 231); (82, 232); (83, 233)].

Definition ch (s : string) (i : Z) : option Z := (λ a, Z.of_nat (nat_of_ascii a)) <$> String.get (Z.to_nat i) s.
Fixpoint row_key (l : list (Z * string * string)) (k : Z) : option (Z * Z) :=
  match l with
  | [] => None
  | (a, lo, up) :: l =>
      if Z.leb a k && Z.ltb (k - a) (Z.of_nat (String.length lo)) then c ← ch lo (k - a); d ← ch up (k - a); Some (c, d)
      else row_key l k
  end.
Definition shows (ext : bool) (k : Z) : Z * Z :=
  if ext then match find (λ e, Z.eqb (fst e) k) extended with Some (_, c) => (c, c) | None => (0, 0) end
  else match find (λ e, Z.eqb (fst (fst e)) k) others with Some (_, c, d) => (c, d) | None => default (0, 0) (row_key rows k) end.

Definition lower (c : Z) : bool := Z.leb 97 c && Z.leb c 122.
Definition upper (c : Z) : bool := Z.leb 65 c && Z.leb c 90.
Definition swap_case (c : Z) : Z := if lower c then c - 32 else if upper c then c + 32 else c.
(** With control: a letter gives its control character, backslash and slash
    theirs, enter a carriage return, a cursor key itself and the rest
    nothing. *)
Definition control (c : Z) : Z :=
  if lower c then c - 96 else if Z.eqb c 92 then 28 else if Z.eqb c 47 then 239 else if Z.eqb c 10 then 13 else if Z.leb 224 c then c else 0.
Definition key_char (b : keyboard) (ext : bool) (k : Z) : Z :=
  let '(c, d) := shows ext k in
  if kb_ctl b then control c
  else
    let c := if kb_shift b then d else c in
    if kb_caps b then swap_case c else c.

(** One scan code: the prefix, a release, or a press and its character. *)
Definition key_event (d : Z) (b : keyboard) : Z * keyboard :=
  if Z.eqb d 224 then (0, mkKb (kb_shift b) (kb_ctl b) (kb_alt b) (kb_caps b) (kb_num b) (kb_scroll b) true)
  else if Z.leb 128 d then (0, release (kb_e0 b) (d - 128) b)
  else let b' := press (kb_e0 b) d b in (key_char b' (kb_e0 b) d, b').
Fixpoint typed (codes : list Z) (b : keyboard) : list Z * keyboard :=
  match codes with
  | [] => ([], b)
  | d :: codes => let '(c, b) := key_event d b in let '(cs, b) := typed codes b in (c :: cs, b)
  end.

(** ** The decoder does that *)

Definition kb_bits (b : keyboard) : Z :=
  Z.b2z (kb_shift b) * SHIFT + Z.b2z (kb_ctl b) * CTL + Z.b2z (kb_alt b) * ALT + Z.b2z (kb_caps b) * CAPSLOCK +
  Z.b2z (kb_num b) * NUMLOCK + Z.b2z (kb_scroll b) * SCROLLLOCK + Z.b2z (kb_e0 b) * E0ESC.

Definition bools : list bool := [false; true].
Definition keyboards : list keyboard :=
  a ← bools; b ← bools; c ← bools; d ← bools; e ← bools; f ← bools; g ← bools; [mkKb a b c d e f g].
#[local] Instance keyboard_eq_dec : EqDecision keyboard.
Proof. solve_decision. Defined.
Lemma keyboards_all b : b ∈ keyboards.
Proof. destruct b as [[] [] [] [] [] [] []]; apply (bool_decide_unpack _); vm_compute; exact I. Qed.

Definition getc_ok (b : keyboard) (data : nat) : bool :=
  let '(c, b') := key_event (Z.of_nat data) b in
  match kbdgetc (Some (Z.of_nat data)) (kb_bits b) with
  | Ok (c', sh') => Z.eqb c' c && Z.eqb sh' (kb_bits b') && Z.leb 0 c && Z.ltb c 256
  | Err _ => false
  end.
Lemma getc_all : forallb (λ b, forallb (getc_ok b) (seq 0 256)) keyboards = true.
Proof. vm_compute. reflexivity. Qed.

Lemma kbdgetc_event b d c b' : 0 ≤ d < 256 → key_event d b = (c, b') →
  kbdgetc (Some d) (kb_bits b) = Ok (c, kb_bits b') ∧ 0 ≤ c < 256.
Proof.
  intros Hd E. pose proof getc_all as H. rewrite forallb_forall in H. specialize (H b).
  rewrite <-list_elem_of_In, forallb_forall in H. specialize (H (keyboards_all b) (Z.to_nat d)).
  rewrite <-list_elem_of_In in H. specialize (H ltac:(apply elem_of_seq; lia)). unfold getc_ok in H. rewrite Z2Nat.id, E in H by lia.
  destruct (kbdgetc (Some d) (kb_bits b)) as [[c1 sh1]|]; [|done]. rewrite !andb_true_iff, !Z.eqb_eq, Z.leb_le, Z.ltb_lt in H.
  destruct H as [[[-> ->] ?] ?]. done.
Qed.

Lemma kbd_chars_typed codes b cs b' : Forall (λ d, 0 ≤ d < 256) codes → typed codes b = (cs, b') →
  kbd_chars codes (kb_bits b) = Ok (cs ++ [-1], kb_bits b') ∧ Forall (λ c, 0 ≤ c < 256) cs.
Proof.
  intros Hd. revert b cs b'. induction Hd as [|d codes Hd _ IH]; intros b cs b'; cbn [kbd_chars typed].
  - intros [= <- <-]. done.
  - destruct (key_event d b) as [c b1] eqn:E1. destruct (typed codes b1) as [cs1 b2] eqn:E2. intros [= <- <-].
    destruct (kbdgetc_event _ _ _ _ Hd E1) as [H1 Hc]. destruct (IH _ _ _ E2) as [H2 Hcs].
    rewrite (bind_ok _ _ _ _ _ H1), (bind_ok _ _ _ _ _ H2). split; [done|by constructor].
Qed.

Lemma consoleintr_stop cs s : Forall (λ c, 0 ≤ c < 256) cs → consoleintr (cs ++ [-1]) s = consoleintr cs s.
Proof.
  intros H. revert s. induction H as [|c cs Hc _ IH]; intros s; [done|]. cbn [consoleintr app]. rewrite (proj2 (Z.ltb_ge c 0)) by lia.
  apply bind_ext. intros d s1. unfold mbind, M_bind. by rewrite IH.
Qed.

(** C38: The decoder types what the keys mean, and the console edits its line
    by it.  From every state of the keyboard, a sequence of scan codes gives
    the characters and leaves the modifiers [typed] says: E0 marks the next
    code only, a key going down or up sets or clears the modifier it is, the
    three locks change over when pressed, and a pressed key gives the
    character it shows under shift, control and caps lock.  As long as the
    characters do not ask for a redraw of a full ring, the console then holds
    the line and the input they edit. *)
Theorem kbdintr_types_keys codes b s q l cs b' :
  Forall (λ d, 0 ≤ d < 256) codes → rep s q l → typed codes b = (cs, b') →
  kbd_chars codes (kb_bits b) = Ok (cs ++ [-1], kb_bits b') ∧
  (calm cs (q, l) → wp (kbdintr codes) (λ _ st, st.1 = kb_bits b' ∧ rep st.2 (edits cs (q, l)).1 (edits cs (q, l)).2) (kb_bits b, s)).
Proof.
  intros Hd R Ht. destruct (kbd_chars_typed codes b cs b' Hd Ht) as [E Hc]. split; [exact E|].
  intros Hk. unfold kbdintr. wstep. wstep. eapply wp_eq; [exact E|]. wstep. simpl.
  unfold wp. rewrite consoleintr_stop by done. apply (wp_mono _ _ _ _ (consoleintr_spec cs s q l R Hc Hk)). by intros d s' [_ R'].
Qed.

Definition all_up : keyboard := mkKb false false false false false false false.

(** Shift down, "a", shift up, caps lock down and up, "b", enter of the keypad
    down and up, enter: the line "AB" and an empty one. *)
Definition strokes : list Z := [42; 30; 170; 58; 186; 48; 224; 28; 224; 156; 28].
Lemma kbdintr_types_keys_witness :
  wp (kbdintr strokes) (λ _ st, rep st.2 [65; 66; 10; 10] []) (0, fresh_cons).
Proof.
  destruct (kbdintr_types_keys strokes all_up fresh_cons [] [] [0; 65; 0; 0; 0; 66; 0; 10; 0; 0; 10]
    (mkKb false false false true false false false)) as [_ H].
  - repeat constructor; lia.
  - apply fresh_rep.
  - vm_compute. reflexivity.
  - eapply wp_mono; [apply H; by repeat split|]. intros d st [_ R]. exact R.
Defined.

Close Scope Z_scope.
