(* ===== verification/UserLib.v ===== *)
(** * The user library ([src/xv6-public/printf.c], [src/xv6-public/ulib.c])

    [printf] and its helpers over the bytes written to the file descriptor;
    the string routines over the byte memory of [Strings].  [write] accepts
    every byte; what [read] delivers to [gets] is a list, empty at the end
    of the file. *)

From S2P Require Import Prelude.
From S2P Require Import Strings.
From S2P Require Import Digits.

Open Scope Z_scope.

(** ** [printf.c] *)

(** What was written to the descriptor. *)
Abbreviation OM := (M (list Z)).

Definition putc (c : Z) : OM unit := modify (λ out, out ++ [c mod 256]).

(** "0123456789ABCDEF" *)
Definition digits : list Z := [48; 49; 50; 51; 52; 53; 54; 55; 56; 57; 65; 66; 67; 68; 69; 70].

Definition printint (xx base : Z) (sgn : bool) : OM unit :=
  let neg := sgn && Z.ltb xx 0 in
  let x := if neg then u32 (- xx) else u32 xx in
  buf ← digit_loop digits x base;
  buf ← (if neg then if (16 <=? length buf)%nat then fail OutOfBounds else mret (buf ++ [45]) else mret buf);
  for_each (reverse buf) putc.

(** A character after a [%]; [ap] are the words of the arguments left. *)
Definition printf_conv (str : Z → list Z) (c : Z) (ap : list Z) : OM (list Z) :=
  if Z.eqb c 100 then                                            (* d *)
    a ← deref (head ap); printint (s32 a) 10 true;; mret (tail ap)
  else if Z.eqb c 120 || Z.eqb c 112 then                        (* x, p *)
    a ← deref (head ap); printint (s32 a) 16 false;; mret (tail ap)
  else if Z.eqb c 115 then                                       (* s *)
    a ← deref (head ap);
    for_each (if Z.eqb a 0 then [40; 110; 117; 108; 108; 41] else str a) putc;;
    mret (tail ap)
  else if Z.eqb c 99 then a ← deref (head ap); putc a;; mret (tail ap)
  else if Z.eqb c 37 then putc c;; mret ap
  else putc 37;; putc c;; mret ap.

(** [pct] is [state == '%']; [str] is the string at an address. *)
Fixpoint printf_loop (str : Z → list Z) (fmt : list Z) (pct : bool) (ap : list Z) : OM unit :=
  match fmt with
  | [] => mret tt
  | c :: fmt =>
      if pct then ap ← printf_conv str c ap; printf_loop str fmt false ap
      else if Z.eqb c 37 then printf_loop str fmt true ap
      else putc c;; printf_loop str fmt false ap
  end.
Definition printf (str : Z → list Z) (fmt ap : list Z) : OM unit := printf_loop str fmt false ap.

(** ** [ulib.c] *)

Definition strcpy (fuel : nat) (s t : Z) : BM Z :=
  loop fuel (λ i,
    v ← ld8 (t + i);
    st8 (s + i) v;;
    if Z.eqb v 0 then mret (inr tt) else mret (inl (i + 1))) 0;;
  mret s.

Definition strcmp (fuel : nat) (p q : Z) : BM Z :=
  loop fuel (λ i,
    a ← ld8 (p + i);
    b ← ld8 (q + i);
    if negb (Z.eqb a 0) && Z.eqb a b then mret (inl (i + 1)) else mret (inr (a - b))) 0.

Definition u_strlen (fuel : nat) (s : Z) : BM Z :=
  loop fuel (λ n, c ← ld8 (s + n); if Z.eqb c 0 then mret (inr n) else mret (inl (n + 1))) 0.

Definition memset (dst c : Z) (n : nat) : BM Z := stosb dst c n;; mret dst.

(** The digits at [s]; [int] arithmetic wraps. *)
Definition atoi (fuel : nat) (s : Z) : BM Z :=
  loop fuel (λ '(s, n),
    c ← ld8 s;
    if Z.leb 48 c && Z.leb c 57 then mret (inl (s + 1, s32 (n * 10 + c - 48))) else mret (inr n)) (s, 0).

(** Forward only. *)
Definition memmove (dst src n : Z) : BM Z := copy_up dst src (Z.to_nat n);; mret dst.

Definition gets (buf max : Z) : M (list Z * bmem) Z :=
  i ← loop (S (Z.to_nat max)) (λ i,
    if Z.ltb (i + 1) max then
      inp ← Prelude.gets fst;
      match inp with
      | [] => mret (inr i)
      | c :: inp =>
          modify (λ s, (inp, s.2));;
          zoom snd (λ m s, (s.1, m)) (st8 (buf + i) c);;
          if Z.eqb c 10 || Z.eqb c 13 then mret (inr (i + 1)) else mret (inl (i + 1))
      end
    else mret (inr i)) 0;
  zoom snd (λ m s, (s.1, m)) (st8 (buf + i) 0);;
  mret buf.

(** ** Printing numbers *)

Lemma putc_run c out : putc c out = Ok (tt, out ++ [c mod 256]).
Proof. done. Qed.

Lemma puts_run l out : Forall is_byte l → for_each l putc out = Ok (tt, out ++ l).
Proof.
  revert out. induction l as [|c l IH]; intros out Hl; [by rewrite app_nil_r|]. inversion_clear Hl as [|? ? Hc Hl'].
  cbn [for_each]. rewrite (bind_ok _ _ _ _ _ (putc_run c out)), IH by done. rewrite Z.mod_small by done. by rewrite <-app_assoc.
Qed.

Lemma decimal_digit d : 0 ≤ d < 10 → nth (Z.to_nat d) digits 0 = 48 + d.
Proof.
  intros H. assert (d = 0 ∨ d = 1 ∨ d = 2 ∨ d = 3 ∨ d = 4 ∨ d = 5 ∨ d = 6 ∨ d = 7 ∨ d = 8 ∨ d = 9) as Hd by lia.
  by repeat destruct Hd as [-> | Hd]; try subst d.
Qed.

(** The decimal text of a number, most significant digit first. *)
Definition decimal (xx : Z) (txt : list Z) : Prop :=
  ∃ ds, ds ≠ [] ∧ (length ds ≤ 10)%nat ∧ Forall (λ d, 0 ≤ d < 10) ds ∧ number 10 ds = Z.abs xx ∧
    txt = (if Z.ltb xx 0 then [45] else []) ++ reverse ((λ d, 48 + d) <$> ds).

Lemma printint_decimal xx out : is_s32 xx →
  wp (printint xx 10 true) (λ _ out', ∃ txt, decimal xx txt ∧ out' = out ++ txt) out.
Proof.
  intros Hx. unfold printint. cbn [andb]. unfold is_s32 in Hx.
  assert ((if Z.ltb xx 0 then u32 (- xx) else u32 xx) = Z.abs xx) as ->.
  { destruct (Z.ltb_spec xx 0); rewrite u32_small by (unfold is_u32, two32; lia); lia. }
  wstep. wcall (digit_loop_spec digits (Z.abs xx) 10 10); [lia|lia|change (10 ^ Z.of_nat 10) with 10000000000; lia|].
  intros buf s' (-> & ds & -> & Hne & Hl & Hds & Hn). assert ((λ d, nth (Z.to_nat d) digits 0) <$> ds = (λ d, 48 + d) <$> ds) as ->.
  { apply list_fmap_ext. intros i d Hd. apply decimal_digit. rewrite Forall_lookup in Hds. by eapply Hds. }
  assert (Forall is_byte (reverse ((λ d, 48 + d) <$> ds))) as Hb.
  { apply Forall_reverse, Forall_fmap. eapply Forall_impl; [exact Hds|]. unfold is_byte. simpl. intros d ?. lia. }
  wstep. destruct (Z.ltb_spec xx 0) as [Hneg|Hpos].
  - rewrite length_fmap. destruct (Nat.leb_spec 16 (length ds)); [lia|]. wstep. rewrite reverse_snoc.
    eapply wp_eq; [apply puts_run; constructor; [unfold is_byte; lia|done]|]. eexists. split; [|done]. exists ds.
    rewrite (proj2 (Z.ltb_lt xx 0)) by done. done.
  - wstep. eapply wp_eq; [by apply puts_run|]. eexists. split; [|done]. exists ds. rewrite (proj2 (Z.ltb_ge xx 0)) by done. done.
Qed.

(** ** Reading numbers *)

Lemma number_pos ds : Forall (λ d, 0 ≤ d < 10) ds → 0 ≤ number 10 ds.
Proof. induction 1; simpl; lia. Qed.

(** [atoi] over the digits left, with the value so far. *)
Lemma atoi_loop_spec ds fuel s n m c :
  Forall (λ d, 0 ≤ d < 10) ds → 0 ≤ n → n * 10 ^ Z.of_nat (length ds) + number 10 ds < 2147483648 →
  bytes_at m s (reverse ((λ d, 48 + d) <$> ds) ++ [c]) → ¬ (48 ≤ c ≤ 57) → (length ds < fuel)%nat →
  loop fuel (λ '(s, n),
    c ← ld8 s;
    if Z.leb 48 c && Z.leb c 57 then mret (inl (s + 1, s32 (n * 10 + c - 48))) else mret (inr n)) (s, n) m
  = Ok (n * 10 ^ Z.of_nat (length ds) + number 10 ds, m).
Proof.
  revert s n fuel. induction ds as [|d ds IH] using rev_ind; intros s n fuel Hds Hn Hlt Hb Hc Hf; (destruct fuel as [|fuel]; [simpl in Hf; lia|]).
  - simpl in Hb. apply bytes_at_cons in Hb as [Hm _]. rewrite (loop_inr _ _ _ _ n m); [simpl; f_equal; f_equal; lia|].
    unfold ld8, mbind, M_bind. simpl. rewrite Hm. simpl. destruct (Z.leb_spec 48 c), (Z.leb_spec c 57); simpl; done || lia.
  - apply Forall_app in Hds as [Hds Hd]. inversion_clear Hd as [|? ? Hd10 _]. cbv beta in Hd10. rewrite fmap_app, reverse_app in Hb. simpl in Hb. apply bytes_at_cons in Hb as [Hm Hb].
    rewrite length_app in *. simpl in *. rewrite number_app in *. simpl number in *. pose proof (number_pos ds Hds) as Hnp.
    replace (Z.of_nat (length ds + 1)) with (Z.succ (Z.of_nat (length ds))) in * by lia. rewrite Z.pow_succ_r in * by lia.
    assert (0 < 10 ^ Z.of_nat (length ds)) as Hp by (apply Z.pow_pos_nonneg; lia).
    assert (n * 10 + (48 + d) - 48 < 2147483648) as Hs by nia.
    rewrite (loop_inl _ _ _ _ (s + 1, n * 10 + d) m).
    + rewrite IH; [f_equal; f_equal; ring|done|lia| |done|done|lia].
      replace ((n * 10 + d) * 10 ^ Z.of_nat (length ds)) with (n * (10 * 10 ^ Z.of_nat (length ds)) + 10 ^ Z.of_nat (length ds) * d) by ring. lia.
    + unfold ld8, mbind, M_bind. simpl. rewrite Hm. simpl. destruct (Z.leb_spec 48 (48 + d)), (Z.leb_spec (48 + d) 57); try lia. simpl.
      rewrite s32_small by (unfold is_s32; lia). unfold mret, M_ret. do 4 f_equal. lia.
Qed.

(** Numbers survive printing and reading.  [printf("%d", x)] writes the
    sign and at most ten decimal digits of [x], for every [int], [INT_MIN]
    included, without overrunning its buffer; and [atoi] applied to the text
    of a number that is not negative, followed by anything that is not a
    digit, gives the number back. *)
Theorem printf_atoi_roundtrip str x :
  is_s32 x →
  wp (printf str [37; 100] [u32 x]) (λ _ txt, decimal x txt ∧
    ∀ m a c fuel, 0 ≤ x → bytes_at m a (txt ++ [c]) → ¬ (48 ≤ c ≤ 57) → (10 < fuel)%nat → atoi fuel a m = Ok (x, m)) [].
Proof.
  intros Hx. unfold printf. cbn [printf_loop]. simpl Z.eqb. cbv iota. wstep. unfold printf_conv. simpl Z.eqb. cbv iota. change (head [u32 x]) with (Some (u32 x)). wsteps.
  assert (s32 (u32 x) = x) as -> by (by apply s32_mod). wcall printint_decimal; [done|]. intros [] out' (txt & Ht & ->). wsteps. simpl.
  split; [done|]. intros m a c fuel H0 Hb Hc Hf. destruct Ht as (ds & _ & Hl & Hds & Hn & ->). rewrite (proj2 (Z.ltb_ge x 0)) in Hb by done. simpl in Hb.
  unfold atoi. rewrite (atoi_loop_spec ds fuel a 0 m c) by (done || lia || (unfold is_s32 in Hx; lia)). f_equal. f_equal. lia.
Qed.

Lemma printf_atoi_roundtrip_witness :
  wp (printf (λ _, []) [37; 100] [4090]) (λ _ txt, txt = [52; 48; 57; 48] ∧
     atoi 11 0 (write_bytes 0 (txt ++ [0]) ∅) = Ok (4090, write_bytes 0 (txt ++ [0]) ∅)) [].
Proof.
  eapply wp_mono; [eapply wp_eq with (Q := λ _ txt, txt = [52; 48; 57; 48] ∧ decimal 4090 txt ∧ _); [vm_compute; reflexivity|]|].
  - split; [reflexivity|]. exact (printf_atoi_roundtrip (λ _, []) 4090 ltac:(unfold is_s32; lia)).
  - intros [] txt (-> & _ & H). split; [reflexivity|]. apply (H _ 0 0); [lia|apply write_bytes_at|lia|lia].
Defined.

Close Scope Z_scope.
