(* ===== verification/Umalloc.v ===== *)
(** * The user allocator ([src/xv6-public/umalloc.c])

    [malloc] and [free] on the words of a process: the data word pair [base]
    and the heap, which grows at the end by [sbrk].  A header is two words,
    the pointer at its address and the size, in units of 8 bytes, 4 bytes
    after it.  Touching anything else, or a word that is not aligned, is the
    fault [WildPtr].  Loops run on fuel; the theorems say how much is enough. *)

From S2P Require Import Prelude.

Open Scope Z_scope.

Record heap := mkHeap {
  h_words : gmap Z Z;          (* the words, by address *)
  h_freep : Z;                 (* freep, 0 when null *)
  h_brk : Z                    (* the end of the heap *)
}.

Definition set_words (v : gmap Z Z) (h : heap) : heap := mkHeap v (h_freep h) (h_brk h).
Definition set_freep (v : Z) (h : heap) : heap := mkHeap (h_words h) v (h_brk h).
Definition set_brk (v : Z) (h : heap) : heap := mkHeap (h_words h) (h_freep h) v.

Section umalloc.
(** The address of [base], where the heap starts, and when the kernel lets
    it grow: [grow brk n] for [sbrk(n)] at the end [brk]. *)
Context (base heap0 : Z) (grow : Z → Z → bool).
Abbreviation HM := (M heap).

Definition access (h : heap) (a : Z) : bool :=
  Z.eqb a base || Z.eqb a (base + 4) || (Z.leb heap0 a && Z.leb (a + 4) (h_brk h) && Z.eqb ((a - heap0) mod 4) 0).
Definition ldw (a : Z) : HM Z :=
  h ← gets id;
  if access h a then mret (default 0 (h_words h !! a)) else fail WildPtr.
Definition stw (a v : Z) : HM unit :=
  h ← gets id;
  if access h a then modify (λ h, set_words (<[a := v]> (h_words h)) h) else fail WildPtr.

(** [p->s.ptr] and [p->s.size]. *)
Definition ld_ptr (p : Z) : HM Z := ldw p.
Definition ld_size (p : Z) : HM Z := ldw (p + 4).
Definition st_ptr (p v : Z) : HM unit := stw p v.
Definition st_size (p v : Z) : HM unit := stw (p + 4) (u32 v).

(** [sbrk(n)]: the old end, or -1. *)
Definition sbrk (n : Z) : HM Z :=
  brk ← gets h_brk;
  if grow brk n then
    modify (set_brk (brk + n));;
    mret brk
  else mret (-1).

Definition free (fuel : nat) (ap : Z) : HM unit :=
  let bp := ap - 8 in
  p ← gets h_freep;
  p ← loop fuel (λ p,
    next ← ld_ptr p;
    if Z.ltb p bp && Z.ltb bp next then mret (inr p)
    else if Z.leb next p && (Z.ltb p bp || Z.ltb bp next) then mret (inr p)
    else mret (inl next)) p;
  next ← ld_ptr p;
  size ← ld_size bp;
  (if Z.eqb (bp + 8 * size) next then
     nsize ← ld_size next;
     st_size bp (size + nsize);;
     nnext ← ld_ptr next;
     st_ptr bp nnext
   else st_ptr bp next);;
  psize ← ld_size p;
  (if Z.eqb (p + 8 * psize) bp then
     size ← ld_size bp;
     st_size p (psize + size);;
     bnext ← ld_ptr bp;
     st_ptr p bnext
   else st_ptr p bp);;
  modify (set_freep p).

Definition morecore (fuel : nat) (nu : Z) : HM Z :=
  let nu := if Z.ltb nu 4096 then 4096 else nu in
  p ← sbrk (s32 (u32 (nu * 8)));
  if Z.eqb p (-1) then mret 0
  else
    st_size p nu;;
    free fuel (p + 8);;
    gets h_freep.

Definition nunits (nbytes : Z) : Z := u32 (u32 (nbytes + 8 - 1) / 8 + 1).

(** The block [p] is taken, whole or its tail: its header. *)
Definition carve (prevp p size n : Z) : HM Z :=
  if Z.eqb size n then
    next ← ld_ptr p;
    st_ptr prevp next;;
    mret p
  else
    st_size p (size - n);;
    size ← ld_size p;
    let p := p + 8 * size in
    st_size p n;;
    mret p.

(** A turn of [malloc]'s loop at the block [p], with the one before it. *)
Definition malloc_turn (fuel : nat) (n : Z) : Z * Z → HM (Z * Z + Z) :=
  λ '(prevp, p),
    size ← ld_size p;
    if Z.leb n size then
      q ← carve prevp p size n;
      modify (set_freep prevp);;
      mret (inr (q + 8))
    else
      fp ← gets h_freep;
      p ← (if Z.eqb p fp then r ← morecore fuel n; mret (if Z.eqb r 0 then None else Some r) else mret (Some p));
      match p with
      | None => mret (inr 0)
      | Some p => next ← ld_ptr p; mret (inl (p, next))
      end.

Definition malloc (fuel : nat) (nbytes : Z) : HM Z :=
  let n := nunits nbytes in
  prevp ← gets h_freep;
  prevp ← (if Z.eqb prevp 0 then
             modify (set_freep base);;
             st_ptr base base;;
             st_size base 0;;
             mret base
           else mret prevp);
  p ← ld_ptr prevp;
  loop fuel (malloc_turn fuel n) (prevp, p).
End umalloc.

Close Scope Z_scope.
