(* ===== verification/UmallocTheorems.v ===== *)
(** * What [malloc] and [free] guarantee

    [F] are the blocks of the free list and [A] the live ones, each an
    address with a size in units.  Together they tile the heap: every byte
    of it is in exactly one block.  The free list runs through [base] and
    [F] in the order of their addresses, and no two of its blocks touch. *)

From S2P Require Import Prelude.
From S2P Require Import Umalloc.

Open Scope Z_scope.

Abbreviation blocks := (list (Z * Z)).

(** ** Tiling *)

Definition covers (x : Z) (b : Z * Z) : Z := if decide (b.1 ≤ x < b.1 + 8 * b.2) then 1 else 0.
(** The number of blocks that [x] lies in. *)
Fixpoint cov (x : Z) (l : blocks) : Z := match l with [] => 0 | b :: l => covers x b + cov x l end.

Lemma cov_app x l k : cov x (l ++ k) = cov x l + cov x k.
Proof. induction l as [|b l IH]; simpl; [done|]. rewrite IH. lia. Qed.
Lemma covers_pos x b : 0 ≤ covers x b.
Proof. unfold covers. case_decide; lia. Qed.
Lemma cov_pos x l : 0 ≤ cov x l.
Proof. induction l as [|b l IH]; simpl; [lia|]. pose proof (covers_pos x b). lia. Qed.
Lemma cov_in x b l : b ∈ l → covers x b ≤ cov x l.
Proof.
  induction 1 as [b l|b c l _ IH]; simpl; [pose proof (cov_pos x l)|pose proof (covers_pos x c)]; lia.
Qed.
(** Two blocks that touch are one. *)
Lemma covers_join x a n k : 0 ≤ n → 0 ≤ k → covers x (a, n + k) = covers x (a, n) + covers x (a + 8 * n, k).
Proof. intros Hn Hk. unfold covers. simpl. repeat case_decide; lia. Qed.

(** The headers at [a] and [b] do not overlap. *)
Definition sep (a b : Z) : Prop := a + 8 ≤ b ∨ b + 8 ≤ a.

(** ** The links *)

Definition wd (w : gmap Z Z) (a : Z) : Z := default 0 (w !! a).

Lemma wd_insert w a v x : wd (<[a := v]> w) x = if decide (x = a) then v else wd w x.
Proof. unfold wd. rewrite lookup_insert. repeat case_decide; congruence || done. Qed.

Definition after (l : blocks) (z : Z) : Z := match l with [] => z | b :: _ => b.1 end.
Fixpoint chained (w : gmap Z Z) (l : blocks) (z : Z) : Prop :=
  match l with [] => True | b :: l => wd w b.1 = after l z ∧ wd w (b.1 + 4) = b.2 ∧ chained w l z end.

Lemma chained_app w l k z : chained w (l ++ k) z ↔ chained w l (after k z) ∧ chained w k z.
Proof.
  induction l as [|b l IH]; simpl; [tauto|]. rewrite IH. assert (after (l ++ k) z = after l (after k z)) as -> by by destruct l. tauto.
Qed.
Lemma chained_frame w l z q v : (∀ b, b ∈ l → sep b.1 q) → chained w l z → chained (<[q := v]> w) l z ∧ chained (<[q + 4 := v]> w) l z.
Proof.
  induction l as [|b l IH]; intros Hs; simpl; [done|]. intros (H1 & H2 & H3). destruct (IH ltac:(intros c Hc; apply Hs; by right) H3) as [I1 I2].
  specialize (Hs b ltac:(left)). unfold sep in Hs. rewrite !wd_insert. rewrite !decide_False by lia. done.
Qed.
Lemma chained_at w l z i b : chained w l z → l !! i = Some b → wd w b.1 = match l !! S i with Some c => c.1 | None => z end ∧ wd w (b.1 + 4) = b.2.
Proof.
  revert i. induction l as [|c l IH]; intros [|i] Hl Hi; simpl in *; try done.
  - injection Hi as <-. destruct Hl as (H1 & H2 & _). split; [|done]. rewrite H1. by destruct l.
  - destruct Hl as (_ & _ & Hl). by apply IH.
Qed.

Section heap.
Context (base heap0 : Z).
Context (Hbase : 0 < base) (Hheap : base + 8 ≤ heap0).
Abbreviation HM := (M heap).
Implicit Types h : heap.

(** The blocks of a free list follow each other with a gap. *)
Fixpoint spaced (lo : Z) (l : blocks) : Prop :=
  match l with [] => True | b :: l => lo < b.1 ∧ spaced (b.1 + 8 * b.2) l end.

Record heap_ok (h : heap) (F A : blocks) : Prop := {
  hk_links : chained (h_words h) ((base, 0) :: F) base;
  hk_freep : ∃ i, ((base, 0) :: F).*1 !! i = Some (h_freep h);
  hk_spaced : spaced base F;
  hk_tile : ∀ x, cov x F + cov x A = if decide (heap0 ≤ x < h_brk h) then 1 else 0;
  hk_pos : ∀ b, b ∈ F ++ A → 1 ≤ b.2;
  hk_align : ∀ b, b ∈ F ++ A → (b.1 - heap0) mod 8 = 0;
  hk_live : ∀ b, b ∈ A → wd (h_words h) (b.1 + 4) = b.2;
  hk_brk : heap0 ≤ h_brk h < 2147483648;
  hk_end : (h_brk h - heap0) mod 8 = 0
}.

Lemma in_heap h F A b : heap_ok h F A → b ∈ F ++ A → heap0 ≤ b.1 ∧ b.1 + 8 * b.2 ≤ h_brk h ∧ 1 ≤ b.2.
Proof using All.
  intros H Hb. pose proof (hk_pos _ _ _ H b Hb) as Hp.
  assert (∀ x, covers x b = 1 → heap0 ≤ x < h_brk h) as Hx.
  { intros x Hx. pose proof (hk_tile _ _ _ H x) as Ht. rewrite <-cov_app in Ht. pose proof (cov_in x b _ Hb). case_decide; [done|lia]. }
  assert (covers b.1 b = 1) as H1 by (unfold covers; rewrite decide_True; lia).
  assert (covers (b.1 + 8 * b.2 - 1) b = 1) as H2 by (unfold covers; rewrite decide_True; lia).
  apply Hx in H1, H2. lia.
Qed.

(** Blocks that are counted separately are apart. *)
Lemma apart_of h F A b c l1 l2 l3 : heap_ok h F A → (∀ x, cov x (F ++ A) = cov x (l1 ++ b :: l2 ++ c :: l3)) → 1 ≤ b.2 → 1 ≤ c.2 →
  b.1 + 8 * b.2 ≤ c.1 ∨ c.1 + 8 * c.2 ≤ b.1.
Proof using All.
  intros H Hc Hb Hc2. destruct (decide (b.1 + 8 * b.2 ≤ c.1 ∨ c.1 + 8 * c.2 ≤ b.1)) as [|Hn]; [done|]. exfalso.
  pose proof (hk_tile _ _ _ H (Z.max b.1 c.1)) as Ht. rewrite <-cov_app, Hc in Ht. rewrite cov_app in Ht. simpl in Ht. rewrite cov_app in Ht. simpl in Ht.
  assert (covers (Z.max b.1 c.1) b = 1) as E1 by (unfold covers; rewrite decide_True; lia).
  assert (covers (Z.max b.1 c.1) c = 1) as E2 by (unfold covers; rewrite decide_True; lia).
  pose proof (cov_pos (Z.max b.1 c.1) l1). pose proof (cov_pos (Z.max b.1 c.1) l2). pose proof (cov_pos (Z.max b.1 c.1) l3). case_decide; lia.
Qed.

(** A free block and a live one. *)
Lemma free_live h F A b c : heap_ok h F A → b ∈ F → c ∈ A → b.1 + 8 * b.2 ≤ c.1 ∨ c.1 + 8 * c.2 ≤ b.1.
Proof using All.
  intros H Hb Hc. destruct (list_elem_of_split _ _ Hb) as (l1 & l2 & ->). destruct (list_elem_of_split _ _ Hc) as (k1 & k2 & ->).
  eapply (apart_of _ _ _ b c l1 (l2 ++ k1) k2 H); [|eapply hk_pos; [done|set_solver]..].
  intros x. f_equal. rewrite <-!app_assoc. done.
Qed.

(** The nodes of the list, [base] included, and a live block. *)
Lemma node_live h F A b c : heap_ok h F A → b ∈ (base, 0) :: F → c ∈ A → sep b.1 c.1.
Proof using All.
  intros H [->|Hb]%elem_of_cons Hc.
  - left. destruct (in_heap _ _ _ c H) as (? & _); [set_solver|]. simpl. lia.
  - pose proof (hk_pos _ _ _ H b ltac:(set_solver)). pose proof (hk_pos _ _ _ H c ltac:(set_solver)).
    destruct (free_live _ _ _ _ _ H Hb Hc); unfold sep; lia.
Qed.

Lemma access_node h F A b : heap_ok h F A → b ∈ (base, 0) :: F ++ A → access base heap0 h b.1 = true ∧ access base heap0 h (b.1 + 4) = true.
Proof using All.
  intros H [->|Hb]%elem_of_cons; unfold access; simpl.
  - by rewrite !Z.eqb_refl, orb_true_r.
  - destruct (in_heap _ _ _ _ H Hb) as (H1 & H2 & H3). pose proof (hk_align _ _ _ H b Hb) as Ha.
    rewrite (proj2 (Z.leb_le heap0 b.1)), (proj2 (Z.leb_le heap0 (b.1 + 4))) by lia.
    rewrite (proj2 (Z.leb_le (b.1 + 4) _)), (proj2 (Z.leb_le (b.1 + 4 + 4) _)) by lia.
    assert ((b.1 - heap0) mod 4 = 0) as -> by (Z.to_euclidean_division_equations; lia).
    assert ((b.1 + 4 - heap0) mod 4 = 0) as -> by (Z.to_euclidean_division_equations; lia).
    by rewrite !orb_true_r.
Qed.

Lemma ldw_run h a : access base heap0 h a = true → ldw base heap0 a h = Ok (wd (h_words h) a, h).
Proof using All. intros Ha. unfold ldw, mbind, M_bind, gets, id. by rewrite Ha. Qed.
Lemma stw_run h a v : access base heap0 h a = true → stw base heap0 a v h = Ok (tt, set_words (<[a := v]> (h_words h)) h).
Proof using All. intros Ha. unfold stw, mbind, M_bind, gets, id. by rewrite Ha. Qed.

(** ** The place of a block in the list *)

Lemma spaced_lt lo l b : spaced lo l → (∀ b, b ∈ l → 1 ≤ b.2) → b ∈ l → lo < b.1.
Proof using All.
  revert lo. induction l as [|c l IH]; intros lo Hs Hp Hb; [by apply elem_of_nil in Hb|]. destruct Hs as [H1 H2].
  apply elem_of_cons in Hb as [->|Hb]; [done|]. pose proof (Hp c ltac:(left)).
  pose proof (IH _ H2 ltac:(intros d Hd; apply Hp; by right) Hb). lia.
Qed.

Lemma spaced_app lo l k : spaced lo (l ++ k) ↔ spaced lo l ∧ spaced (match last l with Some b => b.1 + 8 * b.2 | None => lo end) k.
Proof using All.
  revert lo. induction l as [|b l IH]; intros lo; [simpl; tauto|]. simpl app. simpl spaced. rewrite IH.
  rewrite last_cons. destruct (last l); tauto.
Qed.

Lemma split_spaced lo l (c : Z * Z) : spaced lo l → (∀ b, b ∈ l → 1 ≤ b.2) → 1 ≤ c.2 →
  (∀ b, b ∈ l → b.1 + 8 * b.2 ≤ c.1 ∨ c.1 + 8 * c.2 ≤ b.1) →
  ∃ l1 l2, l = l1 ++ l2 ∧ (∀ b, b ∈ l1 → b.1 + 8 * b.2 ≤ c.1) ∧ (∀ b, b ∈ l2 → c.1 + 8 * c.2 ≤ b.1).
Proof using All.
  revert lo. induction l as [|b l IH]; intros lo Hs Hp Hc Ha; [exists [], []; set_solver|]. destruct Hs as [H1 H2].
  destruct (Ha b ltac:(left)) as [Hb|Hb].
  - destruct (IH _ H2) as (l1 & l2 & -> & I1 & I2); [set_solver|done|set_solver|]. exists (b :: l1), l2. split_and!; [done| |done].
    intros d [->|Hd]%elem_of_cons; [done|by apply I1].
  - exists [], (b :: l). split_and!; [done|set_solver|]. intros d [->|Hd]%elem_of_cons; [done|].
    pose proof (spaced_lt _ _ _ H2 ltac:(intros x Hx; apply Hp; by right) Hd). pose proof (Hp b ltac:(left)). lia.
Qed.

Lemma spaced_order lo l i j b c : spaced lo l → (∀ b, b ∈ l → 1 ≤ b.2) → l !! i = Some b → l !! j = Some c → (i < j)%nat → b.1 + 8 * b.2 < c.1.
Proof using All.
  revert lo i j. induction l as [|d l IH]; intros lo i j Hs Hp Hi Hj Hij; [done|]. destruct Hs as [H1 H2]. destruct j as [|j]; [lia|]. simpl in Hj.
  assert (∀ b, b ∈ l → 1 ≤ b.2) as Hp' by (intros x Hx; apply Hp; by right). destruct i as [|i]; simpl in Hi.
  - injection Hi as <-. eapply spaced_lt; [done|done|]. by eapply list_elem_of_lookup_2.
  - eapply (IH _ i j); [done|done|done|done|lia].
Qed.

Lemma nodes_order h F A i j b c : heap_ok h F A → ((base, 0) :: F) !! i = Some b → ((base, 0) :: F) !! j = Some c → (i < j)%nat → b.1 + 8 ≤ c.1.
Proof using All.
  intros H Hi Hj Hij. destruct j as [|j]; [lia|]. simpl in Hj. pose proof (list_elem_of_lookup_2 _ _ _ Hj) as Hc.
  destruct i as [|i]; simpl in Hi.
  - injection Hi as <-. pose proof (in_heap _ _ _ c H ltac:(set_solver)) as (? & _). simpl. lia.
  - pose proof (list_elem_of_lookup_2 _ _ _ Hi) as Hb. pose proof (hk_pos _ _ _ H b ltac:(set_solver)).
    pose proof (spaced_order _ _ _ _ _ _ (hk_spaced _ _ _ H) ltac:(intros x Hx; eapply hk_pos; [done|set_solver]) Hi Hj ltac:(lia)). lia.
Qed.

(** Where [free] stops: [q] is the node before the block. *)
Record place (F A : blocks) (c : Z * Z) (F1 F2 L : blocks) (q : Z * Z) : Prop := {
  pl_list : F = F1 ++ F2;
  pl_node : (base, 0) :: F1 = L ++ [q];
  pl_before : ∀ b, b ∈ L ++ [q] → b.1 + 8 ≤ c.1 ∧ b.1 + 8 * b.2 ≤ c.1;
  pl_behind : ∀ b, b ∈ F2 → c.1 + 8 * c.2 ≤ b.1
}.

Lemma place_split F A c F1 F2 L q : place F A c F1 F2 L q → (base, 0) :: F = L ++ q :: F2.
Proof using All. intros [-> H _ _]. rewrite app_comm_cons, H. by rewrite <-app_assoc. Qed.

Lemma place_of h F A c : heap_ok h F A → c ∈ A → ∃ F1 F2 L q, place F A c F1 F2 L q.
Proof using All.
  intros H Hc. pose proof (in_heap _ _ _ c H ltac:(set_solver)) as (C1 & C2 & C3).
  destruct (split_spaced base F c) as (F1 & F2 & -> & H1 & H2).
  { apply H. } { intros b Hb. eapply hk_pos; [done|set_solver]. } { done. } { intros b Hb. by eapply free_live. }
  destruct (exists_last (l := (base, 0) :: F1)) as (L & q & E); [done|]. exists F1, F2, L, q. split; [done|done| |done]. rewrite <-E.
  intros b [->|Hb]%elem_of_cons; [simpl; lia|]. specialize (H1 b Hb). pose proof (hk_pos _ _ _ H b ltac:(set_solver)). lia.
Qed.

Lemma search_spec h F A c F1 F2 L q fuel : heap_ok h F A → c ∈ A → place F A c F1 F2 L q → (S (length F) < fuel)%nat →
  wp (loop fuel (λ p,
    next ← ld_ptr base heap0 p;
    if Z.ltb p c.1 && Z.ltb c.1 next then mret (inr p)
    else if Z.leb next p && (Z.ltb p c.1 || Z.ltb c.1 next) then mret (inr p)
    else mret (inl next)) (h_freep h)) (λ p h', h' = h ∧ p = q.1) h.
Proof using All.
  intros H Hc Hpl Hfu. pose proof (place_split _ _ _ _ _ _ _ Hpl) as E. pose proof (pl_before _ _ _ _ _ _ _ Hpl) as HL. pose proof (pl_behind _ _ _ _ _ _ _ Hpl) as HF.
  set (ns := (base, 0) :: F) in *. assert (length ns = S (length F)) as Hlen by done.
  pose proof (in_heap _ _ _ c H ltac:(set_solver)) as (C1 & C2 & C3).
  assert (∀ i b, ns !! i = Some b → (i ≤ length L)%nat → b.1 < c.1) as Hlo.
  { intros i b Hi Hle. rewrite E in Hi. assert (b ∈ L ++ [q]); [|by pose proof (HL b ltac:(done)); lia].
    apply list_elem_of_lookup. exists i. destruct (decide (i < length L)%nat); [rewrite lookup_app_l in Hi by done; by rewrite lookup_app_l|].
    assert (i = length L) as -> by lia. rewrite list_lookup_middle in Hi by done. injection Hi as <-. by rewrite list_lookup_middle. }
  assert (∀ i b, ns !! i = Some b → (length L < i)%nat → c.1 < b.1) as Hhi.
  { intros i b Hi Hlt. rewrite E, lookup_app_r in Hi by lia. destruct (i - length L)%nat as [|j] eqn:Ej; [lia|]. simpl in Hi.
    apply list_elem_of_lookup_2 in Hi. pose proof (HF b Hi). lia. }
  assert (∀ b, b ∈ ns → base ≤ b.1) as Hb.
  { intros b [->|Hb]%elem_of_cons; [done|]. pose proof (in_heap _ _ _ b H ltac:(set_solver)). lia. }
  destruct (hk_freep _ _ _ H) as [i0 Hi0]. fold ns in Hi0. rewrite list_lookup_fmap in Hi0. apply fmap_Some in Hi0 as (b0 & Hi0 & ->).
  pose proof (lookup_lt_Some _ _ _ Hi0) as Hlt0. assert (length L < length ns)%nat as HtL by (rewrite E, length_app; simpl; lia).
  set (dist := λ i, if (i <=? length L)%nat then (length L - i)%nat else (length ns - i + length L)%nat).
  apply (wp_loop (λ n p h', h' = h ∧ ∃ i b, ns !! i = Some b ∧ p = b.1 ∧ n = dist i)) with (n := dist i0).
  - intros n p h' (-> & i & b & Hi & -> & ->). pose proof (lookup_lt_Some _ _ _ Hi) as Hlt.
    destruct (chained_at _ _ _ _ _ (hk_links _ _ _ H) Hi) as [Hn _]. fold ns in Hn.
    assert (b ∈ ns) as Hin by (by eapply list_elem_of_lookup_2).
    unfold ld_ptr. wstep. eapply wp_eq; [apply ldw_run; eapply access_node; [done|]; rewrite app_comm_cons; apply elem_of_app; by left|].
    rewrite Hn. destruct (ns !! S i) as [d|] eqn:Hd.
    + (* an inner node *)
      destruct (decide (i = length L)) as [->|Hne].
      * rewrite (proj2 (Z.ltb_lt _ _)), (proj2 (Z.ltb_lt _ _)) by (eapply Hlo || eapply Hhi; eauto with lia). simpl. wstep.
        rewrite E, list_lookup_middle in Hi by done. injection Hi as <-. done.
      * pose proof (nodes_order _ _ _ _ _ _ _ H Hi Hd ltac:(lia)) as Hbd.
        assert (Z.ltb b.1 c.1 && Z.ltb c.1 d.1 = false) as ->.
        { destruct (decide (i < length L)%nat) as [Hl|Hl].
          - rewrite (proj2 (Z.ltb_ge c.1 d.1)); [by rewrite andb_false_r|]. pose proof (Hlo _ _ Hd ltac:(lia)). lia.
          - rewrite (proj2 (Z.ltb_ge b.1 c.1)); [done|]. pose proof (Hhi _ _ Hi ltac:(lia)). lia. }
        rewrite (proj2 (Z.leb_gt d.1 b.1)) by lia. simpl. wstep. exists (dist (S i)). split; [|split; [done|by exists (S i), d]].
        pose proof (lookup_lt_Some _ _ _ Hd). unfold dist. destruct (Nat.leb_spec i (length L)), (Nat.leb_spec (S i) (length L)); lia.
    + (* the last node *)
      apply lookup_ge_None in Hd. rewrite (proj2 (Z.ltb_ge c.1 base)) by lia. rewrite andb_false_r, orb_false_r.
      rewrite (proj2 (Z.leb_le base b.1)) by (by apply Hb). simpl. destruct (decide (i = length L)) as [->|Hne].
      * rewrite (proj2 (Z.ltb_lt b.1 c.1)) by (by eapply Hlo). wstep. rewrite E, list_lookup_middle in Hi by done. injection Hi as <-. done.
      * rewrite (proj2 (Z.ltb_ge b.1 c.1)) by (pose proof (Hhi _ _ Hi ltac:(lia)); lia). wstep. exists (dist 0%nat).
        split; [|split; [done|by exists 0%nat, (base, 0)]]. unfold dist. destruct (Nat.leb_spec i (length L)); simpl; lia.
  - unfold dist. destruct (Nat.leb_spec i0 (length L)); lia.
  - split; [done|]. by exists i0, b0.
Qed.

(** ** [free] *)

Lemma chained_ext w w' l z : (∀ b, b ∈ l → wd w' b.1 = wd w b.1 ∧ wd w' (b.1 + 4) = wd w (b.1 + 4)) → chained w l z → chained w' l z.
Proof using All.
  induction l as [|b l IH]; intros He; simpl; [done|]. intros (H1 & H2 & H3). destruct (He b ltac:(left)) as [-> ->]. split_and!; [done|done|].
  apply IH; [|done]. intros c Hc. apply He. by right.
Qed.

(** The block [c] joined with the one behind it, if they touch. *)
Definition joined (c : Z * Z) (F2 : blocks) (n1 : Z) (G : blocks) : Prop :=
  (G = F2 ∧ n1 = c.2 ∧ ∀ d, head F2 = Some d → c.1 + 8 * c.2 < d.1) ∨ (∃ d, F2 = d :: G ∧ d.1 = c.1 + 8 * c.2 ∧ n1 = c.2 + d.2).

Lemma join_spec h F A c F1 F2 L q : heap_ok h F A → c ∈ A → place F A c F1 F2 L q →
  wp (if Z.eqb (c.1 + 8 * c.2) (after F2 base) then
        nsize ← ld_size base heap0 (after F2 base);
        st_size base heap0 c.1 (c.2 + nsize);;
        nnext ← ld_ptr base heap0 (after F2 base);
        st_ptr base heap0 c.1 nnext
      else st_ptr base heap0 c.1 (after F2 base))
    (λ _ h', ∃ w n1 G, h' = set_words w h ∧ joined c F2 n1 G ∧
       ∀ x, wd w x = if decide (x = c.1) then after G base else if decide (x = c.1 + 4) then n1 else wd (h_words h) x) h.
Proof using All.
  intros H Hc Hpl. pose proof (in_heap _ _ _ c H ltac:(set_solver)) as (C1 & C2 & C3). pose proof (hk_live _ _ _ H c Hc) as Hsz.
  destruct (access_node h F A c H ltac:(set_solver)) as [Ac Ac4]. pose proof (hk_brk _ _ _ H) as Hbrk.
  assert (∀ h' : heap, h_brk h' = h_brk h → access base heap0 h' = access base heap0 h) as Hacc by (intros h' E; unfold access; by rewrite E).
  destruct (Z.eqb_spec (c.1 + 8 * c.2) (after F2 base)) as [E|E].
  - destruct F2 as [|d G]; [simpl in E; lia|]. simpl in E |- *. assert (d ∈ F) as Hd by (rewrite (pl_list _ _ _ _ _ _ _ Hpl); set_solver).
    destruct (in_heap _ _ _ d H ltac:(set_solver)) as (D1 & D2 & D3). destruct (access_node h F A d H ltac:(set_solver)) as [Ad Ad4].
    pose proof (hk_links _ _ _ H) as Hl. rewrite (place_split _ _ _ _ _ _ _ Hpl) in Hl. apply chained_app in Hl as [_ (_ & _ & Hl1 & Hl2 & _)].
    unfold ld_size, st_size, ld_ptr, st_ptr. wstep. eapply wp_eq; [by apply ldw_run|]. wstep. eapply wp_eq; [by apply stw_run|]. wstep.
    eapply wp_eq; [apply ldw_run; by rewrite Hacc|]. eapply wp_eq; [apply stw_run; by rewrite Hacc|]. simpl.
    rewrite Hl2. eexists _, _, G. split; [done|]. split; [right; by exists d|]. intros x. rewrite !wd_insert.
    rewrite (decide_False (P := d.1 = c.1 + 4)) by lia. rewrite Hl1. repeat case_decide; try done. rewrite u32_small; [done|]. unfold is_u32, two32. lia.
  - unfold st_ptr. eapply wp_eq; [by apply stw_run|]. eexists _, c.2, F2. split; [done|]. split.
    + left. split_and!; [done|done|]. intros d Hd. destruct F2 as [|d' G]; [done|]. injection Hd as ->. simpl in E.
      pose proof (pl_behind _ _ _ _ _ _ _ Hpl d ltac:(set_solver)). lia.
    + intros x. rewrite wd_insert. repeat case_decide; try done. by subst.
Qed.

(** What is left to show when only the headers of [c] and [q] changed. *)
Lemma freed_ok h F A1 A2 c q w P e G :
  heap_ok h F (A1 ++ c :: A2) → q ∈ (base, 0) :: F → (∀ b, b ∈ P ++ G → b ∈ F) →
  chained w ((base, 0) :: P ++ e :: G) base → (∀ x, cov x (P ++ e :: G) = cov x F + covers x c) → spaced base (P ++ e :: G) →
  1 ≤ e.2 → (e.1 - heap0) mod 8 = 0 → q.1 ∈ ((base, 0) :: P ++ e :: G).*1 →
  (∀ x, x ≠ c.1 → x ≠ c.1 + 4 → x ≠ q.1 → x ≠ q.1 + 4 → wd w x = wd (h_words h) x) →
  heap_ok (mkHeap w q.1 (h_brk h)) (P ++ e :: G) (A1 ++ A2) ∧ ∀ x, cov x (A1 ++ A2) ≠ 0 → wd w x = wd (h_words h) x.
Proof using All.
  intros H Hq HF Hl Hcov Hs He1 He2 Hqin Hw.
  assert (∀ x, cov x (P ++ e :: G) + cov x (A1 ++ A2) = if decide (heap0 ≤ x < h_brk h) then 1 else 0) as Ht.
  { intros x. rewrite <-(hk_tile _ _ _ H x), Hcov, !cov_app. simpl. lia. }
  assert (∀ x, cov x (A1 ++ A2) ≠ 0 → x ≠ c.1 ∧ x ≠ c.1 + 4 ∧ x ≠ q.1 ∧ x ≠ q.1 + 4) as Hout.
  { intros x Hx. pose proof (Ht x) as Hx1. rewrite Hcov in Hx1. pose proof (cov_pos x (A1 ++ A2)). pose proof (cov_pos x F). pose proof (covers_pos x c).
    pose proof (in_heap _ _ _ c H ltac:(set_solver)) as (C1 & C2 & C3).
    assert (covers x c = 0 ∧ cov x F = 0 ∧ heap0 ≤ x) as (Z1 & Z2 & Z3) by (case_decide; lia).
    unfold covers in Z1. case_decide as Hd; [lia|]. apply elem_of_cons in Hq as [->|Hq]; simpl; [lia|].
    pose proof (cov_in x q F Hq) as Z4. unfold covers in Z4. case_decide as Hd'; [lia|]. pose proof (hk_pos _ _ _ H q ltac:(set_solver)). lia. }
  assert (∀ x, cov x (A1 ++ A2) ≠ 0 → wd w x = wd (h_words h) x) as Hfr.
  { intros x Hx. destruct (Hout x Hx) as (O1 & O2 & O3 & O4). by apply Hw. }
  split; [|done]. split; simpl; try done.
  - apply list_elem_of_lookup in Hqin as [i Hi]. by exists i.
  - intros b Hb. rewrite <-app_assoc in Hb. apply elem_of_app in Hb as [Hb|[->|Hb]%elem_of_cons]; [|done|].
    + eapply hk_pos; [done|]. pose proof (HF b). set_solver.
    + eapply hk_pos; [done|]. pose proof (HF b). set_solver.
  - intros b Hb. rewrite <-app_assoc in Hb. apply elem_of_app in Hb as [Hb|[->|Hb]%elem_of_cons]; [|done|].
    + eapply hk_align; [done|]. pose proof (HF b). set_solver.
    + eapply hk_align; [done|]. pose proof (HF b). set_solver.
  - intros b Hb. rewrite Hfr; [eapply hk_live; [done|set_solver]|]. pose proof (hk_pos _ _ _ H b ltac:(set_solver)).
    pose proof (cov_in (b.1 + 4) b _ Hb) as Hx. unfold covers in Hx. rewrite decide_True in Hx by lia. lia.
  - apply (hk_brk _ _ _ H).
  - apply (hk_end _ _ _ H).
Qed.

Lemma joined_cov c F2 n1 G x : joined c F2 n1 G → 1 ≤ c.2 → (∀ b, b ∈ F2 → 1 ≤ b.2) → covers x (c.1, n1) + cov x G = covers x c + cov x F2.
Proof using All.
  intros [(-> & -> & _)|(d & -> & Ed & ->)] Hc Hp; [by destruct c|]. pose proof (Hp d ltac:(left)). rewrite covers_join by lia. simpl.
  rewrite <-Ed. destruct c, d. simpl. lia.
Qed.
Lemma joined_spaced c F2 n1 G lo : joined c F2 n1 G → spaced lo F2 → spaced (c.1 + 8 * n1) G.
Proof using All.
  intros [(-> & -> & Hh)|(d & -> & Ed & ->)]; [|by intros [_ H]; replace (c.1 + 8 * (c.2 + d.2)) with (d.1 + 8 * d.2) by lia].
  destruct F2 as [|d F2]; [done|]. intros [_ H]. split; [by apply Hh|done].
Qed.
Lemma joined_in c F2 n1 G b : joined c F2 n1 G → b ∈ G → b ∈ F2.
Proof using All. intros [(-> & _)|(d & -> & _)]; set_solver. Qed.
Lemma joined_size c F2 n1 G : joined c F2 n1 G → (∀ b, b ∈ F2 → 1 ≤ b.2) → c.2 ≤ n1.
Proof using All. intros [(_ & -> & _)|(d & -> & _ & ->)] Hp; [lia|]. pose proof (Hp d ltac:(left)). lia. Qed.
Lemma joined_linked c F2 n1 G w z : joined c F2 n1 G → chained w F2 z → chained w G z.
Proof using All. intros [(-> & _)|(d & -> & _)]; [done|]. by intros (_ & _ & H). Qed.

Lemma joined_end h F A c F1 F2 L q n1 G : heap_ok h F A → c ∈ A → place F A c F1 F2 L q → joined c F2 n1 G → c.1 + 8 * n1 ≤ h_brk h.
Proof using All.
  intros H Hc Hpl [(_ & -> & _)|(d & -> & Ed & ->)]; [by apply (in_heap _ _ _ c H ltac:(set_solver))|].
  pose proof (in_heap _ _ _ d H ltac:(rewrite (pl_list _ _ _ _ _ _ _ Hpl); set_solver)). lia.
Qed.

Lemma before_node h F A c F1 F2 L q b : heap_ok h F A → place F A c F1 F2 L q → b ∈ L → b.1 + 8 ≤ q.1.
Proof using All.
  intros H Hpl [i Hi]%list_elem_of_lookup. pose proof (place_split _ _ _ _ _ _ _ Hpl) as Es. pose proof (lookup_lt_Some _ _ _ Hi).
  eapply (nodes_order h F A i (length L) b q H); [rewrite Es, lookup_app_l by lia; done|rewrite Es; by rewrite list_lookup_middle|lia].
Qed.

(** The words after [join_spec] and the last step, in both cases. *)
Lemma freed_links h F A c F1 F2 L q n1 G w' :
  heap_ok h F A → c ∈ A → place F A c F1 F2 L q → joined c F2 n1 G →
  (∀ x, x ≠ c.1 → x ≠ c.1 + 4 → x ≠ q.1 → x ≠ q.1 + 4 → wd w' x = wd (h_words h) x) →
  chained w' L q.1 ∧ chained w' G base.
Proof using All.
  intros H Hc Hpl Hj Hw. pose proof (hk_links _ _ _ H) as Hl. rewrite (place_split _ _ _ _ _ _ _ Hpl) in Hl. apply chained_app in Hl as [HlL (_ & _ & HlF2)].
  pose proof (in_heap _ _ _ c H ltac:(set_solver)) as (C1 & C2 & C3). pose proof (pl_before _ _ _ _ _ _ _ Hpl q ltac:(set_solver)) as [Q1 _]. split.
  - eapply chained_ext; [|exact HlL]. intros b Hb. pose proof (before_node _ _ _ _ _ _ _ _ _ H Hpl Hb).
    pose proof (pl_before _ _ _ _ _ _ _ Hpl b ltac:(set_solver)) as [B1 _]. split; apply Hw; lia.
  - eapply chained_ext; [|by eapply joined_linked]. intros b Hb. apply (joined_in _ _ _ _ _ Hj) in Hb.
    pose proof (pl_behind _ _ _ _ _ _ _ Hpl b Hb). split; apply Hw; lia.
Qed.

Lemma free_spec h F A1 A2 c fuel : heap_ok h F (A1 ++ c :: A2) → (S (length F) < fuel)%nat →
  wp (free base heap0 fuel (c.1 + 8)) (λ _ h', h_brk h' = h_brk h ∧ (∀ x, cov x (A1 ++ A2) ≠ 0 → wd (h_words h') x = wd (h_words h) x) ∧
    ∃ F', heap_ok h' F' (A1 ++ A2) ∧ (length F' ≤ S (length F))%nat ∧ ∃ d, d ∈ F' ∧ c.2 ≤ d.2) h.
Proof using All.
  intros H Hfu. set (A := A1 ++ c :: A2) in *. assert (c ∈ A) as Hc by set_solver.
  destruct (place_of _ _ _ _ H Hc) as (F1 & F2 & L & q & Hpl). pose proof (place_split _ _ _ _ _ _ _ Hpl) as Es.
  pose proof (in_heap _ _ _ c H ltac:(set_solver)) as (C1 & C2 & C3). pose proof (hk_live _ _ _ H c Hc) as Hsz. pose proof (hk_brk _ _ _ H) as Hbrk.
  assert (q ∈ (base, 0) :: F) as Hq by (rewrite Es; set_solver). destruct (pl_before _ _ _ _ _ _ _ Hpl q ltac:(set_solver)) as [Q1 Q2].
  destruct (access_node h F A c H ltac:(set_solver)) as [Ac Ac4]. destruct (access_node h F A q H ltac:(set_solver)) as [Aq Aq4].
  pose proof (hk_links _ _ _ H) as Hl. rewrite Es in Hl. apply chained_app in Hl as [HlL (Hlq1 & Hlq2 & HlF2)].
  assert (∀ h' : heap, h_brk h' = h_brk h → access base heap0 h' = access base heap0 h) as Hacc by (intros h' E; unfold access; by rewrite E).
  assert (∀ b, b ∈ F → 1 ≤ b.2) as HpF by (intros b Hb; eapply hk_pos; [done|set_solver]).
  unfold free. replace (c.1 + 8 - 8) with c.1 by lia. wstep. wstep. wstep. wcall search_spec; [done|done|done|lia|]. intros p h0 [-> ->].
  unfold ld_ptr at 1. wstep. eapply wp_eq; [by apply ldw_run|]. rewrite Hlq1. wstep. unfold ld_size at 1. eapply wp_eq; [by apply ldw_run|]. rewrite Hsz. wstep.
  wcall join_spec; [done|done|done|]. intros [] h1 (w1 & n1 & G & -> & Hj & Hw1).
  assert (∀ b, b ∈ F2 → 1 ≤ b.2) as HpF2 by (intros b Hb; apply HpF; rewrite (pl_list _ _ _ _ _ _ _ Hpl); set_solver).
  pose proof (joined_size _ _ _ _ Hj HpF2) as Hn1. pose proof (joined_cov c F2 n1 G) as Hjc.
  pose proof (joined_end _ _ _ _ _ _ _ _ _ _ H Hc Hpl Hj) as Hend.
  assert (∀ x, x ≠ c.1 → x ≠ c.1 + 4 → wd w1 x = wd (h_words h) x) as Hw1' by (intros x X1 X2; rewrite Hw1, !decide_False; done).
  pose proof (hk_spaced _ _ _ H) as Hsp. rewrite (pl_list _ _ _ _ _ _ _ Hpl) in Hsp. apply spaced_app in Hsp as [Hsp1 Hsp2].
  pose proof (joined_spaced _ _ _ _ _ Hj Hsp2) as Hsp3.
  assert (length G ≤ length F2)%nat as HlG by (destruct Hj as [(-> & _)|(d & -> & _)]; simpl; lia).
  wstep. unfold ld_size at 1. eapply wp_eq; [apply ldw_run; by rewrite Hacc|]. simpl h_words. rewrite (Hw1' (q.1 + 4)), Hlq2 by lia.
  wstep. destruct (Z.eqb_spec (q.1 + 8 * q.2) c.1) as [Em|Em].
  - destruct L as [|b0 L']; [pose proof (pl_node _ _ _ _ _ _ _ Hpl) as En; simpl in En; injection En as <- _; simpl in Em; lia|].
    pose proof (pl_node _ _ _ _ _ _ _ Hpl) as En. simpl in En. injection En as <- ->.
    pose proof (pl_list _ _ _ _ _ _ _ Hpl) as ->. assert (q ∈ (L' ++ [q]) ++ F2) as HqF by set_solver.
    destruct (in_heap _ _ _ q H ltac:(set_solver)) as (QQ1 & QQ2 & QQ3).
    unfold ld_size, st_size, ld_ptr, st_ptr. wstep. eapply wp_eq; [apply ldw_run; by rewrite Hacc|]. wstep. eapply wp_eq; [apply stw_run; by rewrite Hacc|]. wstep.
    eapply wp_eq; [apply ldw_run; by rewrite Hacc|]. eapply wp_eq; [apply stw_run; by rewrite Hacc|]. wstep. simpl.
    rewrite (Hw1 (c.1 + 4)), decide_False, decide_True by lia. rewrite wd_insert, decide_False by lia. rewrite (Hw1 c.1), decide_True by done.
    rewrite u32_small by (unfold is_u32, two32; lia). set (w2 := <[q.1 := after G base]> (<[q.1 + 4 := q.2 + n1]> w1)).
    assert (∀ x, x ≠ c.1 → x ≠ c.1 + 4 → x ≠ q.1 → x ≠ q.1 + 4 → wd w2 x = wd (h_words h) x) as Hw2.
    { intros x X1 X2 X3 X4. unfold w2. rewrite !wd_insert, !decide_False by done. by apply Hw1'. }
    destruct (freed_links _ _ _ _ _ _ _ _ _ _ w2 H Hc Hpl Hj Hw2) as [LL LG].
    destruct (freed_ok h ((L' ++ [q]) ++ F2) A1 A2 c q w2 L' (q.1, q.2 + n1) G H Hq) as [Hok Hfr].
    + intros b Hb. apply elem_of_app in Hb as [Hb|Hb]; [set_solver|]. apply (joined_in _ _ _ _ _ Hj) in Hb. set_solver.
    + rewrite app_comm_cons. apply chained_app. split; [exact LL|]. simpl. unfold w2. rewrite !wd_insert. rewrite decide_True by done.
      rewrite decide_False, decide_True by lia. done.
    + intros x. rewrite !cov_app. simpl. rewrite covers_join by lia. rewrite Em. pose proof (Hjc x Hj C3 HpF2). destruct q. simpl in *. lia.
    + apply spaced_app in Hsp1 as [Hs1 [Hs2 _]]. apply spaced_app. split; [done|]. split; [done|]. simpl. by replace (q.1 + 8 * (q.2 + n1)) with (c.1 + 8 * n1) by lia.
    + simpl. lia.
    + simpl. eapply (hk_align _ _ _ H q). set_solver.
    + rewrite app_comm_cons, fmap_app. set_solver.
    + done.
    + split; [done|]. split; [done|]. exists (L' ++ (q.1, q.2 + n1) :: G). split; [done|]. split; [rewrite !length_app; simpl; lia|].
      exists (q.1, q.2 + n1). split; [set_solver|simpl; lia].
  - unfold st_ptr. eapply wp_eq; [apply stw_run; by rewrite Hacc|]. wstep. simpl. set (w2 := <[q.1 := c.1]> w1).
    assert (∀ x, x ≠ c.1 → x ≠ c.1 + 4 → x ≠ q.1 → x ≠ q.1 + 4 → wd w2 x = wd (h_words h) x) as Hw2.
    { intros x X1 X2 X3 X4. unfold w2. rewrite !wd_insert, !decide_False by done. by apply Hw1'. }
    destruct (freed_links _ _ _ _ _ _ _ _ _ _ w2 H Hc Hpl Hj Hw2) as [LL LG].
    destruct (freed_ok h F A1 A2 c q w2 F1 (c.1, n1) G H Hq) as [Hok Hfr].
    + rewrite (pl_list _ _ _ _ _ _ _ Hpl). intros b Hb. apply elem_of_app in Hb as [Hb|Hb]; [set_solver|]. apply (joined_in _ _ _ _ _ Hj) in Hb. set_solver.
    + rewrite app_comm_cons, (pl_node _ _ _ _ _ _ _ Hpl), <-app_assoc. simpl. apply chained_app. split; [exact LL|]. simpl. unfold w2. rewrite !wd_insert.
      rewrite decide_True by done. rewrite !decide_False by lia. rewrite (Hw1' (q.1 + 4)) by lia. rewrite !Hw1.
      rewrite (decide_True (P := c.1 = c.1)) by done. rewrite (decide_False (P := c.1 + 4 = c.1)), (decide_True (P := c.1 + 4 = c.1 + 4)) by lia. done.
    + intros x. rewrite (pl_list _ _ _ _ _ _ _ Hpl), !cov_app. simpl. pose proof (Hjc x Hj C3 HpF2). lia.
    + apply spaced_app. split; [done|]. split; [|done]. simpl. pose proof (pl_node _ _ _ _ _ _ _ Hpl) as En.
      destruct (last F1) as [e|] eqn:El; [|lia]. apply last_Some in El as [F1' ->].
      rewrite app_comm_cons in En. apply app_inj_tail in En as [_ ->]. lia.
    + simpl. lia.
    + simpl. eapply (hk_align _ _ _ H c). set_solver.
    + rewrite app_comm_cons, (pl_node _ _ _ _ _ _ _ Hpl), !fmap_app. set_solver.
    + done.
    + split; [done|]. split; [done|]. exists (F1 ++ (c.1, n1) :: G). split; [done|]. rewrite (pl_list _ _ _ _ _ _ _ Hpl). split; [rewrite !length_app; simpl; lia|].
      exists (c.1, n1). split; [set_solver|done].
Qed.

(** C27: [free] of a live block gives exactly its bytes back to the free
    list, which stays in address order and fully coalesced: no block of it
    ends where another starts.  The other live blocks keep their words. *)
Theorem free_returns_block h F A1 A2 c fuel : heap_ok h F (A1 ++ c :: A2) → (S (length F) < fuel)%nat →
  wp (free base heap0 fuel (c.1 + 8)) (λ _ h', h_brk h' = h_brk h ∧ (∀ x, cov x (A1 ++ A2) ≠ 0 → wd (h_words h') x = wd (h_words h) x) ∧
    ∃ F', heap_ok h' F' (A1 ++ A2) ∧ (∀ x, cov x F' = cov x F + covers x c) ∧ ∀ b d, b ∈ F' → d ∈ F' → b.1 + 8 * b.2 ≠ d.1) h.
Proof using All.
  intros H Hfu. wcall (free_spec h F A1 A2 c fuel H); [done|]. intros _ h' (B & Hfr & F' & H' & _). split_and!; [done|done|]. exists F'. split_and!; [done| |].
  - intros x. pose proof (hk_tile _ _ _ H x) as T. pose proof (hk_tile _ _ _ H' x) as T'. rewrite B in T'. rewrite !cov_app in T, T'. simpl in T. lia.
  - assert (∀ b, b ∈ F' → 1 ≤ b.2) as Hp by (intros b Hb; eapply hk_pos; [done|set_solver]). intros b d Hb Hd.
    pose proof (Hp b Hb). pose proof (Hp d Hd). apply list_elem_of_lookup in Hb as [i Hi]. apply list_elem_of_lookup in Hd as [j Hj].
    destruct (lt_eq_lt_dec i j) as [[Hl| ->]|Hl]; [pose proof (spaced_order _ _ _ _ _ _ (hk_spaced _ _ _ H') Hp Hi Hj Hl)|simplify_eq|pose proof (spaced_order _ _ _ _ _ _ (hk_spaced _ _ _ H') Hp Hj Hi Hl)]; lia.
Qed.
(** ** [malloc] *)

(** The kernel does not let a process grow into its own half. *)
Context (grow : Z → Z → bool) (Hgrow : ∀ b n, grow b n = true → b + n < 2147483648).

Lemma morecore_spec h F A n fuel : heap_ok h F A → 1 ≤ n < 268435456 → (S (length F) < fuel)%nat →
  wp (morecore base heap0 grow fuel n) (λ r h', (r = 0 ∧ h' = h ∧ grow (h_brk h) (8 * Z.max 4096 n) = false) ∨ (r = h_freep h' ∧ r ≠ 0 ∧
    (∀ x, cov x A ≠ 0 → wd (h_words h') x = wd (h_words h) x) ∧
    ∃ F', heap_ok h' F' A ∧ (length F' ≤ S (length F))%nat ∧ ∃ d, d ∈ F' ∧ n ≤ d.2)) h.
Proof using All.
  intros H Hn Hfu. unfold morecore. set (nu := if Z.ltb n 4096 then 4096 else n).
  assert (n ≤ nu < 268435456 ∧ 1 ≤ nu ∧ nu * 8 = 8 * Z.max 4096 n) as (Hnu & Hnu1 & Hmax) by (unfold nu; destruct (Z.ltb_spec n 4096); lia).
  rewrite u32_small by (unfold is_u32, two32; lia). rewrite s32_small by (unfold is_s32; lia).
  pose proof (hk_brk _ _ _ H) as Hbrk. pose proof (hk_end _ _ _ H) as Hend. wstep. unfold sbrk. wstep. wstep.
  destruct (grow (h_brk h) (nu * 8)) eqn:Eg; [|wsteps; left; by rewrite <-Hmax]. wsteps. rewrite (proj2 (Z.eqb_neq _ _)) by lia. apply Hgrow in Eg.
  remember (h_brk h) as b eqn:Eb. set (h1 := set_brk (b + nu * 8) h). wstep. unfold st_size. rewrite u32_small by (unfold is_u32, two32; lia).
  eapply wp_eq; [apply stw_run; unfold access; simpl; rewrite (proj2 (Z.leb_le heap0 (b + 4))), (proj2 (Z.leb_le (b + 4 + 4) _)) by lia;
    rewrite (proj2 (Z.eqb_eq ((b + 4 - heap0) mod 4) 0)); [by rewrite orb_true_r|Z.to_euclidean_division_equations; lia]|].
  set (h2 := set_words _ h1). assert (heap_ok h2 F ((b, nu) :: A)) as H2.
  { split; simpl.
    - apply (chained_frame _ ((base, 0) :: F) base b nu); [|apply H]. intros c [->|Hc]%elem_of_cons; [left; simpl; lia|].
      destruct (in_heap _ _ _ c H ltac:(set_solver)) as (? & ? & ?). left. lia.
    - apply H.
    - apply H.
    - intros x. pose proof (hk_tile _ _ _ H x) as Ht. unfold covers. simpl. repeat case_decide; lia.
    - intros c Hc. apply elem_of_app in Hc as [Hc|[->|Hc]%elem_of_cons]; [|simpl; lia|]; eapply hk_pos; [done|set_solver|done|set_solver].
    - intros c Hc. apply elem_of_app in Hc as [Hc|[->|Hc]%elem_of_cons]; [|done|]; eapply hk_align; [done|set_solver|done|set_solver].
    - intros c [->|Hc]%elem_of_cons; rewrite wd_insert; simpl; [by rewrite decide_True|].
      rewrite decide_False; [by eapply hk_live|]. destruct (in_heap _ _ _ c H ltac:(set_solver)) as (? & ? & ?). lia.
    - lia.
    - Z.to_euclidean_division_equations; lia. }
  wstep. wcall (free_spec h2 F [] A (b, nu) fuel H2); [done|]. intros [] h3 (B3 & Fr & F' & H3 & Hl & d & Hd & Hd2). wstep. right.
  split_and!; [done| | |exists F'; split_and!; [done|lia|exists d; split; [done|simpl in Hd2; lia]]].
  - destruct (hk_freep _ _ _ H3) as [i Hi]. rewrite list_lookup_fmap in Hi. apply fmap_Some in Hi as (c & Hi & ->).
    apply list_elem_of_lookup_2 in Hi. apply elem_of_cons in Hi as [->|Hi]; [simpl; lia|]. pose proof (in_heap _ _ _ c H3 ltac:(set_solver)). lia.
  - intros x Hx. rewrite (Fr x Hx). simpl. rewrite wd_insert, decide_False; [done|]. intros ->.
    pose proof (hk_tile _ _ _ H (b + 4)) as Ht. rewrite decide_False in Ht by lia. pose proof (cov_pos (b + 4) F). pose proof (cov_pos (b + 4) A). lia.
Qed.

(** A byte of a live block is in no node of the list. *)
Lemma live_outside h F A x b : heap_ok h F A → cov x A ≠ 0 → b ∈ (base, 0) :: F → x < b.1 ∨ (b.1 + 8 * b.2 ≤ x ∧ b.1 + 8 ≤ x).
Proof using All.
  intros H Hx Hb. pose proof (hk_tile _ _ _ H x) as Ht. pose proof (cov_pos x F). pose proof (cov_pos x A).
  assert (cov x F = 0 ∧ heap0 ≤ x) as [Z1 Z2] by (case_decide; lia). apply elem_of_cons in Hb as [->|Hb]; [simpl; lia|].
  pose proof (cov_in x b F Hb) as Z3. pose proof (hk_pos _ _ _ H b ltac:(set_solver)). unfold covers in Z3. case_decide; lia.
Qed.

Lemma spaced_mono lo lo' l : lo' ≤ lo → spaced lo l → spaced lo' l.
Proof using All. destruct l as [|b l]; [done|]. intros Hl [H1 H2]. split; [lia|done]. Qed.

Lemma live_covered A b : b ∈ A → 1 ≤ b.2 → cov (b.1 + 4) A ≠ 0.
Proof using All. intros Hb Hp. pose proof (cov_in (b.1 + 4) b A Hb) as H. unfold covers in H. rewrite decide_True in H by lia. lia. Qed.

Section carving.
Context (h : heap) (F A L R F1 : blocks) (pv q : Z * Z) (n : Z) (H : heap_ok h F A) (EF : F = F1 ++ q :: R) (EL : (base, 0) :: F1 = L ++ [pv]) (Hn : 1 ≤ n ≤ q.2).

Lemma carve_split : (base, 0) :: F = L ++ pv :: q :: R.
Proof using All. rewrite EF, app_comm_cons, EL. by rewrite <-app_assoc. Qed.
Lemma carve_pv : pv ∈ (base, 0) :: F.
Proof using All. rewrite carve_split. set_solver. Qed.
Lemma carve_before b : b ∈ L ++ [pv] → b.1 + 8 ≤ q.1.
Proof using All.
  intros [i Hi]%list_elem_of_lookup. pose proof (lookup_lt_Some _ _ _ Hi) as Hlt. rewrite length_app in Hlt. simpl in Hlt.
  eapply (nodes_order h F A i (S (length L)) b q H); [| |lia]; rewrite carve_split, (cons_middle pv L (q :: R)), app_assoc.
  - by rewrite lookup_app_l by (rewrite length_app; simpl; lia).
  - rewrite lookup_app_r by (rewrite length_app; simpl; lia). rewrite length_app. simpl. by replace (S (length L) - (length L + 1))%nat with 0%nat by lia.
Qed.
Lemma carve_L b : b ∈ L → b.1 + 8 ≤ pv.1.
Proof using All.
  intros [i Hi]%list_elem_of_lookup. pose proof (lookup_lt_Some _ _ _ Hi) as Hlt.
  eapply (nodes_order h F A i (length L) b pv H); [| |lia]; rewrite carve_split; [by rewrite lookup_app_l|by rewrite list_lookup_middle].
Qed.
Lemma carve_R b : b ∈ R → q.1 + 8 * q.2 < b.1.
Proof using All.
  intros [i Hi]%list_elem_of_lookup. eapply (spaced_order base F (length F1) (length F1 + S i) q b); [apply H| |rewrite EF; by rewrite list_lookup_middle| |lia].
  - intros c Hc. eapply hk_pos; [done|set_solver].
  - rewrite EF, lookup_app_r by lia. by replace (length F1 + S i - length F1)%nat with (S i) by lia.
Qed.
Lemma carve_links : chained (h_words h) L pv.1 ∧ wd (h_words h) pv.1 = q.1 ∧ wd (h_words h) (pv.1 + 4) = pv.2 ∧
  wd (h_words h) q.1 = after R base ∧ wd (h_words h) (q.1 + 4) = q.2 ∧ chained (h_words h) R base.
Proof using All. pose proof (hk_links _ _ _ H) as Hl. rewrite carve_split in Hl. apply chained_app in Hl as [H1 (H2 & H3 & H4 & H5 & H6)]. done. Qed.
Lemma carve_spaced : spaced base F1 ∧ (match last F1 with Some b => b.1 + 8 * b.2 | None => base end) < q.1 ∧ spaced (q.1 + 8 * q.2) R.
Proof using All. pose proof (hk_spaced _ _ _ H) as Hs. rewrite EF in Hs. apply spaced_app in Hs as [H1 [H2 H3]]. done. Qed.

Lemma carve_freep K : ∃ i, ((base, 0) :: F1 ++ K).*1 !! i = Some pv.1.
Proof using All.
  exists (length L). assert ((base, 0) :: F1 ++ K = L ++ pv :: K) as -> by (rewrite app_comm_cons, EL; by rewrite <-app_assoc).
  by rewrite list_lookup_fmap, list_lookup_middle.
Qed.

Lemma carve_whole : n = q.2 → let w := <[pv.1 := after R base]> (h_words h) in
  heap_ok (mkHeap w pv.1 (h_brk h)) (F1 ++ R) ((q.1, n) :: A) ∧ ∀ x, cov x A ≠ 0 → wd w x = wd (h_words h) x.
Proof using All.
  intros En w. destruct carve_links as (L1 & L2 & L3 & L4 & L5 & L6). destruct carve_spaced as (S1 & S2 & S3).
  pose proof (carve_before pv ltac:(set_solver)) as Hpq.
  assert (∀ x, cov x A ≠ 0 → wd w x = wd (h_words h) x) as Hfr.
  { intros x Hx. unfold w. rewrite wd_insert, decide_False; [done|]. destruct (live_outside _ _ _ _ _ H Hx carve_pv); lia. }
  assert (∀ b, b ∈ F1 ++ R → b ∈ F) as Hsub by (rewrite EF; set_solver). split; [|done]. split; simpl.
  - change (chained w ((base, 0) :: F1 ++ R) base). rewrite app_comm_cons, EL, <-app_assoc. apply chained_app. split; [|split_and!].
    + eapply chained_ext; [|exact L1]. intros b Hb. pose proof (carve_L b Hb). unfold w. rewrite !wd_insert, !decide_False by lia. done.
    + unfold w. by rewrite wd_insert, decide_True.
    + unfold w. by rewrite wd_insert, decide_False by lia.
    + eapply chained_ext; [|exact L6]. intros b Hb. pose proof (carve_R b Hb). unfold w. rewrite !wd_insert, !decide_False by lia. done.
  - exact (carve_freep R).
  - apply spaced_app. split; [done|]. eapply spaced_mono; [|exact S3]. lia.
  - intros x. rewrite <-(hk_tile _ _ _ H x), EF, !cov_app. simpl. rewrite En. destruct q. simpl. lia.
  - intros b Hb. apply elem_of_app in Hb as [Hb|[->|Hb]%elem_of_cons]; [eapply hk_pos; [done|]; apply Hsub in Hb; set_solver|simpl; lia|eapply hk_pos; [done|set_solver]].
  - intros b Hb. apply elem_of_app in Hb as [Hb|[->|Hb]%elem_of_cons]; [eapply hk_align; [done|]; apply Hsub in Hb; set_solver|simpl|eapply hk_align; [done|set_solver]].
    eapply (hk_align _ _ _ H q). rewrite EF. set_solver.
  - intros b [->|Hb]%elem_of_cons; simpl; [unfold w; rewrite wd_insert, decide_False by lia; congruence|].
    rewrite Hfr; [by eapply hk_live|]. apply live_covered; [done|]. eapply hk_pos; [done|set_solver].
  - apply (hk_brk _ _ _ H).
  - apply (hk_end _ _ _ H).
Qed.

Lemma carve_tail : n < q.2 → let m := q.2 - n in let r := q.1 + 8 * m in let w := <[r + 4 := n]> (<[q.1 + 4 := m]> (h_words h)) in
  heap_ok (mkHeap w pv.1 (h_brk h)) (F1 ++ (q.1, m) :: R) ((r, n) :: A) ∧ ∀ x, cov x A ≠ 0 → wd w x = wd (h_words h) x.
Proof using All.
  intros Hlt m r w. destruct carve_links as (L1 & L2 & L3 & L4 & L5 & L6). destruct carve_spaced as (S1 & S2 & S3).
  pose proof (carve_before pv ltac:(set_solver)) as Hpq. assert (q ∈ F) as HqF by (rewrite EF; set_solver).
  assert (∀ x, x ≠ r + 4 → x ≠ q.1 + 4 → wd w x = wd (h_words h) x) as Hw by (intros x X1 X2; unfold w; by rewrite !wd_insert, !decide_False).
  assert (∀ x, cov x A ≠ 0 → wd w x = wd (h_words h) x) as Hfr.
  { intros x Hx. apply Hw; destruct (live_outside _ _ _ _ _ H Hx (list_elem_of_further _ (base, 0) _ HqF)); unfold r, m; lia. }
  assert (∀ b, b ∈ F1 ++ R → b ∈ F) as Hsub by (rewrite EF; set_solver). split; [|done]. split; simpl.
  - change (chained w ((base, 0) :: F1 ++ (q.1, m) :: R) base). rewrite app_comm_cons, EL, <-app_assoc. apply chained_app. split; [|split_and!; simpl; [..|split_and!]].
    + eapply chained_ext; [|exact L1]. intros b Hb. pose proof (carve_before b ltac:(set_solver)). rewrite !Hw by (unfold r, m; lia). done.
    + rewrite Hw by (unfold r, m; lia). done.
    + rewrite Hw by (unfold r, m; lia). done.
    + rewrite Hw by (unfold r, m; lia). done.
    + unfold w. rewrite wd_insert, decide_False by (unfold r, m; lia). by rewrite wd_insert, decide_True.
    + eapply chained_ext; [|exact L6]. intros b Hb. pose proof (carve_R b Hb). rewrite !Hw by (unfold r, m; lia). done.
  - exact (carve_freep ((q.1, m) :: R)).
  - apply spaced_app. split; [done|]. split; [done|]. simpl. eapply spaced_mono; [|exact S3]. unfold m. lia.
  - intros x. rewrite <-(hk_tile _ _ _ H x), EF, !cov_app. simpl. assert (covers x q = covers x (q.1, m) + covers x (r, n)) as ->; [|lia].
    unfold r. rewrite <-covers_join by (unfold m; lia). unfold m. replace (q.2 - n + n) with q.2 by lia. by destruct q.
  - intros b Hb. apply elem_of_app in Hb as [[Hb|[->|Hb]%elem_of_cons]%elem_of_app|[->|Hb]%elem_of_cons];
      [eapply hk_pos; [done|]; pose proof (Hsub b); set_solver|simpl; unfold m; lia|eapply hk_pos; [done|]; pose proof (Hsub b); set_solver|simpl; lia|eapply hk_pos; [done|set_solver]].
  - pose proof (hk_align _ _ _ H q ltac:(set_solver)) as Ha. intros b Hb. apply elem_of_app in Hb as [[Hb|[->|Hb]%elem_of_cons]%elem_of_app|[->|Hb]%elem_of_cons];
      [eapply hk_align; [done|]; pose proof (Hsub b); set_solver|done|eapply hk_align; [done|]; pose proof (Hsub b); set_solver| |eapply hk_align; [done|set_solver]].
    simpl. unfold r. Z.to_euclidean_division_equations; lia.
  - intros b [->|Hb]%elem_of_cons; simpl; [unfold w; by rewrite wd_insert, decide_True|].
    rewrite Hfr; [by eapply hk_live|]. apply live_covered; [done|]. eapply hk_pos; [done|set_solver].
  - apply (hk_brk _ _ _ H).
  - apply (hk_end _ _ _ H).
Qed.

Lemma carve_spec : wp (r ← carve base heap0 pv.1 q.1 q.2 n; modify (set_freep pv.1);; mret (inr (r + 8) : (Z * Z) + Z)) (λ v h', ∃ r F', v = inr (r + 8) ∧
  heap_ok h' F' ((r, n) :: A) ∧ (∀ x, cov x A ≠ 0 → wd (h_words h') x = wd (h_words h) x) ∧ (length F' ≤ length F)%nat) h.
Proof using All.
  destruct carve_links as (L1 & L2 & L3 & L4 & L5 & L6). assert (q ∈ F) as HqF by (rewrite EF; set_solver).
  destruct (access_node h F A q H ltac:(set_solver)) as [Aq Aq4]. destruct (access_node h F A pv H ltac:(rewrite app_comm_cons; apply elem_of_app; left; apply carve_pv)) as [Ap _].
  destruct (in_heap _ _ _ q H ltac:(set_solver)) as (Q1 & Q2 & Q3). pose proof (hk_brk _ _ _ H) as Hbrk. pose proof (hk_align _ _ _ H q ltac:(set_solver)) as Hal.
  unfold carve. wstep. destruct (Z.eqb_spec q.2 n) as [E|E].
  - unfold ld_ptr, st_ptr. wstep. eapply wp_eq; [by apply ldw_run|]. wstep. eapply wp_eq; [by apply stw_run|]. wsteps. rewrite L4.
    destruct (carve_whole ltac:(done)) as [Hok Hfr]. exists q.1, (F1 ++ R). split_and!; [done|exact Hok|exact Hfr|]. rewrite EF, !length_app. simpl. lia.
  - unfold st_size, ld_size. rewrite !u32_small by (unfold is_u32, two32; lia). wstep. eapply wp_eq; [by apply stw_run|]. wstep. eapply wp_eq; [by apply ldw_run|]. simpl.
    rewrite wd_insert, decide_True by done. wstep. eapply wp_eq; [apply stw_run|].
    { unfold access. simpl. rewrite (proj2 (Z.leb_le heap0 _)), (proj2 (Z.leb_le (_ + 4) _)) by lia.
      rewrite (proj2 (Z.eqb_eq (_ mod 4) 0)); [by rewrite orb_true_r|]. Z.to_euclidean_division_equations; lia. }
    wsteps. destruct (carve_tail ltac:(lia)) as [Hok Hfr]. eexists _, (F1 ++ (q.1, q.2 - n) :: R). split_and!; [done|exact Hok|exact Hfr|]. rewrite EF, !length_app. simpl. lia.
Qed.
End carving.

(** The ring of nodes: the index behind [i], and how far [f] is from [i]. *)
Definition csucc (len i : nat) : nat := if decide (S i = len) then 0%nat else S i.
Definition cdist (len i f : nat) : nat := if decide (i ≤ f)%nat then (f - i)%nat else (len - i + f)%nat.

Lemma cdist_step len i f : (i < len)%nat → (f < len)%nat → i ≠ f → cdist len i f = S (cdist len (csucc len i) f).
Proof using All. intros Hi Hf Hne. unfold cdist, csucc. repeat case_decide; lia. Qed.
Lemma cdist_inj len i j f : (i < len)%nat → (j < len)%nat → (f < len)%nat → cdist len i f = cdist len j f → i = j.
Proof using All. intros Hi Hj Hf. unfold cdist. repeat case_decide; lia. Qed.
Lemma cdist_zero len i f : (i < len)%nat → (f < len)%nat → cdist len i f = 0%nat ↔ i = f.
Proof using All. intros Hi Hf. unfold cdist. repeat case_decide; lia. Qed.
Lemma cdist_first len i f : (i < len)%nat → (f < len)%nat → (cdist len i f ≤ cdist len (csucc len f) f ∧ cdist len i f < len)%nat.
Proof using All. intros Hi Hf. unfold cdist, csucc. repeat case_decide; lia. Qed.
Lemma csucc_lt len i : (i < len)%nat → (csucc len i < len)%nat.
Proof using All. intros Hi. unfold csucc. case_decide; lia. Qed.

Lemma next_node h F A i b : heap_ok h F A → ((base, 0) :: F) !! i = Some b →
  ∃ c, ((base, 0) :: F) !! csucc (S (length F)) i = Some c ∧ wd (h_words h) b.1 = c.1.
Proof using All.
  intros H Hi. destruct (chained_at _ _ _ _ _ (hk_links _ _ _ H) Hi) as [Hn _]. pose proof (lookup_lt_Some _ _ _ Hi) as Hlt. simpl length in Hlt.
  unfold csucc. case_decide as E.
  - exists (base, 0). split; [done|]. rewrite Hn, (lookup_ge_None_2 _ (S i)); [done|simpl; lia].
  - destruct (lookup_lt_is_Some_2 ((base, 0) :: F) (S i)) as [c Hc]; [simpl; lia|]. rewrite Hc in Hn. by exists c.
Qed.
Lemma node_inj h F A i j b c : heap_ok h F A → ((base, 0) :: F) !! i = Some b → ((base, 0) :: F) !! j = Some c → b.1 = c.1 → i = j.
Proof using All.
  intros H Hi Hj E. destruct (lt_eq_lt_dec i j) as [[Hl|Hl]|Hl]; [|done|]; [pose proof (nodes_order _ _ _ _ _ _ _ H Hi Hj Hl)|pose proof (nodes_order _ _ _ _ _ _ _ H Hj Hi Hl)]; lia.
Qed.
Lemma node_ld h F A i b : heap_ok h F A → ((base, 0) :: F) !! i = Some b →
  ld_ptr base heap0 b.1 h = Ok (wd (h_words h) b.1, h) ∧ ld_size base heap0 b.1 h = Ok (b.2, h).
Proof using All.
  intros H Hi. destruct (chained_at _ _ _ _ _ (hk_links _ _ _ H) Hi) as [_ <-]. apply list_elem_of_lookup_2 in Hi.
  destruct (access_node h F A b H) as [A1 A2]; [rewrite app_comm_cons; apply elem_of_app; by left|]. split; by apply ldw_run.
Qed.
(** A node that is big enough is not [base]: it has a node before it. *)
Lemma node_cut F ip q n : 1 ≤ n ≤ q.2 → ((base, 0) :: F) !! csucc (S (length F)) ip = Some q → ∀ pv, ((base, 0) :: F) !! ip = Some pv →
  ∃ F1 L R, F = F1 ++ q :: R ∧ (base, 0) :: F1 = L ++ [pv].
Proof using All.
  intros Hn Hq pv Hpv. unfold csucc in Hq. case_decide as E; [simpl in Hq; injection Hq as <-; simpl in Hn; lia|]. simpl in Hq.
  exists (take ip F), (take ip ((base, 0) :: F)), (drop (S ip) F). split; [by rewrite take_drop_middle|]. by rewrite <-(take_S_r _ _ _ Hpv).
Qed.

Lemma free_node_at h F A : heap_ok h F A → ∃ f b, ((base, 0) :: F) !! f = Some b ∧ h_freep h = b.1.
Proof using All.
  intros H. destruct (hk_freep _ _ _ H) as [f Hf]. rewrite list_lookup_fmap in Hf. apply fmap_Some in Hf as (b & Hf & ->). by exists f, b.
Qed.
Lemma freep_pos h F A : heap_ok h F A → h_freep h ≠ 0.
Proof using All.
  intros H. destruct (free_node_at _ _ _ H) as (f & b & Hf & ->). apply list_elem_of_lookup_2 in Hf.
  apply elem_of_cons in Hf as [->|Hf]; [simpl; lia|]. pose proof (in_heap _ _ _ b H ltac:(set_solver)). lia.
Qed.

(** What [malloc] leaves: nothing is done because the kernel gave nothing and
    no free block is large enough, or the block [v - 8] is new. *)
Definition served (h0 : heap) (F0 A : blocks) (n v : Z) (h : heap) : Prop :=
  (v = 0 ∧ h = h0 ∧ grow (h_brk h0) (8 * Z.max 4096 n) = false ∧ ∀ b, b ∈ F0 → b.2 < n) ∨
  (∃ F, heap_ok h F ((v - 8, n) :: A) ∧ (∀ x, cov x A ≠ 0 → wd (h_words h) x = wd (h_words h0) x) ∧ (length F ≤ S (length F0))%nat).

(** The loop before and after the heap has grown: [q] is the node looked at,
    behind [pv]; [k] bounds the turns that are left. *)
Definition seek (h0 : heap) (F0 A : blocks) (n : Z) (k : nat) (st : Z * Z) (h : heap) : Prop :=
  ∃ F ip pv q f fb, let ns := (base, 0) :: F in let len := S (length F) in let i := csucc len ip in
    heap_ok h F A ∧ (∀ x, cov x A ≠ 0 → wd (h_words h) x = wd (h_words h0) x) ∧ (length F ≤ S (length F0))%nat ∧
    ns !! ip = Some pv ∧ ns !! i = Some q ∧ st = (pv.1, q.1) ∧ ns !! f = Some fb ∧ h_freep h = fb.1 ∧
    ((h = h0 ∧ F = F0 ∧ k = (cdist len i f + length F0 + 3)%nat ∧ ∀ j b, ns !! j = Some b → (cdist len i f < cdist len j f)%nat → b.2 < n) ∨
     (∃ j d, ns !! j = Some d ∧ n ≤ d.2 ∧ (cdist len i j ≤ cdist len i f)%nat ∧ k = cdist len i j)).

(** The loop starts, and starts again, behind [freep]. *)
Lemma seek_grown h0 F0 A n F h : heap_ok h F A → (∀ x, cov x A ≠ 0 → wd (h_words h) x = wd (h_words h0) x) → (length F ≤ S (length F0))%nat →
  (∃ d, d ∈ F ∧ n ≤ d.2) → ∃ k, (k < length F0 + 3)%nat ∧ seek h0 F0 A n k (h_freep h, wd (h_words h) (h_freep h)) h.
Proof using All.
  intros H Hfr Hl (d & Hd & Hdn). destruct (free_node_at _ _ _ H) as (f & fb & Hf & Ef). destruct (next_node _ _ _ _ _ H Hf) as (q & Hq & Eq).
  destruct (proj1 (list_elem_of_lookup ((base, 0) :: F) d)) as [j Hj]; [set_solver|].
  pose proof (lookup_lt_Some _ _ _ Hf) as Lf. pose proof (lookup_lt_Some _ _ _ Hj) as Lj. pose proof (lookup_lt_Some _ _ _ Hq) as Lq. simpl length in *.
  exists (cdist (S (length F)) (csucc (S (length F)) f) j). pose proof (cdist_first (S (length F)) _ j Lq Lj) as [_ Hk]. split; [lia|].
  exists F, f, fb, q, f, fb. simpl. rewrite Ef, Eq. split_and!; try done. right. exists j, d. split_and!; try done.
  unfold cdist, csucc. repeat case_decide; lia.
Qed.
Lemma seek_first h F A n : heap_ok h F A → ∃ k, (k < length F + length F + 4)%nat ∧ seek h F A n k (h_freep h, wd (h_words h) (h_freep h)) h.
Proof using All.
  intros H. destruct (free_node_at _ _ _ H) as (f & fb & Hf & Ef). destruct (next_node _ _ _ _ _ H Hf) as (q & Hq & Eq).
  pose proof (lookup_lt_Some _ _ _ Hf) as Lf. pose proof (lookup_lt_Some _ _ _ Hq) as Lq. simpl length in *. eexists. split; [|exists F, f, fb, q, f, fb; simpl; rewrite Ef, Eq; split_and!; try done; [lia|]; left; split_and!; try done].
  - pose proof (cdist_first _ _ _ Lq Lf). lia.
  - intros j b Hj Hd. apply lookup_lt_Some in Hj. simpl in Hj. pose proof (cdist_first _ _ _ Hj Lf). lia.
Qed.

(** The loop moves on to the next node. *)
Lemma seek_next h0 F0 A n k pv q h F ip f fb : let ns := (base, 0) :: F in let len := S (length F) in let i := csucc len ip in
  heap_ok h F A → (∀ x, cov x A ≠ 0 → wd (h_words h) x = wd (h_words h0) x) → (length F ≤ S (length F0))%nat →
  ns !! ip = Some pv → ns !! i = Some q → ns !! f = Some fb → h_freep h = fb.1 → q.2 < n → q.1 ≠ fb.1 →
  ((h = h0 ∧ F = F0 ∧ k = (cdist len i f + length F0 + 3)%nat ∧ ∀ j b, ns !! j = Some b → (cdist len i f < cdist len j f)%nat → b.2 < n) ∨
   (∃ j d, ns !! j = Some d ∧ n ≤ d.2 ∧ (cdist len i j ≤ cdist len i f)%nat ∧ k = cdist len i j)) →
  ∃ k', (k' < k)%nat ∧ seek h0 F0 A n k' (q.1, wd (h_words h) q.1) h.
Proof using All.
  intros ns len i H Hfr Hl Hip Hi Hf Ef Hqn Hqf Hph. destruct (next_node _ _ _ _ _ H Hi) as (c & Hc & ->).
  pose proof (lookup_lt_Some _ _ _ Hi) as Li. pose proof (lookup_lt_Some _ _ _ Hf) as Lf. simpl length in Li, Lf.
  assert (i ≠ f) as Hne by (intros E; apply Hqf; rewrite E, Hf in Hi; by injection Hi as ->). pose proof (cdist_step len i f Li Lf Hne) as Df.
  destruct Hph as [(-> & -> & -> & Hall)|(j & d & Hj & Hdn & Hle & ->)].
  - exists (cdist len (csucc len i) f + length F0 + 3)%nat. split; [lia|]. exists F0, i, q, c, f, fb. simpl. split_and!; try done. left. split_and!; try done.
    intros j b Hj Hlt. change (ns !! j = Some b) in Hj. destruct (decide (j = i)) as [E|Hji]; [rewrite E, Hi in Hj; by injection Hj as <-|]. apply (Hall j b Hj). pose proof (lookup_lt_Some _ _ _ Hj) as Lj. simpl in Lj.
    pose proof (cdist_inj len j i f Lj Li Lf). fold len in Hlt. lia.
  - pose proof (lookup_lt_Some _ _ _ Hj) as Lj. simpl in Lj. assert (i ≠ j) as Hij by (intros E; rewrite E, Hj in Hi; injection Hi as ->; lia).
    pose proof (cdist_step len i j Li Lj Hij) as Dj. exists (cdist len (csucc len i) j). split; [lia|].
    exists F, i, q, c, f, fb. simpl. split_and!; try done. right. exists j, d. split_and!; try done. fold len. lia.
Qed.

Lemma turn_spec h0 F0 A n fuel k st h : 1 ≤ n < 268435456 → (S (S (length F0)) < fuel)%nat → seek h0 F0 A n k st h →
  wp (malloc_turn base heap0 grow fuel n st) (λ r h', match r with inl st' => ∃ k', (k' < k)%nat ∧ seek h0 F0 A n k' st' h' | inr v => served h0 F0 A n v h' end) h.
Proof using All.
  intros Hn Hfu (F & ip & pv & q & f & fb & H & Hfr & Hl & Hip & Hi & -> & Hf & Ef & Hph). unfold malloc_turn.
  destruct (node_ld _ _ _ _ _ H Hi) as [Lp Ls]. wstep. eapply wp_eq; [exact Ls|]. destruct (Z.leb_spec n q.2) as [Hq|Hq].
  - destruct (node_cut _ _ _ _ (conj (proj1 Hn) Hq) Hi _ Hip) as (F1 & L & R & EF & EL).
    eapply wp_mono; [apply (carve_spec h F A L R F1 pv q n H EF EL (conj (proj1 Hn) Hq))|].
    intros v h' (r & F' & -> & Hok & Hfr' & Hl'). right. exists F'. replace (r + 8 - 8) with r by lia. split_and!; [done| |lia].
    intros x Hx. by rewrite Hfr', Hfr.
  - wstep. wstep. rewrite Ef. destruct (Z.eqb_spec q.1 fb.1) as [Eq|Eq].
    + assert (csucc (S (length F)) ip = f) as Eif by (eapply node_inj; [done|done|done|done]). rewrite Eif in *.
      pose proof (lookup_lt_Some _ _ _ Hf) as Lf. simpl in Lf. assert (cdist (S (length F)) f f = 0%nat) as D0 by by apply cdist_zero. rewrite D0 in *.
      destruct Hph as [(-> & -> & -> & Hall)|(j & d & Hj & Hdn & Hle & _)].
      * wstep. wstep. wcall (morecore_spec h0 F0 A n fuel H Hn); [lia|]. intros r h' [(-> & -> & Hg)|(-> & Hr & Hfr' & F' & H' & Hl' & Hd)].
        -- wsteps. left. split_and!; [done|done|done|]. intros b Hb. destruct (proj1 (list_elem_of_lookup F0 b) Hb) as [j Hj].
           destruct (decide (S j = f)) as [E|E]; [rewrite <-E in Hi; simpl in Hi; congruence|]. apply (Hall (S j) b Hj).
           apply lookup_lt_Some in Hj. pose proof (cdist_zero (S (length F0)) (S j) f ltac:(lia) Lf). lia.
        -- rewrite (proj2 (Z.eqb_neq _ _)) by done. wstep. wstep. destruct (free_node_at _ _ _ H') as (f' & fb' & Hf' & Ef').
           destruct (node_ld _ _ _ _ _ H' Hf') as [Lp' _]. rewrite Ef' at 1. eapply wp_eq; [exact Lp'|]. wstep. rewrite <-Ef'.
           destruct (seek_grown h0 F0 A n F' h' H' Hfr' Hl' Hd) as (k' & Hk & Hs). exists k'. split; [lia|done].
      * assert (f = j) as -> by (apply (cdist_zero (S (length F))); [done|by apply lookup_lt_Some in Hj|lia]). simplify_eq. lia.
    + wstep. wstep. wstep. eapply wp_eq; [exact Lp|]. wstep. exact (seek_next h0 F0 A n k pv q h F ip f fb H Hfr Hl Hip Hi Hf Ef Hq Eq Hph).
Qed.

Lemma malloc_loop h F A n fuel : heap_ok h F A → 1 ≤ n < 268435456 → (2 * length F + 4 < fuel)%nat →
  wp (p ← ld_ptr base heap0 (h_freep h); loop fuel (malloc_turn base heap0 grow fuel n) (h_freep h, p)) (served h F A n) h.
Proof using All.
  intros H Hn Hfu. destruct (seek_first h F A n H) as (k & Hk & Hs). wstep. destruct (free_node_at _ _ _ H) as (f & fb & Hf & Ef).
  destruct (node_ld _ _ _ _ _ H Hf) as [Lp _]. rewrite Ef. eapply wp_eq; [exact Lp|]. rewrite <-Ef.
  apply (wp_loop (seek h F A n)) with (n := k); [|lia|done]. intros k' st h' Hs'. eapply turn_spec; [done|lia|done].
Qed.

(** A heap that [malloc] may find: its own, or none yet. *)
Definition ready (h : heap) (F A : blocks) : Prop :=
  heap_ok h F A ∨ (h_freep h = 0 ∧ h_brk h = heap0 ∧ heap0 < 2147483648 ∧ F = [] ∧ A = []).

Lemma base_ok w : heap0 < 2147483648 → heap_ok (mkHeap (<[base + 4 := 0]> (<[base := base]> w)) base heap0) [] [].
Proof using All.
  intros Hh. split; simpl.
  - rewrite !wd_insert. rewrite (decide_False (P := base = base + 4)), !(decide_True (P := base = base)), (decide_True (P := base + 4 = base + 4)) by lia. done.
  - by exists 0%nat.
  - done.
  - intros x. rewrite decide_False by lia. done.
  - set_solver.
  - set_solver.
  - set_solver.
  - lia.
  - by rewrite Z.sub_diag.
Qed.

Lemma nunits_fits nbytes : 0 ≤ nbytes < 2147483632 → 1 ≤ nunits nbytes < 268435456 ∧ nunits nbytes = (nbytes + 7) / 8 + 1.
Proof using All.
  intros Hn. unfold nunits. rewrite (u32_small (nbytes + 8 - 1)) by (unfold is_u32, two32; lia). replace (nbytes + 8 - 1) with (nbytes + 7) by lia.
  rewrite u32_small by (unfold is_u32, two32; Z.to_euclidean_division_equations; lia). Z.to_euclidean_division_equations; lia.
Qed.

Lemma malloc_spec h F A nbytes fuel : ready h F A → 0 ≤ nbytes < 2147483632 → (2 * length F + 4 < fuel)%nat →
  wp (malloc base heap0 grow fuel nbytes) (λ v h',
    (∀ x, cov x A ≠ 0 → wd (h_words h') x = wd (h_words h) x) ∧
    ((v = 0 ∧ grow (h_brk h) (8 * Z.max 4096 (nunits nbytes)) = false ∧ (∀ b, b ∈ F → 8 * (b.2 - 1) < nbytes) ∧ heap_ok h' F A) ∨
     (∃ F', heap_ok h' F' ((v - 8, nunits nbytes) :: A) ∧ (length F' ≤ S (length F))%nat ∧ ∀ x, v ≤ x < v + nbytes → cov x A = 0 ∧ heap0 ≤ x < h_brk h'))) h.
Proof using All.
  intros Hr Hb Hfu. destruct (nunits_fits _ Hb) as [Hn En]. unfold malloc. set (n := nunits nbytes) in *. wstep. wstep. wstep.
  set (Q := λ (v : Z) (h' : heap), _). assert (∀ h1, heap_ok h1 F A → h_brk h1 = h_brk h → (∀ x, cov x A ≠ 0 → wd (h_words h1) x = wd (h_words h) x) →
    wp (p ← ld_ptr base heap0 (h_freep h1); loop fuel (malloc_turn base heap0 grow fuel n) (h_freep h1, p)) Q h1) as Hgo.
  { intros h1 H1 B1 W1. wcall (malloc_loop h1 F A n fuel H1 Hn); [lia|]. intros v h' [(-> & -> & Hg & Hall)|(F' & H' & Hfr & Hl)]; (split; [intros x Hx; by rewrite ?Hfr, W1 by done|]).
    - left. rewrite <-B1. split_and!; [done|done| |done]. intros b Hbf. specialize (Hall b Hbf). Z.to_euclidean_division_equations; lia.
    - right. exists F'. split_and!; [done|done|]. intros x Hx. pose proof (hk_tile _ _ _ H' x) as Ht. simpl in Ht. unfold covers in Ht. simpl in Ht.
      pose proof (cov_pos x F'). pose proof (cov_pos x A). rewrite (decide_True (P := v - 8 ≤ _ < _)) in Ht by (Z.to_euclidean_division_equations; lia). case_decide; lia. }
  destruct Hr as [H|(E0 & E1 & E2 & -> & ->)].
  - rewrite (proj2 (Z.eqb_neq _ _)) by by eapply freep_pos. wstep. by apply Hgo.
  - rewrite E0. simpl. unfold st_ptr, st_size. wstep. wstep. wstep. eapply wp_eq; [apply stw_run; unfold access; by rewrite Z.eqb_refl|].
    wstep. eapply wp_eq; [apply stw_run; unfold access; by rewrite Z.eqb_refl, orb_true_r|]. wstep. apply (Hgo (mkHeap _ base _)); simpl; [|done|set_solver].
    rewrite E1. by apply base_ok.
Qed.

(** C8: [malloc] never touches a word of a live block.  It returns null only
    when no free block is large enough and the kernel refuses to grow the
    heap, and then keeps its free list; otherwise the [nbytes] bytes it
    returns lie in the heap and in no live block, the new block joins the
    live ones, the heap stays tiled and the free list sorted and coalesced. *)
Theorem malloc_gives_fresh_block h F A nbytes fuel : ready h F A → 0 ≤ nbytes < 2147483632 → (2 * length F + 4 < fuel)%nat →
  wp (malloc base heap0 grow fuel nbytes) (λ v h',
    (∀ x, cov x A ≠ 0 → wd (h_words h') x = wd (h_words h) x) ∧
    ((v = 0 ∧ grow (h_brk h) (8 * Z.max 4096 (nunits nbytes)) = false ∧ (∀ b, b ∈ F → 8 * (b.2 - 1) < nbytes) ∧ heap_ok h' F A) ∨
     (∃ F', heap_ok h' F' ((v - 8, nunits nbytes) :: A) ∧ ∀ x, v ≤ x < v + nbytes → cov x A = 0 ∧ heap0 ≤ x < h_brk h'))) h.
Proof using All.
  intros Hr Hb Hfu. wcall (malloc_spec h F A nbytes fuel Hr Hb Hfu). intros v h' [Hw [H|(F' & H & _ & Hx)]]; split; [done|by left|done|right; by exists F'].
Qed.
End heap.

(** Adding the header overflows for the last seven sizes: [malloc] answers
    with a block that has no byte after its header. *)
Lemma nunits_wraps nbytes : 4294967289 ≤ nbytes < 4294967296 → nunits nbytes = 1.
Proof.
  intros Hn. unfold nunits. assert (u32 (nbytes + 8 - 1) = nbytes - 4294967289) as ->.
  { unfold u32, two32. replace (nbytes + 8 - 1) with (nbytes - 4294967289 + 1 * 4294967296) by lia. rewrite Z_mod_plus_full, Z.mod_small by lia. done. }
  rewrite Z.div_small by lia. done.
Qed.

Module UmSample.
(** A process whose data ends at 24 and that may grow to 1 MB. *)
Definition lets (b n : Z) : bool := Z.leb (b + n) 1048576.
Definition fresh : heap := mkHeap ∅ 0 24.
Lemma lets_bound b n : lets b n = true → b + n < 2147483648.
Proof. unfold lets. rewrite Z.leb_le. lia. Qed.
Lemma fresh_ready : ready 16 24 fresh [] [].
Proof. by right. Qed.
(** The heap once 100 bytes are taken and given back. *)
Definition used : heap := match malloc 16 24 lets 10 100 fresh with Ok (_, h) => h | Err _ => fresh end.
Definition used_block : Z * Z := (32680, 14).

Lemma malloc_gives_fresh_block_witness : malloc 16 24 lets 10 100 fresh = Ok (32688, used) ∧
  ∃ F', heap_ok 16 24 used F' [used_block].
Proof.
  split; [vm_compute; reflexivity|].
  pose proof (malloc_gives_fresh_block 16 24 ltac:(lia) ltac:(lia) lets lets_bound fresh [] [] 100 10 fresh_ready ltac:(lia) ltac:(simpl; lia)) as H.
  unfold wp in H. assert (malloc 16 24 lets 10 100 fresh = Ok (32688, used)) as E by (vm_compute; reflexivity). rewrite E in H.
  destruct H as [_ [(E0 & _)|(F' & H & _)]]; [by vm_compute in E0|]. exists F'. exact H.
Defined.

Lemma used_ok : heap_ok 16 24 used [(24, 4082)] [used_block].
Proof.
  split.
  - vm_compute. done.
  - by exists 0%nat.
  - vm_compute. done.
  - intros x. change (h_brk used) with 32792. unfold used_block. simpl. unfold covers. simpl. repeat case_decide; lia.
  - intros b Hb. unfold used_block in Hb. simpl in Hb. rewrite !elem_of_cons in Hb. destruct Hb as [->|[->|Hb]]; [done|done|by apply elem_of_nil in Hb].
  - intros b Hb. unfold used_block in Hb. simpl in Hb. rewrite !elem_of_cons in Hb. destruct Hb as [->|[->|Hb]]; [done|done|by apply elem_of_nil in Hb].
  - intros b ->%list_elem_of_singleton. vm_compute. done.
  - by vm_compute.
  - by vm_compute.
Qed.
Lemma free_returns_block_witness : ∃ h', free 16 24 10 32688 used = Ok (tt, h') ∧ ∃ F', heap_ok 16 24 h' F' [].
Proof.
  pose proof (free_returns_block 16 24 ltac:(lia) ltac:(lia) used [(24, 4082)] [] [] used_block 10 used_ok ltac:(simpl; lia)) as H. unfold wp in H.
  change (used_block.1 + 8) with 32688 in H. destruct (free 16 24 10 32688 used) as [[[] h']|e]; [|done]. exists h'. split; [done|].
  destruct H as (_ & _ & F' & H & _). by exists F'.
Defined.
End UmSample.
Close Scope Z_scope.
