(* ===== verification/Grep.v ===== *)
(** * grep ([src/xv6-public/grep.c])

    The pattern matcher of Kernighan and Pike on NUL-free byte lists (a C
    string up to its NUL), with the declarative meaning of patterns, and the
    loop of [grep] over its buffer.  A file descriptor is what the next
    [read]s can return: a list of chunks, of which one [read] returns a
    non-empty prefix of the first. *)

From S2P Require Import Prelude.
From S2P Require Import Strings.

Open Scope Z_scope.

Definition CARET : Z := 94.
Definition DOT : Z := 46.
Definition STAR : Z := 42.
Definition DOLLAR : Z := 36.
Definition NL : Z := 10.

(** ** The matcher *)

(** [matchstar c re text], where [here] is [matchhere re]. *)
Fixpoint matchstar (c : Z) (here : list Z → bool) (text : list Z) : bool :=
  if here text then true
  else match text with
       | [] => false
       | t :: text => if Z.eqb t c || Z.eqb c DOT then matchstar c here text else false
       end.

Fixpoint matchhere (re text : list Z) : bool :=
  match re with
  | [] => true
  | c :: re1 =>
      match re1 with
      | d :: re2 =>
          if Z.eqb d STAR then matchstar c (matchhere re2) text
          else match text with
               | [] => false
               | t :: text => if Z.eqb c DOT || Z.eqb c t then matchhere re1 text else false
               end
      | [] =>
          if Z.eqb c DOLLAR then match text with [] => true | _ => false end
          else match text with
               | [] => false
               | t :: text => if Z.eqb c DOT || Z.eqb c t then matchhere re1 text else false
               end
      end
  end.

Fixpoint match_anywhere (re text : list Z) : bool :=
  if matchhere re text then true
  else match text with [] => false | _ :: text => match_anywhere re text end.

Definition match_ (re text : list Z) : bool :=
  match re with
  | [] => match_anywhere re text
  | c :: re' => if Z.eqb c CARET then matchhere re' text else match_anywhere re text
  end.

(** ** The loop over the buffer *)

Record gstate := mkG { g_fd : list (list Z); g_buf : list Z; g_out : list Z }.
Definition BUFSZ : nat := 1024.

Abbreviation GM := (M gstate).

Definition g_read (m : nat) : GM nat :=
  s ← gets id;
  match g_fd s with
  | [] => mret 0%nat
  | c :: fd =>
      let n := (BUFSZ - m - 1)%nat in
      let data := take n c in
      let fd' := match drop n c with [] => fd | r => r :: fd end in
      modify (λ s, mkG fd' (take m (g_buf s) ++ data ++ drop (m + length data) (g_buf s)) (g_out s));;
      mret (length data)
  end.

Definition g_store (i : nat) (v : Z) : GM unit :=
  s ← gets id;
  if decide (i < length (g_buf s))%nat then modify (λ s, mkG (g_fd s) (<[i := v]> (g_buf s)) (g_out s))
  else fail OutOfBounds.

(** [strchr] of [ulib.c], from index [p] of the buffer on. *)
Fixpoint chr (c : Z) (l : list Z) (i : nat) : GM (option nat) :=
  match l with
  | [] => fail OutOfBounds
  | x :: l => if Z.eqb x 0 then mret None else if Z.eqb x c then mret (Some i) else chr c l (S i)
  end.
Definition strchr (p : nat) (c : Z) : GM (option nat) :=
  b ← gets g_buf;
  chr c (drop p b) p.

(** The next line of the buffer; the answer at the end is where the rest
    starts. *)
Definition grep_line (pattern : list Z) (p : nat) : GM (nat + nat) :=
  q ← strchr p NL;
  match q with
  | None => mret (inr p)
  | Some q =>
      g_store q 0;;
      b ← gets g_buf;
      (if match_ pattern (cstr (drop p b)) then
         g_store q NL;;
         modify (λ s, mkG (g_fd s) (g_buf s) (g_out s ++ take (q + 1 - p) (drop p (g_buf s))))
       else mret tt);;
      mret (inl (q + 1)%nat)
  end.
Definition grep_lines (pattern : list Z) : GM nat := loop (S BUFSZ) (grep_line pattern) 0%nat.

Definition grep (fuel : nat) (pattern : list Z) : GM unit :=
  loop fuel (λ m,
    n ← g_read m;
    if decide (n = 0%nat) then mret (inr tt)
    else
      let m := (m + n)%nat in
      g_store m 0;;
      p ← grep_lines pattern;
      let m := if decide (p = 0%nat) then 0%nat else m in
      if decide (0 < m)%nat then
        let m := (m - p)%nat in
        modify (λ s, mkG (g_fd s) (take m (drop p (g_buf s)) ++ drop m (g_buf s)) (g_out s));;
        mret (inl m)
      else mret (inl m)) 0%nat.

(** [main] with the arguments after [argv[0]]; [files] is what [open] finds:
    the pieces in which a file is read. *)
Definition grep_print (l : list Z) : GM unit := modify (λ s, mkG (g_fd s) (g_buf s) (g_out s ++ l)).
Definition grep_open (files : gmap (list Z) (list (list Z))) (a : list Z) : GM Z :=
  match files !! a with
  | Some c => modify (λ s, mkG c (g_buf s) (g_out s));; mret 3
  | None => mret (-1)
  end.
Definition GREP_OPEN : list Z := [103; 114; 101; 112; 58; 32; 99; 97; 110; 110; 111; 116; 32; 111; 112; 101; 110; 32].
Fixpoint grep_files (fuel : nat) (files : gmap (list Z) (list (list Z))) (pattern : list Z) (args : list (list Z)) : GM unit :=
  match args with
  | [] => mret tt
  | a :: args =>
      fd ← grep_open files a;
      if Z.ltb fd 0 then grep_print (GREP_OPEN ++ a ++ [NL])
      else grep fuel pattern;; grep_files fuel files pattern args
  end.
Definition grep_main (fuel : nat) (files : gmap (list Z) (list (list Z))) (args : list (list Z)) : GM unit :=
  match args with
  | [] => mret tt                            (* the usage goes to descriptor 2 *)
  | [pattern] => grep fuel pattern
  | pattern :: args => grep_files fuel files pattern args
  end.

(** ** What a pattern means *)

(** A pattern is a sequence of characters, starred characters and possibly
    the end of the text. *)
Inductive item := One (c : Z) | Many (c : Z) | End.

Fixpoint items (re : list Z) : list item :=
  match re with
  | [] => []
  | c :: re1 =>
      match re1 with
      | d :: re2 => if Z.eqb d STAR then Many c :: items re2 else One c :: items re1
      | [] => if Z.eqb c DOLLAR then [End] else [One c]
      end
  end.

Definition fits_char (c t : Z) : Prop := c = DOT ∨ c = t.

(** [covers its w post]: the items match exactly [w], before the text [post]. *)
Inductive covers : list item → list Z → list Z → Prop :=
| cov_nil post : covers [] [] post
| cov_one c t its w post : fits_char c t → covers its w post → covers (One c :: its) (t :: w) post
| cov_many c ts its w post : Forall (fits_char c) ts → covers its w post → covers (Many c :: its) (ts ++ w) post
| cov_end its w : covers its w [] → w = [] → covers (End :: its) w [].

Lemma matchstar_spec c here text :
  matchstar c here text = true ↔ ∃ ts rest, text = ts ++ rest ∧ Forall (fits_char c) ts ∧ here rest = true.
Proof.
  induction text as [|t text IH]; simpl.
  - destruct (here []) eqn:E; split; try done.
    + intros _. by exists [], [].
    + intros (ts & rest & H & _ & Hh). symmetry in H. apply app_nil in H as [-> ->]. by rewrite E in Hh.
  - destruct (here (t :: text)) eqn:E.
    + split; [|done]. intros _. by exists [], (t :: text).
    + assert ((Z.eqb t c || Z.eqb c DOT = true) ↔ fits_char c t) as Hc.
      { unfold fits_char. rewrite orb_true_iff, !Z.eqb_eq. naive_solver. }
      destruct (Z.eqb t c || Z.eqb c DOT); split; try done.
      * intros (ts & rest & -> & F & H)%IH. exists (t :: ts), rest. split_and!; [done|constructor; [by apply Hc|done]|done].
      * intros (ts & rest & H & F & Hh). apply IH. destruct ts as [|t' ts]; simpl in H; [subst rest; by rewrite E in Hh|].
        injection H as <- ->. exists ts, rest. split_and!; [done|by inversion F|done].
      * intros (ts & rest & H & F & Hh). destruct ts as [|t' ts]; simpl in H; [subst rest; by rewrite E in Hh|].
        injection H as <- ->. apply Hc. by inversion F.
Qed.

Lemma one_char c t : (Z.eqb c DOT || Z.eqb c t) = true ↔ fits_char c t.
Proof. unfold fits_char. by rewrite orb_true_iff, !Z.eqb_eq. Qed.

Lemma one_step (here : list Z → bool) c its text :
  (∀ text, here text = true ↔ ∃ w post, text = w ++ post ∧ covers its w post) →
  match text with [] => false | t :: text => if Z.eqb c DOT || Z.eqb c t then here text else false end = true ↔
  ∃ w post, text = w ++ post ∧ covers (One c :: its) w post.
Proof.
  intros IH. destruct text as [|t text].
  - split; [done|]. intros (w & post & E & H). inversion H; subst. done.
  - pose proof (one_char c t) as Hc. destruct (Z.eqb c DOT || Z.eqb c t).
    + rewrite IH. split.
      * intros (w & post & -> & H). exists (t :: w), post. split; [done|]. constructor; [by apply Hc|done].
      * intros (w & post & E & H). inversion H as [|? ? ? w' ? ? Hw| |]; subst. injection E as <- ->. by exists w', post.
    + split; [done|]. intros (w & post & E & H). inversion H as [|? ? ? w' ? Hf| |]; subst. injection E as <- ->. by apply Hc.
Qed.

Lemma matchhere_spec re text : matchhere re text = true ↔ ∃ w post, text = w ++ post ∧ covers (items re) w post.
Proof.
  revert text. assert (∃ n, (length re < n)%nat) as [n Hn] by (exists (S (length re)); lia).
  revert re Hn. induction n as [|n IH]; intros re Hn text; [lia|]. destruct re as [|c [|d re2]]; simpl in *.
  - split; [|done]. intros _. exists [], text. split; [done|constructor].
  - destruct (Z.eqb_spec c DOLLAR).
    + split.
      * destruct text; [|done]. intros _. exists [], []. split; [done|]. by repeat constructor.
      * intros (w & post & -> & H). inversion H as [| | |its w' H1 E]; subst. done.
    + apply (one_step (λ _, true) c []). intros t'. split; [|done]. intros _. exists [], t'. split; [done|constructor].
  - destruct (Z.eqb_spec d STAR).
    + rewrite matchstar_spec. split.
      * intros (ts & rest & -> & F & H). apply IH in H as (w & post & -> & H); [|lia]. exists (ts ++ w), post.
        split; [by rewrite app_assoc|]. by constructor.
      * intros (w & post & -> & H). inversion H as [| |? ts ? w' ? F H'|]; subst. exists ts, (w' ++ post).
        split_and!; [by rewrite app_assoc|done|]. apply IH; [lia|]. by exists w', post.
    + apply (one_step (matchhere (d :: re2)) c (items (d :: re2))). intros t'. apply IH. simpl. lia.
Qed.

(** C28: [match] finds exactly the texts in which the pattern occurs: for
    some split of the text into three parts the items of the pattern cover
    the middle one, where a pattern that starts with [^] has to cover a
    prefix; a final [$] only fits at the end of the text, [c*] stands for any
    number of characters and [.] for any character. *)
Theorem match_finds_occurrences re text :
  match_ re text = true ↔ ∃ pre w post, text = pre ++ w ++ post ∧
    match re with
    | c :: re' => if decide (c = CARET) then pre = [] ∧ covers (items re') w post else covers (items re) w post
    | [] => True
    end.
Proof.
  assert (∀ re, match_anywhere re text = true ↔ ∃ pre w post, text = pre ++ w ++ post ∧ covers (items re) w post) as Hany.
  { clear re. intros re. induction text as [|t text IH]; simpl; destruct (matchhere re _) eqn:E.
    - split; [|done]. intros _. apply matchhere_spec in E as (w & post & E & H). by exists [], w, post.
    - split; [done|]. intros (pre & w & post & H & Hc). symmetry in H. apply app_nil in H as [-> H].
      rewrite (proj2 (matchhere_spec re [])) in E; [done|]. by exists w, post.
    - split; [|done]. intros _. apply matchhere_spec in E as (w & post & E & H). by exists [], w, post.
    - rewrite IH. split.
      + intros (pre & w & post & -> & H). by exists (t :: pre), w, post.
      + intros (pre & w & post & H & Hc). destruct pre as [|t' pre]; simpl in H.
        * rewrite (proj2 (matchhere_spec re _)) in E; [done|]. by exists w, post.
        * injection H as <- ->. by exists pre, w, post. }
  unfold match_. destruct re as [|c re'].
  - rewrite Hany. split; [intros (pre & w & post & H & _); by exists pre, w, post|].
    intros _. exists [], [], text. split; [done|constructor].
  - destruct (Z.eqb_spec c CARET) as [->|Hc].
    + destruct (decide (CARET = CARET)) as [_|Hn]; [|by destruct Hn]. rewrite matchhere_spec. split.
      * intros (w & post & -> & H). by exists [], w, post.
      * intros (pre & w & post & -> & -> & H). by exists w, post.
    + destruct (decide (c = CARET)) as [|_]; [done|]. apply Hany.
Qed.

(** ** Which lines are printed *)

(** The terminated lines of a text, [cur] being the start of the first. *)
Fixpoint lines (cur l : list Z) : list (list Z) :=
  match l with
  | [] => []
  | c :: l => if decide (c = NL) then cur :: lines [] l else lines (cur ++ [c]) l
  end.

Definition show (pattern : list Z) (ls : list (list Z)) : list Z :=
  concat ((λ x, x ++ [NL]) <$> filter (λ x, match_ pattern x = true) ls).

Lemma lines_open cur a l : NL ∉ a → lines cur (a ++ l) = lines (cur ++ a) l.
Proof.
  revert cur. induction a as [|c a IH]; intros cur Ha; simpl; [by rewrite app_nil_r|].
  apply not_elem_of_cons in Ha as [Hc Ha]. rewrite decide_False by done. rewrite IH by done. by rewrite <-app_assoc.
Qed.

Lemma lines_line a l : NL ∉ a → lines [] (a ++ NL :: l) = a :: lines [] l.
Proof. intros Ha. by rewrite lines_open. Qed.

Lemma lines_none a : NL ∉ a → lines [] a = [].
Proof. intros Ha. rewrite <-(app_nil_r a). by rewrite lines_open. Qed.

Lemma show_cons pattern x ls : show pattern (x :: ls) = (if match_ pattern x then x ++ [NL] else []) ++ show pattern ls.
Proof. unfold show. rewrite filter_cons. destruct (match_ pattern x); by rewrite ?decide_True, ?decide_False by done. Qed.

Lemma show_app pattern l1 l2 : show pattern (l1 ++ l2) = show pattern l1 ++ show pattern l2.
Proof. unfold show. by rewrite filter_app, fmap_app, concat_app. Qed.

(** Cutting a text after a line. *)
Inductive whole : list Z → Prop :=
| wh_nil : whole []
| wh_line a l : NL ∉ a → whole l → whole (a ++ NL :: l).

Lemma lines_whole a l : whole a → lines [] (a ++ l) = lines [] a ++ lines [] l.
Proof.
  induction 1 as [|b a Hb _ IH]; [done|]. rewrite <-app_assoc. simpl. rewrite !lines_line by done. simpl. by rewrite IH.
Qed.

Lemma first_line w : NL ∉ w ∨ ∃ a w', w = a ++ NL :: w' ∧ NL ∉ a.
Proof.
  induction w as [|c w IH]; [left; apply not_elem_of_nil|]. destruct (decide (c = NL)) as [->|Hc].
  - right. exists [], w. split; [done|apply not_elem_of_nil].
  - destruct IH as [H|(a & w' & -> & H)]; [left; by apply not_elem_of_cons|].
    right. exists (c :: a), w'. split; [done|]. by apply not_elem_of_cons.
Qed.

Lemma cstr_stop a l : 0 ∉ a → cstr (a ++ 0 :: l) = a.
Proof.
  induction a as [|c a IH]; intros Ha; simpl; [done|]. apply not_elem_of_cons in Ha as [Hc Ha].
  rewrite (proj2 (Z.eqb_neq _ _)) by done. by rewrite IH.
Qed.

Lemma chr_none w junk i s : NL ∉ w → 0 ∉ w → chr NL (w ++ 0 :: junk) i s = Ok (None, s).
Proof.
  revert i. induction w as [|c w IH]; intros i Hn Hz; simpl; [done|].
  apply not_elem_of_cons in Hn as [Hn1 Hn], Hz as [Hz1 Hz]. rewrite !(proj2 (Z.eqb_neq _ _)) by done. by apply IH.
Qed.

Lemma chr_some a l i s : NL ∉ a → 0 ∉ a → chr NL (a ++ NL :: l) i s = Ok (Some (i + length a)%nat, s).
Proof.
  revert i. induction a as [|c a IH]; intros i Hn Hz; simpl; [by rewrite Nat.add_0_r|].
  apply not_elem_of_cons in Hn as [Hn1 Hn], Hz as [Hz1 Hz]. rewrite !(proj2 (Z.eqb_neq _ _)) by done.
  rewrite IH by done. do 3 f_equal. lia.
Qed.

Lemma g_store_run h x l v s : g_buf s = h ++ x :: l → g_store (length h) v s = Ok (tt, mkG (g_fd s) (h ++ v :: l) (g_out s)).
Proof.
  intros E. unfold g_store, mbind, M_bind, gets, id. rewrite decide_True by (rewrite E, length_app; simpl; lia).
  unfold modify. rewrite E. do 3 f_equal. by rewrite (insert_app_r_alt h _ _ v) by lia; rewrite Nat.sub_diag.
Qed.

Lemma grep_line_last pattern h w junk s :
  g_buf s = h ++ w ++ 0 :: junk → 0 ∉ w → NL ∉ w → grep_line pattern (length h) s = Ok (inr (length h), s).
Proof.
  intros E Hz Hn. unfold grep_line, strchr, mbind, M_bind, gets. rewrite E, drop_app_length. by rewrite chr_none.
Qed.

Lemma grep_line_next pattern h a w junk s :
  g_buf s = h ++ (a ++ NL :: w) ++ 0 :: junk → 0 ∉ a → NL ∉ a →
  wp (grep_line pattern (length h)) (λ r s', ∃ x, r = inl (length (h ++ a ++ [x])) ∧ g_fd s' = g_fd s ∧
    g_buf s' = (h ++ a ++ [x]) ++ w ++ 0 :: junk ∧ g_out s' = g_out s ++ (if match_ pattern a then a ++ [NL] else [])) s.
Proof.
  intros E Hz Hn. unfold grep_line. apply wp_bind. eapply wp_eq.
  { unfold strchr, mbind, M_bind, gets. rewrite E, drop_app_length, <-app_assoc. simpl. by apply chr_some. }
  assert (g_buf s = (h ++ a) ++ NL :: w ++ 0 :: junk) as E1 by (rewrite E, <-!app_assoc; done).
  apply wp_bind. rewrite <-length_app. eapply wp_eq; [by eapply g_store_run|]. apply wp_bind, wp_gets. cbn [g_buf].
  rewrite <-(app_assoc h a), drop_app_length, cstr_stop by done. apply wp_bind. destruct (match_ pattern a).
  - apply wp_bind. eapply wp_eq; [apply (g_store_run (h ++ a) 0 (w ++ 0 :: junk)); cbn [g_buf]; by rewrite <-app_assoc|].
    apply wp_modify, wp_ret. exists NL. cbn [g_buf g_fd g_out]. split_and!; [|done|by rewrite <-!app_assoc|].
    + f_equal. rewrite !length_app. simpl. lia.
    + f_equal. rewrite <-(app_assoc h a), drop_app_length. rewrite length_app.
      replace (length h + length a + 1 - length h)%nat with (length (a ++ [NL])) by (rewrite length_app; simpl; lia).
      replace (a ++ NL :: w ++ 0 :: junk) with ((a ++ [NL]) ++ w ++ 0 :: junk) by (rewrite <-app_assoc; done). apply take_app_length.
  - apply wp_ret, wp_ret. exists 0. cbn [g_buf g_fd g_out]. split_and!; [|done|by rewrite <-!app_assoc|by rewrite app_nil_r].
    f_equal. rewrite !length_app. simpl. lia.
Qed.

Lemma grep_lines_run pattern n : ∀ fuel h w junk s,
  (length w < n)%nat → (n ≤ fuel)%nat → g_buf s = h ++ w ++ 0 :: junk → 0 ∉ w →
  wp (loop fuel (grep_line pattern) (length h)) (λ p s', ∃ h' a t, p = length h' ∧ w = a ++ t ∧ whole a ∧ NL ∉ t ∧
    length h' = (length h + length a)%nat ∧ g_fd s' = g_fd s ∧ g_buf s' = h' ++ t ++ 0 :: junk ∧
    g_out s' = g_out s ++ show pattern (lines [] w)) s.
Proof.
  induction n as [|n IH]; intros fuel h w junk s Hw Hf E Hz; [lia|]. destruct fuel as [|fuel]; [lia|].
  cbn [loop]. apply wp_bind. destruct (first_line w) as [Hn|(a & w' & -> & Hn)].
  - eapply wp_eq; [by eapply grep_line_last|]. apply wp_ret. exists h, [], w.
    rewrite lines_none by done. split_and!; try done; [apply wh_nil|by rewrite app_nil_r].
  - apply not_elem_of_app in Hz as [Hza Hzw]. apply not_elem_of_cons in Hzw as [_ Hzw].
    wcall (grep_line_next pattern h a w' junk s E Hza Hn). intros r s1 (x & -> & F1 & B1 & O1). rewrite length_app in Hw. simpl in Hw.
    wcall (IH fuel (h ++ a ++ [x]) w' junk s1); [lia|lia|done|done|]. intros p s2 (h' & b & t & -> & -> & Wb & Ht & Hl & F2 & B2 & O2).
    exists h', (a ++ NL :: b), t. split_and!; try done.
    + by rewrite <-app_assoc.
    + by constructor.
    + rewrite Hl, !length_app. simpl. lia.
    + by rewrite F2.
    + rewrite O2, O1, lines_line, show_cons by done. by rewrite <-app_assoc.
Qed.

(** *** The rounds *)

(** What is left of a file of which [r] has not been read. *)
Definition rest_fd (r : list Z) : list (list Z) := match r with [] => [] | _ => [r] end.

(** Every terminated line fits into the buffer. *)
Definition short (l : list Z) : Prop := Forall (λ x, (length x < BUFSZ - 1)%nat) (lines [] l).

Record grep_inv (pattern res t r : list Z) (s : gstate) : Prop := {
  gr_fd : g_fd s = rest_fd r;
  gr_buf : ∃ junk, g_buf s = t ++ junk;
  gr_len : length (g_buf s) = BUFSZ;
  gr_small : (length t < BUFSZ - 1)%nat;
  gr_clean : NL ∉ t ∧ 0 ∉ t ∧ 0 ∉ r;
  gr_short : short (t ++ r);
  gr_out : g_out s ++ show pattern (lines [] (t ++ r)) = res
}.

Lemma grep_read_run t r s : g_fd s = rest_fd r → r ≠ [] → (length t < BUFSZ - 1)%nat → length (g_buf s) = BUFSZ → (∃ junk, g_buf s = t ++ junk) →
  ∃ data r' x junk, r = data ++ r' ∧ data ≠ [] ∧ (length t + length data ≤ BUFSZ - 1)%nat ∧
    (r' ≠ [] → length t + length data = BUFSZ - 1)%nat ∧
    g_read (length t) s = Ok (length data, mkG (rest_fd r') ((t ++ data) ++ x :: junk) (g_out s)) ∧ (length (t ++ data) + S (length junk) = BUFSZ)%nat.
Proof.
  intros Hfd Hr Ht Hl (junk & Hb). destruct s as [fd b out]. simpl in *. subst fd b. unfold BUFSZ in *.
  set (n := (1024 - length t - 1)%nat). destruct r as [|c r]; [done|].
  assert (length (take n (c :: r)) = Nat.min n (S (length r))) as Hlen by (rewrite length_take; done).
  assert (1 ≤ n)%nat by (unfold n; lia). set (data := take n (c :: r)) in *. rewrite length_app in Hl.
  destruct (drop (length data) junk) as [|x junk'] eqn:Ej.
  { apply (f_equal length) in Ej. rewrite length_drop in Ej. simpl in Ej. unfold n in *. lia. }
  exists data, (drop n (c :: r)), x, junk'. split_and!.
  - symmetry. apply take_drop.
  - intros E. rewrite E in Hlen. simpl in Hlen. lia.
  - unfold n in *. lia.
  - intros Hd. destruct (decide (n ≤ S (length r))%nat); [unfold n in *; lia|]. destruct Hd. apply drop_ge. simpl. lia.
  - unfold g_read, mbind, M_bind, gets, id, modify, mret, M_ret. cbn [rest_fd g_fd g_buf g_out]. change (BUFSZ - length t - 1)%nat with n. fold data.
    do 3 f_equal.
    + unfold rest_fd. by destruct (drop n (c :: r)).
    + rewrite take_app_length, <-app_assoc. f_equal. f_equal. rewrite <-drop_drop, drop_app_length. done.
  - apply (f_equal length) in Ej. rewrite length_drop in Ej. simpl in Ej. rewrite length_app. unfold n in *. lia.
Qed.

Lemma no_more_lines t r : short (t ++ r) → NL ∉ t → (length t = BUFSZ - 1)%nat → NL ∉ r.
Proof.
  intros Hs Ht Hl. destruct (first_line r) as [|(a & r' & -> & Ha)]; [done|]. unfold short in Hs.
  rewrite app_assoc, lines_line in Hs by (by apply not_elem_of_app). inversion Hs as [|? ? H _]. rewrite length_app in H. lia.
Qed.

Lemma grep_round pattern out t r s :
  grep_inv pattern out t r s → r ≠ [] →
  wp (n ← g_read (length t);
      if decide (n = 0%nat) then mret (inr tt)
      else
        let m := (length t + n)%nat in
        g_store m 0;;
        p ← grep_lines pattern;
        let m := if decide (p = 0%nat) then 0%nat else m in
        if decide (0 < m)%nat then
          let m := (m - p)%nat in
          modify (λ s, mkG (g_fd s) (take m (drop p (g_buf s)) ++ drop m (g_buf s)) (g_out s));;
          mret (inl m)
        else mret (inl m))
    (λ res s', ∃ t' r', res = inl (length t') ∧ grep_inv pattern out t' r' s' ∧ (length r' < length r)%nat) s.
Proof.
  intros [Hfd Hb Hl Ht (Hn & Hz & Hzr) Hs Ho] Hr. destruct (grep_read_run t r s Hfd Hr Ht Hl Hb) as (data & r' & x & junk & -> & Hd & Hmax & Hfull & Hrd & Hlj).
  apply wp_bind. eapply wp_eq; [exact Hrd|]. clear Hrd. rewrite decide_False by (by intros ?%nil_length_inv). cbv zeta.
  apply not_elem_of_app in Hzr as [Hzd Hzr]. set (w := t ++ data) in *.
  assert (0 ∉ w) as Hzw by (by apply not_elem_of_app). assert (length t + length data = length w)%nat as El by (unfold w; by rewrite length_app). rewrite El.
  apply wp_bind. eapply wp_eq; [apply (g_store_run w x junk); done|]. apply wp_bind.
  wcall (grep_lines_run pattern (S BUFSZ) (S BUFSZ) [] w junk); [unfold BUFSZ in *; lia|done|done|done|].
  intros p s1 (h & a & t' & -> & Ew & Wa & Ht' & Hh & F1 & B1 & O1). cbn [g_fd g_out] in F1, O1. simpl in Hh.
  assert (length r' < length (data ++ r'))%nat as Hdec by (rewrite length_app; destruct data; [done|simpl; lia]).
  assert (lines [] (t ++ data ++ r') = lines [] w ++ lines [] (t' ++ r')) as Elines.
  { rewrite app_assoc. fold w. rewrite Ew, <-app_assoc, (lines_whole a (t' ++ r')), (lines_whole a t') by done. by rewrite (lines_none t'), app_nil_r. }
  unfold short in Hs. rewrite Elines in Hs, Ho. apply Forall_app in Hs as [_ Hs']. rewrite show_app, app_assoc, <-O1 in Ho.
  assert (0 ∉ t') as Hzt by (rewrite Ew in Hzw; by apply not_elem_of_app in Hzw as [_ ?]).
  assert (length (g_buf s1) = BUFSZ) as Hlb.
  { rewrite B1, !length_app, Hh. simpl. apply (f_equal length) in Ew. rewrite length_app in Ew. unfold w in *. lia. }
  destruct (decide (length h = 0%nat)) as [E0|E0].
  - destruct h; [|done]. simpl in Hh. assert (a = []) as -> by (apply nil_length_inv; lia). simpl in Ew, B1. subst t'.
    rewrite decide_False by lia. apply wp_ret. exists [], r'. split_and!; [done| |done].
    assert (r' = [] ∨ NL ∉ r') as Hrest.
    { destruct (decide (r' = [])); [by left|right]. eapply no_more_lines; [exact Hs'|done|]. rewrite <-El. by apply Hfull. }
    assert (lines [] r' = [] ∧ lines [] (w ++ r') = []) as [E1 E2].
    { destruct Hrest as [->|Hrest]; [split; [done|]; rewrite app_nil_r; by apply lines_none|].
      rewrite !lines_none; [done| |done]. by apply not_elem_of_app. }
    split; try done.
    + by exists (g_buf s1).
    + unfold BUFSZ. simpl. lia.
    + split_and!; [apply not_elem_of_nil|apply not_elem_of_nil|done].
    + unfold short. simpl. by rewrite E1.
    + simpl. rewrite E1. by rewrite E2 in Ho.
  - assert (length w = length h + length t')%nat as Elw by (rewrite Ew, length_app; lia).
    rewrite decide_True by lia. apply wp_bind, wp_modify, wp_ret. exists t', r'.
    replace (length w - length h)%nat with (length t') by lia. split_and!; [done| |done].
    split; cbn [g_fd g_buf g_out]; try done.
    + exists (drop (length t') (g_buf s1)). by rewrite B1, drop_app_length, take_app_length.
    + rewrite length_app, length_take, !length_drop, Hlb. rewrite B1, !length_app in Hlb. lia.
    + unfold BUFSZ in *. lia.
Qed.

(** On a file whose terminated lines all fit into its buffer, [grep]
    prints exactly the terminated lines that the pattern matches, in order,
    each with its newline, however the lines fall across the 1023-byte reads;
    it ends with enough fuel for one round per byte. *)
Theorem grep_prints_matching_lines pattern l fuel s :
  g_fd s = rest_fd l → 0 ∉ l → short l → length (g_buf s) = BUFSZ → (length l < fuel)%nat →
  wp (grep fuel pattern) (λ _ s', g_out s' = g_out s ++ concat ((λ x, x ++ [NL]) <$> filter (λ x, match_ pattern x = true) (lines [] l))) s.
Proof.
  intros Hfd Hz Hs Hl Hf. fold (show pattern (lines [] l)).
  apply (wp_loop (λ n m s', ∃ t r, n = length r ∧ m = length t ∧ grep_inv pattern (g_out s ++ show pattern (lines [] l)) t r s')) with (n := length l); [|lia|].
  - intros n m s1 (t & r & -> & -> & I). destruct (decide (r = [])) as [->|Hr].
    + apply wp_bind. eapply wp_eq; [unfold g_read, mbind, M_bind, gets, id; by rewrite (gr_fd _ _ _ _ _ I)|]. apply wp_ret.
      pose proof (gr_out _ _ _ _ _ I) as Ho. rewrite app_nil_r, lines_none in Ho by apply (gr_clean _ _ _ _ _ I).
      by rewrite <-Ho, app_nil_r.
    + wcall (grep_round pattern _ t r s1 I Hr). intros res s2 (t' & r' & -> & I' & Hlt). eauto 10.
  - exists [], l. split_and!; [done|done|]. split; try done; [by exists (g_buf s)|unfold BUFSZ; simpl; lia|].
    split_and!; [apply not_elem_of_nil|apply not_elem_of_nil|done].
Qed.

(** Three lines, two of which start with [a]. *)
Lemma grep_prints_matching_lines_witness :
  wp (grep 10 [94; 97]) (λ _ s', g_out s' = [97; 98; 10; 97; 10])
    (mkG [[97; 98; 10; 98; 97; 10; 97; 10]] (replicate 1024 0) []).
Proof.
  eapply wp_mono; [apply (grep_prints_matching_lines [94; 97] [97; 98; 10; 98; 97; 10; 97; 10] 10)|].
  - done.
  - apply (bool_decide_unpack _). vm_compute. exact I.
  - unfold short. apply (bool_decide_unpack _). vm_compute. exact I.
  - done.
  - simpl. lia.
  - intros [] s' ->. done.
Defined.

(** A line that arrives in two [read]s, as from a pipe, is lost: the part in
    the buffer is dropped when it has no newline. *)
Example grep_split_line :
  wp (grep 10 [97; 98]) (λ _ s', g_out s' = []) (mkG [[97]; [98; 10]] (replicate 1024 0) []) ∧ match_ [97; 98] [97; 98] = true.
Proof. split; vm_compute; done. Qed.

Close Scope Z_scope.
