(* ===== verification/UserProgs.v ===== *)
(** * cat, wc and echo ([src/xv6-public/cat.c], [wc.c], [echo.c])

    User programs over the calls they make: the class [FileCalls] is [open],
    [read], [write] and [close], and [FileLaws] what the theorems rely on of
    them: a read returns a non-empty piece of what is left, of any length up
    to the one asked for, and nothing at the end.  [printf] is the one of
    [UserLib], which writes one byte at a time.  A routine that calls [exit]
    returns [false]. *)

From S2P Require Import Prelude.
From S2P Require Import Strings.
From S2P Require Import UserLib.

Open Scope Z_scope.

Class FileCalls (S : Type) := {
  u_open : list Z → M S Z;                 (* open(path, 0) *)
  u_read : Z → nat → M S (Z * list Z);     (* the value and the bytes stored *)
  u_write : Z → list Z → M S Z;
  u_close : Z → M S Z
}.

Definition UBUF : nat := 512.

Section programs.
Context {S : Type} `{!FileCalls S}.
Abbreviation UM := (M S).

(** [printf(fd, fmt, ap...)]: [putc] is [write(fd, &c, 1)]. *)
Definition uprintf (fd : Z) (str : Z → list Z) (fmt ap : list Z) : UM unit :=
  match printf str fmt ap [] with
  | Ok (_, out) => for_each out (λ c, u_write fd [c];; mret tt)
  | Err e => fail e
  end.
(** A format with one string. *)
Definition uprint (fd : Z) (fmt s : list Z) : UM unit := uprintf fd (λ _, s) fmt [1].

(** [stat(n, st)] of [ulib.c]; [fstat] fills [*st]. *)
Definition stat (fstat : Z → UM Z) (n : list Z) : UM Z :=
  fd ← u_open n;
  if Z.ltb fd 0 then mret (-1)
  else
    r ← fstat fd;
    u_close fd;;
    mret r.

(** ** [cat] *)

Definition CAT_WRITE : list Z := [99; 97; 116; 58; 32; 119; 114; 105; 116; 101; 32; 101; 114; 114; 111; 114; 10].  (* cat: write error *)
Definition CAT_READ : list Z := [99; 97; 116; 58; 32; 114; 101; 97; 100; 32; 101; 114; 114; 111; 114; 10].          (* cat: read error *)
Definition CAT_OPEN : list Z :=
  [99; 97; 116; 58; 32; 99; 97; 110; 110; 111; 116; 32; 111; 112; 101; 110; 32; 37; 115; 10].                       (* cat: cannot open %s *)

Definition cat (fuel : nat) (fd : Z) : UM bool :=
  n ← loop fuel (λ _ : unit,
    r ← u_read fd UBUF;
    if Z.ltb 0 (fst r) then
      k ← u_write 1 (snd r);
      if negb (Z.eqb k (fst r)) then uprint 1 CAT_WRITE [];; mret (inr None) else mret (inl tt)
    else mret (inr (Some (fst r)))) tt;
  match n with
  | None => mret false
  | Some n => if Z.ltb n 0 then uprint 1 CAT_READ [];; mret false else mret true
  end.

(** [args] are [argv[1]], [argv[2]], ... *)
Fixpoint cat_files (fuel : nat) (args : list (list Z)) : UM unit :=
  match args with
  | [] => mret tt
  | a :: args =>
      fd ← u_open a;
      if Z.ltb fd 0 then uprint 1 CAT_OPEN a
      else
        ok ← cat fuel fd;
        if ok : bool then u_close fd;; cat_files fuel args else mret tt
  end.
Definition cat_main (fuel : nat) (args : list (list Z)) : UM unit :=
  match args with [] => cat fuel 0;; mret tt | _ => cat_files fuel args end.

(** ** [wc] *)

Definition WC_READ : list Z := [119; 99; 58; 32; 114; 101; 97; 100; 32; 101; 114; 114; 111; 114; 10].               (* wc: read error *)
Definition WC_OPEN : list Z :=
  [119; 99; 58; 32; 99; 97; 110; 110; 111; 116; 32; 111; 112; 101; 110; 32; 37; 115; 10].                           (* wc: cannot open %s *)
Definition WC_LINE : list Z := [37; 100; 32; 37; 100; 32; 37; 100; 32; 37; 115; 10].                                (* %d %d %d %s *)

(** [strchr(" \r\t\n\v", b)]: NUL is not found. *)
Definition space (b : Z) : bool := bool_decide (b ∈ [32; 13; 9; 10; 11]).

Record counts := mkCounts { n_l : Z; n_w : Z; n_c : Z; n_in : bool }.
Definition wc_byte (s : counts) (b : Z) : counts :=
  let c := s32 (n_c s + 1) in
  let l := if Z.eqb b 10 then s32 (n_l s + 1) else n_l s in
  if space b then mkCounts l (n_w s) c false
  else if negb (n_in s) then mkCounts l (s32 (n_w s + 1)) c true
  else mkCounts l (n_w s) c (n_in s).

Definition wc (fuel : nat) (fd : Z) (name : list Z) : UM bool :=
  r ← loop fuel (λ s,
    r ← u_read fd UBUF;
    if Z.ltb 0 (fst r) then mret (inl (foldl wc_byte s (snd r)))
    else mret (inr (s, fst r))) (mkCounts 0 0 0 false);
  let '(s, n) := r in
  if Z.ltb n 0 then
    uprint 1 WC_READ [];;
    mret false
  else
    uprintf 1 (λ _, name) WC_LINE [u32 (n_l s); u32 (n_w s); u32 (n_c s); 1];;
    mret true.

Fixpoint wc_files (fuel : nat) (args : list (list Z)) : UM unit :=
  match args with
  | [] => mret tt
  | a :: args =>
      fd ← u_open a;
      if Z.ltb fd 0 then uprint 1 WC_OPEN a
      else
        ok ← wc fuel fd a;
        if ok : bool then u_close fd;; wc_files fuel args else mret tt
  end.
Definition wc_main (fuel : nat) (args : list (list Z)) : UM unit :=
  match args with [] => wc fuel 0 [];; mret tt | _ => wc_files fuel args end.

(** ** [echo] *)

(** The strings are at 1 and 2. *)
Fixpoint echo_main (args : list (list Z)) : UM unit :=
  match args with
  | [] => mret tt
  | a :: args' =>
      let sep := match args' with [] => [10] | _ => [32] end in
      uprintf 1 (λ p, if Z.eqb p 1 then a else sep) [37; 115; 37; 115] [1; 2];;
      echo_main args'
  end.
End programs.

Close Scope Z_scope.
