(* ===== verification/UserProgsTheorems.v ===== *)
(** * What cat, wc and echo write ([src/xv6-public/cat.c], [wc.c], [echo.c])

    [cat] copies and [wc] counts, however the file arrives in pieces. *)

From S2P Require Import Prelude.
From S2P Require Import Strings.
From S2P Require Import Digits.
From S2P Require Import UserLib.
From S2P Require Import UserProgs.

Open Scope Z_scope.

(** What is left to read from a descriptor, what was written to the standard
    output, and the files there are. *)
Class FileLaws (S : Type) `{!FileCalls S} := {
  input : S → Z → list Z;
  output : S → list Z;
  content : S → list Z → option (list Z);
  read_spec fd n s : (0 < n)%nat → wp (u_read fd n) (λ r s', fst r = Z.of_nat (length (snd r)) ∧ input s fd = snd r ++ input s' fd ∧
    (snd r = [] → input s fd = []) ∧ output s' = output s ∧ content s' = content s) s;
  write_spec b s : wp (u_write 1 b) (λ k s', k = Z.of_nat (length b) ∧ output s' = output s ++ b ∧ input s' = input s ∧ content s' = content s) s;
  open_spec a s : wp (u_open a) (λ fd s', output s' = output s ∧ content s' = content s ∧
    match content s a with Some c => 0 ≤ fd ∧ input s' fd = c | None => fd < 0 end) s;
  close_spec fd s : wp (u_close fd) (λ _ s', output s' = output s ∧ content s' = content s) s
}.

(** ** Formats *)

Lemma printf_char str c fmt ap out (Q : unit → list Z → Prop) : c ≠ 37 → is_byte c → wp (printf_loop str fmt false ap) Q (out ++ [c]) → wp (printf_loop str (c :: fmt) false ap) Q out.
Proof.
  intros Hc Hb H. cbn [printf_loop]. rewrite (proj2 (Z.eqb_neq _ _)) by done. apply wp_bind. eapply wp_eq; [apply putc_run|]. by rewrite Z.mod_small.
Qed.
Lemma printf_int str x fmt ap out (Q : unit → list Z → Prop) : is_s32 x → (∀ txt, decimal x txt → wp (printf_loop str fmt false ap) Q (out ++ txt)) →
  wp (printf_loop str (37 :: 100 :: fmt) false (u32 x :: ap)) Q out.
Proof.
  intros Hx H. cbn [printf_loop]. change (Z.eqb 37 37) with true. cbv iota. apply wp_bind. unfold printf_conv. change (Z.eqb 100 100) with true. cbv iota.
  cbn [head tail]. wsteps. assert (s32 (u32 x) = x) as -> by (by apply s32_mod). wcall printint_decimal; [done|]. intros [] out' (txt & Ht & ->). wsteps. by apply H.
Qed.
Lemma printf_str str p fmt ap out (Q : unit → list Z → Prop) : p ≠ 0 → Forall is_byte (str p) → wp (printf_loop str fmt false ap) Q (out ++ str p) →
  wp (printf_loop str (37 :: 115 :: fmt) false (p :: ap)) Q out.
Proof.
  intros Hp Hb H. cbn [printf_loop]. change (Z.eqb 37 37) with true. cbv iota. apply wp_bind. unfold printf_conv. simpl Z.eqb. cbv iota. cbn [head tail orb].
  wsteps. rewrite (proj2 (Z.eqb_neq _ _)) by done. eapply wp_eq; [by apply puts_run|]. by wsteps.
Qed.

(** ** Counting *)

Definition starts (l : list Z) (i : nat) : bool :=
  match l !! i with
  | Some b => negb (space b) && match i with O => true | Datatypes.S j => match l !! j with Some a => space a | None => true end end
  | None => false
  end.
Definition nlines (l : list Z) : nat := length (filter (λ b, b = 10) l).
(** The places where a word starts. *)
Definition nwords (l : list Z) : nat := length (filter (λ i, starts l i = true) (seq 0 (length l))).

Definition inside (l : list Z) : bool := match last l with Some b => negb (space b) | None => false end.

Lemma filter_agree {A} (P Q : A → Prop) `{!∀ x, Decision (P x), !∀ x, Decision (Q x)} (l : list A) : (∀ x, x ∈ l → P x ↔ Q x) → filter P l = filter Q l.
Proof.
  induction l as [|a l IH]; intros Hpq; [done|]. rewrite !filter_cons, IH by (intros x Hx; apply Hpq; by right). specialize (Hpq a ltac:(left)).
  do 2 case_decide; tauto || done.
Qed.

Lemma nwords_snoc l b : nwords (l ++ [b]) = (nwords l + if negb (space b) && negb (inside l) then 1 else 0)%nat.
Proof.
  unfold nwords. rewrite length_app, Nat.add_1_r, seq_S, filter_app, length_app. f_equal.
  - f_equal. apply filter_agree. intros i Hi. apply elem_of_seq in Hi. unfold starts. rewrite lookup_app_l by lia.
    destruct (l !! i); [|done]. destruct i; [done|]. rewrite lookup_app_l by lia. done.
  - assert (starts (l ++ [b]) (length l) = negb (space b) && negb (inside l)) as E.
    { unfold starts. rewrite (list_lookup_middle l [] b (length l) eq_refl). unfold inside. f_equal.
      destruct l as [|a l]; [done|]. cbn [length]. rewrite lookup_app_l by (simpl; lia). rewrite last_lookup. cbn [length Nat.pred].
      destruct (lookup_lt_is_Some_2 (a :: l) (length l)) as [x ->]; [simpl; lia|]. by rewrite negb_involutive. }
    cbn [Nat.add]. rewrite filter_cons, filter_nil. rewrite <-E. case_decide as H; [by rewrite H|]. by destruct (starts _ _).
Qed.

Definition counted_all (l : list Z) : counts := mkCounts (Z.of_nat (nlines l)) (Z.of_nat (nwords l)) (Z.of_nat (length l)) (inside l).

Lemma nlines_le l : (nlines l ≤ length l)%nat.
Proof. apply length_filter. Qed.
Lemma nwords_le l : (nwords l ≤ length l)%nat.
Proof. unfold nwords. etrans; [apply length_filter|]. by rewrite length_seq. Qed.

Lemma wc_byte_counts l b : Z.of_nat (length l) + 1 < 2147483648 → wc_byte (counted_all l) b = counted_all (l ++ [b]).
Proof.
  intros Hl. pose proof (nlines_le l). pose proof (nwords_le l). unfold wc_byte, counted_all. cbn [n_l n_w n_c n_in]. rewrite !s32_small by (unfold is_s32; lia).
  assert (nlines (l ++ [b]) = (nlines l + if Z.eqb b 10 then 1 else 0)%nat) as ->.
  { unfold nlines. rewrite filter_app, length_app, filter_cons, filter_nil. f_equal. destruct (Z.eqb_spec b 10); [by rewrite decide_True|by rewrite decide_False]. }
  rewrite nwords_snoc, length_app. assert (inside (l ++ [b]) = negb (space b)) as -> by (unfold inside; by rewrite last_snoc).
  cbn [length]. destruct (space b), (inside l), (Z.eqb b 10); cbn [negb andb]; f_equal; lia.
Qed.
Lemma wc_bytes_count l k : Z.of_nat (length l + length k) < 2147483648 → foldl wc_byte (counted_all l) k = counted_all (l ++ k).
Proof.
  revert l. induction k as [|b k IH]; intros l Hl; [by rewrite app_nil_r|]. cbn [foldl length] in *. rewrite wc_byte_counts by lia. rewrite IH by (rewrite length_app; simpl; lia).
  by rewrite <-app_assoc.
Qed.

(** ** The programs *)

Section programs.
Context {S : Type} `{!FileCalls S} {L : FileLaws S}.
Implicit Types (s : S) (fd : Z).

Lemma emit_spec out s : wp (for_each out (λ c, u_write 1 [c];; mret tt)) (λ _ s', output s' = output s ++ out ∧ input s' = input s ∧ content s' = content s) s.
Proof using L.
  revert s. induction out as [|c out IH]; intros s; [apply wp_ret; by rewrite app_nil_r|]. cbn [for_each]. apply wp_bind, wp_bind.
  wcall (write_spec [c] s). intros k s1 (_ & O1 & I1 & C1). apply wp_ret. wcall (IH s1). intros [] s2 (O2 & I2 & C2).
  split_and!; [by rewrite O2, O1, <-app_assoc|congruence..].
Qed.

Lemma uprintf_spec str fmt ap (P : list Z → Prop) s : wp (printf str fmt ap) (λ _ out, P out) [] →
  wp (uprintf 1 str fmt ap) (λ _ s', ∃ out, P out ∧ output s' = output s ++ out ∧ input s' = input s ∧ content s' = content s) s.
Proof using L.
  intros H. unfold uprintf. unfold wp in H. destruct (printf str fmt ap []) as [[[] out]|e]; [|done]. wcall (emit_spec out s). intros [] s' H'. by exists out.
Qed.

(** The text of a message with one string, up to the string and after it. *)
Definition message (before name : list Z) : list Z := before ++ name ++ [10].

Lemma printf_message before name : Forall (λ c, c ≠ 37 ∧ is_byte c) before → Forall is_byte name →
  wp (printf (λ _, name) (before ++ [37; 115; 10]) [1]) (λ _ out, out = message before name) [].
Proof using Type.
  intros Hb Hn. assert (∀ out, wp (printf_loop (λ _, name) (before ++ [37; 115; 10]) false [1]) (λ _ o, o = out ++ message before name) out) as H; [|exact (H [])].
  induction Hb as [|c before [Hc Hcb] _ IH]; intros out.
  - cbn [app]. apply printf_str; [done|done|]. apply printf_char; [done|by unfold is_byte|]. apply wp_ret. by rewrite <-app_assoc.
  - cbn [app]. apply printf_char; [done|done|]. eapply wp_mono; [apply IH|]. intros [] o ->. unfold message. by rewrite <-app_assoc.
Qed.

(** A loop that reads a descriptor to its end. *)
Lemma read_all {A B} fuel fd (body : A → Z * list Z → M S (A + B)) (fin : A → B) (I : A → list Z → S → Prop) a s :
  (∀ a done_ r s, 0 < fst r → fst r = Z.of_nat (length (snd r)) → I a done_ s → wp (body a r) (λ x s', ∃ a', x = inl a' ∧ I a' (done_ ++ snd r) s' ∧ input s' fd = input s fd) s) →
  (∀ a done_ s s', output s' = output s → content s' = content s → I a done_ s → I a done_ s') →
  (∀ a r s, fst r = 0 → body a r s = Ok (inr (fin a), s)) →
  I a [] s → (length (input s fd) < fuel)%nat →
  wp (loop fuel (λ a, r ← u_read fd UBUF; body a r) a) (λ x s', ∃ a', x = fin a' ∧ I a' (input s fd) s') s.
Proof using Type.
  intros Hb Hf He HI Hfu. eapply (wp_loop (λ n a s1, ∃ done_, I a done_ s1 ∧ input s fd = done_ ++ input s1 fd ∧ n = length (input s1 fd))) with (n := length (input s fd)); [|lia|by exists []].
  intros n a1 s1 (done_ & H1 & E1 & ->). apply wp_bind. wcall (read_spec fd UBUF s1); [unfold UBUF; lia|]. intros r s2 (R1 & R2 & R3 & R4 & R5).
  specialize (Hf _ _ _ s2 R4 R5 H1). destruct (decide (snd r = [])) as [E|E].
  - assert (fst r = 0) as Er by (rewrite R1, E; done). eapply wp_eq; [by apply He|]. exists a1. split; [done|]. rewrite E1, (R3 E), app_nil_r. done.
  - assert (0 < fst r) as Hp by (rewrite R1; destruct (snd r); [done|simpl; lia]). wcall (Hb a1 done_ r s2 Hp R1 Hf). intros x s3 (a' & -> & H3 & E3).
    exists (length (input s3 fd)). split; [rewrite E3, R2, length_app; lia|]. exists (done_ ++ snd r). split_and!; [done| |done]. by rewrite E1, R2, E3, <-app_assoc.
Qed.

(** *** cat *)

Lemma cat_spec fuel fd s : (length (input s fd) < fuel)%nat →
  wp (cat fuel fd) (λ ok s', ok = true ∧ output s' = output s ++ input s fd ∧ content s' = content s) s.
Proof using L.
  intros Hfu. unfold cat. apply wp_bind.
  eapply wp_mono; [apply (read_all fuel fd _ (λ _ : unit, Some 0) (λ _ l s1, output s1 = output s ++ l ∧ content s1 = content s))|].
  - intros [] l r s1 Hp Hr [O1 C1]. rewrite (proj2 (Z.ltb_lt _ _)) by done. apply wp_bind. wcall (write_spec (snd r) s1). intros k s2 (-> & O2 & I2 & C2).
    rewrite <-Hr, Z.eqb_refl. apply wp_ret. exists tt. split_and!; [done|by rewrite O2, O1, <-app_assoc|congruence|by rewrite I2].
  - intros [] l s1 s2 E1 E2 [O1 C1]. split; congruence.
  - intros [] r s1 ->. done.
  - by rewrite app_nil_r.
  - done.
  - intros x s1 (_ & -> & O1 & C1). apply wp_ret. done.
Qed.

Definition CANNOT (prog : list Z) : list Z := prog ++ [58; 32; 99; 97; 110; 110; 111; 116; 32; 111; 112; 101; 110; 32].
Fixpoint cat_text (find : list Z → option (list Z)) (args : list (list Z)) : list Z :=
  match args with
  | [] => []
  | a :: args => match find a with Some c => c ++ cat_text find args | None => message (CANNOT [99; 97; 116]) a end
  end.

(** [cat] writes the files it is given one after the other, as they are, and
    stops with a message at the first it cannot open; how the reads cut them
    into pieces does not matter. *)
Theorem cat_concatenates fuel args s : args ≠ [] → Forall (Forall is_byte) args →
  (∀ a c, a ∈ args → content s a = Some c → (length c < fuel)%nat) →
  wp (cat_main fuel args) (λ _ s', output s' = output s ++ cat_text (content s) args) s.
Proof using L.
  intros Hne Hb Hl. assert (wp (cat_files fuel args) (λ _ s', output s' = output s ++ cat_text (content s) args) s) as H; [|by destruct args].
  clear Hne. revert s Hl. induction Hb as [|a args Ha _ IH]; intros s Hl; [apply wp_ret; by rewrite app_nil_r|]. cbn [cat_files cat_text].
  apply wp_bind. wcall (open_spec a s). intros fd s1 (O1 & C1 & Hfd). destruct (content s a) as [c|] eqn:Ec.
  - destruct Hfd as [Hfd Hin]. rewrite (proj2 (Z.ltb_ge _ _)) by done. apply wp_bind. wcall (cat_spec fuel fd s1); [rewrite Hin; eapply Hl; [left|done]|].
    intros ok s2 (-> & O2 & C2). apply wp_bind. wcall (close_spec fd s2). intros r s3 (O3 & C3).
    assert (content s3 = content s) as C by congruence. wcall (IH s3); [intros a' c' Ha'; rewrite C; apply Hl; by right|].
    intros [] s4 ->. rewrite O3, O2, O1, Hin, C. by rewrite <-app_assoc.
  - rewrite (proj2 (Z.ltb_lt _ _)) by done. eapply wp_mono; [apply uprintf_spec with (P := λ out, out = message (CANNOT [99; 97; 116]) a)|].
    + apply (printf_message (CANNOT [99; 97; 116])); [|done]. repeat constructor; unfold is_byte; lia.
    + intros [] s2 (out & -> & O2 & _). by rewrite O2, O1.
Qed.

(** *** wc *)

(** The line of a file with the bytes [l]. *)
Definition wc_line (l name out : list Z) : Prop :=
  ∃ tl tw tc, decimal (Z.of_nat (nlines l)) tl ∧ decimal (Z.of_nat (nwords l)) tw ∧ decimal (Z.of_nat (length l)) tc ∧
    out = tl ++ [32] ++ tw ++ [32] ++ tc ++ [32] ++ name ++ [10].

Lemma printf_wc l name : Z.of_nat (length l) < 2147483648 → Forall is_byte name →
  wp (printf (λ _, name) WC_LINE [u32 (Z.of_nat (nlines l)); u32 (Z.of_nat (nwords l)); u32 (Z.of_nat (length l)); 1]) (λ _ out, wc_line l name out) [].
Proof using Type.
  intros Hl Hn. pose proof (nlines_le l). pose proof (nwords_le l). unfold printf, WC_LINE.
  apply printf_int; [unfold is_s32; lia|]. intros tl Htl. apply printf_char; [done|by unfold is_byte|].
  apply printf_int; [unfold is_s32; lia|]. intros tw Htw. apply printf_char; [done|by unfold is_byte|].
  apply printf_int; [unfold is_s32; lia|]. intros tc Htc. apply printf_char; [done|by unfold is_byte|].
  apply printf_str; [done|done|]. apply printf_char; [done|by unfold is_byte|]. apply wp_ret.
  exists tl, tw, tc. split_and!; [done..|]. by rewrite <-!app_assoc.
Qed.

Lemma wc_spec fuel fd name s : (length (input s fd) < fuel)%nat → Z.of_nat (length (input s fd)) < 2147483648 → Forall is_byte name →
  wp (wc fuel fd name) (λ ok s', ok = true ∧ (∃ out, wc_line (input s fd) name out ∧ output s' = output s ++ out) ∧ content s' = content s) s.
Proof using L.
  intros Hfu Hsz Hn. unfold wc. apply wp_bind.
  eapply wp_mono; [apply (read_all fuel fd _ (λ c, (c, 0)) (λ c l s1, (length l ≤ length (input s fd) → c = counted_all l)%nat ∧ output s1 = output s ∧ content s1 = content s))|].
  - intros c l r s1 Hp Hr (H1 & O1 & C1). rewrite (proj2 (Z.ltb_lt _ _)) by done. apply wp_ret. eexists. split_and!; [done| |done|done|done].
    rewrite length_app. intros Hlen. rewrite H1 by lia. apply wc_bytes_count. lia.
  - intros c l s1 s2 E1 E2 (H1 & O1 & C1). split_and!; [done|congruence..].
  - intros c r s1 ->. done.
  - done.
  - done.
  - intros x s1 (c & -> & H1 & O1 & C1). rewrite H1 by lia. change (Z.ltb 0 0) with false. cbv iota. apply wp_bind.
    eapply wp_mono; [apply uprintf_spec; by apply printf_wc|]. intros [] s2 (out & Hout & O2 & _ & C2). apply wp_ret.
    split_and!; [done| |congruence]. exists out. by rewrite O2, O1.
Qed.

Inductive wc_text (find : list Z → option (list Z)) : list (list Z) → list Z → Prop :=
| wt_end : wc_text find [] []
| wt_file a args l out rest : find a = Some l → wc_line l a out → wc_text find args rest → wc_text find (a :: args) (out ++ rest)
| wt_missing a args : find a = None → wc_text find (a :: args) (message (CANNOT [119; 99]) a).

(** [wc] writes for each file the number of newlines, of places where a word
    starts (a byte that is no white space, first or after white space) and of
    bytes, in decimal, however the reads cut the file into pieces, and stops
    with a message at the first file it cannot open. *)
Theorem wc_counts fuel args s : args ≠ [] → Forall (Forall is_byte) args →
  (∀ a c, a ∈ args → content s a = Some c → (length c < fuel)%nat ∧ Z.of_nat (length c) < 2147483648) →
  wp (wc_main fuel args) (λ _ s', ∃ out, wc_text (content s) args out ∧ output s' = output s ++ out) s.
Proof using L.
  intros Hne Hb Hl. assert (wp (wc_files fuel args) (λ _ s', ∃ out, wc_text (content s) args out ∧ output s' = output s ++ out) s) as H; [|by destruct args].
  clear Hne. revert s Hl. induction Hb as [|a args Ha _ IH]; intros s Hl; [apply wp_ret; exists []; rewrite app_nil_r; split; [constructor|done]|]. cbn [wc_files].
  apply wp_bind. wcall (open_spec a s). intros fd s1 (O1 & C1 & Hfd). destruct (content s a) as [c|] eqn:Ec.
  - destruct Hfd as [Hfd Hin]. destruct (Hl a c ltac:(left) Ec) as [L1 L2]. rewrite (proj2 (Z.ltb_ge _ _)) by done. apply wp_bind. wcall (wc_spec fuel fd a s1); [by rewrite Hin|by rewrite Hin|done|].
    rewrite Hin. intros ok s2 (-> & (out & Hout & O2) & C2). apply wp_bind. wcall (close_spec fd s2). intros r s3 (O3 & C3).
    assert (content s3 = content s) as C by congruence. wcall (IH s3); [intros a' c' Ha'; rewrite C; apply Hl; by right|].
    rewrite C. intros [] s4 (rest & Hrest & O4). exists (out ++ rest). split; [by eapply wt_file|]. by rewrite O4, O3, O2, O1, <-app_assoc.
  - rewrite (proj2 (Z.ltb_lt _ _)) by done. eapply wp_mono; [apply uprintf_spec with (P := λ out, out = message (CANNOT [119; 99]) a)|].
    + apply (printf_message (CANNOT [119; 99])); [|done]. repeat constructor; unfold is_byte; lia.
    + intros [] s2 (out & -> & O2 & _). eexists. split; [by apply wt_missing|]. by rewrite O2, O1.
Qed.

(** *** echo *)

Fixpoint echo_text (args : list (list Z)) : list Z :=
  match args with [] => [] | [a] => a ++ [10] | a :: args => a ++ [32] ++ echo_text args end.

(** [echo] writes its arguments with a space between them and ends the line. *)
Theorem echo_writes args s : Forall (Forall is_byte) args → wp (echo_main args) (λ _ s', output s' = output s ++ echo_text args) s.
Proof using L.
  intros Hb. revert s. induction Hb as [|a args Ha _ IH]; intros s; [apply wp_ret; by rewrite app_nil_r|]. cbn [echo_main]. apply wp_bind.
  set (sep := match args with [] => [10] | _ => [32] end). assert (Forall is_byte sep) as Hs by (unfold sep; destruct args; apply Forall_singleton; unfold is_byte; lia).
  eapply wp_mono; [apply uprintf_spec with (P := λ out, out = a ++ sep)|].
  - unfold printf. apply printf_str; [done|done|]. apply printf_str; [done|done|]. apply wp_ret. done.
  - intros [] s1 (out & -> & O1 & _ & _). wcall (IH s1). intros [] s2 ->. rewrite O1, <-app_assoc. f_equal. unfold sep. destruct args; simpl; by rewrite <-?app_assoc, ?app_nil_r.
Qed.
End programs.

(** ** Files in pieces *)

(** Pieces are not empty; every open file is the descriptor 3. *)
Abbreviation pieces := (list (Z * list Z)).
Record box := mkBox { bx_files : gmap (list Z) pieces; bx_fds : gmap Z pieces; bx_out : list Z }.
Definition bytes_of (p : pieces) : list Z := concat ((λ c, c.1 :: c.2) <$> p).
Definition left_in (s : box) (fd : Z) : pieces := default [] (bx_fds s !! fd).

#[global] Instance box_calls : FileCalls box := {
  u_open a := λ s, match bx_files s !! a with Some p => Ok (3, mkBox (bx_files s) (<[3 := p]> (bx_fds s)) (bx_out s)) | None => Ok (-1, s) end;
  u_read fd n := λ s,
    match left_in s fd with
    | [] => Ok ((0, []), s)
    | c :: p =>
        let data := take n (c.1 :: c.2) in
        let p' := match drop n (c.1 :: c.2) with [] => p | b :: l => (b, l) :: p end in
        Ok ((Z.of_nat (length data), data), mkBox (bx_files s) (<[fd := p']> (bx_fds s)) (bx_out s))
    end;
  u_write fd b := λ s, Ok (Z.of_nat (length b), if Z.eqb fd 1 then mkBox (bx_files s) (bx_fds s) (bx_out s ++ b) else s);
  u_close fd := λ s, Ok (0, mkBox (bx_files s) (delete fd (bx_fds s)) (bx_out s))
}.

#[global, refine] Instance box_laws : FileLaws box := {
  input s fd := bytes_of (left_in s fd);
  output := bx_out;
  content s a := bytes_of <$> bx_files s !! a
}.
Proof.
  - intros fd n s Hn. cbn [u_read box_calls]. unfold wp. destruct (left_in s fd) as [|c p] eqn:E; [cbn [fst snd]; by rewrite E|]. cbn [fst snd bx_out bx_files].
    split_and!; [done| | |done|done].
    + unfold left_in at 1. cbn [bx_fds]. rewrite lookup_insert_eq. cbn [default]. unfold bytes_of. rewrite fmap_cons. cbn [concat].
      rewrite <-(take_drop n (c.1 :: c.2)) at 1. destruct (drop n (c.1 :: c.2)) as [|b l]; [by rewrite app_nil_r|]. by rewrite <-app_assoc.
    + destruct n; [lia|done].
  - intros b s. done.
  - intros a s. cbn [u_open box_calls]. unfold wp. destruct (bx_files s !! a) as [p|]; [|split_and!; [done|done|simpl; lia]]. cbn [bx_out bx_files]. split_and!; [done|done|].
    simpl. split; [lia|]. unfold left_in. cbn [bx_fds]. by rewrite lookup_insert_eq.
  - intros fd s. done.
Defined.

(** "a b\n" and "cd\n" in pieces that split a word. *)
Definition wc_sample : box := mkBox (<[[102] := [(97, [32]); (98, [10; 99]); (100, [10])]]> ∅) ∅ [].
Lemma wc_sample_line : (r ← wc_main 20 [[102]]; mret r) wc_sample = Ok (tt, mkBox (bx_files wc_sample) ∅ [50; 32; 51; 32; 55; 32; 102; 10]).
Proof. vm_compute. reflexivity. Qed.
Lemma wc_sample_content : content wc_sample [102] = Some [97; 32; 98; 10; 99; 100; 10].
Proof. vm_compute. reflexivity. Qed.
Lemma wc_counts_witness : wp (wc_main 20 [[102]]) (λ _ s', ∃ out, wc_text (content wc_sample) [[102]] out ∧ output s' = out) wc_sample.
Proof.
  eapply wp_mono; [apply (wc_counts 20 [[102]] wc_sample); [done|repeat constructor; unfold is_byte; lia|]|].
  - intros a c Ha. apply list_elem_of_singleton in Ha as ->. rewrite wc_sample_content. intros [= <-]. split; [simpl; lia|done].
  - intros [] s' (out & H1 & H2). exists out. split; [exact H1|exact H2].
Defined.

Close Scope Z_scope.
