(* ===== verification/Sh.v ===== *)
(** * The shell ([src/xv6-public/sh.c])

    The recursive-descent parser over the command line buffer, and [runcmd]
    as the programs it starts with the file descriptors they get.

    The buffer holds the bytes before the NUL; a [char *] into it is an index
    and [es] its length.  The position [*ps] is the state of the parser.
    [parseexec] fills the arguments of its [execcmd] while redirections are
    already wrapped around it; the model keeps the arguments and the
    redirections so far and puts them together at the end.  The four parsing
    routines call each other, on fuel. *)

From S2P Require Import Prelude.
From S2P Require Import Strings.

Open Scope Z_scope.

Definition MAXARGS : nat := 10.
Definition O_RDONLY : Z := 0.
Definition O_WRONLY : Z := 1.
Definition O_CREATE : Z := 512.

Inductive cmd :=
| EXEC (argv eargv : list nat)
| REDIR (c : cmd) (file efile : nat) (mode fd : Z)
| PIPE (left right : cmd)
| LIST (left right : cmd)
| BACK (c : cmd).

(** " \t\r\n\v" and "<|>&;()". *)
Definition whitespace : list Z := [32; 9; 13; 10; 11].
Definition symbols : list Z := [60; 124; 62; 38; 59; 40; 41].

(** [strchr(set, c)] as a truth value: NUL is not found. *)
Definition has (set : list Z) (c : Z) : bool := negb (Z.eqb c 0) && bool_decide (c ∈ set).

Fixpoint span (f : Z → bool) (l : list Z) : nat :=
  match l with
  | x :: l => if f x then S (span f l) else 0
  | [] => 0
  end.
Definition wordchar (c : Z) : bool := negb (has whitespace c) && negb (has symbols c).

Section parser.
Context (buf : list Z).
Abbreviation PM := (M nat).

(** [*s]. *)
Definition ch (s : nat) : Z := default 0 (buf !! s).
Definition skip (s : nat) : nat := s + span (has whitespace) (drop s buf).

(** The token, and where it starts and ends. *)
Definition gettoken : PM (Z * nat * nat) :=
  s ← gets skip;
  let c := ch s in
  let '(ret, e) :=
    if Z.eqb c 0 then (0, s)
    else if has [124; 40; 41; 59; 38; 60] c then (c, S s)
    else if Z.eqb c 62 then if Z.eqb (ch (S s)) 62 then (43, S (S s)) else (62, S s)
    else (97, (s + span wordchar (drop s buf))%nat) in
  modify (λ _, skip e);;
  mret (ret, s, e).

Definition peek (toks : list Z) : PM bool :=
  modify skip;;
  s ← gets id;
  mret (has toks (ch s)).

(** A redirection: file, end of the file name, mode and descriptor. *)
Definition redir : Type := nat * nat * Z * Z.
Definition redircmd (c : cmd) (r : redir) : cmd := let '(f, e, m, d) := r in REDIR c f e m d.

(** The redirections that follow, in order. *)
Definition parseredirs : PM (list redir) :=
  loop (S (length buf)) (λ rs,
    more ← peek [60; 62];
    if more : bool then
      t ← gettoken;
      n ← gettoken;
      let '(tok, _, _) := t in
      let '(kind, q, eq) := n in
      if negb (Z.eqb kind 97) then panic "missing file for redirection"
      else if Z.eqb tok 60 then mret (inl (rs ++ [(q, eq, O_RDONLY, 0)]))
      else mret (inl (rs ++ [(q, eq, Z.lor O_WRONLY O_CREATE, 1)]))
    else mret (inr rs)) [].

(** The loop of [parseexec] over arguments: argv, eargv and redirections. *)
Definition parseargs (rs : list redir) : PM (list nat * list nat * list redir) :=
  loop (S (length buf)) (λ '(argv, eargv, rs),
    stop ← peek [124; 41; 38; 59];
    if stop : bool then mret (inr (argv, eargv, rs))
    else
      t ← gettoken;
      let '(tok, q, eq) := t in
      if Z.eqb tok 0 then mret (inr (argv, eargv, rs))
      else if negb (Z.eqb tok 97) then panic "syntax"
      else
        let argv := argv ++ [q] in
        let eargv := eargv ++ [eq] in
        if (MAXARGS <=? length argv)%nat then panic "too many args"
        else
          more ← parseredirs;
          mret (inl (argv, eargv, rs ++ more))) ([], [], rs).

(** The loop of [parseline] over [&]. *)
Definition parsebacks (c : cmd) : PM cmd :=
  loop (S (length buf)) (λ c,
    more ← peek [38];
    if more : bool then
      gettoken;;
      mret (inl (BACK c))
    else mret (inr c)) c.

Fixpoint parseline (fuel : nat) : PM cmd :=
  match fuel with
  | O => fail OutOfFuel
  | S fuel =>
      c ← parsepipe fuel;
      c ← parsebacks c;
      more ← peek [59];
      if more : bool then
        gettoken;;
        r ← parseline fuel;
        mret (LIST c r)
      else mret c
  end
with parsepipe (fuel : nat) : PM cmd :=
  match fuel with
  | O => fail OutOfFuel
  | S fuel =>
      c ← parseexec fuel;
      more ← peek [124];
      if more : bool then
        gettoken;;
        r ← parsepipe fuel;
        mret (PIPE c r)
      else mret c
  end
with parseexec (fuel : nat) : PM cmd :=
  match fuel with
  | O => fail OutOfFuel
  | S fuel =>
      open ← peek [40];
      if open : bool then parseblock fuel
      else
        rs ← parseredirs;
        a ← parseargs rs;
        let '(argv, eargv, rs) := a in
        mret (foldl redircmd (EXEC argv eargv) rs)
  end
with parseblock (fuel : nat) : PM cmd :=
  match fuel with
  | O => fail OutOfFuel
  | S fuel =>
      open ← peek [40];
      if negb open then panic "parseblock"
      else
        gettoken;;
        c ← parseline fuel;
        close ← peek [41];
        if negb close then panic "syntax - missing )"
        else
          gettoken;;
          rs ← parseredirs;
          mret (foldl redircmd c rs)
  end.

(** The positions at which [nulterminate] stores a NUL, in order. *)
Fixpoint nulterminate (c : cmd) : list nat :=
  match c with
  | EXEC argv eargv => eargv
  | REDIR c file efile mode fd => nulterminate c ++ [efile]
  | PIPE l r => nulterminate l ++ nulterminate r
  | LIST l r => nulterminate l ++ nulterminate r
  | BACK c => nulterminate c
  end.

(** The nesting of calls is at most four per byte. *)
Definition parse_fuel : nat := 4 * length buf + 4.

(** The command and the buffer afterwards, which ends in its NUL. *)
Definition parsecmd : res (cmd * list Z) :=
  match (c ← parseline parse_fuel; peek [];; mret c) 0%nat with
  | Ok (c, s) =>
      if decide (s = length buf) then Ok (c, foldl (λ b e, <[e := 0]> b) (buf ++ [0]) (nulterminate c))
      else Err (Panic "syntax")
  | Err e => Err e
  end.
End parser.

(** ** Running a command *)

(** What a descriptor refers to. *)
Inductive target := Tty (n : nat) | Opened (name : list Z) (mode : Z) | PipeRd (n : nat) | PipeWr (n : nat).

(** The least descriptor that is not in use. *)
Fixpoint fd_from (fds : gmap nat target) (fd fuel : nat) : nat :=
  match fuel with
  | O => fd
  | S fuel => match fds !! fd with None => fd | Some _ => fd_from fds (S fd) fuel end
  end.
Definition fd_least (fds : gmap nat target) : nat := fd_from fds 0 (size fds).
Definition fd_open (t : target) (fds : gmap nat target) : nat * gmap nat target :=
  let fd := fd_least fds in (fd, <[fd := t]> fds).
Definition fd_dup (fd : nat) (fds : gmap nat target) : gmap nat target :=
  match fds !! fd with Some t => snd (fd_open t fds) | None => fds end.

(** A program that is started: its arguments and its descriptors. *)
Definition launch : Type := list (list Z) * gmap nat target.

(** The C string at [p] of the buffer. *)
Definition str_at (buf : list Z) (p : nat) : list Z := cstr (drop p buf).

(** [runcmd] in a process with descriptors [fds]; [np] numbers the pipes.
    The programs started by it and its children, in the order of the code.
    [open_ok] says which files can be opened; [fork] and [pipe] succeed. *)
Fixpoint runcmd (buf : list Z) (open_ok : list Z → Z → bool) (c : cmd) (fds : gmap nat target) (np : nat) : list launch * nat :=
  match c with
  | EXEC argv _ =>
      match argv with
      | [] => ([], np)
      | _ => ([(str_at buf <$> argv, fds)], np)
      end
  | REDIR c file _ mode fd =>
      let fds := delete (Z.to_nat fd) fds in
      if open_ok (str_at buf file) mode then runcmd buf open_ok c (snd (fd_open (Opened (str_at buf file) mode) fds)) np
      else ([], np)
  | LIST l r =>
      let '(ps, np) := runcmd buf open_ok l fds np in
      let '(qs, np) := runcmd buf open_ok r fds np in
      (ps ++ qs, np)
  | PIPE l r =>
      let n := np in
      let '(p0, fds) := fd_open (PipeRd n) fds in
      let '(p1, fds) := fd_open (PipeWr n) fds in
      let left := delete p1 (delete p0 (fd_dup p1 (delete 1%nat fds))) in
      let '(ps, np) := runcmd buf open_ok l left (S np) in
      let right := delete p1 (delete p0 (fd_dup p0 (delete 0%nat fds))) in
      let '(qs, np) := runcmd buf open_ok r right np in
      (ps ++ qs, np)
  | BACK c => runcmd buf open_ok c fds np
  end.

Close Scope Z_scope.
