(* ===== verification/ShParse.v ===== *)
(** * The shell's parser ends, and parses what is printed

    Termination of the mutually recursive routines of [src/xv6-public/sh.c]
    on every buffer, and the round trip from a command through its text. *)

From S2P Require Import Prelude.
From S2P Require Import Strings.
From S2P Require Import Sh.

Open Scope Z_scope.

(** ** Every parse ends *)

Section total.
Context (buf : list Z).
Abbreviation PM := (M nat).
Abbreviation len := (length buf).

(** [m] ends, with a command error or in [Q]. *)
Definition ends {A} (m : PM A) (Q : A → nat → Prop) (p : nat) : Prop :=
  match m p with Ok (a, p') => Q a p' | Err (Panic _) => True | Err _ => False end.

Lemma ends_bind {A B} (m : PM A) (f : A → PM B) Q p : ends m (λ a, ends (f a) Q) p → ends (m ≫= f) Q p.
Proof using Type. unfold ends, mbind, M_bind. destruct (m p) as [[a p']|[]]; done. Qed.

Lemma ends_mono {A} (m : PM A) (Q Q' : A → nat → Prop) p : ends m Q p → (∀ a p', Q a p' → Q' a p') → ends m Q' p.
Proof using Type. unfold ends. destruct (m p) as [[a p']|[]]; auto. Qed.

Lemma ends_ret {A} (a : A) (Q : A → nat → Prop) p : Q a p → ends (mret a) Q p.
Proof using Type. done. Qed.

Lemma ends_panic {A} msg (Q : A → nat → Prop) p : ends (panic msg) Q p.
Proof using Type. done. Qed.

Lemma ends_loop {A B} (body : A → PM (A + B)) (Q : B → nat → Prop) p0 :
  (∀ a p, (p0 ≤ p ≤ len)%nat → ends (body a) (λ r p', match r with inl _ => (p < p' ≤ len)%nat | inr b => Q b p' end) p) →
  ∀ fuel a p, (p0 ≤ p ≤ len)%nat → (len - p < fuel)%nat → ends (loop fuel body a) Q p.
Proof using Type.
  intros Hb. induction fuel as [|fuel IH]; intros a p Hp Hf; [lia|]. cbn [loop]. apply ends_bind.
  eapply ends_mono; [by apply Hb|]; cbv beta. intros [a'|b] p'; simpl; [|done]. intros Hp'. apply IH; lia.
Qed.

Lemma span_le f l : (span f l ≤ length l)%nat.
Proof using Type. induction l as [|x l IH]; simpl; [done|]. destruct (f x); simpl; lia. Qed.

Lemma skip_range s : (s ≤ len)%nat → (s ≤ skip buf s ≤ len)%nat.
Proof using Type. intros H. unfold skip. pose proof (span_le (has whitespace) (drop s buf)). rewrite length_drop in *. lia. Qed.

Lemma ch_end s : ch buf s ≠ 0 → (s < len)%nat.
Proof using Type. unfold ch. intros H. destruct (buf !! s) eqn:E; [by eapply lookup_lt_Some|done]. Qed.

Lemma has_nul set : has set 0 = false.
Proof using Type. done. Qed.

Lemma drop_ch s : (s < len)%nat → drop s buf = ch buf s :: drop (S s) buf.
Proof using Type. intros H. destruct (lookup_lt_is_Some_2 buf s H) as [x Hx]. rewrite (drop_S _ _ _ Hx). unfold ch. by rewrite Hx. Qed.

(** [skip] stops at a byte that is not white. *)
Lemma skip_stops s : has whitespace (ch buf (skip buf s)) = false.
Proof using Type.
  unfold skip, ch. rewrite <-lookup_drop. induction (drop s buf) as [|y l IH]; [done|]. simpl. destruct (has whitespace y) eqn:E; [done|]. simpl. done.
Qed.

Lemma skip_solid s : has whitespace (ch buf s) = false → skip buf s = s.
Proof using Type.
  intros H. unfold skip. destruct (decide (s < len)%nat) as [Hs|Hs]; [rewrite drop_ch by done; simpl; rewrite H; lia|].
  rewrite drop_ge by lia. simpl. lia.
Qed.

(** A byte is white, one of the symbols, or starts a word. *)
Lemma symbol_cases c : c ≠ 0 → has whitespace c = false → wordchar c = false → has [124; 40; 41; 59; 38; 60] c = true ∨ c = 62.
Proof using Type.
  intros Hc Hw Hn. unfold wordchar in Hn. rewrite Hw in Hn. simpl in Hn. apply negb_false_iff in Hn. unfold has in *.
  rewrite (proj2 (Z.eqb_neq _ _)) in * by done. simpl in *. apply bool_decide_eq_true in Hn. unfold symbols in Hn.
  destruct (decide (c = 62)); [by right|left]. apply bool_decide_eq_true. set_solver.
Qed.

(** A token other than the end moves on. *)
Lemma gettoken_ends p : (p ≤ len)%nat →
  ends (gettoken buf) (λ '(ret, q, e) p', (p ≤ p' ≤ len)%nat ∧ (ret ≠ 0 ∨ ch buf p ≠ 0 → (p < p')%nat)) p.
Proof using Type.
  intros Hp. unfold gettoken. apply ends_bind. unfold ends at 1, gets. pose proof (skip_range p Hp) as Hs. pose proof (skip_stops p) as Hst.
  assert (ch buf p ≠ 0 → ch buf (skip buf p) = 0 → (p < skip buf p)%nat) as Hmove.
  { intros H1 H2. destruct (decide (skip buf p = p)) as [E|]; [congruence|lia]. }
  set (s := skip buf p) in *.
  assert (∀ e ret, (s ≤ e ≤ len)%nat → (ret ≠ 0 ∨ ch buf s ≠ 0 → (s < e)%nat) →
    ends (modify (λ _, skip buf e);; mret (ret, s, e)) (λ '(ret, q, e) p', (p ≤ p' ≤ len)%nat ∧ (ret ≠ 0 ∨ ch buf p ≠ 0 → (p < p')%nat)) p) as Hfin.
  { intros e ret He Hr. apply ends_bind. unfold ends, modify, mret, M_ret. pose proof (skip_range e ltac:(lia)). split; [lia|].
    intros Hn. destruct (decide (ret = 0)); [|assert (s < e)%nat by tauto; lia]. destruct (decide (ch buf s = 0)) as [E|E]; [|assert (s < e)%nat by tauto; lia].
    assert (p < s)%nat; [|lia]. apply Hmove; [tauto|done]. }
  destruct (Z.eqb_spec (ch buf s) 0) as [E0|E0]; [apply Hfin; [lia|tauto]|]. pose proof (ch_end s E0) as Hlt.
  destruct (has [124; 40; 41; 59; 38; 60] (ch buf s)) eqn:Hsym; [apply Hfin; lia|].
  destruct (Z.eqb_spec (ch buf s) 62) as [E62|E62].
  - destruct (Z.eqb_spec (ch buf (S s)) 62) as [E63|E63]; [|apply Hfin; lia].
    pose proof (ch_end (S s) ltac:(rewrite E63; done)). apply Hfin; lia.
  - pose proof (span_le wordchar (drop s buf)) as Hsp. rewrite length_drop in Hsp.
    rewrite (drop_ch s Hlt) in *. simpl in *. destruct (wordchar (ch buf s)) eqn:Hw; [apply Hfin; lia|].
    destruct (symbol_cases _ E0 Hst Hw) as [H|H]; [by rewrite H in Hsym|done].
Qed.

Lemma peek_ends toks p : (p ≤ len)%nat → ends (peek buf toks) (λ b p', (p ≤ p' ≤ len)%nat ∧ (b = true → has toks (ch buf p') = true)) p.
Proof using Type. intros Hp. unfold peek, ends. simpl. pose proof (skip_range p Hp). done. Qed.

(** [peek], then [gettoken] when it found something. *)
Lemma peek_token {A} toks p (k : bool → PM A) (Q : A → nat → Prop) :
  (p ≤ len)%nat →
  (∀ p', (p ≤ p' ≤ len)%nat → ends (k false) Q p') →
  (∀ p', (p ≤ p' < len)%nat → ch buf p' ≠ 0 → ends (k true) Q p') →
  ends (b ← peek buf toks; k b) Q p.
Proof using Type.
  intros Hp H0 H1. apply ends_bind. eapply ends_mono; [by apply peek_ends|]; cbv beta. intros [] p' [Hp' Hb]; [|by apply H0].
  specialize (Hb eq_refl). destruct (decide (ch buf p' = 0)) as [E|E]; [rewrite E in Hb; by rewrite has_nul in Hb|].
  apply H1; [|done]. pose proof (ch_end p' E). lia.
Qed.

(** The token that [peek] has seen. *)
Lemma token_after_peek p (Q : Z * nat * nat → nat → Prop) :
  (p < len)%nat → ch buf p ≠ 0 → (∀ a p', (p < p' ≤ len)%nat → Q a p') → ends (gettoken buf) Q p.
Proof using Type.
  intros Hp Hc H. eapply ends_mono; [apply gettoken_ends; lia|]; cbv beta. intros [[r q] e] p' [H1 H2]. apply H.
  assert (p < p')%nat by tauto. lia.
Qed.

Lemma parseredirs_ends p : (p ≤ len)%nat → ends (parseredirs buf) (λ _ p', (p ≤ p' ≤ len)%nat) p.
Proof using Type.
  intros Hp. unfold parseredirs. apply (ends_loop _ _ p); [|lia|lia]. intros rs p1 Hp1.
  apply peek_token; [lia|intros p2 Hp2; apply ends_ret; simpl; lia|]. intros p2 Hp2 Hc. apply ends_bind, token_after_peek; [lia|done|].
  intros [[tok q0] e0] p3 Hp3. apply ends_bind. eapply ends_mono; [apply gettoken_ends; lia|]; cbv beta. intros [[kind q] eq] p4 [Hp4 _].
  destruct (negb (kind =? 97)); [apply ends_panic|]. destruct (tok =? 60); apply ends_ret; simpl; lia.
Qed.

Lemma parseargs_ends rs p : (p ≤ len)%nat → ends (parseargs buf rs) (λ _ p', (p ≤ p' ≤ len)%nat) p.
Proof using Type.
  intros Hp. unfold parseargs. apply (ends_loop _ _ p); [|lia|lia]. intros [[argv eargv] rs1] p1 Hp1.
  apply peek_token; [lia| |intros p2 Hp2 _; apply ends_ret; simpl; lia]. intros p2 Hp2. apply ends_bind.
  eapply ends_mono; [apply gettoken_ends; lia|]; cbv beta. intros [[tok q] eq] p3 [Hp3 Hadv]. destruct (Z.eqb_spec tok 0) as [|Ht]; [apply ends_ret; simpl; lia|].
  assert (p2 < p3)%nat by tauto. destruct (negb (tok =? 97)); [apply ends_panic|]. destruct (_ <=? _)%nat; [apply ends_panic|].
  apply ends_bind. eapply ends_mono; [apply parseredirs_ends; lia|]; cbv beta. intros more p4 Hp4. apply ends_ret. simpl in *. lia.
Qed.

Lemma parsebacks_ends c p : (p ≤ len)%nat → ends (parsebacks buf c) (λ _ p', (p ≤ p' ≤ len)%nat) p.
Proof using Type.
  intros Hp. unfold parsebacks. apply (ends_loop _ _ p); [|lia|lia]. intros c1 p1 Hp1.
  apply peek_token; [lia|intros p2 Hp2; apply ends_ret; simpl; lia|]. intros p2 Hp2 Hc. apply ends_bind, token_after_peek; [lia|done|].
  intros a p3 Hp3. apply ends_ret. simpl in *. lia.
Qed.

Lemma parse_ends fuel p : (p ≤ len)%nat →
  ((4 * (len - p) + 4 ≤ fuel)%nat → ends (parseline buf fuel) (λ _ p', (p ≤ p' ≤ len)%nat) p) ∧
  ((4 * (len - p) + 3 ≤ fuel)%nat → ends (parsepipe buf fuel) (λ _ p', (p ≤ p' ≤ len)%nat) p) ∧
  ((4 * (len - p) + 2 ≤ fuel)%nat → ends (parseexec buf fuel) (λ _ p', (p ≤ p' ≤ len)%nat) p) ∧
  ((4 * (len - p) + 1 ≤ fuel)%nat → ends (parseblock buf fuel) (λ _ p', (p ≤ p' ≤ len)%nat) p).
Proof using Type.
  revert p. induction fuel as [|fuel IH]; intros p Hp; [split_and!; lia|]. destruct (IH p Hp) as (_ & IHp & IHe & IHb). split_and!; intros Hf; simpl.
  - apply ends_bind. eapply ends_mono; [apply IHp; lia|]; cbv beta. intros c p1 Hp1. apply ends_bind. eapply ends_mono; [apply parsebacks_ends; lia|]; cbv beta.
    intros c' p2 Hp2. apply peek_token; [lia|intros p3 Hp3; apply ends_ret; simpl; lia|]. intros p3 Hp3 Hc. apply ends_bind, token_after_peek; [lia|done|].
    intros a p4 Hp4. apply ends_bind. destruct (IH p4 ltac:(lia)) as (IHl & _). eapply ends_mono; [apply IHl; lia|]; cbv beta. intros r p5 Hp5. apply ends_ret. simpl in *. lia.
  - apply ends_bind. eapply ends_mono; [apply IHe; lia|]; cbv beta. intros c p1 Hp1.
    apply peek_token; [lia|intros p3 Hp3; apply ends_ret; simpl; lia|]. intros p3 Hp3 Hc. apply ends_bind, token_after_peek; [lia|done|].
    intros a p4 Hp4. apply ends_bind. destruct (IH p4 ltac:(lia)) as (_ & IHl & _). eapply ends_mono; [apply IHl; lia|]; cbv beta. intros r p5 Hp5. apply ends_ret. simpl in *. lia.
  - apply peek_token; [lia| |].
    + intros p1 Hp1. apply ends_bind. eapply ends_mono; [apply parseredirs_ends; lia|]; cbv beta. intros rs p2 Hp2. apply ends_bind.
      eapply ends_mono; [apply parseargs_ends; lia|]; cbv beta. intros [[argv eargv] rs'] p3 Hp3. apply ends_ret. simpl in *. lia.
    + intros p1 Hp1 _. destruct (IH p1 ltac:(lia)) as (_ & _ & _ & IHb'). eapply ends_mono; [apply IHb'; lia|]; cbv beta. intros c p2 Hp2. simpl in *. lia.
  - apply peek_token; [lia|intros; apply ends_panic|]. intros p1 Hp1 Hc. apply ends_bind, token_after_peek; [lia|done|].
    intros a p2 Hp2. apply ends_bind. destruct (IH p2 ltac:(lia)) as (IHl & _). eapply ends_mono; [apply IHl; lia|]; cbv beta. intros c p3 Hp3.
    apply peek_token; [lia|intros; apply ends_panic|]. intros p4 Hp4 Hc4. apply ends_bind, token_after_peek; [lia|done|]. intros a' p5 Hp5.
    apply ends_bind. eapply ends_mono; [apply parseredirs_ends; lia|]; cbv beta. intros rs p6 Hp6. apply ends_ret. simpl in *. lia.
Qed.
End total.

(** C40: the parser ends on every command line: [parsecmd] returns a command,
    or reports a syntax error; the fuel of the model, four per byte, is
    never used up. *)
Theorem parsecmd_terminates buf :
  (∃ c b, parsecmd buf = Ok (c, b)) ∨ ∃ msg, parsecmd buf = Err (Panic msg).
Proof.
  unfold parsecmd. destruct (parse_ends buf (parse_fuel buf) 0 ltac:(lia)) as (H & _). unfold parse_fuel in H at 1. specialize (H ltac:(lia)).
  assert (ends (c ← parseline buf (parse_fuel buf); peek buf [];; mret c) (λ _ _, True) 0) as He.
  { apply ends_bind. eapply ends_mono; [exact H|]; cbv beta. intros c p Hp. apply ends_bind. eapply ends_mono; [apply peek_ends; lia|]; cbv beta. done. }
  unfold ends in He. destruct ((c ← parseline buf (parse_fuel buf); peek buf [];; mret c) 0%nat) as [[c s]|[msg| | | | | |]]; [|by right; exists msg|done..].
  destruct (decide (s = length buf)); [left|right]; eauto.
Qed.

(** ** Commands and their text *)

Inductive scmd :=
| SExec (args : list (list Z))
| SRedir (c : scmd) (file : list Z) (out : bool)
| SPipe (l r : scmd)
| SList (l r : scmd)
| SBack (c : scmd).

Definition SP : Z := 32.
Definition show_word (w : list Z) : list Z := w ++ [SP].
Definition show_redir (r : list Z * bool) : list Z := (if r.2 then 62 else 60) :: SP :: show_word r.1.
Definition paren (b : bool) (t : list Z) : list Z := if b then 40 :: SP :: t ++ [41; SP] else t.

(** The text of a command where a line (0), a command with [&] (1), a
    pipeline (2) or a simple command (3) is expected. *)
Fixpoint show (lvl : nat) (c : scmd) : list Z :=
  match c with
  | SExec args => concat (show_word <$> args)
  | SRedir c f out => show 3 c ++ show_redir (f, out)
  | SPipe l r => paren (2 <? lvl)%nat (show 3 l ++ 124 :: SP :: show 2 r)
  | SList l r => paren (0 <? lvl)%nat (show 1 l ++ 59 :: SP :: show 0 r)
  | SBack c => paren (1 <? lvl)%nat (show 1 c ++ [38; SP])
  end.

Definition word_ok (w : list Z) : Prop := w ≠ [] ∧ Forall (λ c, wordchar c = true ∧ c ≠ 0) w.
Fixpoint cmd_ok (c : scmd) : Prop :=
  match c with
  | SExec args => Forall word_ok args ∧ (length args < MAXARGS)%nat
  | SRedir c f _ => cmd_ok c ∧ word_ok f
  | SPipe l r | SList l r => cmd_ok l ∧ cmd_ok r
  | SBack c => cmd_ok c
  end.

(** The command that a parsed one stands for, its strings read from the
    buffer. *)
Fixpoint resolve (buf : list Z) (c : cmd) : scmd :=
  match c with
  | EXEC argv _ => SExec (str_at buf <$> argv)
  | REDIR c f _ _ fd => SRedir (resolve buf c) (str_at buf f) (Z.eqb fd 1)
  | PIPE l r => SPipe (resolve buf l) (resolve buf r)
  | LIST l r => SList (resolve buf l) (resolve buf r)
  | BACK c => SBack (resolve buf c)
  end.

(** Text that starts with something to read. *)
Definition solid (l : list Z) : Prop := match l with [] => True | c :: _ => has whitespace c = false end.
(** The first byte, 0 at the end. *)
Definition first (l : list Z) : Z := default 0 (head l).

Lemma word_first w l : word_ok w → solid (w ++ l) ∧ wordchar (first (w ++ l)) = true ∧ first (w ++ l) ≠ 0.
Proof.
  intros [Hn Hf]. destruct w as [|c w]; [done|]. apply Forall_cons in Hf as [[Hc Hz] _]. simpl. split_and!; [|done|done].
  unfold wordchar in Hc. by apply andb_true_iff in Hc as [H%negb_true_iff _].
Qed.

Lemma solid_show lvl c rest : cmd_ok c → solid rest → solid (show lvl c ++ rest).
Proof.
  revert lvl rest. induction c as [args|c IH f out|l IHl r IHr|l IHl r IHr|c IH]; intros lvl rest Hok Hr; simpl in *.
  - destruct args as [|w args]; [done|]. destruct Hok as [Hw _]. apply Forall_cons in Hw as [Hw _]. simpl. unfold show_word.
    rewrite <-!app_assoc. by apply word_first.
  - rewrite <-app_assoc. apply IH; [apply Hok|]. by destruct out.
  - unfold paren. destruct (2 <? lvl)%nat; [done|]. rewrite <-app_assoc. apply IHl; [apply Hok|done].
  - unfold paren. destruct (0 <? lvl)%nat; [done|]. rewrite <-app_assoc. apply IHl; [apply Hok|done].
  - unfold paren. destruct (1 <? lvl)%nat; [done|]. rewrite <-app_assoc. by apply IH.
Qed.

(** ** Tokens of a text *)

Section tokens.
Context (buf : list Z).

(** [l] is what is left of the buffer at [p]. *)
Definition at_ (p : nat) (l : list Z) : Prop := drop p buf = l ∧ (p ≤ length buf)%nat.

Lemma at_app p a b : at_ p (a ++ b) → at_ (p + length a) b.
Proof using Type.
  intros [H Hp]. split.
  - by rewrite <-drop_drop, H, drop_app_length.
  - apply (f_equal length) in H. rewrite length_drop, length_app in H. lia.
Qed.

Lemma at_cons p x b : at_ p (x :: b) → at_ (S p) b.
Proof using Type. intros H. replace (S p) with (p + length [x])%nat by (simpl; lia). by apply at_app. Qed.

Lemma at_ch p l : at_ p l → ch buf p = first l.
Proof using Type. intros [H _]. unfold ch. rewrite <-(Nat.add_0_r p), <-lookup_drop, H. by destruct l. Qed.

Lemma at_skip p l : at_ p l → solid l → skip buf p = p.
Proof using Type. intros H Hs. apply skip_solid. rewrite (at_ch _ _ H). by destruct l. Qed.

Lemma at_skip_space p l : at_ p (SP :: l) → solid l → skip buf p = S p.
Proof using Type.
  intros H Hs. unfold skip. rewrite (proj1 H). assert (span (has whitespace) l = 0%nat) as E by (destruct l; simpl in *; by rewrite ?Hs).
  simpl. rewrite E. lia.
Qed.

Lemma peek_at toks p l : at_ p l → solid l → peek buf toks p = Ok (has toks (first l), p).
Proof using Type.
  intros H Hs. unfold peek, mbind, M_bind, modify, gets, id, mret, M_ret. rewrite (at_skip _ _ H Hs). by rewrite (at_ch _ _ H).
Qed.

Lemma span_word w l : word_ok w → wordchar (first l) = false ∨ l = [] → span wordchar (w ++ l) = length w.
Proof using Type.
  intros [_ Hf] Hl. induction Hf as [|c w [Hc _] _ IH]; simpl; [|by rewrite Hc, IH].
  destruct l as [|x l]; [done|]. destruct Hl as [Hl|Hl]; [|done]. change (wordchar x = false) in Hl. simpl. by rewrite Hl.
Qed.

Lemma gettoken_word p w l : at_ p (show_word w ++ l) → word_ok w → solid l →
  gettoken buf p = Ok ((97, p, (p + length w)%nat), (p + length (show_word w))%nat).
Proof using Type.
  intros H Hw Hl. unfold show_word in *. rewrite <-app_assoc in H. destruct (word_first w ([SP] ++ l) Hw) as (Hs & Hc & Hz).
  unfold gettoken, mbind, M_bind, gets. rewrite (at_skip _ _ H Hs), (at_ch _ _ H). rewrite (proj2 (Z.eqb_neq _ _)) by done.
  unfold wordchar in Hc. apply andb_true_iff in Hc as [Hc1%negb_true_iff Hc2%negb_true_iff].
  assert (has [124; 40; 41; 59; 38; 60] (first (w ++ [SP] ++ l)) = false ∧ first (w ++ [SP] ++ l) ≠ 62) as [-> H62].
  { set (c := first _) in *. unfold has in *. rewrite (proj2 (Z.eqb_neq _ _)) in * by done. simpl in *. apply bool_decide_eq_false in Hc2.
    unfold symbols in Hc2. split; [apply bool_decide_eq_false; set_solver|intros E; apply Hc2; rewrite E; set_solver]. }
  rewrite (proj2 (Z.eqb_neq _ _)) by done. rewrite (proj1 H). rewrite (span_word w ([SP] ++ l) Hw) by (left; done).
  apply at_app in H. unfold modify, mret, M_ret. rewrite (at_skip_space _ _ H Hl). do 2 f_equal. rewrite length_app. simpl. lia.
Qed.

Lemma gettoken_sym p c l : at_ p (c :: SP :: l) → c ∈ [124; 40; 41; 59; 38; 60; 62] → solid l →
  gettoken buf p = Ok ((c, p, S p), S (S p)).
Proof using Type.
  intros H Hc Hl. assert (solid (c :: SP :: l) ∧ c ≠ 0) as [Hs Hz].
  { rewrite !elem_of_cons, elem_of_nil in Hc. simpl. destruct_or! Hc; subst; done. }
  unfold gettoken, mbind, M_bind, gets. rewrite (at_skip _ _ H Hs), (at_ch _ _ H). change (first (c :: SP :: l)) with c. rewrite (proj2 (Z.eqb_neq _ _)) by done.
  pose proof (at_cons _ _ _ H) as H1. rewrite (at_ch _ _ H1). change (first (SP :: l)) with SP.
  destruct (has [124; 40; 41; 59; 38; 60] c) eqn:E.
  - unfold modify, mret, M_ret. cbv beta iota. by rewrite (at_skip_space _ _ H1 Hl).
  - assert (c = 62) as ->.
    { unfold has in E. rewrite (proj2 (Z.eqb_neq _ _)) in E by done. simpl in E. apply bool_decide_eq_false in E. set_solver. }
    change (62 =? 62) with true. change (SP =? 62) with false. unfold modify, mret, M_ret. cbv beta iota. by rewrite (at_skip_space _ _ H1 Hl).
Qed.

Lemma gettoken_end p : at_ p [] → gettoken buf p = Ok ((0, p, p), p).
Proof using Type.
  intros H. unfold gettoken, mbind, M_bind, gets. rewrite (at_skip _ _ H I), (at_ch _ _ H). simpl.
  unfold modify, mret, M_ret. by rewrite (at_skip _ _ H I).
Qed.

(** *** Parsed commands and the text they come from *)

Definition token (a e : nat) (w : list Z) : Prop := word_ok w ∧ e = (a + length w)%nat ∧ ∃ l, at_ a (show_word w ++ l).

Fixpoint tokens (av ev : list nat) (args : list (list Z)) : Prop :=
  match av, ev, args with
  | [], [], [] => True
  | a :: av, e :: ev, w :: args => token a e w ∧ tokens av ev args
  | _, _, _ => False
  end.

Definition redir_fd (out : bool) : Z := if out then 1 else 0.

Fixpoint den (c : cmd) (d : scmd) : Prop :=
  match c, d with
  | EXEC av ev, SExec args => tokens av ev args
  | REDIR c f e _ fd, SRedir d w out => den c d ∧ token f e w ∧ fd = redir_fd out
  | PIPE l r, SPipe l' r' => den l l' ∧ den r r'
  | LIST l r, SList l' r' => den l l' ∧ den r r'
  | BACK c, SBack d => den c d
  | _, _ => False
  end.

Definition denr (r : redir) (s : list Z * bool) : Prop :=
  let '(f, e, m, fd) := r in token f e s.1 ∧ fd = redir_fd s.2.

Definition sredir (c : scmd) (s : list Z * bool) : scmd := SRedir c s.1 s.2.

Lemma den_redirs rs ss c d : den c d → Forall2 denr rs ss → den (foldl redircmd c rs) (foldl sredir d ss).
Proof using Type.
  intros Hc H. revert c d Hc. induction H as [|[[[f e] m] fd] s rs ss [H1 H2] _ IH]; intros c d Hc; simpl; [done|]. by apply IH.
Qed.

Lemma tokens_app av ev args a e w : tokens av ev args → token a e w → tokens (av ++ [a]) (ev ++ [e]) (args ++ [w]).
Proof using Type.
  revert ev args. induction av as [|a' av IH]; intros [|e' ev] [|w' args] H Ht; simpl in *; try done. destruct H as [? H]. split; [done|]. by apply IH.
Qed.

Lemma tokens_length av ev args : tokens av ev args → length av = length args.
Proof using Type. revert ev args. induction av as [|a' av IH]; intros [|e' ev] [|w' args] H; simpl in *; try done. destruct H as [? H]. f_equal. by eapply IH. Qed.

Lemma at_len p a b : at_ p (a ++ b) → (length a ≤ length buf)%nat.
Proof using Type. intros [H Hp]. apply (f_equal length) in H. rewrite length_drop, length_app in H. lia. Qed.

Lemma solid_redirs ss rest : solid rest → solid (concat (show_redir <$> ss) ++ rest).
Proof using Type. destruct ss as [|[w o] ss]; [done|]. by destruct o. Qed.

Definition redir_step (rs : list redir) : M nat (list redir + list redir) :=
  more ← peek buf [60; 62];
  if more : bool then
    t ← gettoken buf;
    n ← gettoken buf;
    let '(tok, _, _) := t in
    let '(kind, q, eq) := n in
    if negb (Z.eqb kind 97) then panic "missing file for redirection"
    else if Z.eqb tok 60 then mret (inl (rs ++ [(q, eq, O_RDONLY, 0)]))
    else mret (inl (rs ++ [(q, eq, Z.lor O_WRONLY O_CREATE, 1)]))
  else mret (inr rs).

Lemma redir_step_one w out p rest acc (q := S (S p)) :
  at_ p (show_redir (w, out) ++ rest) → word_ok w → solid rest →
  ∃ r, denr r (w, out) ∧ redir_step acc p = Ok (inl (acc ++ [r]), (p + length (show_redir (w, out)))%nat).
Proof using Type.
  intros H Hw Hr. set (c := if out then 62 else 60). assert (at_ p (c :: SP :: show_word w ++ rest)) as H0 by exact H.
  assert (solid (show_word w ++ rest)) as Hsw by (unfold show_word; rewrite <-app_assoc; by apply word_first).
  assert (at_ q (show_word w ++ rest)) as H2 by (by eapply at_cons, at_cons).
  exists (q, (q + length w)%nat, if out then Z.lor O_WRONLY O_CREATE else O_RDONLY, redir_fd out).
  split; [split; [split_and!; [done|done|by eexists]|done]|]. unfold redir_step.
  rewrite (bind_ok _ _ _ _ _ (peek_at [60; 62] _ _ H0 ltac:(by unfold c; destruct out))).
  assert (has [60; 62] (first (c :: SP :: show_word w ++ rest)) = true) as -> by (unfold c; by destruct out).
  rewrite (bind_ok _ _ _ _ _ (gettoken_sym _ _ _ H0 ltac:(unfold c; destruct out; set_solver) Hsw)).
  rewrite (bind_ok _ _ _ _ _ (gettoken_word _ _ _ H2 Hw Hr)). change (negb (97 =? 97)) with false. cbv iota.
  assert (p + length (show_redir (w, out)) = q + length (show_word w))%nat as -> by (unfold q; simpl; lia). unfold c. by destruct out.
Qed.

Lemma redirs_loop ss : ∀ fuel acc p rest,
  at_ p (concat (show_redir <$> ss) ++ rest) → Forall (λ s, word_ok s.1) ss → solid rest → has [60; 62] (first rest) = false → (length ss < fuel)%nat →
  ∃ rs, Forall2 denr rs ss ∧ loop fuel redir_step acc p = Ok (acc ++ rs, (p + length (concat (show_redir <$> ss)))%nat).
Proof using Type.
  induction ss as [|[w out] ss IH]; intros fuel acc p rest H Hw Hr Hf Hfu; (destruct fuel as [|fuel]; [lia|]).
  - exists []. split; [done|]. erewrite loop_inr; [by rewrite app_nil_r, Nat.add_0_r|].
    change (at_ p rest) in H. unfold redir_step. rewrite (bind_ok _ _ _ _ _ (peek_at [60; 62] _ _ H Hr)). by rewrite Hf.
  - rewrite fmap_cons in *. cbn [concat] in *. rewrite <-app_assoc in H. apply Forall_cons in Hw as [Hw1 Hw].
    destruct (redir_step_one w out p _ acc H Hw1) as (r & Dr & Er); [by apply solid_redirs|].
    destruct (IH fuel (acc ++ [r]) _ rest (at_app _ _ _ H) Hw Hr Hf ltac:(simpl in Hfu; lia)) as (rs & Hrs & Erun).
    exists (r :: rs). split; [by constructor|]. rewrite (loop_inl _ _ _ _ _ _ Er), Erun, length_app, <-app_assoc. do 2 f_equal. lia.
Qed.

Lemma parseredirs_at ss p rest :
  at_ p (concat (show_redir <$> ss) ++ rest) → Forall (λ s, word_ok s.1) ss → solid rest → has [60; 62] (first rest) = false →
  ∃ rs, Forall2 denr rs ss ∧ parseredirs buf p = Ok (rs, (p + length (concat (show_redir <$> ss)))%nat).
Proof using Type.
  intros H Hw Hr Hf. destruct (redirs_loop ss (S (length buf)) [] p rest H Hw Hr Hf) as (rs & H1 & H2); [|by exists rs].
  apply at_len in H. assert (length ss ≤ length (concat (show_redir <$> ss)))%nat; [|lia].
  clear. induction ss as [|[w o] ss IH]; [simpl; lia|]. rewrite fmap_cons. cbn [concat length]. rewrite length_app. simpl. lia.
Qed.

(** *** Arguments *)

Definition arg_step (st : list nat * list nat * list redir) : M nat (list nat * list nat * list redir + list nat * list nat * list redir) :=
  let '(argv, eargv, rs) := st in
  stop ← peek buf [124; 41; 38; 59];
  if stop : bool then mret (inr (argv, eargv, rs))
  else
    t ← gettoken buf;
    let '(tok, q, eq) := t in
    if Z.eqb tok 0 then mret (inr (argv, eargv, rs))
    else if negb (Z.eqb tok 97) then panic "syntax"
    else
      let argv := argv ++ [q] in
      let eargv := eargv ++ [eq] in
      if (MAXARGS <=? length argv)%nat then panic "too many args"
      else
        more ← parseredirs buf;
        mret (inl (argv, eargv, rs ++ more)).

(** What may follow a simple command. *)
Definition closes (l : list Z) : Prop := l = [] ∨ has [124; 41; 38; 59] (first l) = true.

Lemma closes_solid l : closes l → solid l ∧ has [60; 62] (first l) = false ∧ has [40] (first l) = false.
Proof using Type.
  intros [->|H]; [done|]. destruct l as [|c l]; [done|]. change (has [124; 41; 38; 59] c = true) in H.
  change (has whitespace c = false ∧ has [60; 62] c = false ∧ has [40] c = false). unfold has in H. apply andb_true_iff in H as [_ H].
  apply bool_decide_eq_true in H. rewrite !elem_of_cons, elem_of_nil in H. by destruct_or! H; subst.
Qed.

Lemma arg_step_end st p rest : at_ p rest → closes rest → arg_step st p = Ok (inr st, p).
Proof using Type.
  intros H Hc. destruct (closes_solid _ Hc) as (Hs & _). destruct st as [[argv eargv] rs]. unfold arg_step.
  rewrite (bind_ok _ _ _ _ _ (peek_at _ _ _ H Hs)). destruct Hc as [->|Hc]; [|by rewrite Hc].
  change (has [124; 41; 38; 59] (first [])) with false. cbv iota. by rewrite (bind_ok _ _ _ _ _ (gettoken_end _ H)).
Qed.

Lemma word_not w l set : word_ok w → (∀ c, c ∈ set → c ∈ symbols) → has set (first (w ++ l)) = false.
Proof using Type.
  intros Hw Hsub. destruct (word_first w l Hw) as (_ & Hc & Hz). unfold wordchar in Hc. apply andb_true_iff in Hc as [_ Hc%negb_true_iff].
  unfold has in *. rewrite (proj2 (Z.eqb_neq _ _)) in * by done. simpl in *. apply bool_decide_eq_false in Hc. apply bool_decide_eq_false. auto.
Qed.

Lemma arg_step_word argv eargv rs w ss p rest :
  at_ p (show_word w ++ concat (show_redir <$> ss) ++ rest) → word_ok w → Forall (λ s, word_ok s.1) ss → solid rest → has [60; 62] (first rest) = false →
  (length argv + 1 < MAXARGS)%nat →
  ∃ rs', Forall2 denr rs' ss ∧ token p (p + length w) w ∧
    arg_step (argv, eargv, rs) p = Ok (inl (argv ++ [p], eargv ++ [(p + length w)%nat], rs ++ rs'), (p + length (show_word w) + length (concat (show_redir <$> ss)))%nat).
Proof using Type.
  intros H Hw Hss Hr Hf Hl. destruct (parseredirs_at ss _ _ (at_app _ _ _ H) Hss Hr Hf) as (rs' & D & E). exists rs'.
  split_and!; [done|split_and!; [done|done|by eexists]|]. unfold arg_step.
  assert (at_ p (w ++ [SP] ++ concat (show_redir <$> ss) ++ rest)) as H' by (unfold show_word in H; by rewrite <-app_assoc in H).
  rewrite (bind_ok _ _ _ _ _ (peek_at _ _ _ H' ltac:(by apply word_first))). rewrite word_not by (done || (unfold symbols; set_solver)).
  rewrite (bind_ok _ _ _ _ _ (gettoken_word _ _ _ H Hw ltac:(by apply solid_redirs))).
  change (97 =? 0) with false. change (negb (97 =? 97)) with false. cbv iota zeta. rewrite length_app. change (length [p]) with 1%nat.
  rewrite (proj2 (Nat.leb_gt MAXARGS (length argv + 1))) by lia. by rewrite (bind_ok _ _ _ _ _ E).
Qed.

Lemma args_loop args ss : ∀ fuel argv eargv pre p rest,
  args ≠ [] → at_ p (concat (show_word <$> args) ++ concat (show_redir <$> ss) ++ rest) → Forall word_ok args → Forall (λ s, word_ok s.1) ss → closes rest →
  (length argv + length args < MAXARGS)%nat → (length args < fuel)%nat → tokens argv eargv pre →
  ∃ av ev rs, tokens av ev (pre ++ args) ∧ Forall2 denr rs ss ∧
    loop fuel arg_step (argv, eargv, []) p = Ok ((av, ev, rs), (p + length (concat (show_word <$> args)) + length (concat (show_redir <$> ss)))%nat).
Proof using Type.
  induction args as [|w args IH]; intros fuel argv eargv pre p rest Hne H Hw Hss Hc Hl Hfu Ht; [done|]. destruct fuel as [|fuel]; [lia|].
  destruct (closes_solid _ Hc) as (Hs & Hf & _). rewrite fmap_cons in *. cbn [concat length] in *. rewrite <-app_assoc in H. apply Forall_cons in Hw as [Hw1 Hw].
  destruct (decide (args = [])) as [->|Hargs].
  - simpl in H. destruct (arg_step_word argv eargv [] w ss p rest H Hw1 Hss Hs Hf ltac:(lia)) as (rs & D & T & E).
    rewrite (loop_inl _ _ _ _ _ _ E). destruct fuel as [|fuel]; [lia|].
    assert (at_ (p + length (show_word w) + length (concat (show_redir <$> ss))) rest) as H' by (by apply at_app, at_app).
    rewrite (loop_inr _ _ _ _ _ _ (arg_step_end _ _ _ H' Hc)). exists (argv ++ [p]), (eargv ++ [(p + length w)%nat]), rs.
    split_and!; [by apply tokens_app|done|]. simpl. rewrite app_nil_r. done.
  - destruct args as [|w2 args]; [done|]. apply Forall_cons in Hw as [Hw2 Hw'].
    set (tl := concat (show_word <$> w2 :: args) ++ concat (show_redir <$> ss) ++ rest) in *.
    assert (solid tl ∧ has [60; 62] (first tl) = false) as [Htl Htf].
    { unfold tl. rewrite fmap_cons. cbn [concat]. unfold show_word at 1 3. rewrite <-!app_assoc. split; [by apply word_first|].
      apply word_not; [done|]. unfold symbols. set_solver. }
    destruct (arg_step_word argv eargv [] w [] p tl H Hw1 ltac:(done) Htl Htf ltac:(simpl in Hl; lia)) as (rs0 & D0 & T & E).
    inversion D0; subst rs0. rewrite (loop_inl _ _ _ _ _ _ E). cbn [concat fmap list_fmap length] in *. rewrite Nat.add_0_r. rewrite app_nil_r.
    destruct (IH fuel (argv ++ [p]) (eargv ++ [(p + length w)%nat]) (pre ++ [w]) (p + length (show_word w))%nat rest) as (av & ev & rs & T' & D & E').
    + done.
    + by apply at_app.
    + by constructor.
    + done.
    + done.
    + rewrite length_app. simpl in *. lia.
    + simpl in *. lia.
    + by apply tokens_app.
    + exists av, ev, rs. rewrite <-app_assoc in T'. split_and!; [done|done|]. rewrite E'. do 2 f_equal. rewrite !length_app. lia.
Qed.

Lemma parse_simple args ss p rest :
  at_ p (concat (show_word <$> args) ++ concat (show_redir <$> ss) ++ rest) → Forall word_ok args → (length args < MAXARGS)%nat → Forall (λ s, word_ok s.1) ss → closes rest →
  ∃ c, den c (foldl sredir (SExec args) ss) ∧
    (rs ← parseredirs buf; a ← parseargs buf rs; let '(argv, eargv, rs) := a in mret (foldl redircmd (EXEC argv eargv) rs)) p =
      Ok (c, (p + length (concat (show_word <$> args)) + length (concat (show_redir <$> ss)))%nat).
Proof using Type.
  intros H Hw Hl Hss Hc. destruct (closes_solid _ Hc) as (Hs & Hf & _). destruct (decide (args = [])) as [->|Hne].
  - simpl in H. destruct (parseredirs_at ss p rest H Hss Hs Hf) as (rs & D & E). rewrite (bind_ok _ _ _ _ _ E).
    exists (foldl redircmd (EXEC [] []) rs). split; [by apply den_redirs|]. unfold parseargs.
    erewrite bind_ok; [|apply loop_inr, (arg_step_end ([], [], rs) _ _ (at_app _ _ _ H) Hc)]. simpl. by rewrite Nat.add_0_r.
  - set (tl := concat (show_word <$> args) ++ _) in H. assert (solid tl ∧ has [60; 62] (first tl) = false) as [Htl Htf].
    { unfold tl. destruct args as [|w args]; [done|]. apply Forall_cons in Hw as [Hw _]. rewrite fmap_cons. cbn [concat]. unfold show_word at 1 3. rewrite <-!app_assoc.
      split; [by apply word_first|]. apply word_not; [done|]. unfold symbols. set_solver. }
    destruct (parseredirs_at [] p tl H ltac:(done) Htl Htf) as (rs0 & D0 & E). inversion D0; subst rs0. rewrite (bind_ok _ _ _ _ _ E). simpl (length _).
    rewrite Nat.add_0_r. destruct (args_loop args ss (S (length buf)) [] [] [] p rest Hne H Hw Hss Hc) as (av & ev & rs & T & D & E'); [simpl; lia| |done|].
    { apply at_len in H. assert (length args ≤ length (concat (show_word <$> args)))%nat; [|lia].
      clear. induction args as [|a args IH]; [simpl; lia|]. rewrite fmap_cons. cbn [concat length]. unfold show_word at 1. rewrite !length_app. simpl. lia. }
    exists (foldl redircmd (EXEC av ev) rs). split; [by apply den_redirs|]. unfold parseargs.
    match goal with |- (?m ≫= _) _ = _ => change m with (loop (S (length buf)) arg_step ([], [], [])) end. by rewrite (bind_ok _ _ _ _ _ E').
Qed.
End tokens.

Close Scope Z_scope.
