(* ===== verification/ShTheorems.v ===== *)
(** * Printing and parsing commands ([src/xv6-public/sh.c])

    The round trip from a command through its text and the parser back, and
    the descriptors that [runcmd] gives to the programs it starts. *)

From S2P Require Import Prelude.
From S2P Require Import Strings.
From S2P Require Import Sh.
From S2P Require Import ShParse.

Open Scope Z_scope.

(** ** The shape of the text *)

Fixpoint unredir (c : scmd) : scmd * list (list Z * bool) :=
  match c with
  | SRedir c f out => let '(b, ss) := unredir c in (b, ss ++ [(f, out)])
  | _ => (c, [])
  end.

Lemma unredir_spec c b ss : unredir c = (b, ss) →
  c = foldl sredir b ss ∧ show 3 c = show 3 b ++ concat (show_redir <$> ss) ∧
  (cmd_ok c → cmd_ok b ∧ Forall (λ s, word_ok s.1) ss) ∧ match b with SRedir _ _ _ => False | _ => True end.
Proof.
  revert ss. induction c as [args|c IH f out|l _ r _|l _ r _|c _]; intros ss E; simpl in E.
  2: { destruct (unredir c) as [b' ss'] eqn:Eu. injection E as -> <-. destruct (IH ss' eq_refl) as (E1 & E2 & E3 & E4). split_and!.
       - by rewrite foldl_app, <-E1.
       - simpl show. rewrite E2, fmap_app, concat_app, <-app_assoc. simpl. by rewrite app_nil_r.
       - intros [Hc Hf]. destruct (E3 Hc) as [H1 H2]. split; [done|]. apply Forall_app. split; [done|]. by constructor.
       - done. }
  all: injection E as <- <-; (split_and!; [done|by rewrite app_nil_r|by intros|done]).
Qed.

Fixpoint unback (c : scmd) : scmd * nat :=
  match c with
  | SBack c => let '(d, k) := unback c in (d, S k)
  | _ => (c, 0%nat)
  end.

Definition ands (k : nat) : list Z := concat (replicate k [38; SP]).

Lemma ands_S k : ands k ++ [38; SP] = ands (S k).
Proof. unfold ands. induction k as [|k IH]; [done|]. simpl in *. by rewrite IH. Qed.

Lemma unback_spec c d k : unback c = (d, k) →
  c = Nat.iter k SBack d ∧ show 1 c = show 2 d ++ ands k ∧ (cmd_ok c → cmd_ok d) ∧ match d with SBack _ => False | _ => True end.
Proof.
  revert k. induction c as [args|c _ f out|l _ r _|l _ r _|c IH]; intros k E; simpl in E.
  5: { destruct (unback c) as [d' k'] eqn:Eu. injection E as -> <-. destruct (IH k' eq_refl) as (E1 & E2 & E3 & E4). split_and!; [|
         |done|done].
       - simpl. by rewrite <-E1.
       - cbn [show]. change (1 <? 1)%nat with false. cbn [paren]. rewrite E2, <-app_assoc. by rewrite ands_S. }
  all: injection E as <- <-; (split_and!; [done|by rewrite app_nil_r|done|done]).
Qed.

Lemma show_paren b : match b with SRedir _ _ _ | SExec _ => False | _ => True end → show 3 b = 40 :: SP :: show 0 b ++ [41; SP].
Proof. by destruct b. Qed.

Lemma show_23 c : match c with SPipe _ _ => False | _ => True end → show 2 c = show 3 c.
Proof. by destruct c. Qed.

Section roundtrip.
Context (buf : list Z).

Lemma backs_at k : ∀ fuel c d p rest, at_ buf p (ands k ++ rest) → den buf c d → solid rest → has [38] (first rest) = false → (k < fuel)%nat →
  ∃ c', den buf c' (Nat.iter k SBack d) ∧ loop fuel (λ c, more ← peek buf [38]; if more : bool then gettoken buf;; mret (inl (BACK c)) else mret (inr c)) c p =
    Ok (c', (p + length (ands k))%nat).
Proof using Type.
  induction k as [|k IH]; intros fuel c d p rest H Hd Hr Hf Hfu; (destruct fuel as [|fuel]; [lia|]).
  - exists c. split; [done|]. erewrite loop_inr; [by rewrite Nat.add_0_r|]. change (at_ buf p rest) in H.
    rewrite (bind_ok _ _ _ _ _ (peek_at _ _ _ _ H Hr)). by rewrite Hf.
  - change (ands (S k)) with (38 :: SP :: ands k) in *. assert (solid (ands k ++ rest)) as Hs by (by destruct k).
    assert (at_ buf p (38 :: SP :: ands k ++ rest)) as H0 by exact H.
    destruct (IH fuel (BACK c) (SBack d) (S (S p)) rest) as (c' & D & E); [by eapply at_cons, at_cons|done|done|done|lia|].
    exists c'. split; [by rewrite Nat.iter_succ_r|]. erewrite loop_inl; [rewrite E; do 2 f_equal; simpl; lia|].
    rewrite (bind_ok _ _ _ _ _ (peek_at _ _ _ _ H0 ltac:(done))). change (has [38] (first (38 :: SP :: ands k ++ rest))) with true. cbv iota.
    by rewrite (bind_ok _ _ _ _ _ (gettoken_sym _ _ _ _ H0 ltac:(set_solver) Hs)).
Qed.

Lemma parsebacks_at k c d p rest : at_ buf p (ands k ++ rest) → den buf c d → solid rest → has [38] (first rest) = false →
  ∃ c', den buf c' (Nat.iter k SBack d) ∧ parsebacks buf c p = Ok (c', (p + length (ands k))%nat).
Proof using Type.
  intros H Hd Hr Hf. apply (backs_at k (S (length buf)) c d p rest); try done. apply at_len in H.
  assert (length (ands k) = 2 * k)%nat; [|lia]. clear. unfold ands. induction k as [|k IH]; [done|]. simpl in *. rewrite IH. lia.
Qed.

(** What may follow a line and a pipeline. *)
Definition line_end (l : list Z) : Prop := l = [] ∨ first l = 41.
Definition pipe_end (l : list Z) : Prop := l = [] ∨ has [41; 38; 59] (first l) = true.

Lemma pipe_end_closes l : pipe_end l → closes l ∧ has [124] (first l) = false.
Proof using Type.
  intros [->|H]; [split; [by left|done]|]. unfold closes, has in *. apply andb_true_iff in H as [Hz H%bool_decide_eq_true]. rewrite Hz. simpl.
  revert H. generalize (first l). intros c. rewrite !elem_of_cons, elem_of_nil. intros [->|[->|[->|[]]]]; (split; [right|]; done).
Qed.

Lemma line_end_cases l : line_end l → solid l ∧ pipe_end l ∧ has [38] (first l) = false ∧ has [59] (first l) = false.
Proof using Type.
  intros [->|H]; [split_and!; [done|by left|done|done]|]. destruct l as [|c l]; [split_and!; [done|by left|done|done]|]. change (c = 41) in H. subst c. split_and!; [done|by right|done|done].
Qed.

Definition L0 (fuel : nat) : Prop := ∀ c p rest, cmd_ok c → at_ buf p (show 0 c ++ rest) → line_end rest → (4 * length (show 0 c) + 4 ≤ fuel)%nat →
  ∃ c', den buf c' c ∧ parseline buf fuel p = Ok (c', (p + length (show 0 c))%nat).
Definition L2 (fuel : nat) : Prop := ∀ c p rest, cmd_ok c → at_ buf p (show 2 c ++ rest) → pipe_end rest → (4 * length (show 2 c) + 3 ≤ fuel)%nat →
  ∃ c', den buf c' c ∧ parsepipe buf fuel p = Ok (c', (p + length (show 2 c))%nat).
Definition L3 (fuel : nat) : Prop := ∀ c p rest, cmd_ok c → at_ buf p (show 3 c ++ rest) → closes rest → (4 * length (show 3 c) + 2 ≤ fuel)%nat →
  ∃ c', den buf c' c ∧ parseexec buf fuel p = Ok (c', (p + length (show 3 c))%nat).

(** A parenthesised line with redirections. *)
Lemma block_at fuel b ss p rest : L0 fuel → cmd_ok b → Forall (λ s, word_ok s.1) ss → closes rest →
  at_ buf p ((40 :: SP :: show 0 b ++ [41; SP]) ++ concat (show_redir <$> ss) ++ rest) → (4 * length (show 0 b) + 4 ≤ fuel)%nat →
  ∃ c', den buf c' (foldl sredir b ss) ∧
    parseblock buf (S fuel) p = Ok (c', (p + length (40%Z :: SP :: show 0 b ++ [41%Z; SP]) + length (concat (show_redir <$> ss)))%nat).
Proof using Type.
  intros IH Hb Hss Hc H Hfu. destruct (closes_solid _ Hc) as (Hs & Hf & _).
  set (tl := concat (show_redir <$> ss) ++ rest) in *. assert (at_ buf p (40 :: SP :: show 0 b ++ 41 :: SP :: tl)) as H0.
  { rewrite <-app_comm_cons in H. rewrite <-app_comm_cons in H. by rewrite <-app_assoc in H. }
  assert (solid (show 0 b ++ 41 :: SP :: tl)) as Hsb by (by apply solid_show).
  pose proof (at_cons _ _ _ _ (at_cons _ _ _ _ H0)) as H1.
  destruct (IH b (S (S p)) (41 :: SP :: tl) Hb H1) as (c & D & E); [by right|done|].
  pose proof (at_app _ _ _ _ H1) as H2. assert (solid tl) as Htl by by apply solid_redirs.
  pose proof (at_cons _ _ _ _ (at_cons _ _ _ _ H2)) as H3. destruct (parseredirs_at buf ss _ rest H3 Hss Hs Hf) as (rs & Dr & Er).
  exists (foldl redircmd c rs). split; [by apply den_redirs|]. cbn [parseblock].
  rewrite (bind_ok _ _ _ _ _ (peek_at _ [40] _ _ H0 ltac:(done))). change (negb (has [40] (first (40 :: SP :: show 0 b ++ 41 :: SP :: tl)))) with false. cbv iota.
  rewrite (bind_ok _ _ _ _ _ (gettoken_sym _ _ _ _ H0 ltac:(set_solver) Hsb)), (bind_ok _ _ _ _ _ E).
  rewrite (bind_ok _ _ _ _ _ (peek_at _ [41] _ _ H2 ltac:(done))). change (negb (has [41] (first (41 :: SP :: tl)))) with false. cbv iota.
  rewrite (bind_ok _ _ _ _ _ (gettoken_sym _ _ _ _ H2 ltac:(set_solver) Htl)), (bind_ok _ _ _ _ _ Er). unfold mret, M_ret. do 2 f_equal.
  simpl. rewrite length_app. simpl. lia.
Qed.

Lemma exec_at fuel : (∀ f, (f < fuel)%nat → L0 f) → L3 fuel.
Proof using Type.
  intros IH c p rest Hok H Hc Hfu. destruct fuel as [|fuel]; [lia|]. destruct (closes_solid _ Hc) as (Hs & Hf & H40).
  destruct (unredir c) as [b ss] eqn:Eu. destruct (unredir_spec c b ss Eu) as (E1 & E2 & E3 & E4). destruct (E3 Hok) as [Hb Hss].
  assert (solid (show 3 c ++ rest)) as Hsc by (by apply solid_show).
  cbn [parseexec]. rewrite (bind_ok _ _ _ _ _ (peek_at _ [40] _ _ H Hsc)). rewrite E2 in *. rewrite <-app_assoc in *.
  assert (∀ args, b = SExec args → has [40] (first (show 3 (SExec args) ++ concat (show_redir <$> ss) ++ rest)) = false) as Hsimple.
  { intros args ->. destruct args as [|w args]; simpl.
    - destruct ss as [|[w o] ss]; [done|]. by destruct o.
    - destruct Hb as [Hb _]. apply Forall_cons in Hb as [Hb _]. unfold show_word at 1. rewrite <-!app_assoc. apply word_not; [done|]. unfold symbols. set_solver. }
  assert ((∃ args, b = SExec args) ∨ match b with SRedir _ _ _ | SExec _ => False | _ => True end) as [[args ->]|Hp] by (destruct b; eauto).
  - rewrite Hsimple by done. destruct Hb as [Hb Hl]. destruct (parse_simple buf args ss p rest H Hb Hl Hss Hc) as (c' & D & E).
    exists c'. split; [by rewrite E1|]. rewrite E, length_app. do 2 f_equal. simpl show. lia.
  - rewrite show_paren in * by done. change (has [40] (first _)) with true. cbv iota. rewrite length_app in Hfu. simpl length in Hfu. rewrite length_app in Hfu.
    destruct fuel as [|fuel]; [lia|].
    destruct (block_at fuel b ss p rest (IH fuel ltac:(lia)) Hb Hss Hc H ltac:(simpl in Hfu; lia)) as (c' & D & E). exists c'. split; [by rewrite E1|].
    rewrite E. do 2 f_equal. rewrite (length_app (40 :: _)). lia.
Qed.

Lemma pipe_at fuel : L3 (Nat.pred fuel) → L2 (Nat.pred fuel) → L2 fuel.
Proof using Type.
  intros I3 I2 c p rest Hok H Hc Hfu. destruct fuel as [|fuel]; [lia|]. simpl Nat.pred in *. destruct (pipe_end_closes _ Hc) as [Hcl Hbar].
  destruct (closes_solid _ Hcl) as (Hs & _). cbn [parsepipe].
  assert ((∃ l r, c = SPipe l r) ∨ match c with SPipe _ _ => False | _ => True end) as [(l & r & ->)|Hp] by (destruct c; eauto).
  - change (show 2 (SPipe l r)) with (show 3 l ++ 124 :: SP :: show 2 r) in *. rewrite <-app_assoc in H. change ((124 :: SP :: show 2 r) ++ rest) with (124 :: SP :: show 2 r ++ rest) in H.
    rewrite length_app in *. simpl length in *. destruct Hok as [Hl Hr].
    destruct (I3 l p _ Hl H) as (c1 & D1 & E1); [by right|lia|]. rewrite (bind_ok _ _ _ _ _ E1). pose proof (at_app _ _ _ _ H) as H1.
    rewrite (bind_ok _ _ _ _ _ (peek_at _ [124] _ _ H1 ltac:(done))). change (has [124] (first (124 :: SP :: show 2 r ++ rest))) with true. cbv iota.
    rewrite (bind_ok _ _ _ _ _ (gettoken_sym _ _ _ _ H1 ltac:(set_solver) ltac:(by apply solid_show))).
    destruct (I2 r _ rest Hr (at_cons _ _ _ _ (at_cons _ _ _ _ H1)) Hc ltac:(lia)) as (c2 & D2 & E2). rewrite (bind_ok _ _ _ _ _ E2).
    exists (PIPE c1 c2). split; [done|]. unfold mret, M_ret. do 2 f_equal. lia.
  - rewrite show_23 in * by done. destruct (I3 c p rest Hok H Hcl ltac:(lia)) as (c1 & D1 & E1). exists c1. split; [done|].
    rewrite (bind_ok _ _ _ _ _ E1). rewrite (bind_ok _ _ _ _ _ (peek_at _ [124] _ _ (at_app _ _ _ _ H) Hs)). by rewrite Hbar.
Qed.

(** A pipeline and its [&]s. *)
Lemma backs_line fuel c p rest : L2 fuel → cmd_ok c → at_ buf p (show 1 c ++ rest) → solid rest → pipe_end rest → has [38] (first rest) = false →
  (4 * length (show 1 c) + 3 ≤ fuel)%nat →
  ∃ c', den buf c' c ∧ (d ← parsepipe buf fuel; parsebacks buf d) p = Ok (c', (p + length (show 1 c))%nat).
Proof using Type.
  intros I2 Hok H Hs Hpe Hf Hfu. destruct (unback c) as [d k] eqn:Eu. destruct (unback_spec c d k Eu) as (E1 & E2 & E3 & _).
  rewrite E2 in *. rewrite <-app_assoc in H. rewrite length_app in *. assert (pipe_end (ands k ++ rest)) as Hpe' by (destruct k; [done|by right]).
  destruct (I2 d p _ (E3 Hok) H Hpe' ltac:(lia)) as (c1 & D1 & R1).
  destruct (parsebacks_at k c1 d _ rest (at_app _ _ _ _ H) D1 Hs Hf) as (c2 & D2 & R2). exists c2. split; [by rewrite E1|].
  rewrite (bind_ok _ _ _ _ _ R1), R2. do 2 f_equal. lia.
Qed.

Lemma line_at fuel : L2 (Nat.pred fuel) → L0 (Nat.pred fuel) → L0 fuel.
Proof using Type.
  intros I2 I0 c p rest Hok H Hc Hfu. destruct fuel as [|fuel]; [lia|]. simpl Nat.pred in *. destruct (line_end_cases _ Hc) as (Hs & Hpe & H38 & H59).
  cbn [parseline].
  assert ((∃ l r, c = SList l r) ∨ match c with SList _ _ => False | _ => True end) as [(l & r & ->)|Hp] by (destruct c; eauto).
  - change (show 0 (SList l r)) with (show 1 l ++ 59 :: SP :: show 0 r) in *. rewrite <-app_assoc in H. change ((59 :: SP :: show 0 r) ++ rest) with (59 :: SP :: show 0 r ++ rest) in H.
    rewrite length_app in *. simpl length in *. destruct Hok as [Hl Hr].
    destruct (backs_line fuel l p _ I2 Hl H) as (c1 & D1 & E1); [done|by right|done|lia|]. unfold mbind at 1, M_bind at 1 in E1. unfold mbind at 1, M_bind at 1.
    destruct (parsepipe buf fuel p) as [[d q]|]; [|done]. rewrite (bind_ok _ _ _ _ _ E1). pose proof (at_app _ _ _ _ H) as H1.
    rewrite (bind_ok _ _ _ _ _ (peek_at _ [59] _ _ H1 ltac:(done))). change (has [59] (first (59 :: SP :: show 0 r ++ rest))) with true. cbv iota.
    rewrite (bind_ok _ _ _ _ _ (gettoken_sym _ _ _ _ H1 ltac:(set_solver) ltac:(by apply solid_show))).
    destruct (I0 r _ rest Hr (at_cons _ _ _ _ (at_cons _ _ _ _ H1)) Hc ltac:(lia)) as (c2 & D2 & E2). rewrite (bind_ok _ _ _ _ _ E2).
    exists (LIST c1 c2). split; [done|]. unfold mret, M_ret. do 2 f_equal. lia.
  - assert (show 0 c = show 1 c) as Es by by destruct c. rewrite Es in *. destruct (backs_line fuel c p rest I2 Hok H Hs Hpe H38 ltac:(lia)) as (c1 & D1 & E1).
    exists c1. split; [done|]. unfold mbind at 1, M_bind at 1 in E1. unfold mbind at 1, M_bind at 1.
    destruct (parsepipe buf fuel p) as [[d q]|]; [|done]. rewrite (bind_ok _ _ _ _ _ E1).
    rewrite (bind_ok _ _ _ _ _ (peek_at _ [59] _ _ (at_app _ _ _ _ H) Hs)). by rewrite H59.
Qed.

Lemma levels fuel : L0 fuel ∧ L2 fuel ∧ L3 fuel.
Proof using Type.
  induction fuel as [fuel IH] using lt_wf_ind. assert (L3 fuel) as H3 by (apply exec_at; intros f Hf; by apply IH).
  destruct fuel as [|fuel]; [split_and!; [|..|done]; intros c p rest _ _ _ Hf; lia|].
  destruct (IH fuel ltac:(lia)) as (I0 & I2 & I3). split_and!; [by apply line_at|by apply pipe_at|done].
Qed.

(** *** Terminating the strings *)

Lemma nul_positions c d : den buf c d → ∀ e, e ∈ nulterminate c → buf !! e = Some SP.
Proof using Type.
  assert (∀ a e w, token buf a e w → buf !! e = Some SP) as Ht.
  { intros a e w (_ & -> & l & [H _]). rewrite <-lookup_drop, H. unfold show_word. rewrite <-app_assoc, lookup_app_r, Nat.sub_diag by done. done. }
  revert d. induction c as [av ev|c IH f e m fd|l IHl r IHr|l IHl r IHr|c IH]; intros [args|d w out|l' r'|l' r'|d] D x Hx; simpl in *; try done.
  - revert ev args D Hx. induction av as [|a av IH]; intros [|e ev] [|w args] D Hx; simpl in *; try done; [by apply elem_of_nil in Hx|].
    destruct D as [T D]. apply elem_of_cons in Hx as [->|Hx]; [by eapply Ht|by eapply IH].
  - destruct D as (D & T & _). apply elem_of_app in Hx as [Hx|Hx%list_elem_of_singleton]; [by eapply IH|]. subst x. by eapply Ht.
  - destruct D as [D1 D2]. apply elem_of_app in Hx as [Hx|Hx]; eauto.
  - destruct D as [D1 D2]. apply elem_of_app in Hx as [Hx|Hx]; eauto.
  - eauto.
Qed.

Definition put_nuls (b : list Z) (E : list nat) : list Z := foldl (λ b e, <[e := 0]> b) b E.

Lemma put_nuls_lookup E : ∀ b i, (i < length b)%nat → put_nuls b E !! i = if decide (i ∈ E) then Some 0 else b !! i.
Proof using Type.
  induction E as [|e E IH]; intros b i Hi; [done|]. change (put_nuls b (e :: E)) with (put_nuls (<[e := 0]> b) E).
  rewrite IH by (by rewrite length_insert). destruct (decide (i ∈ E)) as [H|H]; [by rewrite decide_True by by right|].
  destruct (decide (i = e)) as [->|Hne]; [rewrite decide_True by left; by apply list_lookup_insert_eq|].
  rewrite decide_False by (by rewrite elem_of_cons; intros [|]). by apply list_lookup_insert_ne.
Qed.

Lemma str_at_word b a w : (∀ j, (j < length w)%nat → b !! (a + j)%nat = w !! j) → b !! (a + length w)%nat = Some 0 → 0 ∉ w → str_at b a = w.
Proof using Type.
  revert a. induction w as [|c w IH]; intros a Hj H0 Hz; unfold str_at.
  - simpl in H0. rewrite Nat.add_0_r in H0. by rewrite (drop_S _ _ _ H0).
  - apply not_elem_of_cons in Hz as [Hc Hz]. pose proof (Hj 0%nat ltac:(simpl; lia)) as Ha. rewrite Nat.add_0_r in Ha. simpl in Ha.
    rewrite (drop_S _ _ _ Ha). simpl. rewrite (proj2 (Z.eqb_neq _ _)) by done. f_equal. apply IH; [|by rewrite <-H0; f_equal; simpl; lia|done].
    intros j Hlt. replace (S a + j)%nat with (a + S j)%nat by lia. rewrite Hj by (simpl; lia). done.
Qed.

Lemma token_string E a e w : (∀ x, x ∈ E → buf !! x = Some SP) → token buf a e w → e ∈ E → str_at (put_nuls (buf ++ [0]) E) a = w.
Proof using Type.
  intros HE (Hw & -> & l & [H Hp]) Hin. assert (∀ j, (j < length w)%nat → buf !! (a + j)%nat = w !! j) as Hj.
  { intros j Hlt. rewrite <-lookup_drop, H. unfold show_word. rewrite <-app_assoc. by rewrite lookup_app_l. }
  assert (∀ x y, buf !! x = Some y → (x < length (buf ++ [0%Z]))%nat) as Hlen by (intros x y Hx; apply lookup_lt_Some in Hx; rewrite length_app; simpl; lia).
  apply str_at_word.
  - intros j Hlt. pose proof (Hj j Hlt) as E1. destruct (lookup_lt_is_Some_2 w j Hlt) as [c Hc]. rewrite Hc in *.
    rewrite put_nuls_lookup by (by eapply Hlen). rewrite lookup_app_l by (by eapply lookup_lt_Some). rewrite decide_False; [done|].
    intros Hx. apply HE in Hx. rewrite Hx in E1. injection E1 as <-. destruct Hw as [_ Hf]. rewrite Forall_lookup in Hf. by destruct (Hf j SP Hc) as [Hb _].
  - pose proof (HE _ Hin) as E1. rewrite put_nuls_lookup by (by eapply Hlen). by rewrite decide_True.
  - destruct Hw as [_ Hf]. intros Hz. rewrite Forall_forall in Hf. by destruct (Hf 0 Hz) as [_ Hn].
Qed.

Lemma resolve_den E c d : (∀ x, x ∈ E → buf !! x = Some SP) → den buf c d → (∀ e, e ∈ nulterminate c → e ∈ E) → resolve (put_nuls (buf ++ [0]) E) c = d.
Proof using Type.
  intros HE. revert d. induction c as [av ev|c IH f e m fd|l IHl r IHr|l IHl r IHr|c IH]; intros [args|d w out|l' r'|l' r'|d] D Hn; simpl in *; try done.
  - f_equal. revert ev args D Hn. induction av as [|a av IH]; intros [|e ev] [|w args] D Hn; simpl in *; try done.
    destruct D as [T D]. f_equal; [eapply token_string; [done|done|apply Hn; left]|eapply IH; [done|]]. intros x Hx. apply Hn. by right.
  - destruct D as (D & T & ->). f_equal; [apply IH; [done|]; intros x Hx; apply Hn; apply elem_of_app; by left
      |eapply token_string; [done|done|]; apply Hn, elem_of_app; right; by apply list_elem_of_singleton|by destruct out].
  - destruct D as [D1 D2]. f_equal; [apply IHl|apply IHr]; try done; intros x Hx; apply Hn, elem_of_app; auto.
  - destruct D as [D1 D2]. f_equal; [apply IHl|apply IHr]; try done; intros x Hx; apply Hn, elem_of_app; auto.
  - f_equal. by apply IH.
Qed.
End roundtrip.

(** C24: the shell reads back what is written.  A command with any nesting of
    lists, pipelines, background commands and redirections is written with
    parentheses where its place needs them; [parsecmd] accepts the text, and
    the strings of the command it returns, read from the buffer after
    [nulterminate] has stored its NULs, are exactly the words of the
    command, in its structure. *)
Theorem sh_parse_roundtrip c :
  cmd_ok c → ∃ c' b, parsecmd (show 0 c) = Ok (c', b) ∧ resolve b c' = c.
Proof.
  intros Hok. set (buf := show 0 c). assert (at_ buf 0 (show 0 c ++ [])) as H by (split; [by rewrite app_nil_r|lia]).
  destruct (levels buf (parse_fuel buf)) as (H0 & _). destruct (H0 c 0%nat [] Hok H) as (c' & D & E); [by left|unfold parse_fuel, buf; lia|].
  exists c', (put_nuls (buf ++ [0]) (nulterminate c')). split.
  - unfold parsecmd. rewrite (bind_ok _ _ _ _ _ E). rewrite (bind_ok _ _ _ _ _ (peek_at _ [] _ _ (at_app _ _ _ _ H) I)).
    unfold mret, M_ret. by rewrite decide_True.
  - apply (resolve_den buf _ _ c); [by eapply nul_positions|done|done].
Qed.

(** ** Descriptors *)

Lemma fd_from_spec fds n : ∀ k (r := fd_from fds k n), (k ≤ r ≤ k + n)%nat ∧ (∀ j, (k ≤ j < r)%nat → is_Some (fds !! j)) ∧ ((r < k + n)%nat → fds !! r = None).
Proof.
  induction n as [|n IH]; intros k; simpl; [split_and!; lia|]. destruct (fds !! k) as [t|] eqn:E; [|split_and!; [lia|lia|lia|done]].
  destruct (IH (S k)) as (H1 & H2 & H3). split_and!; [lia|lia| |intros H; apply H3; lia].
  intros j Hj. destruct (decide (j = k)) as [->|]; [by eexists|]. apply H2. lia.
Qed.

Lemma fd_least_spec fds (r := fd_least fds) : fds !! r = None ∧ ∀ j, (j < r)%nat → is_Some (fds !! j).
Proof.
  destruct (fd_from_spec fds (size fds) 0) as (H1 & H2 & H3). fold (fd_least fds) in *. fold r in H1, H2, H3. split; [|intros j Hj; apply H2; lia].
  destruct (decide (r < size fds)%nat) as [|Hge]; [apply H3; lia|]. destruct (fds !! r) as [t|] eqn:E; [|done]. exfalso.
  assert (list_to_set (seq 0 (S r)) ⊆ dom fds) as Hsub.
  { intros j Hj%elem_of_list_to_set%elem_of_seq. apply elem_of_dom. destruct (decide (j = r)) as [->|]; [by eexists|]. apply H2. lia. }
  apply subseteq_size in Hsub. rewrite size_list_to_set, size_dom, length_seq in Hsub by apply NoDup_seq. lia.
Qed.

Lemma fd_least_eq fds r : fds !! r = None → (∀ j, (j < r)%nat → is_Some (fds !! j)) → fd_least fds = r.
Proof.
  intros Hr Hlt. destruct (fd_least_spec fds) as [H1 H2]. destruct (lt_eq_lt_dec (fd_least fds) r) as [[H|H]|H]; [|done|].
  - apply Hlt in H as [t Ht]. congruence.
  - apply H2 in H as [t Ht]. congruence.
Qed.

(** Reopening descriptor 0 or 1. *)
Lemma reopen fds fd t : (fd < 2)%nat → is_Some (fds !! 0%nat) → snd (fd_open t (delete fd fds)) = <[fd := t]> fds.
Proof.
  intros Hfd H0. unfold fd_open. simpl. rewrite (fd_least_eq _ fd); [by rewrite insert_delete_eq|by rewrite lookup_delete_eq|].
  intros j Hj. rewrite lookup_delete_ne by lia. assert (j = 0%nat) as -> by lia. done.
Qed.

(** What should be started: a redirection replaces its descriptor, a pipe
    replaces the output on the left and the input on the right, and nothing
    else changes. *)
Fixpoint launches (buf : list Z) (open_ok : list Z → Z → bool) (c : cmd) (fds : gmap nat target) (np : nat) : list launch * nat :=
  match c with
  | EXEC [] _ => ([], np)
  | EXEC argv _ => ([(str_at buf <$> argv, fds)], np)
  | REDIR c file _ mode fd =>
      if open_ok (str_at buf file) mode then launches buf open_ok c (<[Z.to_nat fd := Opened (str_at buf file) mode]> fds) np else ([], np)
  | LIST l r =>
      let '(ps, np) := launches buf open_ok l fds np in
      let '(qs, np) := launches buf open_ok r fds np in (ps ++ qs, np)
  | PIPE l r =>
      let '(ps, np') := launches buf open_ok l (<[1%nat := PipeWr np]> fds) (S np) in
      let '(qs, np') := launches buf open_ok r (<[0%nat := PipeRd np]> fds) np' in (ps ++ qs, np')
  | BACK c => launches buf open_ok c fds np
  end.

Fixpoint redirs_std (c : cmd) : Prop :=
  match c with
  | EXEC _ _ => True
  | REDIR c _ _ _ fd => redirs_std c ∧ (fd = 0 ∨ fd = 1)
  | PIPE l r | LIST l r => redirs_std l ∧ redirs_std r
  | BACK c => redirs_std c
  end.

(** C36: [runcmd] wires descriptors as intended.  In a shell whose standard
    input and output are open, the closes, dups and opens of [runcmd] and
    its children give every program exactly the shell's descriptors, with
    its redirections and pipe ends in place of standard input and output:
    no end of a pipe leaks into a program, and no descriptor is lost. *)
Theorem runcmd_wires_descriptors buf open_ok c fds np :
  is_Some (fds !! 0%nat) → is_Some (fds !! 1%nat) → redirs_std c →
  runcmd buf open_ok c fds np = launches buf open_ok c fds np.
Proof.
  revert fds np. induction c as [av ev|c IH f e m fd|l IHl r IHr|l IHl r IHr|c IH]; intros fds np H0 H1 Hstd; cbn [runcmd launches redirs_std] in *.
  - by destruct av.
  - destruct Hstd as [Hstd Hfd]. destruct (open_ok _ m); [|done].
    assert (Z.to_nat fd < 2)%nat as Hlt by lia. rewrite reopen by done. apply IH; [| |done]; rewrite lookup_insert; case_decide; eauto.
  - destruct Hstd as [Hl Hr]. unfold fd_open at 1. destruct (fd_least_spec fds) as [P0 Q0]. set (p0 := fd_least fds) in *.
    assert (2 ≤ p0)%nat as Hp0. { destruct H0 as [t0 E0], H1 as [t1 E1]. destruct p0 as [|[|]]; [congruence|congruence|lia]. }
    unfold fd_open at 1. set (fds1 := <[p0 := PipeRd np]> fds). destruct (fd_least_spec fds1) as [P1 Q1]. set (p1 := fd_least fds1) in *.
    assert (p1 ≠ p0 ∧ fds !! p1 = None) as [Hne P1'].
    { unfold fds1 in P1. destruct (decide (p0 = p1)) as [E|E]; [rewrite E, lookup_insert_eq in P1; done|]. by rewrite lookup_insert_ne in P1. }
    assert (2 ≤ p1)%nat as Hp1. { destruct H0 as [t0 E0], H1 as [t1 E1]. destruct p1 as [|[|]]; [congruence|congruence|lia]. }
    assert (∀ x t, (x < 2)%nat → delete p1 (delete p0 (<[x := t]> (<[p1 := PipeWr np]> fds1))) = <[x := t]> fds) as Hdel.
    { intros x t Hx. unfold fds1. apply map_eq. intros j. rewrite !lookup_delete, !lookup_insert. repeat case_decide; subst; try done; lia. }
    set (fds2 := <[p1 := PipeWr np]> fds1) in *.
    assert (is_Some (fds2 !! 0%nat)) as H20 by (unfold fds2, fds1; rewrite !lookup_insert_ne by lia; done).
    assert (delete p1 (delete p0 (fd_dup p1 (delete 1%nat fds2))) = <[1%nat := PipeWr np]> fds) as ->.
    { unfold fd_dup. rewrite lookup_delete_ne by lia. unfold fds2 at 1. rewrite lookup_insert_eq, reopen by (done || lia). apply Hdel. lia. }
    assert (delete p1 (delete p0 (fd_dup p0 (delete 0%nat fds2))) = <[0%nat := PipeRd np]> fds) as ->.
    { unfold fd_dup. rewrite lookup_delete_ne by lia. unfold fds2 at 1. rewrite lookup_insert_ne by done. unfold fds1 at 1. rewrite lookup_insert_eq.
      rewrite reopen by (done || lia). apply Hdel. lia. }
    rewrite IHl; [|rewrite lookup_insert_ne by done; done|rewrite lookup_insert_eq; by eexists|done]. destruct (launches buf open_ok l _ _) as [ps np'].
    rewrite IHr; [done|rewrite lookup_insert_eq; by eexists|rewrite lookup_insert_ne by done; done|done].
  - destruct Hstd as [Hl Hr]. rewrite IHl by done. destruct (launches buf open_ok l fds np) as [ps np']. by rewrite IHr.
  - by apply IH.
Qed.

(** ** On concrete commands *)

(** [( cat < f ; ls ) | wc] *)
Definition sample_cmd : scmd :=
  SPipe (SList (SRedir (SExec [[99; 97; 116]]) [102] false) (SExec [[108; 115]])) (SExec [[119; 99]]).

Lemma sh_parse_roundtrip_witness : cmd_ok sample_cmd ∧ ∃ c' b, parsecmd (show 0 sample_cmd) = Ok (c', b) ∧ resolve b c' = sample_cmd.
Proof.
  assert (cmd_ok sample_cmd) as H.
  { unfold sample_cmd, cmd_ok, word_ok, MAXARGS. split_and!; try (simpl; lia); try done; repeat constructor; done. }
  split; [exact H|]. exact (sh_parse_roundtrip sample_cmd H).
Defined.

Definition tty_fds : gmap nat target := {[0%nat := Tty 0; 1%nat := Tty 1; 2%nat := Tty 2]}.

Lemma runcmd_wires_descriptors_witness :
  runcmd [97; 0; 98; 0] (λ _ _, true) (PIPE (EXEC [0%nat] [1%nat]) (EXEC [2%nat] [3%nat])) tty_fds 0 =
  ([([[97]], <[1%nat := PipeWr 0]> tty_fds); ([[98]], <[0%nat := PipeRd 0]> tty_fds)], 1%nat).
Proof.
  rewrite (runcmd_wires_descriptors [97; 0; 98; 0] (λ _ _, true) (PIPE (EXEC [0%nat] [1%nat]) (EXEC [2%nat] [3%nat])) tty_fds 0); [reflexivity| | |done].
  - by eexists.
  - by eexists.
Defined.

Close Scope Z_scope.
