(* ===== verification/File.v ===== *)
(** * Open files ([src/xv6-public/file.c], [pipealloc] of [pipe.c])

    The table of open files over the file system of [Fs], the pipes of [Pipe]
    and the pages of [Kalloc].  Transactions are begun and ended through
    [TxnOps].  The sections under [ftable.lock] are single steps.  A read or
    write of a pipe is a round of [piperead] or [pipewrite]; [begin_op] with
    no room in the log is the fault [Spin]. *)

From S2P Require Import Prelude.
From S2P Require Import Words.
From S2P Require Import Bio.
From S2P Require Import Log.
From S2P Require Import BlockStore.
From S2P Require Import Fs.
From S2P Require Import Pipe.
From S2P Require Import Kalloc.

Open Scope Z_scope.

Definition NFILE : nat := 100.
Definition FILEMAX : Z := (MAXOPBLOCKS - 1 - 1 - 2) / 2 * 512.

Inductive filetype := FD_NONE | FD_PIPE | FD_INODE.
#[global] Instance filetype_eq : EqDecision filetype.
Proof. solve_decision. Defined.

Record file := mkFile {
  fl_type : filetype;
  fl_ref : Z;
  fl_readable : Z;
  fl_writable : Z;
  fl_pipe : Z;                 (* the page of the pipe, or 0 *)
  fl_ip : option nat;
  fl_off : Z
}.
Definition file0 : file := mkFile FD_NONE 0 0 0 0 None 0.

Definition set_fl_type (v : filetype) (f : file) : file :=
  mkFile v (fl_ref f) (fl_readable f) (fl_writable f) (fl_pipe f) (fl_ip f) (fl_off f).
Definition set_fl_ref (v : Z) (f : file) : file :=
  mkFile (fl_type f) v (fl_readable f) (fl_writable f) (fl_pipe f) (fl_ip f) (fl_off f).
Definition set_fl_off (v : Z) (f : file) : file :=
  mkFile (fl_type f) (fl_ref f) (fl_readable f) (fl_writable f) (fl_pipe f) (fl_ip f) v.
Definition set_fl_end (rd wr page : Z) (f : file) : file :=
  mkFile FD_PIPE (fl_ref f) rd wr page (fl_ip f) (fl_off f).

Class TxnOps (D : Type) := {
  txn_begin : M D bool;        (* begin_op; false: it has to wait *)
  txn_end : M D unit           (* end_op *)
}.
#[global] Instance log_txn : TxnOps lstate := { txn_begin := begin_op; txn_end := end_op }.

Record flstate (D : Type) := mkFl {
  ftable : gmap nat file;
  fl_fs : fstate D;
  fl_pipes : gmap Z pipe;
  fl_mem : kmem
}.
Arguments mkFl {D} ftable fl_fs fl_pipes fl_mem.
Arguments ftable {D} f.
Arguments fl_fs {D} f.
Arguments fl_pipes {D} f.
Arguments fl_mem {D} f.

Section file.
Context {D : Type} `{!BlockOps D} `{!TxnOps D} (kend : Z).
Abbreviation FL := (M (flstate D)).

Definition set_ftable (v : gmap nat file) (s : flstate D) : flstate D := mkFl v (fl_fs s) (fl_pipes s) (fl_mem s).
Definition set_fs (v : fstate D) (s : flstate D) : flstate D := mkFl (ftable s) v (fl_pipes s) (fl_mem s).
Definition set_pipes (v : gmap Z pipe) (s : flstate D) : flstate D := mkFl (ftable s) (fl_fs s) v (fl_mem s).
Definition set_mem (v : kmem) (s : flstate D) : flstate D := mkFl (ftable s) (fl_fs s) (fl_pipes s) v.

Definition on_fs {A} : M (fstate D) A → FL A := zoom fl_fs set_fs.
Definition on_mem {A} : M kmem A → FL A := zoom fl_mem set_mem.
Definition on_pipe {A} (page : Z) (m : M pipe A) : FL A :=
  ps ← gets fl_pipes;
  match ps !! page with
  | None => fail NullDeref
  | Some p => zoom (λ s, default p (fl_pipes s !! page)) (λ p s, set_pipes (<[page := p]> (fl_pipes s)) s) m
  end.

(** [ftable.file[f]]. *)
Definition fl (s : flstate D) (f : nat) : file := default file0 (ftable s !! f).
Definition rf {A} (f : nat) (g : file → A) : FL A := gets (λ s, g (fl s f)).
Definition wf (f : nat) (g : file → file) : FL unit := modify (λ s, set_ftable (<[f := g (fl s f)]> (ftable s)) s).

Definition begin_txn : FL unit :=
  ok ← on_fs (on_d txn_begin);
  if ok : bool then mret tt else fail Spin.
Definition end_txn : FL unit := on_fs (on_d txn_end).

Definition filealloc : FL (option nat) :=
  loop (S NFILE) (λ f,
    if (f <? NFILE)%nat then
      r ← rf f fl_ref;
      if Z.eqb r 0 then
        wf f (set_fl_ref 1);;
        mret (inr (Some f))
      else mret (inl (S f))
    else mret (inr None)) 0%nat.

Definition filedup (f : nat) : FL nat :=
  r ← rf f fl_ref;
  if Z.ltb r 1 then panic "filedup"
  else
    wf f (set_fl_ref (r + 1));;
    mret f.

(** [pipeclose] and, when both ends are closed, [kfree] of its page. *)
Definition close_pipe (page : Z) (writable : bool) : FL unit :=
  dead ← on_pipe page (pipeclose writable);
  when dead (
    modify (λ s, set_pipes (delete page (fl_pipes s)) s);;
    on_mem (kfree kend page)).

Definition fileclose (f : nat) : FL unit :=
  r ← rf f fl_ref;
  if Z.ltb r 1 then panic "fileclose"
  else
    wf f (set_fl_ref (r - 1));;
    if Z.ltb 0 (r - 1) then mret tt
    else
      ff ← rf f id;
      wf f (set_fl_ref 0);;
      wf f (set_fl_type FD_NONE);;
      match fl_type ff with
      | FD_PIPE => close_pipe (fl_pipe ff) (negb (Z.eqb (fl_writable ff) 0))
      | FD_INODE =>
          begin_txn;;
          ip ← deref (fl_ip ff);
          on_fs (iput ip);;
          end_txn
      | FD_NONE => mret tt
      end.

Definition filestat (f : nat) : FL (Z * option stat) :=
  x ← rf f id;
  if decide (fl_type x = FD_INODE) then
    on_fs (ilock (fl_ip x));;
    ip ← deref (fl_ip x);
    st ← on_fs (stati ip);
    on_fs (iunlock (fl_ip x));;
    mret (0, Some st)
  else mret (-1, None).

Context (dev_read : Z → option (nat → Z → M (fstate D) (Z * list Z))).
Context (dev_write : Z → option (nat → list Z → Z → M (fstate D) Z)).

(** The return value and the bytes stored at [addr]. *)
Definition fileread (killed : bool) (f : nat) (n off : Z) : FL (pround (Z * list Z)) :=
  x ← rf f id;
  if Z.eqb (fl_readable x) 0 then mret (PDone (-1, []))
  else match fl_type x with
  | FD_PIPE => on_pipe (fl_pipe x) (piperead killed (Z.to_nat n))
  | FD_INODE =>
      on_fs (ilock (fl_ip x));;
      ip ← deref (fl_ip x);
      r ← (if Z.ltb off 0 then
             o ← rf f fl_off;
             r ← on_fs (readi dev_read ip o n);
             when (Z.ltb 0 (fst r)) (wf f (λ x, set_fl_off (u32 (fl_off x + fst r)) x));;
             mret r
           else on_fs (readi dev_read ip off n));
      on_fs (iunlock (fl_ip x));;
      mret (PDone r)
  | FD_NONE => panic "fileread"
  end.

(** A turn of the loop of [filewrite] on an inode: one transaction. *)
Definition filewrite_turn (x : file) (f : nat) (addr : list Z) (off : Z) : Z * Z → FL (Z * Z + Z) :=
  λ '(i, o),
    let n := Z.of_nat (length addr) in
    if Z.ltb i n then
      let n1 := if Z.ltb FILEMAX (n - i) then FILEMAX else n - i in
      begin_txn;;
      on_fs (ilock (fl_ip x));;
      ip ← deref (fl_ip x);
      let src := take (Z.to_nat n1) (drop (Z.to_nat i) addr) in
      ro ← (if Z.ltb off 0 then
              fo ← rf f fl_off;
              r ← on_fs (writei dev_write ip src fo n1);
              when (Z.ltb 0 r) (wf f (λ x, set_fl_off (u32 (fl_off x + r)) x));;
              mret (r, o)
            else
              r ← on_fs (writei dev_write ip src (u32 o) n1);
              mret (r, if Z.ltb 0 r then o + r else o));
      on_fs (iunlock (fl_ip x));;
      end_txn;;
      if Z.ltb (fst ro) 0 then mret (inr i)
      else if negb (Z.eqb (fst ro) n1) then panic "short filewrite"
      else mret (inl (i + fst ro, snd ro))
    else mret (inr i).

(** [addr] are the [n] bytes to write; [i] is where a pipe write that slept
    goes on. *)
Definition filewrite (killed : bool) (f : nat) (addr : list Z) (off : Z) (i : nat) : FL (pround Z) :=
  x ← rf f id;
  let n := Z.of_nat (length addr) in
  if Z.eqb (fl_writable x) 0 then mret (PDone (-1))
  else match fl_type x with
  | FD_PIPE => on_pipe (fl_pipe x) (pipewrite killed addr i)
  | FD_INODE =>
      r ← loop (S (length addr)) (filewrite_turn x f addr off) (0, off);
      mret (PDone (if Z.eqb r n then n else -1))
  | FD_NONE => panic "filewrite"
  end.

(** The label [bad] of [pipealloc]. *)
Definition pipealloc_bad (p : Z) (f0 f1 : option nat) : FL (Z * (option nat * option nat)) :=
  when (negb (Z.eqb p 0)) (on_mem (kfree kend p));;
  (match f0 with Some f => fileclose f | None => mret tt end);;
  (match f1 with Some f => fileclose f | None => mret tt end);;
  mret (-1, (f0, f1)).

(** The return value, [*f0] and [*f1].  [data] is at offset 52 of the page. *)
Definition pipealloc : FL (Z * (option nat * option nat)) :=
  f0 ← filealloc;
  match f0 with
  | None => pipealloc_bad 0 None None
  | Some a =>
      f1 ← filealloc;
      match f1 with
      | None => pipealloc_bad 0 f0 None
      | Some b =>
          p ← on_mem kalloc;
          if Z.eqb p 0 then pipealloc_bad 0 f0 f1
          else
            d ← on_mem (ld_page p);
            modify (λ s, set_pipes (<[p := pipe_init (take PIPESIZE (drop 52 d))]> (fl_pipes s)) s);;
            wf a (set_fl_end 1 0 p);;
            wf b (set_fl_end 0 1 p);;
            mret (0, (f0, f1))
      end
  end.
End file.

Close Scope Z_scope.
