(* ===== verification/FileTheorems.v ===== *)
(** * Theorems on open files ([src/xv6-public/file.c], [pipe.c])

    The reference counts of the file table, positions of reads, and the
    failure paths of [pipealloc]. *)

From S2P Require Import Prelude.
From S2P Require Import Words.
From S2P Require Import Bio.
From S2P Require Import Log.
From S2P Require Import BlockStore.
From S2P Require Import Fs.
From S2P Require Import FsAlloc.
From S2P Require Import FsMap.
From S2P Require Import FsFile.
From S2P Require Import FsSample.
From S2P Require Import Pipe.
From S2P Require Import Kalloc.
From S2P Require Import VmTheorems.
From S2P Require Import File.

Open Scope Z_scope.

Section files.
Context {D : Type} `{!BlockOps D} `{!TxnOps D} (kend : Z).
Abbreviation FL := (M (flstate D)).
Implicit Types s : flstate D.

(** ** [filealloc] *)

Definition upd_file (f : nat) (g : file → file) (s : flstate D) : flstate D := set_ftable (<[f := g (fl s f)]> (ftable s)) s.

Lemma fl_upd f g s i : fl (upd_file f g s) i = if decide (i = f) then g (fl s f) else fl s i.
Proof using Type.
  unfold upd_file. unfold fl at 1. simpl. destruct (decide (i = f)) as [E|E]; [rewrite E; by rewrite lookup_insert_eq|by rewrite lookup_insert_ne].
Qed.

Lemma wp_wf f g (Q : unit → flstate D → Prop) s : Q tt (upd_file f g s) → wp (wf f g) Q s.
Proof using Type. done. Qed.

Lemma filealloc_spec s :
  wp filealloc (λ r s', match r with
    | Some f => (f < NFILE)%nat ∧ fl_ref (fl s f) = 0 ∧ s' = upd_file f (set_fl_ref 1) s
    | None => (∀ i, (i < NFILE)%nat → fl_ref (fl s i) ≠ 0) ∧ s' = s
    end) s.
Proof using Type.
  unfold filealloc. apply (wp_loop (λ n f s', n = (NFILE - f)%nat ∧ s' = s ∧ (f ≤ NFILE)%nat ∧ ∀ i, (i < f)%nat → fl_ref (fl s i) ≠ 0)) with (n := NFILE).
  - intros n f s1 (-> & -> & Hf & Hi). destruct (Nat.ltb_spec f NFILE).
    + apply wp_bind, wp_gets. destruct (Z.eqb_spec (fl_ref (fl s f)) 0) as [E|E].
      * apply wp_bind, wp_modify, wp_ret. done.
      * apply wp_ret. eexists. split; [|split_and!; [done|done|lia|]]; [lia|]. intros i Hlt. destruct (decide (i = f)) as [Ei|]; [by rewrite Ei|apply Hi; lia].
    + apply wp_ret. split; [|done]. intros i Hlt. apply Hi. lia.
  - lia.
  - split_and!; [lia|done|lia|lia].
Qed.

(** ** Reference counts *)

(** Operations that leave the counts alone. *)
Definition keeps_refs {A} (m : FL A) : Prop :=
  ∀ s r s', m s = Ok (r, s') → ∀ i, fl_ref (fl s' i) = fl_ref (fl s i).

Lemma kr_ret {A} (a : A) : keeps_refs (mret a).
Proof using Type. intros s r s' [= <- <-]. done. Qed.
Lemma kr_fail {A} e : keeps_refs (A := A) (fail e).
Proof using Type. intros s r s' [=]. Qed.
Lemma kr_gets {A} (g : flstate D → A) : keeps_refs (gets g).
Proof using Type. intros s r s' [= <- <-]. done. Qed.
Lemma kr_bind {A B} (m : FL A) (g : A → FL B) : keeps_refs m → (∀ a, keeps_refs (g a)) → keeps_refs (m ≫= g).
Proof using Type.
  intros Hm Hg s r s'. unfold mbind, M_bind. destruct (m s) as [[a s1]|] eqn:E; [|done]. intros H i. by rewrite (Hg a _ _ _ H), (Hm _ _ _ E).
Qed.
Lemma kr_when b (m : FL unit) : keeps_refs m → keeps_refs (when b m).
Proof using Type. intros Hm. destruct b; [done|apply kr_ret]. Qed.
Lemma kr_fs {A} (m : M (fstate D) A) : keeps_refs (on_fs m).
Proof using Type. intros s r s'. unfold on_fs, zoom. destruct (m (fl_fs s)) as [[a x]|]; [|done]. by intros [= <- <-]. Qed.
Lemma kr_mem {A} (m : M kmem A) : keeps_refs (on_mem m).
Proof using Type. intros s r s'. unfold on_mem, zoom. destruct (m (fl_mem s)) as [[a x]|]; [|done]. by intros [= <- <-]. Qed.
Lemma kr_pipe {A} page (m : M pipe A) : keeps_refs (on_pipe page m).
Proof using Type.
  intros s r s'. unfold on_pipe, mbind, M_bind, gets. destruct (fl_pipes s !! page) as [p|]; [|done].
  unfold zoom. destruct (m _) as [[a x]|]; [|done]. by intros [= <- <-].
Qed.
Lemma kr_wf f g : (∀ x, fl_ref (g x) = fl_ref x) → keeps_refs (wf f g).
Proof using Type.
  intros Hg s r s' [= <- <-] i. change (set_ftable _ s) with (upd_file f g s). rewrite fl_upd. case_decide as E; [by rewrite E, Hg|done].
Qed.
Lemma kr_pipes g : keeps_refs (modify (λ s, set_pipes (g s) s)).
Proof using Type. intros s r s' [= <- <-]. done. Qed.
Lemma kr_loop {A B} fuel (body : A → FL (A + B)) a : (∀ a, keeps_refs (body a)) → keeps_refs (loop fuel body a).
Proof using Type.
  intros Hb. revert a. induction fuel as [|fuel IH]; intros a; [apply kr_fail|]. simpl. apply kr_bind; [apply Hb|]. intros [a'|b]; [apply IH|apply kr_ret].
Qed.

Ltac kr :=
  repeat first
    [ apply kr_ret | apply kr_fail | apply kr_gets | apply kr_fs | apply kr_mem | apply kr_pipe | apply kr_pipes
    | apply kr_wf; done | apply kr_when | apply kr_loop; intros ? | apply kr_bind; [|intros ?]
    | match goal with |- keeps_refs (match ?x with _ => _ end) => destruct x end ].

Lemma fileread_refs dev_read killed f n off : keeps_refs (fileread dev_read killed f n off).
Proof using Type. unfold fileread, rf, deref, panic. kr. Qed.
Lemma filewrite_refs dev_write killed f addr off i : keeps_refs (filewrite dev_write killed f addr off i).
Proof using Type. unfold filewrite, filewrite_turn, rf, begin_txn, end_txn, deref, panic. kr. Qed.
Lemma filestat_refs f : keeps_refs (filestat f).
Proof using Type. unfold filestat, rf, deref. kr. Qed.

Lemma fileclose_refs f s r s' : fileclose kend f s = Ok (r, s') →
  1 ≤ fl_ref (fl s f) ∧ ∀ i, fl_ref (fl s' i) = if decide (i = f) then fl_ref (fl s f) - 1 else fl_ref (fl s i).
Proof using Type.
  unfold fileclose. unfold mbind at 1, M_bind at 1. simpl. destruct (Z.ltb_spec (fl_ref (fl s f)) 1) as [|Hr]; [done|].
  intros H. split; [done|]. unfold mbind at 1, M_bind at 1 in H. simpl in H.
  change (set_ftable _ s) with (upd_file f (set_fl_ref (fl_ref (fl s f) - 1)) s) in H. set (s1 := upd_file _ _ _) in *.
  assert (∀ i, fl_ref (fl s1 i) = if decide (i = f) then fl_ref (fl s f) - 1 else fl_ref (fl s i)) as H1.
  { intros i. unfold s1. rewrite fl_upd. by case_decide. }
  destruct (Z.ltb_spec 0 (fl_ref (fl s f) - 1)) as [|Hz]; [injection H as _ <-; done|].
  assert (fl_ref (fl s f) = 1) as E1 by lia. unfold mbind at 1, M_bind at 1 in H. simpl in H.
  unfold mbind at 1, M_bind at 1 in H. simpl in H. change (set_ftable _ s1) with (upd_file f (set_fl_ref 0) s1) in H. set (s2 := upd_file f (set_fl_ref 0) s1) in *.
  assert (∀ i, fl_ref (fl s2 i) = if decide (i = f) then fl_ref (fl s f) - 1 else fl_ref (fl s i)) as H2.
  { intros i. unfold s2. rewrite fl_upd. case_decide as E; [simpl; lia|]. rewrite H1. by rewrite decide_False. }
  assert (keeps_refs (wf f (set_fl_type FD_NONE);;
    match fl_type (fl s1 f) with
    | FD_PIPE => close_pipe kend (fl_pipe (fl s1 f)) (negb (Z.eqb (fl_writable (fl s1 f)) 0))
    | FD_INODE => begin_txn;; ip ← deref (fl_ip (fl s1 f)); on_fs (iput ip);; end_txn
    | FD_NONE => mret tt
    end)) as K by (unfold close_pipe, begin_txn, end_txn, deref; kr).
  intros i. by rewrite (K _ _ _ H i).
Qed.

Context (dev_read : Z → option (nat → Z → M (fstate D) (Z * list Z))).
Context (dev_write : Z → option (nat → list Z → Z → M (fstate D) Z)).

(** What the kernel does with the table: each open descriptor holds one
    reference. *)
Inductive frun (s0 : flstate D) : flstate D → list nat → Prop :=
| fr_start : frun s0 s0 []
| fr_alloc s h r s' : frun s0 s h → filealloc s = Ok (r, s') → frun s0 s' (match r with Some f => f :: h | None => h end)
| fr_dup s h f r s' : frun s0 s h → f ∈ h → filedup f s = Ok (r, s') → frun s0 s' (r :: h)
| fr_close s l1 f l2 r s' : frun s0 s (l1 ++ f :: l2) → fileclose kend f s = Ok (r, s') → frun s0 s' (l1 ++ l2)
| fr_read s h killed f n off r s' : frun s0 s h → fileread dev_read killed f n off s = Ok (r, s') → frun s0 s' h
| fr_write s h killed f addr off i r s' : frun s0 s h → filewrite dev_write killed f addr off i s = Ok (r, s') → frun s0 s' h
| fr_stat s h f r s' : frun s0 s h → filestat f s = Ok (r, s') → frun s0 s' h.

Definition holders (f : nat) (h : list nat) : Z := Z.of_nat (count_occ Nat.eq_dec h f).

Lemma holders_cons f g h : holders f (g :: h) = (if decide (f = g) then 1 else 0) + holders f h.
Proof using Type.
  unfold holders. simpl. destruct (Nat.eq_dec g f) as [E|E]; [rewrite decide_True by done; lia|rewrite decide_False by congruence; lia].
Qed.
Lemma holders_app f h1 h2 : holders f (h1 ++ h2) = holders f h1 + holders f h2.
Proof using Type. unfold holders. rewrite count_occ_app. lia. Qed.

(** Reference counts are exact: whatever the kernel does with open files,
    [f->ref] is the number of references to [f] that were handed out and not
    closed.  So [filealloc] returns a file nobody holds, fails only when all
    [NFILE] files are held, [filedup] of a held file does not panic, and
    [fileclose] of a file that somebody else also holds only drops the
    count. *)
Theorem file_refs_are_exact s0 s h :
  (∀ i, fl_ref (fl s0 i) = 0) → frun s0 s h →
  (∀ i, fl_ref (fl s i) = holders i h) ∧
  wp filealloc (λ r _, match r with Some f => f ∉ h ∧ (f < NFILE)%nat | None => ∀ i, (i < NFILE)%nat → i ∈ h end) s ∧
  ∀ f, f ∈ h → wp (filedup f) (λ r _, r = f) s ∧
    (2 ≤ holders f h → fileclose kend f s = Ok (tt, upd_file f (set_fl_ref (holders f h - 1)) s)).
Proof using Type.
  intros H0 Hrun. assert (∀ i, fl_ref (fl s i) = holders i h) as Hh.
  { induction Hrun as [|s h r s' _ IH Ha|s h f r s' _ IH Hf Hd|s l1 f l2 r s' _ IH Hc|s h ? ? ? ? r s' _ IH Hr|s h ? ? ? ? k r s' _ IH Hw|s h f r s' _ IH Hs]; intros i.
    - apply H0.
    - pose proof (filealloc_spec s) as Hs. unfold wp in Hs. rewrite Ha in Hs. destruct r as [f|]; [|destruct Hs as [_ Es]; rewrite Es; apply IH].
      destruct Hs as (_ & Hz & Es). rewrite Es, fl_upd, holders_cons, <-IH. case_decide as E; [|lia]. simpl. rewrite E, Hz. lia.
    - unfold filedup, mbind, M_bind in Hd. simpl in Hd. destruct (fl_ref (fl s f) <? 1); [done|]. injection Hd as Er Es.
      rewrite <-Es, <-Er. change (set_ftable _ s) with (upd_file f (set_fl_ref (fl_ref (fl s f) + 1)) s). rewrite fl_upd, holders_cons, <-IH.
      case_decide as E; [simpl; rewrite E; lia|lia].
    - destruct (fileclose_refs f s r s' Hc) as [_ Hx]. rewrite Hx. rewrite !IH. rewrite !holders_app, !holders_cons.
      case_decide as E; [rewrite E, decide_True by done; lia|]. lia.
    - rewrite (fileread_refs _ _ _ _ _ _ _ _ Hr). apply IH.
    - rewrite (filewrite_refs _ _ _ _ _ _ _ _ _ Hw). apply IH.
    - rewrite (filestat_refs _ _ _ _ Hs). apply IH. }
  assert (∀ i, i ∈ h ↔ holders i h ≠ 0) as Hin.
  { intros i. unfold holders. rewrite list_elem_of_In, (count_occ_In Nat.eq_dec). lia. }
  split_and!; [done| |].
  - wcall (filealloc_spec s). intros [f|] s'.
    + intros (Hf & Hz & _). split; [|done]. rewrite Hin, <-Hh. lia.
    + intros [Hall _] i Hi. rewrite Hin, <-Hh. by apply Hall.
  - intros f Hf. apply Hin in Hf. assert (1 ≤ holders f h) as Hge by (unfold holders in *; lia). split.
    + unfold filedup. apply wp_bind, wp_gets. destruct (Z.ltb_spec (fl_ref (fl s f)) 1) as [Hl|]; [rewrite Hh in Hl; lia|]. by apply wp_bind, wp_modify, wp_ret.
    + intros H2. unfold fileclose. unfold mbind, M_bind. simpl. rewrite !Hh. destruct (Z.ltb_spec (holders f h) 1); [lia|].
      destruct (Z.ltb_spec 0 (holders f h - 1)); [done|lia].
Qed.

(** ** [pipealloc] *)

Definition clean (s : flstate D) : Prop := ∀ i, fl_ref (fl s i) = 0 → fl_type (fl s i) = FD_NONE.

(** Closing a file that was just allocated. *)
Lemma close_fresh f s : fl_ref (fl s f) = 1 → fl_type (fl s f) = FD_NONE →
  wp (fileclose kend f) (λ _ s', fl_fs s' = fl_fs s ∧ fl_pipes s' = fl_pipes s ∧ fl_mem s' = fl_mem s ∧
    ∀ i, fl s' i = if decide (i = f) then set_fl_ref 0 (fl s f) else fl s i) s.
Proof using Type.
  intros Hr Ht. unfold fileclose. apply wp_bind, wp_gets. rewrite Hr. cbn [Z.ltb Z.compare]. apply wp_bind, wp_wf. apply wp_bind, wp_gets. unfold id.
  apply wp_bind, wp_wf, wp_bind, wp_wf. change (1 - 1) with 0. set (s1 := upd_file f _ s). set (s2 := upd_file f _ s1).
  assert (fl_type (fl s1 f) = FD_NONE) as -> by (unfold s1; rewrite fl_upd, decide_True by done; exact Ht).
  apply wp_ret. split_and!; [done|done|done|]. intros i. rewrite fl_upd. unfold s2. rewrite !fl_upd. unfold s1. rewrite !fl_upd.
  destruct (decide (i = f)) as [E|E]; [|done]. destruct (decide (f = f)) as [_|E']; [|done].
  revert Ht. destruct (fl s f). unfold set_fl_type, set_fl_ref. simpl. by intros ->.
Qed.

Lemma clean_fresh s f : clean s → fl_ref (fl s f) = 0 → set_fl_ref 0 (set_fl_ref 1 (fl s f)) = fl s f.
Proof using Type. intros _. destruct (fl s f). unfold set_fl_ref. simpl. by intros ->. Qed.

(** [pipealloc] is all or nothing.  It returns 0 with two files nobody
    held, one the reading and one the writing end of a new, empty pipe in a
    page taken from the free list; or -1 with the file table, the pipes, the
    file system and the free list exactly as before, which happens only when
    fewer than two files or no page are free. *)
Theorem pipealloc_all_or_nothing s free :
  clean s → kinv kend (fl_mem s) free →
  wp (pipealloc kend) (λ '(r, (f0, f1)) s',
    (r = 0 ∧ ∃ a b p rest, f0 = Some a ∧ f1 = Some b ∧ a ≠ b ∧ fl_ref (fl s a) = 0 ∧ fl_ref (fl s b) = 0 ∧ free = p :: rest ∧
       fl s' a = set_fl_ref 1 (set_fl_end 1 0 p (fl s a)) ∧ fl s' b = set_fl_ref 1 (set_fl_end 0 1 p (fl s b)) ∧
       (∀ i, i ≠ a → i ≠ b → fl s' i = fl s i) ∧ kinv kend (fl_mem s') rest ∧
       (∃ d, fl_pipes s' = <[p := pipe_init d]> (fl_pipes s)) ∧ fl_fs s' = fl_fs s) ∨
    (r = -1 ∧ (∀ i, fl s' i = fl s i) ∧ fl_pipes s' = fl_pipes s ∧ fl_fs s' = fl_fs s ∧ fl_mem s' = fl_mem s ∧
       (free = [] ∨ ∃ a, ∀ i, (i < NFILE)%nat → fl_ref (fl s i) = 0 → i = a))) s.
Proof using Type.
  intros Hc I. unfold pipealloc. apply wp_bind. wcall (filealloc_spec s). intros [a|] s1; cycle 1.
  { intros [Hall ->]. unfold pipealloc_bad. simpl. apply wp_bind, wp_ret, wp_bind, wp_ret, wp_bind, wp_ret, wp_ret. right.
    split_and!; try done. right. exists 0%nat. intros i Hi Hz. by destruct (Hall i Hi). }
  intros (Ha & Hza & ->). apply wp_bind. set (s1 := upd_file a (set_fl_ref 1) s). wcall (filealloc_spec s1). intros [b|] s2; cycle 1.
  { intros [Hall ->]. unfold pipealloc_bad. simpl. apply wp_bind, wp_ret, wp_bind.
    wcall (close_fresh a s1); [unfold s1; by rewrite fl_upd, decide_True|unfold s1; rewrite fl_upd, decide_True by done; by apply Hc|].
    intros _ s3 (E1 & E2 & E3 & E4). apply wp_bind, wp_ret, wp_ret. right. split_and!; try done.
    - intros i. rewrite E4. unfold s1. rewrite !fl_upd. rewrite (decide_True (P := a = a)) by done. case_decide as E; [|done].
      rewrite E. by apply clean_fresh.
    - right. exists a. intros i Hi Hz. destruct (decide (i = a)) as [|E]; [done|]. destruct (Hall i Hi). unfold s1. by rewrite fl_upd, decide_False. }
  intros (Hb & Hzb & ->). set (s2 := upd_file b (set_fl_ref 1) s1). assert (b ≠ a) as Hab.
  { intros E. unfold s1 in Hzb. rewrite E, fl_upd, decide_True in Hzb by done. done. }
  assert (fl s1 b = fl s b) as Eb by (unfold s1; by rewrite fl_upd, decide_False). rewrite Eb in Hzb.
  assert (fl s1 a = set_fl_ref 1 (fl s a)) as Ea by (unfold s1; by rewrite fl_upd, decide_True).
  assert (∀ i, fl s2 i = if decide (i = b) then set_fl_ref 1 (fl s b) else if decide (i = a) then set_fl_ref 1 (fl s a) else fl s i) as F2.
  { intros i. unfold s2. rewrite fl_upd, Eb. unfold s1. by rewrite fl_upd. }
  apply wp_bind. unfold on_mem at 1. apply wp_zoom. wcall (kalloc_spec kend (fl_mem s) free I). intros p k. destruct free as [|q rest].
  - intros [-> ->]. simpl. unfold pipealloc_bad. simpl. apply wp_bind, wp_ret, wp_bind. set (s3 := set_mem _ s2).
    wcall (close_fresh a s3); [change (fl_ref (fl s2 a) = 1); by rewrite F2, decide_False, decide_True|change (fl_type (fl s2 a) = FD_NONE); rewrite F2, decide_False, decide_True by done; by apply Hc|].
    intros _ s4 (A1 & A2 & A3 & A4). apply wp_bind. change (fl s3) with (fl s2) in A4.
    assert (fl s4 b = set_fl_ref 1 (fl s b)) as E4b by (by rewrite A4, decide_False, F2, decide_True).
    wcall (close_fresh b s4); [by rewrite E4b|rewrite E4b; by apply Hc|]. intros _ s5 (B1 & B2 & B3 & B4). apply wp_ret. right.
    split_and!; try done; [|by rewrite B2, A2|by rewrite B1, A1|by rewrite B3, A3|by left].
    intros i. rewrite B4, E4b, A4, !F2. rewrite (decide_False (P := a = b)) by done. rewrite (decide_True (P := a = a)) by done.
    destruct (decide (i = b)) as [E|E]; [rewrite E; by apply clean_fresh|]. destruct (decide (i = a)) as [E'|]; [rewrite E'; by apply clean_fresh|done].
  - intros (-> & I' & Ep). pose proof (ki_good _ _ _ I q ltac:(left)) as Hg. destruct (good_u32 kend q Hg) as [_ Hnz].
    rewrite (proj2 (Z.eqb_neq _ _)) by done. apply wp_bind. unfold on_mem. apply wp_zoom. pose proof (ki_chain _ _ _ I) as (_ & d & Hd & _).
    eapply (wp_eq _ _ _ d k); [unfold ld_page, mbind, M_bind, gets, id; simpl; by rewrite Ep, Hd|]. simpl. apply wp_bind, wp_modify, wp_bind, wp_wf, wp_bind, wp_wf, wp_ret.
    left. split; [done|]. exists a, b, q, rest. set (s3 := set_pipes _ _). change (fl s3) with (fl s2) in *.
    assert (∀ i, fl s3 i = fl s2 i) as F3 by done.
    split_and!; try done; [by rewrite fl_upd, decide_False, fl_upd, decide_True, F3, F2, decide_False, decide_True by done
      |by rewrite fl_upd, decide_True, fl_upd, decide_False, F3, F2, decide_True by done| |by eexists].
    intros i Hia Hib. rewrite !fl_upd, !decide_False by done. by rewrite F3, F2, !decide_False.
Qed.
End files.

(** Routines made of steps that leave the counts alone. *)
Ltac keep_refs :=
  repeat first
    [ apply kr_ret | apply kr_fail | apply kr_gets | apply kr_fs | apply kr_mem | apply kr_pipe | apply kr_pipes
    | apply kr_wf; done | apply kr_when | apply kr_loop; intros ? | apply kr_bind; [|intros ?]
    | match goal with |- keeps_refs (match ?x with _ => _ end) => destruct x end ].

(** ** Positions *)

Section reading.
Context {D : Type} `{!BlockOps D} `{!TxnOps D} `{!BlockModel D} {BL : BlockLaws D}.

(** Locking an inode does not touch its file. *)
Definition relock (ip : nat) (lk : sleeplock) (s : fstate D) : fstate D :=
  set_icache (<[ip := set_i_lock lk (ino s ip)]> (icache s)) s.

Lemma ino_relock ip lk s : ino (relock ip lk s) ip = set_i_lock lk (ino s ip).
Proof using Type. unfold relock, ino. simpl. by rewrite lookup_insert_eq. Qed.

Lemma relock_file ip lk s (s' := relock ip lk s) :
  (geometry s → geometry s') ∧ (tree_ok s ip → tree_ok s' ip) ∧ (dense s ip → dense s' ip) ∧
  ∀ off n, contents s' ip off n = contents s ip off n.
Proof using Type.
  assert (∀ q, node s' ip q = node s ip q) as N by (intros q; unfold node, s'; by rewrite ino_relock).
  assert (∀ o, block_at s' ip o = block_at s ip o) as B by (intros o; apply N).
  split_and!.
  - intros [G1 G2 G3 G4 G5 G6]. by split.
  - intros [T1 T2 T3 T4]. split.
    + unfold s'. by rewrite ino_relock.
    + unfold s'. by rewrite ino_relock.
    + intros q Hq. rewrite N. intros Hn. destruct (T3 q Hq Hn) as [F1 F2 F3 F4 F5]. by split.
    + intros q q' Hq Hq'. rewrite !N. by apply T4.
  - unfold dense. intros [D1 D2]. unfold s' in *. rewrite ino_relock. split; [exact D1|]. intros o Ho. rewrite B. by apply D2.
  - intros off n. unfold contents. apply list_fmap_ext. intros k j _. unfold file_at. rewrite B. done.
Qed.

(** Reads happen where they should.  On a regular file without holes,
    [fileread] returns the bytes that are there: from the file's own offset
    when [off] is negative ([read]), which then moves forward by the number of
    bytes returned, and from [off] otherwise ([pread]), which leaves the
    file's offset alone.  Reads are cut at the end of the file, the inode is
    unlocked again, and no other open file, pipe or disk block changes. *)
Theorem fileread_positions dev_read killed s f ip n off k (x := fl s f) (o := if decide (off < 0) then fl_off x else off)
    (p := ino (fl_fs s) ip) (m := Z.min n (i_size p - o)) :
  fl_readable x ≠ 0 → fl_type x = FD_INODE → fl_ip x = Some ip →
  i_valid p ≠ 0 → 1 ≤ i_ref p → sl_locked (i_lock p) = 0 →
  geometry (fl_fs s) → tree_ok (fl_fs s) ip → dense (fl_fs s) ip → i_type p ≠ T_DEV →
  0 ≤ o ≤ i_size p → 0 ≤ n → o + n < two32 → fits (dsk (fl_fs s)) [] (S k) →
  wp (fileread dev_read killed f n off) (λ r s',
    r = PDone (m, contents (fl_fs s) ip o (Z.to_nat m)) ∧
    (∀ g, fl s' g = if decide (g = f ∧ off < 0) then set_fl_off (fl_off x + m) x else fl s g) ∧
    fl_pipes s' = fl_pipes s ∧ fl_mem s' = fl_mem s ∧
    sl_locked (i_lock (ino (fl_fs s') ip)) = 0 ∧ (∀ c, view (dsk (fl_fs s')) c = view (dsk (fl_fs s)) c)) s.
Proof using BL.
  intros Hrd Hty Hip Hv Hr Hl G T Hd Hdev Ho Hn Hov Hf. unfold fileread. apply wp_bind, wp_gets. unfold id. fold x.
  rewrite (proj2 (Z.eqb_neq _ _)) by done. rewrite Hty, Hip. set (lk := mkSleeplock 1 (f_pid (fl_fs s)) (f_tid (fl_fs s))).
  set (s1 := relock ip lk (fl_fs s)).
  destruct (relock_file ip lk (fl_fs s)) as (HG & HT & HD & HC). specialize (HG G). specialize (HT T). specialize (HD Hd). fold s1 in HG, HT, HD, HC.
  assert (ino s1 ip = set_i_lock lk p) as E1 by apply ino_relock.
  apply wp_bind. unfold on_fs at 1. apply wp_zoom. eapply (wp_eq _ _ _ tt s1).
  { unfold ilock. unfold mbind at 1, M_bind at 1. simpl. fold p. destruct (Z.ltb_spec (i_ref p) 1); [lia|].
    unfold lock_inode, mbind, M_bind, ri, gets, wi, modify, fail. simpl. fold p. rewrite Hl. simpl. fold lk. change (set_icache _ (fl_fs s)) with s1.
    unfold id. rewrite E1. simpl. by rewrite (proj2 (Z.eqb_neq _ _)). }
  apply wp_bind, (wp_deref _ ip); [done|]. apply wp_bind.
  assert (∀ d', ∃ s3, iunlock (Some ip) (set_dsk d' s1) = Ok (tt, s3) ∧ sl_locked (i_lock (ino s3 ip)) = 0 ∧ dsk s3 = d') as Hun.
  { intros d'. unfold iunlock, holding_inode, mbind, M_bind, ri, gets, mret, M_ret. rewrite (E1 : ino (set_dsk d' s1) ip = _). simpl.
    rewrite !Z.eqb_refl. simpl. destruct (Z.ltb_spec (i_ref p) 1); [lia|]. simpl. eexists. split; [reflexivity|]. split; [|done].
    unfold ino. simpl. by rewrite lookup_insert_eq. }
  assert (i_size (ino s1 ip) = i_size p) as Es by (by rewrite E1).
  assert (wp (readi dev_read ip o n) (λ r s', r = (m, contents (fl_fs s) ip o (Z.to_nat m)) ∧ ∃ d', s' = set_dsk d' s1 ∧
    ∀ c, view d' c = view (dsk (fl_fs s)) c) s1) as Hread.
  { wcall (readi_spec dev_read s1 ip o n k HG HT HD); rewrite ?Es; try done; [by rewrite E1|].
    intros r s' (-> & d' & -> & _ & V & _). rewrite HC. split; [done|]. by exists d'. }
  destruct (Z.ltb_spec off 0) as [Hneg|Hpos].
  - assert (o = fl_off x) as Eo by (unfold o; by rewrite decide_True). apply wp_bind, wp_gets.
    change (fl_off (fl (set_fs s1 s) f)) with (fl_off x). rewrite <-Eo. apply wp_bind. unfold on_fs at 1. apply wp_zoom.
    eapply wp_mono; [exact Hread|]. intros r s2 (-> & d' & -> & V). cbn [fst]. apply wp_bind.
    destruct (Hun d') as (s3 & Hs3 & L3 & D3).
    assert (0 ≤ m) as Hm by (unfold m; lia). assert (m ≤ n) as Hmn by (unfold m; lia).
    apply wp_when; intros Hz.
    + apply wp_wf, wp_ret, wp_bind. unfold on_fs. apply wp_zoom. eapply wp_eq; [exact Hs3|]. apply wp_ret. split_and!; [done| |done|done|done|].
      * intros g. change (fl (set_fs s3 ?y) g) with (fl y g). change (fl (set_fs s3 (upd_file f (λ x0, set_fl_off (u32 (fl_off x0 + m)) x0) (set_fs (set_dsk d' s1) (set_fs s1 s)))) g)
          with (fl (upd_file f (λ x0, set_fl_off (u32 (fl_off x0 + m)) x0) (set_fs (set_dsk d' s1) (set_fs s1 s))) g).
        rewrite fl_upd. change (fl (set_fs (set_dsk d' s1) (set_fs s1 s))) with (fl s). fold x.
        destruct (decide (g = f)) as [E|E]; [rewrite decide_True by done|by rewrite decide_False by tauto].
        rewrite u32_small; [by rewrite ?Eo|]. unfold is_u32. lia.
      * intros c. simpl. by rewrite D3.
    + apply wp_ret, wp_bind. unfold on_fs. apply wp_zoom. eapply wp_eq; [exact Hs3|]. apply wp_ret. split_and!; [done| |done|done|done|].
      * intros g. change (fl (set_fs s3 (set_fs (set_dsk d' s1) (set_fs s1 s))) g) with (fl s g).
        case_decide as E; [|done]. destruct E as [E _]. apply Z.ltb_ge in Hz. assert (m = 0) as -> by lia. rewrite E, Z.add_0_r, ?Eo. unfold x. by destruct (fl s f).
      * intros c. simpl. by rewrite D3.
  - assert (o = off) as Eo by (unfold o; rewrite decide_False by lia; done). rewrite <-Eo. unfold on_fs at 1. apply wp_zoom.
    eapply wp_mono; [exact Hread|]. intros r s2 (-> & d' & -> & V). destruct (Hun d') as (s3 & Hs3 & L3 & D3).
    apply wp_bind. unfold on_fs. apply wp_zoom. eapply wp_eq; [exact Hs3|]. apply wp_ret. split_and!; [done| |done|done|done|].
    + intros g. rewrite decide_False by lia. done.
    + intros c. simpl. by rewrite D3.
Qed.
End reading.

(** ** On concrete states *)

Definition empty_files : flstate lstate := mkFl ∅ (sample_fs sample_boot) ∅ two_free.

(** Two descriptors, one of them duplicated. *)
Lemma file_refs_are_exact_witness :
  ∃ s, frun 2151677952 (λ _, None) (λ _, None) empty_files s [1; 0; 0]%nat ∧ fl_ref (fl s 0%nat) = 2 ∧ fl_ref (fl s 1%nat) = 1 ∧
    wp filealloc (λ r _, match r with Some f => f ∉ [1; 0; 0]%nat ∧ (f < NFILE)%nat | None => ∀ i, (i < NFILE)%nat → i ∈ [1; 0; 0]%nat end) s.
Proof.
  set (s1 := upd_file 0%nat (set_fl_ref 1) empty_files). set (s2 := upd_file 0%nat (set_fl_ref 2) s1). set (s3 := upd_file 1%nat (set_fl_ref 1) s2).
  assert (frun 2151677952 (λ _, None) (λ _, None) empty_files s3 [1; 0; 0]%nat) as R.
  { assert (frun 2151677952 (λ _, None) (λ _, None) empty_files s1 [0]%nat) as R1.
    { apply (fr_alloc _ _ _ _ empty_files [] (Some 0%nat)); [constructor|]. vm_compute. reflexivity. }
    assert (frun 2151677952 (λ _, None) (λ _, None) empty_files s2 [0; 0]%nat) as R2.
    { apply (fr_dup _ _ _ _ s1 [0%nat] 0%nat); [exact R1|left|]. vm_compute. reflexivity. }
    apply (fr_alloc _ _ _ _ s2 [0; 0]%nat (Some 1%nat)); [exact R2|]. vm_compute. reflexivity. }
  destruct (file_refs_are_exact 2151677952 (λ _, None) (λ _, None) empty_files s3 [1; 0; 0]%nat) as (H1 & H2 & _); [|exact R|].
  - intros i. unfold fl. simpl. by rewrite lookup_empty.
  - exists s3. split_and!; [exact R|by rewrite H1|by rewrite H1|exact H2].
Defined.

Lemma pipealloc_all_or_nothing_witness :
  kinv 2151677952 (fl_mem empty_files) [2151682048; 2151686144] ∧ wp (pipealloc 2151677952) (λ r _, fst r = 0 ∨ fst r = -1) empty_files.
Proof.
  destruct two_free_ok as (I & _). split; [exact I|].
  eapply wp_mono; [apply (pipealloc_all_or_nothing 2151677952 empty_files [2151682048; 2151686144])|].
  - intros i _. unfold fl. simpl. by rewrite lookup_empty.
  - exact I.
  - intros [r [f0 f1]] s' [[-> _]|[-> _]]; auto.
Defined.

(** An open descriptor of the sample's empty file. *)
Definition open_file (S : lstate) : flstate lstate :=
  mkFl {[ 3%nat := mkFile FD_INODE 1 1 1 0 (Some 0%nat) 0 ]} (relock 0 (mkSleeplock 0 0 0) (sample_fs S)) ∅ two_free.

Lemma fileread_positions_witness :
  wp start_op (λ _ S, wp (fileread (λ _, None) false 3 100 (-1)) (λ r _, r = PDone (0, [])) (open_file S)) sample_boot.
Proof.
  wcall start_op_runs. intros r S [_ HS].
  destruct (relock_file 0 (mkSleeplock 0 0 0) (sample_fs S)) as (HG & HT & HD & _).
  assert (ino (fl_fs (open_file S)) 0 = set_i_lock (mkSleeplock 0 0 0) sample_ino) as E by apply ino_relock.
  eapply wp_mono; [apply (fileread_positions (λ _, None) false (open_file S) 3 0 100 (-1) 28)|].
  1: done. 1: done. 1: done.
  1-3: rewrite E; done.
  - apply HG, sample_geometry, HS.
  - apply HT, sample_tree.
  - apply HD, sample_dense.
  - rewrite E. done.
  - rewrite E. done.
  - done.
  - done.
  - apply (sd_fits _ HS).
  - intros x s' (-> & _). rewrite E. reflexivity.
Defined.

Close Scope Z_scope.
