(* ===== verification/Sysfile.v ===== *)
(** * File-system calls ([src/xv6-public/sysfile.c])

    The calls in two layers.  What a call does with the file system and the
    open files once its arguments are known is a routine on the state of
    [File]; the call itself fetches the arguments as [Syscall] does, keeps
    the descriptors of [main_thread(myproc())], and reaches the file
    subsystem inside the kernel state through [HasFiles]. *)

From S2P Require Import Prelude.
From S2P Require Import Words.
From S2P Require Import Spinlock.
From S2P Require Import Kstate.
From S2P Require Import ThreadCore.
From S2P Require Import Proc.
From S2P Require Import Syscall.
From S2P Require Import BlockStore.
From S2P Require Import Fs.
From S2P Require Import Pipe.
From S2P Require Import Kalloc.
From S2P Require Import File.

Open Scope Z_scope.

Definition O_RDONLY : Z := 0.
Definition O_WRONLY : Z := 1.
Definition O_RDWR : Z := 2.
Definition O_CREATE : Z := 512.
Definition MAXARG : nat := 32.

(** ** On the file system *)

Section calls.
Context {D : Type} `{!BlockOps D} `{!TxnOps D} (kend : Z).
Context (dev_read : Z → option (nat → Z → M (fstate D) (Z * list Z))).
Context (dev_write : Z → option (nat → list Z → Z → M (fstate D) Z)).
(** What the buffer [char name[DIRSIZ]] on the stack holds before it is
    written. *)
Context (name0 : list Z).
Abbreviation FL := (M (flstate D)).
Abbreviation FM := (M (fstate D)).

Definition add_nlink (ip : nat) (d : Z) : FM unit :=
  wi ip (λ p, set_i_nlink (s16 (i_nlink p + d)) p);;
  iupdate ip.

(** The label [bad] of [sys_link]. *)
Definition link_bad (ip : nat) : FL Z :=
  on_fs (ilock (Some ip));;
  on_fs (add_nlink ip (-1));;
  on_fs (iunlockput ip);;
  end_txn;;
  mret (-1).

Definition do_link (old new : list Z) : FL Z :=
  begin_txn;;
  ip ← on_fs (namei dev_read old name0);
  match ip with
  | None => end_txn;; mret (-1)
  | Some ip =>
      on_fs (ilock (Some ip));;
      t ← on_fs (ri ip i_type);
      if Z.eqb t T_DIR then
        on_fs (iunlockput ip);;
        end_txn;;
        mret (-1)
      else
        on_fs (add_nlink ip 1);;
        on_fs (iunlock (Some ip));;
        r ← on_fs (nameiparent dev_read new name0);
        match r with
        | (None, _) => link_bad ip
        | (Some dp, name) =>
            on_fs (ilock (Some dp));;
            ddev ← on_fs (ri dp i_dev);
            idev ← on_fs (ri ip i_dev);
            inum ← on_fs (ri ip i_inum);
            n ← (if negb (Z.eqb ddev idev) then mret (-1) else on_fs (dirlink dev_read dev_write dp name inum));
            if Z.ltb n 0 then
              on_fs (iunlockput dp);;
              link_bad ip
            else
              on_fs (iunlockput dp);;
              on_fs (iput ip);;
              end_txn;;
              mret 0
        end
  end.

(** From the third entry on. *)
Definition isdirempty (dp : nat) : FM bool :=
  p ← ri dp id;
  loop (Z.to_nat (i_size p / 16) + 2) (λ off,
    size ← ri dp i_size;
    if Z.ltb off size then
      r ← readi dev_read dp off 16;
      if negb (Z.eqb r.1 16) then panic "isdirempty: readi"
      else if negb (Z.eqb (de_inum r.2) 0) then mret (inr false)
      else mret (inl (off + 16))
    else mret (inr true)) (2 * 16).

(** The label [bad] of [sys_unlink]. *)
Definition unlink_bad (dp : nat) : FL Z :=
  on_fs (iunlockput dp);;
  end_txn;;
  mret (-1).

(** "." and "..", as [namecmp] and [dirlink] read them. *)
Definition dot : list Z := [46; 0].
Definition dotdot : list Z := [46; 46; 0].

Definition do_unlink (path : list Z) : FL Z :=
  begin_txn;;
  r ← on_fs (nameiparent dev_read path name0);
  match r with
  | (None, _) => end_txn;; mret (-1)
  | (Some dp, name) =>
      on_fs (ilock (Some dp));;
      c1 ← on_fs (namecmp name dot);
      c2 ← on_fs (namecmp name dotdot);
      if Z.eqb c1 0 || Z.eqb c2 0 then unlink_bad dp
      else
        hit ← on_fs (dirlookup dev_read dp name);
        match hit with
        | None => unlink_bad dp
        | Some (ip, off) =>
            on_fs (ilock (Some ip));;
            nlink ← on_fs (ri ip i_nlink);
            if Z.ltb nlink 1 then panic "unlink: nlink < 1"
            else
              t ← on_fs (ri ip i_type);
              empty ← (if Z.eqb t T_DIR then on_fs (isdirempty ip) else mret true);
              if negb empty then
                on_fs (iunlockput ip);;
                unlink_bad dp
              else
                n ← on_fs (writei dev_write dp (replicate 16 0) off 16);
                if negb (Z.eqb n 16) then panic "unlink: writei"
                else
                  (if Z.eqb t T_DIR then on_fs (add_nlink dp (-1)) else mret tt);;
                  on_fs (iunlockput dp);;
                  on_fs (add_nlink ip (-1));;
                  on_fs (iunlockput ip);;
                  end_txn;;
                  mret 0
        end
  end.

(** The new or existing inode, locked. *)
Definition create (path : list Z) (type major minor : Z) : FM (option nat) :=
  r ← nameiparent dev_read path name0;
  match r with
  | (None, _) => mret None
  | (Some dp, name) =>
      ilock (Some dp);;
      hit ← dirlookup dev_read dp name;
      match hit with
      | Some (ip, _) =>
          iunlockput dp;;
          ilock (Some ip);;
          t ← ri ip i_type;
          if Z.eqb type T_FILE && Z.eqb t T_FILE then mret (Some ip)
          else
            iunlockput ip;;
            mret None
      | None =>
          dev ← ri dp i_dev;
          ip ← ialloc dev type;
          ilock (Some ip);;
          wi ip (set_i_major (s16 major));;
          wi ip (set_i_minor (s16 minor));;
          wi ip (set_i_nlink 1);;
          iupdate ip;;
          inum ← ri ip i_inum;
          dinum ← ri dp i_inum;
          (if Z.eqb type T_DIR then
             add_nlink dp 1;;
             a ← dirlink dev_read dev_write ip dot inum;
             b ← (if Z.ltb a 0 then mret (-1) else dirlink dev_read dev_write ip dotdot dinum);
             if Z.ltb b 0 then panic "create dots" else mret tt
           else mret tt);;
          n ← dirlink dev_read dev_write dp name inum;
          if Z.ltb n 0 then panic "create: dirlink"
          else
            iunlockput dp;;
            mret (Some ip)
      end
  end.

(** [create] of a directory or a device, up to the return value. *)
Definition make_node (path : list Z) (type major minor : Z) : FL Z :=
  ip ← on_fs (create path type major minor);
  match ip with
  | None => end_txn;; mret (-1)
  | Some ip =>
      on_fs (iunlockput ip);;
      end_txn;;
      mret 0
  end.

(** [sys_open] up to the allocation of the file: the inode, locked. *)
Definition open_inode (path : list Z) (omode : Z) : FL (option nat) :=
  if negb (Z.eqb (Z.land omode O_CREATE) 0) then
    ip ← on_fs (create path T_FILE 0 0);
    match ip with
    | None => end_txn;; mret None
    | Some ip => mret (Some ip)
    end
  else
    ip ← on_fs (namei dev_read path name0);
    match ip with
    | None => end_txn;; mret None
    | Some ip =>
        on_fs (ilock (Some ip));;
        t ← on_fs (ri ip i_type);
        if Z.eqb t T_DIR && negb (Z.eqb omode O_RDONLY) then
          on_fs (iunlockput ip);;
          end_txn;;
          mret None
        else mret (Some ip)
    end.

(** [f->type = FD_INODE; f->ip = ip; f->off = 0; ...]. *)
Definition set_open (ip : nat) (omode : Z) (x : file) : file :=
  mkFile FD_INODE (fl_ref x) (if Z.eqb (Z.land omode O_WRONLY) 0 then 1 else 0)
    (if negb (Z.eqb (Z.land omode O_WRONLY) 0) || negb (Z.eqb (Z.land omode O_RDWR) 0) then 1 else 0)
    (fl_pipe x) (Some ip) 0.
End calls.

(** ** The system calls *)

(** The file subsystem inside the rest of the kernel's state, and stores to
    user memory. *)
Class HasFiles (D E : Type) := {
  e_files : E → flstate D;
  set_e_files : flstate D → E → E;
  u_store : Z → list Z → E → E
}.

Section sysfile.
Context {D E : Type} `{!BlockOps D} `{!TxnOps D} `{!UMem E} `{!HasFiles D E} (kend : Z).
Context (dev_read : Z → option (nat → Z → M (fstate D) (Z * list Z))).
Context (dev_write : Z → option (nat → list Z → Z → M (fstate D) Z)).
Context (name0 : list Z).
Abbreviation KM := (M (kstate E)).

Definition on_files {A} : M (flstate D) A → KM A :=
  zoom (λ s, e_files (k_ext s)) (λ f s, set_k_ext (set_e_files f (k_ext s)) s).

(** [myproc()] and [main_thread(myproc())]. *)
Definition me : KM (nat * nat) :=
  p ← on_cpus myproc;
  p ← deref p;
  m ← main_thread p;
  mret (p, m).

(** The file system takes the pid, the tid and the current directory from
    [myproc()]. *)
Definition load_proc (pid tid : Z) (c : nat) (x : flstate D) : flstate D :=
  let f := fl_fs x in set_fs (mkF (dsk f) (icache f) (sb f) pid tid c) x.
Definition as_me {A} (m : M (flstate D) A) : KM A :=
  i ← me;
  pid ← rd i.1 p_pid;
  tid ← rd i.1 p_tid;
  c ← rd i.2 p_cwd;
  on_files (modify (load_proc pid tid (default 0%nat c));; m).

Definition ld_string (a : Z) (len : Z) : KM (list Z) :=
  loop (S (Z.to_nat len)) (λ '(i, l),
    if Z.ltb i len then
      c ← ld_user8 (a + i);
      mret (inl (i + 1, l ++ [c]))
    else mret (inr l)) (0, []).
Definition store (a : Z) (bytes : list Z) : KM unit := modify (λ s, set_k_ext (u_store a bytes (k_ext s)) s).

(** A string argument, as its bytes. *)
Definition argpath (n : Z) : KM (option (list Z)) :=
  r ← argstr n;
  match r with
  | None => mret None
  | Some (a, len) => l ← ld_string a len; mret (Some l)
  end.

(** The descriptor and the file. *)
Definition argfd (n : Z) : KM (option (nat * nat)) :=
  fd ← argint n;
  match fd with
  | None => mret None
  | Some fd =>
      if Z.ltb fd 0 || Z.leb (Z.of_nat NOFILE) fd then mret None
      else
        i ← me;
        f ← rd i.2 (ofile (Z.to_nat fd));
        mret ((λ f, (Z.to_nat fd, f)) <$> f)
  end.

Definition fdalloc (f : nat) : KM Z :=
  i ← me;
  loop (S NOFILE) (λ fd,
    if (fd <? NOFILE)%nat then
      g ← rd i.2 (ofile fd);
      match g with
      | None =>
          wr i.2 (set_ofile fd (Some f));;
          mret (inr (Z.of_nat fd))
      | Some _ => mret (inl (S fd))
      end
    else mret (inr (-1))) 0%nat.

Definition sys_dup : KM Z :=
  a ← argfd 0;
  match a with
  | None => mret (-1)
  | Some (_, f) =>
      fd ← fdalloc f;
      if Z.ltb fd 0 then mret (-1)
      else
        as_me (filedup f);;
        mret fd
  end.

(** [argfd(0, 0, &f) < 0 || argint(2, &n) < 0 || argptr(1, &p, n) < 0]. *)
Definition rw_args : KM (option (nat * Z * Z)) :=
  a ← argfd 0;
  match a with
  | None => mret None
  | Some (_, f) =>
      n ← argint 2;
      match n with
      | None => mret None
      | Some n =>
          p ← argptr 1 n;
          mret ((λ p, (f, n, p)) <$> p)
      end
  end.

(** A round of a read: the bytes go to [p]. *)
Definition finish_read (killed : bool) (f : nat) (n p off : Z) : KM (pround Z) :=
  r ← as_me (fileread dev_read killed f n off);
  match r with
  | PDone (v, bytes) => store p bytes;; mret (PDone v)
  | PSleep c i => mret (PSleep c i)
  end.
(** A round of a write; [i] is where a pipe write that slept goes on. *)
Definition finish_write (killed : bool) (f : nat) (n p off : Z) (i : nat) : KM (pround Z) :=
  src ← ld_string p n;
  as_me (filewrite dev_write killed f src off i).

Definition cur_killed : KM bool := i ← me; k ← rd i.1 p_killed; mret (negb (Z.eqb k 0)).

Definition sys_read : KM (pround Z) :=
  a ← rw_args;
  match a with
  | None => mret (PDone (-1))
  | Some (f, n, p) => k ← cur_killed; finish_read k f n p (-1)
  end.

Definition sys_write : KM (pround Z) :=
  a ← rw_args;
  match a with
  | None => mret (PDone (-1))
  | Some (f, n, p) => k ← cur_killed; finish_write k f n p (-1) 0
  end.

Definition sys_pread : KM (pround Z) :=
  a ← rw_args;
  match a with
  | None => mret (PDone (-1))
  | Some (f, n, p) =>
      off ← argint 3;
      match off with
      | None => mret (PDone (-1))
      | Some off => if Z.ltb off 0 then mret (PDone (-1)) else k ← cur_killed; finish_read k f n p off
      end
  end.

Definition sys_pwrite : KM (pround Z) :=
  a ← rw_args;
  match a with
  | None => mret (PDone (-1))
  | Some (f, n, p) =>
      off ← argint 3;
      match off with
      | None => mret (PDone (-1))
      | Some off => if Z.ltb off 0 then mret (PDone (-1)) else k ← cur_killed; finish_write k f n p off 0
      end
  end.

Definition sys_close : KM Z :=
  a ← argfd 0;
  match a with
  | None => mret (-1)
  | Some (fd, f) =>
      i ← me;
      wr i.2 (set_ofile fd None);;
      as_me (fileclose kend f);;
      mret 0
  end.

Definition le_bytes (n : nat) (v : Z) : list Z := (λ i, (v / 256 ^ Z.of_nat i) mod 256) <$> seq 0 n.
(** [struct stat] has its members at 0, 4, 8, 12 and 16. *)
Definition store_stat (p : Z) (st : stat) : KM unit :=
  store p (le_bytes 2 (st_type st));;
  store (p + 4) (le_bytes 4 (st_dev st));;
  store (p + 8) (le_bytes 4 (st_ino st));;
  store (p + 12) (le_bytes 2 (st_nlink st));;
  store (p + 16) (le_bytes 4 (st_size st)).

Definition sys_fstat : KM Z :=
  a ← argfd 0;
  match a with
  | None => mret (-1)
  | Some (_, f) =>
      p ← argptr 1 20;
      match p with
      | None => mret (-1)
      | Some p =>
          r ← as_me (filestat f);
          (match r.2 with Some st => store_stat p st | None => mret tt end);;
          mret r.1
      end
  end.

Definition sys_link : KM Z :=
  old ← argpath 0;
  match old with
  | None => mret (-1)
  | Some old =>
      new ← argpath 1;
      match new with
      | None => mret (-1)
      | Some new => as_me (do_link dev_read dev_write name0 old new)
      end
  end.

Definition sys_unlink : KM Z :=
  path ← argpath 0;
  match path with
  | None => mret (-1)
  | Some path => as_me (do_unlink dev_read dev_write name0 path)
  end.

Definition sys_open : KM Z :=
  path ← argpath 0;
  omode ← (if path then argint 1 else mret None);
  match path, omode with
  | Some path, Some omode =>
      as_me begin_txn;;
      ip ← as_me (open_inode dev_read dev_write name0 path omode);
      match ip with
      | None => mret (-1)
      | Some ip =>
          f ← as_me filealloc;
          fd ← match f with Some f => fdalloc f | None => mret (-1) end;
          match f with
          | Some f =>
              if Z.ltb fd 0 then
                as_me (fileclose kend f);;
                as_me (on_fs (iunlockput ip));;
                as_me end_txn;;
                mret (-1)
              else
                as_me (on_fs (iunlock (Some ip)));;
                as_me end_txn;;
                as_me (wf f (set_open ip omode));;
                mret fd
          | None =>
              as_me (on_fs (iunlockput ip));;
              as_me end_txn;;
              mret (-1)
          end
      end
  | _, _ => mret (-1)
  end.

Definition sys_mkdir : KM Z :=
  as_me begin_txn;;
  path ← argpath 0;
  match path with
  | None => as_me end_txn;; mret (-1)
  | Some path => as_me (make_node dev_read dev_write name0 path T_DIR 0 0)
  end.

Definition sys_mknod : KM Z :=
  as_me begin_txn;;
  path ← argpath 0;
  major ← (if path then argint 1 else mret None);
  minor ← (if major then argint 2 else mret None);
  match path, major, minor with
  | Some path, Some major, Some minor => as_me (make_node dev_read dev_write name0 path T_DEV major minor)
  | _, _, _ => as_me end_txn;; mret (-1)
  end.

Definition sys_chdir : KM Z :=
  i ← me;
  as_me begin_txn;;
  path ← argpath 0;
  ip ← match path with Some path => as_me (on_fs (namei dev_read path name0)) | None => mret None end;
  match ip with
  | None => as_me end_txn;; mret (-1)
  | Some ip =>
      as_me (on_fs (ilock (Some ip)));;
      t ← as_me (on_fs (ri ip i_type));
      if negb (Z.eqb t T_DIR) then
        as_me (on_fs (iunlockput ip));;
        as_me end_txn;;
        mret (-1)
      else
        as_me (on_fs (iunlock (Some ip)));;
        old ← rd i.2 p_cwd;
        old ← deref old;
        as_me (on_fs (Fs.iput old));;
        as_me end_txn;;
        wr i.2 (set_p_cwd (Some ip));;
        mret 0
  end.

(** [sys_exec] up to the call of [exec]: the path and the arguments. *)
Definition sys_exec_args : KM (option (list Z * list (list Z))) :=
  path ← argpath 0;
  uargv ← (if path then argint 1 else mret None);
  match path, uargv with
  | Some path, Some uargv =>
      loop (S MAXARG) (λ '(i, argv),
        if (MAXARG <=? i)%nat then mret (inr None)
        else
          uarg ← fetchint (u32 (u32 uargv + 4 * Z.of_nat i));
          match uarg with
          | None => mret (inr None)
          | Some uarg =>
              if Z.eqb uarg 0 then mret (inr (Some (path, argv)))
              else
                len ← fetchstr (u32 uarg);
                match len with
                | None => mret (inr None)
                | Some len => l ← ld_string (u32 uarg) len; mret (inl (S i, argv ++ [l]))
                end
          end) (0%nat, [])
  | _, _ => mret None
  end.

Definition sys_pipe : KM Z :=
  p ← argptr 0 8;
  match p with
  | None => mret (-1)
  | Some p =>
      r ← as_me (pipealloc kend);
      match r with
      | (ret, (Some rf, Some wf)) =>
          if Z.ltb ret 0 then mret (-1)
          else
            fd0 ← fdalloc rf;
            fd1 ← (if Z.ltb fd0 0 then mret (-1) else fdalloc wf);
            if Z.ltb fd0 0 || Z.ltb fd1 0 then
              (if Z.leb 0 fd0 then i ← me; wr i.2 (set_ofile (Z.to_nat fd0) None) else mret tt);;
              as_me (fileclose kend rf);;
              as_me (fileclose kend wf);;
              mret (-1)
            else
              store p (le_bytes 4 fd0 ++ le_bytes 4 fd1);;
              mret 0
      | _ => mret (-1)
      end
  end.
End sysfile.

Close Scope Z_scope.
