(* ===== verification/SysfileTheorems.v ===== *)
(** * Descriptors and reference counts

    Every system call of [sysfile.c], whether it succeeds or fails, leaves
    the count of each open file equal to the number of descriptors that
    refer to it. *)

From S2P Require Import Prelude.
From S2P Require Import Strings.
From S2P Require Import Bio.
From S2P Require Import Log.
From S2P Require Import Spinlock.
From S2P Require Import Kstate.
From S2P Require Import ThreadCore.
From S2P Require Import Proc.
From S2P Require Import Syscall.
From S2P Require Import SyscallTheorems.
From S2P Require Import BlockStore.
From S2P Require Import Fs.
From S2P Require Import Pipe.
From S2P Require Import Kalloc.
From S2P Require Import File.
From S2P Require Import FileTheorems.
From S2P Require Import Sysfile.

Open Scope Z_scope.

(** The file subsystem is a part of its own. *)
Class FilesLaws (D E : Type) `{!UMem E} `{!HasFiles D E} := {
  files_set : ∀ f e, e_files (set_e_files (D := D) f e) = f;
  files_store : ∀ a l e, e_files (D := D) (u_store (D := D) a l e) = e_files e
}.

Section sysfile.
Context {D E : Type} `{!BlockOps D} `{!TxnOps D} `{!UMem E} `{!HasFiles D E} `{!FilesLaws D E} (kend : Z).
Context (dev_read : Z → option (nat → Z → M (fstate D) (Z * list Z))).
Context (dev_write : Z → option (nat → list Z → Z → M (fstate D) Z)).
Context (name0 : list Z).
Abbreviation KM := (M (kstate E)).
Implicit Types s : kstate E.

Definition refs (s : kstate E) (i : nat) : Z := fl_ref (fl (e_files (D := D) (k_ext s)) i).

(** Process [p] runs, with main thread [m]. *)
Definition mine (p m : nat) (s : kstate E) : Prop := runs p (k_cpus s) ∧ main_of s p m.

(** The threads and their descriptors are as before. *)
Definition same_fds (s s' : kstate E) : Prop :=
  ∀ q, p_ofile (pr s' q) = p_ofile (pr s q) ∧ p_thmain (pr s' q) = p_thmain (pr s q).

Lemma same_fds_refl s : same_fds s s.
Proof using Type. done. Qed.
Lemma same_fds_trans s1 s2 s3 : same_fds s1 s2 → same_fds s2 s3 → same_fds s1 s3.
Proof using Type. intros H1 H2 q. destruct (H1 q), (H2 q). split; congruence. Qed.

Lemma main_of_same s s' q m : (∀ q, p_thmain (pr s' q) = p_thmain (pr s q)) → main_of s q m → main_of s' q m.
Proof using Type.
  intros He (n & Hle & Hc). exists n. split; [done|]. clear Hle. induction Hc as [m Hm|n th th' m Hm Hne Hc IH].
  - constructor. by rewrite He.
  - econstructor; [by rewrite He|done|done].
Qed.

(** ** Computations that touch no descriptor and no count *)

Definition quiet {A} (c : KM A) : Prop := ∀ p s r s', runs p (k_cpus s) → c s = Ok (r, s') →
  runs p (k_cpus s') ∧ same_fds s s' ∧ ∀ i, refs s' i = refs s i.

Lemma quiet_ret {A} (a : A) : quiet (mret a).
Proof using Type. intros p s r s' Hr [= <- <-]. done. Qed.
Lemma quiet_fail {A} e : quiet (A := A) (fail e).
Proof using Type. intros p s r s' Hr [=]. Qed.
Lemma quiet_gets {A} (g : kstate E → A) : quiet (gets g).
Proof using Type. intros p s r s' Hr [= <- <-]. done. Qed.
Lemma quiet_bind {A B} (c : KM A) (g : A → KM B) : quiet c → (∀ a, quiet (g a)) → quiet (c ≫= g).
Proof using Type.
  intros Hc Hg p s r s' Hr. unfold mbind, M_bind. destruct (c s) as [[a s1]|] eqn:E1; [|done]. intros H.
  destruct (Hc _ _ _ _ Hr E1) as (R1 & F1 & C1). destruct (Hg a _ _ _ _ R1 H) as (R2 & F2 & C2).
  split_and!; [done|by eapply same_fds_trans|]. intros i. by rewrite C2.
Qed.
Lemma quiet_loop {A B} fuel (body : A → KM (A + B)) a : (∀ a, quiet (body a)) → quiet (loop fuel body a).
Proof using Type.
  intros Hb. revert a. induction fuel as [|fuel IH]; intros a; [apply quiet_fail|]. simpl. apply quiet_bind; [apply Hb|].
  intros [a'|b]; [apply IH|apply quiet_ret].
Qed.
Lemma quiet_myproc : quiet (on_cpus myproc).
Proof using Type.
  intros p s r s' Hr E1. pose proof (myproc_near p s Hr) as H. unfold wp in H. rewrite E1 in H. destruct H as [_ (k & -> & Hk)]. done.
Qed.
Lemma quiet_files {A} (c : M (flstate D) A) : keeps_refs c → quiet (on_files c).
Proof using All.
  intros Hc p s r s' Hr. unfold on_files, zoom. destruct (c (e_files (k_ext s))) as [[a f]|] eqn:E1; [|done]. intros [= <- <-].
  split_and!; [done|done|]. intros i. unfold refs. simpl. rewrite files_set. by apply (Hc _ _ _ E1).
Qed.
Lemma quiet_store a l : quiet (store (D := D) a l).
Proof using All. intros p s r s' Hr [= <- <-]. split_and!; [done|done|]. intros i. unfold refs. simpl. by rewrite files_store. Qed.
Lemma quiet_wr q f : (∀ x, p_ofile (f x) = p_ofile x ∧ p_thmain (f x) = p_thmain x) → quiet (wr q f).
Proof using Type.
  intros Hf p s r s' Hr [= <- <-]. split_and!; [done| |done]. intros x. unfold pr, upd_proc. simpl. rewrite lookup_insert.
  case_decide as Ex; [subst; apply Hf|done].
Qed.
Lemma quiet_deref {A} (o : option A) : quiet (deref o).
Proof using Type. destruct o; [apply quiet_ret|apply quiet_fail]. Qed.
Lemma kr_load pid tid c : keeps_refs (modify (load_proc (D := D) pid tid c)).
Proof using Type. intros s r s' [= <- <-]. done. Qed.

Create HintDb quiet.
Hint Resolve quiet_ret quiet_fail quiet_gets quiet_myproc quiet_store quiet_deref : quiet.

Ltac qt :=
  repeat first
    [ solve [auto with quiet nocore] | apply quiet_loop; intros ? | apply quiet_bind; [|intros ?]
    | apply quiet_files | apply quiet_wr; done
    | match goal with |- quiet (match ?x with _ => _ end) => destruct x end ].

Lemma quiet_rd {A} q (f : proc → A) : quiet (rd q f).
Proof using Type. apply quiet_gets. Qed.
Hint Resolve quiet_rd : quiet.
Lemma quiet_main q : quiet (main_thread q).
Proof using Type. unfold main_thread. qt. Qed.
Hint Resolve quiet_main : quiet.
Lemma quiet_me : quiet me.
Proof using Type. unfold me. qt. Qed.
Hint Resolve quiet_me : quiet.
Lemma quiet_as_me {A} (c : M (flstate D) A) : keeps_refs c → quiet (as_me c).
Proof using All. intros Hc. unfold as_me. qt. apply kr_bind; [apply kr_load|done]. Qed.
Lemma quiet_bounds : quiet bounds.
Proof using Type. unfold bounds. qt. Qed.
Hint Resolve quiet_bounds : quiet.
Lemma quiet_ld8 a : quiet (ld_user8 a).
Proof using Type. unfold ld_user8. qt. Qed.
Hint Resolve quiet_ld8 : quiet.
Lemma quiet_fetchint a : quiet (fetchint a).
Proof using Type. unfold fetchint, ld_user. qt. Qed.
Hint Resolve quiet_fetchint : quiet.
Lemma quiet_argint n : quiet (argint n).
Proof using Type. unfold argint, ld_tf, ld_kstk. qt. Qed.
Hint Resolve quiet_argint : quiet.
Lemma quiet_fetchstr a : quiet (fetchstr a).
Proof using Type. unfold fetchstr, scan_nul. qt. Qed.
Hint Resolve quiet_fetchstr : quiet.
Lemma quiet_argptr n size : quiet (argptr n size).
Proof using Type. unfold argptr. qt. Qed.
Hint Resolve quiet_argptr : quiet.
Lemma quiet_ld_string a l : quiet (ld_string a l).
Proof using Type. unfold ld_string. qt. Qed.
Hint Resolve quiet_ld_string : quiet.
Lemma quiet_argpath n : quiet (argpath n).
Proof using Type. unfold argpath, argstr. qt. Qed.
Hint Resolve quiet_argpath : quiet.
Lemma quiet_argfd n : quiet (argfd n).
Proof using Type. unfold argfd. qt. Qed.
Hint Resolve quiet_argfd : quiet.

Lemma begin_refs : keeps_refs (begin_txn (D := D)).
Proof using Type. unfold begin_txn. keep_refs. Qed.
Lemma end_refs : keeps_refs (end_txn (D := D)).
Proof using Type. unfold end_txn. keep_refs. Qed.
Lemma link_refs old new : keeps_refs (do_link dev_read dev_write name0 old new).
Proof using Type. unfold do_link, link_bad, begin_txn, end_txn. keep_refs. Qed.
Lemma unlink_refs path : keeps_refs (do_unlink dev_read dev_write name0 path).
Proof using Type. unfold do_unlink, unlink_bad, begin_txn, end_txn, panic. keep_refs. Qed.
Lemma make_node_refs path t a b : keeps_refs (make_node dev_read dev_write name0 path t a b).
Proof using Type. unfold make_node, end_txn. keep_refs. Qed.
Lemma open_inode_refs path omode : keeps_refs (open_inode dev_read dev_write name0 path omode).
Proof using Type. unfold open_inode, end_txn. keep_refs. Qed.
Hint Resolve begin_refs end_refs link_refs unlink_refs make_node_refs open_inode_refs fileread_refs filewrite_refs filestat_refs kr_fs : quiet.
Hint Resolve quiet_as_me : quiet.

Lemma quiet_rw_args : quiet rw_args.
Proof using Type. unfold rw_args. qt. Qed.
Hint Resolve quiet_rw_args : quiet.

(** The calls that neither make nor drop a reference. *)
Lemma quiet_read : quiet (sys_read (D := D) dev_read).
Proof using All. unfold sys_read, cur_killed, finish_read. qt. Qed.
Lemma quiet_write : quiet (sys_write (D := D) dev_write).
Proof using All. unfold sys_write, cur_killed, finish_write. qt. Qed.
Lemma quiet_pread : quiet (sys_pread (D := D) dev_read).
Proof using All. unfold sys_pread, cur_killed, finish_read. qt. Qed.
Lemma quiet_pwrite : quiet (sys_pwrite (D := D) dev_write).
Proof using All. unfold sys_pwrite, cur_killed, finish_write. qt. Qed.
Lemma quiet_fstat : quiet (sys_fstat (D := D)).
Proof using All. unfold sys_fstat, store_stat. qt. Qed.
Lemma quiet_link : quiet (sys_link (D := D) dev_read dev_write name0).
Proof using All. unfold sys_link. qt. Qed.
Lemma quiet_unlink : quiet (sys_unlink (D := D) dev_read dev_write name0).
Proof using All. unfold sys_unlink. qt. Qed.
Lemma quiet_mkdir : quiet (sys_mkdir (D := D) dev_read dev_write name0).
Proof using All. unfold sys_mkdir. qt. Qed.
Lemma quiet_mknod : quiet (sys_mknod (D := D) dev_read dev_write name0).
Proof using All. unfold sys_mknod. qt. Qed.
Lemma quiet_chdir : quiet (sys_chdir (D := D) dev_read name0).
Proof using All. unfold sys_chdir. qt. Qed.

(** ** The count of every file *)

(** If the computation returns, the postcondition holds. *)
Definition hoare {A} (P : kstate E → Prop) (c : KM A) (Q : A → kstate E → Prop) : Prop := ∀ s r s', P s → c s = Ok (r, s') → Q r s'.

Lemma hoare_bind {A B} P (c : KM A) (Q : A → kstate E → Prop) (g : A → KM B) R :
  hoare P c Q → (∀ a, hoare (Q a) (g a) R) → hoare P (c ≫= g) R.
Proof using Type.
  intros Hc Hg s r s' HP. unfold mbind, M_bind. destruct (c s) as [[a s1]|] eqn:E1; [|done]. intros H. by eapply Hg; [eapply Hc|].
Qed.
Lemma hoare_ret {A} P (a : A) (Q : A → kstate E → Prop) : (∀ s, P s → Q a s) → hoare P (mret a) Q.
Proof using Type. intros H s r s' HP [= <- <-]. auto. Qed.
Lemma hoare_pre {A} (P P' : kstate E → Prop) (c : KM A) Q : (∀ s, P s → P' s) → hoare P' c Q → hoare P c Q.
Proof using Type. intros H H' s r s' HP. apply H'. auto. Qed.
Lemma hoare_post {A} P (c : KM A) (Q Q' : A → kstate E → Prop) : hoare P c Q → (∀ a s, Q a s → Q' a s) → hoare P c Q'.
Proof using Type. intros H HQ s r s' HP Hc. eapply HQ, H; done. Qed.
Lemma hoare_wp {A} (P : kstate E → Prop) (c : KM A) Q : (∀ s, P s → wp c Q s) → hoare P c Q.
Proof using Type. intros H s r s' HP Hc. specialize (H s HP). unfold wp in H. by rewrite Hc in H. Qed.
Lemma hoare_pure {A} (φ : Prop) P (c : KM A) Q : (φ → hoare P c Q) → hoare (λ s, φ ∧ P s) c Q.
Proof using Type. intros H s r s' [Hφ HP]. by apply H. Qed.

Context (p m : nat) (others : nat → Z).

Definition one (f i : nat) : Z := if decide (i = f) then 1 else 0.
Definition fds (s : kstate E) : list nat := omap id (p_ofile (pr s m)).

(** The count of a file is what others hold, what the descriptors of the
    process hold, and [d], what the running call holds itself. *)
Definition counted (d : nat → Z) (s : kstate E) : Prop :=
  mine p m s ∧ length (p_ofile (pr s m)) = NOFILE ∧ ∀ i, refs s i = others i + holders i (fds s) + d i.

Lemma counted_ext d d' s : (∀ i, d i = d' i) → counted d s → counted d' s.
Proof using Type. intros Hd (H1 & H2 & H3). split_and!; [done..|]. intros i. by rewrite H3, Hd. Qed.

Lemma hoare_quiet {A} (c : KM A) d (K : kstate E → Prop) : quiet c → (∀ s s', same_fds s s' → K s → K s') →
  hoare (λ s, counted d s ∧ K s) c (λ _ s, counted d s ∧ K s).
Proof using Type.
  intros Hq HK s r s' [([Hr Hm] & Hl & Hc) Hk] Hs. destruct (Hq _ _ _ _ Hr Hs) as (R' & F' & C'). split; [|by eapply HK].
  split_and!; [|by rewrite (proj1 (F' m))|].
  - split; [done|]. eapply main_of_same; [|done]. intros q. apply F'.
  - intros i. rewrite C', Hc. unfold fds. by rewrite (proj1 (F' m)).
Qed.
Lemma hoare_quiet0 {A} (c : KM A) d : quiet c → hoare (counted d) c (λ _, counted d).
Proof using Type.
  intros Hq. eapply hoare_pre; [|eapply hoare_post; [by apply (hoare_quiet c d (λ _, True))|]]; [done|]. by intros a s [? _].
Qed.

Lemma holders_fds (l : list (option nat)) fd o i : (fd < length l)%nat →
  holders i (omap id (<[fd := o]> l)) = holders i (omap id l) - (if decide (l !! fd ≫= id = Some i) then 1 else 0) + (if decide (o = Some i) then 1 else 0).
Proof using Type.
  intros Hl. destruct (lookup_lt_is_Some_2 l fd Hl) as [x Hx]. rewrite Hx. rewrite <-(take_drop_middle l fd x Hx) at 2.
  rewrite (insert_take_drop l fd o Hl). rewrite !omap_app, !holders_app. simpl.
  destruct x as [x|], o as [o|]; simpl; rewrite ?holders_cons; repeat case_decide; simplify_eq; lia.
Qed.

(** Storing a descriptor. *)
Lemma counted_set d s fd o : counted d s → (fd < NOFILE)%nat →
  counted (λ i, d i + (if decide (ofile fd (pr s m) = Some i) then 1 else 0) - (if decide (o = Some i) then 1 else 0)) (upd_proc m (set_ofile fd o) s).
Proof using Type.
  intros ([Hr Hm] & Hl & Hc) Hfd. assert (pr (upd_proc m (set_ofile fd o) s) m = set_ofile fd o (pr s m)) as Ep.
  { unfold upd_proc, pr at 1. simpl. by rewrite lookup_insert_eq. }
  split_and!; [split; [done|]| |].
  - eapply main_of_same; [|done]. intros q. unfold upd_proc, pr. simpl. rewrite lookup_insert. case_decide; [by subst|done].
  - rewrite Ep. simpl. by rewrite length_insert.
  - intros i. change (refs (upd_proc m (set_ofile fd o) s) i) with (refs s i). rewrite Hc. unfold fds. rewrite Ep. simpl.
    rewrite holders_fds by lia. unfold ofile. lia.
Qed.

Lemma me_mine s : mine p m s → wp me (λ i s', i = (p, m) ∧ near p s s') s.
Proof using Type.
  intros [Hr Hm]. unfold me. wstep. wcall myproc_near; [done|]. intros r s1 [-> Hn]. wsteps.
  wcall main_thread_near; [by eapply main_of_near|]. intros r s2 [-> ->]. by wstep.
Qed.
Lemma hoare_me d (K : kstate E → Prop) : (∀ s s', same_fds s s' → K s → K s') →
  hoare (λ s, counted d s ∧ K s) me (λ i s, i = (p, m) ∧ counted d s ∧ K s).
Proof using Type.
  intros HK s r s' [Hc Hk] Hs. destruct (hoare_quiet me d K quiet_me HK s r s' (conj Hc Hk) Hs) as [Hc' Hk']. split; [|done].
  pose proof (me_mine s (proj1 Hc)) as H. unfold wp in H. rewrite Hs in H. apply H.
Qed.

(** *** The routines that make and drop references *)

Lemma hoare_as_me {A} (c : M (flstate D) A) d (δ : A → nat → Z) :
  (∀ x r x', c x = Ok (r, x') → ∀ i, fl_ref (fl x' i) = fl_ref (fl x i) + δ r i) →
  hoare (counted d) (as_me c) (λ r, counted (λ i, d i + δ r i)).
Proof using All.
  intros Hc. unfold as_me. eapply hoare_bind; [apply hoare_quiet0, quiet_me|]. intros j. do 3 (eapply hoare_bind; [apply hoare_quiet0, quiet_rd|]; intros ?).
  intros s r s' (Hm & Hl & Hr) Hs. unfold on_files, zoom in Hs. unfold mbind, M_bind, modify in Hs. simpl in Hs.
  destruct (c _) as [[b x']|] eqn:E1; [|done]. injection Hs as <- <-.
  split_and!; [split; [apply Hm|by eapply main_of_same, Hm]|exact Hl|]. intros i.
  unfold refs. simpl. rewrite files_set, (Hc _ _ _ E1). change (fds (set_k_ext _ s)) with (fds s). specialize (Hr i). unfold refs in Hr.
  change (fl (load_proc _ _ _ ?x) i) with (fl x i). lia.
Qed.

Lemma filealloc_delta (x : flstate D) r x' : filealloc x = Ok (r, x') →
  ∀ i, fl_ref (fl x' i) = fl_ref (fl x i) + match r with Some f => one f i | None => 0 end.
Proof using Type.
  intros H i. pose proof (filealloc_spec x) as Hs. unfold wp in Hs. rewrite H in Hs. destruct r as [f|]; [|destruct Hs as [_ ->]; lia].
  destruct Hs as (_ & Hz & ->). rewrite fl_upd. unfold one. case_decide; [subst; simpl; lia|lia].
Qed.
Lemma filedup_delta f (x : flstate D) r x' : filedup f x = Ok (r, x') → ∀ i, fl_ref (fl x' i) = fl_ref (fl x i) + one f i.
Proof using Type.
  unfold filedup, mbind, M_bind. simpl. destruct (_ <? 1); [done|]. intros [= _ <-] i.
  change (set_ftable _ x) with (upd_file f (set_fl_ref (fl_ref (fl x f) + 1)) x). rewrite fl_upd. unfold one. case_decide; [subst; simpl; lia|lia].
Qed.
Lemma fileclose_delta f (x : flstate D) r x' : fileclose kend f x = Ok (r, x') → ∀ i, fl_ref (fl x' i) = fl_ref (fl x i) + (- one f i).
Proof using Type.
  intros H i. destruct (fileclose_refs kend f x r x' H) as [_ Hx]. rewrite Hx. unfold one. case_decide; [subst; lia|lia].
Qed.

Lemma bind_inv {S A B} (c : M S A) (g : A → M S B) x r x' : (c ≫= g) x = Ok (r, x') → ∃ a y, c x = Ok (a, y) ∧ g a y = Ok (r, x').
Proof using Type. unfold mbind, M_bind. destruct (c x) as [[a y]|]; [|done]. eauto. Qed.

Definition opt_one (o : option nat) (i : nat) : Z := match o with Some f => one f i | None => 0 end.

Lemma pipealloc_bad_delta q f0 f1 (x : flstate D) r x' : pipealloc_bad kend q f0 f1 x = Ok (r, x') →
  r = (-1, (f0, f1)) ∧ ∀ i, fl_ref (fl x' i) = fl_ref (fl x i) - opt_one f0 i - opt_one f1 i.
Proof using Type.
  unfold pipealloc_bad. intros (a1 & x1 & E1 & (a2 & x2 & E2 & (a3 & x3 & E3 & E4)%bind_inv)%bind_inv)%bind_inv. injection E4 as <- <-. split; [done|]. intros i.
  assert (fl_ref (fl x1 i) = fl_ref (fl x i)) as H1 by (eapply (kr_when _ _ (kr_mem _)); exact E1).
  assert (∀ f (y : flstate D) u y', match f with Some f => fileclose kend f | None => mret tt end y = Ok (u, y') → fl_ref (fl y' i) = fl_ref (fl y i) - opt_one f i) as Hcl.
  { intros [f|] y u y' Hy; simpl; [rewrite (fileclose_delta _ _ _ _ Hy); lia|]. injection Hy as _ <-. lia. }
  rewrite (Hcl _ _ _ _ E3), (Hcl _ _ _ _ E2), H1. lia.
Qed.

(** Either both ends or nothing. *)
Lemma pipealloc_delta (x : flstate D) r x' : pipealloc kend x = Ok (r, x') →
  (r.1 < 0 ∨ ∃ a b, r = (0, (Some a, Some b))) ∧ ∀ i, fl_ref (fl x' i) = fl_ref (fl x i) + (if decide (r.1 < 0) then 0 else opt_one r.2.1 i + opt_one r.2.2 i).
Proof using Type.
  unfold pipealloc. intros (f0 & x1 & E0 & H)%bind_inv. pose proof (filealloc_delta _ _ _ E0) as H0.
  assert (∀ q g0 g1 (y : flstate D), (∀ i, fl_ref (fl y i) = fl_ref (fl x i) + opt_one g0 i + opt_one g1 i) → pipealloc_bad kend q g0 g1 y = Ok (r, x') →
    (r.1 < 0 ∨ ∃ a b, r = (0, (Some a, Some b))) ∧ ∀ i, fl_ref (fl x' i) = fl_ref (fl x i) + (if decide (r.1 < 0) then 0 else opt_one r.2.1 i + opt_one r.2.2 i)) as Hbad.
  { intros q g0 g1 y Hy [-> Hb]%pipealloc_bad_delta. split; [left; simpl; lia|]. intros i. simpl. rewrite Hb, Hy. lia. }
  destruct f0 as [a|]; [|eapply Hbad; [|exact H]; intros i; rewrite H0; simpl; lia].
  apply bind_inv in H as (f1 & x2 & E1 & H). pose proof (filealloc_delta _ _ _ E1) as H1.
  destruct f1 as [b|]; [|eapply Hbad; [|exact H]; intros i; rewrite H1, H0; simpl; lia].
  apply bind_inv in H as (q & x3 & E2 & H). pose proof (kr_mem _ _ _ _ E2) as H2.
  destruct (Z.eqb q 0); [eapply Hbad; [|exact H]; intros i; rewrite H2, H1, H0; simpl; lia|].
  assert (keeps_refs (d ← on_mem (ld_page q);
            modify (λ y, set_pipes (<[q := pipe_init (take PIPESIZE (drop 52 d))]> (fl_pipes y)) y);;
            wf a (set_fl_end 1 0 q);; wf b (set_fl_end 0 1 q);; mret (0, (Some a, Some b)) : M (flstate D) _)) as K by keep_refs.
  pose proof (K _ _ _ H) as HK. apply bind_inv in H as (d & x4 & _ & H). injection H as <- <-. split; [right; eauto|].
  intros i. rewrite HK, H2, H1, H0. simpl. lia.
Qed.

Lemma fd_loop f s : wp (loop (S NOFILE) (λ fd,
    if (fd <? NOFILE)%nat then
      g ← rd m (ofile fd);
      match g with
      | None => wr m (set_ofile fd (Some f));; mret (inr (Z.of_nat fd))
      | Some _ => mret (inl (S fd))
      end
    else mret (inr (-1))) 0%nat)
  (λ r s', (r = -1 ∧ s' = s) ∨ ∃ fd, (fd < NOFILE)%nat ∧ r = Z.of_nat fd ∧ ofile fd (pr s m) = None ∧ s' = upd_proc m (set_ofile fd (Some f)) s) s.
Proof using Type.
  apply (wp_loop (λ n fd s', n = (NOFILE - fd)%nat ∧ s' = s ∧ (fd ≤ NOFILE)%nat)) with (n := NOFILE); [|lia|split_and!; lia || done].
  intros n fd s1 (-> & -> & Hle). destruct (Nat.ltb_spec fd NOFILE) as [Hlt|Hge]; [|wstep; by left].
  unfold rd. wstep. wstep. destruct (ofile fd (pr s m)) as [g|] eqn:Eg; [wstep; exists (NOFILE - S fd)%nat; split_and!; lia || done|].
  unfold wr. wsteps. right. by exists fd.
Qed.

Lemma hoare_fdalloc f d (K : kstate E → Prop) : (∀ s s', same_fds s s' → K s → K s') →
  hoare (λ s, counted d s ∧ K s) (fdalloc f) (λ r s, (r < 0 ∧ counted d s ∧ K s) ∨
    (0 ≤ r ∧ (Z.to_nat r < NOFILE)%nat ∧ counted (λ i, d i - one f i) s ∧ ofile (Z.to_nat r) (pr s m) = Some f)).
Proof using Type.
  intros HK. unfold fdalloc. eapply hoare_bind; [by apply hoare_me|]. intros j. apply hoare_pure. intros ->. apply hoare_wp. intros s [Hc Hk].
  wcall fd_loop. intros r s' [[-> ->]|(fd & Hfd & -> & Hn & ->)]; [left; split_and!; [lia|done..]|]. right. rewrite Nat2Z.id. split_and!; [lia|done| |].
  - eapply counted_ext; [|by apply (counted_set d _ fd (Some f))]. intros i. rewrite Hn. unfold one. simpl. repeat case_decide; simplify_eq; lia || done.
  - unfold upd_proc, pr at 1. simpl. rewrite lookup_insert_eq. simpl. unfold ofile, set_ofile. simpl. rewrite list_lookup_insert_eq; [done|].
    destruct Hc as (_ & -> & _). done.
Qed.

Lemma hoare_argfd n d : hoare (counted d) (argfd n) (λ r s, counted d s ∧ match r with
  | Some (fd, f) => (fd < NOFILE)%nat ∧ ofile fd (pr s m) = Some f
  | None => True
  end).
Proof using Type.
  unfold argfd. eapply hoare_bind; [apply hoare_quiet0, quiet_argint|]. intros [fd|]; [|by apply hoare_ret].
  destruct (Z.ltb_spec fd 0) as [|H0]; simpl; [by apply hoare_ret|]. destruct (Z.leb_spec (Z.of_nat NOFILE) fd) as [|H1]; simpl; [by apply hoare_ret|].
  eapply hoare_bind; [eapply hoare_pre; [|by apply (hoare_me d (λ _, True))]; done|]. intros j. apply hoare_pure. intros ->. apply hoare_wp. intros s [Hc _].
  unfold rd. wsteps. simpl. split; [done|]. destruct (ofile (Z.to_nat fd) (pr s m)) as [f|] eqn:Ef; simpl; [|done]. split; [lia|done].
Qed.

(** ** The calls *)

Abbreviation nothing := (λ _ : nat, 0).

Lemma hoare_files {A} (c : M (flstate D) A) d d' (δ : A → nat → Z) :
  (∀ x r x', c x = Ok (r, x') → ∀ i, fl_ref (fl x' i) = fl_ref (fl x i) + δ r i) → (∀ r i, d i + δ r i = d' i) →
  hoare (counted d) (as_me c) (λ _, counted d').
Proof using All.
  intros Hc Hd. eapply hoare_post; [by apply hoare_as_me|]. intros r s. apply counted_ext. intros i. apply Hd.
Qed.
Lemma hoare_close f d d' : (∀ i, d i - one f i = d' i) → hoare (counted d) (as_me (fileclose kend f)) (λ _, counted d').
Proof using All. intros Hd. eapply (hoare_files _ _ _ (λ _ i, - one f i)); [by intros; eapply fileclose_delta|]. intros _ i. rewrite <-Hd. lia. Qed.

Lemma hoare_dup : hoare (counted nothing) (sys_dup (D := D)) (λ _, counted nothing).
Proof using All.
  unfold sys_dup. eapply hoare_bind; [apply hoare_argfd|]. intros [[fd f]|]; [|apply hoare_ret; by intros s [? _]].
  eapply hoare_bind; [eapply hoare_pre; [|by apply (hoare_fdalloc f nothing (λ _, True))]; by intros s [? _]|]. intros r.
  destruct (Z.ltb_spec r 0) as [Hr|Hr]; [apply hoare_ret; intros s [(_ & H & _)|H]; [done|lia]|].
  eapply (hoare_bind _ _ (λ _, counted nothing)); [|intros ?; by apply hoare_ret]. eapply hoare_pre; [|apply (hoare_files _ (λ i, 0 - one f i) nothing (λ _ i, one f i)); [by intros; eapply filedup_delta|intros; simpl; lia]].
  intros s [[? _]|(_ & _ & H & _)]; [lia|done].
Qed.

Lemma hoare_sys_close : hoare (counted nothing) (sys_close (D := D) kend) (λ _, counted nothing).
Proof using All.
  unfold sys_close. eapply hoare_bind; [apply hoare_argfd|]. intros [[fd f]|]; [|apply hoare_ret; by intros s [? _]].
  eapply hoare_bind; [apply (hoare_me nothing (λ s, (fd < NOFILE)%nat ∧ ofile fd (pr s m) = Some f))|].
  { intros s s' Hs [H1 H2]. split; [done|]. unfold ofile in *. by rewrite (proj1 (Hs m)). }
  intros j. apply hoare_pure. intros ->. eapply hoare_bind; [apply (hoare_wp _ _ (λ _, counted (one f)))|intros ?].
  { intros s (Hc & Hfd & Hf). unfold wr. wstep. eapply counted_ext; [|by apply (counted_set nothing s fd None)]. intros i. rewrite Hf. simpl. unfold one.
    repeat case_decide; simplify_eq; lia || done. }
  eapply hoare_bind; [apply (hoare_close f _ nothing); intros; lia|]. intros ?. by apply hoare_ret.
Qed.

Lemma hoare_open : hoare (counted nothing) (sys_open (D := D) kend dev_read dev_write name0) (λ _, counted nothing).
Proof using All.
  unfold sys_open. eapply hoare_bind; [apply hoare_quiet0, quiet_argpath|]. intros path. eapply hoare_bind; [apply hoare_quiet0; qt|]. intros omode.
  destruct path as [path|]; [|by apply hoare_ret]. destruct omode as [omode|]; [|by apply hoare_ret].
  eapply hoare_bind; [apply hoare_quiet0; qt|]. intros ?. eapply hoare_bind; [apply hoare_quiet0; qt|]. intros [ip|]; [|by apply hoare_ret].
  eapply hoare_bind; [apply (hoare_as_me filealloc nothing (λ r, opt_one r)); intros; by eapply filealloc_delta|]. intros [f|]; simpl.
  - eapply hoare_bind; [eapply hoare_pre; [|by apply (hoare_fdalloc f (one f) (λ _, True))]; intros s H; by split|]. intros fd.
    destruct (Z.ltb_spec fd 0) as [Hr|Hr].
    + eapply hoare_bind; [eapply hoare_pre; [|apply (hoare_close f (one f) nothing); intros; lia]; intros s [(_ & H & _)|H]; [done|lia]|].
      intros ?. apply hoare_quiet0. qt.
    + eapply (hoare_pre _ (counted nothing)); [intros s [[? _]|(_ & _ & H & _)]; [lia|]; eapply counted_ext; [|exact H]; intros; simpl; lia|].
      apply hoare_quiet0. qt. apply kr_bind; [apply kr_load|intros ?; by apply kr_wf].
  - eapply (hoare_bind _ _ (λ _, counted nothing)); [by apply hoare_ret|]. intros fd. apply hoare_quiet0. qt.
Qed.

Lemma hoare_pipe : hoare (counted nothing) (sys_pipe (D := D) kend) (λ _, counted nothing).
Proof using All.
  unfold sys_pipe. eapply hoare_bind; [apply hoare_quiet0, quiet_argptr|]. intros [q|]; [|by apply hoare_ret].
  eapply hoare_bind.
  { eapply (hoare_post _ _ (λ r s, (r.1 < 0 ∨ ∃ a b, r = (0, (Some a, Some b))) ∧ counted (λ i, if decide (r.1 < 0) then 0 else opt_one r.2.1 i + opt_one r.2.2 i) s)); [|intros r s H; exact H].
    intros s r s' Hc Hs. split; [|by eapply (hoare_as_me (pipealloc kend) nothing _ (λ x r x' H, proj2 (pipealloc_delta x r x' H)) s r s')].
    unfold as_me in Hs. apply bind_inv in Hs as (j & s1 & _ & (a & s2 & _ & (b & s3 & _ & (c & s4 & _ & Hs)%bind_inv)%bind_inv)%bind_inv).
    unfold on_files, zoom, mbind, M_bind, modify in Hs. simpl in Hs. destruct (pipealloc kend _) as [[r' x']|] eqn:E1; [|done]. injection Hs as <- _.
    by eapply (proj1 (pipealloc_delta _ _ _ E1)). }
  intros [ret [[rf|] [wf|]]]; apply hoare_pure; intros Hr; simpl in Hr |- *;
    try (apply hoare_ret; intros s; apply counted_ext; intros i; simpl; rewrite decide_True; [done|]; destruct Hr as [|(a & b & [=])]; done).
  destruct (Z.ltb_spec ret 0) as [Hn|Hn]; [apply hoare_ret; intros s; apply counted_ext; intros; simpl; by rewrite decide_True|].
  apply (hoare_pre _ (counted (λ i, one rf i + one wf i))); [intros s; apply counted_ext; intros i; by rewrite decide_False by lia|].
  clear Hr. eapply hoare_bind; [eapply hoare_pre; [|by apply (hoare_fdalloc rf (λ i, one rf i + one wf i) (λ _, True))]; intros s H; by split|].
  intros fd0. destruct (Z.ltb_spec fd0 0) as [H0|H0].
  { eapply (hoare_bind _ _ (λ _, counted (λ i, one rf i + one wf i))); [apply hoare_ret; intros s [(_ & H & _)|[? _]]; [done|lia]|].
    intros fd1. simpl. rewrite (proj2 (Z.leb_gt 0 fd0)) by lia. eapply (hoare_bind _ _ (λ _, counted (λ i, one rf i + one wf i))); [by apply hoare_ret|]. intros ?.
    eapply hoare_bind; [apply (hoare_close rf (λ i, one rf i + one wf i) (one wf)); intros; lia|].
    intros ?. eapply hoare_bind; [apply (hoare_close wf _ nothing); intros; lia|]. intros ?. by apply hoare_ret. }
  eapply hoare_bind; [eapply hoare_pre; [|apply (hoare_fdalloc wf (one wf) (λ s, (Z.to_nat fd0 < NOFILE)%nat ∧ ofile (Z.to_nat fd0) (pr s m) = Some rf))]|].
  { intros s [[? _]|(_ & Hl & H & Hf)]; [lia|]. split; [|done]. eapply counted_ext; [|exact H]. intros; simpl; lia. }
  { intros s s' Hs [H1 H2]. split; [done|]. unfold ofile in *. by rewrite (proj1 (Hs m)). }
  intros fd1. destruct (Z.ltb_spec fd1 0) as [H1|H1]; simpl.
  - rewrite (proj2 (Z.leb_le 0 fd0)) by lia. eapply hoare_bind.
    { eapply hoare_bind; [eapply hoare_pre; [|apply (hoare_me (one wf) (λ s, (Z.to_nat fd0 < NOFILE)%nat ∧ ofile (Z.to_nat fd0) (pr s m) = Some rf))]|].
      - intros s [(_ & H & K)|[? _]]; [by split|lia].
      - intros s s' Hs [H2 H3]. split; [done|]. unfold ofile in *. by rewrite (proj1 (Hs m)).
      - intros j. apply hoare_pure. intros ->. apply (hoare_wp _ _ (λ _, counted (λ i, one wf i + one rf i))). intros s (Hc & Hl & Hf). unfold wr. wstep.
        eapply counted_ext; [|by apply (counted_set (one wf) s (Z.to_nat fd0) None)]. intros i. rewrite Hf. simpl. unfold one. repeat case_decide; simplify_eq; lia || done. }
    intros ?. eapply hoare_bind; [apply (hoare_close rf _ (one wf)); intros; lia|]. intros ?.
    eapply hoare_bind; [apply (hoare_close wf _ nothing); intros; lia|]. intros ?. by apply hoare_ret.
  - eapply (hoare_pre _ (counted nothing)); [intros s [[? _]|(_ & _ & H & _)]; [lia|]; eapply counted_ext; [|exact H]; intros; simpl; lia|].
    apply hoare_quiet0. qt.
Qed.

(** A system call of the process that returned. *)
Inductive filecall (s s' : kstate E) : Prop :=
| fc_dup r : sys_dup (D := D) s = Ok (r, s') → filecall s s'
| fc_close r : sys_close (D := D) kend s = Ok (r, s') → filecall s s'
| fc_open r : sys_open (D := D) kend dev_read dev_write name0 s = Ok (r, s') → filecall s s'
| fc_pipe r : sys_pipe (D := D) kend s = Ok (r, s') → filecall s s'
| fc_read r : sys_read (D := D) dev_read s = Ok (r, s') → filecall s s'
| fc_write r : sys_write (D := D) dev_write s = Ok (r, s') → filecall s s'
| fc_pread r : sys_pread (D := D) dev_read s = Ok (r, s') → filecall s s'
| fc_pwrite r : sys_pwrite (D := D) dev_write s = Ok (r, s') → filecall s s'
| fc_fstat r : sys_fstat (D := D) s = Ok (r, s') → filecall s s'
| fc_link r : sys_link (D := D) dev_read dev_write name0 s = Ok (r, s') → filecall s s'
| fc_unlink r : sys_unlink (D := D) dev_read dev_write name0 s = Ok (r, s') → filecall s s'
| fc_mkdir r : sys_mkdir (D := D) dev_read dev_write name0 s = Ok (r, s') → filecall s s'
| fc_mknod r : sys_mknod (D := D) dev_read dev_write name0 s = Ok (r, s') → filecall s s'
| fc_chdir r : sys_chdir (D := D) dev_read name0 s = Ok (r, s') → filecall s s'.

Lemma filecall_counted s s' : filecall s s' → counted nothing s → counted nothing s'.
Proof using All.
  intros [r H|r H|r H|r H|r H|r H|r H|r H|r H|r H|r H|r H|r H|r H] Hc.
  - by eapply hoare_dup.
  - by eapply hoare_sys_close.
  - by eapply hoare_open.
  - by eapply hoare_pipe.
  - by eapply (hoare_quiet0 _ _ quiet_read).
  - by eapply (hoare_quiet0 _ _ quiet_write).
  - by eapply (hoare_quiet0 _ _ quiet_pread).
  - by eapply (hoare_quiet0 _ _ quiet_pwrite).
  - by eapply (hoare_quiet0 _ _ quiet_fstat).
  - by eapply (hoare_quiet0 _ _ quiet_link).
  - by eapply (hoare_quiet0 _ _ quiet_unlink).
  - by eapply (hoare_quiet0 _ _ quiet_mkdir).
  - by eapply (hoare_quiet0 _ _ quiet_mknod).
  - by eapply (hoare_quiet0 _ _ quiet_chdir).
Qed.

(** C12: descriptors and counts agree.  Through any sequence of file system
    calls of a process, whether they succeed or fail, half-way failures of
    [open] and [pipe] included, the reference count of every open file stays
    the number of references others hold plus the number of descriptors of
    the process that refer to it: no call leaks a reference or drops one too
    many. *)
Theorem descriptors_match_counts s s' :
  mine p m s → length (p_ofile (pr s m)) = NOFILE → (∀ i, refs s i = others i + holders i (fds s)) →
  rtc filecall s s' →
  mine p m s' ∧ length (p_ofile (pr s' m)) = NOFILE ∧ ∀ i, refs s' i = others i + holders i (fds s').
Proof using All.
  intros H1 H2 H3 Hrun. assert (counted nothing s) as Hc by (split_and!; [done..|intros i; rewrite H3; lia]).
  induction Hrun as [s|s s1 s2 Hs _ IH].
  - done.
  - pose proof (filecall_counted _ _ Hs Hc) as Hc1. destruct Hc1 as (A1 & A2 & A3). apply IH; [done|done| |by split_and!]. intros i. rewrite A3. lia.
Qed.
End sysfile.

(** ** A concrete process *)

Module FdSample.
(** Open files and user memory. *)
Definition ext : Type := flstate lstate * gmap Z Z.
#[global] Instance ext_umem : UMem ext := { u_bytes := snd }.
#[global] Instance ext_files : HasFiles lstate ext := {
  e_files := fst;
  set_e_files f e := (f, e.2);
  u_store a l e := (e.1, write_bytes a l e.2)
}.
#[global] Instance ext_laws : FilesLaws lstate ext.
Proof. by split. Qed.

(** Descriptor 0 is file 0; the first argument is 0. *)
Definition files : flstate lstate := upd_file 0%nat (set_fl_ref 1) empty_files.
Definition state : kstate ext :=
  let x := ArgSample.state [] in
  mkK {[0%nat := set_p_ofile (Some 0%nat :: replicate 15 None) ArgSample.thread]} ∅ (k_mlfq x) (k_stride x) 254 2 None (k_cpus x)
    (files, list_to_map [(8004, 0); (8005, 0); (8006, 0); (8007, 0)]).
End FdSample.

(** [dup(0)] is 1, and file 0 has two references. *)
Lemma descriptors_match_counts_witness :
  ∃ s', sys_dup FdSample.state = Ok (1, s') ∧ refs (D := lstate) s' 0%nat = 2 ∧ fds 0 s' = [0; 0]%nat.
Proof.
  destruct (sys_dup FdSample.state) as [[r s']|e] eqn:E; [|vm_compute in E; discriminate].
  assert (r = 1 ∧ fds 0 s' = [0; 0]%nat) as [-> Hf] by (vm_compute in E; injection E as <- <-; split; reflexivity).
  exists s'. split; [done|]. split; [|done].
  destruct (descriptors_match_counts (D := lstate) 2151677952 (λ _, None) (λ _, None) [] 0 0 (λ _, 0) FdSample.state s') as (_ & _ & H).
  - split; [by exists 0%nat, (mkCpu 0 0 0 (Some 0%nat))|]. exists 0%nat. split; [lia|]. by constructor.
  - reflexivity.
  - intros i. change (fds 0 FdSample.state) with [0%nat]. unfold refs. simpl. unfold FdSample.files. rewrite fl_upd, holders_cons. case_decide; [done|].
    unfold empty_files, fl. simpl. by rewrite lookup_empty.
  - eapply rtc_once. by eapply fc_dup.
  - rewrite (H 0%nat), Hf. reflexivity.
Defined.

Close Scope Z_scope.
