(* ===== verification/UThread.v ===== *)
(** * Thread-safe files ([src/xv6-public/uthread.c])

    A [thread_safe_guard] is a descriptor with a readers-writer lock.
    [thread_safe_pread] and [thread_safe_pwrite] are followed one access at a
    time for the threads of a process: the accesses of the lock and semaphore
    routines ([Rwlock], [Xem]) with their failures, the call of [pread], and
    the transactions of [pwrite], between which other threads run.  What the
    two system calls do is the class [SharedFile]; [kernel_file] is what
    [File] makes of them.  [thread_safe_guard_init] and
    [thread_safe_guard_destroy] work on the heap of [Umalloc]. *)

From S2P Require Import Xem.
From S2P Require Import Rwlock.
From S2P Require Import Prelude.
From S2P Require Import Bio.
From S2P Require Import Log.
From S2P Require Import BlockStore.
From S2P Require Import Fs.
From S2P Require Import Pipe.
From S2P Require Import File.
From S2P Require Import Umalloc.

Open Scope Z_scope.

(** [pread] in one step; [pwrite] as what precedes its loop, and the turns of
    the loop, each from and to a point [C] of it. *)
Class SharedFile (F C : Type) := {
  sf_pread : Z → Z → M F (Z * list Z);
  sf_start : list Z → Z → M F (C + Z);
  sf_turn : list Z → Z → C → M F (C + Z);
  sf_pwrite : list Z → Z → M F Z
}.

(** Turns that do not leave the loop. *)
Inductive turns `{SharedFile F C} (d : list Z) (off : Z) (c0 : C) (f0 : F) : C → F → Prop :=
| turns_none : turns d off c0 f0 c0 f0
| turns_more c f c' f' : turns d off c0 f0 c f → sf_turn d off c f = Ok (inl c', f') → turns d off c0 f0 c' f'.

(** [pwrite] is its parts, when nobody comes between them. *)
Class SharedLaws (F C : Type) `{!SharedFile F C} : Prop := {
  pwrite_early d off r (f0 f : F) : sf_start d off f0 = Ok (inr r, f) → sf_pwrite d off f0 = Ok (r, f);
  pwrite_turns d off c0 c r (f0 f1 f f' : F) : sf_start d off f0 = Ok (inl c0, f1) → turns d off c0 f1 c f →
    sf_turn d off c f = Ok (inr r, f') → sf_pwrite d off f0 = Ok (r, f')
}.

(** ** Threads *)

Section uthread.
Context {F C : Type} `{!SharedFile F C}.

(** The call a thread is in: its arguments, the point of [pwrite] it is at,
    and [result] once the system call has returned; outside, what its last
    call returned. *)
Inductive tcall :=
| TNone (last : option Z)
| TRead (n off : Z) (result : option (Z * list Z))
| TWrite (d : list Z) (off : Z) (at_ : option C) (result : option Z).

(** The system calls that have returned, in this order. *)
Inductive event := ERead (t n off : Z) (r : Z * list Z) | EWrite (t : Z) (d : list Z) (off r : Z).

Record tsys := mkTsys { t_lock : rwsys; t_file : F; t_calls : gmap Z tcall; t_hist : list event }.

Definition set_call (t : Z) (c : tcall) (s : tsys) : tsys := mkTsys (t_lock s) (t_file s) (<[t := c]> (t_calls s)) (t_hist s).
Definition set_lock (r : rwsys) (s : tsys) : tsys := mkTsys r (t_file s) (t_calls s) (t_hist s).
Definition set_file (f : F) (s : tsys) : tsys := mkTsys (t_lock s) f (t_calls s) (t_hist s).
Definition add_event (e : event) (s : tsys) : tsys := mkTsys (t_lock s) (t_file s) (t_calls s) (t_hist s ++ [e]).

(** The next step inside a routine of the lock, and calling one. *)
Definition lock_next (t : Z) (s : tsys) : option tsys := r ← rw_next t (t_lock s); Some (set_lock r s).
Definition lock_call (t : Z) (p : rpc) (s : tsys) : tsys := set_lock (enter t p (t_lock s)) s.
Definition return_ (t v : Z) (s : tsys) : tsys := set_call t (TNone (Some v)) s.

Definition thread_safe_pread (t n off : Z) (result : option (Z * list Z)) (p : rpc) (s : tsys) : option tsys :=
  match p, result with
  | RFailed, _ => Some (return_ t (-1) s)
  | Reading, None =>
      match sf_pread n off (t_file s) with
      | Ok (r, f) => Some (add_event (ERead t n off r) (set_call t (TRead n off (Some r)) (set_file f s)))
      | Err _ => None
      end
  | Reading, Some _ => Some (lock_call t RrMx s)
  | Idle, Some r => Some (return_ t (fst r) s)
  | _, _ => lock_next t s
  end.

(** [pwrite] has returned, or its loop goes on. *)
Definition pwrite_next (t : Z) (d : list Z) (off : Z) (r : C + Z) (s : tsys) : tsys :=
  match r with
  | inl c => set_call t (TWrite d off (Some c) None) s
  | inr r => add_event (EWrite t d off r) (set_call t (TWrite d off None (Some r)) s)
  end.
Definition thread_safe_pwrite (t : Z) (d : list Z) (off : Z) (c : option C) (result : option Z) (p : rpc) (s : tsys) : option tsys :=
  match p, result with
  | RFailed, _ => Some (return_ t (-1) s)
  | Writing, None =>
      match (match c with None => sf_start d off | Some c => sf_turn d off c end) (t_file s) with
      | Ok (r, f) => Some (pwrite_next t d off r (set_file f s))
      | Err _ => None
      end
  | Writing, Some _ => Some (lock_call t WuWrt s)
  | Idle, Some r => Some (return_ t r s)
  | _, _ => lock_next t s
  end.

(** The next step of a thread inside a call. *)
Definition tnext (t : Z) (s : tsys) : option tsys :=
  p ← w_sites (t_lock s) !! t;
  c ← t_calls s !! t;
  match c with
  | TNone _ => None
  | TRead n off r => thread_safe_pread t n off r p s
  | TWrite d off c r => thread_safe_pwrite t d off c r p s
  end.

(** A thread outside makes a call. *)
Definition start_pread (t n off : Z) (s : tsys) : tsys := lock_call t RdIn (set_call t (TRead n off None) s).
Definition start_pwrite (t : Z) (d : list Z) (off : Z) (s : tsys) : tsys := lock_call t WrIn (set_call t (TWrite d off None None) s).

(** A step of a thread, or the exit of a thread or process that wakes its
    creator. *)
Inductive tstep (par : Z → bool) (s : tsys) : tsys → Prop :=
| tstep_next t s' : tnext t s = Some s' → tstep par s s'
| tstep_pread t n off v : t_calls s !! t = Some (TNone v) → tstep par s (start_pread t n off s)
| tstep_pwrite t d off v : t_calls s !! t = Some (TNone v) → tstep par s (start_pwrite t d off s)
| tstep_exit t : par t = true → tstep par s (set_lock (wake_all t (t_lock s)) s).

(** The threads [ts] of a process that has made the guard, in the memory [r]. *)
Definition tstart (r : rwlock_t) (ts : list Z) (f : F) : tsys := mkTsys (rwstart r ts) f (calm (TNone None) ts) [].

Inductive treach (par : Z → bool) (r : rwlock_t) (ts : list Z) (f0 : F) : tsys → Prop :=
| treach_start : treach par r ts f0 (tstart r ts f0)
| treach_step s s' : treach par r ts f0 s → tstep par s s' → treach par r ts f0 s'.
End uthread.
#[global] Arguments tcall : clear implicits.
#[global] Arguments tsys : clear implicits.

(** ** The file of the kernel *)

(** [pread(fd, addr, n, off)] and [pwrite(fd, addr, n, off)] on the open file
    [f] of an inode, with a buffer the process owns: what [sys_pread] and
    [sys_pwrite] leave to [fileread] and [filewrite].  A descriptor that is
    not one of an inode is outside the class. *)
Section kernel.
Context {D : Type} `{!BlockOps D} `{!TxnOps D}.
Context (dev_read : Z → option (nat → Z → M (fstate D) (Z * list Z))).
Context (dev_write : Z → option (nat → list Z → Z → M (fstate D) Z)).
Context (f : nat).

Definition finished {S A} (r : pround A) : M S A := match r with PDone a => mret a | PSleep _ _ => fail Spin end.

Definition pread (n off : Z) : M (flstate D) (Z * list Z) :=
  if Z.ltb n 0 || Z.ltb off 0 then mret (-1, []) else r ← fileread dev_read false f n off; finished r.
Definition pwrite (d : list Z) (off : Z) : M (flstate D) Z :=
  if Z.ltb off 0 then mret (-1) else r ← filewrite dev_write false f d off 0; finished r.

Definition pwrite_start (d : list Z) (off : Z) : M (flstate D) (file * (Z * Z) + Z) :=
  if Z.ltb off 0 then mret (inr (-1))
  else
    x ← rf f id;
    if Z.eqb (fl_writable x) 0 then mret (inr (-1))
    else if decide (fl_type x = FD_INODE) then mret (inl (x, (0, off))) else fail Spin.
Definition pwrite_turn (d : list Z) (off : Z) : file * (Z * Z) → M (flstate D) (file * (Z * Z) + Z) := λ '(x, st),
  r ← filewrite_turn dev_write x f d off st;
  mret (match r with
        | inl st => inl (x, st)
        | inr i => inr (if Z.eqb i (Z.of_nat (length d)) then Z.of_nat (length d) else -1)
        end).
#[global] Instance kernel_file : SharedFile (flstate D) (file * (Z * Z)) :=
  { sf_pread := pread; sf_start := pwrite_start; sf_turn := pwrite_turn; sf_pwrite := pwrite }.
End kernel.

(** ** Making a guard *)

(** [xem_t] takes 272 bytes: [guard], [count], [head], [rear] and the ring of
    64 words.  [rwlock_t] is three of them and [ctr]; the guard puts [fd]
    before it. *)
Section guard.
Context (base heap0 : Z) (grow : Z → Z → bool).
Abbreviation HM := (M heap).
Abbreviation stw := (stw base heap0).

Definition XEM_SIZE : Z := 272.
Definition RWLOCK_SIZE : Z := 3 * XEM_SIZE + 4.
Definition GUARD_SIZE : Z := 4 + RWLOCK_SIZE.

Definition queue_init_at (q : Z) : HM unit :=
  stw q 0;;
  stw (q + 4) 0;;
  for_each (seqZ 0 64) (λ i, stw (q + 8 + 4 * i) (-1)).
Definition xem_init_at (x : Z) : HM Z :=
  if Z.eqb x 0 then mret (-1)
  else
    stw x 0;;
    stw (x + 4) 1;;
    queue_init_at (x + 8);;
    mret 0.
Definition rwlock_init_at (l : Z) : HM Z :=
  r ← xem_init_at l;
  if Z.ltb r 0 then mret (-1)
  else
    r ← xem_init_at (l + XEM_SIZE);
    if Z.ltb r 0 then mret (-1)
    else
      r ← xem_init_at (l + 2 * XEM_SIZE);
      if Z.ltb r 0 then mret (-1)
      else
        stw (l + 3 * XEM_SIZE) 0;;
        mret 0.

Definition thread_safe_guard_init (fuel : nat) (fd : Z) : HM Z :=
  guard ← malloc base heap0 grow fuel GUARD_SIZE;
  if Z.eqb guard 0 then mret 0
  else
    stw guard fd;;
    r ← rwlock_init_at (guard + 4);
    if Z.ltb r 0 then
      free base heap0 fuel guard;;
      mret 0
    else mret guard.

(** The comparison [file_guard > 0] is one of pointers. *)
Definition thread_safe_guard_destroy (fuel : nat) (file_guard : Z) : HM unit :=
  if Z.ltb 0 file_guard then free base heap0 fuel file_guard else mret tt.
End guard.

Close Scope Z_scope.
