(* ===== verification/UThreadTheorems.v ===== *)
(** * Guarded reads and writes are atomic ([src/xv6-public/uthread.c])

    The calls that go through a guard happen one at a time, in the order in
    which their system calls return, although [pwrite] is many transactions;
    for every [SharedLaws], which [File] satisfies. *)

From S2P Require Import Xem.
From S2P Require Import Rwlock.
From S2P Require Import RwTheorems.
From S2P Require Import Prelude.
From S2P Require Import Bio.
From S2P Require Import Log.
From S2P Require Import BlockStore.
From S2P Require Import Fs.
From S2P Require Import FsMap.
From S2P Require Import FsSample.
From S2P Require Import Pipe.
From S2P Require Import File.
From S2P Require Import FileTheorems.
From S2P Require Import Umalloc.
From S2P Require Import UmallocTheorems.
From S2P Require Import UThread.

Open Scope Z_scope.

Section serial.
Context {F C : Type} `{!SharedFile F C} {L : SharedLaws F C}.
Implicit Types (s : tsys F C) (c : tcall C).

(** The calls [h], whole and one after the other, lead from [f0] to [f]. *)
Inductive serial (f0 : F) : list event → F → Prop :=
| serial_none : serial f0 [] f0
| serial_read h f t n off r f' : serial f0 h f → sf_pread n off f = Ok (r, f') → serial f0 (h ++ [ERead t n off r]) f'
| serial_write h f t d off r f' : serial f0 h f → sf_pwrite d off f = Ok (r, f') → serial f0 (h ++ [EWrite t d off r]) f'.

Definition who (e : event) : Z := match e with ERead t _ _ _ | EWrite t _ _ _ => t end.
Definition returned (e : event) : Z := match e with ERead _ _ _ r => fst r | EWrite _ _ _ r => r end.
(** The last call of [t] that has returned. *)
Definition latest (t : Z) (h : list event) : option event := last (filter (λ e, who e = t) h).

(** Where a thread is in the lock, by the call it is in. *)
Definition agrees (p : rpc) (c : tcall C) : bool :=
  match c, p with
  | TNone _, Idle => true
  | TRead _ _ None, (RdIn | RdMx | RdInc | RdWrt | RdUnMx | RdUnIn | Reading) => true
  | TRead _ _ (Some _), (Reading | RrMx | RrDec | RrUnWrt | RrUnMx | Idle) => true
  | TWrite _ _ None None, (WrIn | WrWrt | Writing) => true
  | TWrite _ _ (Some _) None, Writing => true
  | TWrite _ _ None (Some _), (Writing | WuWrt | WuIn | Idle) => true
  | _, _ => false
  end.

(** A thread between two transactions of its [pwrite]. *)
Definition midway s (t : Z) (d : list Z) (off : Z) (x : C) : Prop := t_calls s !! t = Some (TWrite d off (Some x) None).

(** What a call that has its result is the last event of, and what a call
    has returned. *)
Definition recorded (t : Z) c (h : list event) : Prop :=
  match c with
  | TNone (Some v) => ∃ e, latest t h = Some e ∧ returned e = v
  | TRead n off (Some r) => latest t h = Some (ERead t n off r)
  | TWrite d off _ (Some r) => latest t h = Some (EWrite t d off r)
  | _ => True
  end.

(** The threads that use the guard. *)
Context (par : Z → bool) (r0 : rwlock_t) (ts : list Z).

Record tinv (f0 : F) s : Prop := {
  ti_lock : rwreach par r0 ts (t_lock s);
  ti_pc : ∀ t c, t_calls s !! t = Some c → ∃ p, w_sites (t_lock s) !! t = Some p ∧ agrees p c = true;
  ti_rec : ∀ t c, t_calls s !! t = Some c → recorded t c (t_hist s);
  ti_file : (serial f0 (t_hist s) (t_file s) ∧ ∀ t d off x, ¬ midway s t d off x) ∨
    (∃ t d off x f x0 f1, midway s t d off x ∧ serial f0 (t_hist s) f ∧ sf_start d off f = Ok (inl x0, f1) ∧ turns d off x0 f1 x (t_file s))
}.

Lemma latest_same t h e : who e = t → latest t (h ++ [e]) = Some e.
Proof using Type. intros He. unfold latest. rewrite filter_app, filter_cons_True, filter_nil by done. apply last_snoc. Qed.
Lemma latest_other t h e : who e ≠ t → latest t (h ++ [e]) = latest t h.
Proof using Type. intros He. unfold latest. by rewrite filter_app, filter_cons_False, filter_nil, app_nil_r by done. Qed.
Lemma recorded_other t c h e : who e ≠ t → recorded t c h → recorded t c (h ++ [e]).
Proof using Type. intros He. destruct c as [[v|]|n off [r|]|d off x [r|]]; simpl; rewrite ?latest_other by done; done. Qed.

(** The thread that has the write lock is the only one midway, and nobody is
    while a thread has the read lock. *)
Lemma midway_writes f0 s t d off x : tinv f0 s → midway s t d off x → w_sites (t_lock s) !! t = Some Writing.
Proof using Type. intros I Hm. destruct (ti_pc _ _ I _ _ Hm) as (p & Hp & Ha). by destruct p. Qed.

(** Fewer of them than a ring has slots, none with the id of a free slot, and
    none that an exit wakes. *)
Context (Hroom : rw_room r0) (Hcap : (length ts < XEMQSZ)%nat) (Hun : UNUSED_SLOT ∉ ts) (Hpar : ∀ t, t ∈ ts → par t = false).

Lemma reading_whole f0 s t : tinv f0 s → w_sites (t_lock s) !! t = Some Reading → serial f0 (t_hist s) (t_file s) ∧ ∀ t' d off x, ¬ midway s t' d off x.
Proof using Hroom Hcap Hun Hpar.
  intros I Hp. destruct (ti_file _ _ I) as [H|(t' & d & off & x & f & x0 & f1 & Hm & _)]; [done|].
  pose proof (midway_writes _ _ _ _ _ _ I Hm) as Hw.
  by destruct (proj2 (lock_excludes par r0 ts _ t' t Hroom Hcap Hun Hpar (ti_lock _ _ I) Hw) Hp).
Qed.
Lemma writing_only f0 s t t' d off x : tinv f0 s → w_sites (t_lock s) !! t = Some Writing → midway s t' d off x → t' = t.
Proof using Hroom Hcap Hun Hpar.
  intros I Hp Hm. pose proof (midway_writes _ _ _ _ _ _ I Hm) as Hw.
  by apply (proj1 (lock_excludes par r0 ts _ t' t Hroom Hcap Hun Hpar (ti_lock _ _ I) Hw)).
Qed.

(** *** Steps of the lock *)

Lemma leads_agrees p p' c : leads p p' → p' ≠ RFailed → agrees p c = true → agrees p' c = true.
Proof using Type.
  intros [[Hc ->]|[[Hc ->]|[->|[[-> [->| ->]]|[-> [->| ->]]]]]] Hok Ha; try done.
  all: destruct c as [|? ? [?|]|? ? [?|] [?|]]; try done; by destruct p.
Qed.

(** A step that leaves the file and the calls alone. *)
Lemma tinv_lock f0 s t k p' c : tinv f0 s → t_calls s !! t = Some c →
  rwreach par r0 ts k → w_sites k = <[t := p']> (w_sites (t_lock s)) → agrees p' c = true → tinv f0 (set_lock k s).
Proof using Type.
  intros I Hc Hk Ek Ha. destruct I as [I1 I2 I3 I4]. split; cbn [t_lock t_calls t_hist t_file set_lock]; [done| |done|done].
  intros t' c' H'. rewrite Ek. destruct (decide (t' = t)) as [->|Hne]; [rewrite lookup_insert_eq; exists p'; by simplify_eq|].
  rewrite lookup_insert_ne by done. by apply I2.
Qed.

Lemma tinv_next f0 s t p c s' : tinv f0 s → t_calls s !! t = Some c → w_sites (t_lock s) !! t = Some p → agrees p c = true →
  lock_next t s = Some s' → tinv f0 s'.
Proof using Hroom Hcap Hun Hpar.
  intros I Hc Hp Ha Hs. unfold lock_next in Hs. destruct (rw_next t (t_lock s)) as [k|] eqn:E; simplify_eq/=.
  assert (rwreach par r0 ts k) as Hk by (eapply rwreach_step; [apply I|by econstructor]).
  destruct (rw_next_sites _ _ _ _ E Hp) as (p' & Ek & Hl). eapply tinv_lock; [done|done|done|done|]. eapply leads_agrees; [done| |done].
  intros ->. apply (lock_ok par r0 ts k t Hroom Hcap Hun Hpar Hk). rewrite Ek. apply lookup_insert_eq.
Qed.

Lemma tinv_call f0 s t p p' c : tinv f0 s → t_calls s !! t = Some c → w_sites (t_lock s) !! t = Some p →
  may_call p p' = true → agrees p' c = true → tinv f0 (lock_call t p' s).
Proof using Type. intros I Hc Hp Hm Ha. eapply tinv_lock; [done|done|eapply rwreach_step; [apply I|by econstructor]|apply enter_sites|done]. Qed.

(** *** Calls, the system calls and returns *)

Definition mid c : bool := match c with TWrite _ _ (Some _) None => true | _ => false end.

Lemma midway_insert s t c t' d off x k f h : mid c = false → midway (mkTsys k f (<[t := c]> (t_calls s)) h) t' d off x → midway s t' d off x ∧ t' ≠ t.
Proof using Type.
  unfold midway. cbn [t_calls]. intros Hc Hm. destruct (decide (t' = t)) as [->|Hne]; [rewrite lookup_insert_eq in Hm; by simplify_eq|].
  by rewrite lookup_insert_ne in Hm.
Qed.

(** The lock and the call of one thread change, the file does not. *)
Lemma tinv_move f0 s t k p' c c' : tinv f0 s → t_calls s !! t = Some c → mid c = false → mid c' = false → recorded t c' (t_hist s) →
  rwreach par r0 ts k → (∀ t', t' ≠ t → w_sites k !! t' = w_sites (t_lock s) !! t') → w_sites k !! t = Some p' → agrees p' c' = true →
  tinv f0 (mkTsys k (t_file s) (<[t := c']> (t_calls s)) (t_hist s)).
Proof using Type.
  intros I Hc Hm Hm' Hr Hk Ho Hp Ha. destruct I as [I1 I2 I3 I4]. split; cbn [t_lock t_calls t_hist t_file]; [done| | |].
  - intros t' c1 H1. destruct (decide (t' = t)) as [->|Hne]; [rewrite lookup_insert_eq in H1; exists p'; by simplify_eq|].
    rewrite lookup_insert_ne in H1 by done. rewrite Ho by done. by apply I2.
  - intros t' c1 H1. destruct (decide (t' = t)) as [->|Hne]; [rewrite lookup_insert_eq in H1; by simplify_eq|].
    rewrite lookup_insert_ne in H1 by done. by apply I3.
  - destruct I4 as [[I4 I5]|(t1 & d & off & x & f & x0 & f1 & H1 & H2)].
    + left. split; [done|]. intros t' d off x [H ?]%midway_insert; [|done]. by apply I5 in H.
    + right. exists t1, d, off, x, f, x0, f1. split; [|done]. unfold midway in *. cbn [t_calls]. rewrite lookup_insert_ne; [done|]. intros ->. by simplify_eq.
Qed.

(** A system call returns, and with it a whole call is done. *)
Lemma tinv_event f0 s t c' f e p : tinv f0 s → w_sites (t_lock s) !! t = Some p → agrees p c' = true → mid c' = false → who e = t →
  recorded t c' (t_hist s ++ [e]) → serial f0 (t_hist s ++ [e]) f → (∀ t' d off x, midway s t' d off x → t' = t) →
  tinv f0 (mkTsys (t_lock s) f (<[t := c']> (t_calls s)) (t_hist s ++ [e])).
Proof using Type.
  intros I Hp Ha Hm He Hr Hs Hw. destruct I as [I1 I2 I3 I4]. split; cbn [t_lock t_calls t_hist t_file]; [done| | |].
  - intros t' c1 H1. destruct (decide (t' = t)) as [->|Hne]; [rewrite lookup_insert_eq in H1; exists p; by simplify_eq|].
    rewrite lookup_insert_ne in H1 by done. by apply I2.
  - intros t' c1 H1. destruct (decide (t' = t)) as [->|Hne]; [rewrite lookup_insert_eq in H1; by simplify_eq|].
    rewrite lookup_insert_ne in H1 by done. apply recorded_other; [congruence|by apply I3].
  - left. split; [done|]. intros t' d off x [H Hne]%midway_insert; [|done]. by apply Hw in H.
Qed.

(** A transaction of [pwrite] is done and others follow. *)
Lemma tinv_turn f0 s t d off x f f' x0 f1 : tinv f0 s → w_sites (t_lock s) !! t = Some Writing →
  serial f0 (t_hist s) f → sf_start d off f = Ok (inl x0, f1) → turns d off x0 f1 x f' →
  tinv f0 (mkTsys (t_lock s) f' (<[t := TWrite d off (Some x) None]> (t_calls s)) (t_hist s)).
Proof using Type.
  intros I Hp H1 H2 H3. destruct I as [I1 I2 I3 I4]. split; cbn [t_lock t_calls t_hist t_file]; [done| | |].
  - intros t' c1 Hc. destruct (decide (t' = t)) as [->|Hne]; [rewrite lookup_insert_eq in Hc; exists Writing; by simplify_eq|].
    rewrite lookup_insert_ne in Hc by done. by apply I2.
  - intros t' c1 Hc. destruct (decide (t' = t)) as [->|Hne]; [rewrite lookup_insert_eq in Hc; by simplify_eq|].
    rewrite lookup_insert_ne in Hc by done. by apply I3.
  - right. exists t, d, off, x, f, x0, f1. split; [|done]. unfold midway. apply lookup_insert_eq.
Qed.

Lemma tinv_pread f0 s t n off r p s' : tinv f0 s → t_calls s !! t = Some (TRead n off r) → w_sites (t_lock s) !! t = Some p →
  thread_safe_pread t n off r p s = Some s' → tinv f0 s'.
Proof using L Hroom Hcap Hun Hpar.
  intros I Hc Hp Hs. destruct (ti_pc _ _ I _ _ Hc) as (p1 & Hp1 & Ha). rewrite Hp in Hp1. injection Hp1 as <-.
  assert (lock_next t s = Some s' → tinv f0 s') as Hacc by by apply tinv_next with (p := p) (c := TRead n off r).
  destruct p, r as [r|]; try (by apply Hacc); try done; simpl in Hs; simplify_eq/=.
  - apply (tinv_move f0 s t (t_lock s) Idle _ (TNone (Some r.1)) I Hc); try done; [|apply I]. eexists. split; [apply (ti_rec _ _ I _ _ Hc)|done].
  - by apply (tinv_call f0 s t Reading RrMx _ I Hc Hp).
  - destruct (sf_pread n off (t_file s)) as [[r f]|] eqn:E; simplify_eq/=. destruct (reading_whole _ _ _ I Hp) as [Hser Hno].
    apply (tinv_event f0 s t (TRead n off (Some r)) f (ERead t n off r) Reading I Hp); try done; [by apply latest_same|by eapply serial_read|].
    intros t' d' off' x Hm. by apply Hno in Hm.
Qed.

Lemma tinv_pwrite f0 s t d off x r p s' : tinv f0 s → t_calls s !! t = Some (TWrite d off x r) → w_sites (t_lock s) !! t = Some p →
  thread_safe_pwrite t d off x r p s = Some s' → tinv f0 s'.
Proof using L Hroom Hcap Hun Hpar.
  intros I Hc Hp Hs. destruct (ti_pc _ _ I _ _ Hc) as (p1 & Hp1 & Ha). rewrite Hp in Hp1. injection Hp1 as <-.
  assert (lock_next t s = Some s' → tinv f0 s') as Hacc by by apply tinv_next with (p := p) (c := TWrite d off x r).
  destruct p, r as [r|]; try (by apply Hacc); try (by destruct x); simpl in Hs; simplify_eq/=.
  - apply (tinv_move f0 s t (t_lock s) Idle _ (TNone (Some r)) I Hc); try (by destruct x); [|apply I]. eexists. split; [apply (ti_rec _ _ I _ _ Hc)|done].
  - apply (tinv_call f0 s t Writing WuWrt _ I Hc Hp); [done|by destruct x].
  - assert (∀ t' d' off' x', midway s t' d' off' x' → t' = t) as Hw by (intros; by eapply writing_only).
    destruct (match x with None => sf_start d off | Some x => sf_turn d off x end (t_file s)) as [[r f]|] eqn:E; simplify_eq/=.
    assert (∀ r, serial f0 (t_hist s ++ [EWrite t d off r]) f → tinv f0 (pwrite_next t d off (inr r) (set_file f s))) as Hev.
    { intros r1 Hser. apply (tinv_event f0 s t (TWrite d off None (Some r1)) f (EWrite t d off r1) Writing I Hp); try done. by apply latest_same. }
    destruct x as [x|].
    + destruct (ti_file _ _ I) as [[_ Hno]|(t1 & d1 & off1 & x1 & f2 & x0 & f1 & Hm & H1 & H2 & H3)]; [by apply Hno in Hc|].
      pose proof (Hw _ _ _ _ Hm) as ->. unfold midway in Hm. simplify_eq. destruct r as [y|r].
      * apply (tinv_turn f0 s t d off y f2 f x0 f1 I Hp H1 H2). by eapply turns_more.
      * apply Hev. eapply serial_write; [done|]. by eapply pwrite_turns.
    + destruct (ti_file _ _ I) as [[Hser _]|(t1 & d1 & off1 & x1 & f2 & x0 & f1 & Hm & _)]; cycle 1.
      { pose proof (Hw _ _ _ _ Hm) as ->. unfold midway in Hm. by simplify_eq. }
      destruct r as [y|r].
      * apply (tinv_turn f0 s t d off y (t_file s) f y f I Hp Hser E). constructor.
      * apply Hev. eapply serial_write; [done|]. by apply pwrite_early.
Qed.

Lemma tinv_start f0 s t v c' p' : tinv f0 s → t_calls s !! t = Some (TNone v) → may_call Idle p' = true → agrees p' c' = true → mid c' = false →
  (∀ h, recorded t c' h) → tinv f0 (lock_call t p' (set_call t c' s)).
Proof using Type.
  intros I Hc Hin Ha Hm Hr. destruct (ti_pc _ _ I _ _ Hc) as (p & Hp & Hi). assert (p = Idle) as -> by by destruct p.
  apply (tinv_move f0 s t (enter t p' (t_lock s)) p' (TNone v) c' I Hc); try done.
  - eapply rwreach_step; [apply I|by econstructor].
  - intros t' Hne. rewrite enter_sites. by apply lookup_insert_ne.
  - rewrite enter_sites. apply lookup_insert_eq.
Qed.

Lemma treach_inv f0 s : treach par r0 ts f0 s → tinv f0 s.
Proof using L Hroom Hcap Hun Hpar.
  induction 1 as [|s s' _ I Hs].
  - split; cbn [tstart t_lock t_calls t_hist t_file].
    + constructor.
    + intros t c [-> Hin]%calm_at. exists Idle. split; [|done]. by apply calm_in.
    + intros t c [-> _]%calm_at. done.
    + left. split; [constructor|]. intros t d off x [[=] _]%calm_at.
  - destruct Hs as [t s' Hs|t n off v Hc|t d off v Hc|t Ht].
    + unfold tnext in Hs. destruct (w_sites (t_lock s) !! t) as [p|] eqn:Hp; [|done]. simpl in Hs. destruct (t_calls s !! t) as [c|] eqn:Hc; [|done]. simpl in Hs.
      destruct c as [|n off r|d off x r]; [done|by eapply tinv_pread|by eapply tinv_pwrite].
    + by apply (tinv_start f0 s t v).
    + by apply (tinv_start f0 s t v).
    + destruct I as [I1 I2 I3 I4]. split; try done. eapply rwreach_step; [exact I1|by constructor].
Qed.

(** C3: Reads and writes through a guard are atomic.  For fewer than [XEMQSZ]
    threads, none of which has created threads or processes whose exit would
    wake it while it waits for a semaphore, and any interleaving of the
    accesses of the lock and its semaphores, the transactions of [pwrite] and
    the calls of [pread], the calls whose system call has returned happened
    whole and one after the other in that order: [serial] runs them that way
    from the file at the start with the same results, and leads to the file
    itself as soon as no thread is between two transactions of its [pwrite].
    While a thread has the read lock none is.  A call that has its result has
    the result of its own entry in that order, and returns it: never the -1 of
    a lock routine that failed. *)
Theorem guarded_calls_are_atomic f0 s : treach par r0 ts f0 s →
  (∃ f, serial f0 (t_hist s) f ∧ ((∀ t d off x, ¬ midway s t d off x) → f = t_file s)) ∧
  (∀ t, w_sites (t_lock s) !! t = Some Reading → serial f0 (t_hist s) (t_file s)) ∧
  (∀ t c, t_calls s !! t = Some c → recorded t c (t_hist s)).
Proof using L Hroom Hcap Hun Hpar.
  intros I%treach_inv. split_and!; [|intros t Hp; by eapply reading_whole|apply I].
  destruct (ti_file _ _ I) as [[H _]|(t & d & off & x & f & x0 & f1 & Hm & H & _)]; [by exists (t_file s)|].
  exists f. split; [done|]. intros Hno. by apply Hno in Hm.
Qed.
End serial.

(** ** The kernel's file *)

Section kernel.
Context {D : Type} `{!BlockOps D} `{!TxnOps D}.
Context (dev_read : Z → option (nat → Z → M (fstate D) (Z * list Z))).
Context (dev_write : Z → option (nat → list Z → Z → M (fstate D) Z)).
Context (f : nat).
#[local] Existing Instance kernel_file.
Abbreviation FL := (M (flstate D)).

Lemma bind_Ok {S A B} (m : M S A) (k : A → M S B) s b s' : (m ≫= k) s = Ok (b, s') → ∃ a s1, m s = Ok (a, s1) ∧ k a s1 = Ok (b, s').
Proof using Type. unfold mbind, M_bind. destruct (m s) as [[a s1]|]; [by eauto|done]. Qed.

(** A turn that goes on has written at least a byte. *)
Lemma filewrite_turn_inl x d off i o i' o' s s' : filewrite_turn dev_write x f d off (i, o) s = Ok (inl (i', o'), s') → i < i' ≤ Z.of_nat (length d).
Proof using Type.
  unfold filewrite_turn. set (n := Z.of_nat (length d)). destruct (Z.ltb_spec i n) as [Hlt|]; [|done].
  intros (? & ? & _ & H)%bind_Ok. apply bind_Ok in H as (? & ? & _ & H). apply bind_Ok in H as (ip & ? & _ & H). apply bind_Ok in H as (ro & ? & _ & H).
  apply bind_Ok in H as (? & ? & _ & H). apply bind_Ok in H as (? & s1 & _ & H). destruct (Z.ltb_spec (fst ro) 0); [done|].
  destruct (Z.eqb_spec (fst ro) (if Z.ltb FILEMAX (n - i) then FILEMAX else n - i)) as [E|]; [|done]. injection H as <- _ _. rewrite E.
  change FILEMAX with 1536. destruct (Z.ltb_spec 1536 (n - i)); lia.
Qed.

(** The loop of [filewrite] after some of its turns. *)
Lemma turns_loop d off x o c (s s1 : flstate D) : turns (H := kernel_file dev_read dev_write f) d off (x, (0, o)) s c s1 →
  ∃ i o1 k, c = (x, (i, o1)) ∧ 0 ≤ i ≤ Z.of_nat (length d) ∧ (Z.of_nat k ≤ i) ∧
    ∀ m, loop (k + m) (filewrite_turn dev_write x f d off) (0, o) s = loop m (filewrite_turn dev_write x f d off) (i, o1) s1.
Proof using Type.
  induction 1 as [|c s1 c' s2 _ (i & o1 & k & -> & Hi & Hk & Hl) Ht]; [exists 0, o, 0%nat; split_and!; [done|lia|lia|lia|done]|].
  simpl in Ht. unfold pwrite_turn in Ht. apply bind_Ok in Ht as (r & s3 & Ht & [= Hr <-]). destruct r as [[i' o']|]; [|done]. injection Hr as <-.
  pose proof (filewrite_turn_inl _ _ _ _ _ _ _ _ _ Ht). exists i', o', (S k). split_and!; [done|lia|lia|lia|].
  intros m. rewrite <-(loop_inl m (filewrite_turn dev_write x f d off) (i, o1) s1 _ _ Ht), <-Hl. f_equal. lia.
Qed.

#[global] Instance kernel_laws : SharedLaws (flstate D) (file * (Z * Z)) (SharedFile0 := kernel_file dev_read dev_write f).
Proof using Type.
  split; simpl; unfold pwrite_start, pwrite, rf, filewrite.
  - intros d off r s s'. destruct (Z.ltb off 0); [by intros [= <- <-]|]. intros H. apply bind_Ok in H as (x & s1 & [= <- <-] & H).
    simpl in H. destruct (Z.eqb (fl_writable (fl s f)) 0) eqn:Ew; [|by case_decide]. injection H as <- <-. unfold mbind, M_bind, gets. simpl. by rewrite Ew.
  - intros d off c0 c r s0 s1 s s'. destruct (Z.ltb off 0); [done|]. intros H Ht Hr. apply bind_Ok in H as (x & s2 & [= <- <-] & H). simpl in H.
    destruct (Z.eqb (fl_writable (fl s0 f)) 0) eqn:Ew; [done|]. case_decide as Ety; [|done]. injection H as <- <-.
    destruct (turns_loop _ _ _ _ _ _ _ Ht) as (i & o & k & -> & Hi & Hk & Hl). unfold pwrite_turn in Hr. apply bind_Ok in Hr as (r1 & s3 & Hr & [= Er <-]).
    destruct r1 as [|j]; [done|]. injection Er as <-.
    assert (loop (S (length d)) (filewrite_turn dev_write (fl s0 f) f d off) (0, off) s0 = Ok (j, s3)) as El.
    { replace (S (length d)) with (k + S (length d - k))%nat by lia. rewrite Hl. by apply loop_inr. }
    unfold mbind, M_bind, gets. simpl. rewrite Ew, Ety. unfold mbind, M_bind. by rewrite El.
Qed.
End kernel.

(** ** A writer and a reader *)

Section schedule.
Context {F C : Type} `{!SharedFile F C}.

(** Runs by name: the next step of a thread, or a call it makes. *)
Inductive act := Next (t : Z) | CallRead (t n off : Z) | CallWrite (t : Z) (d : list Z) (off : Z).
Definition outside (t : Z) (s : tsys F C) : bool := match t_calls s !! t with Some (TNone _) => true | _ => false end.
Definition do_act (a : act) (s : tsys F C) : option (tsys F C) :=
  match a with
  | Next t => tnext t s
  | CallRead t n off => if outside t s then Some (start_pread t n off s) else None
  | CallWrite t d off => if outside t s then Some (start_pwrite t d off s) else None
  end.
Definition trun (l : list act) (s : tsys F C) : option (tsys F C) := foldl (λ o a, o ≫= do_act a) (Some s) l.

Lemma do_act_step par a s s' : do_act a s = Some s' → tstep par s s'.
Proof using Type.
  destruct a as [t|t n off|t d off]; simpl; [by econstructor|unfold outside..];
    (destruct (t_calls s !! t) as [[]|] eqn:E; [|done..]); intros [= <-]; by econstructor.
Qed.
Lemma trun_reach par r ts f0 l s : trun l (tstart r ts f0) = Some s → treach par r ts f0 s.
Proof using Type.
  revert s. induction l as [|a l IH] using rev_ind; intros s; unfold trun; [intros [= <-]; constructor|]. rewrite foldl_app. simpl.
  fold (trun l (tstart r ts f0)). destruct (trun l (tstart r ts f0)) as [s1|]; [|done]. simpl. intros Ht%(do_act_step par). eapply treach_step; [by apply IH|done].
Qed.
End schedule.

(** The empty file of the sample, open as 3 on a disk that has started. *)
Definition shared_disk : lstate := match reboot 2 30 sample_boot with Ok (_, s) => s | Err _ => sample_boot end.
Definition shared_file : flstate lstate := open_file shared_disk.
#[local] Instance shared : SharedFile (flstate lstate) (file * (Z * Z)) := kernel_file (λ _, None) (λ _, None) 3.

(** Thread 1 writes 2000 bytes, which takes two transactions; thread 2 calls
    [thread_safe_pread] after the first of them and goes to sleep. *)
Definition first_half : list act :=
  CallWrite 1 (replicate 2000 7) 0 :: replicate 10 (Next 1) ++ CallRead 2 4 1998 :: replicate 5 (Next 2).
Definition midway_at (s : tsys (flstate lstate) (file * (Z * Z))) (t : Z) : option Z :=
  match t_calls s !! t with Some (TWrite _ _ (Some (_, (i, _))) _) => Some i | _ => None end.
Definition second_half : list act := replicate 16 (Next 1) ++ replicate 21 (Next 2).

(** Without the guard the reader sees half of the write. *)
Lemma unguarded_read_is_torn :
  match (c ← pwrite_start 3 (replicate 2000 7) 0;
         (match c with inl c => pwrite_turn (λ _, None) 3 (replicate 2000 7) 0 c;; mret tt | inr _ => mret tt end);;
         pread (λ _, None) 3 2000 0) shared_file with
  | Ok (r, _) => fst r = 1536
  | Err _ => False
  end.
Proof. vm_compute. reflexivity. Qed.

(** With it the reader waits for the whole write. *)
Lemma reader_waits : match trun first_half (tstart rw0 [1; 2] shared_file) with
  | Some s => tnext 2 s = None ∧ midway_at s 1 = Some 1536
  | None => False
  end.
Proof. vm_compute. done. Qed.

Lemma guarded_calls_are_atomic_witness : ∃ s, treach (λ _, false) rw0 [1; 2] shared_file s ∧ t_calls s !! 2 = Some (TRead 4 1998 (Some (2, [7; 7]))) ∧
  serial shared_file (t_hist s) (t_file s) ∧ length (t_hist s) = 2%nat.
Proof.
  assert (match trun (first_half ++ second_half) (tstart rw0 [1; 2] shared_file) with
    | Some s => (t_calls s !! 2 = Some (TRead 4 1998 (Some (2, [7; 7])))) ∧ w_sites (t_lock s) !! 2 = Some Reading ∧ length (t_hist s) = 2%nat
    | None => False end) as H by (vm_compute; done).
  revert H. generalize (trun_reach (λ _, false) rw0 [1; 2] shared_file (first_half ++ second_half)). generalize (trun (first_half ++ second_half) (tstart rw0 [1; 2] shared_file)).
  intros [s|] E H; [|destruct H]. destruct H as (H1 & H2 & H3). specialize (E s eq_refl). exists s. split_and!; [exact E|exact H1| |exact H3].
  destruct (guarded_calls_are_atomic (λ _, false) rw0 [1; 2]) with (f0 := shared_file) (s := s) as (_ & H & _);
    [done|unfold XEMQSZ; simpl; lia|unfold UNUSED_SLOT; set_solver|done|exact E|]. exact (H 2 H2).
Defined.

(** ** Making and dropping a guard *)

(** [w'] is [w] with the words [l] from [a] on. *)
Definition stored (w w' : gmap Z Z) (a : Z) (l : list Z) : Prop :=
  ∀ y, wd w' y = if decide (a ≤ y < a + 4 * Z.of_nat (length l) ∧ (y - a) mod 4 = 0) then nth (Z.to_nat ((y - a) / 4)) l 0 else wd w y.

Lemma stored_one w a v : stored w (<[a := v]> w) a [v].
Proof.
  intros y. rewrite wd_insert. destruct (decide (y = a)) as [->|Hne].
  - rewrite decide_True by (simpl length; rewrite Z.sub_diag; split; [lia|done]). by rewrite Z.sub_diag.
  - rewrite decide_False; [done|]. simpl length. intros [? ?]. dlia.
Qed.
Lemma stored_app w w1 w2 a l1 l2 : stored w w1 a l1 → stored w1 w2 (a + 4 * Z.of_nat (length l1)) l2 → stored w w2 a (l1 ++ l2).
Proof.
  intros H1 H2 y. rewrite H2, H1, length_app. set (n1 := length l1) in *. set (n2 := length l2) in *.
  destruct (decide (a ≤ y < a + 4 * Z.of_nat (n1 + n2) ∧ (y - a) mod 4 = 0)) as [[Hy Hm]|Hn].
  - destruct (decide (y < a + 4 * Z.of_nat n1)) as [Hl|Hl].
    + rewrite decide_False by lia. rewrite decide_True by lia. rewrite app_nth1; [done|]. fold n1. dlia.
    + rewrite decide_True by (split; [lia|dlia]). rewrite app_nth2 by (fold n1; dlia). fold n1. f_equal. dlia.
  - rewrite decide_False by (intros [? ?]; apply Hn; split; [lia|dlia]). rewrite decide_False by (intros [? ?]; apply Hn; split; [lia|dlia]). done.
Qed.

Section guard.
Context (base heap0 : Z) (Hbase : 0 < base) (Hheap : base + 8 ≤ heap0).
Context (grow : Z → Z → bool) (Hgrow : ∀ b n, grow b n = true → b + n < 2147483648).
Abbreviation heap_ok := (heap_ok base heap0).

(** [m] stores the words [l] from [a] on and returns [r]. *)
Definition writes {X} (m : M heap X) (r : X) (a : Z) (l : list Z) : Prop :=
  ∀ h, (∀ i, (i < length l)%nat → access base heap0 h (a + 4 * Z.of_nat i) = true) →
    ∃ w, m h = Ok (r, set_words w h) ∧ stored (h_words h) w a l.

Lemma writes_stw a v : writes (stw base heap0 a v) tt a [v].
Proof using Type.
  intros h Ha. specialize (Ha 0%nat ltac:(simpl; lia)). rewrite Z.add_0_r in Ha. exists (<[a := v]> (h_words h)). split; [|apply stored_one].
  unfold stw, mbind, M_bind, gets, id. by rewrite Ha.
Qed.
Lemma writes_ret {X} (r : X) a : writes (mret r) r a [].
Proof using Type. intros h _. exists (h_words h). split; [by destruct h|]. intros y. by rewrite decide_False by (simpl; lia). Qed.
Lemma writes_bind {X Y} (m : M heap X) (k : X → M heap Y) x r a l1 l2 : writes m x a l1 → writes (k x) r (a + 4 * Z.of_nat (length l1)) l2 →
  writes (m ≫= k) r a (l1 ++ l2).
Proof using Type.
  intros H1 H2 h Ha. rewrite length_app in Ha. destruct (H1 h) as (w1 & E1 & S1); [intros i Hi; apply Ha; lia|].
  destruct (H2 (set_words w1 h)) as (w2 & E2 & S2).
  { intros i Hi. change (access base heap0 h (a + 4 * Z.of_nat (length l1) + 4 * Z.of_nat i) = true).
    replace (a + 4 * Z.of_nat (length l1) + 4 * Z.of_nat i) with (a + 4 * Z.of_nat (length l1 + i)) by lia. apply Ha. lia. }
  exists w2. rewrite (bind_ok _ _ _ _ _ E1), E2. split; [done|by eapply stored_app].
Qed.
Lemma writes_fill a n j : writes (for_each (seqZ j (Z.of_nat n)) (λ i, stw base heap0 (a + 4 * i) (-1))) tt (a + 4 * j) (replicate n (-1)).
Proof using Type.
  revert j. induction n as [|n IH]; intros j; [apply writes_ret|]. rewrite seqZ_cons by lia. replace (Z.pred (Z.of_nat (S n))) with (Z.of_nat n) by lia.
  apply (writes_bind _ _ tt _ _ [_]); [apply writes_stw|]. replace (a + 4 * j + 4 * Z.of_nat (length [-1])) with (a + 4 * Z.succ j) by (simpl; lia). apply IH.
Qed.

(** The words of an unlocked semaphore without waiters. *)
Definition xem_words : list Z := [0; 1; 0; 0] ++ replicate 64 (-1).
Definition guard_words (fd : Z) : list Z := [fd] ++ xem_words ++ xem_words ++ xem_words ++ [0].

Lemma xem_init_writes x : x ≠ 0 → writes (xem_init_at base heap0 x) 0 x xem_words.
Proof using Type.
  intros Hx. unfold xem_init_at, queue_init_at, xem_words. rewrite (proj2 (Z.eqb_neq _ _)) by done.
  apply (writes_bind _ _ tt 0 x [0] ([1; 0; 0] ++ replicate 64 (-1))); [apply writes_stw|]. simpl length. change (4 * Z.of_nat 1) with 4.
  apply (writes_bind _ _ tt 0 (x + 4) [1] ([0; 0] ++ replicate 64 (-1))); [apply writes_stw|]. simpl length. change (4 * Z.of_nat 1) with 4. replace (x + 4 + 4) with (x + 8) by lia.
  rewrite <-(app_nil_r (_ ++ _)). apply (writes_bind _ _ tt); [|apply writes_ret].
  apply (writes_bind _ _ tt tt (x + 8) [0] ([0] ++ replicate 64 (-1))); [apply writes_stw|]. simpl length. change (4 * Z.of_nat 1) with 4.
  apply (writes_bind _ _ tt tt (x + 8 + 4) [0] (replicate 64 (-1))); [apply writes_stw|]. simpl length. change (4 * Z.of_nat 1) with 4.
  replace (x + 8 + 4 + 4) with (x + 8 + 8 + 4 * 0) by lia. apply (writes_fill (x + 8 + 8) 64 0).
Qed.

Lemma rwlock_init_writes l : 0 < l → writes (rwlock_init_at base heap0 l) 0 l (xem_words ++ xem_words ++ xem_words ++ [0]).
Proof using Type.
  intros Hl. unfold rwlock_init_at, XEM_SIZE.
  apply (writes_bind _ _ 0); [apply xem_init_writes; lia|]. cbv beta. change (Z.ltb 0 0) with false. cbv beta iota. change (4 * Z.of_nat (length xem_words)) with 272.
  apply (writes_bind _ _ 0); [apply xem_init_writes; lia|]. cbv beta. change (Z.ltb 0 0) with false. cbv beta iota. change (4 * Z.of_nat (length xem_words)) with 272.
  replace (l + 272 + 272) with (l + 2 * 272) by lia.
  apply (writes_bind _ _ 0); [apply xem_init_writes; lia|]. cbv beta. change (Z.ltb 0 0) with false. cbv beta iota. change (4 * Z.of_nat (length xem_words)) with 272.
  replace (l + 2 * 272 + 272) with (l + 3 * 272) by lia. apply (writes_bind _ _ tt 0 _ [0] []); [apply writes_stw|apply writes_ret].
Qed.

(** Storing inside a live block keeps the heap. *)
Lemma heap_payload h F A b w : heap_ok h F (b :: A) → (∀ x, ¬ b.1 + 8 ≤ x < b.1 + 8 * b.2 → wd w x = wd (h_words h) x) →
  heap_ok (set_words w h) F (b :: A) ∧ ∀ x, cov x A ≠ 0 → wd w x = wd (h_words h) x.
Proof using Hbase Hheap Hgrow.
  intros H Hw. pose proof H as [H1 H2 H3 H4 H5 H6 H7 H8 H9].
  assert (∀ x, cov x A ≠ 0 → wd w x = wd (h_words h) x) as Hlive.
  { intros x Hx. apply Hw. intros Hin. pose proof (H4 x) as T. simpl in T. unfold covers in T. rewrite decide_True in T by lia. pose proof (cov_pos x A). pose proof (cov_pos x F). case_decide; lia. }
  split; [|done]. split; cbn [h_words h_brk h_freep set_words]; try done.
  - eapply (chained_ext base heap0 Hbase Hheap); [|exact H1]. intros c Hc. assert (b ∈ b :: A) as Hb by set_solver. pose proof (node_live _ _ Hbase Hheap _ _ _ _ _ H Hc Hb) as Hs. unfold sep in Hs.
    apply elem_of_cons in Hc as [->|Hc].
    + destruct (in_heap _ _ Hbase Hheap _ _ _ b H) as (? & _); [set_solver|]. simpl. split; apply Hw; lia.
    + destruct (free_live _ _ Hbase Hheap _ _ _ _ _ H Hc Hb); pose proof (H5 c ltac:(set_solver)); split; apply Hw; lia.
  - intros c [->|Hc]%elem_of_cons; [rewrite Hw by lia; apply H7; set_solver|]. rewrite Hlive; [apply H7; set_solver|].
    eapply (live_covered base heap0 Hbase Hheap grow Hgrow); [done|]. apply H5. set_solver.
Qed.

(** A guard is made unlocked, for its descriptor, in memory of its own, and
    dropping it gives the memory back; the other blocks keep their words. *)
Theorem guard_lifecycle h F A fd fuel : ready base heap0 h F A → (2 * length F + 4 < fuel)%nat →
  wp (thread_safe_guard_init base heap0 grow fuel fd) (λ g h',
    (∀ x, cov x A ≠ 0 → wd (h_words h') x = wd (h_words h) x) ∧
    ((g = 0 ∧ grow (h_brk h) 32768 = false ∧ heap_ok h' F A) ∨
     (∃ F', heap_ok h' F' ((g - 8, 104) :: A) ∧ (∀ i v, guard_words fd !! i = Some v → wd (h_words h') (g + 4 * Z.of_nat i) = v) ∧
        wp (thread_safe_guard_destroy base heap0 fuel g) (λ _ h2, (∃ F2, heap_ok h2 F2 A) ∧ ∀ x, cov x A ≠ 0 → wd (h_words h2) x = wd (h_words h) x) h'))) h.
Proof using Hbase Hheap Hgrow.
  intros Hr Hfu. unfold thread_safe_guard_init. assert (nunits GUARD_SIZE = 104) as En by reflexivity.
  apply wp_bind. assert (0 ≤ GUARD_SIZE < 2147483632) as Hsz by (split; done). wcall (malloc_spec base heap0 Hbase Hheap grow Hgrow h F A GUARD_SIZE fuel Hr Hsz Hfu). rewrite En.
  intros g h1 [Hw [(-> & Hg & _ & H1)|(F' & H1 & Hl & Hx)]]; [apply wp_ret; split; [done|]; by left|].
  destruct (in_heap _ _ Hbase Hheap _ _ _ (g - 8, 104) H1) as (B1 & B2 & _); [set_solver|]. cbn [fst snd] in B1, B2.
  pose proof (hk_align _ _ _ _ _ H1 (g - 8, 104) ltac:(set_solver)) as Hal. cbn [fst] in Hal.
  rewrite (proj2 (Z.eqb_neq _ _)) by lia. set (Q := λ (r : Z) (h' : heap), _).
  assert (writes (stw base heap0 g fd;; r ← rwlock_init_at base heap0 (g + 4); if Z.ltb r 0 then free base heap0 fuel g;; mret 0 else mret g) g g (guard_words fd)) as HW.
  { apply (writes_bind _ _ tt); [apply writes_stw|]. rewrite <-(app_nil_r (xem_words ++ _)). apply (writes_bind _ _ 0); [apply rwlock_init_writes; lia|apply writes_ret]. }
  destruct (HW h1) as (w & E & Hst).
  { intros i Hi. change (length (guard_words fd)) with 206%nat in Hi. unfold access. rewrite (proj2 (Z.leb_le heap0 _)) by lia. rewrite (proj2 (Z.leb_le _ (h_brk h1))) by lia.
    assert ((g + 4 * Z.of_nat i - heap0) mod 4 = 0) as -> by dlia. by rewrite !orb_true_r. }
  eapply wp_eq; [exact E|]. unfold Q. clear Q HW E.
  destruct (heap_payload h1 F' A (g - 8, 104) w H1) as [H2 Hkeep].
  { cbn [fst snd]. intros x Hnx. rewrite Hst, decide_False; [done|]. change (length (guard_words fd)) with 206%nat. lia. }
  split; [intros x Hxc; cbn [h_words set_words]; by rewrite Hkeep, Hw|]. right. exists F'. split_and!; [done| |].
  - intros i v Hv. cbn [h_words set_words]. pose proof (lookup_lt_Some _ _ _ Hv) as Hi. rewrite Hst, decide_True by (split; [lia|dlia]).
    replace (Z.to_nat ((g + 4 * Z.of_nat i - g) / 4)) with i by dlia. by apply nth_lookup_Some with (d := 0) in Hv.
  - unfold thread_safe_guard_destroy. rewrite (proj2 (Z.ltb_lt _ _)) by lia. replace g with ((g - 8, 104).1 + 8) at 1 by (simpl; lia).
    wcall (free_spec base heap0 Hbase Hheap _ F' [] A (g - 8, 104) fuel H2); [lia|]. intros [] h2 (_ & Hk & F2 & H3 & _). split; [by exists F2|].
    intros x Hxc. rewrite Hk by done. cbn [h_words set_words]. by rewrite Hkeep, Hw.
Qed.
End guard.

Close Scope Z_scope.
