(* ===== verification/Exec.v ===== *)
(** * Program loading ([src/xv6-public/exec.c], [elf.h])

    [exec] in the layers of [Sysfile]: reading the program into a new
    address space and laying out its stack work on the files and the memory
    of [File]; the call itself first waits until its process has one thread,
    as [monopolize_proc] of [Thread], and commits at the end.  A path or an
    argument is its bytes without the NUL. *)

From S2P Require Import Prelude.
From S2P Require Import Words.
From S2P Require Import Spinlock.
From S2P Require Import Kstate.
From S2P Require Import ThreadCore.
From S2P Require Import Mlfq.
From S2P Require Import Sched.
From S2P Require Import Proc.
From S2P Require Import Thread.
From S2P Require Import Syscall.
From S2P Require Import BlockStore.
From S2P Require Import Fs.
From S2P Require Import Pipe.
From S2P Require Import Kalloc.
From S2P Require Import Vm.
From S2P Require Import File.
From S2P Require Import Sysfile.

Open Scope Z_scope.

Definition ELF_MAGIC : Z := 1179403647.
Definition ELF_PROG_LOAD : Z := 1.
Definition USERTOP : Z := 2147475456.

(** The members that are used, from their offsets in the bytes. *)
Record elfhdr := mkElf { eh_magic : Z; eh_entry : Z; eh_phoff : Z; eh_phnum : Z }.
Definition elf_of (d : list Z) : elfhdr := mkElf (ld32 d 0) (ld32 d 24) (ld32 d 28) (ld16 d 44).
Record proghdr := mkPh { ph_type : Z; ph_off : Z; ph_vaddr : Z; ph_filesz : Z; ph_memsz : Z }.
Definition ph_of (d : list Z) : proghdr := mkPh (ld32 d 0) (ld32 d 4) (ld32 d 8) (ld32 d 16) (ld32 d 20).

(** The bytes of a word. *)
Definition word_bytes (v : Z) : list Z := le_bytes 4 v.

Section image.
Context {D : Type} `{!BlockOps D} `{!TxnOps D} (kend kdata : Z).
Context (dev_read : Z → option (nat → Z → M (fstate D) (Z * list Z))).
Context (name0 : list Z).
Abbreviation FL := (M (flstate D)).

(** The label [bad]. *)
Definition exec_bad (pgdir : Z) (ip : option nat) : FL unit :=
  (if negb (Z.eqb pgdir 0) then on_mem (Vm.freevm kend pgdir) else mret tt);;
  match ip with
  | Some ip =>
      on_fs (iunlockput ip);;
      end_txn
  | None => mret tt
  end.

(** One program header; the new size, or nothing to give up. *)
Definition load_segment (ip : nat) (pgdir off sz : Z) : FL (option Z) :=
  r ← on_fs (readi dev_read ip off 32);
  if negb (Z.eqb r.1 32) then mret None
  else
    let ph := ph_of r.2 in
    if negb (Z.eqb (ph_type ph) ELF_PROG_LOAD) then mret (Some sz)
    else if Z.ltb (ph_memsz ph) (ph_filesz ph) then mret None
    else if Z.ltb (u32 (ph_vaddr ph + ph_memsz ph)) (ph_vaddr ph) then mret None
    else
      sz ← on_mem (Vm.allocuvm kend pgdir sz (u32 (ph_vaddr ph + ph_memsz ph)));
      if Z.eqb sz 0 then mret None
      else if negb (Z.eqb (ph_vaddr ph mod PGSIZE) 0) then mret None
      else
        n ← loaduvm (@on_mem D) (λ off n, on_fs (readi dev_read ip off n)) pgdir (ph_vaddr ph) (ph_off ph) (ph_filesz ph);
        if Z.ltb n 0 then mret None else mret (Some sz).

Definition load_segments (ip : nat) (pgdir : Z) (elf : elfhdr) : FL (option Z) :=
  loop (S (Z.to_nat (eh_phnum elf))) (λ '(i, off, sz),
    if Z.ltb i (eh_phnum elf) then
      r ← load_segment ip pgdir off sz;
      match r with
      | None => mret (inr None)
      | Some sz => mret (inl (i + 1, u32 (off + 32), sz))
      end
    else mret (inr (Some sz))) (0, eh_phoff elf, 0).

(** Up to the end of the transaction: the directory, the size and the entry
    point of the program. *)
Definition exec_load (path : list Z) : FL (option (Z * Z * Z)) :=
  begin_txn;;
  ip ← on_fs (namei dev_read path name0);
  match ip with
  | None =>
      end_txn;;
      mret None
  | Some ip =>
      on_fs (ilock (Some ip));;
      r ← on_fs (readi dev_read ip 0 52);
      let elf := elf_of r.2 in
      if negb (Z.eqb r.1 52) || negb (Z.eqb (eh_magic elf) ELF_MAGIC) then
        exec_bad 0 (Some ip);;
        mret None
      else
        pgdir ← on_mem (Vm.setupkvm kend kdata);
        if Z.eqb pgdir 0 then
          exec_bad 0 (Some ip);;
          mret None
        else
          sz ← load_segments ip pgdir elf;
          match sz with
          | None =>
              exec_bad pgdir (Some ip);;
              mret None
          | Some sz =>
              on_fs (iunlockput ip);;
              end_txn;;
              mret (Some (pgdir, sz, eh_entry elf))
          end
  end.

(** The arguments from [argc] on: their pointers and the stack pointer. *)
Definition push_strings (pgdir : Z) (argv : list (list Z)) : FL (option (Z * list Z)) :=
  loop (S (length argv)) (λ '(sp, ptrs, argv),
    match argv with
    | [] => mret (inr (Some (sp, ptrs)))
    | arg :: argv =>
        if (MAXARG <=? length ptrs)%nat then mret (inr None)
        else
          let sp := Z.land (u32 (sp - (Z.of_nat (length arg) + 1))) (Z.lnot 3) in
          r ← on_mem (copyout pgdir sp (arg ++ [0]));
          if Z.ltb r 0 then mret (inr None) else mret (inl (sp, ptrs ++ [sp], argv))
    end) (USERTOP, [], argv).

(** [ustack], below the strings. *)
Definition ustack_words (sp : Z) (ptrs : list Z) : list Z :=
  let argc := Z.of_nat (length ptrs) in
  [4294967295; argc; u32 (sp - (argc + 1) * 4)] ++ ptrs ++ [0].

(** From [allocustack] to the second [copyout]: the stack pointer. *)
Definition exec_stack (pgdir : Z) (argv : list (list Z)) : FL (option Z) :=
  r ← on_mem (Vm.allocustack kend pgdir (USERTOP - USTACKSIZE));
  a ← (if Z.eqb r 0 then mret None else push_strings pgdir argv);
  match a with
  | None =>
      exec_bad pgdir None;;
      mret None
  | Some (sp, ptrs) =>
      let words := ustack_words sp ptrs in
      let sp := u32 (sp - (3 + Z.of_nat (length ptrs) + 1) * 4) in
      r ← on_mem (copyout pgdir sp (words ≫= word_bytes));
      if Z.ltb r 0 then
        exec_bad pgdir None;;
        mret None
      else mret (Some sp)
  end.
End image.

(** The part of a path behind its last slash. *)
Definition last_elem (path : list Z) : list Z := foldl (λ last c, if Z.eqb c 47 then [] else last ++ [c]) [] path.

(** ** The call *)

Section exec.
Context {D E : Type} `{!BlockOps D} `{!TxnOps D} `{!Hw E, !KMem E, !KFile E, !UMem E} `{!HasFiles D E} (kend kdata : Z).
Context (dev_read : Z → option (nat → Z → M (fstate D) (Z * list Z))).
Context (dev_write : Z → option (nat → list Z → Z → M (fstate D) Z)).
Context (name0 : list Z).
Abbreviation KM := (M (kstate E)).

(** Behind [monopolize_proc]. *)
Definition exec_image (path : list Z) (argv : list (list Z)) : KM Z :=
  i ← me;
  let curproc := i.1 in
  img ← as_me (D := D) (exec_load kend kdata dev_read name0 path);
  match img with
  | None => mret (-1)
  | Some (pgdir, sz, entry) =>
      let sz := PGROUNDUP sz in
      wr curproc (set_p_ustack (USERTOP - USTACKSIZE));;
      sp ← as_me (D := D) (exec_stack kend pgdir argv);
      match sp with
      | None => mret (-1)
      | Some sp =>
          wr curproc (λ x, set_p_name (copy_name (last_elem path ++ [0]) (p_name x)) x);;
          oldpgdir ← rd curproc p_pgdir;
          wr curproc (set_p_pgdir pgdir);;
          wr curproc (set_p_sz sz);;
          st_tf curproc TF_EIP entry;;
          st_tf curproc TF_ESP sp;;
          switchuvm (Some curproc);;
          as_me (D := D) (on_mem (Vm.freevm kend oldpgdir));;
          mret 0
      end
  end.

(** The loop of [monopolize_proc] and what follows it. *)
Definition exec_turn (path : list Z) (argv : list (list Z)) : KM (round Z) :=
  i ← me;
  r ← loop (S NPROC) (λ _ : unit,
    r ← monopolize_next i.1;
    match r with
    | Some (Sleeps sw) => mret (inr (Some sw))
    | Some (Done _) => mret (inl tt)
    | None => mret (inr None)
    end) tt;
  match r with
  | Some sw => mret (Sleeps sw)
  | None => v ← exec_image path argv; mret (Done v)
  end.
Definition exec (path : list Z) (argv : list (list Z)) : KM (round Z) :=
  i ← me;
  monopolize_proc i.1;;
  exec_turn path argv.
Definition exec_back (path : list Z) (argv : list (list Z)) (thread intena : Z) : KM (round Z) :=
  r ← thread_join_back thread None intena;
  match r with
  | Sleeps sw => mret (Sleeps sw)
  | Done _ => exec_turn path argv
  end.

Definition sys_exec : KM (round Z) :=
  a ← sys_exec_args;
  match a with
  | None => mret (Done (-1))
  | Some (path, argv) => exec path argv
  end.
End exec.

Close Scope Z_scope.
