(* ===== verification/ExecTheorems.v ===== *)
(** * The stack of a new program ([src/xv6-public/exec.c])

    What [exec_stack] puts on the stack of a new address space: the strings
    of the arguments, their pointers, and the words [main] is called with. *)

From S2P Require Import Prelude.
From S2P Require Import Words.
From S2P Require Import Log.
From S2P Require Import BlockStore.
From S2P Require Import Fs.
From S2P Require Import Kalloc.
From S2P Require Import Vm.
From S2P Require Import VmMap.
From S2P Require Import VmUser.
From S2P Require Import VmTheorems.
From S2P Require Import VmFree.
From S2P Require Import VmCopy.
From S2P Require Import File.
From S2P Require Import FileTheorems.
From S2P Require Import Sysfile.
From S2P Require Import Exec.

Open Scope Z_scope.

(** The bytes [l] stand from the user address [a] on. *)
Definition ubytes (pg : gmap Z page) (pgdir a : Z) (l : list Z) : Prop :=
  ∀ i b, l !! i = Some b → ubyte pg pgdir (a + Z.of_nat i) = Some b.

(** The page of the stack. *)
Definition STACK : Z := USERTOP - USTACKSIZE.

Section exec.
Context {D : Type} `{!BlockOps D} `{!TxnOps D} (kend : Z) (Hkend : KERNBASE < kend).

(** The pointer behind [arg] is aligned and leaves room for it. *)
Lemma below_val sp n : sp mod 4 = 0 → STACK ≤ sp ≤ USERTOP → 0 ≤ n ≤ 4000000 →
  let sp' := Z.land (u32 (sp - (n + 1))) (Z.lnot 3) in sp' mod 4 = 0 ∧ sp' + n + 1 ≤ sp ∧ sp - n - 4 ≤ sp'.
Proof using Type.
  intros Hal Hsp Hn sp'. unfold sp'. rewrite u32_small by (unfold is_u32, two32, STACK, USERTOP, USTACKSIZE in *; lia).
  change (Z.lnot 3) with (Z.lnot (Z.ones 2)). rewrite <-Z.ldiff_land, Z.ldiff_ones_r by lia. rewrite Z.shiftl_mul_pow2, Z.shiftr_div_pow2 by lia. change (2 ^ 2) with 4.
  zify; Z.to_euclidean_division_equations; lia.
Qed.

Section push.
Context (k0 : kmem) (pgdir : Z) (f : list Z) (k1 : kmem) (HS : has_stack kend k0 pgdir STACK k1 f).
(** Nothing else is mapped in the 4 megabytes that end with the stack. *)
Context (Htop : ∀ a, 2143289344 ≤ a < USERTOP → up (k_pages k0) pgdir a = false).

(** [k] is [k1] with the stack filled down to [sp]. *)
Record filled (sp : Z) (k : kmem) : Prop := {
  fd_sp : STACK ≤ sp ≤ USERTOP ∧ sp mod 4 = 0;
  fd_kinv : kinv kend k f;
  fd_as : as_ok kend (k_pages k) pgdir f;
  fd_pte : ∀ a, pte_of (k_pages k) pgdir a = pte_of (k_pages k1) pgdir a;
  fd_bytes : ∀ a, user a → up (k_pages k1) pgdir a = true → ¬ sp ≤ a < USERTOP → ubyte (k_pages k) pgdir a = ubyte (k_pages k1) pgdir a
}.

Lemma filled_top : filled USERTOP k1.
Proof using HS. split; [by vm_compute|apply HS|apply HS|done|done]. Qed.

(** What stands above [sp] stays when more is stored below it. *)
Lemma stored_keeps sp k va buf k' a l : filled sp k → stored kend k f pgdir va buf k' → va + Z.of_nat (length buf) ≤ a → STACK ≤ a →
  a + Z.of_nat (length l) ≤ USERTOP → ubytes (k_pages k) pgdir a l → ubytes (k_pages k') pgdir a l.
Proof using HS.
  intros F S Hva Ha Hl Hb i b Hi. pose proof (lookup_lt_Some _ _ _ Hi) as Hlt.
  rewrite (sd_bytes _ _ _ _ _ _ _ S).
  - rewrite decide_False by lia. by apply Hb.
  - unfold user, STACK, USERTOP, USTACKSIZE, KERNBASE in *. lia.
  - unfold up. rewrite (fd_pte _ _ F). apply uopen_up. apply (hs_open _ _ _ _ _ _ HS). unfold STACK, USERTOP, USTACKSIZE in *. lia.
Qed.

(** Storing [buf] below [sp]: it fits, or the copy is refused. *)
Lemma push_spec sp k va buf : filled sp k → va mod 4 = 0 → va + Z.of_nat (length buf) ≤ sp → sp - 4000010 ≤ va → buf ≠ [] →
  wp (copyout pgdir va buf) (λ r k', (r = -1 ∧ k' = k) ∨ (r = 0 ∧ filled va k' ∧ stored kend k f pgdir va buf k')) k.
Proof using HS Htop.
  intros F Hal Hsp Hlow Hne. destruct (fd_sp _ _ F) as [Hb _]. unfold STACK, USERTOP, USTACKSIZE in Hb. destruct (decide (STACK ≤ va)) as [Hin|Hout].
  - assert (∀ a, va ≤ a < sp → uopen (k_pages k) pgdir a = true) as Hop.
    { intros a Ha. unfold uopen, up. rewrite (fd_pte _ _ F). apply (hs_open _ _ _ _ _ _ HS). unfold STACK, USERTOP, USTACKSIZE in *. lia. }
    wcall (copyout_spec kend k f pgdir va buf (fd_kinv _ _ F) (fd_as _ _ F)); [unfold STACK, USERTOP, USTACKSIZE in *; lia|unfold KERNBASE; lia|intros a Ha; apply Hop; lia|].
    intros r k' [-> S]. right. split; [done|]. split; [|done]. pose proof S as [I' A' P' B']. split.
    + split; [|done]. unfold STACK, USERTOP, USTACKSIZE in *. lia.
    + done.
    + done.
    + intros a. by rewrite P', (fd_pte _ _ F).
    + intros a Ha Hu Hn. unfold USERTOP in *. rewrite B' by (done || (unfold up; by rewrite (fd_pte _ _ F))). rewrite decide_False by lia. apply (fd_bytes _ _ F); [done|done|]. unfold USERTOP. lia.
  - wcall (copyout_refused kend k f pgdir va buf (as_pt _ _ _ _ (fd_as _ _ F))); [| |done|intros r k' H; by left].
    + assert (PDX va = PDX STACK) as ->. { rewrite !PDX_val. unfold STACK, USERTOP, USTACKSIZE in *. zify; Z.to_euclidean_division_equations; lia. }
      apply up_table. unfold up. rewrite (fd_pte _ _ F). apply uopen_up, (hs_open _ _ _ _ _ _ HS). lia.
    + unfold uopen, up. rewrite (fd_pte _ _ F). fold (up (k_pages k1) pgdir va) (uopen (k_pages k1) pgdir va).
      destruct (decide (STACK - 4096 ≤ va)) as [Hg|Hg]; [apply (hs_guard _ _ _ _ _ _ HS); lia|].
      unfold uopen, up. rewrite (hs_pte _ _ _ _ _ _ HS) by (unfold is_u32, two32, STACK, USERTOP, USTACKSIZE in *; lia).
      fold (up (k_pages k0) pgdir va). rewrite Htop; [done|]. unfold STACK, USERTOP, USTACKSIZE in *. lia.
Qed.
Lemma stored_here sp k va buf k' : filled sp k → stored kend k f pgdir va buf k' → STACK ≤ va → va + Z.of_nat (length buf) ≤ USERTOP → ubytes (k_pages k') pgdir va buf.
Proof using HS.
  intros F S Hlo Hhi i b Hi. pose proof (lookup_lt_Some _ _ _ Hi) as Hlt. rewrite (sd_bytes _ _ _ _ _ _ _ S).
  - rewrite decide_True by lia. by replace (Z.to_nat (va + Z.of_nat i - va)) with i by lia.
  - unfold user, STACK, USERTOP, USTACKSIZE, KERNBASE in *. lia.
  - unfold up. rewrite (fd_pte _ _ F). apply uopen_up. apply (hs_open _ _ _ _ _ _ HS). unfold STACK, USERTOP, USTACKSIZE in *. lia.
Qed.

(** The strings [argv] stand at [ptrs], from [sp] on. *)
Definition placed (k : kmem) (sp : Z) (argv : list (list Z)) (ptrs : list Z) : Prop :=
  Forall2 (λ str a, sp ≤ a ∧ a + Z.of_nat (length (str ++ [0])) ≤ USERTOP ∧ ubytes (k_pages k) pgdir a (str ++ [0])) argv ptrs.

Lemma placed_push sp k va buf k' argv ptrs : filled sp k → stored kend k f pgdir va buf k' → va + Z.of_nat (length buf) ≤ sp → placed k sp argv ptrs → placed k' va argv ptrs.
Proof using HS.
  intros F S Hva. destruct (fd_sp _ _ F) as [Hsp _]. intros H. eapply Forall2_impl; [exact H|]. intros str a (H1 & H2 & H3). split_and!; [lia|done|].
  eapply stored_keeps; [exact F|exact S|lia|lia|done|done].
Qed.

Lemma push_strings_spec argv (s : flstate D) : fl_mem s = k1 → Forall (λ str, Z.of_nat (length str) ≤ 4000000) argv →
  wp (push_strings pgdir argv) (λ r s', s' = set_mem (fl_mem s') s ∧ match r with
    | None => ∃ sp, filled sp (fl_mem s')
    | Some (sp, ptrs) => filled sp (fl_mem s') ∧ placed (fl_mem s') sp argv ptrs ∧ (length ptrs ≤ MAXARG)%nat
    end) s.
Proof using HS Htop.
  intros Es Hlen. unfold push_strings.
  apply (wp_loop (λ n '(sp, ptrs, rest) s', n = length rest ∧ s' = set_mem (fl_mem s') s ∧ ∃ pre, argv = pre ++ rest ∧
    filled sp (fl_mem s') ∧ placed (fl_mem s') sp pre ptrs ∧ (length ptrs ≤ MAXARG)%nat)) with (n := length argv).
  - intros n [[sp ptrs] rest] s1 (-> & E1 & pre & -> & F & P & Hm). destruct rest as [|arg rest].
    { wstep. split; [exact E1|]. rewrite app_nil_r. by split_and!. }
    cbv beta iota zeta. destruct (Nat.leb_spec MAXARG (length ptrs)) as [Hmax|Hmax]; [wstep; split; [done|by exists sp]|].
    apply Forall_app in Hlen as [_ Hlen]. apply Forall_cons in Hlen as [Hla _]. destruct (fd_sp _ _ F) as [Hsp Hal].
    destruct (below_val sp (Z.of_nat (length arg)) Hal Hsp ltac:(lia)) as (B1 & B2 & B3). set (sp' := Z.land _ _) in *.
    wstep. unfold on_mem. wstep. assert (Z.of_nat (length (arg ++ [0])) = Z.of_nat (length arg) + 1) as Hl1 by (rewrite length_app; simpl; lia).
    wcall (push_spec sp (fl_mem s1) sp' (arg ++ [0]) F B1); [lia|lia|by destruct arg|].
    intros r k' [[-> ->]|(-> & F' & S)]; simpl.
    + wstep. split; [by rewrite E1|]. exists sp. exact F.
    + wstep. exists (length rest). split; [lia|]. split; [done|]. split; [by rewrite E1|]. exists (pre ++ [arg]). split_and!; [by rewrite <-app_assoc|exact F'| |rewrite length_app; simpl; lia].
      apply Forall2_app; [by eapply placed_push; [exact F|exact S|lia|]|]. constructor; [|constructor]. split_and!; [lia|unfold STACK, USERTOP, USTACKSIZE in *; lia|].
      eapply stored_here; [exact F|exact S|apply (fd_sp _ _ F')|unfold STACK, USERTOP, USTACKSIZE in *; lia].
  - lia.
  - split; [done|]. split; [by destruct s|]. exists []. split_and!; [done|rewrite Es; apply filled_top|constructor|simpl; lia].
Qed.
End push.

Lemma words_length ws : length (ws ≫= word_bytes) = (4 * length ws)%nat.
Proof using Type. induction ws as [|w ws IH]; [done|]. rewrite bind_cons, length_app, IH. simpl. lia. Qed.

Lemma exec_bad_spec pgdir free (s : flstate D) : kinv kend (fl_mem s) free → as_ok kend (k_pages (fl_mem s)) pgdir free →
  wp (exec_bad kend pgdir None) (λ _ s', s' = set_mem (fl_mem s') s ∧ ∃ l, kinv kend (fl_mem s') (l ++ free) ∧ pgdir ∈ l) s.
Proof using Hkend.
  intros I A. unfold exec_bad. destruct (pt_dir _ _ _ _ (as_pt _ _ _ _ A)) as (Dg & _). destruct (good_u32 _ _ Dg) as [_ Hnz].
  rewrite (proj2 (Z.eqb_neq _ _)) by done. simpl. wstep. unfold on_mem. wstep. wcall (freevm_spec kend Hkend (fl_mem s) free pgdir I A).
  intros [] k' (l & I' & Hl & _). wstep. split; [done|]. exists l. split; [done|]. apply Hl. by left.
Qed.

(** The words of [ustack] as [main] sees them, once the pointer is moved. *)
Lemma ustack_words_val sp (ptrs : list Z) : STACK ≤ sp ≤ USERTOP → (length ptrs ≤ MAXARG)%nat →
  let sp' := u32 (sp - (3 + Z.of_nat (length ptrs) + 1) * 4) in
  sp' = sp - (4 + Z.of_nat (length ptrs)) * 4 ∧ ustack_words sp ptrs = [4294967295; Z.of_nat (length ptrs); sp' + 12] ++ ptrs ++ [0].
Proof using Type.
  intros Hsp Hn sp'. unfold STACK, USERTOP, USTACKSIZE, MAXARG in *. assert (sp' = sp - (4 + Z.of_nat (length ptrs)) * 4) as E.
  { unfold sp'. rewrite u32_small by (unfold is_u32, two32; lia). lia. }
  split; [done|]. unfold ustack_words. rewrite u32_small by (unfold is_u32, two32; lia). rewrite E.
  by replace (sp - (4 + Z.of_nat (length ptrs)) * 4 + 12) with (sp - (Z.of_nat (length ptrs) + 1) * 4) by lia.
Qed.

(** C15: [exec] calls [main] with its arguments.  In a new address space with
    nothing mapped in the 4 megabytes that end with the stack, and for
    arguments of any number and of up to 4000000 bytes each, [exec_stack]
    ends without a fault.  When it succeeds the stack pointer is aligned and
    in the stack page; at it stand the fake return address, [argc], the
    address of [argv] and [argv] itself, ending with a null pointer, and at
    each pointer the string of the argument with its NUL; the page below the
    stack is closed to the user; the memory of the program is unchanged.
    When the arguments are too many or too long, or there is no memory, the
    address space has been given back.  Nothing but the memory is touched. *)
Theorem exec_passes_arguments (s : flstate D) free pgdir argv :
  kinv kend (fl_mem s) free → as_ok kend (k_pages (fl_mem s)) pgdir free →
  (∀ a, 2143289344 ≤ a < USERTOP → up (k_pages (fl_mem s)) pgdir a = false) → Forall (λ str, Z.of_nat (length str) ≤ 4000000) argv →
  wp (exec_stack kend pgdir argv) (λ r s', s' = set_mem (fl_mem s') s ∧ match r with
    | Some sp => let pg := k_pages (fl_mem s') in
        ∃ ptrs f, kinv kend (fl_mem s') f ∧ as_ok kend pg pgdir f ∧ STACK ≤ sp ∧ sp mod 4 = 0 ∧
        ubytes pg pgdir sp (([4294967295; Z.of_nat (length argv); sp + 12] ++ ptrs ++ [0]) ≫= word_bytes) ∧
        Forall2 (λ str a, sp < a ∧ a + Z.of_nat (length (str ++ [0])) ≤ USERTOP ∧ ubytes pg pgdir a (str ++ [0])) argv ptrs ∧
        (∀ a, STACK - 4096 ≤ a < STACK → uopen pg pgdir a = false) ∧
        (∀ a, user a → up (k_pages (fl_mem s)) pgdir a = true → ubyte pg pgdir a = ubyte (k_pages (fl_mem s)) pgdir a)
    | None => ∃ f, kinv kend (fl_mem s') f ∧ pgdir ∈ f
    end) s.
Proof using Hkend.
  intros I A Htop Hlen. unfold exec_stack. wstep. unfold on_mem at 1. wstep. fold STACK.
  assert (∀ s1 f, s1 = set_mem (fl_mem s1) s → kinv kend (fl_mem s1) f → as_ok kend (k_pages (fl_mem s1)) pgdir f →
    wp (exec_bad kend pgdir None) (λ _ s', s' = set_mem (fl_mem s') s ∧ ∃ f, kinv kend (fl_mem s') f ∧ pgdir ∈ f) s1) as Hbad.
  { intros s1 f E1 I1 A1. wcall (exec_bad_spec pgdir f s1 I1 A1). intros _ s2 (E2 & l & I2 & Hl). split; [by rewrite E2, E1|]. exists (l ++ f). split; [done|set_solver]. }
  wcall (allocustack_spec kend (fl_mem s) free pgdir STACK Hkend I A); [done|by vm_compute|done| |].
  { intros a Ha. apply Htop. unfold STACK, USERTOP, USTACKSIZE in *. lia. }
  intros r k1 (f & [(-> & I1 & A1)|(-> & HS)]).
  { simpl. wstep. wstep. wstep. wcall (Hbad (set_mem k1 s) f); [done|done|done|]. intros _ s' H. by wstep. }
  change (Z.eqb STACK 0) with false. cbv iota. wstep. wcall (push_strings_spec (fl_mem s) pgdir f k1 HS Htop argv (set_mem k1 s)); [done|done|].
  intros [[sp ptrs]|] s2 (E2 & H2); cycle 1.
  { destruct H2 as [sp F]. wstep. wcall (Hbad s2 f); [by rewrite E2|apply F|apply F|]. intros _ s' H. by wstep. }
  destruct H2 as (F & P & Hm). destruct (fd_sp _ _ _ _ _ F) as [Hsp Hal]. destruct (ustack_words_val sp ptrs Hsp Hm) as [Esp Ew]. cbv zeta. rewrite Ew. set (sp' := u32 _) in *.
  pose proof (Forall2_length _ _ _ P) as Hlp. rewrite Hlp in *. set (words := _ ++ _ ++ _). assert (length (words ≫= word_bytes) = 4 * (4 + length ptrs))%nat as Hwl.
  { rewrite words_length. unfold words. rewrite !length_app. simpl. lia. }
  unfold MAXARG in *. wstep. unfold on_mem. wstep. wcall (push_spec (fl_mem s) pgdir f k1 HS Htop sp (fl_mem s2) sp' (words ≫= word_bytes) F).
  - rewrite Esp. zify; Z.to_euclidean_division_equations; lia.
  - lia.
  - lia.
  - intros E. rewrite E in Hwl. simpl in Hwl. lia.
  - intros r k3 [[-> ->]|(-> & F' & S)]; simpl.
    + wstep. wcall (Hbad (set_mem (fl_mem s2) s2) f); [by rewrite E2|apply F|apply F|]. intros _ s' H. by wstep.
    + wstep. split; [by rewrite E2|]. exists ptrs, f. destruct (fd_sp _ _ _ _ _ F') as [Hsp' Hal']. split_and!; [apply F'|apply F'|lia|done| | | |].
      * assert (ubytes (k_pages k3) pgdir sp' (words ≫= word_bytes)) as Hub; [|exact Hub]. eapply (stored_here (fl_mem s) pgdir f k1 HS sp); [exact F|exact S|lia|lia].
      * eapply Forall2_impl; [exact P|]. intros str a (Q1 & Q2 & Q3). split_and!; [lia|done|].
        eapply (stored_keeps (fl_mem s) pgdir f k1 HS sp); [exact F|exact S|lia|lia|done|done].
      * intros a Ha. unfold uopen, up. rewrite (fd_pte _ _ _ _ _ F'). by apply (hs_guard _ _ _ _ _ _ HS).
      * intros a Ha Hu. assert (¬ (2143289344 ≤ a < USERTOP)) as Hna by (intros Hr; rewrite Htop in Hu; done).
        assert (up (k_pages k1) pgdir a = true) as Hu1.
        { unfold up. rewrite (hs_pte _ _ _ _ _ _ HS); [done|by apply user_u32|]. unfold STACK, USERTOP, USTACKSIZE in *. lia. }
        rewrite (fd_bytes _ _ _ _ _ F') by (done || (unfold STACK, USERTOP, USTACKSIZE in *; lia)). by apply (hs_bytes _ _ _ _ _ _ HS).
Qed.
End exec.

(** A new directory and three free pages. *)
Module ExecSample.
Definition room : kmem :=
  mkKmem 1 2151682048 (<[2151677952 := fill_page 0]> (<[2151682048 := st32 (fill_page 0) 0 2151686144]>
    (<[2151686144 := st32 (fill_page 0) 0 2151690240]> {[2151690240 := fill_page 0]}))).
Definition files : flstate lstate := set_mem room empty_files.
Definition free3 : list Z := [2151682048; 2151686144; 2151690240].

Lemma room_ok : kinv 2151677952 room free3 ∧ as_ok 2151677952 (k_pages room) 2151677952 free3 ∧ ∀ va, pte_of (k_pages room) 2151677952 va = 0.
Proof.
  assert (∀ a, a ∈ 2151677952 :: free3 → good_page 2151677952 a) as Hg.
  { intros a Ha. unfold free3 in Ha. rewrite !elem_of_cons, elem_of_nil in Ha. destruct Ha as [->|[->|[->|[->|[]]]]]; (split; [done|lia|unfold KERNBASE, PHYSTOP; lia]). }
  split.
  - split; [|apply (bool_decide_unpack _); vm_compute; exact Logic.I|intros a Ha; apply Hg; by right].
    simpl. split; [done|]. do 2 (eexists; split; [reflexivity|]; split; [done|]; split; [vm_compute; reflexivity|]). eexists. split; [reflexivity|]. split; [done|]. vm_compute. reflexivity.
  - apply fresh_as_ok; [reflexivity|apply Hg; left|unfold free3; by rewrite !elem_of_cons, elem_of_nil; intros [H|[H|[H|[]]]]].
Qed.
End ExecSample.

(** "hi" as the only argument. *)
Lemma exec_passes_arguments_witness :
  ∃ s' ptr, exec_stack 2151677952 2151677952 [[104; 105]] ExecSample.files = Ok (Some 2147475432, s') ∧
    ubytes (k_pages (fl_mem s')) 2151677952 ptr [104; 105; 0].
Proof.
  destruct ExecSample.room_ok as (I & A & Hz).
  pose proof (exec_passes_arguments 2151677952 ltac:(unfold KERNBASE; lia) ExecSample.files ExecSample.free3 2151677952 [[104; 105]] I A) as H.
  assert (match exec_stack 2151677952 2151677952 [[104; 105]] ExecSample.files with Ok (Some sp, _) => sp | _ => 0 end = 2147475432) as E by (vm_compute; reflexivity).
  unfold wp in H. destruct (exec_stack 2151677952 2151677952 [[104; 105]] ExecSample.files) as [[[sp|] s']|]; [|done|done]. subst sp. destruct H as (_ & ptrs & f & _ & _ & _ & _ & _ & P & _).
  - intros a _. unfold up. by rewrite Hz.
  - repeat constructor. simpl. lia.
  - destruct ptrs as [|ptr ptrs]; [by inversion P|]. apply Forall2_cons in P as [(_ & _ & P) _]. by exists s', ptr.
Defined.

Close Scope Z_scope.
