(* ===== verification/Boot.v ===== *)
(** * The boot loader ([src/xv6-public/bootmain.c])

    [bootmain] runs on the bare machine: physical memory as bytes and the
    disk behind the ports of [Ide].  Its result is the address it jumps to,
    [None] when it returns because the image is not an ELF file. *)

From S2P Require Import Prelude.
From S2P Require Import Words.
From S2P Require Import Strings.
From S2P Require Import Bio.
From S2P Require Import Exec.
From S2P Require Import Ide.

Open Scope Z_scope.

Definition SECTSIZE : Z := 512.
Definition ELF_SCRATCH : Z := 65536.

Record boot (D : Type) := mkBoot { bt_mem : bmem; bt_hw : D }.
#[global] Arguments mkBoot {_} _ _.
#[global] Arguments bt_mem {_} _.
#[global] Arguments bt_hw {_} _.

(** A [uint] and a [ushort] in memory. *)
Definition ld_uint (a : Z) : M bmem Z :=
  b0 ← ld8 a;
  b1 ← ld8 (a + 1);
  b2 ← ld8 (a + 2);
  b3 ← ld8 (a + 3);
  mret (b0 + 256 * b1 + 65536 * b2 + 16777216 * b3).
Definition ld_ushort (a : Z) : M bmem Z :=
  b0 ← ld8 a;
  b1 ← ld8 (a + 1);
  mret (b0 + 256 * b1).

Section boot.
Context {D : Type} {P : IdePorts D}.
Abbreviation LM := (M (boot D)).

Definition set_bt_mem (v : bmem) (s : boot D) : boot D := mkBoot v (bt_hw s).
Definition set_bt_hw (v : D) (s : boot D) : boot D := mkBoot (bt_mem s) v.
Definition on_mem {A} : M bmem A → LM A := zoom bt_mem set_bt_mem.
Definition on_hw {A} : M D A → LM A := zoom bt_hw set_bt_hw.

Fixpoint put_bytes (a : Z) (l : list Z) : M bmem unit :=
  match l with
  | [] => mret tt
  | b :: l => st8 a b;; put_bytes (a + 1) l
  end.

Definition waitdisk : LM unit :=
  loop polls (λ _ : unit,
    r ← on_hw (inb 503);
    if negb (Z.eqb (Z.land r 192) 64) then mret (inl tt)
    else mret (inr tt)) tt.

(** [outb] takes a byte. *)
Definition readsect (dst offset : Z) : LM unit :=
  waitdisk;;
  on_hw (outb 498 1);;
  on_hw (outb 499 (Z.land offset 255));;
  on_hw (outb 500 (Z.land (Z.shiftr offset 8) 255));;
  on_hw (outb 501 (Z.land (Z.shiftr offset 16) 255));;
  on_hw (outb 502 (Z.land (Z.lor (Z.shiftr offset 24) 224) 255));;
  on_hw (outb 503 32);;
  waitdisk;;
  d ← on_hw (insl 496);
  on_mem (put_bytes dst d).

Definition readseg (pa count offset : Z) : LM unit :=
  let epa := u32 (pa + count) in
  let pa := u32 (pa - offset mod SECTSIZE) in
  let offset := offset / SECTSIZE + 1 in
  loop (Z.to_nat (count / SECTSIZE) + 3) (λ '(pa, offset),
    if Z.ltb pa epa then
      readsect pa offset;;
      mret (inl (u32 (pa + SECTSIZE), u32 (offset + 1)))
    else mret (inr tt)) (pa, offset).

Definition bootmain : LM (option Z) :=
  let elf := ELF_SCRATCH in
  readseg elf 4096 0;;
  magic ← on_mem (ld_uint elf);
  if negb (Z.eqb magic ELF_MAGIC) then mret None
  else
    phoff ← on_mem (ld_uint (elf + 28));
    phnum ← on_mem (ld_ushort (elf + 44));
    let ph := u32 (elf + phoff) in
    let eph := u32 (ph + 32 * phnum) in
    loop (S (Z.to_nat phnum)) (λ ph,
      if Z.ltb ph eph then
        pa ← on_mem (ld_uint (ph + 12));
        filesz ← on_mem (ld_uint (ph + 16));
        off ← on_mem (ld_uint (ph + 4));
        readseg pa filesz off;;
        memsz ← on_mem (ld_uint (ph + 20));
        filesz ← on_mem (ld_uint (ph + 16));
        (if Z.ltb filesz memsz then on_mem (stosb (u32 (pa + filesz)) 0 (Z.to_nat (memsz - filesz))) else mret tt);;
        mret (inl (u32 (ph + 32)))
      else mret (inr tt)) ph;;
    entry ← on_mem (ld_uint (elf + 24));
    mret (Some entry).
End boot.

Close Scope Z_scope.
