(* ===== verification/BootTheorems.v ===== *)
(** * The boot loader loads the kernel ([src/xv6-public/bootmain.c])

    On a disk that answers as [IdeLaws] says and reports no errors, what
    [readseg] reads is the file that starts at sector 1, and [bootmain] puts
    the segments of the kernel where its headers say. *)

From S2P Require Import Prelude.
From S2P Require Import Words.
From S2P Require Import Strings.
From S2P Require Import Bio.
From S2P Require Import FsMap.
From S2P Require Import Exec.
From S2P Require Import Ide.
From S2P Require Import IdeTheorems.
From S2P Require Import Boot.

Open Scope Z_scope.

Lemma put_bytes_run l : ∀ m a, mapped m a (length l) → Forall is_byte l → put_bytes a l m = Ok (tt, write_bytes a l m).
Proof.
  induction l as [|b l IH]; intros m a Hm Hb; [done|]. apply mapped_S in Hm as [H0 Hm]. apply Forall_cons in Hb as [Hb Hl]. cbn [put_bytes].
  rewrite (bind_ok _ _ _ _ _ (st8_run _ _ _ H0)), byte_mod by done. rewrite IH; [done|by apply mapped_insert|done].
Qed.

Section boot.
Context {D : Type} {P : IdePorts D} {L : IdeLaws D}.
Implicit Types (s : boot D) (d : D).
Context (Hno : ∀ d : D, failed d = false).

(** The byte of the kernel file at offset [o]. *)
Definition kb (d : D) (o : Z) : Z := byte_at (sectors d 0 (1 + o / 512)) (Z.to_nat (o mod 512)).
Definition good_disk (d : D) : Prop := ∀ x y, length (sectors d x y) = BSIZE ∧ Forall is_byte (sectors d x y).

Lemma kb_same d d' o : sectors d' = sectors d → kb d' o = kb d o.
Proof using Type. intros E. unfold kb. by rewrite E. Qed.

Lemma waitdisk_spec s : wp waitdisk (λ _ s', ∃ d', s' = set_bt_hw d' s ∧ sectors d' = sectors (bt_hw s) ∧ reg d' = reg (bt_hw s) ∧ cmd d' = cmd (bt_hw s) ∧ busy d' = 0%nat) s.
Proof using L.
  unfold waitdisk. eapply (wp_loop (λ n _ s1, ∃ d1, s1 = set_bt_hw d1 s ∧ n = busy d1 ∧ sectors d1 = sectors (bt_hw s) ∧ reg d1 = reg (bt_hw s) ∧ cmd d1 = cmd (bt_hw s))) with (n := busy (bt_hw s)).
  - intros n [] s1 (d1 & -> & -> & E1 & E2 & E3). apply wp_bind. unfold on_hw. apply wp_zoom. simpl bt_hw. wcall (inb_spec d1). intros r d2 (F1 & F2 & F3 & _ & F5 & F6 & _).
    change (Z.lor IDE_BSY IDE_DRDY) with 192 in F6. change IDE_DRDY with 64 in F6. destruct (decide (busy d1 = 0%nat)) as [E|E].
    + rewrite (proj2 F6 E), Z.eqb_refl. apply wp_ret. exists d2. split_and!; [done|congruence..|]. by rewrite F5, E.
    + rewrite (proj2 (Z.eqb_neq _ _)) by (by intros ?%F6). apply wp_ret. exists (busy d2). split; [lia|]. exists d2. split_and!; congruence || done.
  - apply busy_polls.
  - exists (bt_hw s). by destruct s.
Qed.

Lemma wp_boot_outb s p v (Q : unit → boot D → Prop) : p ∈ [498; 499; 500; 501; 502; 1014] → busy (bt_hw s) = 0%nat →
  (∀ d', sectors d' = sectors (bt_hw s) → (∀ p', reg d' p' = if decide (p' = p) then v else reg (bt_hw s) p') → busy d' = 0%nat → Q tt (set_bt_hw d' s)) → wp (on_hw (outb p v)) Q s.
Proof using L. intros Hp Hb HQ. unfold on_hw. apply wp_zoom. wcall (outb_reg (bt_hw s) p v Hp Hb). intros [] d' (E1 & E2 & E3). by apply HQ. Qed.

Lemma readsect_spec s dst n : 0 ≤ n < 16777216 → mapped (bt_mem s) dst BSIZE → good_disk (bt_hw s) →
  wp (readsect dst n) (λ _ s', bt_mem s' = write_bytes dst (sectors (bt_hw s) 0 n) (bt_mem s) ∧ sectors (bt_hw s') = sectors (bt_hw s)) s.
Proof using L Hno.
  intros Hn Hm Hg. unfold readsect. apply wp_bind. wcall waitdisk_spec. intros [] s1 (d1 & -> & E1 & _ & _ & B1).
  apply wp_bind, wp_boot_outb; [set_solver|done|]. intros d2 F2 R2 B2. simpl in F2, R2, B2.
  apply wp_bind, wp_boot_outb; [set_solver|done|]. intros d3 F3 R3 B3. simpl in F3, R3, B3.
  apply wp_bind, wp_boot_outb; [set_solver|done|]. intros d4 F4 R4 B4. simpl in F4, R4, B4.
  apply wp_bind, wp_boot_outb; [set_solver|done|]. intros d5 F5 R5 B5. simpl in F5, R5, B5.
  apply wp_bind, wp_boot_outb; [set_solver|done|]. intros d6 F6 R6 B6. simpl in F6, R6, B6.
  assert (Z.shiftr n 24 = 0) as Es by (rewrite Z.shiftr_div_pow2 by lia; apply Z.div_small; lia). rewrite Es in R6. change (Z.land (Z.lor 0 224) 255) with 224 in R6.
  assert (lba_of (reg d6) = n ∧ drive_of (reg d6) = 0) as [El Ed] by (apply lba_roundtrip; [done|by left|..]; rewrite ?Es, ?R6, ?R5, ?R4, ?R3; reflexivity).
  assert (reg d6 498 = 1) as En by (rewrite R6, R5, R4, R3, R2; reflexivity).
  apply wp_bind. unfold on_hw at 1. apply wp_zoom. simpl bt_hw. wcall (outb_read d6 B6 En). intros [] d7 (G1 & G2). rewrite El, Ed in G2.
  apply wp_bind. wcall waitdisk_spec. intros [] s8 (d8 & -> & H1 & _ & H3 & H4). simpl in H1, H3.
  apply wp_bind. unfold on_hw. apply wp_zoom. simpl bt_hw. assert (cmd d8 = Reading 0 n) as Hcmd by by rewrite H3. wcall (insl_spec d8 0 n Hcmd H4 (Hno d8)). intros v d9 (-> & J1).
  assert (sectors d8 = sectors (bt_hw s)) as Eall by congruence. rewrite Eall. destruct (Hg 0 n) as [Hl Hb]. unfold on_mem. apply wp_zoom. eapply wp_eq; [apply put_bytes_run; [rewrite Hl; exact Hm|exact Hb]|].
  simpl. split; [done|]. congruence.
Qed.

(** The sectors that [readseg] reads, and where they go. *)
Definition seg_start (pa off : Z) : Z := pa - off mod 512.
Definition seg_sectors (count off : Z) : Z := (count + off mod 512 + 511) / 512.

Record seg_fits (pa count off : Z) : Prop := {
  sf_start : 0 ≤ seg_start pa off;
  sf_count : 0 ≤ count ∧ 0 ≤ off;
  sf_top : pa + count + 1024 < two32;
  sf_disk : off / 512 + 3 + count / 512 < 16777216
}.

Definition loaded_range (d : D) (pa off : Z) (n : Z) (m m' : bmem) : Prop :=
  ∀ a, m' !! a = if decide (seg_start pa off ≤ a < seg_start pa off + 512 * n) then Some (kb d (off + (a - pa))) else m !! a.

Lemma loaded_next d pa off n m m1 : good_disk d → 0 ≤ off → 0 ≤ n → loaded_range d pa off n m m1 →
  loaded_range d pa off (n + 1) m (write_bytes (seg_start pa off + 512 * n) (sectors d 0 (off / 512 + 1 + n)) m1).
Proof using Type.
  intros Hg Ho Hn Hr a. destruct (Hg 0 (off / 512 + 1 + n)) as [Hl _]. rewrite write_bytes_lookup, Hl. change (Z.of_nat BSIZE) with 512. unfold seg_start in *. destruct (decide (pa - off mod 512 + 512 * n ≤ a < pa - off mod 512 + 512 * n + 512)) as [Hin|Hout].
  - rewrite decide_True by lia. unfold kb, byte_at.
    assert ((off + (a - pa)) / 512 = off / 512 + n ∧ (off + (a - pa)) mod 512 = a - (pa - off mod 512 + 512 * n)) as [-> ->] by (clear -Hin Ho; dlia).
    replace (1 + (off / 512 + n)) with (off / 512 + 1 + n) by lia. rewrite nth_lookup. destruct (lookup_lt_is_Some_2 (sectors d 0 (off / 512 + 1 + n)) (Z.to_nat (a - (pa - off mod 512 + 512 * n)))) as [x Hx]; [rewrite Hl; unfold BSIZE; lia|]. by rewrite Hx.
  - rewrite Hr. unfold seg_start. destruct (decide (pa - off mod 512 ≤ a < pa - off mod 512 + 512 * n)); [by rewrite decide_True by lia|]. by rewrite decide_False by lia.
Qed.

Lemma readseg_spec s pa count off : seg_fits pa count off → good_disk (bt_hw s) →
  (∀ a, seg_start pa off ≤ a < seg_start pa off + 512 * seg_sectors count off → is_Some (bt_mem s !! a)) →
  wp (readseg pa count off) (λ _ s', sectors (bt_hw s') = sectors (bt_hw s) ∧ loaded_range (bt_hw s) pa off (seg_sectors count off) (bt_mem s) (bt_mem s')) s.
Proof using L Hno.
  intros [H1 [H2 H3] H4 H5] Hg Hm. unfold readseg, SECTSIZE. unfold seg_start in H1. assert (0 ≤ off mod 512 < 512) as Ho by (clear -H3; dlia). unfold two32 in H4.
  rewrite (u32_small (pa + count)) by (unfold is_u32, two32; lia). rewrite (u32_small (pa - off mod 512)) by (unfold is_u32, two32; lia). fold (seg_start pa off).
  set (N := seg_sectors count off) in *. assert (0 ≤ N ≤ count / 512 + 2) as HN by (unfold N, seg_sectors; clear -H2 Ho; dlia).
  assert (∀ n, seg_start pa off + 512 * n < pa + count ↔ n < N) as Hlast by (intros n; unfold N, seg_sectors, seg_start; clear -H2 Ho; dlia).
  assert (0 ≤ off / 512) as Hd0 by (clear -H3; dlia).
  eapply (wp_loop (λ k '(p, o) s1, ∃ n, 0 ≤ n ≤ N ∧ k = Z.to_nat (N - n) ∧ p = seg_start pa off + 512 * n ∧ o = off / 512 + 1 + n ∧ sectors (bt_hw s1) = sectors (bt_hw s) ∧ loaded_range (bt_hw s) pa off n (bt_mem s) (bt_mem s1))) with (n := Z.to_nat N).
  - intros k [p o] s1 (n & Hn & -> & -> & -> & Es & Hr). destruct (Z.ltb_spec (seg_start pa off + 512 * n) (pa + count)) as [Hlt|Hge].
    + pose proof (proj1 (Hlast n) Hlt) as HnN. apply wp_bind. assert (good_disk (bt_hw s1)) as Hg1 by (intros x y; rewrite Es; apply Hg).
      wcall (readsect_spec s1 (seg_start pa off + 512 * n) (off / 512 + 1 + n)); [lia| |done|].
      * intros i Hi. unfold BSIZE in Hi. rewrite Hr. case_decide; [by eexists|]. apply Hm. lia.
      * intros [] s2 (E2 & Es2). apply wp_ret. exists (Z.to_nat (N - (n + 1))). split; [lia|]. exists (n + 1). split_and!; [lia|lia|done| | |congruence|].
        -- unfold seg_start in *. rewrite u32_small; [lia|]. unfold is_u32, two32. lia.
        -- rewrite u32_small; [lia|]. unfold is_u32, two32. lia.
        -- rewrite E2, Es. apply loaded_next; [done|done|lia|done].
    + apply wp_ret. split; [done|]. assert (n = N) as <-; [|done]. destruct (decide (n < N)) as [Hx|]; [apply Hlast in Hx; lia|lia].
  - lia.
  - exists 0. split_and!; [lia|lia|by rewrite Z.sub_0_r|lia|lia|done|]. intros a. by rewrite decide_False by lia.
Qed.

(** ** The kernel file *)

Definition kuint (K : Z → Z) (o : Z) : Z := K o + 256 * K (o + 1) + 65536 * K (o + 2) + 16777216 * K (o + 3).
Definition kushort (K : Z → Z) (o : Z) : Z := K o + 256 * K (o + 1).

(** Program header [i]: the segment it describes. *)
Record kseg := mkSeg { sg_off : Z; sg_pa : Z; sg_filesz : Z; sg_memsz : Z }.
Definition seg_at (K : Z → Z) (i : nat) : kseg :=
  let ph := kuint K 28 + 32 * Z.of_nat i in mkSeg (kuint K (ph + 4)) (kuint K (ph + 12)) (kuint K (ph + 16)) (kuint K (ph + 20)).
Definition nsegs (K : Z → Z) : nat := Z.to_nat (kushort K 44).

(** A header that has nothing to load, as [GNU_STACK] has not. *)
Definition empty_seg (g : kseg) : Prop := sg_filesz g = 0 ∧ sg_memsz g = 0 ∧ sg_off g mod 512 = 0.
#[local] Instance empty_seg_dec g : Decision (empty_seg g).
Proof using Type. unfold empty_seg. apply _. Defined.

(** The headers lie in the page read first; the segments that are not empty
    lie above it, in memory that exists, each behind the ones before it. *)
Record kernel_ok (K : Z → Z) (top : Z) : Prop := {
  ko_magic : kuint K 0 = ELF_MAGIC;
  ko_heads : 0 ≤ kushort K 44 ∧ 0 ≤ kuint K 28 ∧ kuint K 28 + 32 * kushort K 44 ≤ 4096;
  ko_seg : ∀ i, (i < nsegs K)%nat → let g := seg_at K i in ¬ empty_seg g → seg_fits (sg_pa g) (sg_filesz g) (sg_off g) ∧ sg_filesz g ≤ sg_memsz g ∧
    69632 ≤ seg_start (sg_pa g) (sg_off g) ∧ sg_pa g + sg_memsz g + 512 ≤ top;
  ko_order : ∀ i j, (i < j < nsegs K)%nat → ¬ empty_seg (seg_at K i) → ¬ empty_seg (seg_at K j) → sg_pa (seg_at K i) + sg_memsz (seg_at K i) ≤ seg_start (sg_pa (seg_at K j)) (sg_off (seg_at K j));
  ko_top : 69632 ≤ top < two32
}.

(** What is in memory once the first [n] segments are loaded. *)
Definition in_place (K : Z → Z) (g : kseg) (m : bmem) : Prop :=
  ∀ k, 0 ≤ k < sg_memsz g → m !! (sg_pa g + k) = Some (if Z.ltb k (sg_filesz g) then K (sg_off g + k) else 0).
Record booted (K : Z → Z) (top : Z) (n : nat) (m : bmem) : Prop := {
  bo_heads : ∀ o, 0 ≤ o < 4096 → m !! (65536 + o) = Some (K o);
  bo_mem : ∀ a, 65536 ≤ a < top → is_Some (m !! a);
  bo_segs : ∀ i, (i < n)%nat → in_place K (seg_at K i) m
}.

Lemma ld_uint_spec s K a o Q : (∀ i, 0 ≤ i < 4 → bt_mem s !! (a + i) = Some (K (o + i))) → Q (kuint K o) s → wp (on_mem (ld_uint a)) Q s.
Proof using Type.
  intros H HQ. pose proof (H 0 ltac:(lia)) as H0. rewrite !Z.add_0_r in H0. unfold on_mem. apply wp_zoom. unfold ld_uint.
  apply wp_bind. eapply wp_eq; [exact (ld8_run _ _ _ H0)|]. apply wp_bind. eapply wp_eq; [exact (ld8_run _ _ _ (H 1 ltac:(lia)))|].
  apply wp_bind. eapply wp_eq; [exact (ld8_run _ _ _ (H 2 ltac:(lia)))|]. apply wp_bind. eapply wp_eq; [exact (ld8_run _ _ _ (H 3 ltac:(lia)))|].
  apply wp_ret. by destruct s.
Qed.

Lemma ld_ushort_spec s K a o Q : (∀ i, 0 ≤ i < 2 → bt_mem s !! (a + i) = Some (K (o + i))) → Q (kushort K o) s → wp (on_mem (ld_ushort a)) Q s.
Proof using Type.
  intros H HQ. pose proof (H 0 ltac:(lia)) as H0. rewrite !Z.add_0_r in H0. unfold on_mem. apply wp_zoom. unfold ld_ushort.
  apply wp_bind. eapply wp_eq; [exact (ld8_run _ _ _ H0)|]. apply wp_bind. eapply wp_eq; [exact (ld8_run _ _ _ (H 1 ltac:(lia)))|].
  apply wp_ret. by destruct s.
Qed.

(** A header field is still where the first page was read. *)
Lemma head_uint s K top n o Q : booted K top n (bt_mem s) → 0 ≤ o ≤ 4092 → Q (kuint K o) s → wp (on_mem (ld_uint (65536 + o))) Q s.
Proof using Type. intros B Ho. apply ld_uint_spec. intros i Hi. rewrite <-Z.add_assoc. apply (bo_heads _ _ _ _ B). lia. Qed.

(** The segments in place are not touched above where they end. *)
Lemma in_place_below K top n m m' i : kernel_ok K top → (i < n < nsegs K)%nat → ¬ empty_seg (seg_at K n) →
  (∀ a, a < seg_start (sg_pa (seg_at K n)) (sg_off (seg_at K n)) → m' !! a = m !! a) → in_place K (seg_at K i) m → in_place K (seg_at K i) m'.
Proof using Type.
  intros KO Hi Hn Hlo Hp k Hk. destruct (decide (empty_seg (seg_at K i))) as [(_ & E & _)|Hne]; [lia|].
  rewrite Hlo; [by apply Hp|]. pose proof (ko_order _ _ KO i n ltac:(lia) Hne Hn). lia.
Qed.

(** Reading a segment and clearing what the file does not fill. *)
Lemma segment_mem K d top n m m1 m2 g : (∀ o, kb d o = K o) → kernel_ok K top → (n < nsegs K)%nat → g = seg_at K n → ¬ empty_seg g → booted K top n m →
  loaded_range d (sg_pa g) (sg_off g) (seg_sectors (sg_filesz g) (sg_off g)) m m1 →
  (∀ a, m2 !! a = if decide (sg_pa g + sg_filesz g ≤ a < sg_pa g + sg_memsz g) then Some 0 else m1 !! a) → booted K top (S n) m2.
Proof using Type.
  intros HK KO Hn -> Hne B Hr H2. set (g := seg_at K n) in *. destruct (ko_seg _ _ KO n Hn Hne) as (F & Hle & Hlow & Htop). fold g in F, Hle, Hlow, Htop.
  destruct F as [F1 [F2 F3] F4 F5]. unfold loaded_range in Hr.
  assert (0 ≤ sg_off g mod 512 < 512) as Ho by (clear -F3; dlia).
  assert (sg_filesz g + sg_off g mod 512 ≤ 512 * seg_sectors (sg_filesz g) (sg_off g) < sg_filesz g + sg_off g mod 512 + 512) as Hsec by (unfold seg_sectors; clear -F2 Ho; dlia).
  assert (∀ a, a < seg_start (sg_pa g) (sg_off g) → m2 !! a = m !! a) as Hlo.
  { intros a Ha. rewrite H2, decide_False by (unfold seg_start in Ha; lia). rewrite Hr, decide_False by lia. done. }
  split.
  - intros o Hoo. rewrite Hlo by lia. by apply (bo_heads _ _ _ _ B).
  - intros a Ha. rewrite H2. case_decide; [by eexists|]. rewrite Hr. case_decide; [by eexists|]. by apply (bo_mem _ _ _ _ B).
  - intros i Hi. destruct (decide (i = n)) as [->|Hin]; [|eapply (in_place_below K top n m); [done|lia|done|done|apply (bo_segs _ _ _ _ B); lia]].
    intros k Hk. fold g in Hk |- *. rewrite H2. destruct (Z.ltb_spec k (sg_filesz g)) as [Hlt|Hge]; [|by rewrite decide_True by lia].
    rewrite decide_False by lia. rewrite Hr, decide_True by (unfold seg_start; lia). rewrite HK. do 2 f_equal. lia.
Qed.

(** Nothing is read for an empty header. *)
Lemma readseg_empty s pa off : off mod 512 = 0 → readseg pa 0 off s = Ok (tt, s).
Proof using Type. intros E. unfold readseg, SECTSIZE. rewrite E, Z.add_0_r, Z.sub_0_r. apply loop_inr. by rewrite Z.ltb_irrefl. Qed.

Lemma load_one s K top n : good_disk (bt_hw s) → (∀ o, kb (bt_hw s) o = K o) → kernel_ok K top → (n < nsegs K)%nat → booted K top n (bt_mem s) →
  let g := seg_at K n in
  wp (readseg (sg_pa g) (sg_filesz g) (sg_off g)) (λ _ s1, booted K top n (bt_mem s1) ∧ sectors (bt_hw s1) = sectors (bt_hw s) ∧
    wp (if Z.ltb (sg_filesz g) (sg_memsz g) then on_mem (stosb (u32 (sg_pa g + sg_filesz g)) 0 (Z.to_nat (sg_memsz g - sg_filesz g))) else mret tt)
      (λ _ s2, booted K top (S n) (bt_mem s2) ∧ sectors (bt_hw s2) = sectors (bt_hw s)) s1) s.
Proof using L Hno.
  intros Hg HK KO Hn B g. destruct (decide (empty_seg g)) as [(Z1 & Z2 & Z3)|Hne].
  { rewrite Z1, Z2. eapply wp_eq; [by apply readseg_empty|]. split_and!; [done|done|]. apply wp_ret. split; [|done]. destruct B as [B1 B2 B3]. split; [done|done|].
    intros i Hi. destruct (decide (i = n)) as [->|]; [|apply B3; lia]. fold g. intros k Hk. lia. }
  destruct (ko_seg _ _ KO n Hn Hne) as (F & Hle & Hlow & Htop). fold g in F, Hle, Hlow, Htop. pose proof F as [F1 [F2 F3] F4 F5]. pose proof (ko_top _ _ KO) as Ht. unfold two32 in *.
  assert (0 ≤ sg_off g mod 512 < 512) as Ho by (clear -F3; dlia).
  assert (sg_filesz g + sg_off g mod 512 ≤ 512 * seg_sectors (sg_filesz g) (sg_off g) < sg_filesz g + sg_off g mod 512 + 512) as Hsec by (unfold seg_sectors; clear -F2 Ho; dlia).
  wcall (readseg_spec s (sg_pa g) (sg_filesz g) (sg_off g) F Hg).
  { intros a Ha. apply (bo_mem _ _ _ _ B). unfold seg_start in Ha, Hlow. lia. }
  intros [] s1 (Es & Hr). split_and!; [|done|].
  - unfold loaded_range in Hr. split.
    + intros o Hoo. rewrite Hr, decide_False by lia. by apply (bo_heads _ _ _ _ B).
    + intros a Ha. rewrite Hr. case_decide; [by eexists|by apply (bo_mem _ _ _ _ B)].
    + intros i Hi. eapply (in_place_below K top n (bt_mem s)); [done|lia|done| |by apply (bo_segs _ _ _ _ B)]. intros a Ha. fold g in Ha. by rewrite Hr, decide_False by lia.
  - destruct (Z.ltb_spec (sg_filesz g) (sg_memsz g)) as [Hlt|Hge].
    + unfold on_mem. apply wp_zoom. rewrite u32_small by (unfold is_u32, two32, seg_start in *; lia). eapply wp_eq; [apply stosb_run|].
      * intros i Hi. rewrite Hr. case_decide; [by eexists|]. apply (bo_mem _ _ _ _ B). unfold seg_start in *. lia.
      * split; [|done]. cbn [bt_mem set_bt_mem]. eapply (segment_mem K (bt_hw s) top n _ _ _ g HK KO Hn eq_refl Hne B Hr). intros a. rewrite write_bytes_lookup, length_replicate. change (0 mod 256) with 0.
        destruct (decide (sg_pa g + sg_filesz g ≤ a < sg_pa g + sg_memsz g)); [rewrite decide_True by lia; by rewrite lookup_replicate_2 by lia|by rewrite decide_False by lia].
    + apply wp_ret. split; [|done]. eapply (segment_mem K (bt_hw s) top n _ _ _ g HK KO Hn eq_refl Hne B Hr). intros a. by rewrite decide_False by lia.
Qed.

(** C22: The boot loader loads the kernel.  The kernel file starts at sector
    1 of the disk.  When its first word is the ELF magic number and its
    headers describe segments that are empty or lie in memory above the
    scratch page, in increasing order, [bootmain] jumps to the entry point of the header with
    every segment in place: its bytes of the file at its physical address,
    then zeroes up to its size in memory.  When the magic number is missing,
    [bootmain] returns. *)
Theorem bootmain_loads_kernel s top (K := kb (bt_hw s)) :
  good_disk (bt_hw s) → (∀ a, 65536 ≤ a < top → is_Some (bt_mem s !! a)) → 69632 ≤ top → (kuint K 0 = ELF_MAGIC → kernel_ok K top) →
  wp bootmain (λ r s', if decide (kuint K 0 = ELF_MAGIC)
    then r = Some (kuint K 24) ∧ ∀ i, (i < nsegs K)%nat → in_place K (seg_at K i) (bt_mem s')
    else r = None) s.
Proof using L Hno.
  intros Hg Hm Htop HKO. unfold bootmain, ELF_SCRATCH. apply wp_bind.
  assert (seg_fits 65536 4096 0) as F0 by (by split). assert (seg_sectors 4096 0 = 8) as E8 by reflexivity. assert (seg_start 65536 0 = 65536) as E0 by reflexivity.
  wcall (readseg_spec s 65536 4096 0 F0 Hg); rewrite ?E8, ?E0; [intros a Ha; apply Hm; lia|]. intros [] s1 (Es1 & Hr1). unfold loaded_range in Hr1. rewrite E0 in Hr1. change (512 * 8) with 4096 in Hr1.
  assert (booted K top 0 (bt_mem s1)) as B1.
  { split; [|intros a Ha; rewrite Hr1; case_decide; [by eexists|by apply Hm]|lia]. intros o Ho. rewrite Hr1, decide_True by lia. unfold K. do 2 f_equal. lia. }
  apply wp_bind. replace 65536 with (65536 + 0) at 1 by lia. eapply head_uint; [exact B1|lia|].
  destruct (decide (kuint K 0 = ELF_MAGIC)) as [Em|Em]; [|rewrite (proj2 (Z.eqb_neq _ _)) by done; by apply wp_ret].
  rewrite Em, Z.eqb_refl. cbn [negb]. pose proof (HKO Em) as KO. destruct (ko_heads _ _ KO) as (H1 & H2 & H3).
  apply wp_bind. eapply head_uint; [exact B1|lia|]. apply wp_bind. eapply (ld_ushort_spec s1 K _ 44).
  { intros i Hi. rewrite <-Z.add_assoc. apply (bo_heads _ _ _ _ B1). lia. }
  set (phoff := kuint K 28) in *. set (phnum := kushort K 44) in *. rewrite (u32_small (65536 + phoff)) by (unfold is_u32, two32; lia). rewrite u32_small by (unfold is_u32, two32; lia).
  assert (nsegs K = Z.to_nat phnum) as Ens by done. apply wp_bind.
  eapply wp_mono; [eapply (wp_loop (λ k ph s2, ∃ n, (n ≤ nsegs K)%nat ∧ k = (nsegs K - n)%nat ∧ ph = 65536 + phoff + 32 * Z.of_nat n ∧ sectors (bt_hw s2) = sectors (bt_hw s) ∧ booted K top n (bt_mem s2))) with (n := nsegs K)
    (Q := λ _ s2, booted K top (nsegs K) (bt_mem s2))|].
  - intros k ph s2 (n & Hn & -> & -> & Es & B). destruct (Z.ltb_spec (65536 + phoff + 32 * Z.of_nat n) (65536 + phoff + 32 * phnum)) as [Hlt|Hge].
    + assert (n < nsegs K)%nat as Hn' by lia. assert (∀ c, 65536 + phoff + 32 * Z.of_nat n + c = 65536 + (phoff + 32 * Z.of_nat n + c)) as Eph by (intros c; lia).
      assert (good_disk (bt_hw s2)) as Hg2 by (intros x y; rewrite Es; apply Hg). assert (∀ o, kb (bt_hw s2) o = K o) as HK2 by (intros o; by apply kb_same).
      apply wp_bind. rewrite Eph. eapply head_uint; [exact B|lia|]. apply wp_bind. rewrite Eph. eapply head_uint; [exact B|lia|]. apply wp_bind. rewrite Eph. eapply head_uint; [exact B|lia|].
      apply wp_bind. pose proof (load_one s2 K top n Hg2 HK2 KO Hn' B) as HL. cbv zeta in HL. unfold seg_at in HL at 1 2 3. cbn [sg_pa sg_filesz sg_off] in HL. fold phoff in HL. wcall HL. clear HL.
      intros [] s3 (B3 & Es3 & HS). apply wp_bind. rewrite Eph. eapply head_uint; [exact B3|lia|]. apply wp_bind. rewrite Eph. eapply head_uint; [exact B3|lia|].
      apply wp_bind. unfold seg_at in HS. cbn [sg_pa sg_filesz sg_memsz] in HS. fold phoff in HS. wcall HS. intros [] s4 (B4 & Es4). apply wp_ret.
      exists (nsegs K - S n)%nat. split; [lia|]. exists (S n). split_and!; [lia|done|rewrite u32_small; [lia|unfold is_u32, two32; lia]|congruence|done].
    + apply wp_ret. assert (n = nsegs K) as <- by lia. done.
  - lia.
  - exists 0%nat. split_and!; [lia|lia|lia|done|done].
  - intros [] s2 B. apply wp_bind. eapply head_uint; [exact B|lia|]. apply wp_ret. split; [done|]. apply (bo_segs _ _ _ _ B).
Qed.
End boot.

(** ** A kernel of one segment *)

(** Ten bytes of code at 73812, twenty bytes in memory. *)
Definition tiny_kernel : block :=
  [127; 69; 76; 70] ++ replicate 20 0 ++ [84; 32; 1; 0] ++ [52; 0; 0; 0] ++ replicate 12 0 ++ [1; 0] ++ replicate 6 0 ++
  [1; 0; 0; 0] ++ [84; 0; 0; 0] ++ [84; 32; 1; 0] ++ [84; 32; 1; 0] ++ [10; 0; 0; 0] ++ [20; 0; 0; 0] ++ replicate 8 0 ++
  replicate 10 9 ++ replicate 418 0.
Definition boot_hw : ctl := mkCtl {[ (0, 1) := tiny_kernel ]} ∅ Idle false.
Definition boot_sample : boot ctl := mkBoot (gset_to_gmap 0 (list_to_set (seqZ 65536 20000))) boot_hw.

Lemma bootmain_loads_kernel_witness :
  wp bootmain (λ r s', r = Some 73812 ∧ bt_mem s' !! 73820 = Some 9 ∧ bt_mem s' !! 73830 = Some 0) boot_sample.
Proof.
  assert (good_disk boot_hw) as Hg.
  { intros x y. change (sectors boot_hw x y) with (c_sector boot_hw x y). unfold c_sector. cbn [boot_hw c_sectors]. destruct (decide ((x, y) = (0, 1))) as [E|E].
    - rewrite E, lookup_singleton_eq. split; [reflexivity|]. unfold is_byte. cbn [default]. apply Forall_forall. intros b Hb. assert (forallb (λ b, Z.leb 0 b && Z.ltb b 256) tiny_kernel = true) as Hall by reflexivity.
      rewrite forallb_forall in Hall. specialize (Hall b ltac:(by apply list_elem_of_In)). apply andb_true_iff in Hall as [H1%Z.leb_le H2%Z.ltb_lt]. lia.
    - rewrite lookup_singleton_ne by done. split; [reflexivity|]. apply Forall_replicate. unfold is_byte. lia. }
  assert (∀ a, 65536 ≤ a < 80000 → is_Some (bt_mem boot_sample !! a)) as Hm.
  { intros a Ha. exists 0. unfold boot_sample. cbn [bt_mem]. apply lookup_gset_to_gmap_Some. split; [|done]. apply elem_of_list_to_set, elem_of_seqZ. lia. }
  assert (nsegs (kb boot_hw) = 1%nat) as En by reflexivity. assert (seg_at (kb boot_hw) 0 = mkSeg 84 73812 10 20) as E0 by (vm_compute; reflexivity).
  assert (kernel_ok (kb boot_hw) 80000) as KO.
  { split; [reflexivity|vm_compute; intuition congruence| | |unfold two32; lia].
    - intros i Hi g _. subst g. rewrite En in Hi. assert (i = 0%nat) as -> by lia. rewrite E0. cbn [sg_pa sg_filesz sg_off sg_memsz]. split_and!; [|vm_compute; congruence..]. split; vm_compute; intuition congruence.
    - intros i j Hij. rewrite En in Hij. lia. }
  assert (∀ d : ctl, failed d = false) as Hno by (intros d; reflexivity).
  wcall (bootmain_loads_kernel Hno boot_sample 80000 Hg Hm); [lia|intros _; exact KO|].
  intros r s'. change (bt_hw boot_sample) with boot_hw. rewrite decide_True by reflexivity. intros [-> H]. specialize (H 0%nat ltac:(rewrite En; lia)). rewrite E0 in H. split; [reflexivity|].
  split; [exact (H 8 ltac:(simpl; lia))|exact (H 18 ltac:(simpl; lia))].
Defined.

Close Scope Z_scope.
