(* ===== verification/Mp.v ===== *)
(** * Finding the processors ([src/xv6-public/mp.c], [mp.h])

    The search for the floating pointer and the configuration table in the
    byte memory, and [mpinit], which walks the entries of the table.  The
    loop of [mpinit] runs on fuel: [default: break] leaves the [switch] and
    not the loop, so an entry of another type is looked at for ever. *)

From S2P Require Import Prelude.
From S2P Require Import Strings.
From S2P Require Import Spinlock.
From S2P Require Import Kalloc.
From S2P Require Import Bio.
From S2P Require Import Ide.
From S2P Require Import Boot.

Open Scope Z_scope.

Definition MPPROC : Z := 0.
Definition MPBUS : Z := 1.
Definition MPIOAPIC : Z := 2.
Definition MPIOINTR : Z := 3.
Definition MPLINTR : Z := 4.

(** ** The search *)

(** [memcmp(p, l, n) == 0] for a string [l] of [n] characters. *)
Fixpoint mem_is (p : Z) (l : list Z) : M bmem bool :=
  match l with
  | [] => mret true
  | b :: l => v ← ld8 p; if negb (Z.eqb v b) then mret false else mem_is (p + 1) l
  end.

(** [sum(addr, len)], an [uchar]. *)
Fixpoint mp_sum (addr : Z) (len : nat) (sum : Z) : M bmem Z :=
  match len with
  | O => mret (sum mod 256)
  | S len => v ← ld8 addr; mp_sum (addr + 1) len (sum + v)
  end.

Definition MP_SIG : list Z := [95; 77; 80; 95].      (* _MP_ *)
Definition PCMP_SIG : list Z := [80; 67; 77; 80].    (* PCMP *)

(** The test of a place; [&&] does not look at the sum of other bytes. *)
Definition mp_here (p : Z) : M bmem bool :=
  b ← mem_is p MP_SIG;
  if b : bool then s ← mp_sum p 16 0; mret (Z.eqb s 0) else mret false.

Definition mpsearch1 (a len : Z) : M bmem Z :=
  let addr := P2V a in
  let e := addr + len in
  loop (S (Z.to_nat len)) (λ p,
    if Z.ltb p e then
      b ← mp_here p;
      if b : bool then mret (inr p) else mret (inl (p + 16))
    else mret (inr 0)) addr.

Definition mpsearch : M bmem Z :=
  let bda := P2V 1024 in
  b15 ← ld8 (bda + 15);
  b14 ← ld8 (bda + 14);
  let p := Z.shiftl (Z.lor (Z.shiftl b15 8) b14) 4 in
  mp ← (if negb (Z.eqb p 0) then mpsearch1 p 1024
        else
          b20 ← ld8 (bda + 20);
          b19 ← ld8 (bda + 19);
          mpsearch1 (u32 (Z.lor (Z.shiftl b20 8) b19 * 1024 - 1024)) 1024);
  if negb (Z.eqb mp 0) then mret mp else mpsearch1 983040 65536.

(** The table and [*pmp]. *)
Definition mpconfig : M bmem (option (Z * Z)) :=
  mp ← mpsearch;
  if Z.eqb mp 0 then mret None
  else
    physaddr ← ld_uint (mp + 4);
    if Z.eqb physaddr 0 then mret None
    else
      let conf := P2V physaddr in
      b ← mem_is conf PCMP_SIG;
      if negb b then mret None
      else
        version ← ld8 (conf + 6);
        if negb (Z.eqb version 1) && negb (Z.eqb version 4) then mret None
        else
          length ← ld_ushort (conf + 4);
          s ← mp_sum conf (Z.to_nat length) 0;
          if negb (Z.eqb s 0) then mret None else mret (Some (conf, mp)).

(** ** [mpinit] *)

(** [mp_cpus] are the [apicid]s of [cpus], the first [ncpu] of them. *)
Record mpst (D : Type) := mkMp { mp_mem : bmem; mp_hw : D; mp_cpus : list Z; mp_ioapicid : Z; mp_lapic : Z }.
#[global] Arguments mkMp {_} _ _ _ _ _.
#[global] Arguments mp_mem {_} _.
#[global] Arguments mp_hw {_} _.
#[global] Arguments mp_cpus {_} _.
#[global] Arguments mp_ioapicid {_} _.
#[global] Arguments mp_lapic {_} _.

Section mp.
Context {D : Type} {P : IdePorts D}.
Abbreviation MM := (M (mpst D)).

Definition set_mp_mem (v : bmem) (s : mpst D) : mpst D := mkMp v (mp_hw s) (mp_cpus s) (mp_ioapicid s) (mp_lapic s).
Definition set_mp_hw (v : D) (s : mpst D) : mpst D := mkMp (mp_mem s) v (mp_cpus s) (mp_ioapicid s) (mp_lapic s).
Definition set_mp_cpus (v : list Z) (s : mpst D) : mpst D := mkMp (mp_mem s) (mp_hw s) v (mp_ioapicid s) (mp_lapic s).
Definition set_mp_ioapicid (v : Z) (s : mpst D) : mpst D := mkMp (mp_mem s) (mp_hw s) (mp_cpus s) v (mp_lapic s).
Definition set_mp_lapic (v : Z) (s : mpst D) : mpst D := mkMp (mp_mem s) (mp_hw s) (mp_cpus s) (mp_ioapicid s) v.
Definition at_mem {A} : M bmem A → MM A := zoom mp_mem set_mp_mem.
Definition at_hw {A} : M D A → MM A := zoom mp_hw set_mp_hw.

(** An entry of the table: where the next one is, and [ismp]. *)
Definition mp_entry (p : Z) (ismp : bool) : MM (Z * bool) :=
  t ← at_mem (ld8 p);
  if Z.eqb t MPPROC then
    cpus ← gets mp_cpus;
    (if (length cpus <? NCPU)%nat then
       apicid ← at_mem (ld8 (p + 1));
       modify (λ s, set_mp_cpus (mp_cpus s ++ [apicid]) s)
     else mret tt);;
    mret (p + 20, ismp)
  else if Z.eqb t MPIOAPIC then
    apicno ← at_mem (ld8 (p + 1));
    modify (set_mp_ioapicid apicno);;
    mret (p + 8, ismp)
  else if Z.eqb t MPBUS || Z.eqb t MPIOINTR || Z.eqb t MPLINTR then mret (p + 8, ismp)
  else mret (p, false).

Definition mpinit (fuel : nat) : MM unit :=
  c ← at_mem mpconfig;
  match c with
  | None => panic "Expect to run on an SMP"
  | Some (conf, mp) =>
      lapicaddr ← at_mem (ld_uint (conf + 36));
      modify (set_mp_lapic lapicaddr);;
      length ← at_mem (ld_ushort (conf + 4));
      let e := conf + length in
      ismp ← loop fuel (λ '(p, ismp),
        if Z.ltb p e then x ← mp_entry p ismp; mret (inl x) else mret (inr ismp)) (conf + 44, true);
      if negb ismp then panic "Didn't find a suitable machine"
      else
        imcrp ← at_mem (ld8 (mp + 12));
        if negb (Z.eqb imcrp 0) then
          at_hw (outb 34 112);;
          v ← at_hw (inb 35);
          at_hw (outb 35 (Z.lor v 1))
        else mret tt
  end.
End mp.

(** ** What is found *)

Lemma mem_is_spec m p l : (∀ i, (i < length l)%nat → is_Some (m !! (p + Z.of_nat i))) →
  ∃ b, mem_is p l m = Ok (b, m) ∧ (b = true ↔ bytes_at m p l).
Proof.
  revert p. induction l as [|x l IH]; intros p Hm; [exists true; split; [done|]; split; [|done]; intros _ i y; by rewrite lookup_nil|].
  cbn [mem_is]. destruct (Hm 0%nat ltac:(simpl; lia)) as [v Hv]. rewrite Z.add_0_r in Hv. rewrite (bind_ok _ _ _ _ _ (ld8_run _ _ _ Hv)).
  destruct (Z.eqb_spec v x) as [->|Hne]; cbn [negb].
  - destruct (IH (p + 1)) as (b & Hb & E). { intros i Hi. replace (p + 1 + Z.of_nat i) with (p + Z.of_nat (S i)) by lia. apply Hm. simpl. lia. }
    exists b. split; [done|]. rewrite E. split; [|by intros [_ ?]%bytes_at_cons]. intros H [|i] y; [intros [= <-]; by rewrite Z.add_0_r|].
    cbn [lookup list_lookup]. intros Hy. replace (p + Z.of_nat (S i)) with (p + 1 + Z.of_nat i) by lia. by apply H.
  - exists false. split; [done|]. split; [done|]. intros [E _]%bytes_at_cons. congruence.
Qed.

Definition byte_in (m : bmem) (a : Z) : Z := default 0 (m !! a).
Fixpoint bsum (m : bmem) (a : Z) (n : nat) : Z := match n with O => 0 | S n => byte_in m a + bsum m (a + 1) n end.

Lemma mp_sum_spec m n : ∀ a acc, mapped m a n → mp_sum a n acc m = Ok ((acc + bsum m a n) mod 256, m).
Proof.
  induction n as [|n IH]; intros a acc Hm; [cbn [mp_sum bsum]; by rewrite Z.add_0_r|]. apply mapped_S in Hm as [[v Hv] Hm]. cbn [mp_sum bsum].
  rewrite (bind_ok _ _ _ _ _ (ld8_run _ _ _ Hv)), IH by done. unfold byte_in. rewrite Hv. cbn [default]. by rewrite Z.add_assoc.
Qed.

(** A floating pointer: its signature, and bytes that add up to 0. *)
Definition is_mp (m : bmem) (p : Z) : Prop := bytes_at m p MP_SIG ∧ bsum m p 16 mod 256 = 0.

Lemma mp_here_spec m p : mapped m p 16 → ∃ b, mp_here p m = Ok (b, m) ∧ (b = true ↔ is_mp m p).
Proof.
  intros Hm. unfold mp_here. destruct (mem_is_spec m p MP_SIG) as (b & Hb & E); [intros i Hi; apply Hm; simpl in Hi; lia|]. rewrite (bind_ok _ _ _ _ _ Hb).
  unfold is_mp. destruct b; [|exists false; split; [done|]; split; [done|by intros [?%E _]]]. rewrite (bind_ok _ _ _ _ _ (mp_sum_spec m 16 p 0 Hm)).
  exists (Z.eqb ((0 + bsum m p 16) mod 256) 0). split; [done|]. rewrite Z.eqb_eq, Z.add_0_l. split; [intros H; split; [by apply E|done]|by intros [_ H]].
Qed.

(** [mpsearch1] returns the first place, in steps of 16 bytes, where a
    floating pointer is, and null when there is none. *)
Theorem mpsearch1_finds_first m a len : 0 ≤ len → mapped m (P2V a) (Z.to_nat len + 15) → 0 < P2V a →
  wp (mpsearch1 a len) (λ r m', m' = m ∧
    ((∃ k, 0 ≤ k ∧ 16 * k < len ∧ r = P2V a + 16 * k ∧ is_mp m r ∧ ∀ j, 0 ≤ j < k → ¬ is_mp m (P2V a + 16 * j)) ∨
     (r = 0 ∧ ∀ j, 0 ≤ j → 16 * j < len → ¬ is_mp m (P2V a + 16 * j)))) m.
Proof.
  intros Hlen Hm Ha. unfold mpsearch1. set (b := P2V a) in *.
  eapply (wp_loop (λ n p m', ∃ k, 0 ≤ k ∧ p = b + 16 * k ∧ m' = m ∧ n = Z.to_nat (len - 16 * k) ∧ ∀ j, 0 ≤ j < k → ¬ is_mp m (b + 16 * j))) with (n := Z.to_nat len); [|lia|].
  - intros n p m' (k & Hk & -> & -> & -> & Hno). destruct (Z.ltb_spec (b + 16 * k) (b + len)) as [Hlt|Hge].
    + apply wp_bind. destruct (mp_here_spec m (b + 16 * k)) as (x & Hx & E).
      { intros i Hi. replace (b + 16 * k + Z.of_nat i) with (b + Z.of_nat (Z.to_nat (16 * k) + i)) by lia. apply Hm. lia. }
      eapply wp_eq; [exact Hx|]. destruct x.
      * apply wp_ret. split; [done|]. left. exists k. split_and!; [done|lia|done|by apply E|done].
      * apply wp_ret. exists (Z.to_nat (len - 16 * (k + 1))). split; [lia|]. exists (k + 1). split_and!; [lia|lia|done|done|].
        intros j Hj. destruct (decide (j = k)) as [->|]; [by intros ?%E|apply Hno; lia].
    + apply wp_ret. split; [done|]. right. split; [done|]. intros j Hj1 Hj2. apply Hno. lia.
  - exists 0. split_and!; [lia|lia|done|by rewrite Z.sub_0_r|lia].
Qed.

(** The search does not change the memory. *)
Definition looks {A} (m : M bmem A) : Prop := ∀ s r s', m s = Ok (r, s') → s' = s.
Lemma looks_ret {A} (a : A) : looks (mret a).
Proof. by intros s r s' [= _ <-]. Qed.
Lemma looks_ld8 a : looks (ld8 a).
Proof. intros s r s'. unfold ld8, mbind, M_bind, gets. simpl. destruct (s !! a); [by intros [= _ <-]|done]. Qed.
Lemma looks_bind {A B} (m : M bmem A) (k : A → M bmem B) : looks m → (∀ a, looks (k a)) → looks (m ≫= k).
Proof. intros Hm Hk s r s'. unfold mbind, M_bind. destruct (m s) as [[a s1]|] eqn:E; [|done]. intros H. by rewrite (Hk _ _ _ _ H), (Hm _ _ _ E). Qed.
Lemma looks_loop {A B} fuel (body : A → M bmem (A + B)) a : (∀ a, looks (body a)) → looks (loop fuel body a).
Proof. intros Hb. revert a. induction fuel as [|fuel IH]; intros a; [by intros ? ? ? [=]|]. apply looks_bind; [done|]. intros [a'|b]; [apply IH|apply looks_ret]. Qed.
Ltac looks :=
  repeat first [apply looks_ret | apply looks_ld8 | apply looks_loop; intros ? | apply looks_bind; [|intros ?]
    | match goal with |- looks (if ?b then _ else _) => destruct b end].
Lemma looks_is p l : looks (mem_is p l).
Proof. revert p. induction l as [|b l IH]; intros p; cbn [mem_is]; looks. apply IH. Qed.
Lemma looks_sum n : ∀ a acc, looks (mp_sum a n acc).
Proof. induction n as [|n IH]; intros a acc; cbn [mp_sum]; looks. apply IH. Qed.
Lemma looks_search a len : looks (mpsearch1 a len).
Proof. unfold mpsearch1, mp_here. looks; apply looks_is || apply looks_sum. Qed.
Lemma looks_config : looks mpconfig.
Proof. unfold mpconfig, mpsearch, ld_uint, ld_ushort. looks; apply looks_is || apply looks_sum || apply looks_search. Qed.

(** ** The table *)

Inductive mpentry :=
| EProc (apicid : Z) (rest : list Z)       (* 18 bytes *)
| EIoapic (apicno : Z) (rest : list Z)     (* 6 bytes *)
| EOther (t : Z) (rest : list Z).          (* a bus or an interrupt; 7 bytes *)

Definition entry_bytes (x : mpentry) : list Z :=
  match x with EProc i r => MPPROC :: i :: r | EIoapic i r => MPIOAPIC :: i :: r | EOther t r => t :: r end.
Definition entry_ok (x : mpentry) : Prop :=
  match x with EProc _ r => length r = 18%nat | EIoapic _ r => length r = 6%nat | EOther t r => t ∈ [MPBUS; MPIOINTR; MPLINTR] ∧ length r = 7%nat end.
Definition apicids (es : list mpentry) : list Z := es ≫= λ x, match x with EProc i _ => [i] | _ => [] end.
Definition ioapic_of (es : list mpentry) (old : Z) : Z := foldl (λ v x, match x with EIoapic i _ => i | _ => v end) old es.

Section mpinit.
Context {D : Type} {P : IdePorts D}.
Implicit Types s : mpst D.

Definition after_entry (x : mpentry) (s : mpst D) : mpst D :=
  match x with
  | EProc i _ => if (length (mp_cpus s) <? NCPU)%nat then set_mp_cpus (mp_cpus s ++ [i]) s else s
  | EIoapic i _ => set_mp_ioapicid i s
  | EOther _ _ => s
  end.

Lemma at_mem_ld8 s a v : mp_mem s !! a = Some v → at_mem (ld8 a) s = Ok (v, s).
Proof using Type. intros H. unfold at_mem, zoom. rewrite (ld8_run _ _ _ H). by destruct s. Qed.

Lemma mp_entry_run s p b x l : entry_ok x → bytes_at (mp_mem s) p (entry_bytes x ++ l) →
  mp_entry p b s = Ok ((p + Z.of_nat (length (entry_bytes x)), b), after_entry x s).
Proof using Type.
  intros Hok Hb. assert (∀ i v, entry_bytes x !! i = Some v → mp_mem s !! (p + Z.of_nat i) = Some v) as H by (intros i v Hv; apply Hb; by apply lookup_app_l_Some).
  unfold mp_entry. destruct x as [i r|i r|t r]; cbn [entry_bytes after_entry] in *.
  - pose proof (H 0%nat MPPROC eq_refl) as H0. pose proof (H 1%nat i eq_refl) as H1. change (Z.of_nat 1) with 1 in H1. rewrite Z.add_0_r in H0. rewrite (bind_ok _ _ _ _ _ (at_mem_ld8 _ _ _ H0)), Z.eqb_refl.
    cbn [length]. rewrite Hok. unfold mbind at 1, M_bind at 1, gets. destruct (length (mp_cpus s) <? NCPU)%nat; [|done].
    unfold mbind, M_bind. rewrite (at_mem_ld8 _ _ _ H1). done.
  - pose proof (H 0%nat MPIOAPIC eq_refl) as H0. pose proof (H 1%nat i eq_refl) as H1. change (Z.of_nat 1) with 1 in H1. rewrite Z.add_0_r in H0. rewrite (bind_ok _ _ _ _ _ (at_mem_ld8 _ _ _ H0)).
    cbn [length]. rewrite Hok. change (Z.eqb MPIOAPIC MPPROC) with false. cbv iota. rewrite Z.eqb_refl. unfold mbind, M_bind. rewrite (at_mem_ld8 _ _ _ H1). done.
  - pose proof (H 0%nat t eq_refl) as H0. rewrite Z.add_0_r in H0. destruct Hok as [Ht Hl]. rewrite (bind_ok _ _ _ _ _ (at_mem_ld8 _ _ _ H0)). cbn [length]. rewrite Hl.
    rewrite !elem_of_cons, elem_of_nil in Ht. destruct Ht as [->|[->|[->|[]]]]; done.
Qed.

Lemma after_entry_mem x s : mp_mem (after_entry x s) = mp_mem s ∧ mp_lapic (after_entry x s) = mp_lapic s ∧ mp_hw (after_entry x s) = mp_hw s.
Proof using Type. destruct x; simpl; [|done|done]. by destruct (length (mp_cpus s) <? NCPU)%nat. Qed.

(** The walk over the entries. *)
Lemma mp_walk fuel es : ∀ s p e, Forall entry_ok es → bytes_at (mp_mem s) p (concat (entry_bytes <$> es)) → e = p + Z.of_nat (length (concat (entry_bytes <$> es))) →
  (length es < fuel)%nat →
  loop fuel (λ '(p, ismp), if Z.ltb p e then x ← mp_entry p ismp; mret (inl x) else mret (inr ismp)) (p, true) s = Ok (true, foldl (λ s x, after_entry x s) s es).
Proof using Type.
  revert fuel. induction es as [|x es IH]; intros fuel s p e Hok Hb He Hfu; (destruct fuel as [|fuel]; [simpl in Hfu; lia|]).
  - apply loop_inr. simpl in He. rewrite (proj2 (Z.ltb_ge _ _)) by lia. done.
  - apply Forall_cons in Hok as [Hx Hok]. rewrite fmap_cons in Hb, He. cbn [concat] in Hb, He. rewrite length_app in He.
    assert (0 < Z.of_nat (length (entry_bytes x))) by (destruct x; simpl; lia).
    rewrite (loop_inl _ _ _ _ (p + Z.of_nat (length (entry_bytes x)), true) (after_entry x s)).
    + cbn [foldl]. apply IH; [done| |lia|simpl in Hfu; lia]. destruct (after_entry_mem x s) as (-> & _). intros i v Hv.
      replace (p + Z.of_nat (length (entry_bytes x)) + Z.of_nat i) with (p + Z.of_nat (length (entry_bytes x) + i)) by lia. apply Hb.
      rewrite lookup_app_r by lia. by replace (length (entry_bytes x) + i - length (entry_bytes x))%nat with i by lia.
    + rewrite (proj2 (Z.ltb_lt _ _)) by lia. by rewrite (bind_ok _ _ _ _ _ (mp_entry_run s p true x _ Hx Hb)).
Qed.

Lemma foldl_entries es s : (length (mp_cpus s) ≤ NCPU)%nat → let s' := foldl (λ s x, after_entry x s) s es in
  mp_cpus s' = take NCPU (mp_cpus s ++ apicids es) ∧ mp_ioapicid s' = ioapic_of es (mp_ioapicid s) ∧
  mp_mem s' = mp_mem s ∧ mp_lapic s' = mp_lapic s ∧ mp_hw s' = mp_hw s.
Proof using Type.
  revert s. induction es as [|x es IH]; intros s Hl; cbn [foldl]; [cbn; rewrite app_nil_r, take_ge by done; done|].
  destruct (after_entry_mem x s) as (M1 & M2 & M3). assert (length (mp_cpus (after_entry x s)) ≤ NCPU)%nat as Hl'.
  { destruct x; simpl; [|done|done]. destruct (Nat.ltb_spec (length (mp_cpus s)) NCPU); [simpl; rewrite length_app; simpl; lia|done]. }
  destruct (IH _ Hl') as (I1 & I2 & I3 & I4 & I5). cbv zeta. split_and!; [|rewrite I2|congruence..].
  - rewrite I1. destruct x as [i r|i r|t r]; [|done|done]. cbn [after_entry]. change (apicids (EProc i r :: es)) with (i :: apicids es).
    destruct (Nat.ltb_spec (length (mp_cpus s)) NCPU); [simpl; by rewrite <-app_assoc|]. rewrite !take_app_le by lia. done.
  - destruct x as [i r|i r|t r]; try done. cbn [after_entry]. by destruct (length (mp_cpus s) <? NCPU)%nat.
Qed.

(** The configuration table [conf] of the floating pointer [mp]: its length,
    the address of the local APIC, and [es] followed by [rest]. *)
Record mp_table (m : bmem) (conf mp : Z) (lapic : list Z) (es : list mpentry) (rest : list Z) : Prop := {
  tb_conf : mpconfig m = Ok (Some (conf, mp), m);
  tb_entries : Forall entry_ok es;
  tb_bytes : bytes_at m (conf + 44) (concat (entry_bytes <$> es) ++ rest);
  tb_length : ∃ lo hi, bytes_at m (conf + 4) [lo; hi] ∧ lo + 256 * hi = 44 + Z.of_nat (length (concat (entry_bytes <$> es)) + length rest);
  tb_lapic : bytes_at m (conf + 36) lapic ∧ length lapic = 4%nat
}.

Definition uint_of (l : list Z) : Z := foldr (λ b v, b + 256 * v) 0 l.

Lemma at_mem_uint s a l : bytes_at (mp_mem s) a l → length l = 4%nat → at_mem (ld_uint a) s = Ok (uint_of l, s).
Proof using Type.
  intros Hb Hl. destruct l as [|b0 [|b1 [|b2 [|b3 [|]]]]]; try done. pose proof (Hb 0%nat b0 eq_refl) as H0. rewrite Z.add_0_r in H0.
  unfold at_mem, zoom, ld_uint. rewrite (bind_ok _ _ _ _ _ (ld8_run _ _ _ H0)), (bind_ok _ _ _ _ _ (ld8_run _ _ _ (Hb 1%nat b1 eq_refl))),
    (bind_ok _ _ _ _ _ (ld8_run _ _ _ (Hb 2%nat b2 eq_refl))), (bind_ok _ _ _ _ _ (ld8_run _ _ _ (Hb 3%nat b3 eq_refl))).
  unfold mret, M_ret, uint_of. cbn [foldr]. destruct s. cbn [mp_mem set_mp_mem mp_hw mp_cpus mp_ioapicid mp_lapic]. do 2 f_equal. lia.
Qed.
Lemma at_mem_ushort s a lo hi : bytes_at (mp_mem s) a [lo; hi] → at_mem (ld_ushort a) s = Ok (lo + 256 * hi, s).
Proof using Type.
  intros Hb. pose proof (Hb 0%nat lo eq_refl) as H0. rewrite Z.add_0_r in H0. unfold at_mem, zoom, ld_ushort.
  rewrite (bind_ok _ _ _ _ _ (ld8_run _ _ _ H0)), (bind_ok _ _ _ _ _ (ld8_run _ _ _ (Hb 1%nat hi eq_refl))). by destruct s.
Qed.

(** Up to the loop. *)
Lemma mpinit_starts s fuel conf mp lapic es rest : mp_table (mp_mem s) conf mp lapic es rest →
  mpinit fuel s = (ismp ← loop fuel (λ '(p, ismp), if Z.ltb p (conf + 44 + Z.of_nat (length (concat (entry_bytes <$> es)) + length rest)) then x ← mp_entry p ismp; mret (inl x) else mret (inr ismp)) (conf + 44, true);
    if negb ismp then panic "Didn't find a suitable machine"
    else
      imcrp ← at_mem (ld8 (mp + 12));
      if negb (Z.eqb imcrp 0) then at_hw (outb 34 112);; v ← at_hw (inb 35); at_hw (outb 35 (Z.lor v 1)) else mret tt) (set_mp_lapic (uint_of lapic) s).
Proof using Type.
  intros [T1 T2 T3 (lo & hi & T4 & T5) [T6 T7]]. unfold mpinit.
  assert (at_mem mpconfig s = Ok (Some (conf, mp), s)) as E1 by (unfold at_mem, zoom; rewrite T1; by destruct s). rewrite (bind_ok _ _ _ _ _ E1).
  rewrite (bind_ok _ _ _ _ _ (at_mem_uint s _ _ T6 T7)). unfold mbind at 1, M_bind at 1, modify.
  rewrite (bind_ok _ _ _ _ _ (at_mem_ushort (set_mp_lapic (uint_of lapic) s) _ _ _ T4)). rewrite T5, Z.add_assoc. done.
Qed.

(** [mpinit] finds the processors: on a table of entries of the five known
    types it appends the APIC ids of the processor entries to [cpus], up to
    [NCPU] of them, in the order of the table, and takes [ioapicid] from the
    last entry of an I/O APIC and [lapic] from the header. *)
Theorem mpinit_finds_processors s fuel conf mp lapic es :
  mp_table (mp_mem s) conf mp lapic es [] → mp_mem s !! (mp + 12) = Some 0 → (length (mp_cpus s) ≤ NCPU)%nat → (length es < fuel)%nat →
  wp (mpinit fuel) (λ _ s', mp_cpus s' = take NCPU (mp_cpus s ++ apicids es) ∧ mp_ioapicid s' = ioapic_of es (mp_ioapicid s) ∧
    mp_lapic s' = uint_of lapic ∧ mp_mem s' = mp_mem s ∧ mp_hw s' = mp_hw s) s.
Proof using Type.
  intros T Hi Hl Hfu. unfold wp. rewrite (mpinit_starts _ _ _ _ _ _ _ T). destruct T as [_ T2 T3 _ _]. rewrite app_nil_r in T3.
  set (s1 := set_mp_lapic (uint_of lapic) s). erewrite bind_ok; [|apply (mp_walk fuel es s1); [done|done|simpl; lia|done]]. cbn [negb].
  destruct (foldl_entries es s1 Hl) as (F1 & F2 & F3 & F4 & F5). set (s2 := foldl _ s1 es) in *.
  assert (mp_mem s2 !! (mp + 12) = Some 0) as Hi2 by by rewrite F3. rewrite (bind_ok _ _ _ _ _ (at_mem_ld8 _ _ _ Hi2)). simpl. split_and!; done.
Qed.

(** An entry of another type is never left: [mpinit] does not return, for
    any number of turns of its loop. *)
Theorem mpinit_stuck_on_unknown s conf mp lapic es t rest :
  mp_table (mp_mem s) conf mp lapic es (t :: rest) → t ∉ [MPPROC; MPBUS; MPIOAPIC; MPIOINTR; MPLINTR] → ∀ fuel, mpinit fuel s = Err OutOfFuel.
Proof using Type.
  intros T Ht fuel. rewrite (mpinit_starts _ _ _ _ _ _ _ T). destruct T as [_ T2 T3 _ _]. set (s1 := set_mp_lapic (uint_of lapic) s).
  set (e := conf + 44 + _). apply bind_err.
  assert (∀ fuel s2 p b, mp_mem s2 !! p = Some t → p < e →
    loop fuel (λ '(p, ismp), if Z.ltb p e then x ← mp_entry p ismp; mret (inl x) else mret (inr ismp)) (p, b) s2 = Err OutOfFuel) as Hstuck.
  { clear fuel. induction fuel as [|fuel IH]; intros s2 p b Hp Hlt; [done|]. rewrite (loop_inl _ _ _ _ (p, false) s2); [by apply IH|].
    rewrite (proj2 (Z.ltb_lt _ _)) by done. rewrite !not_elem_of_cons in Ht. destruct Ht as (N0 & N1 & N2 & N3 & N4 & _).
    assert (mp_entry p b s2 = Ok ((p, false), s2)) as E; [|by rewrite (bind_ok _ _ _ _ _ E)].
    unfold mp_entry. rewrite (bind_ok _ _ _ _ _ (at_mem_ld8 _ _ _ Hp)). rewrite !(proj2 (Z.eqb_neq t _)) by done. done. }
  assert (e = conf + 44 + Z.of_nat (length (concat (entry_bytes <$> es))) + 1 + Z.of_nat (length rest)) as He by (unfold e; simpl; lia). clearbody e.
  change (bytes_at (mp_mem s1) (conf + 44) (concat (entry_bytes <$> es) ++ t :: rest)) in T3. revert He T3. generalize (conf + 44) as p. generalize s1. clear -Hstuck T2. revert fuel.
  induction es as [|x es IH]; intros fuel s2 p He Hb.
  - apply Hstuck; [|simpl in He; lia]. pose proof (Hb 0%nat t eq_refl) as H0. by rewrite Z.add_0_r in H0.
  - destruct fuel as [|fuel]; [done|]. apply Forall_cons in T2 as [Hx Hok]. rewrite fmap_cons in Hb, He. cbn [concat] in Hb, He. rewrite length_app in He. rewrite <-app_assoc in Hb.
    rewrite (loop_inl _ _ _ _ (p + Z.of_nat (length (entry_bytes x)), true) (after_entry x s2)).
    + apply IH; [done|lia|]. destruct (after_entry_mem x s2) as (-> & _). intros i v Hv.
      replace (p + Z.of_nat (length (entry_bytes x)) + Z.of_nat i) with (p + Z.of_nat (length (entry_bytes x) + i)) by lia. apply Hb.
      rewrite lookup_app_r by lia. by replace (length (entry_bytes x) + i - length (entry_bytes x))%nat with i by lia.
    + rewrite (proj2 (Z.ltb_lt _ _)) by (destruct x; simpl in *; lia). by rewrite (bind_ok _ _ _ _ _ (mp_entry_run s2 p true x _ Hx Hb)).
Qed.
End mpinit.

(** ** A machine with two processors *)

Module MpSample.
Definition entries : list mpentry := [EProc 7 ([20; 3] ++ replicate 16 0); EProc 9 ([20; 1] ++ replicate 16 0); EIoapic 4 ([17; 1] ++ replicate 4 0); EOther MPBUS (replicate 7 0)].
Definition lapic : list Z := [0; 0; 224; 254].
Definition header (len cksum : Z) : list Z :=
  PCMP_SIG ++ [len; 0; 4; cksum] ++ replicate 26 0 ++ [4; 0] ++ lapic ++ replicate 4 0.
(** The floating pointer is at the start of the extended BIOS data area. *)
Definition memory (conf : list Z) : bmem :=
  write_bytes (P2V 1024 + 14) [192; 159] (write_bytes (P2V 654336) (MP_SIG ++ [16; 252; 9; 0; 1; 4; 139; 0; 0; 0; 0; 0] ++ conf) ∅).
Definition machine (conf : list Z) : mpst unit := mkMp (memory conf) tt [] 0 0.
Definition good : list Z := header 100 49 ++ concat (entry_bytes <$> entries).
(** An entry of type 129 follows the first processor. *)
Definition unknown : list Z := [129; 0] ++ replicate 6 0.
Definition strange : list Z := header 72 3 ++ concat (entry_bytes <$> take 1 entries) ++ unknown.
#[local] Instance no_ports : IdePorts unit :=
  { inb _ := mret 0; outb _ _ := mret tt; outsl _ _ := mret tt; insl _ := mret []; ioapicenable _ _ := mret tt; polls := 0%nat }.

Lemma bytes_at_by (m : bmem) a l : (λ i, m !! (a + Z.of_nat i)) <$> seq 0 (length l) = Some <$> l → bytes_at m a l.
Proof.
  intros H i x Hx. assert (((λ i, m !! (a + Z.of_nat i)) <$> seq 0 (length l)) !! i = Some (Some x)) as E by (rewrite H, list_lookup_fmap; by rewrite Hx).
  rewrite list_lookup_fmap in E. apply lookup_lt_Some in Hx. rewrite lookup_seq_lt in E by done. by injection E.
Qed.

Definition found (m : bmem) : option (Z * Z) := match mpconfig m with Ok (r, _) => r | Err _ => None end.
Lemma found_conf m x : found m = Some x → mpconfig m = Ok (Some x, m).
Proof. unfold found. destruct (mpconfig m) as [[r m']|] eqn:E; [|done]. intros ->. by rewrite (looks_config _ _ _ E). Qed.

Lemma good_table : mp_table (memory good) (P2V 654352) (P2V 654336) lapic entries [].
Proof.
  split; [apply found_conf; vm_compute; reflexivity|repeat constructor; set_solver|apply bytes_at_by; vm_compute; reflexivity| |split; [apply bytes_at_by; vm_compute; reflexivity|done]].
  exists 100, 0. split; [apply bytes_at_by; vm_compute; reflexivity|reflexivity].
Qed.
Lemma strange_table : mp_table (memory strange) (P2V 654352) (P2V 654336) lapic (take 1 entries) unknown.
Proof.
  split; [apply found_conf; vm_compute; reflexivity|repeat constructor|apply bytes_at_by; vm_compute; reflexivity| |split; [apply bytes_at_by; vm_compute; reflexivity|done]].
  exists 72, 0. split; [apply bytes_at_by; vm_compute; reflexivity|reflexivity].
Qed.

Lemma mpinit_finds_processors_witness : wp (mpinit 10) (λ _ s', mp_cpus s' = [7; 9] ∧ mp_ioapicid s' = 4 ∧ mp_lapic s' = 4276092928) (machine good).
Proof.
  eapply wp_mono; [apply (mpinit_finds_processors (machine good) 10 _ _ _ _ good_table)|].
  - vm_compute. reflexivity.
  - simpl. unfold NCPU. lia.
  - simpl. lia.
  - intros [] s' (E1 & E2 & E3 & _). rewrite E1, E2, E3. done.
Qed.
Lemma mpinit_stuck_witness fuel : mpinit fuel (machine strange) = Err OutOfFuel.
Proof. apply (mpinit_stuck_on_unknown (machine strange) _ _ _ _ 129 _ strange_table). unfold MPPROC, MPBUS, MPIOAPIC, MPIOINTR, MPLINTR. set_solver by lia. Qed.
End MpSample.
Close Scope Z_scope.
